(* ===== verification/_CoqProject ===== *)
-Q . S2P
Prelude.v
GoStrings.v
AuthzCore.v
AuthzMatch.v
AuthzActions.v
AuthzConditions.v
AuthzPDP.v
AuthzProfileSpec.v
AuthzProfileLink.v
AuthzWatcher.v
AuthzSync.v
AuthzReach.v
AuthzWitness.v
GoValue.v
PatchPath.v
PatchOps.v
PatchPathSpec.v
PatchOpsSpec.v
PatchCreateSpec.v
GatewayConn.v
GatewayConnSpec.v
FabricMesh.v
FabricSpec.v
GatewayReach.v
GatewayServer.v
GatewayServerSpec.v
GatewayWitness.v
RenderErrors.v
TemplateCache.v
TemplateScan.v
TemplateEngine.v
TemplateSpec.v
TemplateCacheSpec.v
Renderer.v
TraitProcessor.v
TraitSpec.v
TraitFrame.v
PostProcess.v
PostProcessSpec.v
ComponentPipeline.v
RenderWitness.v
ReleaseObjects.v
PlaneObjects.v
PlaneRefs.v
ReleaseController.v
ReleaseSpec.v
ReleaseConverge.v
ReleaseWitness.v
PlaneProxy.v
GatewayClient.v
PlaneControllers.v
PlaneProxySpec.v
PlaneSpec.v
PlaneRelease.v
PlaneWitness.v
K8sNames.v
NetworkPolicy.v
WorkloadContext.v
WorkloadContextSpec.v
BindingObjects.v
TenantIsolation.v
BindingConnections.v
BindingEndpoints.v
BindingDelivery.v
BindingDeliverySpec.v
BindingController.v
BindingSpec.v
BindingConnectionsSpec.v
BindingWitness.v
InsightsCompute.v
InsightsStore.v
InsightsAggregator.v
InsightsFactsSpec.v
InsightsSweepSpec.v
InsightsLeaseSpec.v
InsightsRollupSpec.v
InsightsDeliverySpec.v
InsightsService.v
InsightsServiceSpec.v
InsightsWitness.v
