(* ===== verification/Prelude.v ===== *)
(** * OpenChoreo: a verification library for the control plane's core logic

    OpenChoreo is an internal developer platform on Kubernetes: a control
    plane of Go services and controllers that decide who may do what, render
    components into Kubernetes resources and deliver them to data planes.  This
    library models parts of the Go code that carry decisions of their own, as
    executable definitions, and proves what makes them correct.

    ** The parts and how they interact

    - Authorization ([internal/authz]).  Roles list action patterns, bindings
      give a role to an entitlement within a scope, allow or deny, under
      conditions.  Informers watch these objects and turn them into rules of a
      Casbin enforcer ([casbin/k8s_watcher.go]); the policy decision point asks
      the enforcer about requests ([casbin/pdp.go], with the matching functions
      of [casbin/helpers.go] and the model file [casbin/rbac_model.conf]); the
      same rules are summarised into a profile for user interfaces
      ([GetSubjectProfile]).  The registry of actions and of the attributes a
      condition may use is in [core/actions.go] and [core/condition_registry.go].
    - Patches ([internal/patch], with [internal/clone]).  Traits change rendered
      resources by JSON Patch operations whose paths may contain filters,
      wildcards and indices; a path is expanded into the pointers it stands for
      and the operation is applied at each, in place.
    - Cluster gateway ([internal/cluster-gateway]).  The agents of the planes
      keep a connection to one of several gateway replicas, which records for
      which custom resources (CRs) the agent's certificate is valid
      ([connection_manager.go]) and publishes its connections to the other
      replicas by numbered deltas and snapshots ([fabric/registry.go],
      [fabric/mesh.go]).  A request for a CR is served by an authorised agent of
      the replica that received it, or forwarded one hop ([server.go]).
    - Rendering ([internal/template], [internal/pipeline/component]).  A
      component type is a list of templates whose strings hold CEL expressions
      between markers; the engine evaluates them under a cost budget, a deadline
      and two LRU caches ([engine.go], [engine_cache.go], [budget.go],
      [errors.go]).  The renderer adds conditions, loops and rules
      ([renderer]); traits create, patch and remove resources ([trait], by the
      patch engine); the pipeline puts this together, checks post-render rules
      on the result, labels, hashes, validates and sorts it ([pipeline.go],
      [postrender.go]).
    - Rendered releases ([internal/controller/renderedrelease]).  The rendered
      resources of a component become a release; its controller applies them to
      the plane of the environment, deletes what the release no longer has,
      records an inventory with health and cleans the plane before the
      release goes.
    - Planes.  Data, observability and workflow planes, in a namespace or of the
      cluster, are CRs with controllers of their own
      ([internal/controller/dataplane] and five more), which announce changes
      to the gateway ([internal/clients/gateway]), where agents are validated
      again ([plane_api.go]), and drop cached clients.  Objects refer to planes
      by name or by default ([internal/controller/reference.go]); the client of
      a plane ([internal/clients/kubernetes]) sends the calls of the Kubernetes
      API through the gateway's HTTP proxy ([server.go], [validator.go]).  The
      release controller is a user of such clients.
    - Release bindings ([internal/controller/releasebinding], with
      [internal/networkpolicy], [internal/dataplane/kubernetes] and the contexts
      of [internal/pipeline/component/context]).  A binding puts a release of a
      component into an environment: its workload, with overrides, secrets and
      what other components and resources offer, is rendered, named after the
      project and environment, given a network policy and handed on as a
      rendered release.  The binding's status tells the URLs of its endpoints,
      which the bindings of consumers wait for, and whether it is ready; the
      phases of a rollout are published as events in the plane.
    - Delivery insights ([internal/observer/store/insights], [service],
      [handlers], [authz]).  The observer reads these events, and the incidents,
      folds them into facts about deployments, recoveries and lead times and
      sums the facts into a row per day, week or month of each component; one
      replica at a time does this, under a lease.  A query of the four DORA
      measures is validated, authorised on its scope and answered from the rows
      and facts.

    ** Files

    - [Prelude]: the result type, the state-and-error monad [M] of code that
      mutates and may fail, tactics, hint databases and generic lemmas.
    - [GoStrings]: the functions of the packages strings, strconv and sort the
      sources use, on byte strings, with their laws ([Split]/[Join],
      [Atoi]/[Itoa], prefixes).
    - [AuthzCore]: types, the action table, the condition registry and the
      functions over them.
    - [AuthzMatch]: paths, actions, subjects, validation ([helpers.go]); a path
      covers exactly the descendants of its hierarchy; round trips.
    - [AuthzActions]: the three expansions of action patterns agree; the
      attributes offered for a set of patterns.
    - [AuthzConditions]: storage, activation and evaluation of conditions; they
      fail closed.  The CEL engine and the JSON codec are the classes
      [CELEngine] and [JSONCodec], the codec's laws [JSONCodecLaws].
    - [AuthzPDP]: the model file, the interface [CasbinEnforcer] with its
      documented laws [CasbinLaws], [Evaluate] and [BatchEvaluate] and what
      their decisions mean; the profile of a subject.
    - [AuthzProfileSpec], [AuthzProfileLink]: what the profile's reading
      means over an abstract set of entries, and the refinement of the
      enforcer's decision by the endpoint.  Two theorems show where the
      reading grants more than the enforcer.
    - [AuthzWatcher]: the custom resources and the informer handlers, one
      definition per handler, as computations of [M] over the enforcer.
    - [AuthzSync]: the diffs are set differences, and every handler changes the
      rules by exactly the tuples of its object.
    - [AuthzReach]: informer events as a step relation over the enforcer and the
      live objects, the invariant that the rules are the tuples of the live
      objects, and the end-to-end theorem that [Evaluate] decides by the live
      roles and bindings.  The invariant needs that no namespaced binding
      shares its name with a cluster binding; a theorem shows why.
    - [AuthzWitness]: an in-memory enforcer, codec and condition language that
      satisfy the laws, and the theorems applied to a small cluster.
    - [GoValue]: dynamic values ([any]) as trees, deep copy, printing, and
      references into a tree with read-after-write and frame laws.
    - [PatchPath], [PatchPathSpec]: pointers and path expressions; pointers
      round-trip, and [expandPaths] returns exactly the selected nodes.
    - [PatchOps], [PatchOpsSpec], [PatchCreateSpec]: the operations; what they
      write, what they leave alone, which parents they create, how a list of
      operations stops; a small deployment, and two behaviours that differ from
      the documentation.
    - [GatewayConn], [GatewayConnSpec]: the connections, their index, round
      robin, status and re-validation, over a memory of connections that the
      index and running re-validations share; selection is authorised and fair,
      re-validation decides by the certificate.  [crypto/x509] is the class
      [X509].
    - [GatewayReach]: the manager's calls and the phases of re-validations as a
      step relation, with the invariant of the index and the counters.
    - [FabricMesh], [FabricSpec]: the registry, the owner's entries and the
      frame handler; an owner, an observer and a wire that loses, repeats and
      reorders frames, with the invariant that a view is a past state of its
      owner, the repair of gaps, and a late snapshot that takes a view back.
    - [GatewayServer], [GatewayServerSpec]: acceptance of agents, the mirror of
      the connections in the mesh, routing and rebalancing; a request reaches
      only authorised agents and is not repeated unless that is safe; the mirror
      is exact unless a re-validation overlaps a departure, which is shown.
    - [GatewayWitness]: certificates that name their issuer, a plane with two
      agents, and the theorems applied to concrete runs.
    - [RenderErrors]: error values with the sentinels they
      wrap, the state-and-error monad [EM] with the rules for invariants
      ([preserves]), pairs of runs ([agrees]) and results ([yields]), bounded
      error fragments and cost budgets; truncation respects runes and bounds,
      charges are exact.
    - [TemplateCache]: the LRU cache on Go's linked list, which refines a list
      in order of last use, and the engine's two caches with their keys.
    - [TemplateScan]: the scanner for expressions; it terminates, and it inverts
      the printing of a template.
    - [TemplateEngine], [TemplateSpec], [TemplateCacheSpec]: evaluation and rendering; invariants of the shared state, the budget is
      overspent by less than one expression, static templates render to
      themselves, strings render part by part, and the caches are invisible.
      cel-go and encoding/json are the classes [CEL] and [JSON]; [RenderContext]
      is what the context answers each time it is asked.
    - [Renderer]: conditions, loops with their limits, resources
      and validation rules; every rendered resource is well formed.
    - [TraitProcessor], [TraitSpec], [TraitFrame]: creates, patches and removes
      over the shared context map and the slice of resources; which resources
      are targeted, that the context is restored on every path, what a patch, a
      create and a remove leave alone.
    - [PostProcess], [PostProcessSpec]: labels, hash,
      validation and order; the order is canonical and the hash does not depend
      on the order of rendering; post-render rules with their collector of
      failures, and the equivalence with a plain reference.
    - [ComponentPipeline]: [Pipeline.Render] from the contexts
      to the output; what a successful render returns and what every render has
      spent at most.  The struct validator and the builders of the contexts are
      the class [Contexts].
    - [RenderWitness]: a language of literals and variables, and a component
      with a trait rendered by evaluation.
    - [ReleaseObjects]: releases, inventories, conditions and
      the health of workloads; the Kubernetes libraries for unstructured
      objects, conditions and finalizers are classes with their laws.
    - [ReleaseController]: the reconciliation over the class [Cluster] of API
      servers that may answer anything; a run is recorded as its calls.
    - [ReleaseSpec], [ReleaseConverge]: what a run deletes, when
      the finalizer goes, what a written status says, and that a run without an
      error on a plane with current reads makes the plane what the release
      describes; one theorem shows a finalizer that goes too early.
    - [ReleaseWitness]: a plane in memory, a release with a dropped resource and
      one that is deleted.
    - [PlaneObjects]: the CRs of planes, references, errors with what
      [errors.As] finds in them, and the monad [CM] of calls that may fail.
    - [PlaneRefs]: the resolution of references; it is the
      documented one, and cluster-scoped objects stay in their scope.
    - [PlaneProxy]: escaping, API paths, the proxy client, the cache
      of clients and the provider.  The network, TLS files, codec and API errors
      are classes.
    - [GatewayClient]: validation, the proxy handler and the API
      of planes on the gateway's side, and the controllers' client of it.
    - [PlaneControllers]: the six controllers from their shared steps; what
      differs between them is a [PlaneKind].
    - [PlaneProxySpec]: a request of a plane's client reaches
      only agents authorised for its CR; cached clients belong to their plane.
    - [PlaneSpec]: the order of a deletion, by a logic of traces, and two
      changes that nobody notices.
    - [PlaneRelease]: controllers, client, routes and gateway put
      together; a change re-validates the agents, and the status of a
      cluster-scoped plane is not the one that is documented; the release
      controller on top of proxy clients, where a kind that a plane does not
      serve stops every release.
    - [PlaneWitness]: planes, a codec and a network that satisfy the laws, and
      the theorems applied to them.
    - [K8sNames]: SHA-256, FNV-1a and hexadecimal, written out,
      and generated names; they fit and are DNS names,
      and the hash tells lists of parts apart that do not contain the separator.
    - [WorkloadContext], [WorkloadContextSpec]: overrides, configuration and secret items, the names of their objects, the
      ports of a service, the gateways templates see, and the outputs of
      resources as variables and mounts, complete or an error.
    - [NetworkPolicy]: workloads; the policies of a component, read by
      the rules of the two policy APIs, admit what the endpoints declare; which
      of them are deterministic.
    - [BindingObjects]: release bindings with their status, what they deploy,
      and the names and labels of a release.
    - [TenantIsolation]: projects that share a data plane namespace, and services
      cut off from their pods.
    - [BindingConnections], [BindingConnectionsSpec]: connections, resource
      dependencies and secrets of a binding, the indexes and watch mappings; a
      binding waits for exactly what is pending, a change of a provider wakes its
      consumers, secrets are not dropped; environments that a change of their
      plane does not wake, and gateways read in two ways.
    - [BindingEndpoints]: the URLs of endpoints, readiness by kind of workload and
      the aggregated condition.
    - [BindingDelivery], [BindingDeliverySpec]: the events of a rollout and their
      markers; reconciliations as a step relation in which calls fail, status
      writes are lost and events expire, with the invariant that the phases are
      in order, and a failure that is never closed.  The plane is the class
      [EventClient] with the laws [EventLaws].
    - [BindingController], [BindingSpec]: the reconciliation over the class
      [BindingEnv], undeployment and finalization; by a logic of runs, what is
      written and deleted, and whose releases an undeployment deletes; the
      aggregated condition is exactly the conjunction of the others; readiness
      from the health of another revision, and workloads that do not count.
    - [BindingWitness]: events and releases in memory, and the theorems applied.
    - [InsightsCompute]: means, percentiles, classifications and time buckets
      over a calendar written out, which partition time.
    - [InsightsStore]: the tables with the rules of their statements, merging
      included, as state behind a server that may fail before or after the
      effect of a statement, and the reads, one page after another.
    - [InsightsAggregator]: payloads of events, sweeps with their cursors, the
      lease, incidents and the rebuilding of rows.
    - [InsightsFactsSpec]: the facts are what the events report, in any order
      and however often they are folded.
    - [InsightsSweepSpec]: a cursor only passes what was folded, so that no event
      is skipped; an event without a time stops the aggregation.
    - [InsightsLeaseSpec]: replicas, turns and clocks as a step relation; at most
      one holds the lease, and every failed tick is reported as a lost lease.
    - [InsightsRollupSpec]: rows of touched buckets equal a fold over the facts of
      their scope; rows that no sweep touches keep what they had.
    - [InsightsDeliverySpec]: the events of [BindingDelivery] folded by the
      aggregator; the facts refine the episodes of the rollouts.
    - [InsightsService], [InsightsServiceSpec]: validation, scope, authorization,
      queries, summaries and handlers; an answer depends on the rows and facts of
      its scope alone, and the series adds up to the summary.
    - [InsightsWitness]: payloads, a store and a resolver in memory, and the
      theorems applied.

    ** Modelling choices

    Strings are byte strings.  Errors are the text of their message, so that
    different failures are different values; [%q] is modelled for texts that
    need no escape.  Logging is left out, except where evaluating a log
    argument panics ([GetSubjectProfile]).  Go maps are [gmap]; where the
    iteration order of a map reaches the result it is a parameter ([MapRange]).
    Third-party code (Casbin, CEL, encoding/json, the Kubernetes informers) is
    a class or a step relation with the documented behaviour as laws.  A
    document is a tree, so that a Go pointer into it is a path ([ref]); a value
    that holds a typed slice is copied by [DeepCopy] as Go copies it, by
    reference, and the sharing this may create is outside the model.
    [segmentLoop] recurses on fuel, the length of the segment: every iteration
    consumes a byte, and the theorems show that the fuel is enough.  The limits
    of the code, 65536 path states, 2^24 array elements and 1024 frames in an
    outbox, are kept; sequence numbers are 64-bit, and the replication theorems
    cover the first 2^64 changes of an owner.  A call that holds a lock is one
    step; a re-validation, which releases it, is one step per phase and per
    connection.  [spansLoop] recurses on fuel, one more than the length of the
    string, which the termination theorem shows to be enough.  During a render
    the resources are values: every map and slice of a rendered resource is
    built anew by [RemoveOmittedFields], so that resources share nothing, except
    elements of a typed slice that a context hands out whole, which are outside
    the model.  New identifiers, the clock, the outcome of a network hop and
    what an agent answers are arguments.  The API servers are state behind a
    class: a call may change that state and return anything, so that safety
    theorems hold for every server; what a theorem needs of one is a law.  A run
    of a controller keeps the list of its calls with their answers.  The jitter
    of a requeue interval, a fraction in floating point, is a parameter.  Errors
    of the plane code carry their text and the classes that callers ask for.
    Names are generated from ASCII parts.  [uniqueLoop] recurses on fuel, two
    more than the number of names in use, which the theorem on service ports
    shows to be enough.  A reconciliation of a binding reads the clock once; what
    a field of the binding is assigned before an error is what the deferred
    update writes, so the binding is state of the run.  Durations of the insights
    are whole milliseconds.  A table is a map from its primary key; a statement
    has the effect that its text describes, on exact BIGINT values.  A turn of
    the aggregator takes from its environment what the clock says, what other
    sessions do between two statements and which statements fail.  An exhaustive
    read asks for at most [pageFuel] pages, where the theorems that need it say
    when that is enough; [bucketLoop] recurses on the number of days of its
    range, since no bucket is shorter than a day.  Rates are binary64 by the
    standard library's [SpecFloat]; the rank of a percentile is the integer
    ceiling, which [ranks_agree] compares with the rounded product of the code.
    [time.Parse], the JSON of a payload, the resolver of UIDs and the policy
    decision point are classes.

    ** Not modelled

    The assembly of the render contexts, the pipelines of projects, resources
    and workflows, schema defaulting ([internal/schema]), the controllers other
    than those of rendered releases, release bindings and planes, the cluster
    agent's router, pagination and the other services of the API server,
    validation and webhooks have logic of their own that is left out.  Of the
    insights, the migrations and SQL dialects, the goroutines that renew the
    lease and run the loop, the JSON of responses and the HTTP of the UID resolver
    are left out, with the rest of the observer.  The policy
    administration point, the remaining HTTP and websocket handlers, TLS set-up
    of servers, the command line, generated code and wiring
    are input and output without decisions of their own. *)

From Stdlib Require Export Ascii.
From stdpp Require Export base gmap strings list list_numbers fin_maps sorting pretty.
From Stdlib Require Export ZArith Lia.

(** ** Scope and result type *)

Declare Scope go_scope.
Delimit Scope go_scope with go.

(** A Go function of type [(T, error)]: the value, or the error.  The error is
    kept as the text of its message so that different failures stay different
    values. *)
Inductive result (A : Type) : Type :=
  | Ok (a : A)
  | Err (msg : string).
Arguments Ok {A} a.
Arguments Err {A} msg.

Definition result_bind {A B} (r : result A) (k : A → result B) : result B :=
  match r with
  | Ok a => k a
  | Err m => Err m
  end.

Notation "'let?' x ':=' r 'in' k" := (result_bind r (λ x, k))
  (at level 10, x pattern, r at level 100, k at level 200)
  : go_scope.

Definition is_ok {A} (r : result A) : bool :=
  match r with Ok _ => true | Err _ => false end.

#[global] Instance result_eq_dec {A} `{!EqDecision A} : EqDecision (result A).
Proof. solve_decision. Defined.

Lemma result_bind_Ok {A B} (r : result A) (k : A → result B) b :
  result_bind r k = Ok b ↔ ∃ a, r = Ok a ∧ k a = Ok b.
Proof. destruct r; simpl; naive_solver. Qed.

(** A call that may also end in a run-time panic (a nil dereference). *)
Inductive outcome (A : Type) : Type :=
  | Returns (a : A)
  | Panics.
Arguments Returns {A} a.
Arguments Panics {A}.

(** [mapM]-style loop of a fallible body that stops at the first error. *)
Fixpoint result_map {A B} (f : A → result B) (l : list A) : result (list B) :=
  match l with
  | [] => Ok []
  | x :: l => result_bind (f x) (λ y, result_bind (result_map f l) (λ ys, Ok (y :: ys)))
  end.

Lemma result_map_Ok {A B} (f : A → result B) l ys :
  result_map f l = Ok ys ↔ Forall2 (λ x y, f x = Ok y) l ys.
Proof.
  revert ys; induction l as [|x l IH]; intros ys; simpl.
  - split; [by intros [= <-]|inversion 1; done].
  - rewrite result_bind_Ok. setoid_rewrite result_bind_Ok. split.
    + intros (y & Hy & ys' & Hys & [= <-]). constructor; [done|]. by apply IH.
    + inversion 1 as [|? y ? ys' Hy Hys]; subst.
      exists y; split; [done|]. exists ys'. split; [by apply IH|done].
Qed.

(** ** State and errors *)

Section Monad.
Context {E : Type}.

(** A computation on a mutable state; what was done before an error stays done. *)
Definition M (A : Type) : Type := E → E * result A.

#[global] Instance M_ret : MRet M := λ _ a e, (e, Ok a).

#[global] Instance M_bind : MBind M := λ _ _ k m e,
  match m e with
  | (e', Ok a) => k a e'
  | (e', Err msg) => (e', Err msg)
  end.

Definition ofResult {A} (r : result A) : M A := λ e, (e, r).

(** [fmt.Errorf("<prefix>: %w", err)] *)
Definition wrapErr {A} (prefix : string) (m : M A) : M A := λ e,
  match m e with
  | (e', Err msg) => (e', Err (prefix +:+ ": " +:+ msg))
  | r => r
  end.

(** The error is logged and the next statement runs. *)
Definition logErr {A} (m : M A) : M unit := λ e, ((m e).1, Ok ()).

Fixpoint forEach {A} (body : A → M unit) (l : list A) : M unit :=
  match l with
  | [] => mret ()
  | x :: l => body x ≫= λ _, forEach body l
  end.

End Monad.
Arguments M : clear implicits.

(** ** Iteration over Go maps *)

(** [range] over a Go map visits the entries in an unspecified order. *)
Class MapRange := map_range : ∀ {A}, gmap string A → list (string * A).
Class MapRangeLaws `{MapRange} :=
  map_range_perm : ∀ {A} (m : gmap string A), map_range m ≡ₚ map_to_list m.

(** ** Tactics *)

(** Case analysis on the scrutinee of a boolean test or match in the goal. *)
Ltac case_goal :=
  match goal with
  | |- context [if ?b then _ else _] => destruct b eqn:?
  | |- context [match ?b with _ => _ end] => destruct b eqn:?
  end.

Ltac bool_simpl :=
  repeat match goal with
  | H : andb _ _ = true |- _ => apply andb_true_iff in H; destruct H
  | H : orb _ _ = false |- _ => apply orb_false_iff in H; destruct H
  | H : negb _ = true |- _ => apply negb_true_iff in H
  | H : negb _ = false |- _ => apply negb_false_iff in H
  | H : bool_decide _ = true |- _ => apply bool_decide_eq_true in H
  | H : bool_decide _ = false |- _ => apply bool_decide_eq_false in H
  | H : Nat.eqb _ _ = true |- _ => apply Nat.eqb_eq in H
  | H : Nat.eqb _ _ = false |- _ => apply Nat.eqb_neq in H
  | H : String.eqb _ _ = true |- _ => apply String.eqb_eq in H
  | H : String.eqb _ _ = false |- _ => apply String.eqb_neq in H
  end.

(** ** Hint databases *)

(** [go]: facts about the Go string functions used to close side conditions. *)
Create HintDb go discriminated.

(** [go_str]: normal form of string concatenations. *)
Create Rewrite HintDb go_str.

(** ** Generic list lemmas *)

Lemma existsb_elem {A} (f : A → bool) (l : list A) :
  existsb f l = true ↔ ∃ x, x ∈ l ∧ f x = true.
Proof. rewrite existsb_exists. setoid_rewrite <- list_elem_of_In. done. Qed.

Lemma existsb_elem_false {A} (f : A → bool) (l : list A) :
  existsb f l = false ↔ ∀ x, x ∈ l → f x = false.
Proof.
  rewrite <- not_true_iff_false, existsb_elem. split.
  - intros H x Hx. apply not_true_iff_false. naive_solver.
  - intros H (x & Hx & Hf). rewrite H in Hf; done.
Qed.

Lemma existsb_ext_elem {A} (f g : A → bool) (l1 l2 : list A) :
  (∀ x, x ∈ l1 ↔ x ∈ l2) → (∀ x, f x = g x) → existsb f l1 = existsb g l2.
Proof.
  intros Hl Hf. apply eq_bool_prop_intro.
  rewrite !Is_true_true, !existsb_elem. setoid_rewrite Hl. setoid_rewrite Hf. done.
Qed.

(** A filter that every element passes, or fails. *)
Lemma filter_all {A} (P : A → Prop) `{!∀ x, Decision (P x)} (l : list A) :
  (∀ x, x ∈ l → P x) → filter P l = l.
Proof.
  induction l as [|x l IH]; intros Hl; [done|].
  rewrite filter_cons_True by (apply Hl; left). f_equal. apply IH. intros y Hy. apply Hl. by right.
Qed.

Lemma filter_none {A} (P : A → Prop) `{!∀ x, Decision (P x)} (l : list A) :
  (∀ x, x ∈ l → ¬ P x) → filter P l = [].
Proof.
  induction l as [|x l IH]; intros Hl; [done|].
  rewrite filter_cons_False by (apply Hl; left). apply IH. intros y Hy. apply Hl. by right.
Qed.
