(* ===== verification/GoStrings.v ===== *)
(** * Go's [strings] and [strconv], as used by the modelled packages

    Go strings are byte strings; they are [string] (a list of [ascii]) here.
    Each function below is the function of the same name of the Go standard
    library on the arguments the modelled code passes to it: separators are one
    byte, cut sets are one byte, and white space and letter case are the ASCII
    ones. *)

From S2P Require Import Prelude.


(** ** Appending *)

Lemma sapp_nil_l s : "" +:+ s = s.
Proof. done. Qed.

Lemma sapp_cons c s t : String c s +:+ t = String c (s +:+ t).
Proof. done. Qed.

Lemma sapp_nil_r s : s +:+ "" = s.
Proof. induction s as [|c s IH]; [done|]. by rewrite sapp_cons, IH. Qed.

Lemma sapp_assoc s t u : (s +:+ t) +:+ u = s +:+ (t +:+ u).
Proof. induction s as [|c s IH]; [done|]. by rewrite !sapp_cons, IH. Qed.

Lemma sapp_length s t : String.length (s +:+ t) = String.length s + String.length t.
Proof. induction s as [|c s IH]; [done|]. rewrite sapp_cons. simpl. by rewrite IH. Qed.

Lemma sapp_inj_1 s1 s2 t1 t2 :
  String.length s1 = String.length s2 → s1 +:+ t1 = s2 +:+ t2 → s1 = s2 ∧ t1 = t2.
Proof.
  revert s2; induction s1 as [|c s1 IH]; intros [|c2 s2] Hl Heq;
    simpl in Hl; try done.
  rewrite !sapp_cons in Heq. injection Hl as Hl. injection Heq as -> Heq.
  destruct (IH s2 Hl Heq) as [-> ->]; auto.
Qed.

Lemma sapp_inj_2 s1 s2 t1 t2 :
  String.length t1 = String.length t2 → s1 +:+ t1 = s2 +:+ t2 → s1 = s2 ∧ t1 = t2.
Proof.
  intros Hl Heq. apply sapp_inj_1; [|done].
  assert (String.length (s1 +:+ t1) = String.length (s2 +:+ t2)) as H by by rewrite Heq.
  rewrite !sapp_length in H. lia.
Qed.

#[export] Hint Rewrite sapp_nil_l sapp_nil_r sapp_cons sapp_assoc : go_str.

(** ** Membership of a byte in a string *)

Fixpoint has_byte (c : ascii) (s : string) : bool :=
  match s with
  | "" => false
  | String d s => bool_decide (c = d) || has_byte c s
  end.

Lemma has_byte_app c s t : has_byte c (s +:+ t) = has_byte c s || has_byte c t.
Proof. induction s as [|d s IH]; [done|]. rewrite sapp_cons. simpl. by rewrite IH, orb_assoc. Qed.

(** ** Prefixes, suffixes, substrings *)

Definition HasPrefix (s p : string) : bool := String.prefix p s.

Lemma HasPrefix_spec s p : HasPrefix s p = true ↔ ∃ k, s = p +:+ k.
Proof.
  unfold HasPrefix. revert s; induction p as [|c p IH]; intros s; simpl.
  - split; [by exists s|]. by destruct s.
  - destruct s as [|d s]; simpl.
    + split; [done|]. by intros [k Hk].
    + destruct (ascii_dec c d) as [->|Hne].
      * rewrite IH. setoid_rewrite sapp_cons. naive_solver.
      * split; [done|]. intros [k Hk]. rewrite sapp_cons in Hk. congruence.
Qed.

Fixpoint sdrop (n : nat) (s : string) : string :=
  match n, s with
  | 0, _ => s
  | S n, String _ s => sdrop n s
  | S _, "" => ""
  end.

Fixpoint stake (n : nat) (s : string) : string :=
  match n, s with
  | S n, String c s => String c (stake n s)
  | _, _ => ""
  end.

Lemma stake_sdrop n s : stake n s +:+ sdrop n s = s.
Proof.
  revert s; induction n as [|n IH]; intros [|c s]; simpl; try done.
  rewrite sapp_cons. by rewrite IH.
Qed.

Lemma sdrop_app s t : sdrop (String.length s) (s +:+ t) = t.
Proof. induction s as [|c s IH]; [done|]. by rewrite sapp_cons. Qed.

Lemma stake_app s t : stake (String.length s) (s +:+ t) = s.
Proof. induction s as [|c s IH]; [by destruct t|]. rewrite sapp_cons. simpl. by rewrite IH. Qed.

Lemma stake_length n s : n ≤ String.length s → String.length (stake n s) = n.
Proof.
  revert s; induction n as [|n IH]; intros [|c s] H; simpl in *; try lia.
  rewrite IH; lia.
Qed.

Definition HasSuffix (s suf : string) : bool :=
  (String.length suf <=? String.length s)%nat &&
  String.eqb (sdrop (String.length s - String.length suf) s) suf.

Lemma HasSuffix_spec s suf : HasSuffix s suf = true ↔ ∃ k, s = k +:+ suf.
Proof.
  unfold HasSuffix. rewrite andb_true_iff, Nat.leb_le, String.eqb_eq. split.
  - intros [Hl Heq]. exists (stake (String.length s - String.length suf) s).
    by rewrite <- Heq at 2; rewrite stake_sdrop.
  - intros [k ->]. rewrite sapp_length. split; [lia|].
    replace (String.length k + String.length suf - String.length suf)
      with (String.length k) by lia.
    apply sdrop_app.
Qed.

Fixpoint Contains (s sub : string) : bool :=
  HasPrefix s sub ||
  match s with
  | "" => false
  | String _ s => Contains s sub
  end.

Lemma Contains_byte s c : Contains s (String c "") = has_byte c s.
Proof.
  induction s as [|d s IH]; [done|]. cbn [Contains has_byte]. rewrite IH. f_equal.
  unfold HasPrefix. simpl. destruct (ascii_dec c d) as [->|Hne].
  - rewrite bool_decide_eq_true_2 by done. by destruct s.
  - by rewrite bool_decide_eq_false_2.
Qed.

Lemma HasPrefix_nil s : HasPrefix s "" = true.
Proof. by destruct s. Qed.

Lemma HasPrefix_cons d s c p : HasPrefix (String d s) (String c p) = bool_decide (c = d) && HasPrefix s p.
Proof.
  unfold HasPrefix. cbn [String.prefix]. destruct (ascii_dec c d) as [->|Hne].
  - by rewrite bool_decide_eq_true_2.
  - by rewrite bool_decide_eq_false_2.
Qed.

(** [strings.Index]; [None] is -1. *)
Fixpoint Index (s sub : string) : option nat :=
  if HasPrefix s sub then Some 0
  else match s with
       | "" => None
       | String _ s => S <$> Index s sub
       end.

Lemma Index_split s sub k : Index s sub = Some k → s = stake k s +:+ sub +:+ sdrop (k + String.length sub) s.
Proof.
  revert k. induction s as [|c s IH]; intros k; cbn [Index]; destruct (HasPrefix _ sub) eqn:Hp.
  - intros [= <-]. apply HasPrefix_spec in Hp as [t Ht]. by destruct sub.
  - done.
  - intros [= <-]. apply HasPrefix_spec in Hp as [t Ht]. rewrite Ht. cbn [stake Nat.add].
    by rewrite sdrop_app.
  - intros Hk. apply fmap_Some in Hk as (k' & Hk & ->). rewrite (IH k' Hk) at 1. done.
Qed.

(** [s[a:b]] *)
Definition slice (s : string) (a b : nat) : string := stake (b - a) (sdrop a s).

(** [strings.TrimPrefix] *)
Definition TrimPrefix (s p : string) : string :=
  if HasPrefix s p then sdrop (String.length p) s else s.

(** ** Splitting at a byte *)

(** [IndexByte s c]: the position of the first [c], [strings.Index] of a
    one-byte needle; [None] stands for -1. *)
Fixpoint IndexByte (c : ascii) (s : string) : option nat :=
  match s with
  | "" => None
  | String d s => if bool_decide (c = d) then Some 0 else S <$> IndexByte c s
  end.

(** [strings.LastIndex] of a one-byte needle. *)
Fixpoint LastIndexByte (c : ascii) (s : string) : option nat :=
  match s with
  | "" => None
  | String d s =>
      match LastIndexByte c s with
      | Some n => Some (S n)
      | None => if bool_decide (c = d) then Some 0 else None
      end
  end.

(** [strings.Split] at a one-byte separator: never empty. *)
Fixpoint Split (c : ascii) (s : string) : list string :=
  match s with
  | "" => [""]
  | String d s =>
      if bool_decide (c = d) then "" :: Split c s
      else match Split c s with
           | w :: ws => String d w :: ws
           | [] => [String d ""]
           end
  end.

(** [strings.Cut] at a one-byte separator. *)
Fixpoint Cut (c : ascii) (s : string) : string * string * bool :=
  match s with
  | "" => ("", "", false)
  | String d s =>
      if bool_decide (c = d) then ("", s, true)
      else let '(a, b, f) := Cut c s in (String d a, b, f)
  end.

(** [strings.Join]. *)
Fixpoint Join (ws : list string) (sep : string) : string :=
  match ws with
  | [] => ""
  | [w] => w
  | w :: ws => w +:+ sep +:+ Join ws sep
  end.

Lemma Split_not_nil c s : Split c s ≠ [].
Proof. destruct s as [|d s]; simpl; [done|]. repeat case_goal; done. Qed.

Lemma Split_no_byte c s : has_byte c s = false → Split c s = [s].
Proof.
  induction s as [|d s IH]; [done|]. cbn [has_byte Split]. rewrite orb_false_iff.
  intros [-> Hs]. by rewrite IH.
Qed.

Lemma Split_app_sep c s t :
  has_byte c s = false → Split c (s +:+ String c t) = s :: Split c t.
Proof.
  induction s as [|d s IH]; intros Hs.
  - rewrite sapp_nil_l. simpl. by rewrite bool_decide_eq_true_2.
  - cbn [has_byte] in Hs. apply orb_false_iff in Hs as [Hd Hs].
    rewrite sapp_cons. cbn [Split]. by rewrite Hd, (IH Hs).
Qed.

Lemma Split_Forall_no_byte c s : Forall (λ w, has_byte c w = false) (Split c s).
Proof.
  induction s as [|d s IH]; simpl; [repeat constructor|].
  case_goal; [by constructor|].
  destruct (Split c s) as [|w ws]; [by repeat constructor; simpl; rewrite orb_false_r|].
  inversion IH; subst. constructor; [|done]. simpl. by rewrite orb_false_iff.
Qed.

Lemma Split_Join c ws :
  ws ≠ [] → Forall (λ w, has_byte c w = false) ws → Split c (Join ws (String c "")) = ws.
Proof.
  intros Hne Hall. induction Hall as [|w ws Hw Hall IH]; [done|].
  destruct ws as [|w2 ws].
  - by apply Split_no_byte.
  - change (Join (w :: w2 :: ws) (String c ""))
      with (w +:+ String c "" +:+ Join (w2 :: ws) (String c "")).
    rewrite sapp_cons, sapp_nil_l, Split_app_sep by done. by rewrite IH.
Qed.

Lemma Join_Split c s : Join (Split c s) (String c "") = s.
Proof.
  induction s as [|d s IH]; [done|]. cbn [Split]. case_bool_decide as Hd; subst.
  - destruct (Split d s) as [|w ws] eqn:E; [by apply Split_not_nil in E|].
    change (Join ("" :: w :: ws) (String d "")) with ("" +:+ String d "" +:+ Join (w :: ws) (String d "")).
    by rewrite IH.
  - destruct (Split c s) as [|w ws] eqn:E; [by apply Split_not_nil in E|].
    destruct ws as [|w2 ws]; simpl in *; [by rewrite IH|].
    rewrite sapp_cons. by rewrite IH.
Qed.

Lemma Cut_app c s t : has_byte c s = false → Cut c (s +:+ String c t) = (s, t, true).
Proof.
  induction s as [|d s IH]; intros Hs.
  - rewrite sapp_nil_l. simpl. by rewrite bool_decide_eq_true_2.
  - cbn [has_byte] in Hs. apply orb_false_iff in Hs as [Hd Hs].
    rewrite sapp_cons. cbn [Cut]. by rewrite Hd, (IH Hs).
Qed.

(** ** Trimming *)

(** [strings.Trim] with a one-byte cut set. *)
Fixpoint TrimLeftByte (c : ascii) (s : string) : string :=
  match s with
  | "" => ""
  | String d s' => if bool_decide (c = d) then TrimLeftByte c s' else s
  end.

Fixpoint TrimRightByte (c : ascii) (s : string) : string :=
  match s with
  | "" => ""
  | String d s' =>
      match TrimRightByte c s' with
      | "" => if bool_decide (c = d) then "" else String d ""
      | t => String d t
      end
  end.

Definition TrimByte (c : ascii) (s : string) : string :=
  TrimRightByte c (TrimLeftByte c s).

Lemma TrimRightByte_id c s d :
  c ≠ d → TrimRightByte c (s +:+ String d "") = s +:+ String d "".
Proof.
  intros Hne. induction s as [|e s IH].
  - rewrite sapp_nil_l. simpl. by rewrite bool_decide_eq_false_2.
  - rewrite sapp_cons. cbn [TrimRightByte]. rewrite IH. by destruct s.
Qed.

Lemma TrimRightByte_no_tail c s t :
  t ≠ "" → has_byte c t = false → TrimRightByte c (s +:+ t) = s +:+ t.
Proof.
  intros Ht Hb. induction s as [|e s IH].
  - rewrite sapp_nil_l. clear Ht. induction t as [|d t IH]; [done|].
    cbn [has_byte] in Hb. apply orb_false_iff in Hb as [Hd Hb].
    cbn [TrimRightByte]. rewrite (IH Hb), Hd. by destruct t.
  - rewrite sapp_cons. cbn [TrimRightByte]. rewrite IH. by destruct s, t.
Qed.

(** [unicode.IsSpace] on ASCII. *)
Definition is_space (c : ascii) : bool := Ascii.is_space c.

Fixpoint TrimLeftSpace (s : string) : string :=
  match s with
  | "" => ""
  | String d s' => if is_space d then TrimLeftSpace s' else s
  end.

Fixpoint TrimRightSpace (s : string) : string :=
  match s with
  | "" => ""
  | String d s' =>
      match TrimRightSpace s' with
      | "" => if is_space d then "" else String d ""
      | t => String d t
      end
  end.

Definition TrimSpace (s : string) : string := TrimRightSpace (TrimLeftSpace s).

(** ** Replacing *)

(** [strings.ReplaceAll] of a non-empty needle: leftmost, non-overlapping; [skip]
    counts the bytes of the occurrence still to be passed over. *)
Fixpoint replace_go (old new : string) (skip : nat) (s : string) : string :=
  match s with
  | "" => ""
  | String c s' =>
      match skip with
      | S k => replace_go old new k s'
      | 0 => if HasPrefix s old
             then new +:+ replace_go old new (String.length old - 1) s'
             else String c (replace_go old new 0 s')
      end
  end.

Definition ReplaceAll (s old new : string) : string := replace_go old new 0 s.

(** ** Letter case *)

Definition lower_byte (c : ascii) : ascii :=
  let n := nat_of_ascii c in
  if (65 <=? n)%nat && (n <=? 90)%nat then ascii_of_nat (n + 32) else c.

Fixpoint ToLower (s : string) : string :=
  match s with
  | "" => ""
  | String c s => String (lower_byte c) (ToLower s)
  end.

Definition upper_byte (c : ascii) : ascii :=
  let n := nat_of_ascii c in
  if (97 <=? n)%nat && (n <=? 122)%nat then ascii_of_nat (n - 32) else c.

Fixpoint ToUpper (s : string) : string :=
  match s with
  | "" => ""
  | String c s => String (upper_byte c) (ToUpper s)
  end.

(** ** Ordering: Go compares strings byte-wise *)

Definition str_ltb (s t : string) : bool := String.ltb s t.

(** [sort.Strings] *)
Definition sort_Strings (l : list string) : list string := merge_sort String.le l.

Lemma sort_Strings_perm l : sort_Strings l ≡ₚ l.
Proof. apply merge_sort_Permutation. Qed.

Lemma sort_Strings_sorted l : Sorted String.le (sort_Strings l).
Proof. apply Sorted_merge_sort, _. Qed.

(** The sorted list depends on the elements only, not on their order. *)
Lemma sort_Strings_perm_eq l1 l2 : l1 ≡ₚ l2 → sort_Strings l1 = sort_Strings l2.
Proof.
  intros Hp. apply (Sorted_unique String.le); [apply sort_Strings_sorted..|].
  by rewrite !sort_Strings_perm.
Qed.

(** [slices.Sorted(maps.Keys(m))] *)
Definition sorted_keys {A} (m : gmap string A) : list string := sort_Strings (map_to_list m).*1.

Lemma elem_of_sorted_keys {A} (m : gmap string A) k : k ∈ sorted_keys m ↔ is_Some (m !! k).
Proof.
  unfold sorted_keys. rewrite sort_Strings_perm, list_elem_of_fmap. split.
  - intros ([k' v] & -> & Hkv). apply elem_of_map_to_list in Hkv. eauto.
  - intros [v Hv]. exists (k, v). split; [done|]. by apply elem_of_map_to_list.
Qed.

Lemma sorted_keys_nodup {A} (m : gmap string A) : NoDup (sorted_keys m).
Proof. unfold sorted_keys. rewrite sort_Strings_perm. apply NoDup_fst_map_to_list. Qed.

Lemma sorted_keys_fmap {A B} (f : A → B) (m : gmap string A) : sorted_keys (f <$> m) = sorted_keys m.
Proof.
  apply sort_Strings_perm_eq. rewrite map_to_list_fmap, <- list_fmap_compose.
  erewrite list_fmap_ext; [reflexivity|]. by intros i [k v] _.
Qed.

Lemma sorted_keys_dom {A B} (m1 : gmap string A) (m2 : gmap string B) :
  sorted_keys m1 = sorted_keys m2 ↔ dom m1 = dom m2.
Proof.
  split.
  - intros Hs. apply set_eq. intros k. by rewrite !elem_of_dom, <- !elem_of_sorted_keys, Hs.
  - intros Hd. apply sort_Strings_perm_eq, NoDup_Permutation; [apply NoDup_fst_map_to_list..|].
    intros k. rewrite <- (sort_Strings_perm (map_to_list m1).*1), <- (sort_Strings_perm (map_to_list m2).*1).
    fold (sorted_keys m1) (sorted_keys m2).
    by rewrite !elem_of_sorted_keys, <- !elem_of_dom, Hd.
Qed.

(** ** [strconv] *)

Definition digit_val (c : ascii) : option N :=
  let n := N_of_ascii c in
  if (48 <=? n)%N && (n <=? 57)%N then Some (n - 48)%N else None.

(** Decimal digits read from the left, starting from the value [acc]. *)
Fixpoint parse_digits (acc : N) (s : string) : option N :=
  match s with
  | "" => Some acc
  | String c s =>
      match digit_val c with
      | Some d => parse_digits (acc * 10 + d) s
      | None => None
      end
  end.

Definition min_int : Z := -(2 ^ 63).
Definition max_int : Z := 2 ^ 63 - 1.
Definition in_int (z : Z) : bool := (min_int <=? z)%Z && (z <=? max_int)%Z.

(** [strconv.Atoi] on a 64-bit platform: an optional sign, at least one digit,
    and a range error outside [int]. *)
Definition Atoi (s : string) : option Z :=
  let '(neg, ds) :=
    match s with
    | String "-" ds => (true, ds)
    | String "+" ds => (false, ds)
    | _ => (false, s)
    end in
  match ds with
  | "" => None
  | _ =>
      match parse_digits 0 ds with
      | Some n => let z := if neg : bool then (- Z.of_N n)%Z else Z.of_N n in
                  if in_int z then Some z else None
      | None => None
      end
  end.

(** [strconv.Itoa]. *)
Definition Itoa (z : Z) : string := pretty z.

Lemma digit_val_pretty x : (x < 10)%N → digit_val (pretty_N_char x) = Some x.
Proof.
  intros Hx. assert (x = 0 ∨ x = 1 ∨ x = 2 ∨ x = 3 ∨ x = 4 ∨ x = 5 ∨ x = 6 ∨ x = 7 ∨ x = 8 ∨ x = 9)%N
    as H by lia. by repeat (destruct H as [->|H]; [done|]); subst.
Qed.

Lemma parse_digits_pretty_go x s :
  parse_digits 0 (pretty_N_go x s) = parse_digits x s.
Proof.
  revert s. induction (N.lt_wf_0 x) as [x _ IH]; intros s.
  assert (x = 0 ∨ 0 < x)%N as [->|Hx] by lia; [by rewrite pretty_N_go_0|].
  rewrite pretty_N_go_step by done.
  rewrite IH by (apply N.div_lt; lia). simpl.
  rewrite digit_val_pretty by (apply N.mod_lt; lia).
  f_equal. pose proof (N.div_mod x 10). lia.
Qed.

Lemma parse_digits_pretty (x : N) : parse_digits 0 (pretty x) = Some x.
Proof.
  unfold pretty, pretty_N. destruct (decide (x = 0%N)) as [->|Hx]; [done|].
  rewrite parse_digits_pretty_go. done.
Qed.

(** A printed natural number starts with a digit. *)
Lemma pretty_N_go_head x s :
  (0 < x)%N → ∃ c t, pretty_N_go x s = String c t ∧ is_Some (digit_val c).
Proof.
  revert s. induction (N.lt_wf_0 x) as [x _ IH]; intros s Hx.
  rewrite pretty_N_go_step by done.
  destruct (N.eq_0_gt_0_cases (x `div` 10)) as [H0|H0].
  - rewrite H0, pretty_N_go_0. do 2 eexists; split; [done|].
    rewrite digit_val_pretty by (apply N.mod_lt; lia). eauto.
  - apply IH; [apply N.div_lt; lia|done].
Qed.

Lemma pretty_N_head (x : N) :
  ∃ c t, pretty x = String c t ∧ is_Some (digit_val c).
Proof.
  unfold pretty, pretty_N. destruct (decide (x = 0%N)) as [->|Hx].
  - do 2 eexists; split; [done|]. by exists 0%N.
  - apply pretty_N_go_head. lia.
Qed.

(** Reading back a printed [int] gives the same [int]. *)
Lemma Atoi_Itoa z : in_int z = true → Atoi (Itoa z) = Some z.
Proof.
  intros Hz. unfold Itoa.
  assert (∃ x, z = Z.of_N x ∨ (z = - Z.of_N x)%Z ∧ (0 < x)%N) as [x [->|[-> Hx]]].
  { exists (Z.abs_N z). lia. }
  - destruct (pretty_N_head x) as (c & t & Hp & [d Hd]).
    assert (pretty (Z.of_N x) = pretty x) as -> by (by destruct x).
    unfold Atoi. rewrite Hp.
    assert (c ≠ "-"%char) as Hm by (intros ->; done).
    assert (c ≠ "+"%char) as Hpl by (intros ->; done).
    replace (match String c t with
             | String "-" ds => (true, ds) | String "+" ds => (false, ds)
             | _ => (false, String c t) end) with (false, String c t)
      by (destruct c as [[] [] [] [] [] [] [] []]; done).
    rewrite <- Hp, parse_digits_pretty. simpl. by rewrite Hz.
  - assert (pretty (- Z.of_N x)%Z = "-" +:+ pretty x) as -> by (by destruct x).
    unfold Atoi. rewrite sapp_cons, sapp_nil_l.
    destruct (pretty_N_head x) as (c & t & Hp & _). rewrite Hp.
    rewrite <- Hp, parse_digits_pretty. by rewrite Hz.
Qed.

(** A printed natural number is made of digits. *)
Lemma parse_digits_bytes acc s x c :
  parse_digits acc s = Some x → has_byte c s = true → digit_val c ≠ None.
Proof.
  revert acc. induction s as [|d s IH]; intros acc; simpl; [done|].
  destruct (digit_val d) as [v|] eqn:Ed; [|done]. intros Hp [Hc|Hb]%orb_true_iff.
  - apply bool_decide_eq_true in Hc as ->. by rewrite Ed.
  - by apply (IH (acc * 10 + v)%N).
Qed.

Lemma Itoa_nat_bytes n c : digit_val c = None → has_byte c (Itoa (Z.of_nat n)) = false.
Proof.
  intros Hc. apply not_true_iff_false. intros Hb.
  assert (Itoa (Z.of_nat n) = pretty (N.of_nat n)) as Hn by (by destruct n).
  rewrite Hn in Hb. by apply (parse_digits_bytes 0 _ _ _ (parse_digits_pretty (N.of_nat n))) in Hb.
Qed.

Lemma sdrop_app_sep s c t : sdrop (String.length s + 1) (s +:+ String c t) = t.
Proof. induction s as [|d s IH]; [done|]. exact IH. Qed.

Lemma IndexByte_app c s t :
  has_byte c s = false → IndexByte c (s +:+ String c t) = Some (String.length s).
Proof.
  induction s as [|d s IH]; simpl; intros Hb.
  - by rewrite bool_decide_eq_true_2.
  - apply orb_false_iff in Hb as [Hd Hb]. rewrite Hd. by rewrite IH.
Qed.

Lemma IndexByte_None c s : has_byte c s = false → IndexByte c s = None.
Proof.
  induction s as [|d s IH]; simpl; [done|]. intros [Hd Hb]%orb_false_iff. by rewrite Hd, IH.
Qed.

(** ** Splitting and hierarchical prefixes *)

Lemma Split_app c s t : Split c (s +:+ String c t) = Split c s ++ Split c t.
Proof.
  induction s as [|d s IH]; [by apply Split_app_sep|].
  rewrite sapp_cons. cbn [Split]. rewrite IH. case_bool_decide; [done|].
  destruct (Split c s) as [|w ws] eqn:E; [by apply Split_not_nil in E|]. done.
Qed.

Lemma Join_app (l1 l2 : list string) sep :
  l1 ≠ [] → l2 ≠ [] → Join (l1 ++ l2) sep = Join l1 sep +:+ sep +:+ Join l2 sep.
Proof.
  intros H1 H2. induction l1 as [|w l1 IH]; [done|]. destruct l1 as [|w2 l1].
  - by destruct l2.
  - specialize (IH ltac:(done)).
    change (Join ((w :: w2 :: l1) ++ l2) sep) with (w +:+ sep +:+ Join ((w2 :: l1) ++ l2) sep).
    rewrite IH.
    change (Join (w :: w2 :: l1) sep) with (w +:+ sep +:+ Join (w2 :: l1) sep).
    by rewrite !sapp_assoc.
Qed.

(** A string extends another by whole [c]-separated segments exactly when the
    segments of the one are a prefix of the segments of the other. *)
Lemma Split_prefix_of c p s :
  Split c p `prefix_of` Split c s ↔ s = p ∨ HasPrefix s (p +:+ String c "") = true.
Proof.
  rewrite HasPrefix_spec. split.
  - intros [l Hl]. destruct l as [|w l].
    + left. rewrite app_nil_r in Hl.
      by rewrite <- (Join_Split c s), <- (Join_Split c p), Hl.
    + right. exists (Join (w :: l) (String c "")).
      rewrite <- (Join_Split c s), Hl, Join_app; [|apply Split_not_nil|done].
      by rewrite Join_Split, sapp_assoc.
  - intros [->|[k ->]]; [done|].
    rewrite sapp_assoc, sapp_cons, sapp_nil_l, Split_app. by apply prefix_app_r.
Qed.

Lemma LastIndexByte_None c s : has_byte c s = false → LastIndexByte c s = None.
Proof.
  induction s as [|d s IH]; [done|]. cbn [has_byte LastIndexByte].
  rewrite orb_false_iff. intros [Hd Hs]. by rewrite (IH Hs), Hd.
Qed.

Lemma LastIndexByte_app c s t :
  has_byte c t = false → LastIndexByte c (s +:+ String c t) = Some (String.length s).
Proof.
  intros Ht. induction s as [|d s IH].
  - rewrite sapp_nil_l. cbn. by rewrite LastIndexByte_None, bool_decide_eq_true_2.
  - rewrite sapp_cons. cbn [LastIndexByte String.length]. by rewrite IH.
Qed.

(** A string with the byte [c] splits around its first occurrence. *)
Lemma has_byte_split c s :
  has_byte c s = true → ∃ a b, s = a +:+ String c b ∧ has_byte c a = false.
Proof.
  induction s as [|d s IH]; [done|]. cbn [has_byte].
  destruct (decide (c = d)) as [<-|Hne].
  - intros _. by exists "", s.
  - rewrite bool_decide_eq_false_2 by done. simpl. intros (a & b & -> & Ha)%IH.
    exists (String d a), b. split; [done|]. cbn [has_byte].
    by rewrite bool_decide_eq_false_2, Ha.
Qed.
