(* ===== verification/AuthzCore.v ===== *)
(** * Authorization data model and action registry

    The types of [internal/authz/core/types.go], the action table of
    [internal/authz/core/actions.go] and the attribute registry of
    [internal/authz/core/condition_registry.go].  Go strings are [string], Go
    slices are lists, and a nil pointer is [None]. *)

From S2P Require Import Prelude GoStrings.

(** ** Types *)

Definition PolicyEffectAllow : string := "allow".
Definition PolicyEffectDeny : string := "deny".

Record SubjectContext := mkSubjectContext {
  Type_ : string;
  EntitlementClaim : string;
  EntitlementValues : list string;
}.

Record ResourceHierarchy := mkHierarchy {
  Namespace : string;
  Project : string;
  Component : string;
  Resource_ : string;
}.

#[global] Instance ResourceHierarchy_eq_dec : EqDecision ResourceHierarchy.
Proof. solve_decision. Defined.

Record Resource := mkResource {
  ResourceType_ : string;
  ID : string;
  Hierarchy : ResourceHierarchy;
}.

Record ResourceAttribute := mkResourceAttribute {
  Environment : string;
  ComponentType : string;
  ResourceType : string;
  Workflow : string;
}.

Record Context := mkContext { CtxResource : ResourceAttribute }.

(** [Reason] is [None] when the Go [Decision] has a nil [Context]. *)
Record Decision := mkDecision {
  Decision_ : bool;
  Reason : option string;
}.

Record EvaluateRequest := mkEvaluateRequest {
  ReqSubject : option SubjectContext;
  ReqResource : Resource;
  ReqAction : string;
  ReqContext : Context;
}.

Record BatchEvaluateRequest := mkBatchEvaluateRequest { Requests : list EvaluateRequest }.

Record ProfileRequest := mkProfileRequest {
  ProfSubject : option SubjectContext;
  ProfScope : ResourceHierarchy;
}.

Record RoleRef := mkRoleRef { RoleName : string; RoleNamespace : string }.

#[global] Instance RoleRef_eq_dec : EqDecision RoleRef.
Proof. solve_decision. Defined.

#[global] Program Instance RoleRef_countable : Countable RoleRef :=
  inj_countable' (λ r, (RoleName r, RoleNamespace r)) (λ p, mkRoleRef p.1 p.2) _.
Next Obligation. by intros []. Qed.

(** [Constraints] is [None] for a nil pointer: unconditionally granted. *)
Record CapabilityResource := mkCapabilityResource {
  Path : string;
  Constraints : option (list string);
}.

Record ActionCapability := mkActionCapability {
  Allowed : list CapabilityResource;
  Denied : list CapabilityResource;
}.

(** [AuthzCondition] of [api/v1alpha1/types.go]. *)
Record AuthzCondition := mkAuthzCondition {
  CondActions : list string;
  Expression : string;
}.

#[global] Instance AuthzCondition_eq_dec : EqDecision AuthzCondition.
Proof. solve_decision. Defined.

(** ** Attributes available to condition expressions *)

(** The CEL types the code distinguishes; every other type is [OtherType]. *)
Inductive CELType := StringType | BoolType | IntType | DoubleType | OtherType.

Record AttributeSpec := mkAttributeSpec {
  Key : string;
  Description : string;
  SpecCELType : CELType;
}.

#[global] Instance CELType_eq_dec : EqDecision CELType.
Proof. solve_decision. Defined.

#[global] Instance AttributeSpec_eq_dec : EqDecision AttributeSpec.
Proof. solve_decision. Defined.

Definition Root (s : AttributeSpec) : string :=
  let '(root, _, _) := Cut "." (Key s) in root.

Definition Leaf (s : AttributeSpec) : string :=
  let '(_, leaf, _) := Cut "." (Key s) in leaf.

Definition AttrResourceEnvironment : AttributeSpec :=
  mkAttributeSpec "resource.environment" "Environment associated with the resource" StringType.

Definition AttrResourceComponentType : AttributeSpec :=
  mkAttributeSpec "resource.componentType" "ComponentType name referenced by the component" StringType.

Definition AttrResourceResourceType : AttributeSpec :=
  mkAttributeSpec "resource.resourceType" "ResourceType name referenced by the resource" StringType.

Definition AttrResourceWorkflow : AttributeSpec :=
  mkAttributeSpec "resource.workflow" "Workflow name referenced by the workflow run" StringType.

(** ** Action names *)

Definition ActionCreateNamespace : string := "namespace:create".
Definition ActionViewNamespace : string := "namespace:view".
Definition ActionUpdateNamespace : string := "namespace:update".
Definition ActionDeleteNamespace : string := "namespace:delete".
Definition ActionCreateProject : string := "project:create".
Definition ActionViewProject : string := "project:view".
Definition ActionUpdateProject : string := "project:update".
Definition ActionDeleteProject : string := "project:delete".
Definition ActionCreateComponent : string := "component:create".
Definition ActionViewComponent : string := "component:view".
Definition ActionUpdateComponent : string := "component:update".
Definition ActionDeleteComponent : string := "component:delete".
Definition ActionExecComponent : string := "component:exec".
Definition ActionConnectComponent : string := "component:connect".
Definition ActionCreateResource : string := "resource:create".
Definition ActionViewResource : string := "resource:view".
Definition ActionUpdateResource : string := "resource:update".
Definition ActionDeleteResource : string := "resource:delete".
Definition ActionConnectResource : string := "resource:connect".
Definition ActionReadResourceSecrets : string := "resource:read-secrets".
Definition ActionCreateComponentRelease : string := "componentrelease:create".
Definition ActionViewComponentRelease : string := "componentrelease:view".
Definition ActionDeleteComponentRelease : string := "componentrelease:delete".
Definition ActionCreateResourceRelease : string := "resourcerelease:create".
Definition ActionViewResourceRelease : string := "resourcerelease:view".
Definition ActionDeleteResourceRelease : string := "resourcerelease:delete".
Definition ActionCreateProjectRelease : string := "projectrelease:create".
Definition ActionViewProjectRelease : string := "projectrelease:view".
Definition ActionDeleteProjectRelease : string := "projectrelease:delete".
Definition ActionCreateProjectReleaseBinding : string := "projectreleasebinding:create".
Definition ActionViewProjectReleaseBinding : string := "projectreleasebinding:view".
Definition ActionUpdateProjectReleaseBinding : string := "projectreleasebinding:update".
Definition ActionDeleteProjectReleaseBinding : string := "projectreleasebinding:delete".
Definition ActionCreateReleaseBinding : string := "releasebinding:create".
Definition ActionViewReleaseBinding : string := "releasebinding:view".
Definition ActionUpdateReleaseBinding : string := "releasebinding:update".
Definition ActionDeleteReleaseBinding : string := "releasebinding:delete".
Definition ActionCreateResourceReleaseBinding : string := "resourcereleasebinding:create".
Definition ActionViewResourceReleaseBinding : string := "resourcereleasebinding:view".
Definition ActionUpdateResourceReleaseBinding : string := "resourcereleasebinding:update".
Definition ActionDeleteResourceReleaseBinding : string := "resourcereleasebinding:delete".
Definition ActionCreateComponentType : string := "componenttype:create".
Definition ActionViewComponentType : string := "componenttype:view".
Definition ActionUpdateComponentType : string := "componenttype:update".
Definition ActionDeleteComponentType : string := "componenttype:delete".
Definition ActionCreateResourceType : string := "resourcetype:create".
Definition ActionViewResourceType : string := "resourcetype:view".
Definition ActionUpdateResourceType : string := "resourcetype:update".
Definition ActionDeleteResourceType : string := "resourcetype:delete".
Definition ActionCreateProjectType : string := "projecttype:create".
Definition ActionViewProjectType : string := "projecttype:view".
Definition ActionUpdateProjectType : string := "projecttype:update".
Definition ActionDeleteProjectType : string := "projecttype:delete".
Definition ActionCreateWorkflow : string := "workflow:create".
Definition ActionViewWorkflow : string := "workflow:view".
Definition ActionUpdateWorkflow : string := "workflow:update".
Definition ActionDeleteWorkflow : string := "workflow:delete".
Definition ActionCreateWorkflowRun : string := "workflowrun:create".
Definition ActionViewWorkflowRun : string := "workflowrun:view".
Definition ActionUpdateWorkflowRun : string := "workflowrun:update".
Definition ActionDeleteWorkflowRun : string := "workflowrun:delete".
Definition ActionCreateTrait : string := "trait:create".
Definition ActionViewTrait : string := "trait:view".
Definition ActionUpdateTrait : string := "trait:update".
Definition ActionDeleteTrait : string := "trait:delete".
Definition ActionCreateEnvironment : string := "environment:create".
Definition ActionViewEnvironment : string := "environment:view".
Definition ActionUpdateEnvironment : string := "environment:update".
Definition ActionDeleteEnvironment : string := "environment:delete".
Definition ActionCreateDataPlane : string := "dataplane:create".
Definition ActionViewDataPlane : string := "dataplane:view".
Definition ActionUpdateDataPlane : string := "dataplane:update".
Definition ActionDeleteDataPlane : string := "dataplane:delete".
Definition ActionCreateWorkflowPlane : string := "workflowplane:create".
Definition ActionViewWorkflowPlane : string := "workflowplane:view".
Definition ActionUpdateWorkflowPlane : string := "workflowplane:update".
Definition ActionDeleteWorkflowPlane : string := "workflowplane:delete".
Definition ActionCreateObservabilityPlane : string := "observabilityplane:create".
Definition ActionViewObservabilityPlane : string := "observabilityplane:view".
Definition ActionUpdateObservabilityPlane : string := "observabilityplane:update".
Definition ActionDeleteObservabilityPlane : string := "observabilityplane:delete".
Definition ActionCreateClusterComponentType : string := "clustercomponenttype:create".
Definition ActionViewClusterComponentType : string := "clustercomponenttype:view".
Definition ActionUpdateClusterComponentType : string := "clustercomponenttype:update".
Definition ActionDeleteClusterComponentType : string := "clustercomponenttype:delete".
Definition ActionCreateClusterResourceType : string := "clusterresourcetype:create".
Definition ActionViewClusterResourceType : string := "clusterresourcetype:view".
Definition ActionUpdateClusterResourceType : string := "clusterresourcetype:update".
Definition ActionDeleteClusterResourceType : string := "clusterresourcetype:delete".
Definition ActionCreateClusterProjectType : string := "clusterprojecttype:create".
Definition ActionViewClusterProjectType : string := "clusterprojecttype:view".
Definition ActionUpdateClusterProjectType : string := "clusterprojecttype:update".
Definition ActionDeleteClusterProjectType : string := "clusterprojecttype:delete".
Definition ActionCreateClusterTrait : string := "clustertrait:create".
Definition ActionViewClusterTrait : string := "clustertrait:view".
Definition ActionUpdateClusterTrait : string := "clustertrait:update".
Definition ActionDeleteClusterTrait : string := "clustertrait:delete".
Definition ActionCreateClusterWorkflow : string := "clusterworkflow:create".
Definition ActionViewClusterWorkflow : string := "clusterworkflow:view".
Definition ActionUpdateClusterWorkflow : string := "clusterworkflow:update".
Definition ActionDeleteClusterWorkflow : string := "clusterworkflow:delete".
Definition ActionCreateClusterDataPlane : string := "clusterdataplane:create".
Definition ActionViewClusterDataPlane : string := "clusterdataplane:view".
Definition ActionUpdateClusterDataPlane : string := "clusterdataplane:update".
Definition ActionDeleteClusterDataPlane : string := "clusterdataplane:delete".
Definition ActionCreateClusterWorkflowPlane : string := "clusterworkflowplane:create".
Definition ActionViewClusterWorkflowPlane : string := "clusterworkflowplane:view".
Definition ActionUpdateClusterWorkflowPlane : string := "clusterworkflowplane:update".
Definition ActionDeleteClusterWorkflowPlane : string := "clusterworkflowplane:delete".
Definition ActionCreateClusterObservabilityPlane : string := "clusterobservabilityplane:create".
Definition ActionViewClusterObservabilityPlane : string := "clusterobservabilityplane:view".
Definition ActionUpdateClusterObservabilityPlane : string := "clusterobservabilityplane:update".
Definition ActionDeleteClusterObservabilityPlane : string := "clusterobservabilityplane:delete".
Definition ActionCreateDeploymentPipeline : string := "deploymentpipeline:create".
Definition ActionViewDeploymentPipeline : string := "deploymentpipeline:view".
Definition ActionUpdateDeploymentPipeline : string := "deploymentpipeline:update".
Definition ActionDeleteDeploymentPipeline : string := "deploymentpipeline:delete".
Definition ActionCreateObservabilityAlertsNotificationChannel : string := "observabilityalertsnotificationchannel:create".
Definition ActionViewObservabilityAlertsNotificationChannel : string := "observabilityalertsnotificationchannel:view".
Definition ActionUpdateObservabilityAlertsNotificationChannel : string := "observabilityalertsnotificationchannel:update".
Definition ActionDeleteObservabilityAlertsNotificationChannel : string := "observabilityalertsnotificationchannel:delete".
Definition ActionCreateSecretReference : string := "secretreference:create".
Definition ActionViewSecretReference : string := "secretreference:view".
Definition ActionUpdateSecretReference : string := "secretreference:update".
Definition ActionDeleteSecretReference : string := "secretreference:delete".
Definition ActionCreateSecret : string := "secret:create".
Definition ActionViewSecret : string := "secret:view".
Definition ActionUpdateSecret : string := "secret:update".
Definition ActionDeleteSecret : string := "secret:delete".
Definition ActionCreateWorkload : string := "workload:create".
Definition ActionViewWorkload : string := "workload:view".
Definition ActionUpdateWorkload : string := "workload:update".
Definition ActionDeleteWorkload : string := "workload:delete".
Definition ActionCreateClusterAuthzRole : string := "clusterauthzrole:create".
Definition ActionViewClusterAuthzRole : string := "clusterauthzrole:view".
Definition ActionUpdateClusterAuthzRole : string := "clusterauthzrole:update".
Definition ActionDeleteClusterAuthzRole : string := "clusterauthzrole:delete".
Definition ActionCreateAuthzRole : string := "authzrole:create".
Definition ActionViewAuthzRole : string := "authzrole:view".
Definition ActionUpdateAuthzRole : string := "authzrole:update".
Definition ActionDeleteAuthzRole : string := "authzrole:delete".
Definition ActionCreateClusterAuthzRoleBinding : string := "clusterauthzrolebinding:create".
Definition ActionViewClusterAuthzRoleBinding : string := "clusterauthzrolebinding:view".
Definition ActionUpdateClusterAuthzRoleBinding : string := "clusterauthzrolebinding:update".
Definition ActionDeleteClusterAuthzRoleBinding : string := "clusterauthzrolebinding:delete".
Definition ActionCreateAuthzRoleBinding : string := "authzrolebinding:create".
Definition ActionViewAuthzRoleBinding : string := "authzrolebinding:view".
Definition ActionUpdateAuthzRoleBinding : string := "authzrolebinding:update".
Definition ActionDeleteAuthzRoleBinding : string := "authzrolebinding:delete".
Definition ActionViewLogs : string := "logs:view".
Definition ActionViewPlatformLogs : string := "platformlogs:view".
Definition ActionViewAuditLogs : string := "auditlogs:view".
Definition ActionViewEvents : string := "events:view".
Definition ActionViewWirelogs : string := "wirelogs:view".
Definition ActionViewMetrics : string := "metrics:view".
Definition ActionViewTraces : string := "traces:view".
Definition ActionViewAlerts : string := "alerts:view".
Definition ActionViewIncidents : string := "incidents:view".
Definition ActionUpdateIncidents : string := "incidents:update".
Definition ActionViewRCAReport : string := "rcareport:view".
Definition ActionUpdateRCAReport : string := "rcareport:update".
Definition ActionViewFinOpsReport : string := "finopsreport:view".
Definition ActionUpdateFinOpsReport : string := "finopsreport:update".
Definition ActionViewFinOps : string := "finops:view".
Definition ActionViewDeliveryInsights : string := "deliveryinsights:view".

Inductive ActionScope :=
  | ScopeCluster | ScopeNamespace | ScopeProject | ScopeComponent | ScopeResource.

Record Action := mkAction {
  Name : string;
  LowestScope : ActionScope;
  IsInternal : bool;
  Conditions : list AttributeSpec;
}.

(** The table up to [ObservabilityPlane]. *)
Definition systemActions_namespaced : list Action := [
    {| Name := ActionCreateNamespace; LowestScope := ScopeCluster; IsInternal := false; Conditions := [] |};
    {| Name := ActionViewNamespace; LowestScope := ScopeNamespace; IsInternal := false; Conditions := [] |};
    {| Name := ActionUpdateNamespace; LowestScope := ScopeNamespace; IsInternal := false; Conditions := [] |};
    {| Name := ActionDeleteNamespace; LowestScope := ScopeNamespace; IsInternal := false; Conditions := [] |};
    {| Name := ActionCreateProject; LowestScope := ScopeNamespace; IsInternal := false; Conditions := [] |};
    {| Name := ActionViewProject; LowestScope := ScopeProject; IsInternal := false; Conditions := [] |};
    {| Name := ActionUpdateProject; LowestScope := ScopeProject; IsInternal := false; Conditions := [] |};
    {| Name := ActionDeleteProject; LowestScope := ScopeProject; IsInternal := false; Conditions := [] |};
    {| Name := ActionCreateComponent; LowestScope := ScopeProject; IsInternal := false; Conditions := [] |};
    {| Name := ActionViewComponent; LowestScope := ScopeComponent; IsInternal := false; Conditions := [] |};
    {| Name := ActionUpdateComponent; LowestScope := ScopeComponent; IsInternal := false; Conditions := [] |};
    {| Name := ActionDeleteComponent; LowestScope := ScopeComponent; IsInternal := false; Conditions := [] |};
    {| Name := ActionExecComponent; LowestScope := ScopeComponent; IsInternal := false; Conditions := [] |};
    {| Name := ActionConnectComponent; LowestScope := ScopeComponent; IsInternal := false; Conditions := [] |};
    {| Name := ActionCreateResource; LowestScope := ScopeProject; IsInternal := false; Conditions := [] |};
    {| Name := ActionViewResource; LowestScope := ScopeResource; IsInternal := false; Conditions := [] |};
    {| Name := ActionUpdateResource; LowestScope := ScopeResource; IsInternal := false; Conditions := [] |};
    {| Name := ActionDeleteResource; LowestScope := ScopeResource; IsInternal := false; Conditions := [] |};
    {| Name := ActionConnectResource; LowestScope := ScopeResource; IsInternal := false; Conditions := [] |};
    {| Name := ActionReadResourceSecrets; LowestScope := ScopeResource; IsInternal := false; Conditions := [] |};
    {| Name := ActionViewComponentRelease; LowestScope := ScopeComponent; IsInternal := false; Conditions := [] |};
    {| Name := ActionCreateComponentRelease; LowestScope := ScopeComponent; IsInternal := false; Conditions := [] |};
    {| Name := ActionDeleteComponentRelease; LowestScope := ScopeComponent; IsInternal := false; Conditions := [] |};
    {| Name := ActionViewResourceRelease; LowestScope := ScopeResource; IsInternal := false; Conditions := [] |};
    {| Name := ActionCreateResourceRelease; LowestScope := ScopeResource; IsInternal := false; Conditions := [] |};
    {| Name := ActionDeleteResourceRelease; LowestScope := ScopeResource; IsInternal := false; Conditions := [] |};
    {| Name := ActionViewProjectRelease; LowestScope := ScopeProject; IsInternal := false; Conditions := [] |};
    {| Name := ActionCreateProjectRelease; LowestScope := ScopeProject; IsInternal := false; Conditions := [] |};
    {| Name := ActionDeleteProjectRelease; LowestScope := ScopeProject; IsInternal := false; Conditions := [] |};
    {| Name := ActionViewProjectReleaseBinding; LowestScope := ScopeProject; IsInternal := false; Conditions := [] |};
    {| Name := ActionCreateProjectReleaseBinding; LowestScope := ScopeProject; IsInternal := false; Conditions := [] |};
    {| Name := ActionUpdateProjectReleaseBinding; LowestScope := ScopeProject; IsInternal := false; Conditions := [] |};
    {| Name := ActionDeleteProjectReleaseBinding; LowestScope := ScopeProject; IsInternal := false; Conditions := [] |};
    {| Name := ActionViewReleaseBinding; LowestScope := ScopeComponent; IsInternal := false; Conditions := [] |};
    {| Name := ActionCreateReleaseBinding; LowestScope := ScopeComponent; IsInternal := false; Conditions := [] |};
    {| Name := ActionUpdateReleaseBinding; LowestScope := ScopeComponent; IsInternal := false; Conditions := [] |};
    {| Name := ActionDeleteReleaseBinding; LowestScope := ScopeComponent; IsInternal := false; Conditions := [] |};
    {| Name := ActionViewResourceReleaseBinding; LowestScope := ScopeResource; IsInternal := false; Conditions := [] |};
    {| Name := ActionCreateResourceReleaseBinding; LowestScope := ScopeResource; IsInternal := false; Conditions := [] |};
    {| Name := ActionUpdateResourceReleaseBinding; LowestScope := ScopeResource; IsInternal := false; Conditions := [] |};
    {| Name := ActionDeleteResourceReleaseBinding; LowestScope := ScopeResource; IsInternal := false; Conditions := [] |};
    {| Name := ActionViewComponentType; LowestScope := ScopeNamespace; IsInternal := false; Conditions := [] |};
    {| Name := ActionCreateComponentType; LowestScope := ScopeNamespace; IsInternal := false; Conditions := [] |};
    {| Name := ActionUpdateComponentType; LowestScope := ScopeNamespace; IsInternal := false; Conditions := [] |};
    {| Name := ActionDeleteComponentType; LowestScope := ScopeNamespace; IsInternal := false; Conditions := [] |};
    {| Name := ActionViewResourceType; LowestScope := ScopeNamespace; IsInternal := false; Conditions := [] |};
    {| Name := ActionCreateResourceType; LowestScope := ScopeNamespace; IsInternal := false; Conditions := [] |};
    {| Name := ActionUpdateResourceType; LowestScope := ScopeNamespace; IsInternal := false; Conditions := [] |};
    {| Name := ActionDeleteResourceType; LowestScope := ScopeNamespace; IsInternal := false; Conditions := [] |};
    {| Name := ActionViewProjectType; LowestScope := ScopeNamespace; IsInternal := false; Conditions := [] |};
    {| Name := ActionCreateProjectType; LowestScope := ScopeNamespace; IsInternal := false; Conditions := [] |};
    {| Name := ActionUpdateProjectType; LowestScope := ScopeNamespace; IsInternal := false; Conditions := [] |};
    {| Name := ActionDeleteProjectType; LowestScope := ScopeNamespace; IsInternal := false; Conditions := [] |};
    {| Name := ActionViewWorkflow; LowestScope := ScopeNamespace; IsInternal := false; Conditions := [] |};
    {| Name := ActionCreateWorkflow; LowestScope := ScopeNamespace; IsInternal := false; Conditions := [] |};
    {| Name := ActionUpdateWorkflow; LowestScope := ScopeNamespace; IsInternal := false; Conditions := [] |};
    {| Name := ActionDeleteWorkflow; LowestScope := ScopeNamespace; IsInternal := false; Conditions := [] |};
    {| Name := ActionCreateWorkflowRun; LowestScope := ScopeComponent; IsInternal := false; Conditions := [] |};
    {| Name := ActionViewWorkflowRun; LowestScope := ScopeComponent; IsInternal := false; Conditions := [] |};
    {| Name := ActionUpdateWorkflowRun; LowestScope := ScopeComponent; IsInternal := false; Conditions := [] |};
    {| Name := ActionDeleteWorkflowRun; LowestScope := ScopeComponent; IsInternal := false; Conditions := [] |};
    {| Name := ActionViewTrait; LowestScope := ScopeNamespace; IsInternal := false; Conditions := [] |};
    {| Name := ActionCreateTrait; LowestScope := ScopeNamespace; IsInternal := false; Conditions := [] |};
    {| Name := ActionUpdateTrait; LowestScope := ScopeNamespace; IsInternal := false; Conditions := [] |};
    {| Name := ActionDeleteTrait; LowestScope := ScopeNamespace; IsInternal := false; Conditions := [] |};
    {| Name := ActionViewEnvironment; LowestScope := ScopeNamespace; IsInternal := false; Conditions := [] |};
    {| Name := ActionCreateEnvironment; LowestScope := ScopeNamespace; IsInternal := false; Conditions := [] |};
    {| Name := ActionUpdateEnvironment; LowestScope := ScopeNamespace; IsInternal := false; Conditions := [] |};
    {| Name := ActionDeleteEnvironment; LowestScope := ScopeNamespace; IsInternal := false; Conditions := [] |};
    {| Name := ActionViewDataPlane; LowestScope := ScopeNamespace; IsInternal := false; Conditions := [] |};
    {| Name := ActionCreateDataPlane; LowestScope := ScopeNamespace; IsInternal := false; Conditions := [] |};
    {| Name := ActionUpdateDataPlane; LowestScope := ScopeNamespace; IsInternal := false; Conditions := [] |};
    {| Name := ActionDeleteDataPlane; LowestScope := ScopeNamespace; IsInternal := false; Conditions := [] |};
    {| Name := ActionViewWorkflowPlane; LowestScope := ScopeNamespace; IsInternal := false; Conditions := [] |};
    {| Name := ActionCreateWorkflowPlane; LowestScope := ScopeNamespace; IsInternal := false; Conditions := [] |};
    {| Name := ActionUpdateWorkflowPlane; LowestScope := ScopeNamespace; IsInternal := false; Conditions := [] |};
    {| Name := ActionDeleteWorkflowPlane; LowestScope := ScopeNamespace; IsInternal := false; Conditions := [] |};
    {| Name := ActionViewObservabilityPlane; LowestScope := ScopeNamespace; IsInternal := false; Conditions := [] |};
    {| Name := ActionCreateObservabilityPlane; LowestScope := ScopeNamespace; IsInternal := false; Conditions := [] |};
    {| Name := ActionUpdateObservabilityPlane; LowestScope := ScopeNamespace; IsInternal := false; Conditions := [] |};
    {| Name := ActionDeleteObservabilityPlane; LowestScope := ScopeNamespace; IsInternal := false; Conditions := [] |}
].

(** The table from [ClusterComponentType] on. *)
Definition systemActions_rest : list Action := [
    {| Name := ActionViewClusterComponentType; LowestScope := ScopeCluster; IsInternal := false; Conditions := [] |};
    {| Name := ActionCreateClusterComponentType; LowestScope := ScopeCluster; IsInternal := false; Conditions := [] |};
    {| Name := ActionUpdateClusterComponentType; LowestScope := ScopeCluster; IsInternal := false; Conditions := [] |};
    {| Name := ActionDeleteClusterComponentType; LowestScope := ScopeCluster; IsInternal := false; Conditions := [] |};
    {| Name := ActionViewClusterResourceType; LowestScope := ScopeCluster; IsInternal := false; Conditions := [] |};
    {| Name := ActionCreateClusterResourceType; LowestScope := ScopeCluster; IsInternal := false; Conditions := [] |};
    {| Name := ActionUpdateClusterResourceType; LowestScope := ScopeCluster; IsInternal := false; Conditions := [] |};
    {| Name := ActionDeleteClusterResourceType; LowestScope := ScopeCluster; IsInternal := false; Conditions := [] |};
    {| Name := ActionViewClusterProjectType; LowestScope := ScopeCluster; IsInternal := false; Conditions := [] |};
    {| Name := ActionCreateClusterProjectType; LowestScope := ScopeCluster; IsInternal := false; Conditions := [] |};
    {| Name := ActionUpdateClusterProjectType; LowestScope := ScopeCluster; IsInternal := false; Conditions := [] |};
    {| Name := ActionDeleteClusterProjectType; LowestScope := ScopeCluster; IsInternal := false; Conditions := [] |};
    {| Name := ActionViewClusterTrait; LowestScope := ScopeCluster; IsInternal := false; Conditions := [] |};
    {| Name := ActionCreateClusterTrait; LowestScope := ScopeCluster; IsInternal := false; Conditions := [] |};
    {| Name := ActionUpdateClusterTrait; LowestScope := ScopeCluster; IsInternal := false; Conditions := [] |};
    {| Name := ActionDeleteClusterTrait; LowestScope := ScopeCluster; IsInternal := false; Conditions := [] |};
    {| Name := ActionViewClusterWorkflow; LowestScope := ScopeCluster; IsInternal := false; Conditions := [] |};
    {| Name := ActionCreateClusterWorkflow; LowestScope := ScopeCluster; IsInternal := false; Conditions := [] |};
    {| Name := ActionUpdateClusterWorkflow; LowestScope := ScopeCluster; IsInternal := false; Conditions := [] |};
    {| Name := ActionDeleteClusterWorkflow; LowestScope := ScopeCluster; IsInternal := false; Conditions := [] |};
    {| Name := ActionViewClusterDataPlane; LowestScope := ScopeCluster; IsInternal := false; Conditions := [] |};
    {| Name := ActionCreateClusterDataPlane; LowestScope := ScopeCluster; IsInternal := false; Conditions := [] |};
    {| Name := ActionUpdateClusterDataPlane; LowestScope := ScopeCluster; IsInternal := false; Conditions := [] |};
    {| Name := ActionDeleteClusterDataPlane; LowestScope := ScopeCluster; IsInternal := false; Conditions := [] |};
    {| Name := ActionViewClusterWorkflowPlane; LowestScope := ScopeCluster; IsInternal := false; Conditions := [] |};
    {| Name := ActionCreateClusterWorkflowPlane; LowestScope := ScopeCluster; IsInternal := false; Conditions := [] |};
    {| Name := ActionUpdateClusterWorkflowPlane; LowestScope := ScopeCluster; IsInternal := false; Conditions := [] |};
    {| Name := ActionDeleteClusterWorkflowPlane; LowestScope := ScopeCluster; IsInternal := false; Conditions := [] |};
    {| Name := ActionViewClusterObservabilityPlane; LowestScope := ScopeCluster; IsInternal := false; Conditions := [] |};
    {| Name := ActionCreateClusterObservabilityPlane; LowestScope := ScopeCluster; IsInternal := false; Conditions := [] |};
    {| Name := ActionUpdateClusterObservabilityPlane; LowestScope := ScopeCluster; IsInternal := false; Conditions := [] |};
    {| Name := ActionDeleteClusterObservabilityPlane; LowestScope := ScopeCluster; IsInternal := false; Conditions := [] |};
    {| Name := ActionViewDeploymentPipeline; LowestScope := ScopeNamespace; IsInternal := false; Conditions := [] |};
    {| Name := ActionCreateDeploymentPipeline; LowestScope := ScopeNamespace; IsInternal := false; Conditions := [] |};
    {| Name := ActionUpdateDeploymentPipeline; LowestScope := ScopeNamespace; IsInternal := false; Conditions := [] |};
    {| Name := ActionDeleteDeploymentPipeline; LowestScope := ScopeNamespace; IsInternal := false; Conditions := [] |};
    {| Name := ActionViewObservabilityAlertsNotificationChannel; LowestScope := ScopeNamespace; IsInternal := false; Conditions := [] |};
    {| Name := ActionCreateObservabilityAlertsNotificationChannel; LowestScope := ScopeNamespace; IsInternal := false; Conditions := [] |};
    {| Name := ActionUpdateObservabilityAlertsNotificationChannel; LowestScope := ScopeNamespace; IsInternal := false; Conditions := [] |};
    {| Name := ActionDeleteObservabilityAlertsNotificationChannel; LowestScope := ScopeNamespace; IsInternal := false; Conditions := [] |};
    {| Name := ActionViewSecretReference; LowestScope := ScopeNamespace; IsInternal := false; Conditions := [] |};
    {| Name := ActionCreateSecretReference; LowestScope := ScopeNamespace; IsInternal := false; Conditions := [] |};
    {| Name := ActionUpdateSecretReference; LowestScope := ScopeNamespace; IsInternal := false; Conditions := [] |};
    {| Name := ActionDeleteSecretReference; LowestScope := ScopeNamespace; IsInternal := false; Conditions := [] |};
    {| Name := ActionViewSecret; LowestScope := ScopeNamespace; IsInternal := false; Conditions := [] |};
    {| Name := ActionCreateSecret; LowestScope := ScopeNamespace; IsInternal := false; Conditions := [] |};
    {| Name := ActionUpdateSecret; LowestScope := ScopeNamespace; IsInternal := false; Conditions := [] |};
    {| Name := ActionDeleteSecret; LowestScope := ScopeNamespace; IsInternal := false; Conditions := [] |};
    {| Name := ActionViewWorkload; LowestScope := ScopeComponent; IsInternal := false; Conditions := [] |};
    {| Name := ActionCreateWorkload; LowestScope := ScopeComponent; IsInternal := false; Conditions := [] |};
    {| Name := ActionUpdateWorkload; LowestScope := ScopeComponent; IsInternal := false; Conditions := [] |};
    {| Name := ActionDeleteWorkload; LowestScope := ScopeComponent; IsInternal := false; Conditions := [] |};
    {| Name := ActionViewClusterAuthzRole; LowestScope := ScopeCluster; IsInternal := false; Conditions := [] |};
    {| Name := ActionCreateClusterAuthzRole; LowestScope := ScopeCluster; IsInternal := false; Conditions := [] |};
    {| Name := ActionUpdateClusterAuthzRole; LowestScope := ScopeCluster; IsInternal := false; Conditions := [] |};
    {| Name := ActionDeleteClusterAuthzRole; LowestScope := ScopeCluster; IsInternal := false; Conditions := [] |};
    {| Name := ActionViewAuthzRole; LowestScope := ScopeNamespace; IsInternal := false; Conditions := [] |};
    {| Name := ActionCreateAuthzRole; LowestScope := ScopeNamespace; IsInternal := false; Conditions := [] |};
    {| Name := ActionUpdateAuthzRole; LowestScope := ScopeNamespace; IsInternal := false; Conditions := [] |};
    {| Name := ActionDeleteAuthzRole; LowestScope := ScopeNamespace; IsInternal := false; Conditions := [] |};
    {| Name := ActionViewClusterAuthzRoleBinding; LowestScope := ScopeCluster; IsInternal := false; Conditions := [] |};
    {| Name := ActionCreateClusterAuthzRoleBinding; LowestScope := ScopeCluster; IsInternal := false; Conditions := [] |};
    {| Name := ActionUpdateClusterAuthzRoleBinding; LowestScope := ScopeCluster; IsInternal := false; Conditions := [] |};
    {| Name := ActionDeleteClusterAuthzRoleBinding; LowestScope := ScopeCluster; IsInternal := false; Conditions := [] |};
    {| Name := ActionViewAuthzRoleBinding; LowestScope := ScopeNamespace; IsInternal := false; Conditions := [] |};
    {| Name := ActionCreateAuthzRoleBinding; LowestScope := ScopeNamespace; IsInternal := false; Conditions := [] |};
    {| Name := ActionUpdateAuthzRoleBinding; LowestScope := ScopeNamespace; IsInternal := false; Conditions := [] |};
    {| Name := ActionDeleteAuthzRoleBinding; LowestScope := ScopeNamespace; IsInternal := false; Conditions := [] |};
    {| Name := ActionViewLogs; LowestScope := ScopeComponent; IsInternal := false; Conditions := [] |};
    {| Name := ActionViewEvents; LowestScope := ScopeComponent; IsInternal := false; Conditions := [] |};
    {| Name := ActionViewWirelogs; LowestScope := ScopeComponent; IsInternal := false; Conditions := [] |};
    {| Name := ActionViewMetrics; LowestScope := ScopeComponent; IsInternal := false; Conditions := [] |};
    {| Name := ActionViewTraces; LowestScope := ScopeProject; IsInternal := false; Conditions := [] |};
    {| Name := ActionViewAlerts; LowestScope := ScopeComponent; IsInternal := false; Conditions := [] |};
    {| Name := ActionViewIncidents; LowestScope := ScopeComponent; IsInternal := false; Conditions := [] |};
    {| Name := ActionUpdateIncidents; LowestScope := ScopeComponent; IsInternal := false; Conditions := [] |};
    {| Name := ActionViewRCAReport; LowestScope := ScopeProject; IsInternal := false; Conditions := [] |};
    {| Name := ActionUpdateRCAReport; LowestScope := ScopeProject; IsInternal := false; Conditions := [] |};
    {| Name := ActionViewFinOpsReport; LowestScope := ScopeProject; IsInternal := false; Conditions := [] |};
    {| Name := ActionUpdateFinOpsReport; LowestScope := ScopeProject; IsInternal := false; Conditions := [] |};
    {| Name := ActionViewFinOps; LowestScope := ScopeComponent; IsInternal := false; Conditions := [] |};
    {| Name := ActionViewDeliveryInsights; LowestScope := ScopeComponent; IsInternal := false; Conditions := [] |};
    {| Name := ActionViewPlatformLogs; LowestScope := ScopeCluster; IsInternal := false; Conditions := [] |};
    {| Name := ActionViewAuditLogs; LowestScope := ScopeCluster; IsInternal := false; Conditions := [] |}
].

Definition systemActions : list Action := systemActions_namespaced ++ systemActions_rest.

(** ** The condition registry *)

Definition conditionRegistry : gmap string (list AttributeSpec) := list_to_map [
  (ActionCreateComponent, [AttrResourceComponentType]);
  (ActionUpdateComponent, [AttrResourceComponentType]);
  (ActionDeleteComponent, [AttrResourceComponentType]);
  (ActionCreateResource, [AttrResourceResourceType]);
  (ActionUpdateResource, [AttrResourceResourceType]);
  (ActionDeleteResource, [AttrResourceResourceType]);
  (ActionCreateWorkflowRun, [AttrResourceWorkflow]);
  (ActionUpdateWorkflowRun, [AttrResourceWorkflow]);
  (ActionDeleteWorkflowRun, [AttrResourceWorkflow]);
  (ActionCreateReleaseBinding, [AttrResourceEnvironment]);
  (ActionViewReleaseBinding, [AttrResourceEnvironment]);
  (ActionUpdateReleaseBinding, [AttrResourceEnvironment]);
  (ActionDeleteReleaseBinding, [AttrResourceEnvironment]);
  (ActionCreateResourceReleaseBinding, [AttrResourceEnvironment]);
  (ActionViewResourceReleaseBinding, [AttrResourceEnvironment]);
  (ActionUpdateResourceReleaseBinding, [AttrResourceEnvironment]);
  (ActionDeleteResourceReleaseBinding, [AttrResourceEnvironment]);
  (ActionCreateProjectReleaseBinding, [AttrResourceEnvironment]);
  (ActionViewProjectReleaseBinding, [AttrResourceEnvironment]);
  (ActionUpdateProjectReleaseBinding, [AttrResourceEnvironment]);
  (ActionDeleteProjectReleaseBinding, [AttrResourceEnvironment]);
  (ActionExecComponent, [AttrResourceEnvironment]);
  (ActionConnectComponent, [AttrResourceEnvironment]);
  (ActionConnectResource, [AttrResourceEnvironment]);
  (ActionReadResourceSecrets, [AttrResourceEnvironment]);
  (ActionViewLogs, [AttrResourceEnvironment]);
  (ActionViewWirelogs, [AttrResourceEnvironment]);
  (ActionViewMetrics, [AttrResourceEnvironment]);
  (ActionViewTraces, [AttrResourceEnvironment])
].

Definition LookupConditions (action : string) : list AttributeSpec :=
  default [] (conditionRegistry !! action).

(** ** Enumerating actions *)

Definition AllActions : list Action := systemActions.

Definition name_le (a b : Action) : Prop := String.le (Name a) (Name b).

#[global] Instance name_le_dec : RelDecision name_le.
Proof. intros a b. unfold name_le. apply _. Defined.

#[global] Instance name_le_total : Total name_le.
Proof. intros a b. unfold name_le. apply (total String.le). Qed.

#[global] Instance name_le_trans : Transitive name_le.
Proof. intros a b c. unfold name_le. apply transitivity. Qed.

(** [sort.Slice] by [Name]. *)
Definition sort_by_name (l : list Action) : list Action := merge_sort name_le l.

Definition with_conditions (a : Action) : Action :=
  mkAction (Name a) (LowestScope a) (IsInternal a) (LookupConditions (Name a)).

Definition PublicActions : list Action :=
  sort_by_name (with_conditions <$> List.filter (λ a, negb (IsInternal a)) systemActions).

Definition concretePublicActions : list Action :=
  sort_by_name
    (List.filter (λ a, negb (IsInternal a || Contains (Name a) "*")) systemActions).

Definition ConcretePublicActions : list Action :=
  with_conditions <$> concretePublicActions.

Definition ExpandActionPattern (pattern : string) : list string :=
  if String.eqb pattern "" then []
  else
    let actions := concretePublicActions in
    if String.eqb pattern "*" then Name <$> actions
    else if HasSuffix pattern ":*" then
      let prefix := stake (String.length pattern - 1) pattern in
      List.filter (λ n, HasPrefix n prefix) (Name <$> actions)
    else if existsb (λ a, String.eqb (Name a) pattern) actions then [pattern]
    else [].

(** ** Intersecting the attributes of several action patterns *)

(** The inner loops over one pattern: how many of its actions register each
    key, and the spec registered for it. *)
Definition perPattern (expanded : list string) : gmap string nat * gmap string AttributeSpec :=
  foldl (λ acc a,
      foldl (λ '(cnt, sp) s,
          (<[Key s := S (default 0 (cnt !! Key s))]> cnt, <[Key s := s]> sp))
        acc (LookupConditions a))
    (∅, ∅) expanded.

(** The body of the loop over one pattern's counters: a key that all [n] actions
    register is counted for the pattern. *)
Definition addKey (n : nat) (pps : gmap string AttributeSpec) (key : string) (c : nat)
    (acc : gmap string nat * gmap string AttributeSpec)
    : gmap string nat * gmap string AttributeSpec :=
  let '(counts, specs) := acc in
  if Nat.eqb c n
  then (<[key := S (default 0 (counts !! key))]> counts,
        match pps !! key with Some s => <[key := s]> specs | None => specs end)
  else (counts, specs).

(** One pattern folded into the running counters. *)
Definition addPattern (expanded : list string)
    (acc : gmap string nat * gmap string AttributeSpec)
    : gmap string nat * gmap string AttributeSpec :=
  let '(ppc, pps) := perPattern expanded in
  map_fold (addKey (length expanded) pps) acc ppc.

(** The loop over the patterns; [None] is the early return of an empty slice. *)
Fixpoint intersectLoop (actions : list string)
    (acc : gmap string nat * gmap string AttributeSpec)
    : option (gmap string nat * gmap string AttributeSpec) :=
  match actions with
  | [] => Some acc
  | pattern :: rest =>
      let expanded := ExpandActionPattern pattern in
      match expanded with
      | [] => None
      | _ => intersectLoop rest (addPattern expanded acc)
      end
  end.

Definition IntersectConditionsForActions (actions : list string) : list AttributeSpec :=
  match actions with
  | [] => []
  | _ =>
      match intersectLoop actions (∅, ∅) with
      | None => []
      | Some (counts, specs) =>
          omap (λ '(key, count), if Nat.eqb count (length actions) then specs !! key else None)
            (map_to_list counts)
      end
  end.
