(* ===== verification/AuthzMatch.v ===== *)
(** * Matching and path encoding of the authorizer

    The pure helpers of [internal/authz/casbin/helpers.go]: hierarchical
    resource matching, action matching, the resource path and subject codecs,
    request validation and wildcard expansion. *)

From S2P Require Import Prelude GoStrings AuthzCore.

Open Scope go_scope.

(** ** Definitions *)

Definition NamespaceResourcePrefix : string := "ns".
Definition ProjectResourcePrefix : string := "project".
Definition ComponentResourcePrefix : string := "component".
Definition ResourceResourcePrefix : string := "resource".

Definition emptyContextJSON : string := "{}".

Definition failClosed (policyEft : string) : bool :=
  negb (String.eqb policyEft PolicyEffectAllow).

Definition resourceMatch (requestResource policyResource : string) : bool :=
  if String.eqb policyResource "*" then true
  else if String.eqb requestResource policyResource then true
  else HasPrefix requestResource (policyResource +:+ "/").

Definition isPolicyConditionEmpty (policyCond : string) : bool :=
  String.eqb policyCond "" || String.eqb policyCond emptyContextJSON.

Definition actionMatch (requestAction roleAction : string) : bool :=
  if String.eqb roleAction "*" then true
  else if String.eqb roleAction requestAction then true
  else if HasSuffix roleAction ":*" then
    let prefixLen := String.length roleAction - 1 in
    (prefixLen <? String.length requestAction)%nat &&
    String.eqb (stake prefixLen requestAction) (stake prefixLen roleAction)
  else false.

Definition roleActionMatchWrapper (requestValue storedRuleValue : string) : bool :=
  if Contains storedRuleValue ":" || String.eqb storedRuleValue "*"
  then actionMatch requestValue storedRuleValue
  else String.eqb requestValue storedRuleValue.

(** The conditions with an action pattern that matches the request. *)
Definition filterConditionsByAction (conds : list AuthzCondition) (requestAction : string)
    : list AuthzCondition :=
  List.filter (λ c, existsb (actionMatch requestAction) (CondActions c)) conds.

Definition validateEvaluateRequest (req : option EvaluateRequest) : option string :=
  match req with
  | None => Some "invalid request: evaluate request is nil"
  | Some req =>
      match ReqSubject req with
      | None => Some "invalid request: subject context is required"
      | Some _ =>
          if String.eqb (ResourceType_ (ReqResource req)) ""
          then Some "invalid request: resource type is required"
          else if String.eqb (ReqAction req) ""
          then Some "invalid request: action is required"
          else None
      end
  end.

(** [strings.Trim(path, "/")] after the fields that are set are appended. *)
Definition resourceHierarchyToPath (h : ResourceHierarchy) : string :=
  if String.eqb (Namespace h) "" && String.eqb (Project h) "" &&
     String.eqb (Component h) "" && String.eqb (Resource_ h) "" then "*"
  else
    let path := "" in
    let path := if negb (String.eqb (Namespace h) "")
                then NamespaceResourcePrefix +:+ "/" +:+ Namespace h else path in
    let path := if negb (String.eqb (Project h) "")
                then path +:+ "/" +:+ ProjectResourcePrefix +:+ "/" +:+ Project h else path in
    let path :=
      if negb (String.eqb (Component h) "")
      then path +:+ "/" +:+ ComponentResourcePrefix +:+ "/" +:+ Component h
      else if negb (String.eqb (Resource_ h) "")
      then path +:+ "/" +:+ ResourceResourcePrefix +:+ "/" +:+ Resource_ h
      else path in
    TrimByte "/" path.

(** The loop over consecutive (prefix, value) pairs; a trailing single segment
    is ignored. *)
Fixpoint pathPairs (segments : list string) (h : ResourceHierarchy) : ResourceHierarchy :=
  match segments with
  | prefix :: value :: rest =>
      let h' :=
        if String.eqb prefix NamespaceResourcePrefix
        then mkHierarchy value (Project h) (Component h) (Resource_ h)
        else if String.eqb prefix ProjectResourcePrefix
        then mkHierarchy (Namespace h) value (Component h) (Resource_ h)
        else if String.eqb prefix ComponentResourcePrefix
        then mkHierarchy (Namespace h) (Project h) value (Resource_ h)
        else if String.eqb prefix ResourceResourcePrefix
        then mkHierarchy (Namespace h) (Project h) (Component h) value
        else h in
      pathPairs rest h'
  | _ => h
  end.

Definition resourcePathToHierarchy (resourcePath : string) : ResourceHierarchy :=
  let hierarchy := mkHierarchy "" "" "" "" in
  if String.eqb resourcePath "*" || String.eqb resourcePath "" then hierarchy
  else pathPairs (Split "/" resourcePath) hierarchy.

Definition formatSubject (claim value : string) : result string :=
  if String.eqb claim "" || String.eqb value ""
  then Err "claim and value cannot be empty"
  else Ok (claim +:+ ":" +:+ value).

(** [strings.SplitN(subject, ":", 2)]. *)
Definition parseSubject (subject : string) : result (string * string) :=
  match Cut ":" subject with
  | (claim, value, true) => Ok (claim, value)
  | (_, _, false) =>
      Err ("invalid subject format: expected 'claim:value', got '" +:+ subject +:+ "'")
  end.

Fixpoint validateRequestsFrom (i : nat) (reqs : list EvaluateRequest) : option string :=
  match reqs with
  | [] => None
  | req :: rest =>
      match ReqSubject req with
      | None => Some ("invalid request: subject context is required at index " +:+ pretty i)
      | Some _ =>
          if String.eqb (ResourceType_ (ReqResource req)) ""
          then Some ("invalid request: resource type is required at index " +:+ pretty i)
          else if String.eqb (ReqAction req) ""
          then Some ("invalid request: action is required at index " +:+ pretty i)
          else validateRequestsFrom (S i) rest
      end
  end.

Definition validateBatchEvaluateRequest (req : option BatchEvaluateRequest) : option string :=
  match req with
  | None => Some "invalid request: batch evaluate request is nil"
  | Some req =>
      match Requests req with
      | [] => Some "invalid request: batch evaluate request contains no requests"
      | reqs => validateRequestsFrom 0 reqs
      end
  end.

Definition validateProfileRequest (req : option ProfileRequest) : option string :=
  match req with
  | None => Some "invalid request: profile request is nil"
  | Some req =>
      match ProfSubject req with
      | None => Some "invalid request: subject context is required"
      | Some _ => None
      end
  end.

(** [colonIdx > 0]: a leading colon is not a separator. *)
Definition extractActionResourceType (action : string) : string :=
  match LastIndexByte ":" action with
  | Some (S n) => stake (S n) action
  | _ => action
  end.

Record actionIndex := mkActionIndex {
  ByResourceType : gmap string (list string);
  actionsStringList : list string;
}.

Definition indexActions (allActions : list Action) : actionIndex :=
  foldl (λ index action,
      let resourceType := extractActionResourceType (Name action) in
      mkActionIndex
        (<[resourceType := default [] (ByResourceType index !! resourceType) ++ [Name action]]>
           (ByResourceType index))
        (actionsStringList index ++ [Name action]))
    (mkActionIndex ∅ []) allActions.

Definition isWithinScope (policyResource scopePath : string) : bool :=
  if String.eqb policyResource "*" || String.eqb scopePath "*" then true
  else if String.eqb policyResource scopePath then true
  else if HasPrefix scopePath (policyResource +:+ "/") then true
  else if HasPrefix policyResource (scopePath +:+ "/") then true
  else false.

Definition expandActionWildcard (actionPattern : string) (idx : actionIndex) : list string :=
  if String.eqb actionPattern "*" then actionsStringList idx
  else if HasSuffix actionPattern ":*" then
    let resourcePrefix := stake (String.length actionPattern - 2) actionPattern in
    match ByResourceType idx !! resourcePrefix with
    | Some actions => actions
    | None => []
    end
  else [actionPattern].

Definition normalizeNamespace (namespace : string) : string :=
  if String.eqb namespace "" then "*" else namespace.

(** ** Hierarchical matching *)

(** [p] covers [r]: the relation the enforcer's [resourceMatch] decides. *)
Abbreviation covers p r := (resourceMatch r p = true).

Lemma resourceMatch_segments r p :
  covers p r ↔ p = "*" ∨ Split "/" p `prefix_of` Split "/" r.
Proof.
  unfold resourceMatch. rewrite Split_prefix_of.
  destruct (String.eqb_spec p "*") as [->|Hp]; [naive_solver|].
  destruct (String.eqb_spec r p) as [->|Hr]; naive_solver.
Qed.

Lemma Split_star : Split "/" "*" = ["*"].
Proof. done. Qed.

Lemma Split_inj_star p : Split "/" p `prefix_of` ["*"] → p = "*".
Proof.
  intros [l Hl]. pose proof (Split_not_nil "/" p) as Hne.
  destruct (Split "/" p) as [|w [|w2 ws]] eqn:E; [done| |done].
  simplify_eq/=. by rewrite <- (Join_Split "/" p), E.
Qed.

Lemma covers_refl p : covers p p.
Proof. apply resourceMatch_segments. by right. Qed.

Lemma covers_trans p q r : covers p q → covers q r → covers p r.
Proof.
  rewrite !resourceMatch_segments. intros [->|Hpq] [->|Hqr]; auto.
  - left. by apply Split_inj_star.
  - right. by trans (Split "/" q).
Qed.

(** Two paths that cover the same resource are comparable. *)
Lemma covers_comparable p q r : covers p r → covers q r → covers p q ∨ covers q p.
Proof.
  rewrite !resourceMatch_segments. intros [->|Hp] [->|Hq]; auto.
  destruct (prefix_weak_total _ _ _ Hp Hq); auto.
Qed.

(** A name that can be one segment of a resource path. *)
Definition seg_name (s : string) : Prop := s ≠ "" ∧ has_byte "/" s = false.

(** The hierarchies the CRD layer admits: a project needs its namespace, a
    component or a resource needs its project, and a component and a resource
    are not set together. *)
Inductive hier_wf : ResourceHierarchy → Prop :=
  | wf_global : hier_wf (mkHierarchy "" "" "" "")
  | wf_ns n : seg_name n → hier_wf (mkHierarchy n "" "" "")
  | wf_project n p : seg_name n → seg_name p → hier_wf (mkHierarchy n p "" "")
  | wf_component n p c : seg_name n → seg_name p → seg_name c → hier_wf (mkHierarchy n p c "")
  | wf_resource n p r : seg_name n → seg_name p → seg_name r → hier_wf (mkHierarchy n p "" r).

(** The segments of the path of a hierarchy. *)
Definition hier_segments (h : ResourceHierarchy) : list string :=
  if String.eqb (Namespace h) "" then ["*"]
  else [NamespaceResourcePrefix; Namespace h] ++
    (if String.eqb (Project h) "" then [] else
       [ProjectResourcePrefix; Project h] ++
       (if String.eqb (Component h) "" then
          if String.eqb (Resource_ h) "" then [] else [ResourceResourcePrefix; Resource_ h]
        else [ComponentResourcePrefix; Component h])).

(** Evaluate the emptiness tests on the fields of a well-formed hierarchy. *)
Ltac hier_eval :=
  cbn [Namespace Project Component Resource_];
  repeat match goal with
  | H : seg_name ?x |- context [String.eqb ?x ""] =>
      rewrite (proj2 (String.eqb_neq x "") (proj1 H))
  end;
  rewrite ?String.eqb_refl; cbn [negb andb app].

Lemma TrimByte_path s n :
  has_byte "/" n = false → n ≠ "" → (∃ t, s = String "n" t) →
  TrimByte "/" (s +:+ n) = s +:+ n.
Proof.
  intros Hb Hn [t ->]. unfold TrimByte.
  assert (TrimLeftByte "/" (String "n" t +:+ n) = String "n" t +:+ n) as -> by done.
  by apply TrimRightByte_no_tail.
Qed.

Lemma resourceHierarchyToPath_join h :
  hier_wf h → resourceHierarchyToPath h = Join (hier_segments h) "/".
Proof.
  intros Hwf. unfold resourceHierarchyToPath, hier_segments.
  destruct Hwf as [|n Hn|n p Hn Hp|n p c Hn Hp Hc|n p r Hn Hp Hr]; [done|..];
    hier_eval; cbn [Join]; rewrite <- ?sapp_assoc;
    (apply TrimByte_path;
     [match goal with H : seg_name ?x |- has_byte _ ?x = _ => apply H end
     |match goal with H : seg_name ?x |- ?x ≠ _ => apply H end
     |by eexists]).
Qed.

Lemma hier_segments_no_slash h :
  hier_wf h → Forall (λ w, has_byte "/" w = false) (hier_segments h).
Proof.
  intros Hwf. unfold hier_segments.
  destruct Hwf as [|n Hn|n p Hn Hp|n p c Hn Hp Hc|n p r Hn Hp Hr]; hier_eval;
    repeat constructor; match goal with H : seg_name ?x |- has_byte _ ?x = _ => apply H end.
Qed.

Lemma Split_hierarchy_path h :
  hier_wf h → Split "/" (resourceHierarchyToPath h) = hier_segments h.
Proof.
  intros Hwf. rewrite resourceHierarchyToPath_join by done. apply Split_Join.
  - unfold hier_segments. by case_goal.
  - by apply hier_segments_no_slash.
Qed.

(** [h] is [h'] or one of its ancestors. *)
Definition hier_ancestor (h h' : ResourceHierarchy) : Prop :=
  (Namespace h = "" ∨ Namespace h = Namespace h') ∧
  (Project h = "" ∨ Project h = Project h') ∧
  (Component h = "" ∨ Component h = Component h') ∧
  (Resource_ h = "" ∨ Resource_ h = Resource_ h').

Lemma prefix_cons_iff {A} (x y : A) l k :
  x :: l `prefix_of` y :: k ↔ x = y ∧ l `prefix_of` k.
Proof. split; [intros H; split; [by eapply prefix_cons_inv_1|by eapply prefix_cons_inv_2]|]. by intros [-> H]; apply prefix_cons. Qed.

Lemma prefix_cons_nil_iff {A} (x : A) l : x :: l `prefix_of` [] ↔ False.
Proof. split; [by intros [? ?]|done]. Qed.

Lemma prefix_nil_iff {A} (l : list A) : [] `prefix_of` l ↔ True.
Proof. split; [done|]. intros _. by exists l. Qed.

Lemma hierarchy_path_star h :
  hier_wf h → resourceHierarchyToPath h = "*" ↔ Namespace h = "".
Proof.
  intros Hwf. split.
  - intros Heq. apply (f_equal (Split "/")) in Heq.
    rewrite Split_hierarchy_path, Split_star in Heq by done.
    unfold hier_segments in Heq. destruct (String.eqb_spec (Namespace h) ""); done.
  - destruct Hwf as [|n Hn|n p Hn Hp|n p c Hn Hp Hc|n p r Hn Hp Hr]; simpl; intros Hx; [done|subst..];
      match goal with H : seg_name "" |- _ => by destruct H end.
Qed.

Lemma resourceMatch_ancestor h h' :
  hier_wf h → hier_wf h' →
  resourceMatch (resourceHierarchyToPath h') (resourceHierarchyToPath h) = true
  ↔ hier_ancestor h h'.
Proof.
  intros Hwf Hwf'.
  rewrite resourceMatch_segments, hierarchy_path_star, !Split_hierarchy_path by done.
  unfold hier_ancestor, hier_segments.
  destruct Hwf as [|n Hn|n p Hn Hp|n p c Hn Hp Hc|n p r Hn Hp Hr];
    destruct Hwf' as [|n' Hn'|n' p' Hn' Hp'|n' p' c' Hn' Hp' Hc'|n' p' r' Hn' Hp' Hr'];
    hier_eval; rewrite ?prefix_cons_iff, ?prefix_cons_nil_iff, ?prefix_nil_iff;
    unfold seg_name in *; naive_solver.
Qed.

(** A policy scoped to a hierarchy covers exactly that hierarchy and its
    descendants: the textual prefix test on paths never confuses two names. *)
Theorem resourceMatch_hierarchy h h' :
  hier_wf h → hier_wf h' →
  resourceMatch (resourceHierarchyToPath h') (resourceHierarchyToPath h) = true
  ↔ hier_ancestor h h'.
Proof. apply resourceMatch_ancestor. Qed.

Lemma resourceMatch_hierarchy_witness :
  resourceMatch (resourceHierarchyToPath (mkHierarchy "acme" "shop" "cart" ""))
    (resourceHierarchyToPath (mkHierarchy "acme" "shop" "" "")) = true ↔
  hier_ancestor (mkHierarchy "acme" "shop" "" "") (mkHierarchy "acme" "shop" "cart" "").
Proof. apply resourceMatch_hierarchy; by repeat constructor. Defined.

(** A path parses back to the hierarchy it was made from. *)
Theorem resourcePath_roundtrip h :
  hier_wf h → resourcePathToHierarchy (resourceHierarchyToPath h) = h.
Proof.
  intros Hwf. unfold resourcePathToHierarchy. rewrite Split_hierarchy_path by done.
  destruct (String.eqb_spec (resourceHierarchyToPath h) "*") as [Heq|Hne]; simpl.
  { apply hierarchy_path_star in Heq; [|done]. 
    destruct Hwf as [|n Hn|n p Hn Hp|n p c Hn Hp Hc|n p r Hn Hp Hr]; simpl in Heq;
      [done|subst; by destruct Hn..]. }
  destruct (String.eqb_spec (resourceHierarchyToPath h) "") as [Heq|Hne'].
  { apply (f_equal (Split "/")) in Heq. rewrite Split_hierarchy_path in Heq by done.
    unfold hier_segments in Heq. by destruct (String.eqb (Namespace h) ""). }
  unfold hier_segments.
  destruct Hwf as [|n Hn|n p Hn Hp|n p c Hn Hp Hc|n p r Hn Hp Hr]; hier_eval; done.
Qed.

Lemma resourcePath_roundtrip_witness :
  resourcePathToHierarchy (resourceHierarchyToPath (mkHierarchy "acme" "shop" "" "db")) =
  mkHierarchy "acme" "shop" "" "db".
Proof. apply resourcePath_roundtrip. by repeat constructor. Defined.

(** ** Subjects *)

(** A formatted subject parses back to its claim and value, whatever the
    value contains, when the claim has no colon. *)
Lemma parseSubject_formatSubject claim value subject :
  has_byte ":" claim = false →
  formatSubject claim value = Ok subject → parseSubject subject = Ok (claim, value).
Proof.
  intros Hc. unfold formatSubject. case_goal; [done|]. intros [= <-].
  unfold parseSubject. rewrite sapp_cons, sapp_nil_l. by rewrite Cut_app.
Qed.

Lemma formatSubject_inj claim v1 v2 s :
  formatSubject claim v1 = Ok s → formatSubject claim v2 = Ok s → v1 = v2.
Proof.
  unfold formatSubject. repeat case_goal; try done. intros [= <-] [= Heq].
  by apply (inj (String.app _)), (inj (String.app _)) in Heq.
Qed.

(** ** Actions *)

Lemma actionMatch_spec a p :
  actionMatch a p = true ↔
  p = "*" ∨ p = a ∨
  ∃ res verb, p = res +:+ ":*" ∧ a = res +:+ ":" +:+ verb ∧ verb ≠ "".
Proof.
  unfold actionMatch.
  destruct (String.eqb_spec p "*") as [->|Hstar]; [naive_solver|].
  destruct (String.eqb_spec p a) as [->|Hpa]; [naive_solver|].
  destruct (HasSuffix p ":*") eqn:Hsuf.
  - apply HasSuffix_spec in Hsuf as [res ->].
    assert (String.length (res +:+ ":*") - 1 = String.length (res +:+ ":")) as ->
      by (rewrite !sapp_length; simpl; lia).
    assert (stake (String.length (res +:+ ":")) (res +:+ ":*") = res +:+ ":") as ->.
    { replace (res +:+ ":*") with ((res +:+ ":") +:+ "*") by (by rewrite sapp_assoc).
      apply stake_app. }
    rewrite andb_true_iff, Nat.ltb_lt, String.eqb_eq. split.
    + intros [Hl Heq]. right; right. exists res, (sdrop (String.length (res +:+ ":")) a).
      split; [done|]. rewrite <- sapp_assoc, <- Heq at 1. rewrite stake_sdrop. split; [done|].
      intros Hd. rewrite <- (stake_sdrop (String.length (res +:+ ":")) a), Hd, sapp_nil_r, Heq in Hl. lia.
    + intros [|[|(res' & verb & Heq & -> & Hv)]]; [done..|].
      apply sapp_inj_2 in Heq as [<- _]; [|done].
      rewrite <- sapp_assoc, stake_app. split; [|done].
      rewrite (sapp_length _ verb). destruct verb; simpl; [done|lia].
  - split; [done|]. intros [|[|(res & verb & -> & _)]]; [done..|].
    assert (HasSuffix (res +:+ ":*") ":*" = true) by (apply HasSuffix_spec; eauto). congruence.
Qed.

(** The matching function registered for roles is the action matcher: a stored
    value without a colon can only match by equality. *)
Lemma roleActionMatchWrapper_eq a p : roleActionMatchWrapper a p = actionMatch a p.
Proof.
  unfold roleActionMatchWrapper. rewrite Contains_byte.
  destruct (has_byte ":" p) eqn:Ec; [done|]. simpl.
  destruct (String.eqb_spec p "*") as [->|Hne]; [done|].
  unfold actionMatch. rewrite (proj2 (String.eqb_neq _ _) Hne), (String.eqb_sym p a).
  destruct (String.eqb a p); [done|]. destruct (HasSuffix p ":*") eqn:Es; [|done].
  apply HasSuffix_spec in Es as [k ->]. rewrite has_byte_app in Ec. simpl in Ec.
  by rewrite orb_true_r in Ec.
Qed.
