(* ===== verification/AuthzActions.v ===== *)
(** * Wildcard expansion of actions

    The authorizer has three readings of an action pattern: [actionMatch]
    (enforcement, [internal/authz/casbin/helpers.go]), [expandActionWildcard]
    (the profile endpoint, same file, through the index built by
    [indexActions]) and [ExpandActionPattern] (admission,
    [internal/authz/core/actions.go]).  This file proves that the three agree on
    the concrete public actions, and what the attribute intersection used at
    admission computes. *)

From S2P Require Import Prelude GoStrings AuthzCore AuthzMatch.

(** ** Shape of the action table *)

Definition action_names : list string := Name <$> concretePublicActions.

(** [<resource>:<verb>] with both parts non-empty, one colon and no wildcard. *)
Definition action_shape (n : string) : bool :=
  match Cut ":" n with
  | (r, v, true) =>
      negb (String.eqb r "") && negb (String.eqb v "") &&
      negb (has_byte ":" v) && negb (has_byte "*" n)
  | _ => false
  end.

Lemma action_names_shape : forallb action_shape action_names = true.
Proof. vm_compute. reflexivity. Qed.

Lemma action_names_nodup : NoDup action_names.
Proof. apply (bool_decide_unpack _). vm_compute. exact I. Qed.

Lemma Cut_true c s a b : Cut c s = (a, b, true) → s = a +:+ String c b ∧ has_byte c a = false.
Proof.
  revert a b; induction s as [|d s IH]; intros a b; cbn [Cut]; [done|].
  case_bool_decide as Hd; [intros [= <- <-]; by subst|].
  destruct (Cut c s) as [[a' b'] []] eqn:E; [|done].
  intros [= <- <-]. destruct (IH _ _ eq_refl) as [-> Ha].
  split; [done|]. cbn [has_byte]. by rewrite Ha, bool_decide_eq_false_2.
Qed.

Lemma action_name_parts n :
  n ∈ action_names →
  ∃ r v, n = r +:+ ":" +:+ v ∧ r ≠ "" ∧ v ≠ "" ∧
         has_byte ":" r = false ∧ has_byte ":" v = false ∧ has_byte "*" n = false.
Proof.
  intros Hn. pose proof action_names_shape as H.
  rewrite forallb_forall in H. apply list_elem_of_In, H in Hn. clear H.
  unfold action_shape in Hn. destruct (Cut ":" n) as [[r v] []] eqn:E; [|done].
  apply Cut_true in E as [-> Hr]. bool_simpl. exists r, v.
  rewrite (sapp_cons ":"), sapp_nil_l in *. done.
Qed.

(** A string with exactly one colon is split at it in one way only. *)
Lemma one_colon_inj r v res k :
  has_byte ":" r = false → has_byte ":" v = false →
  r +:+ ":" +:+ v = res +:+ ":" +:+ k → res = r ∧ k = v.
Proof.
  intros Hr Hv Heq. apply (f_equal (Split ":")) in Heq.
  rewrite !(sapp_cons ":"), !sapp_nil_l, !Split_app, (Split_no_byte _ r), (Split_no_byte _ v)
    in Heq by done.
  rewrite <- (Join_Split ":" res), <- (Join_Split ":" k).
  pose proof (Split_not_nil ":" res). pose proof (Split_not_nil ":" k).
  destruct (Split ":" res) as [|a [|b l]], (Split ":" k) as [|a' [|b' l']];
    simpl in *; try done; injection Heq; intros; subst; try done.
  all: match goal with H : [] = _ ++ _ |- _ => symmetry in H; apply app_eq_nil in H as [??] end; done.
Qed.

(** On an action name a verb wildcard fixes the resource part. *)
Lemma actionMatch_verb_wildcard r v res :
  has_byte ":" r = false → has_byte ":" v = false → v ≠ "" →
  has_byte "*" (r +:+ ":" +:+ v) = false →
  actionMatch (r +:+ ":" +:+ v) (res +:+ ":*") = true ↔ res = r.
Proof.
  intros Hr Hv Hne Hst. rewrite actionMatch_spec. split.
  - intros [Heq|[Heq|(res' & verb & Heq & Heq' & Hverb)]].
    + destruct res as [|c [|? ?]]; rewrite ?sapp_cons, ?sapp_nil_l in Heq; done.
    + rewrite <- Heq in Hst. by rewrite has_byte_app, orb_false_iff in Hst; destruct Hst.
    + apply sapp_inj_2 in Heq as [<- _]; [|done].
      by apply one_colon_inj in Heq' as [-> _].
  - intros ->. right; right. by exists r, v.
Qed.

#[local] Opaque concretePublicActions.

(** The part of a wildcard pattern that is kept when its last bytes are cut. *)
Lemma stake_wild res k :
  k ≤ 2 → stake (String.length (res +:+ ":*") - k) (res +:+ ":*") = res +:+ stake (2 - k) ":*".
Proof.
  intros Hk. rewrite sapp_length. simpl.
  replace (String.length res + 2 - k) with (String.length res + (2 - k)) by lia.
  generalize (2 - k). intros j. induction res as [|c res IH]; [done|].
  rewrite !sapp_cons. simpl. by rewrite IH.
Qed.

(** A pattern that is neither ["*"] nor a verb wildcard matches only itself. *)
Lemma actionMatch_concrete n p :
  p ≠ "*" → HasSuffix p ":*" = false → actionMatch n p = true ↔ p = n.
Proof.
  intros Hs Hsuf. rewrite actionMatch_spec. split; [|by auto].
  intros [|[|(res & v & -> & _)]]; [done..|].
  assert (HasSuffix (res +:+ ":*") ":*" = true) by (apply HasSuffix_spec; eauto). congruence.
Qed.

(** ** Admission *)

Lemma expand_wild_pred n res :
  n ∈ action_names →
  HasPrefix n (res +:+ ":") = true ↔ actionMatch n (res +:+ ":*") = true.
Proof.
  intros (r & v & -> & Hr & Hv & Hrc & Hvc & Hst)%action_name_parts.
  rewrite actionMatch_verb_wildcard, HasPrefix_spec by done. split.
  - intros [k Hk]. rewrite (sapp_assoc res) in Hk. by apply one_colon_inj in Hk as [-> _].
  - intros ->. exists v. by rewrite sapp_assoc.
Qed.

Lemma ExpandActionPattern_matches p n :
  n ∈ ExpandActionPattern p ↔ n ∈ action_names ∧ actionMatch n p = true.
Proof.
  unfold ExpandActionPattern. fold action_names.
  destruct (String.eqb_spec p "") as [->|Hne].
  { rewrite actionMatch_concrete by done. split; [inversion 1|].
    intros [Hn <-]. apply action_name_parts in Hn as (r & v & Heq & Hr & _). by destruct r. }
  destruct (String.eqb_spec p "*") as [->|Hstar].
  { split; [intros Hn; split; [exact Hn|reflexivity]|]. intros [Hn _]. exact Hn. }
  destruct (HasSuffix p ":*") eqn:Hsuf.
  - apply HasSuffix_spec in Hsuf as [res ->].
    rewrite stake_wild by lia. simpl.
    rewrite list_elem_of_In, List.filter_In, <- list_elem_of_In.
    split; intros [Hn H]; (split; [exact Hn|]); by apply (expand_wild_pred n res Hn).
  - rewrite actionMatch_concrete by done.
    destruct (existsb _ _) eqn:E.
    + apply existsb_elem in E as (a & Ha & Heq). bool_simpl. subst p.
      rewrite list_elem_of_singleton. split; [|by intros [_ <-]].
      intros ->. split; [|done]. by apply list_elem_of_fmap_2.
    + split; [inversion 1|]. intros [Hn ->]. unfold action_names in Hn.
      apply list_elem_of_fmap in Hn as (a & -> & Ha).
      rewrite existsb_elem_false in E. specialize (E a Ha).
      by rewrite String.eqb_refl in E.
Qed.

(** ** The profile's index *)

Lemma indexActions_snoc l a :
  indexActions (l ++ [a]) =
  let index := indexActions l in
  let rt := extractActionResourceType (Name a) in
  mkActionIndex (<[rt := default [] (ByResourceType index !! rt) ++ [Name a]]> (ByResourceType index))
                (actionsStringList index ++ [Name a]).
Proof. unfold indexActions. by rewrite foldl_app. Qed.

Lemma indexActions_list l : actionsStringList (indexActions l) = Name <$> l.
Proof.
  induction l as [|a l IH] using rev_ind; [done|].
  rewrite indexActions_snoc, fmap_app. simpl. by rewrite IH.
Qed.

Lemma indexActions_lookup l rt :
  default [] (ByResourceType (indexActions l) !! rt) =
  List.filter (λ n, String.eqb (extractActionResourceType n) rt) (Name <$> l).
Proof.
  induction l as [|a l IH] using rev_ind; [done|].
  rewrite indexActions_snoc, fmap_app, List.filter_app. simpl.
  destruct (String.eqb_spec (extractActionResourceType (Name a)) rt) as [Heq|Hne].
  - by rewrite Heq, lookup_insert_eq, <- IH.
  - by rewrite lookup_insert_ne, app_nil_r, <- IH.
Qed.

Lemma extract_action_name r v :
  has_byte ":" v = false → r ≠ "" → extractActionResourceType (r +:+ ":" +:+ v) = r.
Proof.
  intros Hv Hr. unfold extractActionResourceType.
  rewrite (sapp_cons ":"), sapp_nil_l, LastIndexByte_app by done.
  destruct r as [|c r]; [done|]. apply (stake_app (String c r)).
Qed.

Lemma names_with_conditions (l : list Action) : Name <$> (with_conditions <$> l) = Name <$> l.
Proof. induction l as [|a l IH]; [done|]. rewrite !fmap_cons, IH. done. Qed.

Lemma expandActionWildcard_matches p n :
  n ∈ action_names →
  n ∈ expandActionWildcard p (indexActions ConcretePublicActions) ↔ actionMatch n p = true.
Proof.
  intros Hn. unfold expandActionWildcard, ConcretePublicActions.
  destruct (String.eqb_spec p "*") as [->|Hstar].
  { rewrite indexActions_list, names_with_conditions. split; [done|intros _; exact Hn]. }
  destruct (HasSuffix p ":*") eqn:Hsuf; [|rewrite actionMatch_concrete, list_elem_of_singleton by done; done].
  apply HasSuffix_spec in Hsuf as [res ->].
  rewrite stake_wild by lia. simpl. rewrite sapp_nil_r.
  match goal with |- context [match ?o with Some _ => _ | None => _ end] =>
    change (match o with Some actions => actions | None => [] end) with (default [] o) end.
  rewrite indexActions_lookup, names_with_conditions.
  rewrite list_elem_of_In, List.filter_In, <- list_elem_of_In, String.eqb_eq.
  pose proof Hn as (r & v & -> & Hr & Hv & Hrc & Hvc & Hst)%action_name_parts.
  rewrite extract_action_name, actionMatch_verb_wildcard by done.
  split; [by intros [_ ->]|]. intros ->. split; [exact Hn|done].
Qed.

(** ** Attribute intersection *)

(** The attributes that occur in the registry. *)
Definition known_attributes : list AttributeSpec :=
  [AttrResourceEnvironment; AttrResourceComponentType; AttrResourceResourceType;
   AttrResourceWorkflow].

Definition known_spec (k : string) : option AttributeSpec :=
  List.find (λ s, String.eqb (Key s) k) known_attributes.

Lemma registry_wf :
  map_Forall (λ _ l, l = [] ∨ ∃ s, s ∈ known_attributes ∧ l = [s]) conditionRegistry.
Proof.
  assert (map_Forall (λ _ l, Exists (λ s, l = [s]) known_attributes) conditionRegistry) as H.
  { apply (bool_decide_unpack _). vm_compute. exact I. }
  intros k l Hl. apply H in Hl. apply Exists_exists in Hl as (s & Hs & ->). eauto.
Qed.

Lemma LookupConditions_cases a :
  LookupConditions a = [] ∨
  ∃ s, LookupConditions a = [s] ∧ known_spec (Key s) = Some s.
Proof.
  unfold LookupConditions. destruct (conditionRegistry !! a) as [l|] eqn:E; [|by left].
  apply registry_wf in E as [->|(s & Hs & ->)]; [by left|]. right. exists s. split; [done|].
  unfold known_attributes in Hs. rewrite !elem_of_cons in Hs.
  destruct Hs as [->|[->|[->|[->|Hs]]]]; [done..|inversion Hs].
Qed.

#[local] Opaque conditionRegistry LookupConditions.

(** Action [a] offers an attribute with key [k]. *)
Definition registers (k a : string) : bool :=
  existsb (λ s, String.eqb (Key s) k) (LookupConditions a).

Lemma registers_spec k a s :
  known_spec k = Some s → registers k a = true ↔ s ∈ LookupConditions a.
Proof.
  intros Hk. assert (Key s = k) as Hks.
  { apply List.find_some in Hk as [_ ?]. by bool_simpl. }
  unfold registers. destruct (LookupConditions_cases a) as [->|(s' & -> & Hs')]; simpl.
  - rewrite list_elem_of_In. done.
  - rewrite orb_false_r, String.eqb_eq, list_elem_of_singleton. split; [|by intros <-].
    intros Heq. rewrite Heq in Hs'. congruence.
Qed.

Definition opt_nat (n : nat) : option nat := match n with 0 => None | _ => Some n end.

Definition reg_count (k : string) (l : list string) : nat :=
  length (List.filter (registers k) l).

Lemma perPattern_spec l k :
  (perPattern l).1 !! k = opt_nat (reg_count k l) ∧
  (perPattern l).2 !! k = if Nat.eqb (reg_count k l) 0 then None else known_spec k.
Proof.
  unfold perPattern, reg_count. induction l as [|a l IH] using rev_ind; [done|].
  rewrite foldl_app, List.filter_app, length_app. simpl. unfold registers at 2 4.
  destruct (foldl _ (∅, ∅) l) as [cnt sp]. destruct IH as [IH1 IH2].
  destruct (LookupConditions_cases a) as [->|(s & -> & Hs)]; simpl in *.
  { by rewrite Nat.add_0_r. }
  destruct (String.eqb_spec (Key s) k) as [<-|Hne]; simpl.
  - rewrite !lookup_insert_eq, IH1, Nat.add_1_r. simpl. split; [|done].
    by destruct (length _).
  - by rewrite !lookup_insert_ne, Nat.add_0_r by done.
Qed.

(** Every action the pattern expands to offers [k]. *)
Definition full (k p : string) : bool :=
  Nat.eqb (reg_count k (ExpandActionPattern p)) (length (ExpandActionPattern p)).

Definition key_hit (n : nat) (m : gmap string nat) (k : string) : bool :=
  match m !! k with Some c => Nat.eqb c n | None => false end.

Lemma addKey_fold n pps counts specs m k :
  let r := map_fold (addKey n pps) (counts, specs) m in
  r.1 !! k = (if key_hit n m k then Some (S (default 0 (counts !! k))) else counts !! k) ∧
  r.2 !! k = (if key_hit n m k
              then match pps !! k with Some s => Some s | None => specs !! k end
              else specs !! k).
Proof.
  cbv zeta.
  apply (map_fold_weak_ind (λ (r : gmap string nat * gmap string AttributeSpec) m,
    r.1 !! k = (if key_hit n m k then Some (S (default 0 (counts !! k))) else counts !! k) ∧
    r.2 !! k = (if key_hit n m k
                then match pps !! k with Some s => Some s | None => specs !! k end
                else specs !! k))); unfold key_hit; [done|].
  clear m. intros i x m [c s] Hi [IH1 IH2]. simpl in *.
  destruct (decide (i = k)) as [->|Hik].
  - rewrite lookup_insert_eq. rewrite Hi in IH1, IH2.
    destruct (Nat.eqb_spec x n) as [->|Hx]; simpl; [|done].
    rewrite lookup_insert_eq, IH1. split; [done|].
    destruct (pps !! k); [by rewrite lookup_insert_eq|done].
  - rewrite lookup_insert_ne by done. destruct (Nat.eqb x n); simpl; [|done].
    rewrite lookup_insert_ne by done. split; [done|].
    destruct (pps !! i); [by rewrite lookup_insert_ne|done].
Qed.

Lemma addPattern_spec expanded acc k :
  expanded ≠ [] →
  let r := addPattern expanded acc in
  let hit := Nat.eqb (reg_count k expanded) (length expanded) in
  r.1 !! k = (if hit then Some (S (default 0 (acc.1 !! k))) else acc.1 !! k) ∧
  r.2 !! k = (if hit then match known_spec k with Some s => Some s | None => acc.2 !! k end
              else acc.2 !! k).
Proof.
  intros Hne. destruct acc as [counts specs]. unfold addPattern.
  destruct (perPattern_spec expanded k) as [H1 H2].
  destruct (perPattern expanded) as [ppc pps]. simpl in *.
  pose proof (addKey_fold (length expanded) pps counts specs ppc k) as H. cbv zeta in H |- *.
  unfold key_hit in H. rewrite H1, H2 in H.
  assert (0 < length expanded) by (destruct expanded; simpl; [done|lia]).
  destruct (reg_count k expanded) as [|n]; simpl in H; [|done].
  replace (Nat.eqb 0 (length expanded)) with false; [done|].
  destruct (length expanded); [lia|done].
Qed.

(** The running counters count the patterns all of whose actions offer [k]. *)
Lemma intersectLoop_spec ps acc n k :
  acc.1 !! k = opt_nat n →
  acc.2 !! k = (if Nat.eqb n 0 then None else known_spec k) →
  match intersectLoop ps acc with
  | None => ∃ p, p ∈ ps ∧ ExpandActionPattern p = []
  | Some r =>
      let n' := n + length (List.filter (full k) ps) in
      (∀ p, p ∈ ps → ExpandActionPattern p ≠ []) ∧
      r.1 !! k = opt_nat n' ∧
      r.2 !! k = (if Nat.eqb n' 0 then None else known_spec k)
  end.
Proof.
  revert acc n. induction ps as [|p ps IH]; intros acc n H1 H2.
  { simpl. rewrite Nat.add_0_r. split; [inversion 1|done]. }
  cbn [intersectLoop]. destruct (ExpandActionPattern p) as [|x xs] eqn:E.
  { exists p. split; [by left|done]. }
  rewrite <- E. cbn [List.filter].
  destruct (addPattern_spec (ExpandActionPattern p) acc k) as [A1 A2]; [by rewrite E|].
  cbv zeta in A1, A2.
  fold (full k p) in A1, A2. destruct (full k p).
  - specialize (IH (addPattern (ExpandActionPattern p) acc) (S n)).
    rewrite A1, A2, H1, H2 in IH.
    assert (S (default 0 (opt_nat n)) = S n) as Hn by (by destruct n).
    rewrite Hn in IH. specialize (IH eq_refl).
    assert ((match known_spec k with Some s => Some s | None => if Nat.eqb n 0 then None else known_spec k end)
            = known_spec k) as Hk by (destruct (known_spec k), n; done).
    rewrite Hk in IH. specialize (IH eq_refl).
    destruct (intersectLoop ps _) as [r|]; simpl.
    + destruct IH as (Hall & Hr1 & Hr2). simpl in Hr1, Hr2. rewrite Nat.add_succ_r.
      split; [|done]. intros q [->|Hq]%elem_of_cons; [by rewrite E|auto].
    + destruct IH as (q & Hq & ?). exists q. split; [by right|done].
  - specialize (IH (addPattern (ExpandActionPattern p) acc) n).
    rewrite A1, A2 in IH. specialize (IH H1 H2).
    destruct (intersectLoop ps _) as [r|]; simpl.
    + destruct IH as (Hall & Hr1 & Hr2). split; [|done].
      intros q [->|Hq]%elem_of_cons; [by rewrite E|auto].
    + destruct IH as (q & Hq & ?). exists q. split; [by right|done].
Qed.

Lemma filter_length_full {A} (f : A → bool) l :
  length (List.filter f l) = length l ↔ ∀ x, x ∈ l → f x = true.
Proof.
  split.
  - induction l as [|y l IH]; simpl; intros H x; [inversion 1|].
    destruct (f y) eqn:E; simpl in H.
    + intros [->|Hx]%elem_of_cons; [done|]. apply IH; [lia|done].
    + pose proof (List.filter_length_le f l). lia.
  - intros H. rewrite (List.forallb_filter_id f l); [done|].
    apply forallb_forall. intros x Hx. apply H. by apply list_elem_of_In.
Qed.

(** What the loop computes when it does not return early. *)
Lemma intersectLoop_elem actions spec :
  actions ≠ [] →
  spec ∈ IntersectConditionsForActions actions ↔
  (∀ p, p ∈ actions → ExpandActionPattern p ≠ []) ∧
  ∃ k, known_spec k = Some spec ∧ ∀ p, p ∈ actions → full k p = true.
Proof.
  intros Hne. unfold IntersectConditionsForActions.
  destruct actions as [|p0 ps0] eqn:Ea; [done|]. rewrite <- Ea in *. clear Ea p0 ps0.
  assert (0 < length actions) as Hlen by (destruct actions; simpl; [done|lia]).
  pose proof (λ k, intersectLoop_spec actions (∅, ∅) 0 k eq_refl eq_refl) as H.
  destruct (intersectLoop actions (∅, ∅)) as [[counts specs]|].
  - cbn [fst snd] in H.
    rewrite list_elem_of_omap. split.
    + intros ([k c] & Hin & Hc). apply elem_of_map_to_list in Hin.
      destruct (Nat.eqb_spec c (length actions)) as [->|]; [|done].
      destruct (H k) as (Hall & Hr1 & Hr2). simpl in Hr1, Hr2.
      rewrite Hin in Hr1. rewrite Hc in Hr2.
      destruct (length (List.filter (full k) actions)) as [|m] eqn:Em; [done|].
      simpl in Hr1, Hr2. split; [done|]. exists k. split; [done|].
      apply filter_length_full. rewrite Em. by simplify_eq.
    + intros (Hall & k & Hk & Hfull). exists (k, length actions).
      destruct (H k) as (_ & Hr1 & Hr2). simpl in Hr1, Hr2.
      rewrite (proj2 (filter_length_full (full k) actions) Hfull) in Hr1, Hr2.
      rewrite elem_of_map_to_list, Nat.eqb_refl, Hr1, Hr2.
      destruct (length actions); [lia|done].
  - split; [inversion 1|]. destruct (H "") as (p & Hp & He). intros [Hall _]. by destruct (Hall p).
Qed.

(** The attributes offered for a list of action patterns are those that
    every concrete action of every pattern registers, and none when a pattern
    names no action. *)
Theorem IntersectConditionsForActions_spec actions spec :
  actions ≠ [] →
  spec ∈ IntersectConditionsForActions actions ↔
  ∀ p, p ∈ actions →
    ExpandActionPattern p ≠ [] ∧
    ∀ a, a ∈ ExpandActionPattern p → spec ∈ LookupConditions a.
Proof.
  intros Hne. rewrite intersectLoop_elem by done.
  assert (∀ k p, known_spec k = Some spec →
    full k p = true ↔ ∀ a, a ∈ ExpandActionPattern p → spec ∈ LookupConditions a) as Hfull.
  { intros k p Hk. unfold full, reg_count. rewrite Nat.eqb_eq, filter_length_full.
    apply forall_proper. intros a. by rewrite (registers_spec k a spec Hk). }
  split.
  - intros (Hall & k & Hk & Hf) p Hp. split; [auto|]. by apply (Hfull k p Hk), Hf.
  - intros H.
    assert (∃ k, known_spec k = Some spec) as [k Hk].
    { destruct actions as [|p ps]; [done|]. destruct (H p ltac:(by left)) as [He Ha].
      destruct (ExpandActionPattern p) as [|a l]; [done|].
      specialize (Ha a ltac:(by left)).
      destruct (LookupConditions_cases a) as [E|(s & E & Hs)]; rewrite E in Ha; [inversion Ha|].
      apply list_elem_of_singleton in Ha as ->. by exists (Key s). }
    split; [intros p Hp; by apply H|]. exists k. split; [done|].
    intros p Hp. apply (Hfull k p Hk). by apply H.
Qed.

(** The profile's wildcard expansion, the registry's pattern expansion and
    the enforcer's action matcher agree on every public action. *)
Theorem action_expansions_agree p n :
  n ∈ action_names →
  (n ∈ expandActionWildcard p (indexActions ConcretePublicActions) ↔ actionMatch n p = true) ∧
  (n ∈ ExpandActionPattern p ↔ actionMatch n p = true).
Proof.
  intros Hn. split; [by apply expandActionWildcard_matches|].
  rewrite ExpandActionPattern_matches. naive_solver.
Qed.

Lemma action_expansions_agree_witness :
  ("component:view" ∈ ExpandActionPattern "component:*" ↔
   actionMatch "component:view" "component:*" = true).
Proof.
  apply (action_expansions_agree "component:*" "component:view").
  apply list_elem_of_In. vm_compute. tauto.
Defined.

Lemma IntersectConditionsForActions_spec_witness :
  AttrResourceEnvironment ∈ IntersectConditionsForActions ["releasebinding:*"] ↔
  ∀ p, p ∈ ["releasebinding:*"] →
    ExpandActionPattern p ≠ [] ∧
    ∀ a, a ∈ ExpandActionPattern p → AttrResourceEnvironment ∈ LookupConditions a.
Proof. by apply (IntersectConditionsForActions_spec ["releasebinding:*"]). Defined.
