(* ===== verification/AuthzConditions.v ===== *)
(** * Attribute-based conditions

    The condition side of [internal/authz/casbin/helpers.go]: how the conditions
    of a binding are stored in a policy, how the request context becomes a CEL
    activation, and how [ConditionMatcher] combines the evaluation of the
    expressions.  CEL is a third-party engine and enters as the class
    [CELEngine]; the JSON encoder enters as the class [JSONCodec]. *)

From S2P Require Import Prelude GoStrings AuthzCore AuthzMatch AuthzActions.

Open Scope go_scope.

(** ** Interfaces *)

(** The Go values an attribute can be bound to. *)
Inductive AttrValue :=
  | AttrString (s : string)
  | AttrBool (b : bool)
  | AttrInt64 (z : Z)
  | AttrFloatZero
  | AttrNil.

(** A CEL activation: root variable, then leaf, then value. *)
Abbreviation Activation := (gmap string (gmap string AttrValue)).

(** The outcome of running a CEL program, as far as the code looks at it. *)
Inductive CELValue := CELBool (b : bool) | CELNonBool.

(** The parts of [cel-go] the code calls: environment, compiler, program
    construction, evaluation. *)
Class CELEngine := {
  CELAst : Type;
  CELProgram : Type;
  GetCELEnv : result unit;
  EnvCompile : string → result CELAst;
  EnvProgram : CELAst → result CELProgram;
  ProgramEval : CELProgram → Activation → result CELValue;
}.

(** [encoding/json] at the two types the code encodes. *)
Class JSONCodec := {
  MarshalContext : Context → string;
  UnmarshalContext : string → option Context;
  MarshalConditions : list AuthzCondition → string;
  UnmarshalConditions : string → option (list AuthzCondition);
}.

(** What the code relies on: decoding an encoded value gives it back (the
    strings of an admitted Kubernetes object are valid UTF-8, so that none is
    altered by the encoding), and a slice is encoded as a JSON array. *)
Class JSONCodecLaws `{JSONCodec} := {
  Unmarshal_MarshalContext c : UnmarshalContext (MarshalContext c) = Some c;
  Unmarshal_MarshalConditions cs : UnmarshalConditions (MarshalConditions cs) = Some cs;
  MarshalConditions_array cs : ∃ t, MarshalConditions cs = String "[" t;
}.

Section Conditions.
Context `{CELEngine} `{JSONCodec}.

(** ** Storage of conditions *)

Definition serializeAuthzContext (ctx : Context) : result string := Ok (MarshalContext ctx).

Definition decodeConditions (raw : string) : result (list AuthzCondition) :=
  if isPolicyConditionEmpty raw then Ok []
  else match UnmarshalConditions raw with
       | Some conds => Ok conds
       | None => Err "decodeConditions: failed to unmarshal conditions"
       end.

Definition serializeAuthzConditions (conds : list AuthzCondition) : result string :=
  match conds with
  | [] => Ok emptyContextJSON
  | _ => Ok (MarshalConditions conds)
  end.

(** ** The activation *)

Definition zeroForCELType (t : CELType) : AttrValue :=
  match t with
  | StringType => AttrString ""
  | BoolType => AttrBool false
  | IntType => AttrInt64 0
  | DoubleType => AttrFloatZero
  | OtherType => AttrNil
  end.

(** The fields of [ResourceAttribute] under their JSON names. *)
Definition attr_fields (a : ResourceAttribute) : list (string * string) :=
  [("environment", Environment a); ("componentType", ComponentType a);
   ("resourceType", ResourceType a); ("workflow", Workflow a)].

(** Marshalling drops the fields that are empty ([omitempty]) and keeps the
    [resource] object. *)
Definition convertCtxToAttrMap (ctx : Context) : gmap string (gmap string AttrValue) :=
  {[ "resource" :=
     list_to_map (prod_map id AttrString <$>
       List.filter (λ f, negb (String.eqb f.2 "")) (attr_fields (CtxResource ctx))) ]}.

(** One iteration over the allowed attributes. *)
Definition bindAttribute (ctxAttrs : gmap string (gmap string AttrValue))
    (activationByRoot : Activation) (spec : AttributeSpec) : Activation :=
  let root := Root spec in
  let leaf := Leaf spec in
  if String.eqb root "" || String.eqb leaf "" then activationByRoot
  else
    let byRoot := default ∅ (activationByRoot !! root) in
    let attrValue :=
      match ctxAttrs !! root ≫= (.!! leaf) with
      | Some v => v
      | None => zeroForCELType (SpecCELType spec)
      end in
    <[root := <[leaf := attrValue]> byRoot]> activationByRoot.

Definition buildCelActivation (authzCtx : Context) (allowedAttrs : list AttributeSpec)
    : Activation :=
  match allowedAttrs with
  | [] => ∅
  | _ => foldl (bindAttribute (convertCtxToAttrMap authzCtx)) ∅ allowedAttrs
  end.

Definition buildActivationForRequest (requestCtxJSON requestAction : string)
    : option Activation :=
  match UnmarshalContext requestCtxJSON with
  | None => None
  | Some authzCtx => Some (buildCelActivation authzCtx (LookupConditions requestAction))
  end.

(** ** Evaluation *)

Inductive evalResult := evalAllow | evalReject | evalError.

#[global] Instance evalResult_eq_dec : EqDecision evalResult.
Proof. solve_decision. Defined.

Definition compileCEL (expr : string) : result CELProgram :=
  let? _ := GetCELEnv in
  let? ast := EnvCompile expr in
  EnvProgram ast.

Definition evalCondition (expr : string) (activation : Activation) : evalResult :=
  match compileCEL expr with
  | Err _ => evalError
  | Ok prg =>
      match ProgramEval prg activation with
      | Err _ => evalError
      | Ok (CELBool true) => evalAllow
      | Ok (CELBool false) => evalReject
      | Ok CELNonBool => evalError
      end
  end.

(** The loop keeps the two flags and never stops early. *)
Definition anyConditionMatches (entries : list AuthzCondition) (activation : Activation)
    (policyEft : string) : bool :=
  let '(sawMatch, sawError) :=
    foldl (λ '(sawMatch, sawError) entry,
        match evalCondition (Expression entry) activation with
        | evalAllow => (true, sawError)
        | evalError => (sawMatch, true)
        | evalReject => (sawMatch, sawError)
        end)
      (false, false) entries in
  if sawError : bool then failClosed policyEft else sawMatch.

Definition ConditionMatcher (requestCtxJSON requestAction policyCond policyEft : string)
    : bool :=
  if isPolicyConditionEmpty policyCond then true
  else
    match UnmarshalConditions policyCond with
    | None => failClosed policyEft
    | Some conditions =>
        let matching := filterConditionsByAction conditions requestAction in
        match matching with
        | [] => true
        | _ =>
            match buildActivationForRequest requestCtxJSON requestAction with
            | None => failClosed policyEft
            | Some activation => anyConditionMatches matching activation policyEft
            end
        end
    end.

End Conditions.

(** ** Lemmas *)

Lemma serialize_decode_conditions `{JSONCodecLaws} conds raw :
  serializeAuthzConditions conds = Ok raw → decodeConditions raw = Ok conds.
Proof.
  unfold serializeAuthzConditions, decodeConditions.
  destruct conds as [|c cs]; intros [= <-]; [done|].
  destruct (MarshalConditions_array (c :: cs)) as [t Ht].
  unfold isPolicyConditionEmpty, emptyContextJSON.
  destruct (String.eqb_spec (MarshalConditions (c :: cs)) "") as [E|_];
    [by rewrite Ht in E|].
  destruct (String.eqb_spec (MarshalConditions (c :: cs)) "{}") as [E|_];
    [by rewrite Ht in E|].
  simpl. by rewrite Unmarshal_MarshalConditions.
Qed.

Lemma anyConditionMatches_spec `{CELEngine} entries act eft :
  anyConditionMatches entries act eft =
  if existsb (λ e, bool_decide (evalCondition (Expression e) act = evalError)) entries
  then failClosed eft
  else existsb (λ e, bool_decide (evalCondition (Expression e) act = evalAllow)) entries.
Proof.
  unfold anyConditionMatches.
  assert (∀ m e, foldl (λ '(sawMatch, sawError) entry,
        match evalCondition (Expression entry) act with
        | evalAllow => (true, sawError)
        | evalError => (sawMatch, true)
        | evalReject => (sawMatch, sawError)
        end) (m, e) entries =
    (m || existsb (λ e, bool_decide (evalCondition (Expression e) act = evalAllow)) entries,
     e || existsb (λ e, bool_decide (evalCondition (Expression e) act = evalError)) entries))
    as Hfold.
  { induction entries as [|x l IH]; intros m e; simpl; [by rewrite !orb_false_r|].
    destruct (evalCondition (Expression x) act); rewrite IH; simpl; f_equal;
      by rewrite ?orb_true_r, ?orb_true_l. }
  by rewrite Hfold.
Qed.

(** The reading of one policy's conditions for one request. *)
Definition conditions_hold `{CELEngine} (ctx : Context) (action eft : string)
    (conds : list AuthzCondition) : bool :=
  let matching := filterConditionsByAction conds action in
  let act := buildCelActivation ctx (LookupConditions action) in
  match matching with
  | [] => true
  | _ => if existsb (λ e, bool_decide (evalCondition (Expression e) act = evalError)) matching
         then failClosed eft
         else existsb (λ e, bool_decide (evalCondition (Expression e) act = evalAllow)) matching
  end.

Lemma ConditionMatcher_serialized `{CELEngine, JSONCodecLaws} ctx action eft conds raw :
  serializeAuthzConditions conds = Ok raw →
  ConditionMatcher (MarshalContext ctx) action raw eft = conditions_hold ctx action eft conds.
Proof.
  intros Hs. pose proof (serialize_decode_conditions _ _ Hs) as Hd.
  unfold ConditionMatcher, conditions_hold. unfold decodeConditions in Hd.
  destruct (isPolicyConditionEmpty raw) eqn:E; [by injection Hd as <-|].
  destruct (UnmarshalConditions raw) as [cs|]; [|done]. injection Hd as ->.
  destruct (filterConditionsByAction conds action) eqn:Ef; [done|].
  unfold buildActivationForRequest. rewrite Unmarshal_MarshalContext.
  by rewrite anyConditionMatches_spec.
Qed.

(** Everything about the condition was decoded and evaluated without an error. *)
Definition clean_evaluation `{CELEngine, JSONCodec}
    (ctxJSON action cond : string) (matching : list AuthzCondition) (act : Activation) : Prop :=
  ∃ conds, UnmarshalConditions cond = Some conds ∧
    matching = filterConditionsByAction conds action ∧
    buildActivationForRequest ctxJSON action = Some act ∧
    ∀ e, e ∈ matching → evalCondition (Expression e) act ≠ evalError.

(** C30: conditions fail closed. An allow policy matches only when it has no
    condition for the action or every condition of the action was decoded and
    evaluated without error and one of them held; a policy of another effect
    fails to match only when every condition of the action was decoded,
    evaluated without error and rejected. *)
Theorem ConditionMatcher_fail_closed `{CELEngine, JSONCodec} ctxJSON action cond :
  (ConditionMatcher ctxJSON action cond PolicyEffectAllow = true →
   isPolicyConditionEmpty cond = true ∨
   (∃ conds, UnmarshalConditions cond = Some conds ∧
             filterConditionsByAction conds action = []) ∨
   ∃ matching act, clean_evaluation ctxJSON action cond matching act ∧
     ∃ e, e ∈ matching ∧ evalCondition (Expression e) act = evalAllow) ∧
  (∀ eft, eft ≠ PolicyEffectAllow → ConditionMatcher ctxJSON action cond eft = false →
   ∃ matching act, clean_evaluation ctxJSON action cond matching act ∧
     ∀ e, e ∈ matching → evalCondition (Expression e) act = evalReject).
Proof.
  unfold ConditionMatcher, clean_evaluation. split.
  - destruct (isPolicyConditionEmpty cond); [by left|]. intros Hm. right.
    destruct (UnmarshalConditions cond) as [conds|]; [|done].
    destruct (filterConditionsByAction conds action) as [|e0 es] eqn:Ef; [by left; eauto|].
    right. destruct (buildActivationForRequest ctxJSON action) as [act|]; [|done].
    rewrite anyConditionMatches_spec in Hm.
    destruct (existsb _ _) eqn:Eerr in Hm; [done|].
    rewrite existsb_elem_false in Eerr. rewrite existsb_elem in Hm.
    exists (e0 :: es), act. split.
    + exists conds. do 3 (split; [done|]). intros e He. specialize (Eerr e He). by bool_simpl.
    + destruct Hm as (e & He & Ha). bool_simpl. eauto.
  - intros eft Heft. destruct (isPolicyConditionEmpty cond); [done|].
    assert (failClosed eft = true) as Hfc by (by apply negb_true_iff, String.eqb_neq).
    destruct (UnmarshalConditions cond) as [conds|]; [|by rewrite Hfc].
    destruct (filterConditionsByAction conds action) as [|e0 es] eqn:Ef; [done|].
    destruct (buildActivationForRequest ctxJSON action) as [act|]; [|by rewrite Hfc].
    rewrite anyConditionMatches_spec, Hfc. case_goal; [done|].
    rename Heqb into Eerr. rewrite existsb_elem_false in Eerr. intros Hm.
    rewrite existsb_elem_false in Hm. exists (e0 :: es), act. split.
    + exists conds. do 3 (split; [done|]). intros e He. specialize (Eerr e He). by bool_simpl.
    + intros e He. specialize (Eerr e He). specialize (Hm e He). bool_simpl.
      by destruct (evalCondition (Expression e) act).
Qed.

(** ** The activation binds exactly the registered attributes *)

(** The value of the request attribute with a given JSON name. *)
Definition attr_value (ctx : Context) (leaf : string) : string :=
  default "" ((list_to_map (attr_fields (CtxResource ctx)) : gmap string string) !! leaf).

Lemma attr_value_fields e c r w leaf :
  attr_value (mkContext (mkResourceAttribute e c r w)) leaf =
  (if String.eqb leaf "environment" then e else if String.eqb leaf "componentType" then c
   else if String.eqb leaf "resourceType" then r else if String.eqb leaf "workflow" then w else "").
Proof.
  unfold attr_value, attr_fields. simpl.
  repeat match goal with
  | |- context [String.eqb leaf ?x] =>
      destruct (String.eqb_spec leaf x) as [->|?]; [by simplify_map_eq|]
  end. by simplify_map_eq.
Qed.

Lemma convertCtxToAttrMap_lookup ctx leaf :
  leaf ∈ (fst <$> attr_fields (CtxResource ctx)) →
  convertCtxToAttrMap ctx !! "resource" ≫= (.!! leaf) =
  (if String.eqb (attr_value ctx leaf) "" then None else Some (AttrString (attr_value ctx leaf))).
Proof.
  unfold convertCtxToAttrMap. rewrite lookup_singleton_eq. simpl. intros Hl.
  rewrite !elem_of_cons in Hl. destruct ctx as [[e c r w]]. rewrite attr_value_fields. simpl in *.
  destruct Hl as [->|[->|[->|[->|Hl]]]]; [..|inversion Hl]; simpl;
    destruct (String.eqb e ""), (String.eqb c ""), (String.eqb r ""), (String.eqb w "");
    simpl; by simplify_map_eq.
Qed.

(** An attribute registered for an action is always bound, to the value in
    the request context or to the empty string, and it is the only variable
    of the activation. *)
Theorem activation_binds_registered ctx action spec :
  spec ∈ LookupConditions action →
  buildCelActivation ctx (LookupConditions action) =
    {[ "resource" := {[ Leaf spec := AttrString (attr_value ctx (Leaf spec)) ]} ]}.
Proof.
  intros Hs. destruct (LookupConditions_cases action) as [E|(s & E & Hk)]; rewrite E in Hs |- *;
    [inversion Hs|]. apply list_elem_of_singleton in Hs as ->.
  assert (s ∈ known_attributes) as Hkn.
  { apply List.find_some in Hk as [Hk _]. by apply list_elem_of_In. }
  assert (Root s = "resource" ∧ SpecCELType s = StringType ∧ Leaf s ≠ "" ∧
          Leaf s ∈ (fst <$> attr_fields (CtxResource ctx))) as (Hr & Ht & Hne & Hl).
  { unfold known_attributes in Hkn. rewrite !elem_of_cons in Hkn.
    destruct Hkn as [->|[->|[->|[->|Hkn]]]]; [..|inversion Hkn];
      (do 3 (split; [done|])); apply list_elem_of_In; vm_compute; tauto. }
  simpl. unfold bindAttribute. rewrite Hr, Ht.
  destruct (String.eqb_spec (Leaf s) "") as [|_]; [done|]. simpl.
  rewrite (convertCtxToAttrMap_lookup ctx (Leaf s) Hl).
  rewrite lookup_empty. simpl. rewrite insert_empty. f_equal. 
  rewrite insert_empty. f_equal.
  destruct (String.eqb_spec (attr_value ctx (Leaf s)) "") as [->|_]; done.
Qed.

Lemma activation_binds_registered_witness :
  buildCelActivation (mkContext (mkResourceAttribute "dev" "" "" ""))
    (LookupConditions ActionCreateReleaseBinding) =
  {[ "resource" := {[ Leaf AttrResourceEnvironment := AttrString "dev" ]} ]}.
Proof.
  apply (activation_binds_registered (mkContext (mkResourceAttribute "dev" "" "" ""))
    ActionCreateReleaseBinding AttrResourceEnvironment).
  apply list_elem_of_In. vm_compute. tauto.
Defined.
