(* ===== verification/AuthzPDP.v ===== *)
(** * The policy decision point

    [internal/authz/casbin/pdp.go] ([Evaluate], [BatchEvaluate], [check]) over
    the Casbin enforcer.  Casbin is a third-party library: the class
    [CasbinEnforcer] lists the calls the code makes and [CasbinLaws] states
    their documented behaviour.  What a policy means is fixed by
    [internal/authz/casbin/rbac_model.conf], modelled by [matcher] and
    [policyEffect]. *)

From S2P Require Import Prelude GoStrings AuthzCore AuthzMatch AuthzActions AuthzConditions.

Open Scope go_scope.

(** ** The Casbin model file *)

(** A rule is the list of its fields. *)
Abbreviation rule := (list string).

(** [g(role, act, ns)]: a grouping rule of that role and namespace whose action
    pattern matches; the matching function is [roleActionMatchWrapper]. *)
Definition gLink (groupings : list rule) (role act ns : string) : bool :=
  existsb (λ r, match r with
                | [r_role; r_act; r_ns] =>
                    String.eqb r_role role && String.eqb r_ns ns &&
                    roleActionMatchWrapper act r_act
                | _ => false
                end) groupings.

(** The [matchers] section. *)
Definition matcher `{CELEngine, JSONCodec} (groupings : list rule)
    (sub resource act ctx : string) (p : rule) : bool :=
  match p with
  | [p_sub; p_resource; p_role; p_role_ns; p_eft; p_cond; p_binding] =>
      String.eqb sub p_sub && resourceMatch resource p_resource &&
      gLink groupings p_role act p_role_ns &&
      ConditionMatcher ctx act p_cond p_eft
  | _ => false
  end.

Definition rule_effect (p : rule) : string := default "" (p !! 4).

(** The [policy_effect] section: some matched policy allows and none denies. *)
Definition policyEffect `{CELEngine, JSONCodec} (policies groupings : list rule)
    (sub resource act ctx : string) : bool :=
  existsb (λ p, matcher groupings sub resource act ctx p &&
                String.eqb (rule_effect p) PolicyEffectAllow) policies &&
  negb (existsb (λ p, matcher groupings sub resource act ctx p &&
                      String.eqb (rule_effect p) PolicyEffectDeny) policies).

(** ** The enforcer's interface *)

Class CasbinEnforcer (E : Type) := {
  GetPolicy : E → list rule;
  GetGroupingPolicy : E → list rule;
  Enforce : E → string → string → string → string → result bool;
  (** [GetFilteredPolicy(0, subject)] *)
  GetFilteredPolicy : E → string → result (list rule);
  (** [GetFilteredGroupingPolicy(0, role, "", namespace)] *)
  GetFilteredGroupingPolicy : E → string → string → result (list rule);
  AddPoliciesEx : E → list rule → E * result bool;
  RemovePolicies : E → list rule → E * result bool;
  AddGroupingPoliciesEx : E → list rule → E * result bool;
  AddGroupingPolicy : E → rule → E * result bool;
  RemoveGroupingPolicy : E → rule → E * result bool;
}.

(** Documented behaviour.  [AddPoliciesEx] skips the rules that are present and
    adds the others.  [RemovePolicies] removes the rules when all of them are
    present; when some are missing it may remove the others or nothing.  A call
    that returns an error says nothing about the rules it was given; no call
    touches other rules. *)
Class CasbinLaws (E : Type) `{CELEngine, JSONCodec, !CasbinEnforcer E} := {
  Enforce_spec e sub resource act ctx b :
    Enforce e sub resource act ctx = Ok b →
    b = policyEffect (GetPolicy e) (GetGroupingPolicy e) sub resource act ctx;
  GetFilteredPolicy_spec e sub l :
    GetFilteredPolicy e sub = Ok l →
    l = List.filter (λ p, bool_decide (p !! 0 = Some sub)) (GetPolicy e);
  GetFilteredGroupingPolicy_spec e role ns l :
    GetFilteredGroupingPolicy e role ns = Ok l →
    l = List.filter (λ p, bool_decide (p !! 0 = Some role ∧ p !! 2 = Some ns))
          (GetGroupingPolicy e);
  AddPoliciesEx_spec e rules e' r :
    AddPoliciesEx e rules = (e', r) →
    GetGroupingPolicy e' = GetGroupingPolicy e ∧
    (∀ p, p ∉ rules → p ∈ GetPolicy e' ↔ p ∈ GetPolicy e) ∧
    (is_ok r = true → ∀ p, p ∈ rules → p ∈ GetPolicy e');
  RemovePolicies_spec e rules e' r :
    RemovePolicies e rules = (e', r) →
    GetGroupingPolicy e' = GetGroupingPolicy e ∧
    (∀ p, p ∉ rules → p ∈ GetPolicy e' ↔ p ∈ GetPolicy e) ∧
    (is_ok r = true → (∀ p, p ∈ rules → p ∈ GetPolicy e) → ∀ p, p ∈ rules → p ∉ GetPolicy e');
  AddGroupingPoliciesEx_spec e rules e' r :
    AddGroupingPoliciesEx e rules = (e', r) →
    GetPolicy e' = GetPolicy e ∧
    (∀ p, p ∉ rules → p ∈ GetGroupingPolicy e' ↔ p ∈ GetGroupingPolicy e) ∧
    (is_ok r = true → ∀ p, p ∈ rules → p ∈ GetGroupingPolicy e');
  AddGroupingPolicy_spec e p e' r :
    AddGroupingPolicy e p = (e', r) →
    GetPolicy e' = GetPolicy e ∧
    (∀ q, q ≠ p → q ∈ GetGroupingPolicy e' ↔ q ∈ GetGroupingPolicy e) ∧
    (is_ok r = true → p ∈ GetGroupingPolicy e');
  RemoveGroupingPolicy_spec e p e' r :
    RemoveGroupingPolicy e p = (e', r) →
    GetPolicy e' = GetPolicy e ∧
    (∀ q, q ≠ p → q ∈ GetGroupingPolicy e' ↔ q ∈ GetGroupingPolicy e) ∧
    (is_ok r = true → p ∉ GetGroupingPolicy e');
}.

(** ** Decisions *)

Section PDP.
Context {E : Type} `{CELEngine, JSONCodec, !CasbinEnforcer E}.

Definition noMatch : Decision := mkDecision false (Some "no matching policies found").

Definition grantReason (req : EvaluateRequest) (resourcePath value : string) : string :=
  let resourceInfo := "hierarchy '" +:+ resourcePath +:+ "'" in
  let resourceInfo :=
    if negb (String.eqb (ID (ReqResource req)) "")
    then resourceInfo +:+ " (id: " +:+ ID (ReqResource req) +:+ ")" else resourceInfo in
  "Access granted: entitlement value '" +:+ value +:+ "' authorized to perform '" +:+
  ReqAction req +:+ "' on " +:+ resourceInfo.

(** The loop over the entitlement values: the first one that is granted decides. *)
Fixpoint checkEntitlements (e : E) (req : EvaluateRequest) (claim resourcePath ctxJSON : string)
    (values : list string) : Decision * option string :=
  match values with
  | [] => (noMatch, None)
  | value :: rest =>
      match formatSubject claim value with
      | Err m => (mkDecision false None, Some ("failed to format subject: " +:+ m))
      | Ok entitlement =>
          match Enforce e entitlement resourcePath (ReqAction req) ctxJSON with
          | Err m => (mkDecision false None, Some ("enforcement failed: " +:+ m))
          | Ok true => (mkDecision true (Some (grantReason req resourcePath value)), None)
          | Ok false => checkEntitlements e req claim resourcePath ctxJSON rest
          end
      end
  end.

Definition check (e : E) (req : EvaluateRequest) : Decision * option string :=
  let resourcePath := resourceHierarchyToPath (Hierarchy (ReqResource req)) in
  match ReqSubject req with
  | None => (mkDecision false None, Some "subject context is required")
  | Some subjectCtx =>
      match serializeAuthzContext (ReqContext req) with
      | Err m => (mkDecision false None, Some ("failed to serialize request context: " +:+ m))
      | Ok ctxJSON =>
          checkEntitlements e req (EntitlementClaim subjectCtx) resourcePath ctxJSON
            (EntitlementValues subjectCtx)
      end
  end.

Definition Evaluate (e : E) (req : option EvaluateRequest) : Decision * option string :=
  match validateEvaluateRequest req, req with
  | Some err, _ => (mkDecision false None, Some err)
  | None, Some r => check e r
  | None, None => (mkDecision false None, None)
  end.

(** The loop of [BatchEvaluate]; [ctxErr i] is [ctx.Err()] at iteration [i]. *)
Fixpoint batchLoop (e : E) (ctxErr : nat → option string) (i : nat)
    (reqs : list EvaluateRequest) : list Decision * option string :=
  match reqs with
  | [] => ([], None)
  | req :: rest =>
      match ctxErr i with
      | Some err => ([], Some err)
      | None =>
          match check e req with
          | (_, Some err) =>
              ([], Some ("batch evaluate failed at index " +:+ pretty i +:+ ": " +:+ err))
          | (decision, None) =>
              match batchLoop e ctxErr (S i) rest with
              | (decisions, None) => (decision :: decisions, None)
              | (_, Some err) => ([], Some err)
              end
          end
      end
  end.

Definition BatchEvaluate (e : E) (ctxErr : nat → option string)
    (req : option BatchEvaluateRequest) : list Decision * option string :=
  match validateBatchEvaluateRequest req, req with
  | Some err, _ => ([], Some err)
  | None, Some r => batchLoop e ctxErr 0 (Requests r)
  | None, None => ([], None)
  end.

End PDP.

(** ** What a decision means *)

Section PDPSpec.
Context {E : Type} `{CELEngine, JSONCodec, !CasbinEnforcer E, !CasbinLaws E}.

(** The enforcer answers every request (it returns no error). *)
Definition enforcer_total (e : E) : Prop :=
  ∀ sub resource act ctx, is_ok (Enforce e sub resource act ctx) = true.

Lemma Enforce_total e sub resource act ctx :
  enforcer_total e →
  Enforce e sub resource act ctx =
  Ok (policyEffect (GetPolicy e) (GetGroupingPolicy e) sub resource act ctx).
Proof.
  intros He. specialize (He sub resource act ctx).
  destruct (Enforce e sub resource act ctx) as [b|] eqn:Eb; [|done].
  by rewrite (Enforce_spec _ _ _ _ _ _ Eb).
Qed.

(** The policy decision for one entitlement value. *)
Definition entitlement_allows (e : E) (req : EvaluateRequest) (claim value : string) : bool :=
  policyEffect (GetPolicy e) (GetGroupingPolicy e) (claim +:+ ":" +:+ value)
    (resourceHierarchyToPath (Hierarchy (ReqResource req))) (ReqAction req)
    (MarshalContext (ReqContext req)).

Lemma checkEntitlements_spec e req claim values :
  enforcer_total e → claim ≠ "" → Forall (λ v, v ≠ "") values →
  let '(d, err) :=
    checkEntitlements e req claim (resourceHierarchyToPath (Hierarchy (ReqResource req)))
      (MarshalContext (ReqContext req)) values in
  err = None ∧ Decision_ d = existsb (entitlement_allows e req claim) values.
Proof.
  intros He Hc Hv. induction Hv as [|v vs Hne Hv IH]; [done|].
  cbn [checkEntitlements]. unfold formatSubject.
  rewrite (proj2 (String.eqb_neq claim "") Hc), (proj2 (String.eqb_neq v "") Hne). simpl.
  rewrite Enforce_total by done. fold (entitlement_allows e req claim v).
  by destruct (entitlement_allows e req claim v).
Qed.

Lemma check_error_denies e req d err : check e req = (d, Some err) → Decision_ d = false.
Proof.
  unfold check. destruct (ReqSubject req) as [sc|]; [|by intros [= <- _]].
  simpl. induction (EntitlementValues sc) as [|v vs IH]; simpl; [done|].
  destruct (formatSubject _ v); [|by intros [= <- _]].
  destruct (Enforce _ _ _ _ _) as [[]|]; [done|done|by intros [= <- _]].
Qed.

(** A request names a subject, an action and a resource type, and the subject's
    claim and entitlement values are non-empty. *)
Definition request_wf (req : EvaluateRequest) (sc : SubjectContext) : Prop :=
  validateEvaluateRequest (Some req) = None ∧ ReqSubject req = Some sc ∧
  EntitlementClaim sc ≠ "" ∧ Forall (λ v, v ≠ "") (EntitlementValues sc).

Lemma check_spec e req sc :
  enforcer_total e → request_wf req sc →
  (check e req).2 = None ∧
  Decision_ (check e req).1 =
    existsb (entitlement_allows e req (EntitlementClaim sc)) (EntitlementValues sc).
Proof.
  intros He (_ & Hs & Hc & Hv). unfold check. rewrite Hs. cbn [serializeAuthzContext].
  pose proof (checkEntitlements_spec e req _ _ He Hc Hv) as Hspec.
  by destruct (checkEntitlements _ _ _ _ _ _).
Qed.

(** [Evaluate] on a well-formed request returns no error, and grants
    exactly when the policies decide in favour of one of the subject's
    entitlement values: for that value some matched policy allows and no
    matched policy denies. *)
Theorem Evaluate_correct e req sc :
  enforcer_total e → request_wf req sc →
  (Evaluate e (Some req)).2 = None ∧
  (Decision_ (Evaluate e (Some req)).1 = true ↔
   ∃ v, v ∈ EntitlementValues sc ∧ entitlement_allows e req (EntitlementClaim sc) v = true).
Proof.
  intros He Hwf. unfold Evaluate. rewrite (proj1 Hwf).
  destruct (check_spec e req sc He Hwf) as [-> ->]. by rewrite existsb_elem.
Qed.

(** A request that fails is never granted, whichever error it fails with:
    validation, subject formatting or the enforcer. *)
Theorem Evaluate_error_denies e req d err :
  Evaluate e req = (d, Some err) → Decision_ d = false.
Proof.
  unfold Evaluate. destruct (validateEvaluateRequest req); [by intros [= <- _]|].
  destruct req as [r|]; [apply check_error_denies|done].
Qed.

(** The first failed evaluation of a list, with its index. *)
Fixpoint first_error (i : nat) (results : list (Decision * option string)) : option (nat * string) :=
  match results with
  | [] => None
  | (_, Some err) :: _ => Some (i, err)
  | (_, None) :: rest => first_error (S i) rest
  end.

Lemma batchLoop_spec e ctxErr i reqs :
  (∀ j, ctxErr j = None) →
  batchLoop e ctxErr i reqs =
  match first_error i (check e <$> reqs) with
  | None => (fst <$> (check e <$> reqs), None)
  | Some (j, err) => ([], Some ("batch evaluate failed at index " +:+ pretty j +:+ ": " +:+ err))
  end.
Proof.
  intros Hctx. revert i. induction reqs as [|r reqs IH]; intros i; [done|].
  cbn [batchLoop]. rewrite Hctx, IH. simpl. destruct (check e r) as [d [err|]]; [done|].
  by destruct (first_error (S i) _) as [[j err]|].
Qed.

Lemma validateRequestsFrom_Evaluate e i reqs :
  validateRequestsFrom i reqs = None → (λ r, Evaluate e (Some r)) <$> reqs = check e <$> reqs.
Proof.
  revert i. induction reqs as [|r reqs IH]; intros i; [done|]. simpl.
  destruct (ReqSubject r) as [sc|] eqn:Es; [|done].
  destruct (String.eqb (ResourceType_ _) "") eqn:Et; [done|].
  destruct (String.eqb (ReqAction r) "") eqn:Ea; [done|]. intros Hr.
  f_equal; [|exact (IH _ Hr)]. unfold Evaluate, validateEvaluateRequest. by rewrite Es, Et, Ea.
Qed.

(** [BatchEvaluate] on a valid batch whose context is not cancelled gives
    exactly the decisions [Evaluate] gives to the requests one by one, in
    order; if one of them fails, the whole batch fails with the index of the
    first failure and no decision is returned. *)
Theorem BatchEvaluate_pointwise e ctxErr breq :
  (∀ j, ctxErr j = None) → validateBatchEvaluateRequest (Some breq) = None →
  let results := (λ r, Evaluate e (Some r)) <$> Requests breq in
  BatchEvaluate e ctxErr (Some breq) =
  match first_error 0 results with
  | None => (fst <$> results, None)
  | Some (j, err) => ([], Some ("batch evaluate failed at index " +:+ pretty j +:+ ": " +:+ err))
  end.
Proof.
  intros Hctx Hval. cbv zeta. unfold BatchEvaluate. rewrite Hval, batchLoop_spec by done.
  unfold validateBatchEvaluateRequest in Hval.
  destruct (Requests breq) as [|r reqs] eqn:Er; [discriminate Hval|].
  by rewrite (validateRequestsFrom_Evaluate e 0 _ Hval).
Qed.

End PDPSpec.

(** * The subject profile

    [GetSubjectProfile] of [internal/authz/casbin/pdp.go]: the policies of a
    subject's entitlements are collected, expanded per action and resolved into
    the [Allowed]/[Denied] lists a client reads.  A Go map that is only ranged
    over to fill another map, or to answer an existential question, is visited in
    [map_to_list] order: the result does not depend on it. *)

Open Scope go_scope.

(** ** Data *)

Record policyInfo := mkPolicyInfo {
  pi_subject : string;
  pi_resourcePath : string;
  pi_roleName : string;
  pi_roleNamespace : string;
  pi_effect : string;
  pi_conditions : string;
}.

Record resourceKey := mkResourceKey {
  rk_subject : string;
  rk_path : string;
  rk_effect : string;
}.

#[global] Instance resourceKey_eq_dec : EqDecision resourceKey.
Proof. solve_decision. Defined.

#[global] Program Instance resourceKey_countable : Countable resourceKey :=
  inj_countable' (λ k, (rk_subject k, rk_path k, rk_effect k))
    (λ t, mkResourceKey t.1.1 t.1.2 t.2) _.
Next Obligation. by intros []. Qed.

Record capEntry := mkCapEntry { ce_path : string; ce_expressions : list string }.

#[global] Instance capEntry_eq_dec : EqDecision capEntry.
Proof. solve_decision. Defined.

Definition unconditional (e : capEntry) : bool :=
  match ce_expressions e with [] => true | _ => false end.

Record subjectPolicies := mkSubjectPolicies {
  sp_allows : list capEntry;
  sp_denies : list capEntry;
}.

Record mergedEntry := mkMergedEntry {
  me_unconditional : bool;
  me_expressions : list string;
  me_seen : gset string;
}.

(** ** Collecting and expanding policies *)

Section Collect.
Context {E : Type} `{CELEngine, JSONCodec, !CasbinEnforcer E}.

(** The inner loop: malformed rules and rules out of scope are skipped. *)
Definition policiesInScope (scopePath : string) (policies : list rule) : list policyInfo :=
  omap (λ p, match p with
             | [sub; resourcePath; roleName; roleNamespace; effect; conditions; _] =>
                 if isWithinScope resourcePath scopePath
                 then Some (mkPolicyInfo sub resourcePath roleName roleNamespace effect conditions)
                 else None
             | _ => None
             end) policies.

Fixpoint filterPoliciesLoop (e : E) (claim scopePath : string) (values : list string)
    : result (list policyInfo) :=
  match values with
  | [] => Ok []
  | value :: rest =>
      match formatSubject claim value with
      | Err m => Err ("failed to format subject: " +:+ m)
      | Ok subject =>
          match GetFilteredPolicy e subject with
          | Err m => Err ("failed to get policies for subject '" +:+ subject +:+ "': " +:+ m)
          | Ok policies =>
              let? others := filterPoliciesLoop e claim scopePath rest in
              Ok (policiesInScope scopePath policies ++ others)
          end
      end
  end.

Definition filterPoliciesBySubjectAndScope (e : E) (subjectCtx : SubjectContext)
    (scopePath : string) : result (list policyInfo) :=
  filterPoliciesLoop e (EntitlementClaim subjectCtx) scopePath (EntitlementValues subjectCtx).

(** The three maps [buildCapabilitiesFromPolicies] fills. *)
Record capAcc := mkCapAcc {
  roleToActions : gmap RoleRef (list string);
  actionExpressions : gmap string (gmap resourceKey (list string));
  unconditionalKeys : gmap string (gmap resourceKey bool);
}.

(** The actions of a role, wildcards expanded. *)
Definition roleActionsOf (idx : actionIndex) (rules : list rule) : list string :=
  concat (omap (λ ra, match ra with
                      | [_; act; _] => Some (expandActionWildcard act idx)
                      | _ => None
                      end) rules).

(** One action of one policy. *)
Definition addActionPolicy (key : resourceKey) (allConds : list AuthzCondition)
    (acc : capAcc) (action : string) : capAcc :=
  let exprs := default ∅ (actionExpressions acc !! action) in
  let uncond := default ∅ (unconditionalKeys acc !! action) in
  let actionConds := filterConditionsByAction allConds action in
  match actionConds with
  | _ :: _ =>
      if default false (uncond !! key)
      then mkCapAcc (roleToActions acc) (<[action := exprs]> (actionExpressions acc))
             (<[action := uncond]> (unconditionalKeys acc))
      else mkCapAcc (roleToActions acc)
             (<[action := <[key := default [] (exprs !! key) ++ (Expression <$> actionConds)]> exprs]>
                (actionExpressions acc))
             (<[action := uncond]> (unconditionalKeys acc))
  | [] =>
      mkCapAcc (roleToActions acc)
        (<[action := <[key := []]> exprs]> (actionExpressions acc))
        (<[action := <[key := true]> uncond]> (unconditionalKeys acc))
  end.

(** One policy: its role's actions are fetched once and cached. *)
Definition addPolicy (e : E) (idx : actionIndex) (acc : capAcc) (p : policyInfo)
    : result capAcc :=
  let roleKey := mkRoleRef (pi_roleName p) (pi_roleNamespace p) in
  let? acc :=
    match roleToActions acc !! roleKey with
    | Some _ => Ok acc
    | None =>
        match GetFilteredGroupingPolicy e (pi_roleName p) (pi_roleNamespace p) with
        | Err m => Err ("failed to get actions for role '" +:+ pi_roleName p +:+
                        "' in namespace '" +:+ pi_roleNamespace p +:+ "': " +:+ m)
        | Ok rules =>
            Ok (mkCapAcc (<[roleKey := roleActionsOf idx rules]> (roleToActions acc))
                  (actionExpressions acc) (unconditionalKeys acc))
        end
    end in
  match decodeConditions (pi_conditions p) with
  | Err m => Err ("policy conditions corrupt for role '" +:+ pi_roleName p +:+ "': " +:+ m)
  | Ok allConds =>
      let actions := default [] (roleToActions acc !! roleKey) in
      let key := mkResourceKey (pi_subject p) (pi_resourcePath p) (pi_effect p) in
      Ok (foldl (addActionPolicy key allConds) acc actions)
  end.

Fixpoint addPolicies (e : E) (idx : actionIndex) (acc : capAcc) (policies : list policyInfo)
    : result capAcc :=
  match policies with
  | [] => Ok acc
  | p :: rest => let? acc := addPolicy e idx acc p in addPolicies e idx acc rest
  end.

End Collect.

(** ** Resolving one action *)

Definition coveredByUnconditional (path : string) (entries : list capEntry) : bool :=
  existsb (λ entry, unconditional entry && resourceMatch path (ce_path entry)) entries.

Definition neutralizedByOtherSubject (path owner : string)
    (allowsBySubject : gmap string (list capEntry)) : bool :=
  existsb (λ '(subject, allows),
      if String.eqb subject owner then false else coveredByUnconditional path allows)
    (map_to_list allowsBySubject).

(** The order given to [sort.Slice]. *)
Definition key_less (a b : resourceKey) : bool :=
  if negb (String.eqb (rk_subject a) (rk_subject b))
  then str_ltb (rk_subject a) (rk_subject b)
  else if negb (String.eqb (rk_path a) (rk_path b))
  then str_ltb (rk_path a) (rk_path b)
  else str_ltb (rk_effect a) (rk_effect b).

Definition key_le (a b : resourceKey) : Prop := key_less b a = false.

#[global] Instance key_le_dec : RelDecision key_le.
Proof. intros a b. unfold key_le. apply _. Defined.

Definition addEntry (resources : gmap resourceKey (list string))
    (bySubject : gmap string subjectPolicies) (key : resourceKey)
    : gmap string subjectPolicies :=
  let sp := default (mkSubjectPolicies [] []) (bySubject !! rk_subject key) in
  let entry := mkCapEntry (rk_path key) (default [] (resources !! key)) in
  let sp' :=
    if String.eqb (rk_effect key) PolicyEffectAllow
    then mkSubjectPolicies (sp_allows sp ++ [entry]) (sp_denies sp)
    else if String.eqb (rk_effect key) PolicyEffectDeny
    then mkSubjectPolicies (sp_allows sp) (sp_denies sp ++ [entry])
    else sp in
  <[rk_subject key := sp']> bySubject.

Definition groupBySubject (resources : gmap resourceKey (list string))
    : gmap string subjectPolicies :=
  let keys := merge_sort key_le (map_to_list resources).*1 in
  foldl (addEntry resources) ∅ keys.

Definition sortedSubjects (bySubject : gmap string subjectPolicies) : list string :=
  sort_Strings (map_to_list bySubject).*1.

(** The body of the loop over the entries to merge. *)
Definition mergeStep (st : list string * gmap string mergedEntry) (entry : capEntry)
    : list string * gmap string mergedEntry :=
  let '(order, byPath) := st in
  let '(order, merged) :=
    match byPath !! ce_path entry with
    | Some m => (order, m)
    | None => (order ++ [ce_path entry], mkMergedEntry false [] ∅)
    end in
  let merged' :=
    if me_unconditional merged then merged
    else if unconditional entry then mkMergedEntry true [] (me_seen merged)
    else foldl (λ m expression,
             if bool_decide (expression ∈ me_seen m) then m
             else mkMergedEntry (me_unconditional m) (me_expressions m ++ [expression])
                    ({[expression]} ∪ me_seen m))
           merged (ce_expressions entry) in
  (order, <[ce_path entry := merged']> byPath).

Definition mergeByPath (entries : list capEntry) : list CapabilityResource :=
  let '(order, byPath) := foldl mergeStep ([], ∅) entries in
  (λ path,
      let merged := default (mkMergedEntry false [] ∅) (byPath !! path) in
      mkCapabilityResource path
        (match me_expressions merged with [] => None | ex => Some ex end)) <$> order.

Definition survivingAllowsOf (sp : subjectPolicies) : list capEntry :=
  List.filter (λ allow, negb (coveredByUnconditional (ce_path allow) (sp_denies sp)))
    (sp_allows sp).

Definition resolveCapability (resources : gmap resourceKey (list string)) : ActionCapability :=
  let bySubject := groupBySubject resources in
  let survivingAllows :=
    omap (λ sp, match survivingAllowsOf sp with [] => None | l => Some l end) bySubject in
  let subjects := sortedSubjects bySubject in
  let allows := concat ((λ s, default [] (survivingAllows !! s)) <$> subjects) in
  let denies :=
    concat ((λ s, List.filter
                    (λ deny, negb (neutralizedByOtherSubject (ce_path deny) s survivingAllows))
                    (sp_denies (default (mkSubjectPolicies [] []) (bySubject !! s)))) <$> subjects) in
  mkActionCapability (mergeByPath allows) (mergeByPath denies).

(** ** The endpoint *)

Section Profile.
Context {E : Type} `{CELEngine, JSONCodec, !CasbinEnforcer E}.

Definition buildCapabilitiesFromPolicies (e : E) (policies : list policyInfo)
    (idx : actionIndex) : result (gmap string ActionCapability) :=
  let? acc := addPolicies e idx (mkCapAcc ∅ ∅ ∅) policies in
  Ok (resolveCapability <$> actionExpressions acc).

(** The first statement logs [request.SubjectContext], so that a nil request
    panics before it is validated. *)
Definition GetSubjectProfile (e : E) (request : option ProfileRequest)
    : outcome (result (gmap string ActionCapability)) :=
  match request with
  | None => Panics
  | Some req =>
      Returns
        match validateProfileRequest request, ProfSubject req with
        | Some err, _ => Err err
        | None, None => Err ""
        | None, Some subjectCtx =>
            let scopePath := resourceHierarchyToPath (ProfScope req) in
            let idx := indexActions ConcretePublicActions in
            let? policies := filterPoliciesBySubjectAndScope e subjectCtx scopePath in
            buildCapabilitiesFromPolicies e policies idx
        end
  end.

End Profile.
