(* ===== verification/AuthzProfileSpec.v ===== *)
(** * What the subject profile means

    Compares the lists produced by [resolveCapability] with the decisions of the
    enforcer for one action.  [enforced] is the enforcer's rule on the
    accumulated (subject, path, effect) entries; [reading] is the rule the
    comment of [resolveCapability] gives to the clients of the profile. *)

From S2P Require Import Prelude GoStrings AuthzCore AuthzMatch AuthzActions AuthzConditions.
From S2P Require Import AuthzPDP.

Implicit Types resources : gmap resourceKey (list string).

(** ** Depth of a path *)

Definition depth (p : string) : nat :=
  if String.eqb p "*" then 0 else length (Split "/" p).

Lemma covers_star p : covers p "*" ↔ p = "*".
Proof.
  rewrite resourceMatch_segments, Split_star. split; [|by auto].
  intros [->|H]; [done|]. by apply Split_inj_star.
Qed.

Lemma depth_pos p : p ≠ "*" → 0 < depth p.
Proof.
  intros Hp. unfold depth. rewrite (proj2 (String.eqb_neq _ _) Hp).
  pose proof (Split_not_nil "/" p). destruct (Split "/" p); simpl; [done|lia].
Qed.

Lemma covers_depth p q : covers p q → depth p ≤ depth q.
Proof.
  intros Hc. destruct (decide (q = "*")) as [->|Hq].
  { apply covers_star in Hc as ->. done. }
  unfold depth. rewrite (proj2 (String.eqb_neq _ _) Hq).
  destruct (String.eqb_spec p "*") as [|Hp]; [lia|].
  apply resourceMatch_segments in Hc as [|Hc]; [done|]. by apply prefix_length.
Qed.

Lemma covers_depth_eq p q : covers p q → depth q ≤ depth p → p = q.
Proof.
  intros Hc Hd. destruct (decide (p = "*")) as [->|Hp].
  { destruct (decide (q = "*")) as [->|Hq]; [done|]. pose proof (depth_pos q Hq).
    unfold depth in Hd at 2. simpl in Hd. lia. }
  destruct (decide (q = "*")) as [->|Hq]; [by apply covers_star|].
  apply resourceMatch_segments in Hc as [|Hc]; [done|].
  unfold depth in Hd.
  rewrite (proj2 (String.eqb_neq _ _) Hp), (proj2 (String.eqb_neq _ _) Hq) in Hd.
  rewrite <- (Join_Split "/" p), <- (Join_Split "/" q). f_equal.
  by apply prefix_length_eq.
Qed.

(** Of two paths that cover the same resource the shallower covers the deeper. *)
Lemma shallower_covers p q r : covers p r → covers q r → depth p ≤ depth q → covers p q.
Proof.
  intros Hp Hq Hd. destruct (covers_comparable _ _ _ Hp Hq) as [|Hqp]; [done|].
  rewrite (covers_depth_eq _ _ Hqp Hd). apply covers_refl.
Qed.

(** ** The two readings *)

Section Readings.
(** Whether a condition expression holds for the request at hand. *)
Context (holds : string → bool).

Definition entry_applies (path : string) (expressions : list string) (r : string) : bool :=
  resourceMatch r path &&
  match expressions with [] => true | _ => existsb holds expressions end.

(** The enforcer: some entitlement has an applying allow and no applying deny. *)
Definition enforced (resources : gmap resourceKey (list string)) (r : string) : Prop :=
  ∃ s,
    (∃ p ex, resources !! mkResourceKey s p PolicyEffectAllow = Some ex ∧
             entry_applies p ex r = true) ∧
    (∀ p ex, resources !! mkResourceKey s p PolicyEffectDeny = Some ex →
             entry_applies p ex r = false).

Definition cap_applies (c : CapabilityResource) (r : string) : bool :=
  resourceMatch r (Path c) &&
  match Constraints c with None => true | Some ex => existsb holds ex end.

(** The documented reading: some allowed entry applies and no applying denied
    entry is at least as deep. *)
Definition reading (c : ActionCapability) (r : string) : Prop :=
  ∃ a, a ∈ Allowed c ∧ cap_applies a r = true ∧
       ∀ d, d ∈ Denied c → cap_applies d r = true → depth (Path d) < depth (Path a).

End Readings.

(** ** Merging entries *)

Definition entry_at (p : string) (e : capEntry) : bool := String.eqb (ce_path e) p.

(** The state of the merge loop for the path [p] after the entries [l]. *)
Definition merged_ok (p : string) (l : list capEntry) (m : mergedEntry) : Prop :=
  me_unconditional m = existsb (λ e, entry_at p e && unconditional e) l ∧
  (me_unconditional m = true → me_expressions m = []) ∧
  (me_unconditional m = false →
    (∀ x, x ∈ me_expressions m ↔ ∃ e, e ∈ l ∧ ce_path e = p ∧ x ∈ ce_expressions e) ∧
    (∀ x, x ∈ me_seen m ↔ x ∈ me_expressions m)) ∧
  NoDup (me_expressions m).

Lemma merge_expressions_fold m exprs :
  me_unconditional m = false →
  (∀ x, x ∈ me_seen m ↔ x ∈ me_expressions m) → NoDup (me_expressions m) →
  let m' := foldl (λ m expression,
             if bool_decide (expression ∈ me_seen m) then m
             else mkMergedEntry (me_unconditional m) (me_expressions m ++ [expression])
                    ({[expression]} ∪ me_seen m)) m exprs in
  me_unconditional m' = false ∧
  (∀ x, x ∈ me_expressions m' ↔ x ∈ me_expressions m ∨ x ∈ exprs) ∧
  (∀ x, x ∈ me_seen m' ↔ x ∈ me_expressions m') ∧ NoDup (me_expressions m').
Proof.
  revert m. induction exprs as [|y ys IH]; intros m Hu Hs Hnd; cbv zeta; simpl.
  { split; [done|]. split; [set_solver|done]. }
  case_bool_decide as Hy.
  - destruct (IH m Hu Hs Hnd) as (H1 & H2 & H3 & H4). cbv zeta in *.
    split; [done|]. split; [|done]. intros x. rewrite H2, elem_of_cons. apply Hs in Hy.
    naive_solver.
  - destruct (IH (mkMergedEntry (me_unconditional m) (me_expressions m ++ [y])
        ({[y]} ∪ me_seen m))) as (H1 & H2 & H3 & H4); simpl; [done| | |].
    + intros x. rewrite elem_of_union, elem_of_singleton, elem_of_app, list_elem_of_singleton, Hs.
      tauto.
    + apply NoDup_app. split; [done|]. split; [|apply NoDup_singleton].
      intros x Hx ->%list_elem_of_singleton. by apply Hy, Hs.
    + cbv zeta in *. split; [done|]. split; [|done]. intros x. rewrite H2. simpl.
      rewrite elem_of_app, list_elem_of_singleton, elem_of_cons. tauto.
Qed.

Abbreviation merged_init := (mkMergedEntry false [] ∅).

Lemma merged_ok_init p l : (∀ e, e ∈ l → ce_path e ≠ p) → merged_ok p l merged_init.
Proof.
  intros Hl. split.
  - simpl. symmetry. apply existsb_elem_false. intros e He. unfold entry_at.
    by rewrite (proj2 (String.eqb_neq _ _) (Hl e He)).
  - split; [done|]. split; [|constructor]. intros _. set_solver.
Qed.

Lemma merged_ok_other p l m e : ce_path e ≠ p → merged_ok p l m → merged_ok p (l ++ [e]) m.
Proof.
  intros Hp (H1 & H2 & H3 & H4). split; [|split; [done|split; [|done]]].
  - rewrite existsb_app. simpl. unfold entry_at at 2.
    by rewrite (proj2 (String.eqb_neq _ _) Hp), !orb_false_r.
  - intros Hu. destruct (H3 Hu) as [H5 H6]. split; [|done].
    intros x. rewrite H5. setoid_rewrite elem_of_app. setoid_rewrite list_elem_of_singleton.
    naive_solver.
Qed.

(** The update of [mergeStep] keeps the state of the entry's own path right. *)
Lemma merged_ok_step l m e :
  merged_ok (ce_path e) l m →
  merged_ok (ce_path e) (l ++ [e])
    (if me_unconditional m then m
     else if unconditional e then mkMergedEntry true [] (me_seen m)
     else foldl (λ m expression,
             if bool_decide (expression ∈ me_seen m) then m
             else mkMergedEntry (me_unconditional m) (me_expressions m ++ [expression])
                    ({[expression]} ∪ me_seen m)) m (ce_expressions e)).
Proof.
  intros (H1 & H2 & H3 & H4). unfold merged_ok. rewrite existsb_app. simpl.
  unfold entry_at at 2. rewrite String.eqb_refl, orb_false_r. simpl.
  destruct (me_unconditional m) eqn:Eu.
  { rewrite <- H1. by rewrite Eu. }
  destruct (unconditional e) eqn:Ee.
  { simpl. rewrite orb_true_r. split; [done|]. split; [done|]. split; [done|constructor]. }
  rewrite <- H1. simpl. destruct (H3 eq_refl) as [H5 H6].
  destruct (merge_expressions_fold m (ce_expressions e) Eu H6 H4) as (G1 & G2 & G3 & G4).
  cbv zeta in *. split; [done|]. split; [by rewrite G1|]. split; [|done].
  intros _. split; [|done]. intros x. rewrite G2, H5.
  setoid_rewrite elem_of_app. setoid_rewrite list_elem_of_singleton. naive_solver.
Qed.

Lemma merge_loop_spec l :
  let '(order, byPath) := foldl mergeStep ([], ∅) l in
  NoDup order ∧
  (∀ p, p ∈ order ↔ ∃ e, e ∈ l ∧ ce_path e = p) ∧
  (∀ p, p ∈ order ↔ is_Some (byPath !! p)) ∧
  (∀ p, merged_ok p l (default merged_init (byPath !! p))).
Proof.
  induction l as [|e l IH] using rev_ind.
  { simpl. split; [constructor|]. split; [set_solver|]. split.
    - intros p. rewrite lookup_empty, is_Some_alt. set_solver.
    - intros p. apply merged_ok_init. set_solver. }
  rewrite foldl_app. cbn [foldl].
  destruct (foldl mergeStep ([], ∅) l) as [order byPath].
  destruct IH as (Hnd & Hord & Hdom & Hm).
  assert (∀ p, merged_ok p (l ++ [e])
    (default merged_init
      (<[ce_path e :=
         let m := default merged_init (byPath !! ce_path e) in
         if me_unconditional m then m
         else if unconditional e then mkMergedEntry true [] (me_seen m)
         else foldl (λ m expression,
             if bool_decide (expression ∈ me_seen m) then m
             else mkMergedEntry (me_unconditional m) (me_expressions m ++ [expression])
                    ({[expression]} ∪ me_seen m)) m (ce_expressions e)]> byPath !! p))) as Hm'.
  { intros p. destruct (decide (ce_path e = p)) as [<-|Hp].
    - rewrite lookup_insert_eq. simpl. apply merged_ok_step, Hm.
    - rewrite lookup_insert_ne by done. by apply merged_ok_other. }
  unfold mergeStep. destruct (byPath !! ce_path e) as [m|] eqn:Em.
  - cbn iota beta. split; [done|]. split; [|split; [|exact Hm']].
    + intros p. rewrite Hord. setoid_rewrite elem_of_app. setoid_rewrite list_elem_of_singleton.
      split; [naive_solver|]. intros (e' & [He'| ->] & <-); [by eauto|].
      apply Hord, Hdom. by rewrite Em.
    + intros p. rewrite lookup_insert_is_Some', Hdom. split; [by auto|].
      intros [<-|]; [by rewrite Em|done].
  - cbn iota beta. split; [|split; [|split; [|exact Hm']]].
    + apply NoDup_app. split; [done|]. split; [|apply NoDup_singleton].
      intros p Hp ->%list_elem_of_singleton. apply Hdom in Hp as [? ?]. congruence.
    + intros p. rewrite elem_of_app, list_elem_of_singleton, Hord.
      setoid_rewrite elem_of_app. setoid_rewrite list_elem_of_singleton. naive_solver.
    + intros p. rewrite lookup_insert_is_Some', elem_of_app, list_elem_of_singleton, Hdom.
      naive_solver.
Qed.

(** The reported entry of a path applies exactly when one of its entries does. *)
Lemma mergeByPath_applies holds l r p :
  (∃ c, c ∈ mergeByPath l ∧ Path c = p ∧ cap_applies holds c r = true) ↔
  (∃ e, e ∈ l ∧ ce_path e = p ∧ entry_applies holds p (ce_expressions e) r = true).
Proof.
  unfold mergeByPath. pose proof (merge_loop_spec l) as H.
  destruct (foldl mergeStep ([], ∅) l) as [order byPath].
  destruct H as (_ & Hord & Hdom & Hm).
  transitivity (p ∈ order ∧ resourceMatch r p = true ∧
    match me_expressions (default merged_init (byPath !! p)) with
    | [] => true | ex => existsb holds ex end = true).
  { split.
    - intros (c & (q & -> & Hq)%list_elem_of_fmap & Hp & Hc). unfold cap_applies in Hc.
      simpl in *. subst q. bool_simpl. split; [done|]. split; [done|].
      by destruct (me_expressions _).
    - intros (Hp & Hr & Hx). eexists. split; [apply list_elem_of_fmap; by exists p|].
      unfold cap_applies. simpl. split; [done|]. rewrite Hr. simpl.
      by destruct (me_expressions _). }
  destruct (Hm p) as (H1 & H2 & H3 & _).
  set (m := default merged_init (byPath !! p)) in *. unfold entry_applies.
  destruct (me_unconditional m) eqn:Eu.
  - rewrite (H2 eq_refl). symmetry in H1.
    apply existsb_elem in H1 as (e & He & Hpe). unfold entry_at, unconditional in Hpe.
    bool_simpl. split.
    + intros (_ & Hr & _). exists e. split; [done|]. split; [done|]. rewrite Hr.
      by destruct (ce_expressions e).
    + intros (e' & He' & Hp' & Ha). bool_simpl. split; [apply Hord; eauto|]. done.
  - symmetry in H1. rewrite existsb_elem_false in H1. destruct (H3 eq_refl) as [H5 _].
    assert (∀ e, e ∈ l → ce_path e = p → ce_expressions e ≠ []) as Hcond.
    { intros e He Hpe Hex. specialize (H1 e He). unfold entry_at, unconditional in H1.
      rewrite Hex, Hpe, String.eqb_refl in H1. done. }
    split.
    + intros (Hp & Hr & Hx). apply Hord in Hp as (e & He & Hpe).
      assert (∃ x, x ∈ me_expressions m ∧ holds x = true) as (x & Hxm & Hxh).
      { destruct (me_expressions m) as [|x0 xs] eqn:Em; [|by apply existsb_elem].
        specialize (Hcond e He Hpe). destruct (ce_expressions e) as [|y ys] eqn:Ey; [done|].
        assert (y ∈ []) as Hy by (apply H5; exists e; rewrite Ey; set_solver). inversion Hy. }
      apply H5 in Hxm as (e' & He' & Hpe' & Hx'). exists e'. split; [done|]. split; [done|].
      rewrite Hr. simpl. destruct (ce_expressions e') eqn:Ee'; [done|]. apply existsb_elem. eauto.
    + intros (e & He & Hpe & Ha). bool_simpl. split; [apply Hord; eauto|]. split; [done|].
      specialize (Hcond e He Hpe). destruct (ce_expressions e) as [|y ys] eqn:Ey; [done|].
      rewrite <- Ey in *. match goal with H : existsb _ _ = true |- _ => apply existsb_elem in H as (x & Hx & Hh) end.
      assert (x ∈ me_expressions m) as Hxm by (apply H5; eauto).
      destruct (me_expressions m) eqn:Em; [inversion Hxm|]. apply existsb_elem. eauto.
Qed.

(** ** Grouping by entitlement *)

Abbreviation no_policies := (mkSubjectPolicies [] []).

Definition key_entry (resources : gmap resourceKey (list string)) (k : resourceKey) : capEntry :=
  mkCapEntry (rk_path k) (default [] (resources !! k)).

Lemma ex_snoc {A} (P : A → Prop) k l :
  (∃ x, x ∈ l ++ [k] ∧ P x) ↔ (∃ x, x ∈ l ∧ P x) ∨ P k.
Proof. setoid_rewrite elem_of_app. setoid_rewrite list_elem_of_singleton. naive_solver. Qed.

Lemma addEntry_fold resources keys s :
  let b := foldl (addEntry resources) ∅ keys in
  (is_Some (b !! s) ↔ ∃ k, k ∈ keys ∧ rk_subject k = s) ∧
  (∀ e, e ∈ sp_allows (default no_policies (b !! s)) ↔
        ∃ k, k ∈ keys ∧ rk_subject k = s ∧ rk_effect k = PolicyEffectAllow ∧
             e = key_entry resources k) ∧
  (∀ e, e ∈ sp_denies (default no_policies (b !! s)) ↔
        ∃ k, k ∈ keys ∧ rk_subject k = s ∧ rk_effect k = PolicyEffectDeny ∧
             e = key_entry resources k).
Proof.
  cbv zeta. induction keys as [|k keys IH] using rev_ind.
  { simpl. rewrite lookup_empty, is_Some_alt. simpl. set_solver. }
  rewrite foldl_app. cbn [foldl]. set (b := foldl (addEntry resources) ∅ keys) in *.
  destruct IH as (IH1 & IH2 & IH3). rewrite ex_snoc.
  setoid_rewrite ex_snoc. unfold addEntry. fold (key_entry resources k).
  destruct (decide (rk_subject k = s)) as [<-|Hne].
  - rewrite lookup_insert_eq. simpl. split; [naive_solver|].
    destruct (String.eqb_spec (rk_effect k) PolicyEffectAllow) as [Ha|Ha]; simpl;
      [|destruct (String.eqb_spec (rk_effect k) PolicyEffectDeny) as [Hd|Hd]; simpl];
      split; intros e; rewrite ?elem_of_app, ?list_elem_of_singleton, ?IH2, ?IH3;
      unfold PolicyEffectAllow, PolicyEffectDeny in *; intuition congruence.
  - rewrite lookup_insert_ne by done. rewrite IH1.
    split; [tauto|]. split; intros e; rewrite ?IH2, ?IH3; tauto.
Qed.

Lemma groupBySubject_keys resources k :
  k ∈ merge_sort key_le (map_to_list resources).*1 ↔ is_Some (resources !! k).
Proof.
  rewrite merge_sort_Permutation, list_elem_of_fmap. split.
  - intros ([k' ex] & -> & Hk). apply elem_of_map_to_list in Hk. simpl. by eauto.
  - intros [ex Hex]. exists (k, ex). split; [done|]. by apply elem_of_map_to_list.
Qed.

Definition allows_of resources s := sp_allows (default no_policies (groupBySubject resources !! s)).
Definition denies_of resources s := sp_denies (default no_policies (groupBySubject resources !! s)).

Lemma key_entry_lookup resources s e eff :
  (∃ k, is_Some (resources !! k) ∧ rk_subject k = s ∧ rk_effect k = eff ∧
        e = key_entry resources k) ↔
  resources !! mkResourceKey s (ce_path e) eff = Some (ce_expressions e).
Proof.
  split.
  - intros ([s' p eff'] & [ex Hex] & <- & <- & ->). simpl. by rewrite Hex.
  - intros He. exists (mkResourceKey s (ce_path e) eff). rewrite He.
    split; [by eauto|]. do 2 (split; [done|]).
    unfold key_entry. simpl. rewrite He. by destruct e.
Qed.

Lemma allows_of_spec resources s e :
  e ∈ allows_of resources s ↔
  resources !! mkResourceKey s (ce_path e) PolicyEffectAllow = Some (ce_expressions e).
Proof.
  unfold allows_of, groupBySubject. rewrite <- key_entry_lookup.
  setoid_rewrite <- groupBySubject_keys. apply addEntry_fold.
Qed.

Lemma denies_of_spec resources s e :
  e ∈ denies_of resources s ↔
  resources !! mkResourceKey s (ce_path e) PolicyEffectDeny = Some (ce_expressions e).
Proof.
  unfold denies_of, groupBySubject. rewrite <- key_entry_lookup.
  setoid_rewrite <- groupBySubject_keys. apply addEntry_fold.
Qed.

(** The allows of [s] that no unconditional deny of [s] covers. *)
Definition surviving resources s : list capEntry :=
  survivingAllowsOf (default no_policies (groupBySubject resources !! s)).

Lemma surviving_spec resources s e :
  e ∈ surviving resources s ↔
  e ∈ allows_of resources s ∧ coveredByUnconditional (ce_path e) (denies_of resources s) = false.
Proof.
  unfold surviving, survivingAllowsOf, allows_of, denies_of.
  by rewrite list_elem_of_In, List.filter_In, <- list_elem_of_In, negb_true_iff.
Qed.

Lemma covered_spec path entries :
  coveredByUnconditional path entries = true ↔
  ∃ e, e ∈ entries ∧ ce_expressions e = [] ∧ covers (ce_path e) path.
Proof.
  unfold coveredByUnconditional. rewrite existsb_elem. apply exist_proper. intros e.
  rewrite andb_true_iff. unfold unconditional. destruct (ce_expressions e); naive_solver.
Qed.

Definition survivingMap resources : gmap string (list capEntry) :=
  omap (λ sp, match survivingAllowsOf sp with [] => None | l => Some l end)
    (groupBySubject resources).

Lemma survivingMap_lookup resources s :
  default [] (survivingMap resources !! s) = surviving resources s.
Proof.
  unfold survivingMap, surviving. rewrite lookup_omap.
  destruct (groupBySubject resources !! s) as [sp|]; [|done]. simpl.
  by destruct (survivingAllowsOf sp).
Qed.

Lemma neutralized_spec resources path owner :
  neutralizedByOtherSubject path owner (survivingMap resources) = true ↔
  ∃ s, s ≠ owner ∧ coveredByUnconditional path (surviving resources s) = true.
Proof.
  unfold neutralizedByOtherSubject. rewrite existsb_elem. split.
  - intros ([s l] & Hs & H). apply elem_of_map_to_list in Hs.
    destruct (String.eqb_spec s owner) as [|Hne]; [done|]. exists s. split; [done|].
    by rewrite <- survivingMap_lookup, Hs.
  - intros (s & Hne & H). rewrite <- survivingMap_lookup in H.
    destruct (survivingMap resources !! s) as [l|] eqn:El; [|done].
    exists (s, l). rewrite elem_of_map_to_list, (proj2 (String.eqb_neq _ _) Hne). done.
Qed.

(** The entries that are merged into the two reported lists. *)
Definition reported_denies resources s : list capEntry :=
  List.filter (λ d, negb (neutralizedByOtherSubject (ce_path d) s (survivingMap resources)))
    (denies_of resources s).

Lemma resolveCapability_eq resources :
  let subjects := sortedSubjects (groupBySubject resources) in
  resolveCapability resources =
  mkActionCapability
    (mergeByPath (concat (surviving resources <$> subjects)))
    (mergeByPath (concat (reported_denies resources <$> subjects))).
Proof.
  cbv zeta. unfold resolveCapability. fold (survivingMap resources). f_equal.
  f_equal. f_equal. apply list_fmap_ext. intros _ s _. apply survivingMap_lookup.
Qed.

Lemma elem_of_subjects (f : string → list capEntry) resources e :
  (∀ s, groupBySubject resources !! s = None → f s = []) →
  e ∈ concat (f <$> sortedSubjects (groupBySubject resources)) ↔ ∃ s, e ∈ f s.
Proof.
  intros Hf. rewrite list_elem_of_In, in_concat. setoid_rewrite <- list_elem_of_In. split.
  - intros (l & (s & -> & _)%list_elem_of_fmap & He). eauto.
  - intros [s He]. exists (f s). split; [|done]. apply list_elem_of_fmap. exists s. split; [done|].
    unfold sortedSubjects. rewrite sort_Strings_perm, list_elem_of_fmap.
    destruct (groupBySubject resources !! s) as [sp|] eqn:Esp.
    + exists (s, sp). split; [done|]. by apply elem_of_map_to_list.
    + rewrite Hf in He by done. inversion He.
Qed.

Lemma allowed_applies holds resources r p :
  (∃ c, c ∈ Allowed (resolveCapability resources) ∧ Path c = p ∧ cap_applies holds c r = true) ↔
  ∃ s e, e ∈ surviving resources s ∧ ce_path e = p ∧
         entry_applies holds p (ce_expressions e) r = true.
Proof.
  rewrite resolveCapability_eq. simpl. rewrite mergeByPath_applies.
  setoid_rewrite (elem_of_subjects (surviving resources)); [naive_solver|].
  intros s Hs. unfold surviving. by rewrite Hs.
Qed.

Lemma denied_applies holds resources r p :
  (∃ c, c ∈ Denied (resolveCapability resources) ∧ Path c = p ∧ cap_applies holds c r = true) ↔
  ∃ s e, e ∈ reported_denies resources s ∧ ce_path e = p ∧
         entry_applies holds p (ce_expressions e) r = true.
Proof.
  rewrite resolveCapability_eq. simpl. rewrite mergeByPath_applies.
  setoid_rewrite (elem_of_subjects (reported_denies resources)); [naive_solver|].
  intros s Hs. unfold reported_denies, denies_of. by rewrite Hs.
Qed.

Lemma reported_denies_spec resources s d :
  d ∈ reported_denies resources s ↔
  d ∈ denies_of resources s ∧
  ∀ s', s' ≠ s → coveredByUnconditional (ce_path d) (surviving resources s') = false.
Proof.
  unfold reported_denies. rewrite list_elem_of_In, List.filter_In, <- list_elem_of_In.
  rewrite negb_true_iff, <- not_true_iff_false, neutralized_spec.
  apply and_iff_compat_l. split.
  - intros H s' Hs. apply not_true_iff_false. naive_solver.
  - intros H (s' & Hs & Hc). rewrite H in Hc; done.
Qed.

(** ** The reading against enforcement *)

Definition allows_unconditional resources : Prop :=
  ∀ s p ex, resources !! mkResourceKey s p PolicyEffectAllow = Some ex → ex = [].

Definition denies_unconditional resources : Prop :=
  ∀ s p ex, resources !! mkResourceKey s p PolicyEffectDeny = Some ex → ex = [].

Definition single_subject resources : Prop :=
  ∀ k1 k2, is_Some (resources !! k1) → is_Some (resources !! k2) → rk_subject k1 = rk_subject k2.

Lemma entry_applies_covers holds p ex r : entry_applies holds p ex r = true → covers p r.
Proof. unfold entry_applies. intros. by bool_simpl. Qed.

Lemma entry_applies_unconditional holds p r : entry_applies holds p [] r = resourceMatch r p.
Proof. unfold entry_applies. apply andb_true_r. Qed.

(** An allow that decides an enforced request survives its own subject's denies. *)
Lemma enforced_survives holds resources s p ex r :
  resources !! mkResourceKey s p PolicyEffectAllow = Some ex →
  covers p r →
  (∀ q ex', resources !! mkResourceKey s q PolicyEffectDeny = Some ex' →
            entry_applies holds q ex' r = false) →
  mkCapEntry p ex ∈ surviving resources s.
Proof.
  intros Ha Hp Hd. apply surviving_spec. split; [by apply allows_of_spec|].
  apply not_true_iff_false. rewrite covered_spec. intros (d & Hd' & Hex & Hc). simpl in Hc.
  apply denies_of_spec in Hd'. rewrite Hex in Hd'. specialize (Hd _ _ Hd').
  rewrite entry_applies_unconditional in Hd.
  rewrite (covers_trans _ _ _ Hc Hp) in Hd. done.
Qed.

(** The profile grants everything the enforcer grants when allows carry no
    conditions. *)
Lemma profile_complete holds resources r :
  allows_unconditional resources →
  enforced holds resources r → reading holds (resolveCapability resources) r.
Proof.
  intros Hun (s & (p & ex & Ha & Hap) & Hd).
  pose proof (entry_applies_covers _ _ _ _ Hap) as Hp.
  pose proof (enforced_survives _ _ _ _ _ _ Ha Hp Hd) as Hsurv.
  destruct (proj2 (allowed_applies holds resources r p)) as (c & Hc & Hcp & Hca);
    [by exists s, (mkCapEntry p ex)|].
  exists c. split; [done|]. split; [done|]. intros d Hdin Hda. rewrite Hcp.
  destruct (decide (depth (Path d) < depth p)) as [|Hge]; [done|exfalso].
  destruct (proj1 (denied_applies holds resources r (Path d))) as (s' & e & He & Hpe & Hae);
    [by exists d|].
  apply reported_denies_spec in He as [He Hneu].
  pose proof (entry_applies_covers _ _ _ _ Hae) as Hcov.
  assert (covers p (Path d)) as Hcc by (apply (shallower_covers _ _ r); [done..|lia]).
  destruct (decide (s' = s)) as [->|Hne].
  - apply denies_of_spec in He. rewrite Hpe in He. by rewrite (Hd _ _ He) in Hae.
  - specialize (Hneu s ltac:(done)). rewrite Hpe in Hneu.
    assert (coveredByUnconditional (Path d) (surviving resources s) = true) as Hct; [|congruence].
    apply covered_spec. exists (mkCapEntry p ex). split; [done|]. split; [|done].
    by apply (Hun s p).
Qed.

(** With one entitlement and unconditional denies the reading is exact. *)
Lemma profile_exact_single_subject holds resources r :
  single_subject resources → denies_unconditional resources →
  reading holds (resolveCapability resources) r ↔ enforced holds resources r.
Proof.
  intros Hone Hun. split.
  - intros (a & Ha & Haa & Hd).
    destruct (proj1 (allowed_applies holds resources r (Path a))) as (s & e & He & Hpe & Hae);
      [by exists a|].
    apply surviving_spec in He as [He Hnc]. apply allows_of_spec in He.
    exists s. rewrite Hpe in He. split; [by eauto|]. intros q ex Hq.
    apply not_true_iff_false. intros Hqa. pose proof (Hun _ _ _ Hq) as ->.
    pose proof (entry_applies_covers _ _ _ _ Hqa) as Hqc.
    pose proof (entry_applies_covers _ _ _ _ Hae) as Hac.
    destruct (decide (depth q ≤ depth (Path a))) as [Hle|Hgt].
    + assert (coveredByUnconditional (ce_path e) (denies_of resources s) = true); [|congruence].
      apply covered_spec. exists (mkCapEntry q []). split; [by apply denies_of_spec|].
      split; [done|]. simpl. rewrite Hpe. by apply (shallower_covers _ _ r).
    + destruct (proj2 (denied_applies holds resources r q)) as (d & Hdin & Hdp & Hda).
      { exists s, (mkCapEntry q []). split; [|done]. apply reported_denies_spec.
        split; [by apply denies_of_spec|]. intros s' Hs'.
        apply not_true_iff_false. rewrite covered_spec. intros (x & Hx & _).
        apply surviving_spec in Hx as [Hx _]. apply allows_of_spec in Hx.
        apply Hs'. apply (Hone (mkResourceKey s' (ce_path x) PolicyEffectAllow)
                               (mkResourceKey s q PolicyEffectDeny)); by eauto. }
      specialize (Hd d Hdin Hda). rewrite Hdp in Hd. lia.
  - intros (s & (p & ex & Ha & Hap) & Hd).
    pose proof (entry_applies_covers _ _ _ _ Hap) as Hp.
    pose proof (enforced_survives _ _ _ _ _ _ Ha Hp Hd) as Hsurv.
    destruct (proj2 (allowed_applies holds resources r p)) as (c & Hc & Hcp & Hca);
      [by exists s, (mkCapEntry p ex)|].
    exists c. split; [done|]. split; [done|]. intros d Hdin Hda. exfalso.
    destruct (proj1 (denied_applies holds resources r (Path d))) as (s' & e & He & Hpe & Hae);
      [by exists d|].
    apply reported_denies_spec in He as [He _]. apply denies_of_spec in He. rewrite Hpe in He.
    assert (s' = s) as ->.
    { apply (Hone (mkResourceKey s' (Path d) PolicyEffectDeny)
                  (mkResourceKey s p PolicyEffectAllow)); by eauto. }
    by rewrite (Hd _ _ He) in Hae.
Qed.

(** ** Two ways in which the reading grants more than the enforcer *)

(** [s1] may act in project [p] of [a] except on component [c]; [s2] may act
    everywhere except in namespace [a]. *)
Definition neutralized_example : gmap resourceKey (list string) := list_to_map [
  (mkResourceKey "group:s1" "ns/a/project/p" PolicyEffectAllow, []);
  (mkResourceKey "group:s1" "ns/a/project/p/component/c" PolicyEffectDeny, []);
  (mkResourceKey "group:s2" "*" PolicyEffectAllow, []);
  (mkResourceKey "group:s2" "ns/a" PolicyEffectDeny, [])
].

(** [s1] may act in project [p] of [a], and is denied everything in [a] while
    the expression holds. *)
Definition conditional_deny_example : gmap resourceKey (list string) := list_to_map [
  (mkResourceKey "group:s1" "ns/a/project/p" PolicyEffectAllow, []);
  (mkResourceKey "group:s1" "ns/a" PolicyEffectDeny, ["resource.environment == 'prod'"])
].

(** The entries of a map given by its list. *)
Ltac entries_of H :=
  apply elem_of_list_to_map_2 in H; rewrite !elem_of_cons in H;
  repeat match type of H with
  | _ ∨ _ => destruct H as [H|H]
  end; [simplify_eq..|inversion H].

(** A deny that is dropped because another entitlement has a broader
    surviving allow makes the profile report a grant the enforcer refuses: the
    other entitlement is itself denied on the resource by a narrower rule. *)
Theorem profile_overgrants_neutralized_deny :
  let resources := neutralized_example in
  let r := "ns/a/project/p/component/c" in
  allows_unconditional resources ∧ denies_unconditional resources ∧
  reading (λ _, true) (resolveCapability resources) r ∧
  ¬ enforced (λ _, true) resources r.
Proof.
  cbv zeta. split; [|split; [|split]].
  - intros s p ex H. unfold neutralized_example in H. by entries_of H.
  - intros s p ex H. unfold neutralized_example in H. by entries_of H.
  - exists (mkCapabilityResource "ns/a/project/p" None).
    assert (resolveCapability neutralized_example =
      mkActionCapability
        [mkCapabilityResource "ns/a/project/p" None; mkCapabilityResource "*" None]
        [mkCapabilityResource "ns/a" None]) as -> by (vm_compute; reflexivity).
    simpl. split; [set_solver|]. split; [done|].
    intros d Hd _. apply list_elem_of_singleton in Hd as ->. vm_compute. lia.
  - intros (s & (p & ex & Ha & Hap) & Hd). unfold neutralized_example in Ha.
    entries_of Ha.
    + specialize (Hd "ns/a/project/p/component/c" [] eq_refl). done.
    + specialize (Hd "ns/a" [] eq_refl). done.
Qed.

(** The documented reading of a profile, the deepest matching entry wins,
    over-reports when a conditional deny is broader than an allow of the same
    entitlement: the enforcer refuses while the deny's condition holds. *)
Lemma profile_overgrants_conditional_deny :
  let resources := conditional_deny_example in
  let r := "ns/a/project/p" in
  single_subject resources ∧
  reading (λ _, true) (resolveCapability resources) r ∧
  ¬ enforced (λ _, true) resources r.
Proof.
  cbv zeta. split; [|split].
  - intros k1 k2 [e1 H1] [e2 H2]. unfold conditional_deny_example in *.
    entries_of H1; entries_of H2; done.
  - exists (mkCapabilityResource "ns/a/project/p" None).
    assert (resolveCapability conditional_deny_example =
      mkActionCapability
        [mkCapabilityResource "ns/a/project/p" None]
        [mkCapabilityResource "ns/a" (Some ["resource.environment == 'prod'"])]) as ->
      by (vm_compute; reflexivity).
    simpl. split; [set_solver|]. split; [done|].
    intros d Hd _. apply list_elem_of_singleton in Hd as ->. vm_compute. lia.
  - intros (s & (p & ex & Ha & Hap) & Hd). unfold conditional_deny_example in Ha.
    entries_of Ha. specialize (Hd "ns/a" ["resource.environment == 'prod'"] eq_refl). done.
Qed.
