(* ===== verification/AuthzProfileLink.v ===== *)
(** * From stored policies to the profile's entries

    Connects the entries [buildCapabilitiesFromPolicies] accumulates for an
    action with the decisions of the enforcer on the same policy store, so that
    the results of [AuthzProfileSpec] speak about the decisions of [Evaluate]. *)

From S2P Require Import Prelude GoStrings AuthzCore AuthzMatch AuthzActions AuthzConditions.
From S2P Require Import AuthzPDP AuthzProfileSpec.

Open Scope go_scope.

(** ** The accumulated entries *)

(** One execution of the inner loop's body. *)
Record hit := mkHit { h_key : resourceKey; h_conds : list AuthzCondition; h_action : string }.

Definition hits_at (a : string) (k : resourceKey) (log : list hit) : list hit :=
  List.filter (λ h, bool_decide (h_key h = k) && String.eqb (h_action h) a) log.

Definition hit_conds (a : string) (h : hit) : list AuthzCondition :=
  filterConditionsByAction (h_conds h) a.

Definition hit_free (a : string) (h : hit) : bool :=
  match hit_conds a h with [] => true | _ => false end.

(** What the two maps hold for an action and a key. *)
Definition exprs_of (acc : capAcc) (a : string) (k : resourceKey) : option (list string) :=
  default ∅ (actionExpressions acc !! a) !! k.

Definition uncond_of (acc : capAcc) (a : string) (k : resourceKey) : bool :=
  default false (default ∅ (unconditionalKeys acc !! a) !! k).

Lemma insert_default_lookup {V} (m : gmap string (gmap resourceKey V)) a m' b :
  default ∅ (<[a := m']> m !! b) = if decide (a = b) then m' else default ∅ (m !! b).
Proof. by destruct (decide (a = b)) as [<-|]; [rewrite lookup_insert_eq|rewrite lookup_insert_ne]. Qed.

Lemma addActionPolicy_lookup acc h b k :
  let acc' := addActionPolicy (h_key h) (h_conds h) acc (h_action h) in
  if decide (h_key h = k ∧ h_action h = b) then
    uncond_of acc' b k = hit_free b h || uncond_of acc b k ∧
    exprs_of acc' b k =
      (if hit_free b h then Some []
       else if uncond_of acc b k then exprs_of acc b k
       else Some (default [] (exprs_of acc b k) ++ (Expression <$> hit_conds b h)))
  else uncond_of acc' b k = uncond_of acc b k ∧ exprs_of acc' b k = exprs_of acc b k.
Proof.
  cbv zeta. unfold addActionPolicy, hit_free. fold (hit_conds (h_action h) h).
  unfold uncond_of, exprs_of. destruct h as [key conds act]; simpl.
  destruct (hit_conds act (mkHit key conds act)) as [|c cs] eqn:Ec;
    [|destruct (default false (default ∅ (unconditionalKeys acc !! act) !! key)) eqn:Eu]; simpl;
    rewrite !insert_default_lookup;
    (destruct (decide (act = b)) as [<-|Hb];
      [|by rewrite decide_False by naive_solver]);
    (destruct (decide (key = k)) as [<-|Hk];
      [rewrite decide_True by done|rewrite decide_False by naive_solver]);
    rewrite ?Ec, ?Eu, ?lookup_insert_eq, ?lookup_insert_ne by done; done.
Qed.

Definition acc_ok (log : list hit) (acc : capAcc) : Prop :=
  ∀ a k,
    let hs := hits_at a k log in
    uncond_of acc a k = existsb (hit_free a) hs ∧
    exprs_of acc a k =
      match hs with
      | [] => None
      | _ => Some (if existsb (hit_free a) hs then []
                   else concat ((λ h, Expression <$> hit_conds a h) <$> hs))
      end.

Lemma hits_at_snoc a k log h :
  hits_at a k (log ++ [h]) =
  hits_at a k log ++ (if decide (h_key h = k ∧ h_action h = a) then [h] else []).
Proof.
  unfold hits_at. rewrite List.filter_app. simpl. f_equal.
  destruct (decide (h_key h = k ∧ h_action h = a)) as [[<- <-]|Hne].
  - by rewrite bool_decide_eq_true_2, String.eqb_refl.
  - case_bool_decide; simpl; [|done]. destruct (String.eqb_spec (h_action h) a); [naive_solver|done].
Qed.

Lemma acc_ok_empty : acc_ok [] (mkCapAcc ∅ ∅ ∅).
Proof.
  intros a k. cbv zeta. unfold uncond_of, exprs_of. simpl. rewrite !lookup_empty. simpl.
  by rewrite !lookup_empty.
Qed.

Lemma acc_ok_step log acc h :
  acc_ok log acc → acc_ok (log ++ [h]) (addActionPolicy (h_key h) (h_conds h) acc (h_action h)).
Proof.
  intros Hok b k. destruct (Hok b k) as [H1 H2]. cbv zeta in *. rewrite hits_at_snoc.
  pose proof (addActionPolicy_lookup acc h b k) as H. cbv zeta in H.
  destruct (decide (h_key h = k ∧ h_action h = b)); [|by rewrite app_nil_r; destruct H as [-> ->]].
  destruct H as [-> ->]. rewrite existsb_app, fmap_app, concat_app, H1, H2. simpl.
  rewrite orb_false_r, app_nil_r, orb_comm. split; [done|].
  destruct (hits_at b k log) as [|h0 hs]; simpl.
  - by destruct (hit_free b h).
  - destruct (hit_free b h); simpl; [by rewrite orb_true_r|].
    rewrite orb_false_r. by destruct (_ || _).
Qed.

Lemma acc_ok_fold log acc key conds acts :
  acc_ok log acc →
  acc_ok (log ++ (mkHit key conds <$> acts)) (foldl (addActionPolicy key conds) acc acts).
Proof.
  revert log acc. induction acts as [|a acts IH]; intros log acc Hok.
  { by rewrite app_nil_r. }
  rewrite fmap_cons, cons_middle, app_assoc. cbn [foldl]. apply IH. apply (acc_ok_step log acc (mkHit key conds a) Hok).
Qed.

(** The list of conditions, read as the enforcer does for one action, when
    [holds] is the value of each expression. *)
Definition conds_apply (holds : string → bool) (a : string) (conds : list AuthzCondition) : bool :=
  match filterConditionsByAction conds a with
  | [] => true
  | cs => existsb (λ c, holds (Expression c)) cs
  end.

(** An accumulated entry applies when one of the policies behind it does. *)
Lemma acc_ok_applies holds log acc a s p eff r :
  acc_ok log acc →
  (∃ ex, exprs_of acc a (mkResourceKey s p eff) = Some ex ∧ entry_applies holds p ex r = true) ↔
  covers p r ∧ ∃ h, h ∈ log ∧ h_key h = mkResourceKey s p eff ∧ h_action h = a ∧
                    conds_apply holds a (h_conds h) = true.
Proof.
  intros Hok. set (k := mkResourceKey s p eff). destruct (Hok a k) as [_ H2]. cbv zeta in H2.
  assert (∀ h, h ∈ hits_at a k log ↔ h ∈ log ∧ h_key h = k ∧ h_action h = a) as Hin.
  { intros h. unfold hits_at. rewrite list_elem_of_In, List.filter_In, <- list_elem_of_In.
    by rewrite andb_true_iff, bool_decide_eq_true, String.eqb_eq. }
  transitivity (covers p r ∧ ∃ h, h ∈ hits_at a k log ∧ conds_apply holds a (h_conds h) = true);
    [|setoid_rewrite Hin; naive_solver].
  rewrite H2. unfold entry_applies, conds_apply. fold (hit_conds a).
  destruct (decide (hits_at a k log = [])) as [Hnil|Hnn].
  { rewrite Hnil. split; [by intros (? & ? & _)|]. intros (_ & h & Hh & _). inversion Hh. }
  match goal with |- context [match hits_at a k log with [] => None | _ :: _ => ?X end] =>
    replace (match hits_at a k log with [] => None | _ :: _ => X end) with X
      by (by destruct (hits_at a k log)) end.
  clear H2.
  destruct (existsb (hit_free a) (hits_at a k log)) eqn:Ef.
  - apply existsb_elem in Ef as (h & Hh & Hf). unfold hit_free, hit_conds in Hf.
    split.
    + intros (ex & [= <-] & Hr). bool_simpl. split; [done|]. exists h. split; [done|].
      by destruct (filterConditionsByAction (h_conds h) a).
    + intros (Hr & _). eexists. split; [done|]. by rewrite Hr.
  - rewrite existsb_elem_false in Ef.
    assert (∀ h, h ∈ hits_at a k log → ∃ c cs, hit_conds a h = c :: cs) as Hc.
    { intros h Hh. specialize (Ef h Hh). unfold hit_free in Ef.
      destruct (hit_conds a h); [done|eauto]. }
    assert (∀ x, x ∈ concat ((λ h, Expression <$> hit_conds a h) <$> hits_at a k log) ↔
              ∃ h c, h ∈ hits_at a k log ∧ c ∈ hit_conds a h ∧ x = Expression c) as Hx.
    { intros x. rewrite list_elem_of_In, in_concat. setoid_rewrite <- list_elem_of_In.
      setoid_rewrite list_elem_of_fmap. split.
      - intros (? & (h & -> & Hh) & (c & -> & ?)%list_elem_of_fmap). eauto.
      - intros (h & c & Hh & Hcc & ->). eexists. split; [by eauto|]. by apply list_elem_of_fmap_2. }
    set (exs := concat _) in *.
    assert (existsb holds exs = true ↔ ∃ h, h ∈ hits_at a k log ∧
              existsb (λ c, holds (Expression c)) (hit_conds a h) = true) as Hex.
    { rewrite existsb_elem. setoid_rewrite existsb_elem. setoid_rewrite Hx. naive_solver. }
    assert (hits_at a k log ≠ [] → exs ≠ []) as Hne.
    { intros _ Hnil. destruct (hits_at a k log) as [|h l] eqn:Eh; [done|].
      destruct (Hc h) as (c & cs & Hcs); [by left|].
      assert (Expression c ∈ exs) as Hin' by (apply Hx; exists h, c; rewrite Hcs; set_solver).
      rewrite Hnil in Hin'. inversion Hin'. }
    split.
    + intros (ex & [= <-] & Hr). bool_simpl. split; [done|].
      assert (existsb holds exs = true) as Hh.
      { destruct exs; [by destruct (Hne Hnn)|done]. }
      apply Hex in Hh as (h & Hh & Hhc). exists h. split; [done|].
      destruct (Hc h Hh) as (c & cs & Hcs). unfold hit_conds in *. by rewrite Hcs in *.
    + intros (Hr & h & Hh & Hhc). exists exs. split; [done|]. rewrite Hr. simpl.
      assert (existsb holds exs = true) as ->; [|by destruct exs].
      apply Hex. exists h. split; [done|].
      destruct (Hc h Hh) as (c & cs & Hcs). unfold hit_conds in *. by rewrite Hcs in *.
Qed.

(** ** The policies behind the entries *)

Section Link.
Context {E : Type} `{CELEngine, JSONCodec, !JSONCodecLaws, !CasbinEnforcer E, !CasbinLaws E}.

Definition policy_key (p : policyInfo) : resourceKey :=
  mkResourceKey (pi_subject p) (pi_resourcePath p) (pi_effect p).

(** The executions of the inner loop that one policy causes. *)
Definition policy_hits (e : E) (idx : actionIndex) (p : policyInfo) (hs : list hit) : Prop :=
  ∃ rules conds,
    GetFilteredGroupingPolicy e (pi_roleName p) (pi_roleNamespace p) = Ok rules ∧
    decodeConditions (pi_conditions p) = Ok conds ∧
    hs = mkHit (policy_key p) conds <$> roleActionsOf idx rules.

Definition cache_ok (e : E) (idx : actionIndex) (acc : capAcc) : Prop :=
  ∀ rk acts, roleToActions acc !! rk = Some acts →
    ∃ rules, GetFilteredGroupingPolicy e (RoleName rk) (RoleNamespace rk) = Ok rules ∧
             acts = roleActionsOf idx rules.

Lemma addActionPolicy_cache key conds acc acts :
  roleToActions (foldl (addActionPolicy key conds) acc acts) = roleToActions acc.
Proof.
  revert acc. induction acts as [|a acts IH]; intros acc; [done|]. cbn [foldl]. rewrite IH.
  unfold addActionPolicy. destruct (filterConditionsByAction conds a); [done|]. by case_goal.
Qed.

Lemma addPolicy_spec e idx log acc p acc' :
  cache_ok e idx acc → acc_ok log acc → addPolicy e idx acc p = Ok acc' →
  cache_ok e idx acc' ∧ ∃ hs, policy_hits e idx p hs ∧ acc_ok (log ++ hs) acc'.
Proof.
  intros Hcache Hok. unfold addPolicy. rewrite result_bind_Ok. intros (acc1 & Hfetch & Hrest).
  set (rk := mkRoleRef (pi_roleName p) (pi_roleNamespace p)) in *.
  assert (cache_ok e idx acc1 ∧ acc_ok log acc1 ∧ is_Some (roleToActions acc1 !! rk))
    as (Hc1 & Hok1 & [acts Hacts]).
  { destruct (roleToActions acc !! rk) as [acts|] eqn:Erk.
    - injection Hfetch as <-. split; [done|]. split; [done|]. by eauto.
    - destruct (GetFilteredGroupingPolicy _ _ _) as [rules|] eqn:Er; [|done].
      injection Hfetch as <-. split; [|split; [done|]].
      + intros rk' acts'. simpl. rewrite lookup_insert_Some. intros [[<- <-]|[_ ?]]; [|by apply Hcache].
        by exists rules.
      + simpl. rewrite lookup_insert_eq. by eauto. }
  rewrite Hacts in Hrest. simpl in Hrest.
  destruct (decodeConditions (pi_conditions p)) as [conds|] eqn:Ed; [|done].
  injection Hrest as <-. destruct (Hc1 rk acts Hacts) as (rules & Hr & ->). split.
  - intros rk' acts'. rewrite addActionPolicy_cache. apply Hc1.
  - exists (mkHit (policy_key p) conds <$> roleActionsOf idx rules). split.
    + by exists rules, conds.
    + by apply acc_ok_fold.
Qed.

Lemma addPolicies_spec e idx log acc policies acc' :
  cache_ok e idx acc → acc_ok log acc → addPolicies e idx acc policies = Ok acc' →
  ∃ hss, Forall2 (policy_hits e idx) policies hss ∧ acc_ok (log ++ concat hss) acc'.
Proof.
  revert log acc. induction policies as [|p ps IH]; intros log acc Hc Hok; simpl.
  - intros [= <-]. exists []. split; [constructor|]. simpl. by rewrite app_nil_r.
  - rewrite result_bind_Ok. intros (acc1 & Hp & Hps).
    destruct (addPolicy_spec _ _ _ _ _ _ Hc Hok Hp) as (Hc1 & hs & Hhs & Hok1).
    destruct (IH _ _ Hc1 Hok1 Hps) as (hss & Hall & Hok2).
    exists (hs :: hss). split; [by constructor|]. simpl. by rewrite app_assoc.
Qed.

Lemma policy_hits_elem e idx policies hss a k (P : list AuthzCondition → Prop) :
  Forall2 (policy_hits e idx) policies hss →
  (∃ h, h ∈ concat hss ∧ h_key h = k ∧ h_action h = a ∧ P (h_conds h)) ↔
  ∃ p rules conds, p ∈ policies ∧ policy_key p = k ∧
    GetFilteredGroupingPolicy e (pi_roleName p) (pi_roleNamespace p) = Ok rules ∧
    decodeConditions (pi_conditions p) = Ok conds ∧ a ∈ roleActionsOf idx rules ∧ P conds.
Proof.
  induction 1 as [|p hs ps hss Hhs Hall IH]; simpl.
  { split; [by intros (h & Hh & _); inversion Hh|by intros (p & ? & ? & Hp & _); inversion Hp]. }
  setoid_rewrite elem_of_app. setoid_rewrite elem_of_cons.
  destruct Hhs as (rules & conds & Hr & Hd & ->). split.
  - intros (h & [Hh|Hh] & Hk & Ha & HP).
    + apply list_elem_of_fmap in Hh as (a' & -> & Ha'). simpl in *. subst.
      exists p, rules, conds. naive_solver.
    + destruct (proj1 IH) as (p' & rules' & conds' & ? & ?); [by exists h|].
      exists p', rules', conds'. naive_solver.
  - intros (p' & rules' & conds' & [->|Hp'] & Hk & Hr' & Hd' & Ha & HP).
    + assert (rules' = rules) as -> by congruence. assert (conds' = conds) as -> by congruence.
      exists (mkHit (policy_key p) conds a). split; [left|auto]. by apply list_elem_of_fmap_2.
    + destruct (proj2 IH) as (h & Hh & ?); [by exists p', rules', conds'|].
      exists h. naive_solver.
Qed.

Lemma role_actions_gLink e role ns rules a :
  GetFilteredGroupingPolicy e role ns = Ok rules → a ∈ action_names →
  a ∈ roleActionsOf (indexActions ConcretePublicActions) rules ↔
  gLink (GetGroupingPolicy e) role a ns = true.
Proof.
  intros Hr Ha. apply GetFilteredGroupingPolicy_spec in Hr as ->.
  unfold roleActionsOf, gLink. rewrite list_elem_of_In, in_concat, existsb_elem.
  setoid_rewrite <- list_elem_of_In. setoid_rewrite list_elem_of_omap. split.
  - intros (l & (ra & Hra & Hl) & Hal). exists ra.
    apply list_elem_of_In, List.filter_In in Hra as [Hra Hf]. rewrite <- list_elem_of_In in Hra.
    split; [done|]. destruct ra as [|r0 [|act [|n0 [|]]]]; try done. bool_simpl.
    destruct Hf as [Hf1 Hf2]. simplify_eq/=. rewrite !String.eqb_refl. simpl.
    rewrite roleActionMatchWrapper_eq. by apply expandActionWildcard_matches.
  - intros (ra & Hra & Hm). destruct ra as [|r0 [|act [|n0 [|]]]]; try done. bool_simpl. subst.
    exists (expandActionWildcard act (indexActions ConcretePublicActions)). split.
    + exists [role; act; ns]. split; [|done].
      apply list_elem_of_In, List.filter_In. rewrite <- list_elem_of_In. split; [done|].
      by apply bool_decide_eq_true.
    + apply expandActionWildcard_matches; [done|].
      by rewrite <- roleActionMatchWrapper_eq.
Qed.

(** ** Policies in scope *)

Lemma filterPoliciesLoop_elem e claim scope values l p :
  filterPoliciesLoop e claim scope values = Ok l →
  p ∈ l ↔ ∃ v bn, v ∈ values ∧
    [claim +:+ ":" +:+ v; pi_resourcePath p; pi_roleName p; pi_roleNamespace p; pi_effect p;
     pi_conditions p; bn] ∈ GetPolicy e ∧
    pi_subject p = claim +:+ ":" +:+ v ∧ isWithinScope (pi_resourcePath p) scope = true.
Proof.
  revert l. induction values as [|v vs IH]; intros l; simpl.
  { intros [= <-]. split; [inversion 1|]. intros (? & ? & Hv & _). inversion Hv. }
  destruct (formatSubject claim v) as [sub|] eqn:Es; [|done].
  assert (sub = claim +:+ ":" +:+ v) as ->.
  { unfold formatSubject in Es. case_match; [done|]. by injection Es. }
  destruct (GetFilteredPolicy e _) as [ps|] eqn:Ep; [|done]. rewrite result_bind_Ok.
  intros (l' & Hl' & [= <-]). apply GetFilteredPolicy_spec in Ep as ->.
  rewrite elem_of_app, (IH _ Hl'). setoid_rewrite elem_of_cons.
  assert (p ∈ policiesInScope scope
      (List.filter (λ q : list string, bool_decide (q !! 0 = Some (claim +:+ ":" +:+ v))) (GetPolicy e)) ↔
    ∃ bn, [claim +:+ ":" +:+ v; pi_resourcePath p; pi_roleName p; pi_roleNamespace p; pi_effect p;
           pi_conditions p; bn] ∈ GetPolicy e ∧ pi_subject p = claim +:+ ":" +:+ v ∧
          isWithinScope (pi_resourcePath p) scope = true) as ->; [|naive_solver].
  unfold policiesInScope. rewrite list_elem_of_omap. split.
  - intros (q & Hq & Hm). apply list_elem_of_In, List.filter_In in Hq as [Hq Hf].
    rewrite <- list_elem_of_In in Hq. bool_simpl.
    destruct q as [|q0 [|q1 [|q2 [|q3 [|q4 [|q5 [|q6 [|]]]]]]]]; try done.
    case_match; [|done]. simplify_eq/=. eauto.
  - intros (bn & Hin & Hsub & Hsc). eexists. split.
    + apply list_elem_of_In, List.filter_In. rewrite <- list_elem_of_In. split; [exact Hin|].
      by apply bool_decide_eq_true.
    + simpl. rewrite Hsc. destruct p; simpl in *. by subst.
Qed.

Lemma covers_within_scope p scope r : covers p r → covers scope r → isWithinScope p scope = true.
Proof.
  intros Hp Hs. unfold isWithinScope.
  destruct (String.eqb_spec p "*") as [|Hp1]; [done|].
  destruct (String.eqb_spec scope "*") as [|Hs1]; [done|]. simpl.
  destruct (String.eqb_spec p scope) as [|Hne]; [done|].
  destruct (covers_comparable _ _ _ Hp Hs) as [Hc|Hc]; apply resourceMatch_segments in Hc;
    destruct Hc as [|Hc]; try done; apply Split_prefix_of in Hc as [|Hc]; try congruence.
  - by rewrite Hc.
  - rewrite Hc. by case_goal.
Qed.

(** ** Conditions that evaluate without errors *)

(** The value of an expression for a request. *)
Definition cel_holds (ctx : Context) (a x : string) : bool :=
  bool_decide (evalCondition x (buildCelActivation ctx (LookupConditions a)) = evalAllow).

(** No condition stored in the policies fails to evaluate on the request. *)
Definition clean_store (e : E) (ctx : Context) (a : string) : Prop :=
  ∀ p raw conds c, p ∈ GetPolicy e → p !! 5 = Some raw → decodeConditions raw = Ok conds →
    c ∈ filterConditionsByAction conds a →
    evalCondition (Expression c) (buildCelActivation ctx (LookupConditions a)) ≠ evalError.

Lemma ConditionMatcher_clean e ctx a p raw conds eft :
  clean_store e ctx a → p ∈ GetPolicy e → p !! 5 = Some raw → decodeConditions raw = Ok conds →
  ConditionMatcher (MarshalContext ctx) a raw eft = conds_apply (cel_holds ctx a) a conds.
Proof.
  intros Hclean Hp H5 Hd. specialize (Hclean p raw conds).
  unfold ConditionMatcher, conds_apply. unfold decodeConditions in Hd, Hclean.
  destruct (isPolicyConditionEmpty raw); [by injection Hd as <-|].
  destruct (UnmarshalConditions raw) as [cs|]; [|done]. injection Hd as ->.
  destruct (filterConditionsByAction conds a) as [|c0 cs0] eqn:Ef; [done|]. rewrite <- Ef in *.
  unfold buildActivationForRequest. rewrite Unmarshal_MarshalContext, anyConditionMatches_spec.
  destruct (existsb _ _) eqn:Ee; [|by unfold cel_holds].
  apply existsb_elem in Ee as (c & Hc & He). bool_simpl. by destruct (Hclean c Hp H5 eq_refl Hc).
Qed.

(** ** The accumulated entries are what the enforcer matches *)

Section Entries.
Context (e : E) (sc : SubjectContext) (scope a r : string) (ctx : Context).
Context (policies : list policyInfo) (acc : capAcc).
Context (Hfilter : filterPoliciesBySubjectAndScope e sc scope = Ok policies).
Context (Hadd : addPolicies e (indexActions ConcretePublicActions) (mkCapAcc ∅ ∅ ∅) policies = Ok acc).
Context (Ha : a ∈ action_names) (Hscope : covers scope r) (Hclean : clean_store e ctx a).

Definition entries_for : gmap resourceKey (list string) := default ∅ (actionExpressions acc !! a).

Lemma entries_match s eff :
  (∃ p ex, entries_for !! mkResourceKey s p eff = Some ex ∧
           entry_applies (cel_holds ctx a) p ex r = true) ↔
  ∃ v, v ∈ EntitlementValues sc ∧ s = EntitlementClaim sc +:+ ":" +:+ v ∧
    ∃ p, p ∈ GetPolicy e ∧ rule_effect p = eff ∧
         matcher (GetGroupingPolicy e) s r a (MarshalContext ctx) p = true.
Proof.
  destruct (addPolicies_spec e (indexActions ConcretePublicActions) [] (mkCapAcc ∅ ∅ ∅) policies acc)
    as (hss & Hhss & Hok); [by intros ? ? Hx; cbn in Hx; rewrite lookup_empty in Hx|apply acc_ok_empty|done|].
  rewrite app_nil_l in Hok.
  setoid_rewrite (acc_ok_applies (cel_holds ctx a) (concat hss) acc a s); [|done].
  setoid_rewrite (policy_hits_elem e _ policies hss a _
    (λ conds, conds_apply (cel_holds ctx a) a conds = true)); [|done].
  unfold filterPoliciesBySubjectAndScope in Hfilter. split.
  - intros (path & Hcov & p & rules & conds & Hp & Hk & Hr & Hd & Hin & Hc).
    apply (filterPoliciesLoop_elem _ _ _ _ _ _ Hfilter) in Hp as (v & bn & Hv & Hrule & Hsub & _).
    unfold policy_key in Hk. injection Hk as Hs Hpath Heff.
    exists v. split; [done|]. split; [congruence|]. eexists. split; [exact Hrule|].
    split; [done|]. simpl. rewrite <- Hs, Hsub, String.eqb_refl, Hpath, Hcov. simpl.
    rewrite (proj1 (role_actions_gLink _ _ _ _ _ Hr Ha) Hin). simpl.
    by rewrite (ConditionMatcher_clean e ctx a _ _ conds _ Hclean Hrule eq_refl Hd).
  - intros (v & Hv & Hs & p & Hp & Heff & Hm).
    destruct p as [|sub [|path [|role [|ns [|eft [|cond [|bn [|]]]]]]]]; try done.
    simpl in Hm, Heff. bool_simpl. subst eff. 
    assert (sub = EntitlementClaim sc +:+ ":" +:+ v) as -> by congruence.
    exists path. split; [done|].
    set (pinfo := mkPolicyInfo s path role ns eft cond).
    assert (pinfo ∈ policies) as Hpin.
    { apply (filterPoliciesLoop_elem _ _ _ _ _ _ Hfilter). exists v, bn. simpl.
      split; [done|]. split; [done|]. split; [done|]. by apply (covers_within_scope _ _ r). }
    assert (∃ hs, policy_hits e (indexActions ConcretePublicActions) pinfo hs)
      as (hs & rules & conds & Hr & Hd & _).
    { clear -Hhss Hpin. apply list_elem_of_In in Hpin.
      induction Hhss as [|x y xs ys Hxy _ IH]; [done|]. destruct Hpin as [->|]; eauto. }
    exists pinfo, rules, conds. split; [done|]. split; [done|]. split; [done|]. split; [done|].
    split; [by apply (role_actions_gLink _ _ _ _ _ Hr Ha)|].
    by rewrite <- (ConditionMatcher_clean e ctx a _ cond conds eft Hclean Hp eq_refl Hd).
Qed.

Lemma entries_enforced :
  enforced (cel_holds ctx a) entries_for r ↔
  ∃ v, v ∈ EntitlementValues sc ∧
    policyEffect (GetPolicy e) (GetGroupingPolicy e) (EntitlementClaim sc +:+ ":" +:+ v) r a
      (MarshalContext ctx) = true.
Proof.
  unfold enforced, policyEffect.
  assert (∀ s eff, (∀ p ex, entries_for !! mkResourceKey s p eff = Some ex →
      entry_applies (cel_holds ctx a) p ex r = false) ↔
    ¬ ∃ p ex, entries_for !! mkResourceKey s p eff = Some ex ∧
        entry_applies (cel_holds ctx a) p ex r = true) as Hneg.
  { intros s eff. split; [intros Hf (p & ex & Hl & Hap); by rewrite (Hf p ex Hl) in Hap|].
    intros Hf p ex Hl. apply not_true_iff_false. naive_solver. }
  setoid_rewrite Hneg. setoid_rewrite entries_match.
  setoid_rewrite andb_true_iff. setoid_rewrite negb_true_iff.
  setoid_rewrite <- not_true_iff_false. setoid_rewrite existsb_elem.
  setoid_rewrite andb_true_iff. setoid_rewrite String.eqb_eq. split.
  - intros (s & (v & Hv & -> & p & Hp & Heff & Hm) & Hnd). exists v. split; [done|].
    split; [by eauto|]. intros (q & Hq & Hqm & Hqe). apply Hnd. exists v. by eauto 10.
  - intros (v & Hv & (p & Hp & Hm & Heff) & Hnd).
    exists (EntitlementClaim sc +:+ ":" +:+ v). split; [by eauto 10|].
    intros (v' & _ & _ & q & Hq & Hqe & Hqm). apply Hnd. by eauto.
Qed.

(** Every accumulated entry comes from a stored policy of one of the subject's
    entitlements; it is unconditional if the rules of its effect are. *)
Lemma entries_origin s p eff ex :
  entries_for !! mkResourceKey s p eff = Some ex →
  (∃ v, v ∈ EntitlementValues sc ∧ s = EntitlementClaim sc +:+ ":" +:+ v) ∧
  ((∀ q raw conds, q ∈ GetPolicy e → rule_effect q = eff → q !! 5 = Some raw →
      decodeConditions raw = Ok conds → filterConditionsByAction conds a = []) → ex = []).
Proof.
  destruct (addPolicies_spec e (indexActions ConcretePublicActions) [] (mkCapAcc ∅ ∅ ∅) policies acc)
    as (hss & Hhss & Hok);
    [by intros ? ? Hx; cbn in Hx; rewrite lookup_empty in Hx|apply acc_ok_empty|done|].
  rewrite app_nil_l in Hok. destruct (Hok a (mkResourceKey s p eff)) as [_ Hex]. cbv zeta in Hex.
  unfold entries_for. fold (exprs_of acc a (mkResourceKey s p eff)). rewrite Hex. clear Hex Hok.
  assert (∀ h, h ∈ hits_at a (mkResourceKey s p eff) (concat hss) →
    ∃ v q raw, v ∈ EntitlementValues sc ∧ s = EntitlementClaim sc +:+ ":" +:+ v ∧
      q ∈ GetPolicy e ∧ rule_effect q = eff ∧ q !! 5 = Some raw ∧
      decodeConditions raw = Ok (h_conds h)) as Horig.
  { intros h Hh. apply list_elem_of_In, List.filter_In in Hh as [Hh Hk].
    rewrite <- list_elem_of_In in Hh. bool_simpl.
    destruct (proj1 (policy_hits_elem e _ policies hss a (mkResourceKey s p eff)
      (λ conds, conds = h_conds h) Hhss)) as (pi & rules & conds & Hpi & Hkey & _ & Hd & _ & ->);
      [by exists h|].
    unfold filterPoliciesBySubjectAndScope in Hfilter.
    apply (filterPoliciesLoop_elem _ _ _ _ _ _ Hfilter) in Hpi as (v & bn & Hv & Hrule & Hsub & _).
    unfold policy_key in Hkey. injection Hkey as Hs _ Heff.
    exists v. eexists _, (pi_conditions pi). split; [done|]. split; [congruence|].
    split; [exact Hrule|]. split; [done|]. done. }
  destruct (hits_at a (mkResourceKey s p eff) (concat hss)) as [|h hs]; [done|]. intros [= <-].
  split.
  - destruct (Horig h) as (v & _ & _ & Hv & Hs & _); [by left|]. eauto.
  - intros Hfree.     destruct (Horig h) as (v & q & raw & _ & _ & Hq & Heff & H5 & Hd); [by left|].
    assert (hit_free a h = true) as ->; [|done].
    unfold hit_free, hit_conds. by rewrite (Hfree q raw (h_conds h) Hq Heff H5 Hd).
Qed.

End Entries.

(** ** The endpoint against the enforcer *)

(** The rules of an effect put no condition on the action. *)
Definition unconditional_rules (e : E) (a eff : string) : Prop :=
  ∀ q raw conds, q ∈ GetPolicy e → rule_effect q = eff → q !! 5 = Some raw →
    decodeConditions raw = Ok conds → filterConditionsByAction conds a = [].

(** What a client reads from the profile for an action and a resource. *)
Definition profile_reading (ctx : Context) (caps : gmap string ActionCapability) (a r : string) : Prop :=
  ∃ cap, caps !! a = Some cap ∧ reading (cel_holds ctx a) cap r.

Lemma GetSubjectProfile_inv e req caps :
  GetSubjectProfile e (Some req) = Returns (Ok caps) →
  ∃ sc policies acc, ProfSubject req = Some sc ∧
    filterPoliciesBySubjectAndScope e sc (resourceHierarchyToPath (ProfScope req)) = Ok policies ∧
    addPolicies e (indexActions ConcretePublicActions) (mkCapAcc ∅ ∅ ∅) policies = Ok acc ∧
    caps = resolveCapability <$> actionExpressions acc.
Proof.
  intros HP. unfold GetSubjectProfile in HP. unfold validateProfileRequest in HP.
  destruct (ProfSubject req) as [sc|]; [|discriminate HP]. injection HP as HP.
  apply result_bind_Ok in HP as (policies & Hf & HP). unfold buildCapabilitiesFromPolicies in HP.
  apply result_bind_Ok in HP as (acc & Hadd & [= <-]). by exists sc, policies, acc.
Qed.

Lemma profile_reading_entries ctx acc a r :
  profile_reading ctx (resolveCapability <$> actionExpressions acc) a r ↔
  reading (cel_holds ctx a) (resolveCapability (entries_for a acc)) r.
Proof.
  unfold profile_reading, entries_for. rewrite lookup_fmap.
  destruct (actionExpressions acc !! a) as [m|]; simpl; [naive_solver|].
  split; [naive_solver|]. intros (c & Hc & _).
  replace (resolveCapability ∅) with (mkActionCapability [] []) in Hc by (vm_compute; reflexivity).
  inversion Hc.
Qed.

(** C28: the profile reports every grant the enforcer would give: if the
    policies allow an entitlement value of the subject the action on a
    resource inside the requested scope, and the allow rules put no condition
    on the action, a client reading the profile by its documented rule finds
    the action allowed there. *)
Theorem GetSubjectProfile_reports_grants e req sc caps a r ctx v :
  GetSubjectProfile e (Some req) = Returns (Ok caps) → ProfSubject req = Some sc →
  a ∈ action_names → covers (resourceHierarchyToPath (ProfScope req)) r →
  clean_store e ctx a → unconditional_rules e a PolicyEffectAllow →
  v ∈ EntitlementValues sc →
  policyEffect (GetPolicy e) (GetGroupingPolicy e) (EntitlementClaim sc +:+ ":" +:+ v) r a
    (MarshalContext ctx) = true →
  profile_reading ctx caps a r.
Proof.
  intros HP Hsc Ha Hr Hclean Hun Hv Hpe.
  apply GetSubjectProfile_inv in HP as (sc' & policies & acc & Hsc' & Hf & Hadd & ->).
  rewrite Hsc in Hsc'. injection Hsc' as <-.
  apply profile_reading_entries, profile_complete.
  - intros s p ex Hex. by apply (entries_origin e sc _ a policies acc Hf Hadd s p _ ex Hex).
  - apply (entries_enforced e sc _ a r ctx policies acc Hf Hadd Ha Hr Hclean). by exists v.
Qed.

(** For a subject with one entitlement value and deny rules that put no
    condition on the action, reading the profile gives exactly the enforcer's
    decision on every resource inside the requested scope. *)
Theorem GetSubjectProfile_exact_single e req sc caps a r ctx v :
  GetSubjectProfile e (Some req) = Returns (Ok caps) → ProfSubject req = Some sc →
  a ∈ action_names → covers (resourceHierarchyToPath (ProfScope req)) r →
  clean_store e ctx a → unconditional_rules e a PolicyEffectDeny →
  EntitlementValues sc = [v] →
  profile_reading ctx caps a r ↔
  policyEffect (GetPolicy e) (GetGroupingPolicy e) (EntitlementClaim sc +:+ ":" +:+ v) r a
    (MarshalContext ctx) = true.
Proof.
  intros HP Hsc Ha Hr Hclean Hun Hv.
  apply GetSubjectProfile_inv in HP as (sc' & policies & acc & Hsc' & Hf & Hadd & ->).
  rewrite Hsc in Hsc'. injection Hsc' as <-.
  rewrite profile_reading_entries, profile_exact_single_subject.
  - rewrite (entries_enforced e sc _ a r ctx policies acc Hf Hadd Ha Hr Hclean), Hv.
    setoid_rewrite list_elem_of_singleton. naive_solver.
  - assert (∀ k, is_Some (entries_for a acc !! k) → rk_subject k = EntitlementClaim sc +:+ ":" +:+ v)
      as Hs; [|by intros k1 k2 Hk1%Hs Hk2%Hs; congruence].
    intros [s p eff] [ex Hex].
    apply (entries_origin e sc _ a policies acc Hf Hadd) in Hex as [(v' & Hv' & ->) _].
    rewrite Hv in Hv'. by apply list_elem_of_singleton in Hv' as ->.
  - intros s p ex Hex. by apply (entries_origin e sc _ a policies acc Hf Hadd s p _ ex Hex).
Qed.
End Link.
