(* ===== verification/AuthzWatcher.v ===== *)
(** * Incremental policy synchronisation

    [internal/authz/casbin/k8s_watcher.go]: the informer handlers that keep the
    enforcer's policies equal to the authorization objects of the cluster, and
    the diffs of [internal/authz/casbin/helpers.go] they use.  The state is the
    enforcer; a handler may leave it changed and still return an error, so the
    handlers live in a state monad whose failures keep the state. *)

From S2P Require Import Prelude GoStrings AuthzCore AuthzMatch AuthzActions AuthzConditions.
From S2P Require Import AuthzPDP.

Open Scope go_scope.

(** ** The custom resources *)

Record ObjectMeta := mkObjectMeta {
  om_Name : string;
  om_Namespace : string;
  om_Generation : Z;
}.

Record AuthzRole := mkAuthzRole { ar_meta : ObjectMeta; ar_Actions : list string }.

Record ClusterAuthzRole := mkClusterAuthzRole { car_meta : ObjectMeta; car_Actions : list string }.

(** [RoleRef] of [api/v1alpha1/types.go]. *)
Record BindingRoleRef := mkBindingRoleRef { ref_Kind : string; ref_Name : string }.

Record EntitlementRef := mkEntitlementRef { ent_Claim : string; ent_Value : string }.

Record TargetScope := mkTargetScope {
  ts_Project : string;
  ts_Component : string;
  ts_Resource : string;
}.

Record RoleMapping := mkRoleMapping {
  rm_RoleRef : BindingRoleRef;
  rm_Scope : TargetScope;
  rm_Conditions : list AuthzCondition;
}.

Record AuthzRoleBinding := mkAuthzRoleBinding {
  arb_meta : ObjectMeta;
  arb_Entitlement : EntitlementRef;
  arb_RoleMappings : list RoleMapping;
  arb_Effect : string;
}.

Record ClusterTargetScope := mkClusterTargetScope {
  cts_Namespace : string;
  cts_Project : string;
  cts_Component : string;
  cts_Resource : string;
}.

Record ClusterRoleMapping := mkClusterRoleMapping {
  crm_RoleRef : BindingRoleRef;
  crm_Scope : ClusterTargetScope;
  crm_Conditions : list AuthzCondition;
}.

Record ClusterAuthzRoleBinding := mkClusterAuthzRoleBinding {
  carb_meta : ObjectMeta;
  carb_Entitlement : EntitlementRef;
  carb_RoleMappings : list ClusterRoleMapping;
  carb_Effect : string;
}.

(** What an informer hands to a handler, an [interface{}]: one of the four
    kinds, a [cache.DeletedFinalStateUnknown] around an object, or a value of
    another type. *)
Inductive object :=
  | ObjRole (o : AuthzRole)
  | ObjClusterRole (o : ClusterAuthzRole)
  | ObjBinding (o : AuthzRoleBinding)
  | ObjClusterBinding (o : ClusterAuthzRoleBinding)
  | Tombstone (o : object)
  | ObjOther.

Definition CRDTypeAuthzRole : string := "AuthzRole".
Definition CRDTypeClusterAuthzRole : string := "ClusterAuthzRole".
Definition CRDTypeAuthzRoleBinding : string := "AuthzRoleBinding".
Definition CRDTypeClusterAuthzRoleBinding : string := "ClusterAuthzRoleBinding".

(** ** Diffs *)

Definition NUL : ascii := "000"%char.

Definition policyKey (policy : rule) : string := Join policy (String NUL "").

Definition policySet (policies : list rule) : gmap string rule :=
  foldl (λ m p, <[policyKey p := p]> m) ∅ policies.

(** The entries of a map whose key the other map lacks. *)
Definition missing_from `{MapRange} {A B} (m : gmap string A) (other : gmap string B)
    : list (string * A) :=
  List.filter (λ kv, match other !! kv.1 with Some _ => false | None => true end) (map_range m).

Definition computePolicyDiff `{MapRange} (oldPolicies newPolicies : list rule)
    : list rule * list rule :=
  let oldSet := policySet oldPolicies in
  let newSet := policySet newPolicies in
  let removed := snd <$> missing_from oldSet newSet in
  let added := snd <$> missing_from newSet oldSet in
  (added, removed).

Definition actionSet (actions : list string) : gmap string unit :=
  foldl (λ m a, <[a := ()]> m) ∅ actions.

Definition computeActionsDiff `{MapRange} (existingActions newActions : list string)
    : list string * list string :=
  let existingSet := actionSet existingActions in
  let newSet := actionSet newActions in
  let removed := fst <$> missing_from existingSet newSet in
  let added := fst <$> missing_from newSet existingSet in
  (added, removed).

(** ** Policy tuples *)

Section Watcher.
Context {E : Type} `{CELEngine, JSONCodec, !CasbinEnforcer E, MapRange}.

Definition role_tuples (meta : ObjectMeta) (actions : list string) (ns : string) : list rule :=
  (λ action, [om_Name meta; action; ns]) <$> actions.

(** The tuple of one role mapping of a namespaced binding. *)
Definition mappingTuple (subject effect : string) (meta : ObjectMeta) (m : RoleMapping)
    : result rule :=
  let resourcePath := resourceHierarchyToPath
    (mkHierarchy (om_Namespace meta) (ts_Project (rm_Scope m)) (ts_Component (rm_Scope m))
       (ts_Resource (rm_Scope m))) in
  let roleNamespace :=
    if String.eqb (ref_Kind (rm_RoleRef m)) CRDTypeClusterAuthzRole then "*"
    else om_Namespace meta in
  let? conditions := serializeAuthzConditions (rm_Conditions m) in
  Ok [subject; resourcePath; ref_Name (rm_RoleRef m); roleNamespace; effect; conditions;
      om_Name meta].

Definition clusterMappingTuple (subject effect : string) (meta : ObjectMeta)
    (m : ClusterRoleMapping) : result rule :=
  let scope := crm_Scope m in
  let resourcePath := resourceHierarchyToPath
    (mkHierarchy (cts_Namespace scope) (cts_Project scope) (cts_Component scope)
       (cts_Resource scope)) in
  let? conditions := serializeAuthzConditions (crm_Conditions m) in
  Ok [subject; resourcePath; ref_Name (crm_RoleRef m); "*"; effect; conditions; om_Name meta].

(** The prologue the three binding handlers share: the subject, the effect
    and the tuple of every mapping, each step failing with its own message. *)
Definition buildRules {A} (subjectErr effectErr conditionsErr : string) (ent : EntitlementRef)
    (effect : string) (tuple : string → string → A → result rule) (mappings : list A)
    : M E (list rule) :=
  subject ← wrapErr subjectErr (ofResult (formatSubject (ent_Claim ent) (ent_Value ent)));
  if String.eqb effect "" then ofResult (Err effectErr)
  else wrapErr conditionsErr (ofResult (result_map (tuple subject effect) mappings)).

Definition bindingRules (subjectErr effectErr : string) (b : AuthzRoleBinding) : M E (list rule) :=
  buildRules subjectErr effectErr
    ("failed to marshal conditions for binding " +:+ om_Name (arb_meta b))
    (arb_Entitlement b) (arb_Effect b)
    (λ subject effect, mappingTuple subject effect (arb_meta b)) (arb_RoleMappings b).

Definition clusterBindingRules (subjectErr effectErr conditionsErr : string)
    (b : ClusterAuthzRoleBinding) : M E (list rule) :=
  buildRules subjectErr effectErr (conditionsErr +:+ om_Name (carb_meta b))
    (carb_Entitlement b) (carb_Effect b)
    (λ subject effect, clusterMappingTuple subject effect (carb_meta b)) (carb_RoleMappings b).

(** ** Add *)

Definition handleAddRole (obj : object) : M E unit :=
  match obj with
  | ObjRole role =>
      let rules := role_tuples (ar_meta role) (ar_Actions role) (om_Namespace (ar_meta role)) in
      _ ← wrapErr ("failed to add grouping policies for role " +:+ om_Name (ar_meta role))
            (λ e, AddGroupingPoliciesEx e rules);
      mret ()
  | _ => mret ()
  end.

Definition handleAddClusterRole (obj : object) : M E unit :=
  match obj with
  | ObjClusterRole clusterRole =>
      let rules := role_tuples (car_meta clusterRole) (car_Actions clusterRole) "*" in
      _ ← wrapErr ("failed to add grouping policies for cluster role " +:+
                   om_Name (car_meta clusterRole))
            (λ e, AddGroupingPoliciesEx e rules);
      mret ()
  | _ => mret ()
  end.

Definition handleAddBinding (obj : object) : M E unit :=
  match obj with
  | ObjBinding binding =>
      let name := om_Name (arb_meta binding) in
      rules ← bindingRules "failed to format subject in handleAddBinding"
                ("effect not specified in binding " +:+ name) binding;
      _ ← wrapErr ("failed to add policies for binding " +:+ name) (λ e, AddPoliciesEx e rules);
      mret ()
  | _ => mret ()
  end.

Definition handleAddClusterBinding (obj : object) : M E unit :=
  match obj with
  | ObjClusterBinding binding =>
      let name := om_Name (carb_meta binding) in
      rules ← clusterBindingRules "failed to format subject in handleAddClusterBinding"
                ("effect not specified in cluster binding " +:+ name)
                "failed to marshal conditions for binding " binding;
      _ ← wrapErr ("failed to add policies for cluster binding " +:+ name)
            (λ e, AddPoliciesEx e rules);
      mret ()
  | _ => mret ()
  end.

Definition handleAdd (crdType : string) (obj : object) : M E unit :=
  if String.eqb crdType CRDTypeAuthzRole then handleAddRole obj
  else if String.eqb crdType CRDTypeClusterAuthzRole then handleAddClusterRole obj
  else if String.eqb crdType CRDTypeAuthzRoleBinding then handleAddBinding obj
  else if String.eqb crdType CRDTypeClusterAuthzRoleBinding then handleAddClusterBinding obj
  else mret ().

(** ** Update *)

(** Errors are logged: the loops run to their end. *)
Definition handleUpdateRole (oldObj newObj : object) : M E unit :=
  match oldObj, newObj with
  | ObjRole oldRole, ObjRole newRole =>
      let old := ar_meta oldRole in
      let new := ar_meta newRole in
      if Z.eqb (om_Generation old) (om_Generation new) then mret ()
      else
        let '(addedActions, removedActions) :=
          computeActionsDiff (ar_Actions oldRole) (ar_Actions newRole) in
        _ ← forEach (λ action, logErr (λ e,
              RemoveGroupingPolicy e [om_Name old; action; om_Namespace old])) removedActions;
        forEach (λ action, logErr (λ e,
          AddGroupingPolicy e [om_Name new; action; om_Namespace new])) addedActions
  | _, _ => mret ()
  end.

Definition handleUpdateClusterRole (oldObj newObj : object) : M E unit :=
  match oldObj, newObj with
  | ObjClusterRole oldRole, ObjClusterRole newRole =>
      let old := car_meta oldRole in
      let new := car_meta newRole in
      if Z.eqb (om_Generation old) (om_Generation new) then mret ()
      else
        let '(addedActions, removedActions) :=
          computeActionsDiff (car_Actions oldRole) (car_Actions newRole) in
        _ ← forEach (λ action,
              _ ← wrapErr "failed to remove old cluster grouping policy" (λ e,
                    RemoveGroupingPolicy e [om_Name old; action; "*"]);
              mret ()) removedActions;
        forEach (λ action,
          _ ← wrapErr "failed to add new cluster grouping policy" (λ e,
                AddGroupingPolicy e [om_Name new; action; "*"]);
          mret ()) addedActions
  | _, _ => mret ()
  end.

(** The epilogue of the two binding updates: apply only the delta. *)
Definition applyPolicyDiff (removeErr addErr : string) (oldPolicies newPolicies : list rule)
    : M E unit :=
  let '(added, removed) := computePolicyDiff oldPolicies newPolicies in
  _ ← (match removed with
       | [] => mret true
       | _ => wrapErr removeErr (λ e, RemovePolicies e removed)
       end);
  _ ← (match added with
       | [] => mret true
       | _ => wrapErr addErr (λ e, AddPoliciesEx e added)
       end);
  mret ().

Definition handleUpdateBinding (oldObj newObj : object) : M E unit :=
  match oldObj, newObj with
  | ObjBinding oldBinding, ObjBinding newBinding =>
      if Z.eqb (om_Generation (arb_meta oldBinding)) (om_Generation (arb_meta newBinding))
      then mret ()
      else
        oldPolicies ← bindingRules "failed to format old subject"
                        "old binding effect not specified" oldBinding;
        newPolicies ← bindingRules "failed to format new subject"
                        "new binding effect not specified" newBinding;
        applyPolicyDiff "failed to remove old binding policies"
          "failed to add new binding policies" oldPolicies newPolicies
  | _, _ => mret ()
  end.

Definition handleUpdateClusterBinding (oldObj newObj : object) : M E unit :=
  match oldObj, newObj with
  | ObjClusterBinding oldBinding, ObjClusterBinding newBinding =>
      let old := carb_meta oldBinding in
      let new := carb_meta newBinding in
      if Z.eqb (om_Generation old) (om_Generation new) then mret ()
      else
        oldPolicies ← clusterBindingRules "failed to format old subject"
                        ("effect not specified in cluster binding " +:+ om_Name old)
                        "failed to marshal conditions for cluster binding " oldBinding;
        newPolicies ← clusterBindingRules "failed to format new subject"
                        ("effect not specified in cluster binding " +:+ om_Name new)
                        "failed to marshal conditions for cluster binding " newBinding;
        applyPolicyDiff "failed to remove old cluster binding policies"
          "failed to add new cluster binding policies" oldPolicies newPolicies
  | _, _ => mret ()
  end.

Definition handleUpdate (crdType : string) (oldObj newObj : object) : M E unit :=
  if String.eqb crdType CRDTypeAuthzRole then handleUpdateRole oldObj newObj
  else if String.eqb crdType CRDTypeClusterAuthzRole then handleUpdateClusterRole oldObj newObj
  else if String.eqb crdType CRDTypeAuthzRoleBinding then handleUpdateBinding oldObj newObj
  else if String.eqb crdType CRDTypeClusterAuthzRoleBinding
  then handleUpdateClusterBinding oldObj newObj
  else mret ().

(** ** Delete *)

Definition handleDeleteRole (obj : object) : M E unit :=
  match obj with
  | ObjRole role =>
      forEach (λ action,
        _ ← wrapErr "failed to remove grouping policy" (λ e,
              RemoveGroupingPolicy e
                [om_Name (ar_meta role); action; om_Namespace (ar_meta role)]);
        mret ()) (ar_Actions role)
  | _ => mret ()
  end.

Definition handleDeleteClusterRole (obj : object) : M E unit :=
  match obj with
  | ObjClusterRole clusterRole =>
      forEach (λ action,
        _ ← wrapErr "failed to remove cluster grouping policy" (λ e,
              RemoveGroupingPolicy e [om_Name (car_meta clusterRole); action; "*"]);
        mret ()) (car_Actions clusterRole)
  | _ => mret ()
  end.

Definition handleDeleteBinding (obj : object) : M E unit :=
  match obj with
  | ObjBinding binding =>
      let name := om_Name (arb_meta binding) in
      rules ← bindingRules ("failed to format subject in binding " +:+ name)
                ("effect not specified in binding " +:+ name) binding;
      _ ← wrapErr "failed to remove binding policies" (λ e, RemovePolicies e rules);
      mret ()
  | _ => mret ()
  end.

Definition handleDeleteClusterBinding (obj : object) : M E unit :=
  match obj with
  | ObjClusterBinding binding =>
      let name := om_Name (carb_meta binding) in
      rules ← clusterBindingRules ("failed to format subject in cluster binding " +:+ name)
                ("effect not specified in cluster binding " +:+ name)
                "failed to marshal conditions for cluster binding " binding;
      _ ← wrapErr "failed to remove cluster binding policies" (λ e, RemovePolicies e rules);
      mret ()
  | _ => mret ()
  end.

(** One tombstone is unwrapped. *)
Definition handleDelete (crdType : string) (obj : object) : M E unit :=
  let obj := match obj with Tombstone o => o | _ => obj end in
  if String.eqb crdType CRDTypeAuthzRole then handleDeleteRole obj
  else if String.eqb crdType CRDTypeClusterAuthzRole then handleDeleteClusterRole obj
  else if String.eqb crdType CRDTypeAuthzRoleBinding then handleDeleteBinding obj
  else if String.eqb crdType CRDTypeClusterAuthzRoleBinding then handleDeleteClusterBinding obj
  else mret ().

(** ** The informer callbacks: errors are logged *)

Definition OnAdd (crdType : string) (obj : object) (e : E) : E := (handleAdd crdType obj e).1.

Definition OnUpdate (crdType : string) (oldObj newObj : object) (e : E) : E :=
  (handleUpdate crdType oldObj newObj e).1.

Definition OnDelete (crdType : string) (obj : object) (e : E) : E := (handleDelete crdType obj e).1.

End Watcher.
