(* ===== verification/AuthzReach.v ===== *)
(** * From the cluster's objects to a decision

    The informer events as a step relation over the enforcer and the live
    objects, the invariant that the enforcer's rules are the tuples of the
    live objects, and what it gives [Evaluate]: a decision that can be read
    off the roles and bindings of the cluster. *)

From S2P Require Import Prelude GoStrings AuthzCore AuthzMatch AuthzActions AuthzConditions.
From S2P Require Import AuthzPDP AuthzWatcher AuthzSync.

Open Scope go_scope.

(** ** Live objects *)

(** Kind, namespace (empty for a cluster-scoped kind) and name. *)
Abbreviation object_id := (string * string * string)%type.

Definition object_key (o : object) : object_id :=
  (object_kind o,
   (if String.eqb (object_kind o) CRDTypeAuthzRole || String.eqb (object_kind o) CRDTypeAuthzRoleBinding
    then om_Namespace (object_meta o) else ""),
   om_Name (object_meta o)).

Abbreviation world := (gmap object_id object).

Section Reach.
Context {E : Type} `{CELEngine, JSONCodec, !CasbinEnforcer E, !CasbinLaws E, MapRangeLaws}.

(** No namespaced binding shares its name with a cluster binding. *)
Definition names_apart (w : world) : Prop :=
  ∀ k1 k2 b c, w !! k1 = Some (ObjBinding b) → w !! k2 = Some (ObjClusterBinding c) →
    om_Name (arb_meta b) ≠ om_Name (carb_meta c).

Record world_wf (w : world) : Prop := {
  wf_key : ∀ k o, w !! k = Some o → object_key o = k;
  wf_admitted : ∀ k o, w !! k = Some o → admitted o;
  wf_names : names_apart w;
}.

(** The informers of the four kinds: an event changes the live objects and
    calls the handler of the object's kind. A deletion may arrive as a
    tombstone. *)
Inductive informer_step : E * world → E * world → Prop :=
  | step_add e w o :
      w !! object_key o = None → world_wf (<[object_key o := o]> w) →
      informer_step (e, w) (OnAdd (object_kind o) o e, <[object_key o := o]> w)
  | step_update e w old new :
      w !! object_key old = Some old → updates old new → world_wf (<[object_key old := new]> w) →
      informer_step (e, w) (OnUpdate (object_kind old) old new e, <[object_key old := new]> w)
  | step_delete e w o :
      w !! object_key o = Some o →
      informer_step (e, w) (OnDelete (object_kind o) o e, delete (object_key o) w)
  | step_delete_unknown e w o :
      w !! object_key o = Some o →
      informer_step (e, w) (OnDelete (object_kind o) (Tombstone o) e, delete (object_key o) w).

(** The enforcer's rules are the tuples of the live objects. *)
Definition synced (e : E) (w : world) : Prop :=
  (∀ p, p ∈ GetPolicy e ↔ ∃ k o, w !! k = Some o ∧ p ∈ policy_tuples o) ∧
  (∀ p, p ∈ GetGroupingPolicy e ↔ ∃ k o, w !! k = Some o ∧ p ∈ grouping_tuples o).

(** ** Tuples of different objects differ *)

Lemma scope_path_namespace h h' :
  hier_wf h → hier_wf h' → Namespace h ≠ "" →
  resourceHierarchyToPath h = resourceHierarchyToPath h' → Namespace h = Namespace h'.
Proof.
  intros Hwf Hwf' Hn Heq. apply (f_equal (Split "/")) in Heq.
  rewrite !Split_hierarchy_path in Heq by done. unfold hier_segments in Heq.
  rewrite (proj2 (String.eqb_neq _ _) Hn) in Heq.
  destruct (String.eqb_spec (Namespace h') ""); [done|]. by injection Heq.
Qed.

Lemma binding_tuples_same_key b b' p :
  admitted (ObjBinding b) → admitted (ObjBinding b') →
  p ∈ policy_tuples (ObjBinding b) → p ∈ policy_tuples (ObjBinding b') →
  object_key (ObjBinding b) = object_key (ObjBinding b').
Proof.
  intros Ab Ab' (m & raw & Hm & _ & ->)%binding_tuple_elem (m' & raw' & Hm' & _ & Heq)%binding_tuple_elem.
  injection Heq as _ Hpath _ _ _ _ Hname. unfold object_key. simpl. rewrite Hname. do 2 f_equal.
  destruct (adm_ns _ Ab) as [[Hne _] _]; [by right|].
  pose proof (adm_scopes _ Ab) as Hs. pose proof (adm_scopes _ Ab') as Hs'. simpl in Hs, Hs'.
  rewrite Forall_fmap, Forall_forall in Hs, Hs'.
  by apply (scope_path_namespace _ _ (Hs m Hm) (Hs' m' Hm')).
Qed.

Lemma policy_tuples_disjoint w k1 k2 o1 o2 p :
  world_wf w → w !! k1 = Some o1 → w !! k2 = Some o2 →
  p ∈ policy_tuples o1 → p ∈ policy_tuples o2 → k1 = k2.
Proof.
  intros [Hk Ha Hn] H1' H2' Hp1 Hp2. rewrite <- (Hk _ _ H1'), <- (Hk _ _ H2').
  assert (om_Name (object_meta o1) = om_Name (object_meta o2)) as Hname.
  { apply policy_tuple_name in Hp1, Hp2. congruence. }
  destruct o1 as [| |b1|c1| |]; try by apply elem_of_nil in Hp1.
  all: destruct o2 as [| |b2|c2| |]; try by apply elem_of_nil in Hp2.
  - by apply (binding_tuples_same_key _ _ p); eauto.
  - by destruct (Hn _ _ _ _ H1' H2').
  - by destruct (Hn _ _ _ _ H2' H1').
  - simpl in Hname. unfold object_key. simpl. by rewrite Hname.
Qed.

Lemma grouping_tuples_disjoint w k1 k2 o1 o2 p :
  world_wf w → w !! k1 = Some o1 → w !! k2 = Some o2 →
  p ∈ grouping_tuples o1 → p ∈ grouping_tuples o2 → k1 = k2.
Proof.
  intros [Hk Ha Hn] H1' H2' Hp1 Hp2. rewrite <- (Hk _ _ H1'), <- (Hk _ _ H2').
  destruct o1 as [r1|c1| | | |]; try by apply elem_of_nil in Hp1.
  all: destruct o2 as [r2|c2| | | |]; try by apply elem_of_nil in Hp2.
  all: apply list_elem_of_fmap in Hp1 as (a1 & -> & _); apply list_elem_of_fmap in Hp2 as (a2 & Heq & _).
  - unfold object_key. simpl. congruence.
  - destruct (adm_ns _ (Ha _ _ H1')) as [_ Hstar]; [by left|]. simpl in Hstar. congruence.
  - destruct (adm_ns _ (Ha _ _ H2')) as [_ Hstar]; [by left|]. simpl in Hstar. congruence.
  - unfold object_key. simpl. congruence.
Qed.

(** ** Every event keeps the enforcer in step *)

Context (Hok : calls_succeed).

Lemma delta_insert (tuples : object → list rule) (w : world) l l' k old new :
  (∀ k1 k2 o1 o2 p, w !! k1 = Some o1 → w !! k2 = Some o2 →
    p ∈ tuples o1 → p ∈ tuples o2 → k1 = k2) →
  w !! k = Some old → (∀ p, p ∈ l ↔ ∃ k o, w !! k = Some o ∧ p ∈ tuples o) →
  delta l (tuples old) (concat (tuples <$> new)) l' →
  ∀ p, p ∈ l' ↔ (∃ k' o, delete k w !! k' = Some o ∧ p ∈ tuples o) ∨ p ∈ concat (tuples <$> new).
Proof.
  intros Hdis Hold Hl Hd p. rewrite (Hd p), Hl. apply or_iff_compat_r. split.
  - intros [(k' & o & Ho & Hp) Hnp]. exists k', o. rewrite lookup_delete_ne; [done|].
    intros <-. rewrite Hold in Ho. by injection Ho as <-.
  - intros (k' & o & [Hne Ho]%lookup_delete_Some & Hp). split; [eauto|].
    intros Hp'. by apply Hne, (Hdis k k' old o p).
Qed.

Lemma synced_delta e w e' (old : object) k new :
  world_wf w → synced e w → w !! k = Some old → store_delta e [old] new e' →
  (∀ p, p ∈ GetPolicy e' ↔
    (∃ k' o, delete k w !! k' = Some o ∧ p ∈ policy_tuples o) ∨ p ∈ concat (policy_tuples <$> new)) ∧
  (∀ p, p ∈ GetGroupingPolicy e' ↔
    (∃ k' o, delete k w !! k' = Some o ∧ p ∈ grouping_tuples o) ∨
    p ∈ concat (grouping_tuples <$> new)).
Proof.
  intros Hwf [Sp Sg] Hold [Dp Dg]. cbn [fmap list_fmap concat] in Dp, Dg.
  rewrite !app_nil_r in Dp, Dg. split.
  - refine (delta_insert policy_tuples w _ _ k old new _ Hold Sp Dp).
    intros *. by apply policy_tuples_disjoint.
  - refine (delta_insert grouping_tuples w _ _ k old new _ Hold Sg Dg).
    intros *. by apply grouping_tuples_disjoint.
Qed.

Lemma synced_present e w k o :
  synced e w → w !! k = Some o →
  (∀ p, p ∈ policy_tuples o → p ∈ GetPolicy e) ∧
  (∀ p, p ∈ grouping_tuples o → p ∈ GetGroupingPolicy e).
Proof. intros [Sp Sg] Ho. split; intros p Hp; [apply Sp|apply Sg]; eauto. Qed.

Lemma exists_insert (tuples : object → list rule) (w : world) k o p :
  w !! k = None →
  (∃ k' o', <[k := o]> w !! k' = Some o' ∧ p ∈ tuples o') ↔
  (∃ k' o', w !! k' = Some o' ∧ p ∈ tuples o') ∨ p ∈ tuples o.
Proof.
  intros Hk. split.
  - intros (k' & o' & [[_ ->]|[Hne Ho]]%lookup_insert_Some & Hp); [by right|left; eauto].
  - intros [(k' & o' & Ho & Hp)|Hp].
    + exists k', o'. rewrite lookup_insert_ne; [done|]. intros <-. congruence.
    + exists k, o. by rewrite lookup_insert_eq.
Qed.

Lemma world_wf_delete w k : world_wf w → world_wf (delete k w).
Proof.
  intros [Hk Ha Hn]. split.
  - intros k' o [_ Ho]%lookup_delete_Some. eauto.
  - intros k' o [_ Ho]%lookup_delete_Some. eauto.
  - intros k1 k2 b c [_ Hb]%lookup_delete_Some [_ Hc]%lookup_delete_Some. eauto.
Qed.

Lemma deleted_synced e w o e' :
  world_wf w → synced e w → w !! object_key o = Some o → store_delta e [o] [] e' →
  synced e' (delete (object_key o) w).
Proof.
  intros Hwf Hs Ho Hd.
  destruct (synced_delta e w e' o (object_key o) [] Hwf Hs Ho Hd) as [Hp Hg].
  split; intros p; [rewrite Hp|rewrite Hg]; cbn [fmap list_fmap concat]; set_solver.
Qed.

Lemma informer_step_synced s s' :
  informer_step s s' → world_wf s.2 → synced s.1 s.2 → world_wf s'.2 ∧ synced s'.1 s'.2.
Proof.
  intros Hstep Hwf Hs.
  destruct Hstep as [e w o Hnew Hwf'|e w old new Hold Hu Hwf'|e w o Ho|e w o Ho]; simpl in *.
  - split; [done|].
    destruct (handleAdd_runs Hok o e) as [_ [Dp Dg]]; [by apply (wf_admitted _ Hwf' (object_key o)), lookup_insert_eq|].
    cbn [fmap list_fmap concat] in Dp, Dg. rewrite !app_nil_r in Dp, Dg. destruct Hs as [Sp Sg].
    split; intros p; rewrite exists_insert by done; [rewrite (Dp p), Sp|rewrite (Dg p), Sg];
      set_solver.
  - split; [done|]. destruct (synced_present _ _ _ _ Hs Hold) as [Pp Pg].
    pose proof (wf_admitted _ Hwf _ _ Hold) as Ao.
    assert (admitted new) as An by (apply (wf_admitted _ Hwf' (object_key old)), lookup_insert_eq).
    destruct (handleUpdate_runs Hok old new e Hu (conj Ao An) Pp Pg) as [_ Hd].
    destruct (synced_delta e w _ old (object_key old) [new] Hwf Hs Hold Hd) as [Hp Hg].
    cbn [fmap list_fmap concat] in Hp, Hg. rewrite <- insert_delete_eq.
    split; intros p; rewrite exists_insert by apply lookup_delete_eq; rewrite app_nil_r in Hp, Hg;
      [apply Hp|apply Hg].
  - split; [by apply world_wf_delete|]. apply (deleted_synced e); [done..|].
    destruct (synced_present _ _ _ _ Hs Ho) as [Pp Pg].
    by apply (handleDelete_runs Hok o e (wf_admitted _ Hwf _ _ Ho)).
  - split; [by apply world_wf_delete|]. apply (deleted_synced e); [done..|].
    destruct (synced_present _ _ _ _ Hs Ho) as [Pp Pg].
    pose proof (wf_admitted _ Hwf _ _ Ho) as Ao. pose proof (adm_kind _ Ao) as Hk.
    destruct (handleDelete_runs Hok o e Ao Pp) as [_ Hd]. by destruct o.
Qed.

(** The states the informers can reach from an enforcer without rules. *)
Definition reachable (s : E * world) : Prop :=
  ∃ e0, GetPolicy e0 = [] ∧ GetGroupingPolicy e0 = [] ∧ rtc informer_step (e0, ∅) s.

Lemma world_wf_empty : world_wf ∅.
Proof. split; [intros *..|intros k1 k2 b c]; by rewrite lookup_empty. Qed.

Lemma synced_empty e0 : GetPolicy e0 = [] → GetGroupingPolicy e0 = [] → synced e0 ∅.
Proof.
  intros Hp Hg. split; intros p; [rewrite Hp|rewrite Hg];
    (split; [by intros ?%elem_of_nil|by intros (k & o & Ho & _); rewrite lookup_empty in Ho]).
Qed.

Lemma reachable_synced e w : reachable (e, w) → world_wf w ∧ synced e w.
Proof.
  intros (e0 & Hp0 & Hg0 & Hsteps).
  enough (∀ s s', rtc informer_step s s' → world_wf s.2 → synced s.1 s.2 →
    world_wf s'.2 ∧ synced s'.1 s'.2) as Hind.
  { apply (Hind _ _ Hsteps); [apply world_wf_empty|by apply synced_empty]. }
  intros s s' Hss. induction Hss as [s|s1 s2 s3 Hstep _ IH]; intros Hwf Hs; [done|].
  destruct (informer_step_synced _ _ Hstep Hwf Hs). by apply IH.
Qed.


(** ** A decision read off the cluster *)

(** A live role of that name and namespace ("*" for a cluster role) lists an
    action pattern that matches. *)
Inductive role_grants (w : world) (name ns act : string) : Prop :=
  | grants_role k r pat :
      w !! k = Some (ObjRole r) → om_Name (ar_meta r) = name → om_Namespace (ar_meta r) = ns →
      pat ∈ ar_Actions r → actionMatch act pat = true → role_grants w name ns act
  | grants_cluster_role k r pat :
      w !! k = Some (ObjClusterRole r) → om_Name (car_meta r) = name → ns = "*" →
      pat ∈ car_Actions r → actionMatch act pat = true → role_grants w name ns act.

(** A mapping of a live binding of that effect applies to the request. *)
Inductive applies (w : world) (eff sub : string) (h : ResourceHierarchy) (act : string)
    (ctx : Context) : Prop :=
  | applies_binding k b m :
      w !! k = Some (ObjBinding b) → m ∈ arb_RoleMappings b →
      subject_of (arb_Entitlement b) = sub → arb_Effect b = eff →
      hier_ancestor (scope_of (arb_meta b) m) h →
      role_grants w (ref_Name (rm_RoleRef m))
        (if String.eqb (ref_Kind (rm_RoleRef m)) CRDTypeClusterAuthzRole then "*"
         else om_Namespace (arb_meta b)) act →
      conditions_hold ctx act eff (rm_Conditions m) = true →
      applies w eff sub h act ctx
  | applies_cluster_binding k b m :
      w !! k = Some (ObjClusterBinding b) → m ∈ carb_RoleMappings b →
      subject_of (carb_Entitlement b) = sub → carb_Effect b = eff →
      hier_ancestor (cluster_scope_of m) h →
      role_grants w (ref_Name (crm_RoleRef m)) "*" act →
      conditions_hold ctx act eff (crm_Conditions m) = true →
      applies w eff sub h act ctx.

Lemma gLink_role_grants e w name act ns :
  synced e w → gLink (GetGroupingPolicy e) name act ns = true ↔ role_grants w name ns act.
Proof.
  intros [_ Sg]. unfold gLink. rewrite existsb_elem. setoid_rewrite Sg. split.
  - intros (p & (k & o & Ho & Hp) & Hm).
    destruct o as [r|r| | | |]; try by apply elem_of_nil in Hp.
    all: apply list_elem_of_fmap in Hp as (a & -> & Ha); bool_simpl; rewrite roleActionMatchWrapper_eq in *; subst.
    + by eapply grants_role.
    + by eapply grants_cluster_role.
  - intros [k r pat Hr Hn Hns Hpat Hm|k r pat Hr Hn Hns Hpat Hm].
    + exists [name; pat; ns]. rewrite !String.eqb_refl, roleActionMatchWrapper_eq, Hm. split; [|done].
      exists k, (ObjRole r). split; [done|]. apply list_elem_of_fmap. exists pat. by subst.
    + exists [name; pat; ns]. rewrite !String.eqb_refl, roleActionMatchWrapper_eq, Hm. split; [|done].
      exists k, (ObjClusterRole r). split; [done|]. apply list_elem_of_fmap. exists pat. by subst.
Qed.

Context `{!JSONCodecLaws}.

(** When one tuple decides for a request. *)
Lemma matcher_tuple e w eff sub h act ctx s hs role ns eff' conds raw n p :
  synced e w → hier_wf h → hier_wf hs → serializeAuthzConditions conds = Ok raw →
  p = [s; resourceHierarchyToPath hs; role; ns; eff'; raw; n] →
  matcher (GetGroupingPolicy e) sub (resourceHierarchyToPath h) act (MarshalContext ctx) p &&
    String.eqb (rule_effect p) eff = true ↔
  s = sub ∧ eff' = eff ∧ hier_ancestor hs h ∧ role_grants w role ns act ∧
  conditions_hold ctx act eff conds = true.
Proof.
  intros Hs Hh Hhs Hraw ->. simpl.
  rewrite !andb_true_iff, !String.eqb_eq, (resourceMatch_ancestor hs h), (gLink_role_grants e w),
    (ConditionMatcher_serialized _ _ _ conds) by done.
  unfold rule_effect. simpl. naive_solver.
Qed.

Lemma matcher_applies e w eff sub h act ctx :
  world_wf w → synced e w → hier_wf h →
  existsb (λ p, matcher (GetGroupingPolicy e) sub (resourceHierarchyToPath h) act
                  (MarshalContext ctx) p && String.eqb (rule_effect p) eff) (GetPolicy e) = true ↔
  applies w eff sub h act ctx.
Proof.
  intros Hwf Hs Hh. rewrite existsb_elem. pose proof (proj1 Hs) as Sp. setoid_rewrite Sp.
  assert (∀ k o hs, w !! k = Some o → hs ∈ object_scopes o → hier_wf hs) as Hsc.
  { intros k o hs Ho. apply Forall_forall, (adm_scopes _ (wf_admitted _ Hwf _ _ Ho)). }
  split.
  - intros (p & (k & o & Ho & Hp) & Hm). specialize (Hsc k o).
    destruct o as [| |b|b| |]; try by apply elem_of_nil in Hp.
    + apply binding_tuple_elem in Hp as (m & raw & Hin & Hraw & Hp).
      eapply (matcher_tuple e w) in Hm as (? & ? & ? & ? & ?);
        [by eapply applies_binding|done..| |exact Hraw|exact Hp].
      apply Hsc; [done|]. by apply list_elem_of_fmap_2.
    + apply cluster_binding_tuple_elem in Hp as (m & raw & Hin & Hraw & Hp).
      eapply (matcher_tuple e w) in Hm as (? & ? & ? & ? & ?);
        [by eapply applies_cluster_binding|done..| |exact Hraw|exact Hp].
      apply Hsc; [done|]. by apply list_elem_of_fmap_2.
  - assert (∀ conds, ∃ raw, serializeAuthzConditions conds = Ok raw) as Hser by (intros []; by eexists).
    intros [k b m Ho Hin Hsub Heff Hanc Hrole Hcond|k b m Ho Hin Hsub Heff Hanc Hrole Hcond].
    + destruct (Hser (rm_Conditions m)) as [raw Hraw]. eexists. split.
      * exists k, (ObjBinding b). split; [done|]. apply binding_tuple_elem. by exists m, raw.
      * eapply (matcher_tuple e w); [done|done| |exact Hraw|done|done].
        eapply Hsc; [done|]. by apply list_elem_of_fmap_2.
    + destruct (Hser (crm_Conditions m)) as [raw Hraw]. eexists. split.
      * exists k, (ObjClusterBinding b). split; [done|]. apply cluster_binding_tuple_elem. by exists m, raw.
      * eapply (matcher_tuple e w); [done|done| |exact Hraw|done|done].
        eapply Hsc; [done|]. by apply list_elem_of_fmap_2.
Qed.


(** ** Two bindings that share a tuple *)

(** A namespaced binding and a cluster binding of the same name that give the
    same entitlement the same cluster role in the same namespace. *)
Definition viewer_ref : BindingRoleRef := mkBindingRoleRef CRDTypeClusterAuthzRole "viewer".

Definition acme_binding : AuthzRoleBinding :=
  mkAuthzRoleBinding (mkObjectMeta "dev-view" "acme" 1) (mkEntitlementRef "groups" "dev")
    [mkRoleMapping viewer_ref (mkTargetScope "" "" "") []] PolicyEffectAllow.

Definition acme_cluster_binding : ClusterAuthzRoleBinding :=
  mkClusterAuthzRoleBinding (mkObjectMeta "dev-view" "" 1) (mkEntitlementRef "groups" "dev")
    [mkClusterRoleMapping viewer_ref (mkClusterTargetScope "acme" "" "" "") []] PolicyEffectAllow.

Definition acme_tuple : rule :=
  ["groups:dev"; "ns/acme"; "viewer"; "*"; PolicyEffectAllow; "{}"; "dev-view"].

Lemma acme_tuples :
  policy_tuples (ObjBinding acme_binding) = [acme_tuple] ∧
  policy_tuples (ObjClusterBinding acme_cluster_binding) = [acme_tuple].
Proof. split; vm_compute; reflexivity. Qed.

Lemma acme_admitted : admitted (ObjBinding acme_binding) ∧ admitted (ObjClusterBinding acme_cluster_binding).
Proof.
  destruct acme_tuples as [Hb Hc]. split; constructor.
  - done.
  - intros _. by repeat split.
  - by repeat split.
  - repeat constructor; done.
  - intros p. rewrite Hb. intros ->%list_elem_of_singleton. repeat constructor.
  - done.
  - by intros [?|?].
  - by repeat split.
  - repeat constructor; done.
  - intros p. rewrite Hc. intros ->%list_elem_of_singleton. repeat constructor.
Qed.

(** The tuple does not say whether its binding is namespaced, so that the
    two bindings share one rule: after both are created and the cluster
    binding is deleted, the live namespaced binding has no rule left. *)
Theorem binding_collision_revokes e :
  let e1 := OnAdd CRDTypeAuthzRoleBinding (ObjBinding acme_binding) e in
  let e2 := OnAdd CRDTypeClusterAuthzRoleBinding (ObjClusterBinding acme_cluster_binding) e1 in
  let e3 := OnDelete CRDTypeClusterAuthzRoleBinding (ObjClusterBinding acme_cluster_binding) e2 in
  acme_tuple ∈ policy_tuples (ObjBinding acme_binding) ∧
  acme_tuple ∈ GetPolicy e1 ∧ acme_tuple ∈ GetPolicy e2 ∧ acme_tuple ∉ GetPolicy e3.
Proof.
  intros e1 e2 e3. destruct acme_tuples as [Hb Hc]. destruct acme_admitted as [Ab Ac].
  destruct (handleAdd_runs Hok _ e Ab) as [_ [D1 _]]. fold (OnAdd CRDTypeAuthzRoleBinding (ObjBinding acme_binding) e) in D1.
  destruct (handleAdd_runs Hok _ e1 Ac) as [_ [D2 _]].
  destruct (handleDelete_runs Hok _ e2 Ac) as [_ [D3 _]];
    cbn [fmap list_fmap concat] in D1, D2; try cbn [fmap list_fmap concat] in D3;
    rewrite ?Hb, ?Hc in *; simpl in D1, D2.
  - intros p Hp. apply D2. by right.
  - simpl in D3. split_and!; [by left|apply D1; right; by left|apply D2; right; by left|].
    intros Hin. apply D3 in Hin as [[_ Hn]|Hn]; [|by apply elem_of_nil in Hn].
    apply Hn. by left.
Qed.
End Reach.
