(* ===== verification/AuthzWitness.v ===== *)
(** * A concrete instance of the interfaces, and the theorems at work on it

    An in-memory enforcer, a JSON codec and a small condition language satisfy
    the laws the theorems assume; the witnesses apply the theorems to concrete
    stores and requests. *)

From S2P Require Import Prelude GoStrings AuthzCore AuthzMatch AuthzActions AuthzConditions.
From S2P Require Import AuthzPDP AuthzProfileSpec AuthzProfileLink AuthzWatcher.
From S2P Require Import AuthzSync AuthzReach.

Open Scope go_scope.

(** ** The instance *)

#[global] Instance ResourceAttribute_eq_dec : EqDecision ResourceAttribute.
Proof. solve_decision. Defined.

#[global] Instance Context_eq_dec : EqDecision Context.
Proof. solve_decision. Defined.

#[global] Program Instance Context_countable : Countable Context :=
  inj_countable' (λ c, let r := CtxResource c in
      (Environment r, ComponentType r, ResourceType r, Workflow r))
    (λ '(e, c, r, w), mkContext (mkResourceAttribute e c r w)) _.
Next Obligation. by intros [[]]. Qed.

#[global] Program Instance AuthzCondition_countable : Countable AuthzCondition :=
  inj_countable' (λ c, (CondActions c, Expression c)) (λ '(a, e), mkAuthzCondition a e) _.
Next Obligation. by intros []. Qed.

(** Numbers as text stand for the documents. *)
Definition number_text `{Countable A} (a : A) : string := pretty (Npos (encode a)).

Definition text_number `{Countable A} (s : string) : option A :=
  match parse_digits 0 s with
  | Some (Npos p) => decode p
  | _ => None
  end.

Lemma text_number_text `{Countable A} (a : A) : text_number (number_text a) = Some a.
Proof. unfold text_number, number_text. by rewrite parse_digits_pretty, decode_encode. Qed.

#[global] Instance sample_codec : JSONCodec := {
  MarshalContext := number_text;
  UnmarshalContext := text_number;
  MarshalConditions cs := String "[" (number_text cs);
  UnmarshalConditions s := match s with String "[" t => text_number t | _ => None end;
}.

#[global] Instance sample_codec_laws : JSONCodecLaws.
Proof.
  split.
  - intros c. apply text_number_text.
  - intros cs. apply text_number_text.
  - intros cs. by eexists.
Qed.

(** An expression is the name of an environment: it holds on requests whose
    resource is in it.  ["?"] does not compile. *)
#[global] Instance sample_cel : CELEngine := {
  CELAst := string;
  CELProgram := string;
  GetCELEnv := Ok ();
  EnvCompile expr := if String.eqb expr "?" then Err "syntax error" else Ok expr;
  EnvProgram ast := Ok ast;
  ProgramEval prg act :=
    match act !! "resource" ≫= (.!! "environment") with
    | Some (AttrString env) => Ok (CELBool (String.eqb env prg))
    | _ => Err "no such attribute"
    end;
}.

#[global] Instance sample_range : MapRange := λ A m, map_to_list m.
#[global] Instance sample_range_laws : MapRangeLaws.
Proof. intros A m. done. Qed.

Record store := mkStore { st_policies : list rule; st_groupings : list rule }.

Definition add_rules (l rules : list rule) : list rule :=
  foldl (λ l r, if decide (r ∈ l) then l else l ++ [r]) l rules.

Definition remove_rules (l rules : list rule) : list rule :=
  List.filter (λ r, negb (bool_decide (r ∈ rules))) l.

Lemma add_rules_elem l rules p : p ∈ add_rules l rules ↔ p ∈ l ∨ p ∈ rules.
Proof.
  revert l. induction rules as [|r rules IH]; intros l; simpl; [set_solver|].
  rewrite IH. case_decide; set_solver.
Qed.

Lemma remove_rules_elem l rules p : p ∈ remove_rules l rules ↔ p ∈ l ∧ p ∉ rules.
Proof.
  unfold remove_rules. rewrite list_elem_of_In, List.filter_In, <- list_elem_of_In.
  by rewrite negb_true_iff, bool_decide_eq_false.
Qed.

#[global] Instance sample_enforcer : CasbinEnforcer store := {
  GetPolicy := st_policies;
  GetGroupingPolicy := st_groupings;
  Enforce e sub resource act ctx :=
    Ok (policyEffect (st_policies e) (st_groupings e) sub resource act ctx);
  GetFilteredPolicy e sub :=
    Ok (List.filter (λ p, bool_decide (p !! 0 = Some sub)) (st_policies e));
  GetFilteredGroupingPolicy e role ns :=
    Ok (List.filter (λ p, bool_decide (p !! 0 = Some role ∧ p !! 2 = Some ns)) (st_groupings e));
  AddPoliciesEx e rules := (mkStore (add_rules (st_policies e) rules) (st_groupings e), Ok true);
  RemovePolicies e rules := (mkStore (remove_rules (st_policies e) rules) (st_groupings e), Ok true);
  AddGroupingPoliciesEx e rules :=
    (mkStore (st_policies e) (add_rules (st_groupings e) rules), Ok true);
  AddGroupingPolicy e r := (mkStore (st_policies e) (add_rules (st_groupings e) [r]), Ok true);
  RemoveGroupingPolicy e r :=
    (mkStore (st_policies e) (remove_rules (st_groupings e) [r]), Ok true);
}.

#[global] Instance sample_enforcer_laws : CasbinLaws store.
Proof.
  split; intros e *.
  - by intros [= <-].
  - by intros [= <-].
  - by intros [= <-].
  - intros [= <- <-]; cbn [GetPolicy GetGroupingPolicy sample_enforcer st_policies st_groupings];
    setoid_rewrite add_rules_elem; set_solver.
  - intros [= <- <-]; cbn [GetPolicy GetGroupingPolicy sample_enforcer st_policies st_groupings];
    setoid_rewrite remove_rules_elem; set_solver.
  - intros [= <- <-]; cbn [GetPolicy GetGroupingPolicy sample_enforcer st_policies st_groupings];
    setoid_rewrite add_rules_elem; set_solver.
  - intros [= <- <-]; cbn [GetPolicy GetGroupingPolicy sample_enforcer st_policies st_groupings];
    case_decide; set_solver.
  - intros [= <- <-]; cbn [GetPolicy GetGroupingPolicy sample_enforcer st_policies st_groupings];
    setoid_rewrite remove_rules_elem; set_solver.
Qed.

Lemma sample_calls_succeed : calls_succeed (E := store).
Proof. done. Qed.

Lemma sample_total (e : store) : enforcer_total e.
Proof. done. Qed.

(** ** A small cluster *)

Definition admin_role : object :=
  ObjClusterRole (mkClusterAuthzRole (mkObjectMeta "viewer" "" 1) ["component:view"; "project:*"]).

Definition viewers : object := ObjBinding acme_binding.

(** An enforcer that has seen the role and the binding. *)
Definition acme_world : world :=
  <[object_key viewers := viewers]> (<[object_key admin_role := admin_role]> ∅).

Definition acme_store : store :=
  OnAdd (object_kind viewers) viewers (OnAdd (object_kind admin_role) admin_role (mkStore [] [])).

Lemma admin_role_admitted : admitted admin_role.
Proof.
  constructor; [done| |done|constructor|].
  - by intros [?|?].
  - intros p Hp. by apply elem_of_nil in Hp.
Qed.

Lemma acme_world_lookup k o :
  acme_world !! k = Some o →
  (k = object_key viewers ∧ o = viewers) ∨ (k = object_key admin_role ∧ o = admin_role).
Proof.
  unfold acme_world. intros [[<- <-]|[_ Ho]]%lookup_insert_Some; [by left|].
  apply lookup_insert_Some in Ho as [[<- <-]|[_ Ho]]; [by right|]. by rewrite lookup_empty in Ho.
Qed.

Lemma admin_world_wf : world_wf (<[object_key admin_role := admin_role]> (∅ : world)).
Proof.
  assert (∀ k o, <[object_key admin_role := admin_role]> (∅ : world) !! k = Some o →
    object_key o = k ∧ o = admin_role) as Hl.
  { intros k o [[<- <-]|[_ Ho]]%lookup_insert_Some; [done|]. by rewrite lookup_empty in Ho. }
  split.
  - intros k o Ho. apply (Hl _ _ Ho).
  - intros k o Ho. destruct (Hl _ _ Ho) as [_ ->]. apply admin_role_admitted.
  - intros k1 k2 b c Hb. by destruct (Hl _ _ Hb).
Qed.

Lemma acme_world_wf : world_wf acme_world.
Proof.
  split.
  - intros k o Ho. by destruct (acme_world_lookup _ _ Ho) as [[-> ->]|[-> ->]].
  - intros k o Ho. destruct (acme_world_lookup _ _ Ho) as [[_ ->]|[_ ->]];
      [apply acme_admitted|apply admin_role_admitted].
  - intros k1 k2 b c _ Hc. by destruct (acme_world_lookup _ _ Hc) as [[_ ?]|[_ ?]].
Qed.

Lemma acme_reachable : reachable (acme_store, acme_world).
Proof.
  exists (mkStore [] []). split; [done|]. split; [done|].
  eapply rtc_l; [apply (step_add _ _ admin_role); [apply lookup_empty|apply admin_world_wf]|].
  eapply rtc_l; [apply (step_add _ _ viewers); [|apply acme_world_wf]|apply rtc_refl].
  unfold admin_role. rewrite lookup_insert_ne by (vm_compute; congruence). apply lookup_empty.
Qed.

Definition acme_subject : SubjectContext := mkSubjectContext "user" "groups" ["ops"; "dev"].

Definition acme_hierarchy : ResourceHierarchy := mkHierarchy "acme" "shop" "cart" "".

Definition acme_request : EvaluateRequest :=
  mkEvaluateRequest (Some acme_subject) (mkResource "component" "cart" acme_hierarchy)
    "component:view" (mkContext (mkResourceAttribute "dev" "" "" "")).

Lemma acme_request_wf : request_wf acme_request acme_subject.
Proof. split_and!; [done..|]. repeat constructor; done. Qed.

Lemma acme_hierarchy_wf : hier_wf acme_hierarchy.
Proof. by repeat constructor. Qed.

(** ** Witnesses *)



Lemma Evaluate_correct_witness :
  (Evaluate acme_store (Some acme_request)).2 = None ∧
  (Decision_ (Evaluate acme_store (Some acme_request)).1 = true ↔
   ∃ v, v ∈ EntitlementValues acme_subject ∧
     entitlement_allows acme_store acme_request (EntitlementClaim acme_subject) v = true).
Proof.
  exact (Evaluate_correct acme_store acme_request acme_subject (sample_total _) acme_request_wf).
Defined.

Lemma Evaluate_error_denies_witness : Decision_ (mkDecision false None) = false.
Proof.
  apply (Evaluate_error_denies acme_store None (mkDecision false None)
    "invalid request: evaluate request is nil").
  reflexivity.
Defined.

Lemma BatchEvaluate_pointwise_witness :
  let results := (λ r, Evaluate acme_store (Some r)) <$> [acme_request; acme_request] in
  BatchEvaluate acme_store (λ _, None) (Some (mkBatchEvaluateRequest [acme_request; acme_request])) =
  match first_error 0 results with
  | None => (fst <$> results, None)
  | Some (j, err) => ([], Some ("batch evaluate failed at index " +:+ pretty j +:+ ": " +:+ err))
  end.
Proof.
  apply (BatchEvaluate_pointwise acme_store (λ _, None)
    (mkBatchEvaluateRequest [acme_request; acme_request])); [done|reflexivity].
Defined.

Lemma acme_tuple_wf : tuples_wf [acme_tuple].
Proof. intros p ->%list_elem_of_singleton. split; [done|]. repeat constructor. Qed.

Lemma nil_tuples_wf : tuples_wf [].
Proof. by intros p ?%elem_of_nil. Qed.

Lemma computePolicyDiff_correct_witness :
  (acme_tuple ∈ (computePolicyDiff [acme_tuple] []).1 ↔ acme_tuple ∈ [] ∧ acme_tuple ∉ [acme_tuple]) ∧
  (acme_tuple ∈ (computePolicyDiff [acme_tuple] []).2 ↔ acme_tuple ∈ [acme_tuple] ∧ acme_tuple ∉ []).
Proof.
  exact (computePolicyDiff_correct [acme_tuple] [] acme_tuple acme_tuple_wf nil_tuples_wf).
Defined.

Lemma binding_collision_revokes_witness :
  acme_tuple ∉ GetPolicy (OnDelete CRDTypeClusterAuthzRoleBinding (ObjClusterBinding acme_cluster_binding)
    (OnAdd CRDTypeClusterAuthzRoleBinding (ObjClusterBinding acme_cluster_binding)
      (OnAdd CRDTypeAuthzRoleBinding (ObjBinding acme_binding) (mkStore [] [])))).
Proof. apply (binding_collision_revokes sample_calls_succeed (mkStore [] [])). Defined.

(** ** The profile of the small cluster *)

Definition acme_profile_request (values : list string) : ProfileRequest :=
  mkProfileRequest (Some (mkSubjectContext "user" "groups" values)) (mkHierarchy "acme" "" "" "").

Definition acme_caps (values : list string) : gmap string ActionCapability :=
  match GetSubjectProfile acme_store (Some (acme_profile_request values)) with
  | Returns (Ok caps) => caps
  | _ => ∅
  end.

Definition acme_ctx : Context := mkContext (mkResourceAttribute "dev" "" "" "").

Lemma acme_policies : GetPolicy acme_store = [acme_tuple].
Proof. vm_compute. reflexivity. Qed.

Lemma acme_conditions p raw conds a :
  p ∈ GetPolicy acme_store → p !! 5 = Some raw → decodeConditions raw = Ok conds →
  filterConditionsByAction conds a = [].
Proof.
  rewrite acme_policies. intros ->%list_elem_of_singleton. simpl. intros [= <-].
  vm_compute. by intros [= <-].
Qed.

Lemma acme_clean ctx a : clean_store acme_store ctx a.
Proof.
  intros p raw conds c Hp H5 Hd. rewrite (acme_conditions p raw conds a Hp H5 Hd).
  by intros ?%elem_of_nil.
Qed.

Lemma acme_unconditional a eff : unconditional_rules acme_store a eff.
Proof. intros q raw conds Hq _. by apply acme_conditions. Qed.

Lemma GetSubjectProfile_reports_grants_witness :
  profile_reading acme_ctx (acme_caps ["ops"; "dev"]) "component:view" "ns/acme/project/shop".
Proof.
  apply (GetSubjectProfile_reports_grants acme_store (acme_profile_request ["ops"; "dev"])
    (mkSubjectContext "user" "groups" ["ops"; "dev"]) _ "component:view" "ns/acme/project/shop"
    acme_ctx "dev").
  - vm_compute. reflexivity.
  - reflexivity.
  - apply list_elem_of_In. vm_compute. tauto.
  - vm_compute. reflexivity.
  - apply acme_clean.
  - apply acme_unconditional.
  - right. by left.
  - vm_compute. reflexivity.
Defined.

Lemma GetSubjectProfile_exact_single_witness :
  profile_reading acme_ctx (acme_caps ["dev"]) "component:view" "ns/acme/project/shop" ↔
  policyEffect (GetPolicy acme_store) (GetGroupingPolicy acme_store) ("groups" +:+ ":" +:+ "dev")
    "ns/acme/project/shop" "component:view" (MarshalContext acme_ctx) = true.
Proof.
  apply (GetSubjectProfile_exact_single acme_store (acme_profile_request ["dev"])
    (mkSubjectContext "user" "groups" ["dev"]) _ "component:view" "ns/acme/project/shop"
    acme_ctx "dev").
  - vm_compute. reflexivity.
  - reflexivity.
  - apply list_elem_of_In. vm_compute. tauto.
  - vm_compute. reflexivity.
  - apply acme_clean.
  - apply acme_unconditional.
  - reflexivity.
Defined.
