(* ===== verification/GoValue.v ===== *)
(** * Dynamic values

    The [any] trees of decoded YAML and JSON documents that the patch engine
    works on, [internal/clone/deepcopy.go], the two printing verbs the code
    uses on them, and references into a tree.  A document is a tree: no map or
    slice of it is reachable by two paths, so that a Go pointer to a node is
    the path to it and an assignment through it changes that node only. *)

From S2P Require Import Prelude GoStrings.

#[local] Set Warnings "-register-all".

(** [VScalar t x] is a number, or a value of another type: the code looks at
    such a value only through its type [t] ([%T]) and its text [x] ([%v]).
    [VMapSlice] is the typed slice [[]map[string]any]. *)
Inductive any :=
  | VNil
  | VBool (b : bool)
  | VString (s : string)
  | VScalar (t x : string)
  | VMap (m : gmap string any)
  | VSlice (l : list any)
  | VMapSlice (l : list (gmap string any)).

(** ** Induction *)

Fixpoint depth_any (v : any) : nat :=
  match v with
  | VMap m => S (map_fold (λ _ v n, max (depth_any v) n) 0 m)
  | VSlice l => S (foldr (λ v n, max (depth_any v) n) 0 l)
  | _ => 0
  end.

Lemma map_fold_max_le {A} (d : A → nat) (m : gmap string A) k v :
  m !! k = Some v → d v ≤ map_fold (λ _ v n, max (d v) n) 0 m.
Proof.
  revert k v. apply (map_fold_weak_ind (λ n m, ∀ k v, m !! k = Some v → d v ≤ n)).
  - intros k v. by rewrite lookup_empty.
  - intros i x m' n _ IH k v [[<- <-]|[_ Hm]]%lookup_insert_Some; [lia|].
    specialize (IH k v Hm). lia.
Qed.

Lemma foldr_max_le {A} (d : A → nat) (l : list A) v :
  v ∈ l → d v ≤ foldr (λ v n, max (d v) n) 0 l.
Proof. induction 1; simpl; lia. Qed.

(** Induction on documents, through maps and slices. *)
Lemma any_tree_ind (P : any → Prop) :
  P VNil → (∀ b, P (VBool b)) → (∀ s, P (VString s)) → (∀ t x, P (VScalar t x)) →
  (∀ m, map_Forall (λ _, P) m → P (VMap m)) → (∀ l, Forall P l → P (VSlice l)) →
  (∀ l, P (VMapSlice l)) → ∀ v, P v.
Proof.
  intros Hn Hb Hs Hc Hm Hl Hml v.
  enough (∀ n v, depth_any v < n → P v) as Hind by (apply (Hind (S (depth_any v))); lia).
  clear v. induction n as [|n IH]; intros v Hlt; [lia|].
  destruct v as [|b|s|t x|m|l|l]; auto.
  - apply Hm. intros k v Hv. apply IH. simpl in Hlt.
    pose proof (map_fold_max_le depth_any m k v Hv). lia.
  - apply Hl, Forall_forall. intros v Hv. apply IH. simpl in Hlt.
    pose proof (foldr_max_le depth_any l v Hv). lia.
Qed.

(** ** [internal/clone] *)

Fixpoint DeepCopy (v : any) : any :=
  match v with
  | VNil => VNil
  | VMap val => if (size val =? 0)%nat then VMap ∅ else VMap (DeepCopy <$> val)
  | VSlice val => match val with [] => VSlice [] | _ => VSlice (DeepCopy <$> val) end
  | _ => v
  end.

Definition deepCopyMap (src : gmap string any) : gmap string any := DeepCopy <$> src.

Definition deepCopySlice (src : list any) : list any := DeepCopy <$> src.

(** [None] is the nil map. *)
Definition DeepCopyMap (m : option (gmap string any)) : option (gmap string any) :=
  match m with
  | None => None
  | Some m => Some (deepCopyMap m)
  end.

Lemma DeepCopy_id v : DeepCopy v = v.
Proof.
  induction v as [|b|s|t x|m IH|l IH|l] using any_tree_ind; try done; simpl.
  - destruct (Nat.eqb_spec (size m) 0) as [Hz|_]; [by rewrite (map_size_empty_inv m Hz)|]. f_equal. apply map_eq. intros k. rewrite lookup_fmap.
    destruct (m !! k) as [v|] eqn:Ev; [|done]. simpl. f_equal. exact (IH k v Ev).
  - destruct l as [|x l]; [done|]. f_equal.
    induction IH as [|y l' Hy _ IHl]; [done|]. rewrite fmap_cons, Hy. f_equal. exact IHl.
Qed.

(** ** Printing *)

Definition quote_char : string := String "034"%char "".

(** [%q] on a text without characters that need an escape. *)
Definition quoted (s : string) : string := quote_char +:+ s +:+ quote_char.

(** [%T] *)
Definition type_name (v : any) : string :=
  match v with
  | VNil => "<nil>"
  | VBool _ => "bool"
  | VString _ => "string"
  | VScalar t _ => t
  | VMap _ => "map[string]interface {}"
  | VSlice _ => "[]interface {}"
  | VMapSlice _ => "[]map[string]interface {}"
  end.

(** Maps print with their keys sorted. *)
Definition print_map (m : gmap string string) : string :=
  "map[" +:+ Join ((λ k, k +:+ ":" +:+ default "" (m !! k)) <$> sorted_keys m) " "
  +:+ "]".

(** [%v] *)
Fixpoint print_any (v : any) : string :=
  match v with
  | VNil => "<nil>"
  | VBool b => if b then "true" else "false"
  | VString s => s
  | VScalar _ x => x
  | VMap m => print_map (print_any <$> m)
  | VSlice l => "[" +:+ Join (print_any <$> l) " " +:+ "]"
  | VMapSlice l => "[" +:+ Join ((λ m, print_map (print_any <$> m)) <$> l) " " +:+ "]"
  end.

(** ** References *)

(** One step from a container to a child. *)
Inductive accessor := AKey (k : string) | AIdx (n : nat).

Abbreviation ref := (list accessor).

#[global] Instance accessor_eq_dec : EqDecision accessor.
Proof. solve_decision. Defined.

Definition child (v : any) (a : accessor) : option any :=
  match v, a with
  | VMap m, AKey k => m !! k
  | VSlice l, AIdx n => l !! n
  | VMapSlice l, AIdx n => VMap <$> l !! n
  | _, _ => None
  end.

(** Assignment of a child; an index must exist. *)
Definition set_child (v : any) (a : accessor) (x : any) : any :=
  match v, a with
  | VMap m, AKey k => VMap (<[k := x]> m)
  | VSlice l, AIdx n => VSlice (<[n := x]> l)
  | VMapSlice l, AIdx n => match x with VMap m => VMapSlice (<[n := m]> l) | _ => v end
  | _, _ => v
  end.

Fixpoint get (v : any) (r : ref) : option any :=
  match r with
  | [] => Some v
  | a :: r => child v a ≫= λ c, get c r
  end.

(** Write at an existing node, or at a new key of an existing map. *)
Fixpoint put (v : any) (r : ref) (x : any) : any :=
  match r with
  | [] => x
  | [a] => set_child v a x
  | a :: r => match child v a with Some c => set_child v a (put c r x) | None => v end
  end.

Lemma get_app v r1 r2 : get v (r1 ++ r2) = get v r1 ≫= λ c, get c r2.
Proof.
  revert v. induction r1 as [|a r1 IH]; intros v; [done|]. simpl.
  destruct (child v a); [apply IH|done].
Qed.

Lemma get_snoc v r a : get v (r ++ [a]) = get v r ≫= λ c, child c a.
Proof. rewrite get_app. destruct (get v r) as [c|]; [|done]. simpl. by destruct (child c a). Qed.

(** The value [x] may replace the child [a] of [v]: any value in a map or a
    slice, a map in a typed slice. *)
Definition fits (v : any) (a : accessor) (x : any) : Prop :=
  match v, a with
  | VMap _, AKey _ => True
  | VSlice l, AIdx n => n < length l
  | VMapSlice l, AIdx n => n < length l ∧ ∃ m, x = VMap m
  | _, _ => False
  end.

Lemma child_set_child v a x : fits v a x → child (set_child v a x) a = Some x.
Proof.
  destruct v, a; simpl; try done.
  - intros _. apply lookup_insert_eq.
  - apply list_lookup_insert_eq.
  - intros [Hn [m ->]]. simpl. by rewrite list_lookup_insert_eq.
Qed.

Lemma child_set_child_ne v a b x : a ≠ b → child (set_child v a x) b = child v b.
Proof.
  intros Hne. destruct v, a, b; simpl; try done; try by destruct x.
  - rewrite lookup_insert_ne; [done|congruence].
  - rewrite list_lookup_insert_ne; [done|congruence].
  - destruct x; try done. simpl. rewrite list_lookup_insert_ne; [done|congruence].
Qed.

Lemma child_fits v a c : child v a = Some c → (∀ l, v ≠ VMapSlice l) → ∀ x, fits v a x.
Proof.
  destruct v, a; simpl; try done.
  - intros Hl _ x. by apply lookup_lt_Some in Hl.
  - intros _ Hne. by destruct (Hne l).
Qed.

(** ** Reading back what was written *)

Fixpoint writable (v : any) (r : ref) (x : any) : Prop :=
  match r with
  | [] => True
  | [a] => fits v a x
  | a :: r => ∃ c, child v a = Some c ∧ writable c r x
  end.

Lemma put_cons v a r x :
  r ≠ [] →
  put v (a :: r) x = match child v a with Some c => set_child v a (put c r x) | None => v end.
Proof. by destruct r. Qed.

Lemma writable_cons v a r x :
  r ≠ [] → writable v (a :: r) x ↔ ∃ c, child v a = Some c ∧ writable c r x.
Proof. by destruct r. Qed.

(** Writing below a map gives a map. *)
Lemma put_map m r x : r ≠ [] → ∃ m', put (VMap m) r x = VMap m'.
Proof.
  destruct r as [|a [|b r]]; [done|..]; intros _; simpl.
  - destruct a; by eexists.
  - destruct a as [k|n]; [|by eexists]. simpl. destruct (m !! k); by eexists.
Qed.

Lemma child_fits_put v a c r x : child v a = Some c → r ≠ [] → fits v a (put c r x).
Proof.
  intros Hc Hr. destruct v, a; simpl in *; try done.
  - by apply lookup_lt_Some in Hc.
  - destruct (l !! n) as [m|] eqn:Hm; [|done]. injection Hc as <-.
    split; [by apply lookup_lt_Some in Hm|]. by apply put_map.
Qed.

(** An existing node can be replaced by an object. *)
Lemma writable_map v r c m : get v r = Some c → writable v r (VMap m).
Proof.
  revert v. induction r as [|a r IH]; intros v Hg; [done|].
  cbn [get] in Hg. destruct (child v a) as [d|] eqn:Hd; [|done]. simpl in Hg.
  destruct (decide (r = [])) as [->|Hr]; [|apply writable_cons; eauto].
  simpl. destruct v, a; simpl in *; try done.
  - by apply lookup_lt_Some in Hd.
  - destruct (l !! n) as [m'|] eqn:Hm; [|done]. split; [by apply lookup_lt_Some in Hm|eauto].
Qed.

(** Assigning an existing key of an object. *)
Lemma writable_key v r k m x : get v r = Some (VMap m) → writable v (r ++ [AKey k]) x.
Proof.
  revert v. induction r as [|a r IH]; intros v Hg; [by injection Hg as ->|].
  cbn [get] in Hg. destruct (child v a) as [c|] eqn:Hc; [|done]. simpl in Hg.
  cbn [app]. apply writable_cons; [by destruct r|]. eauto.
Qed.

Lemma get_put_app v r x r' : writable v r x → get (put v r x) (r ++ r') = get x r'.
Proof.
  revert v. induction r as [|a r IH]; intros v Hw; [done|].
  destruct (decide (r = [])) as [->|Hr].
  - simpl in *. by rewrite child_set_child.
  - apply writable_cons in Hw as (c & Hc & Hw); [|done].
    rewrite put_cons, Hc by done. simpl.
    rewrite child_set_child by by apply child_fits_put. by apply IH.
Qed.

Lemma get_put v r x : writable v r x → get (put v r x) r = Some x.
Proof. intros Hw. rewrite <- (app_nil_r r) at 2. by rewrite get_put_app. Qed.

(** Frame: a write does not change a node that is neither above nor below. *)
Lemma get_put_other v r x r' :
  ¬ r `prefix_of` r' → ¬ r' `prefix_of` r → get (put v r x) r' = get v r'.
Proof.
  revert v r'. induction r as [|a r IH]; intros v r' Hn1 Hn2; [by destruct Hn1; exists r'|].
  destruct r' as [|b r']; [by destruct Hn2; exists (a :: r)|].
  destruct (decide (a = b)) as [<-|Hab].
  - destruct (decide (r = [])) as [->|Hr]; [by destruct Hn1; exists r'|].
    rewrite put_cons by done. simpl. destruct (child v a) as [c|] eqn:Hc; [|simpl; by rewrite Hc].
    rewrite child_set_child by by apply child_fits_put. simpl. apply IH.
    + intros Hp. by apply Hn1, prefix_cons.
    + intros Hp. by apply Hn2, prefix_cons.
  - destruct (decide (r = [])) as [->|Hr].
    + simpl. by rewrite child_set_child_ne.
    + rewrite put_cons by done. destruct (child v a); [|done]. simpl. by rewrite child_set_child_ne.
Qed.

Lemma put_snoc v r a c x :
  get v r = Some c → put v (r ++ [a]) x = put v r (set_child c a x).
Proof.
  revert v. induction r as [|b r IH]; intros v Hc; [by injection Hc as ->|].
  cbn [get] in Hc. destruct (child v b) as [d|] eqn:Hd; [|done]. simpl in Hc.
  cbn [app]. rewrite put_cons by by destruct r. rewrite Hd, (IH d Hc).
  destruct (decide (r = [])) as [->|Hr]; [done|]. by rewrite put_cons, Hd.
Qed.

(** The object around an assigned key. *)
Lemma get_put_key v r k m x :
  get v r = Some (VMap m) → get (put v (r ++ [AKey k]) x) r = Some (VMap (<[k := x]> m)).
Proof.
  intros Hg. rewrite (put_snoc v r (AKey k) (VMap m)) by done.
  by apply get_put, (writable_map _ _ (VMap m)).
Qed.

(** ** Typed slices *)

Definition toAnySlice (v : any) : option (list any) :=
  match v with
  | VSlice arr => Some arr
  | VMapSlice arr => Some (VMap <$> arr)
  | _ => None
  end.

Lemma toAnySlice_child v arr n : toAnySlice v = Some arr → child v (AIdx n) = arr !! n.
Proof.
  destruct v; simpl; try done; intros [= <-]; [done|]. by rewrite list_lookup_fmap.
Qed.
