(* ===== verification/PatchPath.v ===== *)
(** * Path expressions of the patch engine

    [internal/patch/helpers.go] (JSON Pointer escaping) and
    [internal/patch/expand_paths.go] (expansion of a path with filters,
    wildcards and indices into the pointers it stands for). *)

From S2P Require Import Prelude GoStrings GoValue.

Open Scope go_scope.

(** ** JSON Pointers *)

Definition unescapePointerSegment (seg : string) : string :=
  let seg := ReplaceAll seg "~1" "/" in
  let seg := ReplaceAll seg "~0" "~" in
  seg.

Definition escapePointerSegment (seg : string) : string :=
  let seg := ReplaceAll seg "~" "~0" in
  let seg := ReplaceAll seg "/" "~1" in
  seg.

Definition splitAndUnescapePath (path : string) : list string :=
  if String.eqb path "" then []
  else
    let trimmed := TrimPrefix path "/" in
    if String.eqb trimmed "" then [""]
    else unescapePointerSegment <$> Split "/" trimmed.

Definition splitPointer (pointer : string) : list string := splitAndUnescapePath pointer.

Definition splitRawPath (path : string) : list string := splitAndUnescapePath path.

(** The loop writes one segment after the other. *)
Fixpoint buildJSONPointer (segments : list string) : string :=
  match segments with
  | [] => ""
  | seg :: rest =>
      "/" +:+ (if String.eqb seg "-" then seg else escapePointerSegment seg) +:+ buildJSONPointer rest
  end.

Definition appendPointer (base : list string) (segment : string) : list string := base ++ [segment].

(** ** Filters *)

(** The class [[A-Za-z0-9_.-]]. *)
Definition field_char (c : ascii) : bool :=
  let n := N_of_ascii c in
  ((65 <=? n) && (n <=? 90) || (97 <=? n) && (n <=? 122) || (48 <=? n) && (n <=? 57) ||
   (n =? 95) || (n =? 46) || (n =? 45))%N.

(** The class [\s] of the regular expressions: tab, newline, form feed,
    carriage return, space. *)
Definition regex_space (c : ascii) : bool :=
  let n := N_of_ascii c in ((n =? 9) || (n =? 10) || (n =? 12) || (n =? 13) || (n =? 32))%N.

Definition quote_byte (c : ascii) : bool :=
  let n := N_of_ascii c in ((n =? 39) || (n =? 34))%N.

(** The longest prefix of bytes of a class, and the rest. *)
Fixpoint span (f : ascii → bool) (s : string) : string * string :=
  match s with
  | "" => ("", "")
  | String c s' => if f c then let '(a, b) := span f s' in (String c a, b) else ("", s)
  end.

(** All but the last byte, and the last byte. *)
Fixpoint unsnoc_string (s : string) : option (string * ascii) :=
  match s with
  | "" => None
  | String c s' =>
      match unsnoc_string s' with
      | None => Some ("", c)
      | Some (a, l) => Some (String c a, l)
      end
  end.

(** The submatches of the regular expression [filterExpr]: an at sign and a
    dot, a run of field bytes (group 1), white space, two equal signs, white
    space, a quote, any text without a newline (group 2) and a quote at the
    end.  No class contains a byte that may follow it, so that the expression
    matches in one way at most. *)
Definition filterExpr (s : string) : option (string * string) :=
  if negb (HasPrefix s "@.") then None
  else
    let '(field, rest) := span field_char (sdrop 2 s) in
    let '(_, rest) := span regex_space rest in
    if String.eqb field "" || negb (HasPrefix rest "==") then None
    else
      let '(_, rest) := span regex_space (sdrop 2 rest) in
      match rest with
      | "" => None
      | String q body =>
          match unsnoc_string body with
          | Some (value, q') =>
              if quote_byte q && quote_byte q' && negb (has_byte "010" value)
              then Some (field, value) else None
          | None => None
          end
      end.

(** The navigation through the fields; [None] when a field is missing or its
    parent is not an object. *)
Fixpoint fieldAt (current : any) (fieldPath : list string) : option any :=
  match fieldPath with
  | [] => Some current
  | segment :: rest =>
      match current with
      | VMap m => match m !! segment with Some c => fieldAt c rest | None => None end
      | _ => None
      end
  end.

Definition matchesFilter (item : any) (expr : string) : result bool :=
  match filterExpr (TrimSpace expr) with
  | None => Err ("unsupported filter expression: " +:+ expr)
  | Some (fields, expected) =>
      match fieldAt item (Split "." fields) with
      | None => Ok false
      | Some VNil => Ok (String.eqb expected "")
      | Some current => Ok (String.eqb (print_any current) expected)
      end
  end.

(** ** Expansion *)

Record pathState := mkPathState { ps_pointer : list string; ps_value : any }.

(** A loop over the states that stops at the first error. *)
Definition expandEach (f : pathState → result (list pathState)) (states : list pathState)
    : result (list pathState) :=
  let? next := result_map f states in Ok (concat next).

Definition applyKey (states : list pathState) (key : string) : result (list pathState) :=
  if String.eqb key "" then Ok states
  else
    expandEach (λ st,
      match ps_value st with
      | VMap current =>
          Ok [mkPathState (appendPointer (ps_pointer st) key) (default VNil (current !! key))]
      | VNil => Ok [mkPathState (appendPointer (ps_pointer st) key) VNil]
      | v => Err ("path segment " +:+ quoted key +:+ " expects an object, got " +:+ type_name v)
      end) states.

Definition applyIndex (states : list pathState) (index : Z) : result (list pathState) :=
  expandEach (λ st,
    match toAnySlice (ps_value st) with
    | None => Err ("path segment expects an array, got " +:+ type_name (ps_value st))
    | Some arr =>
        if (index <? 0)%Z || (Z.of_nat (length arr) <=? index)%Z
        then Err ("array index " +:+ Itoa index +:+ " out of bounds")
        else Ok [mkPathState (appendPointer (ps_pointer st) (Itoa index))
                   (default VNil (arr !! Z.to_nat index))]
    end) states.

Definition applyDash (states : list pathState) : list pathState :=
  (λ st, mkPathState (appendPointer (ps_pointer st) "-") VNil) <$> states.

(** The states of the elements of an array, from the index [idx] on. *)
Fixpoint elementStates (pointer : list string) (idx : nat) (arr : list any) : list pathState :=
  match arr with
  | [] => []
  | item :: rest =>
      mkPathState (appendPointer pointer (Itoa (Z.of_nat idx))) item :: elementStates pointer (S idx) rest
  end.

Definition applyWildcard (states : list pathState) : result (list pathState) :=
  expandEach (λ st,
    match toAnySlice (ps_value st) with
    | None => Err ("wildcard [*] expects an array, got " +:+ type_name (ps_value st) +:+ " at " +:+
                   buildJSONPointer (ps_pointer st))
    | Some arr => Ok (elementStates (ps_pointer st) 0 arr)
    end) states.

(** The elements that match, in order; an invalid filter is an error as soon
    as there is an element to test. *)
Fixpoint filterElements (expr : string) (elements : list pathState) : result (list pathState) :=
  match elements with
  | [] => Ok []
  | st :: rest =>
      let? m := matchesFilter (ps_value st) expr in
      let? next := filterElements expr rest in
      Ok (if m : bool then st :: next else next)
  end.

Definition applyFilter (states : list pathState) (expr : string) : result (list pathState) :=
  expandEach (λ st,
    match toAnySlice (ps_value st) with
    | None => Err ("filter expects an array, got " +:+ type_name (ps_value st) +:+ " at " +:+
                   buildJSONPointer (ps_pointer st))
    | Some arr => filterElements expr (elementStates (ps_pointer st) 0 arr)
    end) states.

(** The content of one pair of brackets. *)
Definition applyBracket (current : list pathState) (content : string) : result (list pathState) :=
  if HasPrefix content "?(" && HasSuffix content ")" then
    applyFilter current (stake (String.length content - 3) (sdrop 2 content))
  else if String.eqb content "*" then applyWildcard current
  else if String.eqb content "-" then Ok (applyDash current)
  else match Atoi content with
       | None => Err ("unsupported array index " +:+ quoted content)
       | Some index => applyIndex current index
       end.

(** Text outside brackets: an index if it is a number, otherwise a key. *)
Definition applyToken (current : list pathState) (token : string) : result (list pathState) :=
  match Atoi token with
  | Some idx => applyIndex current idx
  | None => applyKey current token
  end.

(** The loop of [applySegment]; each iteration consumes a byte at least, so
    that the length of the segment bounds their number. *)
Fixpoint segmentLoop (fuel : nat) (segment : string) (current : list pathState) (remaining : string)
    : result (list pathState) :=
  match fuel with
  | 0 => Ok current
  | S fuel =>
      if String.eqb remaining "" then Ok current
      else if HasPrefix remaining "[" then
        match IndexByte "]" remaining with
        | None => Err ("unclosed bracket segment in " +:+ quoted segment)
        | Some closeIdx =>
            let content := stake (closeIdx - 1) (sdrop 1 remaining) in
            let? current := applyBracket current content in
            segmentLoop fuel segment current (sdrop (closeIdx + 1) remaining)
        end
      else
        let '(token, remaining) :=
          match IndexByte "[" remaining with
          | None => (remaining, "")
          | Some nextBracket => (stake nextBracket remaining, sdrop nextBracket remaining)
          end in
        let? current := applyToken current token in
        segmentLoop fuel segment current remaining
  end.

Definition applySegment (state : pathState) (segment : string) : result (list pathState) :=
  segmentLoop (String.length segment) segment [state] segment.

Definition maxPathStates : Z := 65536.

(** The inner loop of [expandPaths], with the guard against an explosion. *)
Fixpoint expandStates (segment : string) (nextStates states : list pathState)
    : result (list pathState) :=
  match states with
  | [] => Ok nextStates
  | st :: rest =>
      let? expanded := applySegment st segment in
      if (maxPathStates <? Z.of_nat (length nextStates + length expanded))%Z
      then Err ("path expansion exceeded maximum states (" +:+ Itoa maxPathStates +:+ ")")
      else expandStates segment (nextStates ++ expanded) rest
  end.

Fixpoint expandSegments (segments : list string) (states : list pathState)
    : result (list pathState) :=
  match segments with
  | [] => Ok states
  | segment :: rest =>
      if String.eqb segment "-" then expandSegments rest (applyDash states)
      else
        let? states := expandStates segment [] states in
        match states with
        | [] => Ok []
        | _ => expandSegments rest states
        end
  end.

Definition expandPaths (root : any) (rawPath : string) : result (list string) :=
  if String.eqb rawPath "" then Ok [""]
  else
    let? states := expandSegments (splitRawPath rawPath) [mkPathState [] root] in
    Ok ((λ st, buildJSONPointer (ps_pointer st)) <$> states).
