(* ===== verification/PatchOps.v ===== *)
(** * Patch operations

    [internal/patch/rfc6902.go] (add, replace, remove), [merge.go]
    (mergeShallow) and [patch.go] (the entry points).  The document is changed
    in place, and what was changed before an error stays changed: the state of
    the monad [M] is the document, and a Go pointer into it is a [ref]. *)

From S2P Require Import Prelude GoStrings GoValue PatchPath.

Open Scope go_scope.

Definition opAdd : string := "add".
Definition opReplace : string := "replace".
Definition opRemove : string := "remove".

Record JSONPatchOperation := mkOperation { Op : string; OpPath : string; Value : any }.

(** Access to the document through a pointer. *)
Definition load (r : ref) : M any any := λ root, (root, Ok (default VNil (get root r))).
Definition store_at (r : ref) (x : any) : M any unit := λ root, (put root r x, Ok ()).
Definition fail {A} (msg : string) : M any A := ofResult (Err msg).

Definition isArrayIndex (seg : string) : Z * bool :=
  if String.eqb seg "-" then (-1, true)%Z
  else match Atoi seg with
       | None => (-1, false)%Z
       | Some index => (index, true)
       end.

Definition in_range (index : Z) (len : nat) : bool :=
  negb ((index <? 0)%Z || (Z.of_nat len <=? index)%Z).

(** The loop of [navigateForPatch] at the node [current], with the segments
    still to be processed.  The result is the container, the key of the array
    in it (empty for a map operation) and the last segment. *)
Fixpoint navigateLoop (current : ref) (segments : list string) : M any (ref * string * string) :=
  match segments with
  | [] => fail "empty pointer"
  | [last] =>
      v ← load current;
      match v with
      | VMap _ => mret (current, "", last)
      | _ => fail ("parent must be a map for non-array operations, got " +:+ type_name v)
      end
  | seg :: ((nextSeg :: rest) as tail) =>
      v ← load current;
      match v with
      | VMap node =>
          match node !! seg with
          | None => fail ("path does not exist at segment " +:+ quoted seg)
          | Some child =>
              let '(index, isIndex) := isArrayIndex nextSeg in
              if isIndex || String.eqb nextSeg "-" then
                match toAnySlice child with
                | None => fail ("expected array at " +:+ quoted seg +:+ ", got " +:+ type_name child)
                | Some arr =>
                    _ ← store_at (current ++ [AKey seg]) (VSlice arr);
                    match rest with
                    | [] => mret (current, seg, nextSeg)
                    | _ =>
                        if in_range index (length arr)
                        then navigateLoop (current ++ [AKey seg; AIdx (Z.to_nat index)]) rest
                        else fail ("array index " +:+ Itoa index +:+ " out of bounds at " +:+ quoted seg)
                    end
                end
              else navigateLoop (current ++ [AKey seg]) tail
          end
      | VSlice _ => fail ("unexpected array traversal at segment " +:+ quoted seg)
      | _ => fail ("cannot traverse segment " +:+ quoted seg +:+ " on type " +:+ type_name v)
      end
  end.

Definition navigateForPatch (segments : list string) : M any (ref * string * string) :=
  navigateLoop [] segments.

(** [container[key]], the zero value nil when absent. *)
Definition entry (container : any) (key : string) : any := default VNil (child container (AKey key)).

Definition maxJSONArraySize : Z := 16777216.

Definition insert_at {A} (index : nat) (x : A) (arr : list A) : list A :=
  take index arr ++ x :: drop index arr.

Definition remove_at {A} (index : nat) (arr : list A) : list A :=
  take index arr ++ drop (S index) arr.

Definition addValue (container : ref) (arrayKey segment : string) (value : any) : M any unit :=
  let valueCopy := DeepCopy value in
  if negb (String.eqb arrayKey "") then
    c ← load container;
    match toAnySlice (entry c arrayKey) with
    | None => fail ("expected array at " +:+ quoted arrayKey)
    | Some arr =>
        if String.eqb segment "-"
        then store_at (container ++ [AKey arrayKey]) (VSlice (arr ++ [valueCopy]))
        else match Atoi segment with
             | None => fail ("invalid array index " +:+ quoted segment)
             | Some index =>
                 if (index <? 0)%Z || (Z.of_nat (length arr) <? index)%Z
                 then fail ("array index " +:+ Itoa index +:+ " out of bounds for add (length " +:+
                            Itoa (Z.of_nat (length arr)) +:+ ")")
                 else if (maxJSONArraySize <=? Z.of_nat (length arr))%Z
                 then fail ("array too large to process: " +:+ Itoa (Z.of_nat (length arr)) +:+
                            " elements")
                 else store_at (container ++ [AKey arrayKey])
                        (VSlice (insert_at (Z.to_nat index) valueCopy arr))
             end
    end
  else store_at (container ++ [AKey segment]) valueCopy.

Definition replaceValue (container : ref) (arrayKey segment : string) (value : any) : M any unit :=
  let valueCopy := DeepCopy value in
  c ← load container;
  if negb (String.eqb arrayKey "") then
    match toAnySlice (entry c arrayKey) with
    | None => fail ("expected array at " +:+ quoted arrayKey)
    | Some arr =>
        if String.eqb segment "-"
        then fail "replace operation cannot target append marker '-'"
        else match Atoi segment with
             | None => fail ("invalid array index " +:+ quoted segment)
             | Some index =>
                 if in_range index (length arr)
                 then store_at (container ++ [AKey arrayKey])
                        (VSlice (<[Z.to_nat index := valueCopy]> arr))
                 else fail ("array index " +:+ Itoa index +:+ " out of bounds for replace (length " +:+
                            Itoa (Z.of_nat (length arr)) +:+ ")")
             end
    end
  else
    match child c (AKey segment) with
    | None => fail ("replace operation failed: key " +:+ quoted segment +:+ " does not exist")
    | Some _ => store_at (container ++ [AKey segment]) valueCopy
    end.

Definition delete_key (v : any) (k : string) : any :=
  match v with VMap m => VMap (delete k m) | _ => v end.

Definition removeValue (container : ref) (arrayKey segment : string) : M any unit :=
  c ← load container;
  if negb (String.eqb arrayKey "") then
    match toAnySlice (entry c arrayKey) with
    | None => fail ("expected array at " +:+ quoted arrayKey)
    | Some arr =>
        if String.eqb segment "-"
        then fail "remove operation cannot target append marker '-'"
        else match Atoi segment with
             | None => fail ("invalid array index " +:+ quoted segment)
             | Some index =>
                 if in_range index (length arr)
                 then store_at (container ++ [AKey arrayKey])
                        (VSlice (remove_at (Z.to_nat index) arr))
                 else fail ("array index " +:+ Itoa index +:+ " out of bounds for remove (length " +:+
                            Itoa (Z.of_nat (length arr)) +:+ ")")
             end
    end
  else
    match child c (AKey segment) with
    | None => mret ()
    | Some _ => store_at container (delete_key c segment)
    end.

Definition applyJSONPatch (op pointer : string) (value : any) : M any unit :=
  match splitPointer pointer with
  | [] => fail ("cannot apply " +:+ op +:+ " operation to root document")
  | segments =>
      '(container, arrayKey, lastSeg) ← navigateForPatch segments;
      if String.eqb op "add" then addValue container arrayKey lastSeg value
      else if String.eqb op "replace" then replaceValue container arrayKey lastSeg value
      else if String.eqb op opRemove then removeValue container arrayKey lastSeg
      else fail ("unsupported operation: " +:+ op)
  end.

(** The loop of [ensureParentExists] over the parent segments. *)
Fixpoint ensureLoop (current : ref) (segments : list string) : M any unit :=
  match segments with
  | seg :: ((next :: _) as tail) =>
      v ← load current;
      match toAnySlice v with
      | Some arr =>
          match Atoi seg with
          | None => fail ("expected array index at segment " +:+ seg)
          | Some index =>
              if in_range index (length arr)
              then ensureLoop (current ++ [AIdx (Z.to_nat index)]) tail
              else fail ("array index " +:+ Itoa index +:+ " out of bounds at segment " +:+ seg)
          end
      | None =>
          match v with
          | VMap node =>
              match default VNil (node !! seg) with
              | VNil =>
                  if String.eqb next "-" then
                    _ ← store_at (current ++ [AKey seg]) (VSlice []);
                    ensureLoop (current ++ [AKey seg]) tail
                  else match Atoi next with
                       | Some _ => fail ("array index " +:+ next +:+ " out of bounds at segment " +:+ seg)
                       | None =>
                           _ ← store_at (current ++ [AKey seg]) (VMap ∅);
                           ensureLoop (current ++ [AKey seg]) tail
                       end
              | _ => ensureLoop (current ++ [AKey seg]) tail
              end
          | _ => fail ("cannot traverse segment " +:+ seg +:+ " on type " +:+ type_name v)
          end
      end
  | _ => mret ()
  end.

Definition ensureParentExists (pointer : string) : M any unit := ensureLoop [] (splitPointer pointer).

(** ** mergeShallow *)

Definition mergeShallowInto (target overlay : gmap string any) : gmap string any :=
  map_fold (λ k v target, <[k := DeepCopy v]> target) target overlay.

Definition determineNextContainerType (segments : list string) (index : nat) (last : string) : any :=
  let nextSeg := default last (segments !! (index + 1)) in
  if String.eqb nextSeg "-" then VSlice []
  else match Atoi nextSeg with
       | Some _ => VSlice []
       | None => VMap ∅
       end.

(** The loop of [navigateToParent]; [i] is the index of the segment in
    [parentSegs]. *)
Fixpoint parentLoop (create : bool) (parentSegs : list string) (last : string) (i : nat)
    (current : ref) (segments : list string) : M any ref :=
  match segments with
  | [] => mret current
  | seg :: rest =>
      v ← load current;
      match v with
      | VMap node =>
          match default VNil (node !! seg) with
          | VNil =>
              if create then
                _ ← store_at (current ++ [AKey seg]) (determineNextContainerType parentSegs i last);
                parentLoop create parentSegs last (S i) (current ++ [AKey seg]) rest
              else fail ("missing path at segment " +:+ seg)
          | _ => parentLoop create parentSegs last (S i) (current ++ [AKey seg]) rest
          end
      | VSlice node =>
          match Atoi seg with
          | None => fail ("expected array index at segment " +:+ seg)
          | Some index =>
              if in_range index (length node)
              then parentLoop create parentSegs last (S i) (current ++ [AIdx (Z.to_nat index)]) rest
              else fail ("array index " +:+ Itoa index +:+ " out of bounds at segment " +:+ seg)
          end
      | _ => fail ("cannot traverse segment " +:+ seg +:+ " on type " +:+ type_name v)
      end
  end.

Definition navigateToParent (pointer : string) (create : bool) : M any (ref * string) :=
  let segments := splitPointer pointer in
  match last segments with
  | None => mret ([], "")
  | Some lastSeg =>
      let parentSegs := take (length segments - 1) segments in
      r ← parentLoop create parentSegs lastSeg 0 [] parentSegs;
      mret (r, lastSeg)
  end.

(** Overlay on an existing object, otherwise replace by a copy. *)
Definition mergeShallowEntry (r : ref) (existing : any) (value : gmap string any) : M any unit :=
  match existing with
  | VMap targetMap => store_at r (VMap (mergeShallowInto targetMap value))
  | _ => store_at r (DeepCopy (VMap value))
  end.

Definition mergeShallowAtPointer (pointer : string) (value : gmap string any) : M any unit :=
  '(parent, lastSeg) ← navigateToParent pointer true;
  v ← load parent;
  match v with
  | VMap container =>
      mergeShallowEntry (parent ++ [AKey lastSeg]) (default VNil (container !! lastSeg)) value
  | VSlice container =>
      if String.eqb lastSeg "-"
      then fail "mergeShallow operation cannot target append position '-'"
      else match Atoi lastSeg with
           | None => fail ("invalid array index " +:+ quoted lastSeg +:+ " for mergeShallow")
           | Some index =>
               if in_range index (length container)
               then mergeShallowEntry (parent ++ [AIdx (Z.to_nat index)])
                      (default VNil (container !! Z.to_nat index)) value
               else fail ("array index " +:+ Itoa index +:+ " out of bounds for mergeShallow")
           end
  | _ => fail ("mergeShallow parent must be object or array, got " +:+ type_name v)
  end.

(** ** Entry points *)

(** A closing parenthesis and bracket before the end of the line. *)
Fixpoint closes_filter (s : string) : bool :=
  match s with
  | "" => false
  | String c s' =>
      if HasPrefix s ")]" then true
      else if (N_of_ascii c =? 10)%N then false else closes_filter s'
  end.

(** A match of [filterOrWildcardPattern] somewhere in the path: an opening
    bracket, question mark and parenthesis with a closing pair after it, or a
    bracketed star. *)
Fixpoint containsFilterOrWildcard (path : string) : bool :=
  match path with
  | "" => false
  | String _ rest =>
      (HasPrefix path "[?(" && closes_filter (sdrop 3 path)) || HasPrefix path "[*]" ||
      containsFilterOrWildcard rest
  end.

Definition applyRFC6902 (op rawPath : string) (value : any) : M any unit :=
  root ← (λ root, (root, Ok root));
  resolved ← ofResult (expandPaths root rawPath);
  match resolved with
  | [] =>
      if containsFilterOrWildcard rawPath
      then fail ("path " +:+ quoted rawPath +:+ " contains a filter or wildcard but matched 0 elements" +:+
                 " (filter criteria not met or target does not exist)")
      else mret ()
  | _ =>
      forEach (λ pointer,
        _ ← (if String.eqb op opAdd then ensureParentExists pointer else mret ());
        applyJSONPatch op pointer value) resolved
  end.

Definition applyMergeShallow (rawPath : string) (value : any) : M any unit :=
  match value with
  | VMap valueMap =>
      root ← (λ root, (root, Ok root));
      resolved ← ofResult (expandPaths root rawPath);
      forEach (λ pointer, mergeShallowAtPointer pointer valueMap) resolved
  | _ => fail "mergeShallow value must be an object"
  end.

Definition applyOperation (operation : JSONPatchOperation) : M any unit :=
  let op := ToLower (Op operation) in
  if String.eqb op opAdd || String.eqb op opReplace || String.eqb op opRemove
  then applyRFC6902 op (OpPath operation) (Value operation)
  else if String.eqb op "mergeshallow" then applyMergeShallow (OpPath operation) (Value operation)
  else fail ("unsupported patch operation " +:+ quoted (Op operation) +:+
             " (supported: add, replace, remove, mergeShallow)").

(** The loop of [ApplyPatches] from the operation number [i] on. *)
Fixpoint applyFrom (i : nat) (operations : list JSONPatchOperation) : M any unit :=
  match operations with
  | [] => mret ()
  | operation :: rest =>
      _ ← wrapErr ("operation #" +:+ Itoa (Z.of_nat i) +:+ " failed") (applyOperation operation);
      applyFrom (S i) rest
  end.

Definition ApplyPatches (operations : list JSONPatchOperation) : M any unit := applyFrom 0 operations.
