(* ===== verification/PatchPathSpec.v ===== *)
(** * What a path expression stands for

    JSON Pointer escaping round-trips, and [expandPaths] returns exactly the
    pointers of the nodes the expression selects. *)

From S2P Require Import Prelude GoStrings GoValue PatchPath.

Open Scope go_scope.

(** ** Escaping *)

(** Byte-wise replacement. *)
Fixpoint map_bytes (f : ascii → string) (s : string) : string :=
  match s with
  | "" => ""
  | String c s => f c +:+ map_bytes f s
  end.

Lemma map_bytes_app f s t : map_bytes f (s +:+ t) = map_bytes f s +:+ map_bytes f t.
Proof. induction s as [|c s IH]; [done|]. rewrite sapp_cons. simpl. by rewrite IH, sapp_assoc. Qed.

Lemma map_bytes_map_bytes f g s : map_bytes g (map_bytes f s) = map_bytes (λ c, map_bytes g (f c)) s.
Proof. induction s as [|c s IH]; [done|]. simpl. by rewrite map_bytes_app, IH. Qed.

Lemma map_bytes_ext f g s : (∀ c, f c = g c) → map_bytes f s = map_bytes g s.
Proof. intros Hfg. induction s as [|c s IH]; [done|]. simpl. by rewrite Hfg, IH. Qed.

Lemma ReplaceAll_byte s c new :
  ReplaceAll s (String c "") new = map_bytes (λ d, if Ascii.eqb c d then new else String d "") s.
Proof.
  unfold ReplaceAll. induction s as [|d s IH]; [done|]. simpl.
  unfold HasPrefix. simpl. destruct (Ascii.ascii_dec c d) as [<-|Hne].
  - rewrite Ascii.eqb_refl. assert (String.prefix "" s = true) as -> by by destruct s. by rewrite IH.
  - rewrite (proj2 (Ascii.eqb_neq c d) Hne). by rewrite IH.
Qed.

Definition escape_byte (c : ascii) : string :=
  if Ascii.eqb "~" c then "~0" else if Ascii.eqb "/" c then "~1" else String c "".

Lemma escapePointerSegment_bytes s : escapePointerSegment s = map_bytes escape_byte s.
Proof.
  unfold escapePointerSegment. rewrite !ReplaceAll_byte, map_bytes_map_bytes.
  apply map_bytes_ext. intros c. unfold escape_byte.
  destruct (Ascii.eqb "~" c) eqn:E1; [done|].
  cbn [map_bytes]. rewrite sapp_nil_r. done.
Qed.

(** One step of the replacement of a two-byte needle. *)
Lemma replace2_hit a b new s :
  replace_go (String a (String b "")) new 0 (String a (String b s)) =
  new +:+ replace_go (String a (String b "")) new 0 s.
Proof.
  cbn [replace_go]. unfold HasPrefix. cbn [String.prefix].
  destruct (ascii_dec a a), (ascii_dec b b); try done. by destruct s.
Qed.

Lemma replace2_miss a b new c s :
  c ≠ a → replace_go (String a (String b "")) new 0 (String c s) =
  String c (replace_go (String a (String b "")) new 0 s).
Proof.
  intros Hne. cbn [replace_go]. unfold HasPrefix. cbn [String.prefix].
  by destruct (ascii_dec a c).
Qed.

Lemma replace2_miss_second a b new d s :
  d ≠ b → replace_go (String a (String b "")) new 0 (String a (String d s)) =
  String a (replace_go (String a (String b "")) new 0 (String d s)).
Proof.
  intros Hne. cbn [replace_go]. unfold HasPrefix. cbn [String.prefix].
  destruct (ascii_dec a a); [|done]. by destruct (ascii_dec b d).
Qed.

(** The two replacements of the decoder on an encoded text. *)
Lemma unescape_slash s :
  ReplaceAll (map_bytes escape_byte s) "~1" "/" =
  map_bytes (λ c, if Ascii.eqb "~" c then "~0" else String c "") s.
Proof.
  unfold ReplaceAll. induction s as [|c s IH]; [done|]. cbn [map_bytes].
  unfold escape_byte at 1. destruct (Ascii.eqb_spec "~" c) as [<-|H1].
  { rewrite !sapp_cons, !sapp_nil_l, replace2_miss_second, replace2_miss by done. by rewrite IH. }
  destruct (Ascii.eqb_spec "/" c) as [<-|H2];
    rewrite !sapp_cons, !sapp_nil_l; [rewrite replace2_hit|rewrite replace2_miss by done];
    by rewrite IH.
Qed.

Lemma unescape_tilde s :
  ReplaceAll (map_bytes (λ c, if Ascii.eqb "~" c then "~0" else String c "") s) "~0" "~" = s.
Proof.
  unfold ReplaceAll. induction s as [|c s IH]; [done|]. cbn [map_bytes].
  destruct (Ascii.eqb_spec "~" c) as [<-|H1]; rewrite !sapp_cons, !sapp_nil_l;
    [rewrite replace2_hit|rewrite replace2_miss by done]; by rewrite IH.
Qed.

Lemma unescape_escape s : unescapePointerSegment (escapePointerSegment s) = s.
Proof.
  unfold unescapePointerSegment. by rewrite escapePointerSegment_bytes, unescape_slash, unescape_tilde.
Qed.

Lemma escape_no_slash s : has_byte "/" (escapePointerSegment s) = false.
Proof.
  rewrite escapePointerSegment_bytes. induction s as [|c s IH]; [done|]. cbn [map_bytes].
  rewrite has_byte_app, IH, orb_false_r. unfold escape_byte.
  destruct (Ascii.eqb_spec "~" c) as [<-|H1]; [done|].
  destruct (Ascii.eqb_spec "/" c) as [<-|H2]; [done|].
  cbn [has_byte]. by rewrite bool_decide_eq_false_2.
Qed.

Lemma escape_nil s : escapePointerSegment s = "" → s = "".
Proof. intros Hs. by rewrite <- (unescape_escape s), Hs. Qed.

Lemma buildJSONPointer_join segs :
  segs ≠ [] → buildJSONPointer segs = "/" +:+ Join (escapePointerSegment <$> segs) "/".
Proof.
  assert (∀ seg, (if String.eqb seg "-" then seg else escapePointerSegment seg) =
    escapePointerSegment seg) as Hdash.
  { intros seg. by destruct (String.eqb_spec seg "-") as [->|]. }
  induction segs as [|seg segs IH]; [done|]. intros _. cbn [buildJSONPointer]. rewrite Hdash.
  destruct segs as [|seg' segs]; [simpl; by rewrite sapp_nil_r|].
  rewrite IH by done. done.
Qed.

Lemma splitPointer_build segs : splitPointer (buildJSONPointer segs) = segs.
Proof.
  destruct (decide (segs = [])) as [->|Hne]; [done|].
  rewrite buildJSONPointer_join by done. unfold splitPointer, splitAndUnescapePath.
  assert (∀ t, TrimPrefix ("/" +:+ t) "/" = t) as Htrim.
  { intros t. unfold TrimPrefix, HasPrefix. simpl. by destruct t. }
  rewrite Htrim. simpl. destruct (String.eqb_spec (Join (escapePointerSegment <$> segs) "/") "") as [Hj|Hj].
  - destruct segs as [|x [|y segs]]; [done| |].
    + simpl in Hj. by rewrite (escape_nil x Hj).
    + simpl in Hj. destruct (escapePointerSegment x); done.
  - rewrite (Split_Join "/").
    + rewrite <- list_fmap_compose. clear. induction segs as [|x segs IH]; [done|].
      rewrite fmap_cons, IH. f_equal. apply unescape_escape.
    + by destruct segs.
    + rewrite Forall_fmap. apply Forall_true. intros x. apply escape_no_slash.
Qed.

(** Splitting the pointer built from a list of segments gives the segments
    back, whatever slashes and tildes they contain. *)
Theorem pointer_roundtrip segs : splitPointer (buildJSONPointer segs) = segs.
Proof. apply splitPointer_build. Qed.

(** ** The nodes an expression selects *)

Inductive part :=
  | PKey (k : string)
  | PIndex (n : nat)
  | PFilter (expr : string)
  | PWildcard
  | PDash.

(** [selects v ps ptr w]: following the parts [ps] from the node [v] may lead
    to [w] along the pointer segments [ptr].  A missing key leads to nil, and so does
    every key below nil and the position after the last element. *)
Inductive selects : any → list part → list string → any → Prop :=
  | sel_done v : selects v [] [] v
  | sel_key m k ps ptr w :
      selects (default VNil (m !! k)) ps ptr w → selects (VMap m) (PKey k :: ps) (k :: ptr) w
  | sel_key_nil k ps ptr w :
      selects VNil ps ptr w → selects VNil (PKey k :: ps) (k :: ptr) w
  | sel_index v arr n x ps ptr w :
      toAnySlice v = Some arr → arr !! n = Some x →
      selects x ps ptr w → selects v (PIndex n :: ps) (Itoa (Z.of_nat n) :: ptr) w
  | sel_wildcard v arr n x ps ptr w :
      toAnySlice v = Some arr → arr !! n = Some x →
      selects x ps ptr w → selects v (PWildcard :: ps) (Itoa (Z.of_nat n) :: ptr) w
  | sel_filter v arr expr n x ps ptr w :
      toAnySlice v = Some arr → arr !! n = Some x → matchesFilter x expr = Ok true →
      selects x ps ptr w → selects v (PFilter expr :: ps) (Itoa (Z.of_nat n) :: ptr) w
  | sel_dash v ps ptr w :
      selects VNil ps ptr w → selects v (PDash :: ps) ("-" :: ptr) w.

Definition apply_part (p : part) (states : list pathState) : result (list pathState) :=
  match p with
  | PKey k => applyKey states k
  | PIndex n => applyIndex states (Z.of_nat n)
  | PFilter expr => applyFilter states expr
  | PWildcard => applyWildcard states
  | PDash => Ok (applyDash states)
  end.

Fixpoint run_parts (ps : list part) (states : list pathState) : result (list pathState) :=
  match ps with
  | [] => Ok states
  | p :: ps => let? states := apply_part p states in run_parts ps states
  end.

(** ** One part *)

Lemma expandEach_elem f states out st' :
  expandEach f states = Ok out →
  st' ∈ out ↔ ∃ st l, st ∈ states ∧ f st = Ok l ∧ st' ∈ l.
Proof.
  unfold expandEach. intros (next & Hm & [= <-])%result_bind_Ok.
  apply result_map_Ok in Hm. induction Hm as [|st l states next Hf _ IH]; simpl.
  - split; [by intros ?%elem_of_nil|]. intros (st & l & Hst & _). by apply elem_of_nil in Hst.
  - rewrite elem_of_app, IH. setoid_rewrite elem_of_cons. split.
    + intros [Hl|(st0 & l0 & ? & ? & ?)]; [by exists st, l; eauto|exists st0, l0; eauto].
    + intros (st0 & l0 & [->|Hst] & Hf0 & Hin); [left; congruence|right; eauto].
Qed.

Lemma expandEach_ok f states out :
  expandEach f states = Ok out → ∀ st, st ∈ states → ∃ l, f st = Ok l.
Proof.
  unfold expandEach. intros (next & Hm & _)%result_bind_Ok st Hst.
  apply result_map_Ok in Hm. induction Hm as [|st0 l states next Hf _ IH]; [by apply elem_of_nil in Hst|].
  apply elem_of_cons in Hst as [->|Hst]; eauto.
Qed.

Lemma elementStates_elem ptr i arr st :
  st ∈ elementStates ptr i arr ↔
  ∃ n x, arr !! n = Some x ∧ st = mkPathState (ptr ++ [Itoa (Z.of_nat (i + n))]) x.
Proof.
  revert i. induction arr as [|y arr IH]; intros i; simpl.
  - split; [by intros ?%elem_of_nil|]. by intros (n & x & Hn & _).
  - rewrite elem_of_cons, IH. split.
    + intros [->|(n & x & Hn & ->)].
      * exists 0, y. by rewrite Nat.add_0_r.
      * exists (S n), x. by rewrite Nat.add_succ_r.
    + intros ([|n] & x & Hn & ->); simpl in Hn.
      * left. injection Hn as ->. by rewrite Nat.add_0_r.
      * right. exists n, x. by rewrite Nat.add_succ_r.
Qed.

Lemma filterElements_elem expr l out st :
  filterElements expr l = Ok out →
  st ∈ out ↔ st ∈ l ∧ matchesFilter (ps_value st) expr = Ok true.
Proof.
  revert out. induction l as [|x l IH]; intros out; simpl.
  - intros [= <-]. split; [by intros ?%elem_of_nil|]. by intros [?%elem_of_nil _].
  - intros (m & Hm & (next & Hn & [= <-])%result_bind_Ok)%result_bind_Ok.
    specialize (IH next Hn). rewrite elem_of_cons. destruct m.
    + rewrite elem_of_cons, IH. naive_solver.
    + rewrite IH. split; [naive_solver|]. intros [[->|Hl] Hf]; [congruence|done].
Qed.

(** A single part from one state to the next. *)
Definition part_step (p : part) (st st' : pathState) : Prop :=
  ∃ seg, ps_pointer st' = ps_pointer st ++ [seg] ∧ selects (ps_value st) [p] [seg] (ps_value st').

Ltac invert_selects H := inversion H; subst; clear H.

Lemma selects_one p v seg w ps ptr w' :
  selects v [p] [seg] w → selects w ps ptr w' → selects v (p :: ps) (seg :: ptr) w'.
Proof.
  intros H1 H2. invert_selects H1;
    match goal with H : selects _ [] [] _ |- _ => invert_selects H end; by econstructor.
Qed.

Lemma selects_cons v p ps ptr w :
  selects v (p :: ps) ptr w →
  ∃ seg rest x, ptr = seg :: rest ∧ selects v [p] [seg] x ∧ selects x ps rest w.
Proof.
  intros H. invert_selects H;
    eexists _, _, _; (split; [reflexivity|split; [|eassumption]]); by repeat econstructor.
Qed.

Definition part_wf (p : part) : Prop := match p with PKey k => k ≠ "" | _ => True end.

Lemma elements_step ptr v arr st' :
  toAnySlice v = Some arr →
  st' ∈ elementStates ptr 0 arr ↔
  ∃ n, ps_pointer st' = ptr ++ [Itoa (Z.of_nat n)] ∧ arr !! n = Some (ps_value st').
Proof.
  intros _. rewrite elementStates_elem. simpl. split.
  - intros (n & x & Hn & ->). by exists n.
  - intros (n & Hp & Hn). exists n, (ps_value st'). split; [done|]. destruct st'. simpl in *. by subst.
Qed.

Lemma key_step k st st' :
  part_step (PKey k) st st' ↔
  ps_pointer st' = ps_pointer st ++ [k] ∧
  (ps_value st = VNil ∧ ps_value st' = VNil ∨
   ∃ m, ps_value st = VMap m ∧ ps_value st' = default VNil (m !! k)).
Proof.
  unfold part_step. split.
  - intros (seg & Hp & H). invert_selects H;
      match goal with H : selects _ [] [] _ |- _ => invert_selects H end; eauto 6.
  - intros (Hp & [[H1 H2]|(m & H1 & H2)]); exists k; rewrite H1, H2; by repeat constructor.
Qed.

Lemma applyKey_elem k states out st' :
  k ≠ "" → applyKey states k = Ok out →
  st' ∈ out ↔ ∃ st, st ∈ states ∧ part_step (PKey k) st st'.
Proof.
  intros Hwf Hout.
  unfold applyKey in Hout. rewrite (proj2 (String.eqb_neq _ _) Hwf) in Hout.
  rewrite (expandEach_elem _ _ _ _ Hout). setoid_rewrite key_step. split.
  - intros (st & l & Hst & Hf & Hin). exists st. split; [done|].
    destruct (ps_value st) eqn:Ev; try done; injection Hf as <-;
      apply list_elem_of_singleton in Hin as ->; simpl; eauto 6.
  - intros (st & Hst & Hp & [[H1 H2]|(m & H1 & H2)]); eexists st, [st']; rewrite H1;
      (split; [done|]); (split; [|by left]); destruct st'; simpl in *; by subst.
Qed.

Lemma applyIndex_elem n states out st' :
  applyIndex states (Z.of_nat n) = Ok out →
  st' ∈ out ↔ ∃ st, st ∈ states ∧ part_step (PIndex n) st st'.
Proof.
  intros Hout.
  rewrite (expandEach_elem _ _ _ _ Hout). split.
  - intros (st & l & Hst & Hf & Hin). exists st. split; [done|].
    destruct (toAnySlice (ps_value st)) as [arr|] eqn:Ea; [|done].
    destruct (_ || _) eqn:Eb in Hf; [done|]. bool_simpl. injection Hf as <-. apply list_elem_of_singleton in Hin as ->.
    rewrite Nat2Z.id. destruct (lookup_lt_is_Some_2 arr n) as [x Hx]; [lia|].
    eexists. split; [reflexivity|]. rewrite Hx. by repeat econstructor.
  - intros (st & Hst & seg & Hp & H). invert_selects H.
    match goal with H : selects _ [] [] _ |- _ => invert_selects H end.
    match goal with Ha : toAnySlice _ = Some ?a, Hx : ?a !! n = _ |- _ =>
      pose proof (lookup_lt_Some _ _ _ Hx); exists st, [st']; rewrite Ha end.
    split; [done|]. split; [|by left].
    match goal with |- (if ?b then _ else _) = _ => replace b with false by (symmetry; lia) end.
    rewrite Nat2Z.id. do 2 f_equal. destruct st'; simpl in *. subst.
    match goal with Hx : _ !! n = Some _ |- _ => by rewrite Hx end.
Qed.

Lemma applyFilter_elem expr states out st' :
  applyFilter states expr = Ok out →
  st' ∈ out ↔ ∃ st, st ∈ states ∧ part_step (PFilter expr) st st'.
Proof.
  intros Hout.
  rewrite (expandEach_elem _ _ _ _ Hout). split.
  - intros (st & l & Hst & Hf & Hin). exists st. split; [done|].
    destruct (toAnySlice (ps_value st)) as [arr|] eqn:Ea; [|done].
    apply (filterElements_elem _ _ _ _ Hf) in Hin as [Hin Hm].
    apply (elements_step _ _ _ _ Ea) in Hin as (n & Hp & Hn).
    eexists. split; [exact Hp|]. by repeat econstructor.
  - intros (st & Hst & seg & Hp & H). invert_selects H.
    match goal with H : selects _ [] [] _ |- _ => invert_selects H end.
    destruct (expandEach_ok _ _ _ Hout st Hst) as [l Hl]. exists st, l. split; [done|].
    split; [done|]. destruct (toAnySlice (ps_value st)) as [a|] eqn:Ea; simplify_eq.
    apply (filterElements_elem _ _ _ _ Hl). split; [|done]. apply (elements_step _ _ _ _ Ea). eauto.
Qed.

Lemma applyWildcard_elem states out st' :
  applyWildcard states = Ok out →
  st' ∈ out ↔ ∃ st, st ∈ states ∧ part_step PWildcard st st'.
Proof.
  intros Hout.
  rewrite (expandEach_elem _ _ _ _ Hout). split.
  - intros (st & l & Hst & Hf & Hin). exists st. split; [done|].
    destruct (toAnySlice (ps_value st)) as [arr|] eqn:Ea; [|done]. injection Hf as <-.
    apply (elements_step _ _ _ _ Ea) in Hin as (n & Hp & Hn).
    eexists. split; [exact Hp|]. by repeat econstructor.
  - intros (st & Hst & seg & Hp & H). invert_selects H.
    match goal with H : selects _ [] [] _ |- _ => invert_selects H end.
    destruct (expandEach_ok _ _ _ Hout st Hst) as [l Hl]. exists st, l. split; [done|].
    split; [done|]. destruct (toAnySlice (ps_value st)) as [a|] eqn:Ea; simplify_eq.
    apply (elements_step _ _ _ _ Ea). eauto.
Qed.

Lemma applyDash_elem states st' :
  st' ∈ applyDash states ↔ ∃ st, st ∈ states ∧ part_step PDash st st'.
Proof.
  unfold applyDash. rewrite list_elem_of_fmap. split.
  - intros (st & -> & Hst). exists st. split; [done|]. exists "-". split; [done|]. by repeat constructor.
  - intros (st & Hst & seg & Hp & H). invert_selects H.
    match goal with H : selects _ [] [] _ |- _ => invert_selects H end.
    exists st. split; [|done]. destruct st'; simpl in *. by subst.
Qed.

Lemma apply_part_elem p states out st' :
  part_wf p → apply_part p states = Ok out →
  st' ∈ out ↔ ∃ st, st ∈ states ∧ part_step p st st'.
Proof.
  destruct p as [k|n|expr| |]; simpl; intros Hwf Hout.
  - by apply applyKey_elem.
  - by apply applyIndex_elem.
  - by apply applyFilter_elem.
  - by apply applyWildcard_elem.
  - injection Hout as <-. apply applyDash_elem.
Qed.

(** ** Several parts, segments and paths *)

(** [st'] is a node selected from [st]. *)
Definition reached (ps : list part) (st st' : pathState) : Prop :=
  ∃ ptr, ps_pointer st' = ps_pointer st ++ ptr ∧ selects (ps_value st) ps ptr (ps_value st').

Lemma reached_nil st st' : reached [] st st' ↔ st' = st.
Proof.
  split.
  - intros (ptr & Hp & H). invert_selects H. rewrite app_nil_r in Hp. destruct st, st'; simpl in *; by subst.
  - intros ->. exists []. rewrite app_nil_r. by repeat constructor.
Qed.

Lemma reached_cons p ps st st' :
  reached (p :: ps) st st' ↔ ∃ mid, part_step p st mid ∧ reached ps mid st'.
Proof.
  split.
  - intros (ptr & Hp & (seg & rest & x & -> & Hone & Hrest)%selects_cons).
    exists (mkPathState (ps_pointer st ++ [seg]) x). split; [by exists seg|].
    exists rest. simpl. by rewrite <- app_assoc.
  - intros (mid & (seg & Hp & Hone) & (rest & Hp' & Hrest)). exists (seg :: rest).
    rewrite Hp', Hp, <- app_assoc. split; [done|]. by eapply selects_one.
Qed.

Lemma reached_app ps1 ps2 st st' :
  reached (ps1 ++ ps2) st st' ↔ ∃ mid, reached ps1 st mid ∧ reached ps2 mid st'.
Proof.
  revert st. induction ps1 as [|p ps1 IH]; intros st; simpl.
  - setoid_rewrite reached_nil. naive_solver.
  - setoid_rewrite reached_cons. setoid_rewrite IH. naive_solver.
Qed.

Lemma run_parts_elem ps states out st' :
  Forall part_wf ps → run_parts ps states = Ok out →
  st' ∈ out ↔ ∃ st, st ∈ states ∧ reached ps st st'.
Proof.
  intros Hwf. revert states. induction Hwf as [|p ps Hp _ IH]; intros states; simpl.
  - intros [= <-]. setoid_rewrite reached_nil. naive_solver.
  - intros (mid & Hmid & Hout)%result_bind_Ok. rewrite (IH _ Hout).
    setoid_rewrite (apply_part_elem p states mid _ Hp Hmid). setoid_rewrite reached_cons. naive_solver.
Qed.

(** The syntax of a segment: the append marker, or an optional key or index
    followed by brackets. *)
Inductive head_part := HNone | HKey (k : string) | HIndex (n : nat).

Inductive bracket := BIndex (n : nat) | BFilter (expr : string) | BWildcard | BDash.

Inductive segment_expr :=
  | SDash
  | SParts (h : head_part) (bs : list bracket).

Definition bracket_content (b : bracket) : string :=
  match b with
  | BIndex n => Itoa (Z.of_nat n)
  | BFilter expr => "?(" +:+ expr +:+ ")"
  | BWildcard => "*"
  | BDash => "-"
  end.

Fixpoint show_brackets (bs : list bracket) : string :=
  match bs with
  | [] => ""
  | b :: bs => String "[" (bracket_content b +:+ String "]" (show_brackets bs))
  end.

Definition show_head (h : head_part) : string :=
  match h with
  | HNone => ""
  | HKey k => k
  | HIndex n => Itoa (Z.of_nat n)
  end.

Definition show_segment (s : segment_expr) : string :=
  match s with
  | SDash => "-"
  | SParts h bs => show_head h +:+ show_brackets bs
  end.

Definition bracket_part (b : bracket) : part :=
  match b with
  | BIndex n => PIndex n
  | BFilter expr => PFilter expr
  | BWildcard => PWildcard
  | BDash => PDash
  end.

Definition head_parts (h : head_part) : list part :=
  match h with
  | HNone => []
  | HKey k => [PKey k]
  | HIndex n => [PIndex n]
  end.

Definition segment_parts (s : segment_expr) : list part :=
  match s with
  | SDash => [PDash]
  | SParts h bs => head_parts h ++ (bracket_part <$> bs)
  end.

Definition bracket_wf (b : bracket) : Prop :=
  match b with
  | BIndex n => in_int (Z.of_nat n) = true
  | BFilter expr => has_byte "]" expr = false
  | _ => True
  end.

(** A key is not a number and holds no bracket. *)
Definition head_wf (h : head_part) : Prop :=
  match h with
  | HNone => True
  | HKey k => k ≠ "" ∧ Atoi k = None ∧ has_byte "[" k = false
  | HIndex n => in_int (Z.of_nat n) = true
  end.

Definition segment_wf (s : segment_expr) : Prop :=
  match s with
  | SDash => True
  | SParts h bs => head_wf h ∧ Forall bracket_wf bs ∧ show_segment s ≠ "-"
  end.

Lemma applyBracket_content b states :
  bracket_wf b → applyBracket states (bracket_content b) = apply_part (bracket_part b) states.
Proof.
  destruct b as [n|expr| |]; intros Hwf; try done; unfold applyBracket; simpl bracket_content.
  - destruct (HasPrefix (Itoa (Z.of_nat n)) "?(") eqn:Ep.
    { apply HasPrefix_spec in Ep as [k Hk]. pose proof (Itoa_nat_bytes n "?" eq_refl) as Hq.
      by rewrite Hk in Hq. }
    destruct (String.eqb_spec (Itoa (Z.of_nat n)) "*") as [Es|_].
    { pose proof (Itoa_nat_bytes n "*" eq_refl) as Hq. by rewrite Es in Hq. }
    destruct (String.eqb_spec (Itoa (Z.of_nat n)) "-") as [Es|_].
    { pose proof (Itoa_nat_bytes n "-" eq_refl) as Hq. by rewrite Es in Hq. }
    simpl. by rewrite Atoi_Itoa.
  - assert (HasPrefix ("?(" +:+ expr +:+ ")") "?(" = true) as -> by (apply HasPrefix_spec; by eexists).
    assert (HasSuffix ("?(" +:+ expr +:+ ")") ")" = true) as ->.
    { apply HasSuffix_spec. exists ("?(" +:+ expr). by rewrite sapp_assoc. }
    cbn [andb]. rewrite !sapp_length.
    replace (String.length "?(" + (String.length expr + String.length ")") - 3)
      with (String.length expr) by (simpl; lia).
    assert (sdrop 2 ("?(" +:+ expr +:+ ")") = expr +:+ ")") as -> by (by rewrite (sdrop_app "?(")).
    by rewrite stake_app.
Qed.

Lemma bracket_content_no_close b : bracket_wf b → has_byte "]" (bracket_content b) = false.
Proof.
  destruct b as [n|expr| |]; intros Hwf; try done; simpl bracket_content.
  - by apply Itoa_nat_bytes.
  - rewrite !has_byte_app. simpl in Hwf. by rewrite Hwf.
Qed.

(** Brackets, one after the other. *)
Lemma segmentLoop_brackets fuel segment bs states :
  Forall bracket_wf bs → String.length (show_brackets bs) ≤ fuel →
  segmentLoop fuel segment states (show_brackets bs) = run_parts (bracket_part <$> bs) states.
Proof.
  intros Hwf. revert fuel states. induction Hwf as [|b bs Hb _ IH]; intros fuel states Hfuel.
  { by destruct fuel. }
  cbn [show_brackets] in *. destruct fuel as [|fuel]; [simpl in Hfuel; lia|].
  cbn [segmentLoop]. simpl String.eqb. cbn iota.
  assert (∀ t, HasPrefix (String "[" t) "[" = true) as -> by (by intros []).
  rewrite <- sapp_cons, IndexByte_app by (simpl; by apply bracket_content_no_close).
  simpl String.length. rewrite Nat.sub_succ, Nat.sub_0_r. cbn [sdrop].
  rewrite sapp_cons. simpl sdrop at 1. rewrite stake_app, applyBracket_content by done.
  cbn [fmap list_fmap run_parts]. destruct (apply_part (bracket_part b) states) as [next|]; [|done].
  simpl result_bind. cbn [sdrop]. rewrite sdrop_app_sep. apply IH.
  simpl in Hfuel. rewrite sapp_length in Hfuel. simpl in Hfuel. lia.
Qed.

Definition head_text_wf (token : string) : Prop := token ≠ "" ∧ has_byte "[" token = false.

Lemma segmentLoop_token fuel segment token bs states :
  head_text_wf token → Forall bracket_wf bs →
  String.length (token +:+ show_brackets bs) ≤ fuel →
  segmentLoop fuel segment states (token +:+ show_brackets bs) =
  let? states := applyToken states token in run_parts (bracket_part <$> bs) states.
Proof.
  intros [Hne Hb] Hbs Hfuel. rewrite sapp_length in Hfuel.
  destruct token as [|c token]; [done|]. destruct fuel as [|fuel]; [simpl in Hfuel; lia|].
  cbn [segmentLoop]. rewrite sapp_cons. simpl String.eqb. cbn iota.
  assert (HasPrefix (String c (token +:+ show_brackets bs)) "[" = false) as ->.
  { apply not_true_iff_false. intros [k Hk]%HasPrefix_spec. injection Hk as -> _. done. }
  rewrite <- sapp_cons. simpl in Hfuel.
  assert (∀ states', segmentLoop fuel segment states' (show_brackets bs) =
    run_parts (bracket_part <$> bs) states') as Hrest
    by (intros; apply segmentLoop_brackets; [done|lia]).
  destruct bs as [|b bs]; cbn [show_brackets] in *.
  - rewrite sapp_nil_r, IndexByte_None by done. f_equal. by destruct fuel.
  - rewrite IndexByte_app, stake_app, sdrop_app by done.
    destruct (applyToken states (String c token)); [|done]. apply Hrest.
Qed.

Lemma applySegment_parts st h bs :
  head_wf h → Forall bracket_wf bs →
  applySegment st (show_head h +:+ show_brackets bs) =
  run_parts (head_parts h ++ (bracket_part <$> bs)) [st].
Proof.
  intros Hh Hbs. unfold applySegment. destruct h as [|k|n]; simpl show_head; simpl head_parts.
  - rewrite sapp_nil_l. by apply segmentLoop_brackets.
  - destruct Hh as (Hne & Ha & Hb). rewrite segmentLoop_token by done.
    unfold applyToken. rewrite Ha. done.
  - rewrite segmentLoop_token; [|split|done|done].
    + unfold applyToken. rewrite Atoi_Itoa by done. done.
    + intros He. apply (f_equal Atoi) in He. by rewrite Atoi_Itoa in He.
    + by apply Itoa_nat_bytes.
Qed.

(** ** Whole paths *)

Lemma expandStates_elem segment next states out st' ps :
  (∀ st, applySegment st segment = run_parts ps [st]) → Forall part_wf ps →
  expandStates segment next states = Ok out →
  st' ∈ out ↔ st' ∈ next ∨ ∃ st, st ∈ states ∧ reached ps st st'.
Proof.
  intros Hseg Hwf. revert next. induction states as [|st states IH]; intros next; simpl.
  - intros [= <-]. split; [by left|]. intros [?|(st & Hst & _)]; [done|by apply elem_of_nil in Hst].
  - intros (l & Hl & Hout)%result_bind_Ok. rewrite Hseg in Hl. destruct (_ <? _)%Z in Hout; [done|].
    rewrite (IH _ Hout), elem_of_app, (run_parts_elem ps [st] l st' Hwf Hl).
    setoid_rewrite elem_of_cons. setoid_rewrite elem_of_nil. naive_solver.
Qed.

Lemma segment_parts_wf s : segment_wf s → Forall part_wf (segment_parts s).
Proof.
  destruct s as [|h bs]; simpl; [by repeat constructor|]. intros (Hh & _ & _).
  apply Forall_app. split; [destruct h; repeat constructor; by destruct Hh|].
  apply Forall_fmap, Forall_true. by intros [].
Qed.

Lemma expandSegments_elem segs states out st' :
  Forall segment_wf segs → expandSegments (show_segment <$> segs) states = Ok out →
  st' ∈ out ↔ ∃ st, st ∈ states ∧ reached (concat (segment_parts <$> segs)) st st'.
Proof.
  intros Hwf. revert states. induction Hwf as [|s segs Hs Hwf IH]; intros states.
  { simpl. intros [= <-]. setoid_rewrite reached_nil. naive_solver. }
  cbn [fmap list_fmap expandSegments concat]. setoid_rewrite reached_app.
  destruct s as [|h bs]; simpl.
  - intros Hout. rewrite (IH _ Hout). setoid_rewrite applyDash_elem.
    setoid_rewrite reached_cons. setoid_rewrite reached_nil. naive_solver.
  - pose proof (segment_parts_wf _ Hs) as Hps. destruct Hs as (Hh & Hbs & Hdash).
    simpl in Hdash. rewrite (proj2 (String.eqb_neq _ _) Hdash).
    intros (mid & Hmid & Hout)%result_bind_Ok.
    pose proof (λ x, expandStates_elem _ [] states mid x _ (λ st, applySegment_parts st h bs Hh Hbs)
      Hps Hmid) as Hel.
    assert (∀ x, x ∈ mid ↔ ∃ st, st ∈ states ∧ reached (head_parts h ++ (bracket_part <$> bs)) st x)
      as Hmid'.
    { intros x. rewrite Hel. split; [by intros [?%elem_of_nil|?]|by right]. }
    assert (st' ∈ out ↔ ∃ st, st ∈ mid ∧ reached (concat (segment_parts <$> segs)) st st') as ->.
    { destruct mid as [|x mid]; [|by apply IH]. injection Hout as <-.
      split; [by intros ?%elem_of_nil|]. by intros (st & ?%elem_of_nil & _). }
    setoid_rewrite Hmid'. naive_solver.
Qed.

(** C29: [expandPaths] on a well-formed path expression returns exactly the
    pointers of the nodes the expression selects: keys, indices, wildcards
    and filters select what they say, and nothing else is returned. *)
Theorem expandPaths_selects root segs pointers :
  segs ≠ [] → Forall segment_wf segs →
  expandPaths root (buildJSONPointer (show_segment <$> segs)) = Ok pointers →
  ∀ p, p ∈ pointers ↔
    ∃ ptr w, selects root (concat (segment_parts <$> segs)) ptr w ∧ p = buildJSONPointer ptr.
Proof.
  intros Hne Hwf. unfold expandPaths.
  destruct (String.eqb_spec (buildJSONPointer (show_segment <$> segs)) "") as [He|_].
  { rewrite buildJSONPointer_join in He by by destruct segs. done. }
  unfold splitRawPath. fold (splitPointer (buildJSONPointer (show_segment <$> segs))).
  rewrite splitPointer_build. intros (out & Hout & [= <-])%result_bind_Ok p.
  rewrite list_elem_of_fmap. setoid_rewrite (expandSegments_elem _ _ _ _ Hwf Hout). split.
  - intros (st' & -> & st & ->%list_elem_of_singleton & ptr & Hp & Hsel). simpl in *. rewrite Hp. eauto.
  - intros (ptr & w & Hsel & ->). exists (mkPathState ptr w). split; [done|].
    exists (mkPathState [] root). split; [by left|]. by exists ptr.
Qed.
