(* ===== verification/PatchOpsSpec.v ===== *)
(** * What the patch operations do to a document

    Reading back what an operation wrote, the nodes it leaves alone, and the
    inverse of one operation by another, for pointers to existing nodes and
    for the parents an addition creates. *)

From S2P Require Import Prelude GoStrings GoValue PatchPath PatchPathSpec PatchOps.

Open Scope go_scope.

(** ** Pointers to nodes *)

Definition accessor_segment (a : accessor) : string :=
  match a with
  | AKey k => k
  | AIdx n => Itoa (Z.of_nat n)
  end.

Definition ref_segments (r : ref) : list string := accessor_segment <$> r.

Definition ref_pointer (r : ref) : string := buildJSONPointer (ref_segments r).

(** A key the pointer syntax does not take for an index. *)
Definition plain_key (k : string) : Prop := k ≠ "" ∧ k ≠ "-" ∧ Atoi k = None.

(** The pointers the engine can follow from the node [v]: the parents exist,
    and an element belongs to an array that is the value of a key.  The node
    itself may be missing. *)
Inductive routed : any → ref → Prop :=
  | routed_key m k : plain_key k → routed (VMap m) [AKey k]
  | routed_elem m k n c arr :
      plain_key k → in_int (Z.of_nat n) = true → m !! k = Some c → toAnySlice c = Some arr →
      routed (VMap m) [AKey k; AIdx n]
  | routed_key_cons m k c r :
      plain_key k → m !! k = Some c → routed c r → routed (VMap m) (AKey k :: r)
  | routed_elem_cons m k n c arr x r :
      plain_key k → in_int (Z.of_nat n) = true → m !! k = Some c → toAnySlice c = Some arr →
      arr !! n = Some x → routed x r → routed (VMap m) (AKey k :: AIdx n :: r).

Lemma isArrayIndex_key k : plain_key k → isArrayIndex k = ((-1)%Z, false).
Proof.
  intros (_ & Hd & Ha). unfold isArrayIndex. by rewrite (proj2 (String.eqb_neq _ _) Hd), Ha.
Qed.

Lemma Itoa_nat_dash n : Itoa (Z.of_nat n) ≠ "-".
Proof. intros He. pose proof (Itoa_nat_bytes n "-" eq_refl) as Hb. by rewrite He in Hb. Qed.

Lemma isArrayIndex_nat n :
  in_int (Z.of_nat n) = true → isArrayIndex (Itoa (Z.of_nat n)) = (Z.of_nat n, true).
Proof.
  intros Hn. unfold isArrayIndex.
  by rewrite (proj2 (String.eqb_neq _ _) (Itoa_nat_dash n)), Atoi_Itoa.
Qed.

Lemma routed_head v r : routed v r → ∃ m k r', v = VMap m ∧ r = AKey k :: r' ∧ plain_key k.
Proof. inversion 1; subst; eauto 6. Qed.

Lemma in_range_lt n len : n < len → in_range (Z.of_nat n) len = true.
Proof. intros Hn. unfold in_range. apply negb_true_iff, orb_false_iff. lia. Qed.

(** ** Following a pointer *)

(** Two documents agree except on the nodes above [r] and [r] itself. *)
Definition agree_off (r : ref) (v v' : any) : Prop :=
  ∀ r', ¬ r' `prefix_of` r → get v' r' = get v r'.

Lemma agree_off_refl r v : agree_off r v v.
Proof. by intros r' _. Qed.

Lemma agree_off_trans r v1 v2 v3 : agree_off r v1 v2 → agree_off r v2 v3 → agree_off r v1 v3.
Proof. intros H1 H2 r' Hr. by rewrite (H2 r' Hr), (H1 r' Hr). Qed.

Lemma agree_off_prefix r r' v v' : agree_off r v v' → r `prefix_of` r' → agree_off r' v v'.
Proof. intros Ha Hp r0 Hn. apply Ha. intros Hp'. apply Hn. by trans r. Qed.

(** Normalising a typed slice keeps its elements. *)
Lemma normalise_agree root current m seg c arr :
  get root current = Some (VMap m) → m !! seg = Some c → toAnySlice c = Some arr →
  agree_off (current ++ [AKey seg]) root (put root (current ++ [AKey seg]) (VSlice arr)).
Proof.
  intros Hcur Hseg Harr r' Hn. pose proof (writable_key root current seg m (VSlice arr) Hcur) as Hw.
  destruct (decide (current ++ [AKey seg] `prefix_of` r')) as [[t ->]|Hp].
  - rewrite get_put_app by done. destruct t as [|a t]; [by destruct Hn; rewrite app_nil_r|].
    rewrite get_app, get_snoc, Hcur. simpl. rewrite Hseg. simpl.
    destruct a as [k|n]; [by destruct c|]. by rewrite (toAnySlice_child _ _ n Harr).
  - by apply get_put_other.
Qed.

(** The container of a node in the document [root'], as [navigateForPatch]
    returns it; [root] is the document before typed slices were normalised. *)
Inductive located (root root' : any) (r : ref) : ref * string * string → Prop :=
  | at_key c k m :
      r = c ++ [AKey k] → get root' c = Some (VMap m) → get root' r = get root r →
      located root root' r (c, "", k)
  | at_elem c k n m v arr :
      r = c ++ [AKey k; AIdx n] → k ≠ "" → in_int (Z.of_nat n) = true →
      get root (c ++ [AKey k]) = Some v → toAnySlice v = Some arr →
      get root' c = Some (VMap m) → m !! k = Some (VSlice arr) →
      located root root' r (c, k, Itoa (Z.of_nat n)).

Lemma load_run root r v : get root r = Some v → load r root = (root, Ok v).
Proof. intros Hg. unfold load. by rewrite Hg. Qed.

(** Normalising an array further up does not matter to a node below it. *)
Lemma located_through root root1 root' q r loc :
  agree_off q root root1 → S (length q) < length r →
  located root1 root' r loc → located root root' r loc.
Proof.
  intros Ha Hlen. assert (∀ r', length q < length r' → get root1 r' = get root r') as Hget.
  { intros r' Hr'. apply Ha. intros Hp%prefix_length. lia. }
  intros [c k m Hc Hm Hg|c k n m v arr Hc Hk Hn Hv Harr Hm Hl].
  - apply (at_key _ _ _ c k m); [done..|]. rewrite Hg. apply Hget. lia.
  - apply (at_elem _ _ _ c k n m v arr); try done. rewrite <- Hv. symmetry. apply Hget.
    rewrite Hc, !length_app in Hlen. rewrite length_app. simpl in *. lia.
Qed.

(** What [navigateLoop] finds: the container of the node, in a document that
    differs from the old one by normalised slices only. *)
Definition navigates (root : any) (current : ref) (r : ref) : Prop :=
  ∃ root' loc, navigateLoop current (ref_segments r) root = (root', Ok loc) ∧
    located root root' (current ++ r) loc ∧ agree_off (current ++ r) root root'.

Lemma navigateLoop_cons root current seg next rest m :
  get root current = Some (VMap m) →
  navigateLoop current (seg :: next :: rest) root =
  match m !! seg with
  | None => (root, Err ("path does not exist at segment " +:+ quoted seg))
  | Some child =>
      let '(index, isIndex) := isArrayIndex next in
      if isIndex || String.eqb next "-" then
        match toAnySlice child with
        | None => (root, Err ("expected array at " +:+ quoted seg +:+ ", got " +:+ type_name child))
        | Some arr =>
            let root1 := put root (current ++ [AKey seg]) (VSlice arr) in
            match rest with
            | [] => (root1, Ok (current, seg, next))
            | _ =>
                if in_range index (length arr)
                then navigateLoop (current ++ [AKey seg; AIdx (Z.to_nat index)]) rest root1
                else (root1, Err ("array index " +:+ Itoa index +:+ " out of bounds at " +:+ quoted seg))
            end
        end
      else navigateLoop (current ++ [AKey seg]) (next :: rest) root
  end.
Proof.
  intros Hg. cbn [navigateLoop]. unfold mbind, M_bind. rewrite (load_run _ _ _ Hg).
  destruct (m !! seg) as [c|]; [|done]. destruct (isArrayIndex next) as [i b].
  destruct (b || String.eqb next "-"); [|done]. destruct (toAnySlice c) as [arr|]; [|done].
  cbn. destruct rest; [done|]. by destruct (in_range i (length arr)).
Qed.

Lemma navigate_elem root current m k n c arr r :
  get root current = Some (VMap m) → plain_key k → in_int (Z.of_nat n) = true →
  m !! k = Some c → toAnySlice c = Some arr →
  let root1 := put root (current ++ [AKey k]) (VSlice arr) in
  match r with
  | [] => navigates root current [AKey k; AIdx n]
  | _ => n < length arr → navigates root1 (current ++ [AKey k; AIdx n]) r →
         navigates root current (AKey k :: AIdx n :: r)
  end.
Proof.
  intros Hg Hk Hn Hc Harr root1. destruct Hk as (Hk & Hd & Ha).
  pose proof (normalise_agree root current m k c arr Hg Hc Harr) as Hagree. fold root1 in Hagree.
  destruct r as [|a r].
  - exists root1, (current, k, Itoa (Z.of_nat n)). split; [|split].
    + unfold ref_segments. cbn [fmap list_fmap accessor_segment].
      rewrite (navigateLoop_cons root current k _ [] m Hg), Hc, isArrayIndex_nat, Harr by done. done.
    + apply (at_elem _ _ _ current k n (<[k := VSlice arr]> m) c arr); try done.
      * rewrite get_snoc, Hg. done.
      * by apply get_put_key.
      * by rewrite lookup_insert_eq.
    + eapply agree_off_prefix; [exact Hagree|]. exists [AIdx n]. by rewrite <- app_assoc.
  - intros Hlt (root' & loc & Hnav & Hloc & Hoff). exists root', loc. rewrite <- app_assoc in Hloc, Hoff.
    split; [|split].
    + unfold ref_segments. cbn [fmap list_fmap accessor_segment].
      rewrite (navigateLoop_cons root current k _ _ m Hg), Hc, isArrayIndex_nat, Harr by done.
      simpl orb. cbn iota. rewrite in_range_lt, Nat2Z.id by done. exact Hnav.
    + apply (located_through _ root1 _ (current ++ [AKey k])); [done| |exact Hloc].
      rewrite !length_app. simpl. lia.
    + apply (agree_off_trans _ _ root1); [|done].
      eapply agree_off_prefix; [exact Hagree|]. exists (AIdx n :: a :: r). by rewrite <- app_assoc.
Qed.

Lemma navigate_routed v r root current :
  routed v r → get root current = Some v → navigates root current r.
Proof.
  intros Hr. revert root current.
  induction Hr as [m k Hk|m k n c arr Hk Hn Hc Harr|m k c r Hk Hc Hr IH|m k n c arr x r Hk Hn Hc Harr Hx Hr IH];
    intros root current Hg.
  - exists root, (current, "", k). split; [|split; [|apply agree_off_refl]].
    + unfold ref_segments. cbn. unfold mbind, M_bind. by rewrite (load_run _ _ _ Hg).
    + by apply (at_key _ _ _ current k m).
  - exact (navigate_elem root current m k n c arr [] Hg Hk Hn Hc Harr).
  - destruct (routed_head _ _ Hr) as (m' & k' & r' & -> & -> & Hk').
    destruct (IH root (current ++ [AKey k])) as (root' & loc & Hnav & Hloc & Hoff).
    { rewrite get_snoc, Hg. done. }
    exists root', loc. rewrite <- app_assoc in Hloc, Hoff. split; [|done].
    unfold ref_segments in *. cbn [fmap list_fmap accessor_segment] in *.
    rewrite (navigateLoop_cons root current k _ _ m Hg), Hc, isArrayIndex_key by done.
    destruct Hk' as (_ & Hd & _). rewrite (proj2 (String.eqb_neq _ _) Hd). exact Hnav.
  - pose proof (navigate_elem root current m k n c arr r Hg Hk Hn Hc Harr) as Hstep. cbv zeta in Hstep.
    destruct (routed_head _ _ Hr) as (m' & k' & r' & -> & -> & Hk').
    apply Hstep; [by apply lookup_lt_Some in Hx|]. apply IH.
    rewrite (normalise_agree root current m k c arr Hg Hc Harr).
    + rewrite get_app, Hg. simpl. rewrite Hc. simpl.
      rewrite (toAnySlice_child _ _ n Harr), Hx. done.
    + intros Hp%prefix_length. rewrite !length_app in Hp. simpl in Hp. lia.
Qed.

Lemma entry_some m k v : m !! k = Some v → entry (VMap m) k = v.
Proof. intros Hm. unfold entry. simpl. by rewrite Hm. Qed.

(** ** One operation at a pointer *)

Definition dispatch (op : string) (c : ref) (arrayKey lastSeg : string) (value : any) : M any unit :=
  if String.eqb op "add" then addValue c arrayKey lastSeg value
  else if String.eqb op "replace" then replaceValue c arrayKey lastSeg value
  else if String.eqb op opRemove then removeValue c arrayKey lastSeg
  else fail ("unsupported operation: " +:+ op).

Lemma applyJSONPatch_located op root r value :
  routed root r →
  ∃ root1 c arrayKey lastSeg,
    located root root1 r (c, arrayKey, lastSeg) ∧ agree_off r root root1 ∧
    applyJSONPatch op (ref_pointer r) value root = dispatch op c arrayKey lastSeg value root1.
Proof.
  intros Hr. destruct (navigate_routed root r root [] Hr eq_refl)
    as (root1 & [[c ak] ls] & Hnav & Hloc & Hoff).
  exists root1, c, ak, ls. split; [done|]. split; [done|].
  unfold applyJSONPatch, ref_pointer. rewrite splitPointer_build.
  destruct (routed_head _ _ Hr) as (m & k & r' & -> & -> & _).
  unfold ref_segments in *. cbn [fmap list_fmap] in *. unfold navigateForPatch, mbind, M_bind.
  by rewrite Hnav.
Qed.

(** The frame of an operation on the node [r]. *)
Definition unchanged_elsewhere (r : ref) (root root' : any) : Prop :=
  ∀ r', ¬ r' `prefix_of` r → ¬ r `prefix_of` r' → get root' r' = get root r'.

Lemma agree_off_frame r root root1 root' :
  agree_off r root root1 → unchanged_elsewhere r root1 root' → unchanged_elsewhere r root root'.
Proof. intros Ha Hu r' H1 H2. by rewrite (Hu r' H1 H2), (Ha r' H1). Qed.

Lemma put_unchanged r root x : unchanged_elsewhere r root (put root r x).
Proof. intros r' H1 H2. by apply get_put_other. Qed.

(** Writing a whole array changes the elements that differ only. *)
Lemma put_array_unchanged root c k m arr arr' n :
  get root c = Some (VMap m) → m !! k = Some (VSlice arr) → (∀ j, j ≠ n → arr' !! j = arr !! j) →
  unchanged_elsewhere (c ++ [AKey k; AIdx n]) root (put root (c ++ [AKey k]) (VSlice arr')).
Proof.
  intros Hc Hk Hj r' H1 H2. set (q := c ++ [AKey k]).
  assert (c ++ [AKey k; AIdx n] = q ++ [AIdx n]) as Hq by (unfold q; by rewrite <- app_assoc).
  rewrite Hq in H1, H2.
  destruct (decide (q `prefix_of` r')) as [[t ->]|Hp].
  - rewrite get_put_app by by apply (writable_key _ _ _ m). rewrite get_app. unfold q.
    rewrite get_snoc, Hc. simpl. rewrite Hk. simpl.
    destruct t as [|a t]; [destruct H1; exists [AIdx n]; by rewrite app_nil_r|].
    destruct a as [k'|j]; [done|]. simpl. rewrite Hj; [done|]. intros ->.
    apply H2. exists t. by rewrite <- app_assoc.
  - apply get_put_other; [done|]. intros Hp'. apply H1. by apply prefix_app_r.
Qed.

Lemma get_elem root c k m arr n :
  get root c = Some (VMap m) → m !! k = Some (VSlice arr) →
  get root (c ++ [AKey k; AIdx n]) = arr !! n.
Proof.
  intros Hc Hk. rewrite get_app, Hc. simpl. rewrite Hk. simpl. by destruct (arr !! n).
Qed.

Lemma get_put_array root c k m arr :
  get root c = Some (VMap m) → get (put root (c ++ [AKey k]) (VSlice arr)) (c ++ [AKey k]) = Some (VSlice arr).
Proof. intros Hc. by apply get_put, (writable_key _ _ _ m). Qed.

(** Case analysis on where a node was found. *)
Ltac open_location Hloc :=
  match type of Hloc with
  | located _ _ _ (?c0, ?ak0, ?ls0) =>
      let El := fresh in let Ec := fresh in let Ek := fresh in let Es := fresh in
      remember (c0, ak0, ls0) as loc0 eqn:El in Hloc;
      destruct Hloc as [c k m Hrc Hc Hsame|c k n m v arr Hrc Hk Hn Hv Harr Hc Hm];
      injection El as Ec Ek Es; subst c0 ak0 ls0
  end.

Lemma replace_node root r old value :
  routed root r → get root r = Some old →
  ∃ root', applyJSONPatch opReplace (ref_pointer r) value root = (root', Ok ()) ∧
    get root' r = Some value ∧ unchanged_elsewhere r root root'.
Proof.
  intros Hr Hold.
  destruct (applyJSONPatch_located opReplace root r value Hr) as (root1 & c0 & ak & ls & Hloc & Hoff & ->).
  change (dispatch opReplace c0 ak ls value root1) with (replaceValue c0 ak ls value root1).
  unfold replaceValue, mbind, M_bind.
  open_location Hloc; subst r.
  - rewrite (load_run _ _ _ Hc). simpl. rewrite get_snoc, Hc in Hsame. simpl in Hsame.
    rewrite Hsame, Hold, DeepCopy_id. eexists. split; [reflexivity|]. split.
    + by apply get_put, (writable_key _ _ _ m).
    + eapply agree_off_frame; [exact Hoff|]. apply put_unchanged.
  - rewrite (load_run _ _ _ Hc). rewrite (proj2 (String.eqb_neq _ _) Hk).
    rewrite (entry_some _ _ _ Hm). simpl. rewrite (proj2 (String.eqb_neq _ _) (Itoa_nat_dash n)), Atoi_Itoa by done.
    assert (n < length arr) as Hlt.
    { change [AKey k; AIdx n] with ([AKey k] ++ [AIdx n]) in Hold.
      rewrite app_assoc, get_snoc, Hv in Hold. simpl in Hold.
      rewrite (toAnySlice_child _ _ n Harr) in Hold. by apply lookup_lt_Some in Hold. }
    rewrite in_range_lt, Nat2Z.id, DeepCopy_id by done. eexists. split; [reflexivity|]. split.
    + change [AKey k; AIdx n] with ([AKey k] ++ [AIdx n]).
      rewrite app_assoc, get_snoc, (get_put_array _ _ _ m) by done. simpl.
      by rewrite list_lookup_insert_eq.
    + eapply agree_off_frame; [exact Hoff|]. eapply put_array_unchanged; [done..|].
      intros j Hj. by rewrite list_lookup_insert_ne.
Qed.

(** Replacing an existing node succeeds, the node then holds the new value,
    and no node outside it and its ancestors changes. *)
Theorem replace_existing root r old value :
  routed root r → get root r = Some old →
  ∃ root', applyJSONPatch opReplace (ref_pointer r) value root = (root', Ok ()) ∧
    get root' r = Some value ∧ unchanged_elsewhere r root root'.
Proof. apply replace_node. Qed.

(** A routed pointer that ends in a key, or in an index. *)
Lemma located_key root root1 c k loc :
  located root root1 (c ++ [AKey k]) loc →
  ∃ m, loc = (c, "", k) ∧ get root1 c = Some (VMap m) ∧ m !! k = get root (c ++ [AKey k]).
Proof.
  intros [c' k' m Hr Hc Hs|c' k' n m v arr Hr _ _ _ _ _ _].
  - apply app_inj_tail in Hr as [<- [= <-]]. exists m. split; [done|]. split; [done|].
    rewrite <- Hs, get_snoc, Hc. done.
  - change [AKey k'; AIdx n] with ([AKey k'] ++ [AIdx n]) in Hr.
    rewrite app_assoc in Hr. by apply app_inj_tail in Hr as [_ ?].
Qed.

Lemma located_elem root root1 c k n loc :
  located root root1 (c ++ [AKey k; AIdx n]) loc →
  ∃ m v arr, loc = (c, k, Itoa (Z.of_nat n)) ∧ k ≠ "" ∧ in_int (Z.of_nat n) = true ∧
    get root (c ++ [AKey k]) = Some v ∧ toAnySlice v = Some arr ∧
    get root1 c = Some (VMap m) ∧ m !! k = Some (VSlice arr).
Proof.
  change [AKey k; AIdx n] with ([AKey k] ++ [AIdx n]). rewrite app_assoc.
  intros [c' k' m Hr _ _|c' k' n' m v arr Hr Hk Hn Hv Harr Hc Hm].
  - by apply app_inj_tail in Hr as [_ ?].
  - change [AKey k'; AIdx n'] with ([AKey k'] ++ [AIdx n']) in Hr.
    rewrite app_assoc in Hr. apply app_inj_tail in Hr as [Hr [= <-]].
    apply app_inj_tail in Hr as [<- [= <-]]. eauto 12.
Qed.

(** Replacing a missing key is an error that changes no node outside the
    ancestors of the key. *)
Theorem replace_missing_fails root c k value :
  routed root (c ++ [AKey k]) → get root (c ++ [AKey k]) = None →
  ∃ root' err, applyJSONPatch opReplace (ref_pointer (c ++ [AKey k])) value root = (root', Err err) ∧
    agree_off (c ++ [AKey k]) root root'.
Proof.
  intros Hr Hnone.
  destruct (applyJSONPatch_located opReplace root _ value Hr) as (root1 & c0 & ak & ls & Hloc & Hoff & ->).
  apply located_key in Hloc as (m & [= -> -> ->] & Hc & Hm).
  change (dispatch opReplace c "" k value root1) with (replaceValue c "" k value root1).
  unfold replaceValue, mbind, M_bind. rewrite (load_run _ _ _ Hc). simpl. rewrite Hm, Hnone.
  eexists _, _. split; [reflexivity|done].
Qed.

(** What [remove] does to a key. *)
Lemma remove_key_run root c k :
  routed root (c ++ [AKey k]) →
  ∃ root1 m, agree_off (c ++ [AKey k]) root root1 ∧ get root1 c = Some (VMap m) ∧
    m !! k = get root (c ++ [AKey k]) ∧
    applyJSONPatch opRemove (ref_pointer (c ++ [AKey k])) VNil root =
      (match m !! k with None => root1 | Some _ => put root1 c (VMap (delete k m)) end, Ok ()).
Proof.
  intros Hr.
  destruct (applyJSONPatch_located opRemove root _ VNil Hr) as (root1 & c0 & ak & ls & Hloc & Hoff & ->).
  apply located_key in Hloc as (m & [= -> -> ->] & Hc & Hm). exists root1, m.
  split; [done|]. split; [done|]. split; [done|].
  change (dispatch opRemove c "" k VNil root1) with (removeValue c "" k root1).
  unfold removeValue, mbind, M_bind. rewrite (load_run _ _ _ Hc). simpl. by destruct (m !! k).
Qed.

(** Removing a key always succeeds, present or not; afterwards the key is
    gone and no node outside it and its ancestors has changed. *)
Theorem remove_key_idempotent root c k :
  routed root (c ++ [AKey k]) →
  ∃ root', applyJSONPatch opRemove (ref_pointer (c ++ [AKey k])) VNil root = (root', Ok ()) ∧
    get root' (c ++ [AKey k]) = None ∧ unchanged_elsewhere (c ++ [AKey k]) root root'.
Proof.
  intros Hr. destruct (remove_key_run root c k Hr) as (root1 & m & Hoff & Hc & Hm & ->).
  eexists. split; [reflexivity|]. destruct (m !! k) as [v|] eqn:Ek.
  - split.
    + rewrite get_snoc, get_put by by apply (writable_map _ _ (VMap m)). simpl. apply lookup_delete_eq.
    + eapply agree_off_frame; [exact Hoff|]. intros r' H1 H2.
      destruct (decide (c `prefix_of` r')) as [[t ->]|Hp].
      * rewrite get_put_app, get_app, Hc by by apply (writable_map _ _ (VMap m)). simpl.
        destruct t as [|[k'|j] t]; [destruct H1; exists [AKey k]; by rewrite app_nil_r| |done].
        simpl. rewrite lookup_delete_ne; [done|]. intros <-. apply H2. exists t. by rewrite <- app_assoc.
      * apply get_put_other; [done|]. intros Hp'. apply H1. by apply prefix_app_r.
  - split; [|by intros r' H1 _; apply Hoff].
    rewrite get_snoc, Hc. done.
Qed.

(** ** Array elements *)

Lemma insert_remove {A} n (x : A) l : n ≤ length l → remove_at n (insert_at n x l) = l.
Proof.
  intros Hn. unfold remove_at, insert_at.
  rewrite take_app_le, take_take, Nat.min_id by (rewrite length_take; lia).
  rewrite drop_app_ge by (rewrite length_take; lia). rewrite length_take, Nat.min_l by lia.
  replace (S n - n) with 1 by lia. simpl. rewrite drop_0. apply take_drop.
Qed.

Lemma agree_off_outside q t root root1 root' :
  agree_off (q ++ t) root root1 → unchanged_elsewhere q root1 root' → unchanged_elsewhere q root root'.
Proof.
  intros Ha Hu r' H1 H2. rewrite (Hu r' H1 H2). apply Ha. intros [u Hu'].
  destruct (prefix_weak_total r' q (q ++ t)) as [?|?]; [by exists u|by apply prefix_app_r|done|done].
Qed.

(** The shape of the references the engine follows, without a document. *)
Inductive plain : ref → Prop :=
  | plain_one k : plain_key k → plain [AKey k]
  | plain_elem k n : plain_key k → in_int (Z.of_nat n) = true → plain [AKey k; AIdx n]
  | plain_cons k r : plain_key k → plain r → plain (AKey k :: r)
  | plain_elem_cons k n r :
      plain_key k → in_int (Z.of_nat n) = true → plain r → plain (AKey k :: AIdx n :: r).

Lemma routed_plain v r : routed v r → plain r.
Proof. induction 1; by constructor. Qed.

Lemma child_index v n x : child v (AIdx n) = Some x → ∃ arr, toAnySlice v = Some arr ∧ arr !! n = Some x.
Proof.
  destruct v; simpl; try done; [by eauto|]. intros Hx. eexists. split; [done|]. by rewrite list_lookup_fmap.
Qed.

(** Every existing node of that shape can be followed. *)
Lemma plain_routed v r x : plain r → get v r = Some x → routed v r.
Proof.
  intros Hp. revert v. induction Hp as [k Hk|k n Hk Hn|k r Hk Hp IH|k n r Hk Hn Hp IH]; intros v Hg;
    cbn [get] in Hg; destruct (child v (AKey k)) as [c|] eqn:Hc; try done; simpl in Hg;
    destruct v as [| | | |m| |]; try done; simpl in Hc.
  - by constructor.
  - destruct (child c (AIdx n)) as [y|] eqn:Hy; [|done].
    apply child_index in Hy as (arr & Harr & _). by eapply routed_elem.
  - eapply routed_key_cons; eauto.
  - destruct (child c (AIdx n)) as [y|] eqn:Hy; [|done].
    apply child_index in Hy as (arr & Harr & Hy). simpl in Hg. eapply routed_elem_cons; eauto.
Qed.

(** Adding at an index of an array inserts the value there, shifts the
    later elements by one, and changes nothing outside the array. *)
Lemma add_elem_run root c k n v arr value :
  routed root (c ++ [AKey k; AIdx n]) → get root (c ++ [AKey k]) = Some v → toAnySlice v = Some arr →
  n ≤ length arr → (Z.of_nat (length arr) < maxJSONArraySize)%Z →
  ∃ root', applyJSONPatch opAdd (ref_pointer (c ++ [AKey k; AIdx n])) value root = (root', Ok ()) ∧
    get root' (c ++ [AKey k]) = Some (VSlice (insert_at n value arr)) ∧
    unchanged_elsewhere (c ++ [AKey k]) root root'.
Proof.
  intros Hr Hv Harr Hn Hmax.
  destruct (applyJSONPatch_located opAdd root _ value Hr) as (root1 & c0 & ak & ls & Hloc & Hoff & ->).
  apply located_elem in Hloc as (m & v' & arr' & [= -> -> ->] & Hk & Hint & Hv' & Harr' & Hc & Hm).
  rewrite Hv in Hv'. injection Hv' as <-. rewrite Harr in Harr'. injection Harr' as <-.
  change (dispatch opAdd c k (Itoa (Z.of_nat n)) value root1)
    with (addValue c k (Itoa (Z.of_nat n)) value root1).
  unfold addValue, mbind, M_bind. rewrite (proj2 (String.eqb_neq _ _) Hk).
  cbn [negb]. rewrite (load_run _ _ _ Hc). rewrite (entry_some _ _ _ Hm). cbn [toAnySlice].
  rewrite (proj2 (String.eqb_neq _ _) (Itoa_nat_dash n)), Atoi_Itoa by done.
  replace ((Z.of_nat n <? 0)%Z || (Z.of_nat (length arr) <? Z.of_nat n)%Z) with false
    by (symmetry; apply orb_false_iff; lia).
  replace (maxJSONArraySize <=? Z.of_nat (length arr))%Z with false by (symmetry; lia).
  rewrite Nat2Z.id, DeepCopy_id. eexists. split; [reflexivity|]. split; [by apply (get_put_array _ _ _ m)|].
  apply (agree_off_outside _ [AIdx n] _ root1); [by rewrite <- app_assoc|]. apply put_unchanged.
Qed.

Lemma remove_elem_run root c k n v arr :
  routed root (c ++ [AKey k; AIdx n]) → get root (c ++ [AKey k]) = Some v → toAnySlice v = Some arr →
  n < length arr →
  ∃ root', applyJSONPatch opRemove (ref_pointer (c ++ [AKey k; AIdx n])) VNil root = (root', Ok ()) ∧
    get root' (c ++ [AKey k]) = Some (VSlice (remove_at n arr)) ∧
    unchanged_elsewhere (c ++ [AKey k]) root root'.
Proof.
  intros Hr Hv Harr Hn.
  destruct (applyJSONPatch_located opRemove root _ VNil Hr) as (root1 & c0 & ak & ls & Hloc & Hoff & ->).
  apply located_elem in Hloc as (m & v' & arr' & [= -> -> ->] & Hk & Hint & Hv' & Harr' & Hc & Hm).
  rewrite Hv in Hv'. injection Hv' as <-. rewrite Harr in Harr'. injection Harr' as <-.
  change (dispatch opRemove c k (Itoa (Z.of_nat n)) VNil root1)
    with (removeValue c k (Itoa (Z.of_nat n)) root1).
  unfold removeValue, mbind, M_bind. rewrite (load_run _ _ _ Hc), (proj2 (String.eqb_neq _ _) Hk).
  cbn [negb]. rewrite (entry_some _ _ _ Hm). cbn [toAnySlice].
  rewrite (proj2 (String.eqb_neq _ _) (Itoa_nat_dash n)), Atoi_Itoa, in_range_lt, Nat2Z.id by done.
  eexists. split; [reflexivity|]. split; [by apply (get_put_array _ _ _ m)|].
  apply (agree_off_outside _ [AIdx n] _ root1); [by rewrite <- app_assoc|]. apply put_unchanged.
Qed.

(** Adding at an index of an array inserts the value there and shifts the
    later elements; removing the same index afterwards restores the array, and
    neither operation changes a node outside the array and its ancestors. *)
Theorem add_then_remove_element root c k n v arr value :
  routed root (c ++ [AKey k; AIdx n]) → get root (c ++ [AKey k]) = Some v → toAnySlice v = Some arr →
  n ≤ length arr → (Z.of_nat (length arr) < maxJSONArraySize)%Z →
  ∃ root1 root2,
    applyJSONPatch opAdd (ref_pointer (c ++ [AKey k; AIdx n])) value root = (root1, Ok ()) ∧
    applyJSONPatch opRemove (ref_pointer (c ++ [AKey k; AIdx n])) VNil root1 = (root2, Ok ()) ∧
    get root1 (c ++ [AKey k]) = Some (VSlice (insert_at n value arr)) ∧
    get root2 (c ++ [AKey k]) = Some (VSlice arr) ∧
    unchanged_elsewhere (c ++ [AKey k]) root root2.
Proof.
  intros Hr Hv Harr Hn Hmax.
  destruct (add_elem_run root c k n v arr value Hr Hv Harr Hn Hmax) as (root1 & Hadd & Hg1 & Hu1).
  assert (n < length (insert_at n value arr)) as Hlt.
  { unfold insert_at. rewrite length_app, length_take. simpl. lia. }
  destruct (lookup_lt_is_Some_2 _ _ Hlt) as [x Hx].
  assert (routed root1 (c ++ [AKey k; AIdx n])) as Hr1.
  { apply (plain_routed _ _ x); [by eapply routed_plain|].
    change [AKey k; AIdx n] with ([AKey k] ++ [AIdx n]). rewrite app_assoc, get_snoc, Hg1. done. }
  destruct (remove_elem_run root1 c k n _ _ Hr1 Hg1 eq_refl Hlt) as (root2 & Hrem & Hg2 & Hu2).
  rewrite insert_remove in Hg2 by done. exists root1, root2. do 4 (split; [done|]).
  intros r' H1 H2. by rewrite (Hu2 r' H1 H2), (Hu1 r' H1 H2).
Qed.
