(* ===== verification/PatchCreateSpec.v ===== *)
(** * Additions that create their parents, shallow merges, and patch lists *)

From S2P Require Import Prelude GoStrings GoValue PatchPath PatchOps PatchPathSpec PatchOpsSpec.

Open Scope go_scope.

(** ** Paths of keys *)

(** A key of a path expression: neither an index nor the append marker, and
    without brackets. *)
Definition path_key (k : string) : Prop := plain_key k ∧ has_byte "[" k = false.

Definition key_ref (ks : list string) : ref := AKey <$> ks.

(** The keys lead through objects, and nil or missing nodes below them. *)
Fixpoint creatable (v : any) (ks : list string) : Prop :=
  match ks with
  | [] => True
  | k :: rest =>
      match v with
      | VMap m => creatable (default VNil (m !! k)) rest
      | VNil => True
      | _ => False
      end
  end.

Lemma ref_segments_keys ks : ref_segments (key_ref ks) = ks.
Proof.
  unfold ref_segments, key_ref. rewrite <- list_fmap_compose. induction ks as [|k ks IH]; [done|].
  rewrite fmap_cons, IH. done.
Qed.

Lemma creatable_nil ks : creatable VNil ks.
Proof. by destruct ks. Qed.

Lemma creatable_empty ks : creatable (VMap ∅) ks.
Proof. destruct ks as [|k ks]; [done|]. simpl. rewrite lookup_empty. apply creatable_nil. Qed.

(** Expansion of a path of keys gives the path itself. *)
Lemma applySegment_key st k :
  path_key k → applySegment st k = applyKey [st] k.
Proof.
  intros [(Hne & Hd & Ha) Hb].
  pose proof (applySegment_parts st (HKey k) [] (conj Hne (conj Ha Hb)) (Forall_nil_2 _)) as Hs.
  simpl in Hs. rewrite sapp_nil_r in Hs. rewrite Hs. by destruct (applyKey [st] k).
Qed.

Lemma expandSegments_keys ks p v :
  Forall path_key ks → creatable v ks →
  ∃ w, expandSegments ks [mkPathState p v] = Ok [mkPathState (p ++ ks) w].
Proof.
  intros Hks. revert p v. induction Hks as [|k ks Hk _ IH]; intros p v Hv.
  { exists v. by rewrite app_nil_r. }
  cbn [expandSegments]. pose proof Hk as [(Hne & Hd & _) _].
  rewrite (proj2 (String.eqb_neq _ _) Hd). cbn [expandStates].
  rewrite applySegment_key by done. unfold applyKey.
  rewrite (proj2 (String.eqb_neq _ _) Hne). simpl in Hv.
  assert (∃ v', expandEach (λ st, match ps_value st with
      | VMap current =>
          Ok [mkPathState (appendPointer (ps_pointer st) k) (default VNil (current !! k))]
      | VNil => Ok [mkPathState (appendPointer (ps_pointer st) k) VNil]
      | v => Err ("path segment " +:+ quoted k +:+ " expects an object, got " +:+ type_name v)
      end) [mkPathState p v] = Ok [mkPathState (p ++ [k]) v'] ∧ creatable v' ks) as (v' & -> & Hv').
  { destruct v as [| | | |m| |]; try done; eexists; (split; [reflexivity|]); [apply creatable_nil|done]. }
  destruct (IH (p ++ [k]) v' Hv') as [w Hw]. exists w. rewrite <- app_assoc in Hw. exact Hw.
Qed.

Lemma expandPaths_keys root ks :
  ks ≠ [] → Forall path_key ks → creatable root ks →
  expandPaths root (buildJSONPointer ks) = Ok [buildJSONPointer ks].
Proof.
  intros Hne Hks Hc. unfold expandPaths.
  destruct (String.eqb_spec (buildJSONPointer ks) "") as [He|_].
  { rewrite buildJSONPointer_join in He by done. done. }
  unfold splitRawPath. fold (splitPointer (buildJSONPointer ks)). rewrite splitPointer_build.
  destruct (expandSegments_keys ks [] root Hks Hc) as [w Hw]. by rewrite Hw.
Qed.

(** ** Creating the parents *)

(** A new object where there was nothing. *)
Lemma create_agree root current m k r :
  get root current = Some (VMap m) → default VNil (m !! k) = VNil →
  agree_off (current ++ AKey k :: r) root (put root (current ++ [AKey k]) (VMap ∅)).
Proof.
  intros Hg Hk r' Hn. destruct (decide (current ++ [AKey k] `prefix_of` r')) as [[t ->]|Hp].
  - rewrite get_put_app by by apply (writable_key _ _ _ m).
    destruct t as [|a t].
    { destruct Hn. exists r. by rewrite app_nil_r, <- app_assoc. }
    rewrite get_app, get_snoc, Hg. simpl.
    destruct (m !! k) as [c|]; simpl in *; [subst; by destruct a|by destruct a].
  - apply get_put_other; [done|]. intros Hp'. apply Hn. trans (current ++ [AKey k]); [done|].
    exists r. by rewrite <- app_assoc.
Qed.

(** The object around an object. *)
Lemma get_parent_map root current k v :
  get root (current ++ [AKey k]) = Some v → ∃ m, get root current = Some (VMap m) ∧ m !! k = Some v.
Proof.
  rewrite get_snoc. destruct (get root current) as [c|]; [|done]. simpl.
  destruct c; try done. eauto.
Qed.

(** The parents of the node below [current] are objects of [root1]. *)
Definition parents_made (root root1 : any) (current : ref) (ks : list string) : Prop :=
  ∃ m1, get root1 current = Some (VMap m1) ∧ routed (VMap m1) (key_ref ks) ∧
    agree_off (current ++ key_ref ks) root root1.

Lemma parents_made_cons root root0 root1 current k ks :
  plain_key k → agree_off (current ++ key_ref (k :: ks)) root root0 →
  parents_made root0 root1 (current ++ [AKey k]) ks → parents_made root root1 current (k :: ks).
Proof.
  intros Hk Ha (m2 & Hg2 & Hr2 & Ha2). destruct (get_parent_map _ _ _ _ Hg2) as (m1 & Hg1 & Hm1).
  exists m1. split; [done|]. split; [by eapply routed_key_cons|].
  rewrite <- app_assoc in Ha2. by eapply agree_off_trans.
Qed.

Lemma ensureLoop_map root current m k next ks :
  get root current = Some (VMap m) → next ≠ "-" → Atoi next = None →
  ensureLoop current (k :: next :: ks) root =
  match default VNil (m !! k) with
  | VNil => ensureLoop (current ++ [AKey k]) (next :: ks) (put root (current ++ [AKey k]) (VMap ∅))
  | _ => ensureLoop (current ++ [AKey k]) (next :: ks) root
  end.
Proof.
  intros Hg Hd Ha.
  assert (∀ (x y : M any unit), match Atoi next with Some _ => x | None => y end = y) as Hnone
    by by rewrite Ha.
  cbn [ensureLoop]. unfold mbind, M_bind. rewrite (load_run _ _ _ Hg). cbn [toAnySlice].
  rewrite (proj2 (String.eqb_neq _ _) Hd). rewrite Hnone. by destruct (default VNil (m !! k)).
Qed.

Lemma ensureLoop_keys ks root current m :
  ks ≠ [] → Forall path_key ks → get root current = Some (VMap m) → creatable (VMap m) ks →
  ∃ root1, ensureLoop current ks root = (root1, Ok ()) ∧ parents_made root root1 current ks.
Proof.
  intros Hne Hks. revert root current m. induction Hks as [|k ks Hk Hks IH]; [done|].
  intros root current m Hg Hc. destruct ks as [|next ks].
  { exists root. split; [done|]. exists m. split; [done|]. split; [constructor; apply Hk|apply agree_off_refl]. }
  inversion Hks as [|? ? [(_ & Hnd & Hna) _] _]; subst.
  rewrite (ensureLoop_map root current m) by done. simpl in Hc. destruct (default VNil (m !! k)) as [| | | |mc| |] eqn:Ec; try done.
  - destruct (IH ltac:(done) (put root (current ++ [AKey k]) (VMap ∅)) (current ++ [AKey k]) ∅)
      as (root1 & Hrun & Hmade).
    { by apply get_put, (writable_key _ _ _ m). }
    { apply creatable_empty. }
    exists root1. split; [exact Hrun|]. eapply parents_made_cons; [apply Hk| |exact Hmade].
    by apply (create_agree root current m).
  - destruct (IH ltac:(done) root (current ++ [AKey k]) mc) as (root1 & Hrun & Hmade); [|done|].
    { rewrite get_snoc, Hg. simpl. by destruct (m !! k) as [c|]; simpl in Ec; subst. }
    exists root1. split; [exact Hrun|]. eapply parents_made_cons; [apply Hk| |exact Hmade].
    apply agree_off_refl.
Qed.

(** ** Additions *)

Lemma add_key_run root c k value :
  routed root (c ++ [AKey k]) →
  ∃ root', applyJSONPatch opAdd (ref_pointer (c ++ [AKey k])) value root = (root', Ok ()) ∧
    get root' (c ++ [AKey k]) = Some value ∧ unchanged_elsewhere (c ++ [AKey k]) root root'.
Proof.
  intros Hr.
  destruct (applyJSONPatch_located opAdd root _ value Hr) as (root1 & c0 & ak & ls & Hloc & Hoff & ->).
  apply located_key in Hloc as (m & [= -> -> ->] & Hc & Hm).
  change (dispatch opAdd c "" k value root1) with (addValue c "" k value root1).
  unfold addValue. simpl. rewrite DeepCopy_id. eexists. split; [reflexivity|].
  split; [by apply get_put, (writable_key _ _ _ m)|].
  eapply agree_off_frame; [exact Hoff|]. apply put_unchanged.
Qed.

(** A list of one operation. *)
Lemma ApplyPatches_one op root root' :
  applyOperation op root = (root', Ok ()) → ApplyPatches [op] root = (root', Ok ()).
Proof. intros Hop. unfold ApplyPatches, applyFrom, mbind, M_bind, wrapErr. by rewrite Hop. Qed.

Lemma key_ref_snoc ks : ks ≠ [] → ∃ c k, key_ref ks = c ++ [AKey k].
Proof.
  intros Hne. destruct (exists_last Hne) as (l & k & ->).
  exists (key_ref l), k. unfold key_ref. by rewrite fmap_app.
Qed.

(** An add operation on a path of keys succeeds whenever the path leads
    through objects and missing or nil nodes: the missing parents are created,
    the node then holds the value, and no node off the path changes. *)
Theorem add_creates_parents m ks value :
  ks ≠ [] → Forall path_key ks → creatable (VMap m) ks →
  ∃ root', ApplyPatches [mkOperation "add" (buildJSONPointer ks) value] (VMap m) = (root', Ok ()) ∧
    get root' (key_ref ks) = Some value ∧ unchanged_elsewhere (key_ref ks) (VMap m) root'.
Proof.
  intros Hne Hks Hc.
  destruct (ensureLoop_keys ks (VMap m) [] m Hne Hks eq_refl Hc) as (root1 & Hens & m1 & Hg1 & Hr1 & Ha1).
  simpl in Hg1. injection Hg1 as ->. simpl in Ha1.
  destruct (key_ref_snoc ks Hne) as (c & k & Hck). rewrite Hck in Hr1.
  destruct (add_key_run (VMap m1) c k value Hr1) as (root' & Hadd & Hg & Hu).
  exists root'. rewrite Hck. split; [|split; [done|]].
  - apply ApplyPatches_one.
    change (applyOperation (mkOperation "add" (buildJSONPointer ks) value) (VMap m))
      with (applyRFC6902 opAdd (buildJSONPointer ks) value (VMap m)).
    unfold applyRFC6902, mbind, M_bind, ofResult. rewrite expandPaths_keys by done.
    cbn [forEach]. unfold mbind, M_bind.
    assert (ensureParentExists (buildJSONPointer ks) (VMap m) = (VMap m1, Ok ())) as Hens'.
    { unfold ensureParentExists. by rewrite splitPointer_build. }
    change (String.eqb opAdd opAdd) with true. cbn iota. rewrite Hens'.
    unfold ref_pointer in Hadd. rewrite <- Hck, ref_segments_keys in Hadd. by rewrite Hadd.
  - rewrite <- Hck in *. by eapply agree_off_frame.
Qed.

(** ** Shallow merges *)

Lemma mergeShallowInto_lookup target overlay k :
  mergeShallowInto target overlay !! k =
  match overlay !! k with Some v => Some v | None => target !! k end.
Proof.
  unfold mergeShallowInto. revert k.
  apply (map_fold_weak_ind (λ r o, ∀ k, r !! k = match o !! k with Some v => Some v | None => target !! k end)).
  - intros k. by rewrite lookup_empty.
  - intros i x o r Hi IH k. rewrite DeepCopy_id. destruct (decide (i = k)) as [<-|Hne].
    + by rewrite !lookup_insert_eq.
    + by rewrite !lookup_insert_ne.
Qed.

Lemma mergeShallowInto_union target overlay : mergeShallowInto target overlay = overlay ∪ target.
Proof.
  apply map_eq. intros k. rewrite mergeShallowInto_lookup, lookup_union.
  destruct (overlay !! k), (target !! k); done.
Qed.

Lemma next_container_map ps l i :
  Forall path_key ps → path_key l → determineNextContainerType ps i l = VMap ∅.
Proof.
  intros Hps Hl. unfold determineNextContainerType.
  assert (path_key (default l (ps !! (i + 1)))) as [(_ & Hd & Ha) _].
  { destruct (ps !! (i + 1)) as [k|] eqn:Ek; [|done]. by apply (Forall_lookup_1 _ _ _ _ Hps Ek). }
  by rewrite (proj2 (String.eqb_neq _ _) Hd), Ha.
Qed.

(** What [parentLoop] reaches: an object at the parent, the node as it was. *)
Record parent_reached (root root1 : any) (current : ref) (rest : list string) (l : string) : Prop := {
  pr_parent : ∃ mp, get root1 (current ++ key_ref rest) = Some (VMap mp);
  pr_node : get root1 (current ++ key_ref (rest ++ [l])) = get root (current ++ key_ref (rest ++ [l]));
  pr_agree : agree_off (current ++ key_ref (rest ++ [l])) root root1;
}.

Lemma parent_reached_cons root root0 root1 current k rest l :
  agree_off (current ++ key_ref ((k :: rest) ++ [l])) root root0 →
  get root0 (current ++ key_ref ((k :: rest) ++ [l])) = get root (current ++ key_ref ((k :: rest) ++ [l])) →
  parent_reached root0 root1 (current ++ [AKey k]) rest l →
  parent_reached root root1 current (k :: rest) l.
Proof.
  intros Ha Hn [Hp Hnode Hagree]. rewrite <- app_assoc in Hp, Hnode, Hagree.
  split; [exact Hp| |by eapply agree_off_trans]. rewrite <- Hn. exact Hnode.
Qed.

Lemma parentLoop_keys ps l rest i root current m :
  Forall path_key ps → Forall path_key rest → path_key l →
  get root current = Some (VMap m) → creatable (VMap m) (rest ++ [l]) →
  ∃ root1, parentLoop true ps l i current rest root = (root1, Ok (current ++ key_ref rest)) ∧
    parent_reached root root1 current rest l.
Proof.
  intros Hps Hrest Hl. revert i root current m. induction Hrest as [|k rest Hk _ IH]; intros i root current m Hg Hc.
  { exists root. rewrite app_nil_r. split; [done|]. split; [|done|apply agree_off_refl].
    rewrite app_nil_r. eauto. }
  cbn [parentLoop]. unfold mbind, M_bind. rewrite (load_run _ _ _ Hg). simpl in Hc.
  change (key_ref (k :: rest)) with ([AKey k] ++ key_ref rest). rewrite app_assoc.
  destruct (default VNil (m !! k)) as [| | | |mc| |] eqn:Ec; try by destruct rest.
  - rewrite next_container_map by done.
    destruct (IH (S i) (put root (current ++ [AKey k]) (VMap ∅)) (current ++ [AKey k]) ∅)
      as (root1 & Hrun & Hmade).
    { by apply get_put, (writable_key _ _ _ m). }
    { apply creatable_empty. }
    exists root1. split; [exact Hrun|].
    eapply parent_reached_cons; [by apply (create_agree root current m)| |exact Hmade].
    change (key_ref ((k :: rest) ++ [l])) with ([AKey k] ++ key_ref (rest ++ [l])).
    rewrite app_assoc, get_put_app by by apply (writable_key _ _ _ m).
    rewrite get_app, get_snoc, Hg. simpl.
    destruct (m !! k) as [c|]; simpl in Ec; subst; by destruct rest.
  - destruct (IH (S i) root (current ++ [AKey k]) mc) as (root1 & Hrun & Hmade); [|done|].
    { rewrite get_snoc, Hg. simpl. by destruct (m !! k) as [c|]; simpl in Ec; subst. }
    exists root1. split; [exact Hrun|]. by eapply parent_reached_cons; [apply agree_off_refl| |].
Qed.

Lemma navigateToParent_keys ps l m :
  Forall path_key ps → path_key l → creatable (VMap m) (ps ++ [l]) →
  ∃ root1, navigateToParent (buildJSONPointer (ps ++ [l])) true (VMap m) = (root1, Ok (key_ref ps, l)) ∧
    parent_reached (VMap m) root1 [] ps l.
Proof.
  intros Hps Hl Hc.
  destruct (parentLoop_keys ps l ps 0 (VMap m) [] m Hps Hps Hl eq_refl Hc) as (root1 & Hrun & Hmade).
  exists root1. split; [|done]. unfold navigateToParent.
  rewrite splitPointer_build, last_snoc, length_app, Nat.add_sub, take_app_length.
  unfold mbind, M_bind. by rewrite Hrun.
Qed.

(** A mergeShallow on a path of keys succeeds: an existing object keeps the
    keys the overlay does not name and takes the overlay's value for the
    others, without merging below; any other node, or none, is replaced by
    the overlay; no node off the path changes. *)
Theorem mergeShallow_overlays m ps l overlay :
  Forall path_key ps → path_key l → creatable (VMap m) (ps ++ [l]) →
  let r := key_ref (ps ++ [l]) in
  ∃ root', ApplyPatches [mkOperation "mergeShallow" (buildJSONPointer (ps ++ [l])) (VMap overlay)]
             (VMap m) = (root', Ok ()) ∧
    get root' r = Some (VMap (match get (VMap m) r with
                              | Some (VMap old) => overlay ∪ old
                              | _ => overlay
                              end)) ∧
    unchanged_elsewhere r (VMap m) root'.
Proof.
  intros Hps Hl Hc r.
  destruct (navigateToParent_keys ps l m Hps Hl Hc) as (root1 & Hnav & [[mp Hp] Hnode Hagree]).
  simpl in Hp, Hnode, Hagree. fold r in Hnode, Hagree.
  assert (r = key_ref ps ++ [AKey l]) as Hr by (unfold r, key_ref; by rewrite fmap_app).
  set (new := match get (VMap m) r with Some (VMap old) => overlay ∪ old | _ => overlay end).
  exists (put root1 r (VMap new)). split; [|split].
  - apply ApplyPatches_one.
    change (applyOperation _ (VMap m))
      with (applyMergeShallow (buildJSONPointer (ps ++ [l])) (VMap overlay) (VMap m)).
    unfold applyMergeShallow, mbind, M_bind, ofResult.
    rewrite expandPaths_keys; [|by destruct ps|by apply Forall_app; auto|done].
    cbn [forEach]. unfold mergeShallowAtPointer, mbind, M_bind. rewrite Hnav, (load_run _ _ _ Hp).
    rewrite Hr, get_snoc, Hp in Hnode. simpl in Hnode.
    unfold mergeShallowEntry. rewrite <- Hr. fold r.
    assert ((match default VNil (mp !! l) with
             | VMap targetMap => store_at r (VMap (mergeShallowInto targetMap overlay))
             | _ => store_at r (DeepCopy (VMap overlay)) end) root1 =
            (put root1 r (VMap new), Ok ())) as ->; [|done].
    rewrite Hnode, <- Hr, DeepCopy_id. unfold new.
    destruct (get (VMap m) r) as [[]|]; simpl; rewrite ?mergeShallowInto_union; done.
  - apply get_put. rewrite Hr. by apply (writable_key _ _ _ mp).
  - eapply agree_off_frame; [exact Hagree|]. apply put_unchanged.
Qed.

(** ** Several targets *)

(** Neither node lies above the other. *)
Definition apart (r1 r2 : ref) : Prop := ¬ r1 `prefix_of` r2 ∧ ¬ r2 `prefix_of` r1.

Fixpoint pairwise_apart (rs : list ref) : Prop :=
  match rs with
  | [] => True
  | r :: rs => (∀ r', r' ∈ rs → apart r' r) ∧ pairwise_apart rs
  end.

(** The loop of [applyRFC6902] for a replacement. *)
Definition replaceEach (value : any) (pointers : list string) : M any unit :=
  forEach (λ pointer, _ ← (if String.eqb opReplace opAdd then ensureParentExists pointer else mret ());
                      applyJSONPatch opReplace pointer value) pointers.

Lemma replaceEach_run rs root value :
  Forall plain rs → Forall (λ r, is_Some (get root r)) rs → pairwise_apart rs →
  ∃ root', replaceEach value (ref_pointer <$> rs) root = (root', Ok ()) ∧
    (∀ r, r ∈ rs → get root' r = Some value) ∧
    (∀ r', (∀ r, r ∈ rs → apart r' r) → get root' r' = get root r').
Proof.
  intros Hpl. revert root. induction Hpl as [|r rs Hr Hpl IH]; intros root Hex Hap.
  { exists root. split; [done|]. split; [by intros r ?%elem_of_nil|done]. }
  apply Forall_cons in Hex as [[old Hold] Hex]. destruct Hap as [Hap1 Hap2].
  destruct (replace_node root r old value (plain_routed root r old Hr Hold) Hold)
    as (root1 & Hrun & Hg & Hu).
  assert (∀ r', apart r' r → get root1 r' = get root r') as Hkeep by (intros r' [H1 H2]; by apply Hu).
  destruct (IH root1) as (root' & Hrest & Hall & Hother); [|done|].
  { rewrite Forall_forall in Hex |- *. intros r' Hr'. rewrite Hkeep; [by apply Hex|by apply Hap1]. }
  exists root'. split; [|split].
  - unfold replaceEach in *. cbn [fmap list_fmap forEach]. unfold mbind at 1, M_bind at 1.
    replace ((_ ← (if String.eqb opReplace opAdd then ensureParentExists (ref_pointer r) else mret ());
              applyJSONPatch opReplace (ref_pointer r) value) root) with (root1, Ok ())
      by (rewrite <- Hrun; reflexivity).
    exact Hrest.
  - intros r' [->|Hr']%elem_of_cons; [|by apply Hall].
    rewrite Hother; [done|]. intros r' Hr'. destruct (Hap1 r' Hr'). by split.
  - intros r' Hr'. rewrite Hother; [apply Hkeep, Hr'; by left|]. intros r0 Hr0. apply Hr'. by right.
Qed.

(** A replacement whose path expands to several existing nodes, none above
    another, sets every one of them and changes no node apart from them. *)
Theorem replace_all_targets rawPath rs root value :
  expandPaths root rawPath = Ok (ref_pointer <$> rs) → rs ≠ [] →
  Forall plain rs → Forall (λ r, is_Some (get root r)) rs → pairwise_apart rs →
  ∃ root', applyRFC6902 opReplace rawPath value root = (root', Ok ()) ∧
    (∀ r, r ∈ rs → get root' r = Some value) ∧
    (∀ r', (∀ r, r ∈ rs → apart r' r) → get root' r' = get root r').
Proof.
  intros Hexp Hne Hpl Hex Hap.
  destruct (replaceEach_run rs root value Hpl Hex Hap) as (root' & Hrun & Hspec).
  exists root'. split; [|done]. unfold applyRFC6902, mbind, M_bind, ofResult. rewrite Hexp.
  destruct rs as [|r rs]; [done|]. exact Hrun.
Qed.

(** ** Lists of operations *)

Lemma applyFrom_app i ops1 ops2 root root1 :
  applyFrom i ops1 root = (root1, Ok ()) →
  applyFrom i (ops1 ++ ops2) root = applyFrom (i + length ops1) ops2 root1.
Proof.
  revert i root. induction ops1 as [|op ops1 IH]; intros i root; simpl.
  - intros [= ->]. by rewrite Nat.add_0_r.
  - unfold mbind, M_bind. destruct (wrapErr _ (applyOperation op) root) as [root0 [[]|]]; [|done].
    intros Hrun. rewrite (IH _ _ Hrun). by rewrite Nat.add_succ_r.
Qed.

(** A patch is applied operation by operation: the first one that fails
    ends it with its number and its error, the earlier ones stay applied and
    the later ones are not run. *)
Theorem ApplyPatches_stops_at_failure ops1 op ops2 root root1 root2 err :
  ApplyPatches ops1 root = (root1, Ok ()) → applyOperation op root1 = (root2, Err err) →
  ApplyPatches (ops1 ++ op :: ops2) root =
  (root2, Err ("operation #" +:+ Itoa (Z.of_nat (length ops1)) +:+ " failed" +:+ ": " +:+ err)).
Proof.
  intros H1 H2. unfold ApplyPatches in *. rewrite (applyFrom_app _ _ _ _ _ H1). simpl.
  unfold mbind, M_bind, wrapErr. rewrite H2. by rewrite !sapp_assoc.
Qed.

(** * The patch engine on concrete documents

    Witnesses of the theorems on a small deployment, and two behaviours of the
    engine that differ from what its documentation promises. *)

Open Scope go_scope.

Definition obj (l : list (string * any)) : gmap string any := list_to_map l.

Definition container (name : string) : any := VMap (obj [("name", VString name); ("image", VString "v1")]).

Definition deployment : gmap string any :=
  obj [("spec", VMap (obj [("containers", VSlice (container <$> ["app"; "side"; "app"; "log"]))]))].

Definition containers_ref : ref := [AKey "spec"; AKey "containers"].
Definition image_ref (n : nat) : ref := [AKey "spec"; AKey "containers"; AIdx n; AKey "image"].

Lemma spec_key : plain_key "spec". Proof. done. Qed.
Lemma containers_key : plain_key "containers". Proof. done. Qed.
Lemma image_key : plain_key "image". Proof. done. Qed.

Lemma image_plain n : in_int (Z.of_nat n) = true → plain (image_ref n).
Proof.
  intros Hn. apply plain_cons; [done|]. apply plain_elem_cons; [done..|]. by apply plain_one.
Qed.

Lemma element_plain n : in_int (Z.of_nat n) = true → plain (containers_ref ++ [AIdx n]).
Proof. intros Hn. apply plain_cons; [done|]. by apply plain_elem. Qed.

Lemma image_routed : routed (VMap deployment) (image_ref 1).
Proof. apply (plain_routed _ _ (VString "v1")); [by apply image_plain|vm_compute; reflexivity]. Qed.

(** ** Witnesses *)

Lemma replace_existing_witness :
  ∃ root', applyJSONPatch opReplace (ref_pointer (image_ref 1)) (VString "v2") (VMap deployment) =
             (root', Ok ()) ∧
    get root' (image_ref 1) = Some (VString "v2") ∧
    unchanged_elsewhere (image_ref 1) (VMap deployment) root'.
Proof.
  apply (replace_existing (VMap deployment) (image_ref 1) (VString "v1") (VString "v2") image_routed).
  vm_compute. reflexivity.
Defined.

Lemma tag_routed : routed (VMap deployment) ([AKey "spec"] ++ [AKey "replicas"]).
Proof. eapply routed_key_cons; [done|vm_compute; reflexivity|]. by apply routed_key. Qed.

Lemma replace_missing_fails_witness :
  ∃ root' err, applyJSONPatch opReplace (ref_pointer ([AKey "spec"] ++ [AKey "replicas"]))
                 (VString "2") (VMap deployment) = (root', Err err) ∧
    agree_off ([AKey "spec"] ++ [AKey "replicas"]) (VMap deployment) root'.
Proof.
  apply (replace_missing_fails (VMap deployment) [AKey "spec"] "replicas" (VString "2") tag_routed).
  vm_compute. reflexivity.
Defined.

Lemma remove_key_idempotent_witness :
  ∃ root', applyJSONPatch opRemove (ref_pointer ([AKey "spec"] ++ [AKey "replicas"])) VNil
             (VMap deployment) = (root', Ok ()) ∧
    get root' ([AKey "spec"] ++ [AKey "replicas"]) = None ∧
    unchanged_elsewhere ([AKey "spec"] ++ [AKey "replicas"]) (VMap deployment) root'.
Proof. exact (remove_key_idempotent (VMap deployment) [AKey "spec"] "replicas" tag_routed). Defined.

Lemma element_routed : routed (VMap deployment) ([AKey "spec"] ++ [AKey "containers"; AIdx 1]).
Proof.
  apply (plain_routed _ _ (container "side")); [by apply (element_plain 1)|vm_compute; reflexivity].
Qed.

Lemma add_then_remove_element_witness :
  ∃ root1 root2,
    applyJSONPatch opAdd (ref_pointer ([AKey "spec"] ++ [AKey "containers"; AIdx 1])) (container "new")
      (VMap deployment) = (root1, Ok ()) ∧
    applyJSONPatch opRemove (ref_pointer ([AKey "spec"] ++ [AKey "containers"; AIdx 1])) VNil root1 =
      (root2, Ok ()) ∧
    get root1 ([AKey "spec"] ++ [AKey "containers"]) =
      Some (VSlice (insert_at 1 (container "new") (container <$> ["app"; "side"; "app"; "log"]))) ∧
    get root2 ([AKey "spec"] ++ [AKey "containers"]) =
      Some (VSlice (container <$> ["app"; "side"; "app"; "log"])) ∧
    unchanged_elsewhere ([AKey "spec"] ++ [AKey "containers"]) (VMap deployment) root2.
Proof.
  apply (add_then_remove_element (VMap deployment) [AKey "spec"] "containers" 1
    (VSlice (container <$> ["app"; "side"; "app"; "log"])) _ (container "new") element_routed).
  - vm_compute. reflexivity.
  - reflexivity.
  - simpl. lia.
  - vm_compute. reflexivity.
Defined.

Lemma add_creates_parents_witness :
  ∃ root', ApplyPatches [mkOperation "add" (buildJSONPointer ["metadata"; "labels"; "app/name"]) (VString "x")]
             (VMap deployment) = (root', Ok ()) ∧
    get root' (key_ref ["metadata"; "labels"; "app/name"]) = Some (VString "x") ∧
    unchanged_elsewhere (key_ref ["metadata"; "labels"; "app/name"]) (VMap deployment) root'.
Proof.
  apply (add_creates_parents deployment ["metadata"; "labels"; "app/name"] (VString "x"));
    [done|by repeat constructor|vm_compute; exact I].
Defined.

Lemma mergeShallow_overlays_witness :
  ∃ root', ApplyPatches [mkOperation "mergeShallow" (buildJSONPointer ["spec"])
                           (VMap (obj [("replicas", VString "2")]))] (VMap deployment) = (root', Ok ()) ∧
    get root' (key_ref ["spec"]) =
      Some (VMap (match get (VMap deployment) (key_ref ["spec"]) with
                  | Some (VMap old) => obj [("replicas", VString "2")] ∪ old
                  | _ => obj [("replicas", VString "2")]
                  end)) ∧
    unchanged_elsewhere (key_ref ["spec"]) (VMap deployment) root'.
Proof.
  apply (mergeShallow_overlays deployment [] "spec" (obj [("replicas", VString "2")]));
    [constructor|done|vm_compute; exact I].
Defined.

Definition app_filter : string := "@.name=='app'".

Definition app_path : list segment_expr :=
  [SParts (HKey "spec") []; SParts (HKey "containers") [BFilter app_filter]; SParts (HKey "image") []].

Lemma expandPaths_selects_witness :
  "/spec/containers/2/image" ∈ ["/spec/containers/0/image"; "/spec/containers/2/image"] ↔
  ∃ ptr w, selects (VMap deployment) (concat (segment_parts <$> app_path)) ptr w ∧
    "/spec/containers/2/image" = buildJSONPointer ptr.
Proof.
  apply (expandPaths_selects (VMap deployment) app_path); [done|by repeat constructor|].
  vm_compute. reflexivity.
Defined.

Lemma replace_all_targets_witness :
  ∃ root', applyRFC6902 opReplace "/spec/containers[?(@.name=='app')]/image" (VString "v2")
             (VMap deployment) = (root', Ok ()) ∧
    (∀ r, r ∈ [image_ref 0; image_ref 2] → get root' r = Some (VString "v2")) ∧
    (∀ r', (∀ r, r ∈ [image_ref 0; image_ref 2] → apart r' r) →
       get root' r' = get (VMap deployment) r').
Proof.
  apply (replace_all_targets "/spec/containers[?(@.name=='app')]/image" [image_ref 0; image_ref 2]).
  - vm_compute. reflexivity.
  - done.
  - by repeat apply Forall_cons_2; [apply image_plain..|].
  - repeat apply Forall_cons_2; [vm_compute; by eexists..|constructor].
  - split; [|split; [by intros ? ?%elem_of_nil|done]].
    intros r' ->%list_elem_of_singleton. split; intros [t Ht]; by inversion Ht.
Defined.

Lemma ApplyPatches_stops_at_failure_witness :
  ApplyPatches ([mkOperation "remove" "/status" VNil] ++
                mkOperation "replace" "/spec/replicas" (VString "2") ::
                [mkOperation "remove" "/spec" VNil]) (VMap deployment) =
  (VMap deployment, Err ("operation #" +:+ Itoa (Z.of_nat 1) +:+ " failed" +:+ ": " +:+
    ("replace operation failed: key " +:+ quoted "replicas" +:+ " does not exist"))).
Proof.
  apply (ApplyPatches_stops_at_failure [mkOperation "remove" "/status" VNil]
    (mkOperation "replace" "/spec/replicas" (VString "2")) [mkOperation "remove" "/spec" VNil]
    (VMap deployment) (VMap deployment)); vm_compute; reflexivity.
Defined.

(** ** Removing several elements *)

(** The indices of the elements a filter selects are computed before the
    first removal, so that removing both containers named app removes the
    first one and then an unrelated container, and reports no error. *)
Theorem remove_by_filter_shifts :
  let '(root', res) :=
    ApplyPatches [mkOperation "remove" "/spec/containers[?(@.name=='app')]" VNil] (VMap deployment) in
  res = Ok () ∧
  get root' containers_ref = Some (VSlice (container <$> ["side"; "app"])).
Proof. vm_compute. split; reflexivity. Qed.

(** A mergeShallow at the root pointer does not merge into the document:
    it stores the overlay under the empty key. *)
Theorem mergeShallow_at_root_nests :
  let overlay := VMap (obj [("kind", VString "Deployment")]) in
  let '(root', res) := ApplyPatches [mkOperation "mergeShallow" "" overlay] (VMap deployment) in
  res = Ok () ∧ get root' [AKey "kind"] = None ∧ get root' [AKey ""] = Some overlay.
Proof. vm_compute. repeat split; reflexivity. Qed.
