(* ===== verification/GatewayConn.v ===== *)
(** * Agent connections of the cluster gateway

    [internal/cluster-gateway/connection_manager.go]: the agents of data,
    workflow and observability planes keep a connection to the gateway, which
    records for which custom resources (CRs) the agent's certificate is valid
    and spreads requests over the authorised connections.  A connection is a
    Go pointer shared by the index and by running re-validations, so the
    manager holds a memory ([heap]) and the index holds addresses.  The
    callbacks on the listener are recorded in order in [events]; closed
    websockets in [closed].  New identifiers and the clock are arguments. *)

From S2P Require Import Prelude GoStrings.

Open Scope go_scope.

(** ** Certificates *)

(** What the code uses of [crypto/x509].  [Verify] gives the error, if any. *)
Record VerifyOptions (Pool : Type) := mkVerifyOptions {
  Roots : Pool;
  Intermediates : option Pool;
  ClientAuth : bool;  (** [KeyUsages] asks for client authentication *)
}.
Arguments mkVerifyOptions {Pool}.
Arguments Roots {Pool}.
Arguments Intermediates {Pool}.
Arguments ClientAuth {Pool}.

Class X509 := {
  Certificate : Type;
  CertPool : Type;
  NewCertPool : CertPool;
  AddCert : CertPool → Certificate → CertPool;
  AppendCertsFromPEM : CertPool → string → CertPool * bool;
  Verify : Certificate → VerifyOptions CertPool → option string;
}.

(** A moment, in nanoseconds since the zero value of [time.Time]. *)
Abbreviation Time := Z (only parsing).
Definition After (t u : Time) : bool := (u <? t)%Z.

(** The handle of a websocket. *)
Definition Connection : Type := nat.

Definition loc : Type := nat.

Section Gateway.
Context `{X : X509}.

(** ** One connection *)

Record AgentConnection := mkAgentConnection {
  ID : string;
  Conn : Connection;
  PlaneType : string;
  PlaneID : string;
  PlaneIdentifier : string;
  ConnectedAt : Time;
  LastSeen : Time;
  ValidCRs : list string;
  clientCert : Certificate;
  intermediates : option CertPool;
}.

Definition SetValidCRs (ac : AgentConnection) (validCRs : list string) : AgentConnection :=
  mkAgentConnection (ID ac) (Conn ac) (PlaneType ac) (PlaneID ac) (PlaneIdentifier ac)
    (ConnectedAt ac) (LastSeen ac) validCRs (clientCert ac) (intermediates ac).

Definition SetLastSeen (ac : AgentConnection) (now : Time) : AgentConnection :=
  mkAgentConnection (ID ac) (Conn ac) (PlaneType ac) (PlaneID ac) (PlaneIdentifier ac)
    (ConnectedAt ac) now (ValidCRs ac) (clientCert ac) (intermediates ac).

Definition IsValidForCR (ac : AgentConnection) (crKey : string) : bool :=
  bool_decide (crKey ∈ ValidCRs ac).

Definition GetValidCRs (ac : AgentConnection) : list string := ValidCRs ac.

Definition AddValidCR (ac : AgentConnection) (crKey : string) : AgentConnection :=
  if bool_decide (crKey ∈ ValidCRs ac) then ac
  else SetValidCRs ac (ValidCRs ac ++ [crKey]).

Definition removeValidCRUnsafe (ac : AgentConnection) (crKey : string) : AgentConnection :=
  SetValidCRs ac (List.filter (λ validCR, negb (String.eqb validCR crKey)) (ValidCRs ac)).

Definition RemoveValidCR (ac : AgentConnection) (crKey : string) : AgentConnection :=
  removeValidCRUnsafe ac crKey.

Definition verifyOptions (ac : AgentConnection) (certPool : CertPool) : VerifyOptions CertPool :=
  mkVerifyOptions certPool (intermediates ac) true.

(** The new state of the connection, [granted], [revoked] and the error. *)
Definition UpdateCRValidity (ac : AgentConnection) (crKey : string) (certPool : CertPool)
    : AgentConnection * (bool * bool * option string) :=
  let wasValid := bool_decide (crKey ∈ ValidCRs ac) in
  let verifyErr := Verify (clientCert ac) (verifyOptions ac certPool) in
  let isValid := match verifyErr with None => true | Some _ => false end in
  if isValid && negb wasValid then
    (SetValidCRs ac (ValidCRs ac ++ [crKey]), (true, false, None))
  else if negb isValid && wasValid then
    (removeValidCRUnsafe ac crKey, (false, true, verifyErr))
  else (ac, (false, false, None)).

(** ** The manager *)

(** The calls of [ConnectionListener]. *)
Inductive ListenerEvent :=
  | OnAgentRegistered (planeIdentifier connID : string) (validCRs : list string)
  | OnAgentUnregistered (planeIdentifier connID : string)
  | OnAgentCRsChanged (planeIdentifier connID : string) (validCRs : list string).

Record ConnectionManager := mkCM {
  heap : loc → AgentConnection;
  next : loc;  (** the next address to allocate *)
  connections : gmap string (list loc);
  roundRobin : gmap string nat;
  listening : bool;  (** a listener is set *)
  events : list ListenerEvent;
  closed : list Connection;
}.

Definition NewConnectionManager (mem : loc → AgentConnection) : ConnectionManager :=
  mkCM mem 0 ∅ ∅ false [] [].

Definition SetListener (cm : ConnectionManager) : ConnectionManager :=
  mkCM (heap cm) (next cm) (connections cm) (roundRobin cm) true (events cm) (closed cm).

Definition with_heap (cm : ConnectionManager) h :=
  mkCM h (next cm) (connections cm) (roundRobin cm) (listening cm) (events cm) (closed cm).
Definition with_connections (cm : ConnectionManager) c :=
  mkCM (heap cm) (next cm) c (roundRobin cm) (listening cm) (events cm) (closed cm).
Definition with_roundRobin (cm : ConnectionManager) r :=
  mkCM (heap cm) (next cm) (connections cm) r (listening cm) (events cm) (closed cm).
Definition close_conn (cm : ConnectionManager) (c : Connection) :=
  mkCM (heap cm) (next cm) (connections cm) (roundRobin cm) (listening cm) (events cm)
    (closed cm ++ [c]).

(** [if cm.listener != nil { cm.listener.On...(...) }] *)
Definition notify (cm : ConnectionManager) (ev : ListenerEvent) : ConnectionManager :=
  if listening cm then
    mkCM (heap cm) (next cm) (connections cm) (roundRobin cm) (listening cm)
      (events cm ++ [ev]) (closed cm)
  else cm.

(** [*l = ac] *)
Definition store_conn (cm : ConnectionManager) (l : loc) (ac : AgentConnection) :=
  with_heap cm (λ l', if decide (l' = l) then ac else heap cm l').

(** [cm.connections[p]]: nil when absent. *)
Definition conns_of (cm : ConnectionManager) (p : string) : list loc :=
  match connections cm !! p with Some conns => conns | None => [] end.

Definition slash (s t : string) : string := s +:+ "/" +:+ t.

Definition Register (cm : ConnectionManager) (connID : string) (now : Time)
    (planeType planeID : string) (conn : Connection) (validCRs : list string)
    (cert : Certificate) (inter : option CertPool) : ConnectionManager * result string :=
  let planeIdentifier := slash planeType planeID in
  let newConn := mkAgentConnection connID conn planeType planeID planeIdentifier now now
                   validCRs cert inter in
  let l := next cm in
  let cm1 := mkCM (heap (store_conn cm l newConn)) (S l)
               (<[planeIdentifier := conns_of cm planeIdentifier ++ [l]]> (connections cm))
               (roundRobin cm) (listening cm) (events cm) (closed cm) in
  (notify cm1 (OnAgentRegistered planeIdentifier connID validCRs), Ok connID).

Definition countAllConnections (cm : ConnectionManager) : nat :=
  map_fold (λ _ conns total, total + length conns) 0 (connections cm).

Definition Count (cm : ConnectionManager) : nat := countAllConnections cm.

(** The position of the first connection with the identifier. *)
Fixpoint find_conn (h : loc → AgentConnection) (conns : list loc) (connID : string) : option nat :=
  match conns with
  | [] => None
  | l :: conns => if String.eqb (ID (h l)) connID then Some 0 else S <$> find_conn h conns connID
  end.

Definition isPerCRKey (prefix key : string) : bool :=
  (String.length prefix <? String.length key)
  && String.eqb (stake (String.length prefix) key) prefix.

Definition cleanupPerCRRoundRobinKeys (cm : ConnectionManager) (planeIdentifier : string)
    : ConnectionManager :=
  let prefix := planeIdentifier +:+ "/" in
  let keysToDelete := List.filter (isPerCRKey prefix) (map_to_list (roundRobin cm)).*1 in
  with_roundRobin cm (foldl (λ rr key, delete key rr) (roundRobin cm) keysToDelete).

Definition hasAuthorizedConn (cm : ConnectionManager) (conns : list loc) (crKey : string) : bool :=
  existsb (λ l, IsValidForCR (heap cm l) crKey) conns.

Definition cleanupOrphanedCRKeys (cm : ConnectionManager) (planeIdentifier : string)
    (removedCRs : list string) : ConnectionManager :=
  let remainingConns := conns_of cm planeIdentifier in
  with_roundRobin cm
    (foldl (λ rr crKey,
       if hasAuthorizedConn cm remainingConns crKey then rr
       else delete (slash planeIdentifier crKey) rr) (roundRobin cm) removedCRs).

Definition Unregister (cm : ConnectionManager) (planeIdentifier connID : string)
    : ConnectionManager :=
  match connections cm !! planeIdentifier with
  | None => cm
  | Some conns =>
      match find_conn (heap cm) conns connID with
      | None => cm
      | Some i =>
          let conn := heap cm (nth i conns 0) in
          let validCRs := GetValidCRs conn in
          let cm1 := close_conn cm (Conn conn) in
          let remaining := take i conns ++ drop (S i) conns in
          let cm2 := with_connections cm1 (<[planeIdentifier := remaining]> (connections cm1)) in
          let cm3 :=
            if Nat.eqb (length remaining) 0 then
              cleanupPerCRRoundRobinKeys
                (with_roundRobin
                   (with_connections cm2 (delete planeIdentifier (connections cm2)))
                   (delete planeIdentifier (roundRobin cm2)))
                planeIdentifier
            else cleanupOrphanedCRKeys cm2 planeIdentifier validCRs in
          notify cm3 (OnAgentUnregistered planeIdentifier connID)
      end
  end.

(** [idx := cm.roundRobin[key] % len(conns)], the key set to the successor. *)
Definition rotate_key (cm : ConnectionManager) (key : string) (conns : list loc)
    : ConnectionManager * result loc :=
  let idx := default 0 (roundRobin cm !! key) `mod` length conns in
  let cm1 := with_roundRobin cm (<[key := S idx `mod` length conns]> (roundRobin cm)) in
  match conns !! idx with
  | Some l => (cm1, Ok l)
  | None => (cm1, Err "index out of range")
  end.

Definition Get (cm : ConnectionManager) (planeIdentifier : string)
    : ConnectionManager * result loc :=
  match connections cm !! planeIdentifier with
  | None | Some [] => (cm, Err ("no agents found for plane " +:+ planeIdentifier))
  | Some conns => rotate_key cm planeIdentifier conns
  end.

Definition GetForCR (cm : ConnectionManager) (planeIdentifier crKey : string)
    : ConnectionManager * result loc :=
  match connections cm !! planeIdentifier with
  | None | Some [] => (cm, Err ("no agents found for plane " +:+ planeIdentifier))
  | Some conns =>
      match List.filter (λ l, IsValidForCR (heap cm l) crKey) conns with
      | [] => (cm, Err ("no agents authorized for CR " +:+ crKey))
      | validConns => rotate_key cm (slash planeIdentifier crKey) validConns
      end
  end.

Definition GetAll `{MapRange} (cm : ConnectionManager) : list loc :=
  concat (map_range (connections cm)).*2.

Definition UpdateConnectionLastSeen (cm : ConnectionManager) (now : Time)
    (planeIdentifier connID : string) : ConnectionManager :=
  match connections cm !! planeIdentifier with
  | None => cm
  | Some conns =>
      match find_conn (heap cm) conns connID with
      | None => cm
      | Some i => let l := nth i conns 0 in store_conn cm l (SetLastSeen (heap cm l) now)
      end
  end.

Fixpoint disconnectLoop (cm : ConnectionManager) (planeIdentifier : string) (conns : list loc)
    : ConnectionManager :=
  match conns with
  | [] => cm
  | l :: conns =>
      let cm1 := close_conn cm (Conn (heap cm l)) in
      disconnectLoop (notify cm1 (OnAgentUnregistered planeIdentifier (ID (heap cm l))))
        planeIdentifier conns
  end.

Definition DisconnectAllForPlane (cm : ConnectionManager) (planeType planeID : string)
    : ConnectionManager * nat :=
  let planeIdentifier := slash planeType planeID in
  match connections cm !! planeIdentifier with
  | None | Some [] => (cm, 0)
  | Some conns =>
      let cm1 := disconnectLoop cm planeIdentifier conns in
      let cm2 := with_connections cm1 (delete planeIdentifier (connections cm1)) in
      let cm3 := with_roundRobin cm2 (delete planeIdentifier (roundRobin cm2)) in
      (cleanupPerCRRoundRobinKeys cm3 planeIdentifier, length conns)
  end.

(** ** Status *)

Record PlaneConnectionStatus := mkStatus {
  st_PlaneType : string;
  st_PlaneID : string;
  Connected : bool;
  ConnectedAgents : nat;
  st_LastSeen : Time;
}.

Definition later (cm : ConnectionManager) (mostRecent : Time) (l : loc) : Time :=
  if After (LastSeen (heap cm l)) mostRecent then LastSeen (heap cm l) else mostRecent.

Definition mostRecentOf (cm : ConnectionManager) (conns : list loc) : Time :=
  match conns with
  | [] => 0%Z
  | l :: rest => foldl (later cm) (LastSeen (heap cm l)) rest
  end.

Definition GetPlaneStatus (cm : ConnectionManager) (planeType planeID : string)
    : PlaneConnectionStatus :=
  let conns := conns_of cm (slash planeType planeID) in
  mkStatus planeType planeID (0 <? length conns) (length conns) (mostRecentOf cm conns).

(** The loop over the connections: the authorised ones and the latest of them. *)
Definition authorizedLoop (cm : ConnectionManager) (crIdentifier : string) (conns : list loc)
    : nat * Time :=
  foldl (λ '(count, mostRecent) l,
    if existsb (λ validCR, String.eqb validCR crIdentifier) (ValidCRs (heap cm l))
    then (S count, later cm mostRecent l) else (count, mostRecent)) (0, 0%Z) conns.

Definition GetCRAuthorizationStatus (cm : ConnectionManager)
    (planeType planeID namespace name : string) : PlaneConnectionStatus :=
  let '(authorizedConnCount, mostRecentLastSeen) :=
    authorizedLoop cm (slash namespace name) (conns_of cm (slash planeType planeID)) in
  if 0 <? authorizedConnCount then
    mkStatus planeType planeID true authorizedConnCount mostRecentLastSeen
  else mkStatus planeType planeID false 0 0%Z.

Definition splitPlaneIdentifier (identifier : string) : list string :=
  match IndexByte "/"%char identifier with
  | Some i => [stake i identifier; sdrop (i + 1) identifier]
  | None => [identifier]
  end.

Definition GetAllPlaneStatuses `{MapRange} (cm : ConnectionManager)
    : list PlaneConnectionStatus :=
  omap (λ '(planeIdentifier, conns),
    match splitPlaneIdentifier planeIdentifier with
    | [planeType; planeID] =>
        Some (mkStatus planeType planeID (0 <? length conns) (length conns)
                (mostRecentOf cm conns))
    | _ => None
    end) (map_range (connections cm)).

(** ** Re-validation

    [RevalidateCR] takes a snapshot of the plane's connections, updates them
    one by one without the manager's lock and cleans up at the end; its three
    phases are separate definitions so that other calls can run between them. *)

Definition revalidateSnapshot (cm : ConnectionManager) (planeIdentifier : string) : list loc :=
  conns_of cm planeIdentifier.

Definition revalidateConn (cm : ConnectionManager) (planeIdentifier crKey : string)
    (certPool : CertPool) (counts : nat * nat) (l : loc) : ConnectionManager * (nat * nat) :=
  let '(ac, (granted, revoked, _)) := UpdateCRValidity (heap cm l) crKey certPool in
  let cm1 := store_conn cm l ac in
  let counts' :=
    if granted : bool then (S counts.1, counts.2)
    else if revoked : bool then (counts.1, S counts.2) else counts in
  let cm2 :=
    if granted || revoked then
      notify cm1 (OnAgentCRsChanged planeIdentifier (ID (heap cm1 l)) (GetValidCRs (heap cm1 l)))
    else cm1 in
  (cm2, counts').

Fixpoint revalidateLoop (cm : ConnectionManager) (planeIdentifier crKey : string)
    (certPool : CertPool) (counts : nat * nat) (conns : list loc)
    : ConnectionManager * (nat * nat) :=
  match conns with
  | [] => (cm, counts)
  | l :: conns =>
      let '(cm1, counts1) := revalidateConn cm planeIdentifier crKey certPool counts l in
      revalidateLoop cm1 planeIdentifier crKey certPool counts1 conns
  end.

Definition revalidateCleanup (cm : ConnectionManager) (planeIdentifier crKey : string)
    (removed : nat) : ConnectionManager :=
  if 0 <? removed then
    if hasAuthorizedConn cm (conns_of cm planeIdentifier) crKey then cm
    else with_roundRobin cm (delete (slash planeIdentifier crKey) (roundRobin cm))
  else cm.

Definition RevalidateCR (cm : ConnectionManager) (planeType planeID crNamespace crName : string)
    (newCAData : string) : ConnectionManager * result (nat * nat) :=
  let planeIdentifier := slash planeType planeID in
  match revalidateSnapshot cm planeIdentifier with
  | [] => (cm, Ok (0, 0))
  | connsCopy =>
      let crKey := slash crNamespace crName in
      match AppendCertsFromPEM NewCertPool newCAData with
      | (_, false) => (cm, Err "failed to parse new CA certificate")
      | (certPool, true) =>
          let '(cm1, counts) :=
            revalidateLoop cm planeIdentifier crKey certPool (0, 0) connsCopy in
          (revalidateCleanup cm1 planeIdentifier crKey counts.2, Ok counts)
      end
  end.

End Gateway.
