(* ===== verification/GatewayConnSpec.v ===== *)
(** * What the connection manager promises

    [GetForCR] serves exactly from the registered connections authorised for
    the CR and in turn; the reported authorisation status agrees with it; a
    re-validation leaves every connection of the plane authorised exactly when
    its certificate verifies. *)

From S2P Require Import Prelude GoStrings GatewayConn.

Open Scope go_scope.

Section Spec.
Context `{X : X509}.
Implicit Types (cm : ConnectionManager) (p cr : string) (l : loc).

(** ** Selection *)

(** The registered connections of a plane authorised for a CR, in order. *)
Definition authorizedConns cm p cr : list loc :=
  List.filter (λ l, IsValidForCR (heap cm l) cr) (conns_of cm p).

Lemma elem_of_authorizedConns cm p cr l :
  l ∈ authorizedConns cm p cr ↔ l ∈ conns_of cm p ∧ IsValidForCR (heap cm l) cr = true.
Proof. unfold authorizedConns. by rewrite !list_elem_of_In, filter_In. Qed.

Definition start_of cm (key : string) (conns : list loc) : nat :=
  default 0 (roundRobin cm !! key) `mod` length conns.

Lemma rotate_key_eq cm key conns :
  conns ≠ [] →
  ∃ l, conns !! start_of cm key conns = Some l ∧
    rotate_key cm key conns =
      (with_roundRobin cm
         (<[key := S (start_of cm key conns) `mod` length conns]> (roundRobin cm)), Ok l).
Proof.
  intros Hne. assert (Hlt : start_of cm key conns < length conns).
  { apply Nat.mod_upper_bound. by destruct conns. }
  destruct (lookup_lt_is_Some_2 _ _ Hlt) as [l Hl].
  exists l. split; [done|]. unfold rotate_key. unfold start_of in *. by rewrite Hl.
Qed.

Lemma GetForCR_None cm p cr :
  authorizedConns cm p cr = [] → ∃ m, GetForCR cm p cr = (cm, Err m).
Proof.
  unfold GetForCR, authorizedConns, conns_of. intros Hnil.
  destruct (connections cm !! p) as [[|c conns]|]; [by eauto| |by eauto].
  rewrite Hnil. eauto.
Qed.

Lemma GetForCR_Some cm p cr :
  authorizedConns cm p cr ≠ [] →
  GetForCR cm p cr = rotate_key cm (slash p cr) (authorizedConns cm p cr).
Proof.
  unfold GetForCR, authorizedConns, conns_of. intros Hne.
  destruct (connections cm !! p) as [[|c conns]|]; [done| |done].
  by destruct (List.filter _ _).
Qed.

(** A request for a CR is served by a registered connection of the plane
    that is authorised for it, whenever there is one; otherwise it fails and
    nothing changes.  Serving a request changes neither the connections nor
    their authorisations. *)
Lemma GetForCR_authorized cm p cr :
  match GetForCR cm p cr with
  | (cm', Ok l) =>
      l ∈ conns_of cm p ∧ IsValidForCR (heap cm l) cr = true ∧
      heap cm' = heap cm ∧ connections cm' = connections cm
  | (cm', Err _) =>
      cm' = cm ∧ ∀ l, l ∈ conns_of cm p → IsValidForCR (heap cm l) cr = false
  end.
Proof.
  destruct (decide (authorizedConns cm p cr = [])) as [Hnil|Hne].
  - destruct (GetForCR_None _ _ _ Hnil) as [m ->]. split; [done|].
    intros l Hl. apply not_true_iff_false. intros Hv.
    assert (l ∈ authorizedConns cm p cr) as Hin by by apply elem_of_authorizedConns.
    rewrite Hnil in Hin. by apply elem_of_nil in Hin.
  - rewrite GetForCR_Some by done.
    destruct (rotate_key_eq cm (slash p cr) _ Hne) as (l & Hl & ->).
    apply list_elem_of_lookup_2, elem_of_authorizedConns in Hl. naive_solver.
Qed.

(** ** Fairness *)

(** The connections [n] successive requests for a CR are given. *)
Fixpoint serve cm p cr (n : nat) : ConnectionManager * list (result loc) :=
  match n with
  | 0 => (cm, [])
  | S n =>
      let '(cm1, r) := GetForCR cm p cr in
      let '(cm2, rs) := serve cm1 p cr n in
      (cm2, r :: rs)
  end.

Lemma serve_add cm p cr m n :
  serve cm p cr (m + n) =
    ((serve (serve cm p cr m).1 p cr n).1,
     (serve cm p cr m).2 ++ (serve (serve cm p cr m).1 p cr n).2).
Proof.
  revert cm. induction m as [|m IH]; intros cm; simpl.
  - by destruct (serve cm p cr n).
  - destruct (GetForCR cm p cr) as [cm1 r]. rewrite IH.
    by destruct (serve cm1 p cr m).
Qed.

Lemma GetForCR_step cm p cr :
  authorizedConns cm p cr ≠ [] →
  let valid := authorizedConns cm p cr in
  let s := start_of cm (slash p cr) valid in
  ∃ cm' l, GetForCR cm p cr = (cm', Ok l) ∧ valid !! s = Some l ∧
    authorizedConns cm' p cr = valid ∧
    start_of cm' (slash p cr) valid = S s `mod` length valid.
Proof.
  intros Hne valid s. rewrite GetForCR_Some by done.
  destruct (rotate_key_eq cm (slash p cr) _ Hne) as (l & Hl & ->).
  eexists _, l. split; [reflexivity|]. split; [done|]. split; [done|].
  unfold start_of at 1. simpl. rewrite lookup_insert. fold valid. rewrite decide_True by done.
  simpl. apply Nat.Div0.mod_mod.
Qed.

(** As long as the list does not wrap around, requests go through it in order. *)
Lemma serve_run cm p cr k :
  let valid := authorizedConns cm p cr in
  let s := start_of cm (slash p cr) valid in
  valid ≠ [] → s + k ≤ length valid →
  (serve cm p cr k).2 = Ok <$> take k (drop s valid) ∧
  authorizedConns (serve cm p cr k).1 p cr = valid ∧
  start_of (serve cm p cr k).1 (slash p cr) valid = (s + k) `mod` length valid.
Proof.
  revert cm. induction k as [|k IH]; intros cm valid s Hne Hk.
  { simpl. rewrite Nat.add_0_r. unfold s, start_of. by rewrite Nat.Div0.mod_mod. }
  destruct (GetForCR_step cm p cr Hne) as (cm1 & l & Hget & Hl & Hv & Hs).
  fold valid s in Hl, Hv, Hs. cbn [serve]. rewrite Hget.
  specialize (IH cm1). cbn zeta in IH. rewrite Hv, Hs in IH.
  destruct k as [|k].
  { simpl. rewrite (drop_S _ _ _ Hl). simpl. rewrite Hs, Nat.add_1_r. done. }
  rewrite (Nat.mod_small (S s)) in IH by lia.
  destruct (IH Hne ltac:(lia)) as (H1 & H2 & H3).
  destruct (serve cm1 p cr (S k)) as [cm2 rs]. simpl in H1, H2, H3 |- *.
  rewrite (drop_S _ _ _ Hl). cbn [take fmap list_fmap]. rewrite H1.
  split_and!; [done|done|]. rewrite H3. f_equal. lia.
Qed.

Lemma serve_round cm p cr :
  let valid := authorizedConns cm p cr in
  (serve cm p cr (length valid)).2 ≡ₚ Ok <$> valid ∧
  authorizedConns (serve cm p cr (length valid)).1 p cr = valid.
Proof.
  intros valid. destruct (decide (valid = [])) as [E|Hne].
  { fold valid. rewrite E. simpl. by rewrite <- E. }
  pose (s := start_of cm (slash p cr) valid).
  assert (Hlt : s < length valid) by (apply Nat.mod_upper_bound; by destruct valid).
  replace (length valid) with ((length valid - s) + s) by lia.
  rewrite serve_add. simpl.
  destruct (serve_run cm p cr (length valid - s)) as (H1 & H2 & H3); [done|fold valid s; lia|].
  fold valid s in H1, H2, H3. set (cm1 := (serve cm p cr (length valid - s)).1) in *.
  replace (s + (length valid - s)) with (length valid) in H3 by lia.
  rewrite Nat.Div0.mod_same in H3.
  destruct (serve_run cm1 p cr s) as (H4 & H5 & _); rewrite ?H2; [done|rewrite H3; lia|].
  rewrite H2 in H4, H5. rewrite H3 in H4. rewrite H1, H4, H5. split; [|done].
  rewrite drop_0, <- fmap_app. apply fmap_Permutation.
  rewrite take_ge by (rewrite length_drop; lia).
  rewrite Permutation_app_comm. by rewrite take_drop.
Qed.

(** Round robin is fair: [k] rounds of as many requests as there are
    authorised connections are answered by [k] times each authorised
    connection, from whatever position the rotation starts. *)
Theorem GetForCR_fair cm p cr k :
  (serve cm p cr (k * length (authorizedConns cm p cr))).2
    ≡ₚ concat (replicate k (Ok <$> authorizedConns cm p cr)).
Proof.
  revert cm. induction k as [|k IH]; intros cm; [done|]. simpl.
  rewrite serve_add. simpl. destruct (serve_round cm p cr) as [H1 H2].
  rewrite H1. f_equiv. 
  pose proof (IH (serve cm p cr (length (authorizedConns cm p cr))).1) as H3.
  by rewrite H2 in H3.
Qed.

(** ** Status *)

Lemma ValidCRs_existsb (ac : AgentConnection) cr :
  existsb (λ validCR, String.eqb validCR cr) (ValidCRs ac) = IsValidForCR ac cr.
Proof.
  unfold IsValidForCR. apply eq_bool_prop_intro.
  rewrite Is_true_true, existsb_elem, bool_decide_spec. split.
  - intros (x & Hx & ->%String.eqb_eq). done.
  - intros Hx. exists cr. by rewrite String.eqb_refl.
Qed.

Lemma later_max cm t l : later cm t l = Z.max t (LastSeen (heap cm l)).
Proof. unfold later, After. destruct (Z.ltb_spec t (LastSeen (heap cm l))); lia. Qed.

Lemma foldr_max_init (ts : list Z) t u :
  foldr Z.max (Z.max t u) ts = Z.max u (foldr Z.max t ts).
Proof. induction ts as [|v ts IH]; simpl; [lia|]. rewrite IH. lia. Qed.

Lemma authorizedLoop_acc cm cr conns n t :
  foldl (λ '(count, mostRecent) l,
    if existsb (λ validCR, String.eqb validCR cr) (ValidCRs (heap cm l))
    then (S count, later cm mostRecent l) else (count, mostRecent)) (n, t) conns =
  (n + length (List.filter (λ l, IsValidForCR (heap cm l) cr) conns),
   foldr Z.max t ((λ l, LastSeen (heap cm l)) <$>
                   List.filter (λ l, IsValidForCR (heap cm l) cr) conns)).
Proof.
  revert n t. induction conns as [|l conns IH]; intros n t; simpl; [f_equal; lia|].
  rewrite ValidCRs_existsb. destruct (IsValidForCR (heap cm l) cr); rewrite IH; [|done].
  simpl. f_equal; [lia|]. rewrite later_max.
  apply foldr_max_init.
Qed.

(** The authorisation status of a CR counts the connections that could
    serve a request for it, reports the latest time one of them was seen, and
    says connected exactly when [GetForCR] would succeed. *)
Theorem GetCRAuthorizationStatus_agrees cm planeType planeID namespace name :
  let st := GetCRAuthorizationStatus cm planeType planeID namespace name in
  let p := slash planeType planeID in
  let cr := slash namespace name in
  Connected st = is_ok (GetForCR cm p cr).2 ∧
  ConnectedAgents st = length (authorizedConns cm p cr) ∧
  st_LastSeen st = foldr Z.max 0%Z ((λ l, LastSeen (heap cm l)) <$> authorizedConns cm p cr).
Proof.
  intros st p cr. unfold st, GetCRAuthorizationStatus, authorizedLoop. fold p cr.
  rewrite authorizedLoop_acc. fold (authorizedConns cm p cr). simpl.
  destruct (decide (authorizedConns cm p cr = [])) as [Hnil|Hne].
  - rewrite Hnil. destruct (GetForCR_None _ _ _ Hnil) as [m ->]. done.
  - rewrite GetForCR_Some by done.
    destruct (rotate_key_eq cm (slash p cr) _ Hne) as (l & _ & ->).
    by destruct (authorizedConns cm p cr).
Qed.

(** ** Re-validation *)

Definition verifies (pool : CertPool) (ac : AgentConnection) : bool :=
  match Verify (clientCert ac) (verifyOptions ac pool) with None => true | Some _ => false end.

Lemma IsValidForCR_append (ac : AgentConnection) cr cr' :
  IsValidForCR (SetValidCRs ac (ValidCRs ac ++ [cr])) cr' =
    String.eqb cr' cr || IsValidForCR ac cr'.
Proof.
  unfold IsValidForCR. apply eq_bool_prop_intro. rewrite orb_True, !bool_decide_spec. simpl.
  rewrite elem_of_app, list_elem_of_singleton, Is_true_true, String.eqb_eq. naive_solver.
Qed.

Lemma IsValidForCR_remove (ac : AgentConnection) cr cr' :
  IsValidForCR (removeValidCRUnsafe ac cr) cr' = negb (String.eqb cr' cr) && IsValidForCR ac cr'.
Proof.
  unfold IsValidForCR. apply eq_bool_prop_intro. rewrite andb_True, !bool_decide_spec. simpl.
  rewrite list_elem_of_In, filter_In, <- list_elem_of_In, Is_true_true. naive_solver.
Qed.

Lemma UpdateCRValidity_valid (ac : AgentConnection) cr pool cr' :
  IsValidForCR (UpdateCRValidity ac cr pool).1 cr' =
    if String.eqb cr' cr then verifies pool ac else IsValidForCR ac cr'.
Proof.
  unfold UpdateCRValidity, verifies. change (bool_decide _) with (IsValidForCR ac cr).
  destruct (Verify _ _), (IsValidForCR ac cr) eqn:Hv; simpl;
    rewrite ?IsValidForCR_append, ?IsValidForCR_remove;
    destruct (String.eqb_spec cr' cr) as [->|Hne]; by rewrite ?Hv.
Qed.

Lemma UpdateCRValidity_flags (ac : AgentConnection) cr pool :
  (UpdateCRValidity ac cr pool).2.1 =
    (verifies pool ac && negb (IsValidForCR ac cr), negb (verifies pool ac) && IsValidForCR ac cr).
Proof.
  unfold UpdateCRValidity, verifies, IsValidForCR.
  destruct (Verify _ _); by case_bool_decide.
Qed.

(** What re-validation keeps of a connection. *)
Definition same_identity (ac ac' : AgentConnection) : Prop :=
  ac' = SetValidCRs ac (ValidCRs ac').

Lemma UpdateCRValidity_identity (ac : AgentConnection) cr pool :
  same_identity ac (UpdateCRValidity ac cr pool).1.
Proof.
  unfold same_identity, UpdateCRValidity. destruct ac; simpl.
  by destruct (Verify _ _); case_bool_decide.
Qed.

Lemma UpdateCRValidity_same (ac : AgentConnection) cr pool :
  let '(ac', (granted, revoked, _)) := UpdateCRValidity ac cr pool in
  granted || revoked = false → ac' = ac.
Proof. unfold UpdateCRValidity. by destruct (Verify _ _); case_bool_decide. Qed.

Lemma notify_fields cm ev :
  heap (notify cm ev) = heap cm ∧ next (notify cm ev) = next cm ∧
  connections (notify cm ev) = connections cm ∧ roundRobin (notify cm ev) = roundRobin cm ∧
  listening (notify cm ev) = listening cm ∧ closed (notify cm ev) = closed cm.
Proof. unfold notify. by destruct (listening cm) eqn:?. Qed.

Lemma revalidateConn_fields cm p cr pool counts l :
  let '(cm', counts') := revalidateConn cm p cr pool counts l in
  let ac := heap cm l in
  heap cm' = (λ l', if decide (l' = l) then (UpdateCRValidity ac cr pool).1 else heap cm l') ∧
  next cm' = next cm ∧ connections cm' = connections cm ∧ roundRobin cm' = roundRobin cm ∧
  listening cm' = listening cm ∧ closed cm' = closed cm ∧
  counts' = (counts.1 + Nat.b2n (verifies pool ac && negb (IsValidForCR ac cr)),
             counts.2 + Nat.b2n (negb (verifies pool ac) && IsValidForCR ac cr)).
Proof.
  unfold revalidateConn. pose proof (UpdateCRValidity_flags (heap cm l) cr pool) as Hf.
  destruct (UpdateCRValidity (heap cm l) cr pool) as [ac [[granted revoked] err]].
  simpl in Hf. injection Hf as -> ->.
  set (cm1 := store_conn cm l ac).
  pose proof (notify_fields cm1 (OnAgentCRsChanged p (ID (heap cm1 l)) (GetValidCRs (heap cm1 l))))
    as (N1 & N2 & N3 & N4 & N5 & N6).
  destruct (verifies pool (heap cm l)), (IsValidForCR (heap cm l) cr); simpl;
    rewrite ?N1, ?N2, ?N3, ?N4, ?N5, ?N6; destruct counts; simpl;
    split_and!; try done; f_equal; lia.
Qed.

Definition count_if {A} (f : A → bool) (xs : list A) : nat := length (List.filter f xs).

Lemma count_if_cons {A} (f : A → bool) x xs :
  count_if f (x :: xs) = Nat.b2n (f x) + count_if f xs.
Proof. unfold count_if. simpl. by destruct (f x). Qed.

Lemma count_if_ext {A} (f g : A → bool) xs :
  (∀ x, x ∈ xs → f x = g x) → count_if f xs = count_if g xs.
Proof.
  intros Hfg. unfold count_if. f_equal. induction xs as [|x xs IH]; [done|]. simpl.
  rewrite Hfg by constructor. rewrite IH; [done|]. intros y Hy. apply Hfg. by constructor.
Qed.

Lemma revalidateLoop_fields cm p cr pool counts conns :
  NoDup conns →
  let '(cm', counts') := revalidateLoop cm p cr pool counts conns in
  (∀ l, heap cm' l = if decide (l ∈ conns) then (UpdateCRValidity (heap cm l) cr pool).1
                     else heap cm l) ∧
  next cm' = next cm ∧ connections cm' = connections cm ∧ roundRobin cm' = roundRobin cm ∧
  listening cm' = listening cm ∧ closed cm' = closed cm ∧
  counts' =
    (counts.1 + count_if (λ l, verifies pool (heap cm l) && negb (IsValidForCR (heap cm l) cr)) conns,
     counts.2 + count_if (λ l, negb (verifies pool (heap cm l)) && IsValidForCR (heap cm l) cr) conns).
Proof.
  intros Hnd. revert cm counts. induction Hnd as [|l conns Hl Hnd IH]; intros cm counts; simpl.
  { destruct counts. simpl. unfold count_if. simpl. by rewrite !Nat.add_0_r. }
  pose proof (revalidateConn_fields cm p cr pool counts l) as Hc.
  destruct (revalidateConn cm p cr pool counts l) as [cm1 counts1].
  destruct Hc as (Hh & Hn & Hc & Hr & Hli & Hcl & ->).
  specialize (IH cm1 (counts.1 + Nat.b2n (verifies pool (heap cm l) && negb (IsValidForCR (heap cm l) cr)),
             counts.2 + Nat.b2n (negb (verifies pool (heap cm l)) && IsValidForCR (heap cm l) cr))).
  destruct (revalidateLoop cm1 p cr pool _ conns) as [cm2 counts2].
  destruct IH as (Hh' & Hn' & Hc' & Hr' & Hli' & Hcl' & ->).
  assert (Hsame : ∀ l', l' ∈ conns → heap cm1 l' = heap cm l').
  { intros l' Hl'. rewrite Hh. rewrite decide_False; [done|]. by intros ->. }
  split_and!; try congruence.
  - intros l'. rewrite Hh'. destruct (decide (l' ∈ conns)) as [Hin|Hin].
    + rewrite Hsame by done. rewrite decide_True by by constructor. done.
    + rewrite Hh. destruct (decide (l' = l)) as [->|Hne].
      * rewrite decide_True by by constructor. done.
      * rewrite decide_False; [done|]. by intros [?|?]%elem_of_cons.
  - simpl. rewrite !count_if_cons, !Nat.add_assoc.
    f_equal; f_equal; apply count_if_ext; intros l' Hl'; by rewrite Hsame.
Qed.

Lemma revalidateCleanup_fields cm p cr n :
  let cm' := revalidateCleanup cm p cr n in
  heap cm' = heap cm ∧ next cm' = next cm ∧ connections cm' = connections cm ∧
  listening cm' = listening cm ∧ closed cm' = closed cm ∧ events cm' = events cm.
Proof. unfold revalidateCleanup. by repeat case_goal. Qed.

(** A re-validation with a readable CA leaves every connection of the plane
    authorised for the CR exactly when its certificate verifies against the new
    CA, changes no other authorisation and no other connection, disconnects
    nobody, and reports how many authorisations it granted and revoked. *)
Theorem RevalidateCR_correct cm planeType planeID ns name ca pool :
  let p := slash planeType planeID in
  let cr := slash ns name in
  NoDup (conns_of cm p) → AppendCertsFromPEM NewCertPool ca = (pool, true) →
  ∃ cm', RevalidateCR cm planeType planeID ns name ca =
    (cm', Ok (count_if (λ l, verifies pool (heap cm l) && negb (IsValidForCR (heap cm l) cr))
                (conns_of cm p),
              count_if (λ l, negb (verifies pool (heap cm l)) && IsValidForCR (heap cm l) cr)
                (conns_of cm p))) ∧
    connections cm' = connections cm ∧ closed cm' = closed cm ∧
    authorizedConns cm' p cr = List.filter (λ l, verifies pool (heap cm l)) (conns_of cm p) ∧
    (∀ l cr', cr' ≠ cr → IsValidForCR (heap cm' l) cr' = IsValidForCR (heap cm l) cr') ∧
    (∀ l, l ∉ conns_of cm p → heap cm' l = heap cm l) ∧
    (∀ l, same_identity (heap cm l) (heap cm' l)).
Proof.
  intros p cr Hnd Hca. unfold RevalidateCR, revalidateSnapshot. fold p cr.
  pose proof (revalidateLoop_fields cm p cr pool (0, 0) (conns_of cm p) Hnd) as Hl.
  destruct (conns_of cm p) as [|l0 conns] eqn:Hconns.
  { eexists. split; [reflexivity|]. unfold authorizedConns. rewrite Hconns.
    split_and!; try done. intros l. unfold same_identity. by destruct (heap cm l). }
  rewrite Hca. destruct (revalidateLoop _ _ _ _ _ _) as [cm1 counts].
  destruct Hl as (Hh & _ & Hc & _ & _ & Hcl & ->).
  eexists. split; [reflexivity|].
  destruct (revalidateCleanup_fields cm1 p cr
    (0 + count_if (λ l, negb (verifies pool (heap cm l)) && IsValidForCR (heap cm l) cr) (l0 :: conns)))
    as (Gh & _ & Gc & _ & Gcl & _).
  cbn [snd]. rewrite Gc, Gcl, Gh. split_and!; try done.
  - unfold authorizedConns, conns_of. rewrite Gc, Gh, Hc. fold (conns_of cm p). rewrite Hconns.
    apply filter_ext_in. intros l Hin%list_elem_of_In. rewrite Hh, decide_True by done.
    by rewrite UpdateCRValidity_valid, String.eqb_refl.
  - intros l cr' Hne. rewrite Hh. case_decide; [|done].
    rewrite UpdateCRValidity_valid. by apply String.eqb_neq in Hne as ->.
  - intros l Hni. by rewrite Hh, decide_False.
  - intros l. rewrite Hh. case_decide; [apply UpdateCRValidity_identity|].
    unfold same_identity. by destruct (heap cm l).
Qed.

End Spec.
