(* ===== verification/FabricMesh.v ===== *)
(** * The mesh of gateway replicas

    [internal/cluster-gateway/fabric]: every replica owns some agent
    connections and tells the others about them, by deltas numbered per owner
    and by snapshots; a replica keeps what it knows of the others in a
    [Registry] ([registry.go]) and exchanges frames over links ([mesh.go]).
    Sequence numbers are 64-bit.  The frame handler returns what it sends back
    and which goroutines it starts as a list of effects. *)

From S2P Require Import Prelude GoStrings.

Open Scope go_scope.

(** ** Data ([fabric.go]) *)

Record Peer := mkPeer { peer_ID : string; Addr : string }.

Record AgentEntry := mkEntry {
  ae_PlaneIdentifier : string;
  ae_ConnID : string;
  ae_ValidCRs : list string;
}.

#[global] Instance AgentEntry_eq_dec : EqDecision AgentEntry.
Proof. solve_decision. Defined.

Definition DeltaOpAdd : string := "add".
Definition DeltaOpRemove : string := "remove".

Record Delta := mkDelta {
  d_Op : string;
  d_Owner : string;
  d_Seq : Z;
  d_Entry : AgentEntry;
}.

Record Snapshot := mkSnapshot {
  s_Owner : string;
  s_Seq : Z;
  s_Entries : list AgentEntry;
}.

Record PlaneEvent := mkPlaneEvent {
  pe_PlaneType : string;
  pe_PlaneID : string;
  pe_Event : string;
  pe_Namespace : string;
  pe_Name : string;
}.

Record HTTPTunnelRequest := mkTunnelRequest {
  rq_RequestID : string;
  rq_GatewayRequestID : string;
  Target : string;
  Method : string;
  Path : string;
  Query : string;
  rq_Headers : gmap string (list string);
  rq_Body : string;
}.

(** [ErrorDetails], without its free-form details. *)
Record ErrorDetails := mkErrorDetails { ed_Code : Z; ed_Message : string }.

Record HTTPTunnelResponse := mkTunnelResponse {
  rs_RequestID : string;
  StatusCode : Z;
  rs_Headers : gmap string (list string);
  rs_Body : string;
  rs_Error : option ErrorDetails;
}.

Record ForwardRequest := mkForwardRequest {
  fq_CorrID : string;
  fq_PlaneIdentifier : string;
  fq_CRKey : string;
  fq_TimeoutMillis : Z;
  fq_Request : HTTPTunnelRequest;
}.

Record ForwardResponse := mkForwardResponse {
  fr_CorrID : string;
  fr_Response : option HTTPTunnelResponse;
  fr_NoAgent : bool;
  fr_Error : string;
}.

Record RemoteAgent := mkRemoteAgent { ra_Owner : string; ra_Entry : AgentEntry }.

(** [x + 1] on [uint64] *)
Definition incr64 (x : Z) : Z := (x + 1) mod 2 ^ 64.

(** ** The registry ([registry.go]) *)

Record ownerState := mkOwnerState {
  seq : Z;
  draining : bool;
  entries : gmap string AgentEntry;
}.

Record Registry := mkRegistry {
  owners : gmap string ownerState;
  cursor : gmap string nat;
}.

Definition NewRegistry : Registry := mkRegistry ∅ ∅.

Definition with_owner (r : Registry) (owner : string) (st : ownerState) : Registry :=
  mkRegistry (<[owner := st]> (owners r)) (cursor r).

(** The effect of a delta on the entries of its owner. *)
Definition applyOp (op : string) (e : AgentEntry) (m : gmap string AgentEntry)
    : gmap string AgentEntry :=
  if String.eqb op DeltaOpAdd then <[ae_ConnID e := e]> m
  else if String.eqb op DeltaOpRemove then delete (ae_ConnID e) m
  else m.

Definition ApplyDelta (r : Registry) (d : Delta) : Registry * bool :=
  match owners r !! d_Owner d with
  | None =>
      if negb (Z.eqb (d_Seq d) 1) then (r, false)
      else (with_owner r (d_Owner d)
              (mkOwnerState (d_Seq d) false (applyOp (d_Op d) (d_Entry d) ∅)), true)
  | Some st =>
      if negb (Z.eqb (d_Seq d) (incr64 (seq st))) then (r, false)
      else (with_owner r (d_Owner d)
              (mkOwnerState (d_Seq d) (draining st) (applyOp (d_Op d) (d_Entry d) (entries st))),
            true)
  end.

Definition entriesMap (es : list AgentEntry) : gmap string AgentEntry :=
  foldl (λ m e, <[ae_ConnID e := e]> m) ∅ es.

Definition ApplySnapshot (r : Registry) (s : Snapshot) : Registry :=
  let drain := match owners r !! s_Owner s with Some st => draining st | None => false end in
  with_owner r (s_Owner s) (mkOwnerState (s_Seq s) drain (entriesMap (s_Entries s))).

Definition matchesLookup (planeIdentifier crKey : string) (e : AgentEntry) : bool :=
  String.eqb (ae_PlaneIdentifier e) planeIdentifier
  && (String.eqb crKey "" || bool_decide (crKey ∈ ae_ValidCRs e)).

Definition candidatesOf (planeIdentifier crKey : string) (owner : string) (st : ownerState)
    : list RemoteAgent :=
  if draining st then []
  else mkRemoteAgent owner <$>
         List.filter (matchesLookup planeIdentifier crKey) (map_to_list (entries st)).*2.

Definition agent_le (a b : RemoteAgent) : Prop :=
  if String.eqb (ra_Owner a) (ra_Owner b)
  then String.le (ae_ConnID (ra_Entry a)) (ae_ConnID (ra_Entry b))
  else String.le (ra_Owner a) (ra_Owner b).

#[global] Instance agent_le_dec : RelDecision agent_le.
Proof. intros a b. unfold agent_le. destruct (String.eqb _ _); apply _. Defined.

(** [sort.Slice] by owner, then by connection: no two results are equal. *)
Definition lookupResults (r : Registry) (planeIdentifier crKey : string) : list RemoteAgent :=
  merge_sort agent_le
    (concat ((λ '(owner, st), candidatesOf planeIdentifier crKey owner st)
               <$> map_to_list (owners r))).

Definition Registry_Lookup (r : Registry) (planeIdentifier crKey : string)
    : Registry * list RemoteAgent :=
  match lookupResults r planeIdentifier crKey with
  | [] => (r, [])
  | results =>
      let key := planeIdentifier +:+ "/" +:+ crKey in
      let offset := default 0 (cursor r !! key) `mod` length results in
      (mkRegistry (owners r) (<[key := S offset `mod` length results]> (cursor r)),
       drop offset results ++ take offset results)
  end.

Definition PurgeOwner (r : Registry) (owner : string) : Registry :=
  mkRegistry (delete owner (owners r)) (cursor r).

Definition SetDraining (r : Registry) (owner : string) : Registry :=
  let st := default (mkOwnerState 0 false ∅) (owners r !! owner) in
  with_owner r owner (mkOwnerState (seq st) true (entries st)).

(** The number of entries, over all owners, that satisfy a test. *)
Definition countEntries (f : AgentEntry → bool) (r : Registry) : nat :=
  map_fold (λ _ st count,
    map_fold (λ _ e count, if f e then S count else count) count (entries st)) 0 (owners r).

Definition CountForPlane (r : Registry) (planeIdentifier : string) : nat :=
  countEntries (λ e, String.eqb (ae_PlaneIdentifier e) planeIdentifier) r.

Definition CountForCR (r : Registry) (planeIdentifier crKey : string) : nat :=
  countEntries (λ e, String.eqb (ae_PlaneIdentifier e) planeIdentifier
                     && bool_decide (crKey ∈ ae_ValidCRs e)) r.

Definition AllPlaneCounts (r : Registry) : gmap string nat :=
  map_fold (λ _ st counts,
    map_fold (λ _ e counts,
      <[ae_PlaneIdentifier e := S (default 0 (counts !! ae_PlaneIdentifier e))]> counts)
      counts (entries st)) ∅ (owners r).

Definition CountByOwner (r : Registry) : gmap string nat :=
  omap (λ st, if draining st then None else Some (size (entries st))) (owners r).

(** ** The mesh ([mesh.go]) *)

Definition frameHello : string := "hello".
Definition frameDelta : string := "delta".
Definition frameSnapshotReq : string := "snapshot_req".
Definition frameSnapshotRsp : string := "snapshot_rsp".
Definition frameForwardReq : string := "forward_req".
Definition frameForwardRsp : string := "forward_rsp".
Definition frameDraining : string := "draining".
Definition framePlaneEvent : string := "plane_event".

Record meshFrame := mkFrame {
  f_Type : string;
  f_PodID : string;
  f_Delta : option Delta;
  f_Snapshot : option Snapshot;
  f_ForwardReq : option ForwardRequest;
  f_ForwardRsp : option ForwardResponse;
  f_PlaneEvent : option PlaneEvent;
}.

Definition emptyFrame (ty : string) : meshFrame := mkFrame ty "" None None None None None.
Definition deltaFrame (d : Delta) : meshFrame := mkFrame frameDelta "" (Some d) None None None None.
Definition snapshotFrame (s : Snapshot) : meshFrame :=
  mkFrame frameSnapshotRsp "" None (Some s) None None None.

(** A link to a peer; it is up while it has a websocket. *)
Record peerLink := mkLink { link_peer : Peer; up : bool }.

Record Mesh := mkMesh {
  self : string;
  registry : Registry;
  localSeq : Z;
  localEntries : gmap string AgentEntry;
  outbox : list meshFrame;
  links : gmap string peerLink;
  pending : gmap string string;  (** correlation identifier to owner *)
  peersSeen : bool;
  knownPeers : gset string;
  snapshotsFrom : gset string;
  startedAt : Z;
}.

Definition meshOutboxSize : nat := 1024.
Definition meshConvergeGrace : Z := 20 * 10 ^ 9.

Definition NewMesh (selfID : string) (r : Registry) : Mesh :=
  mkMesh selfID r 0 ∅ [] ∅ ∅ false ∅ ∅ 0.

Definition with_registry (m : Mesh) (r : Registry) : Mesh :=
  mkMesh (self m) r (localSeq m) (localEntries m) (outbox m) (links m) (pending m)
    (peersSeen m) (knownPeers m) (snapshotsFrom m) (startedAt m).
Definition with_local (m : Mesh) (s : Z) (es : gmap string AgentEntry) : Mesh :=
  mkMesh (self m) (registry m) s es (outbox m) (links m) (pending m)
    (peersSeen m) (knownPeers m) (snapshotsFrom m) (startedAt m).
Definition with_pending (m : Mesh) (p : gmap string string) : Mesh :=
  mkMesh (self m) (registry m) (localSeq m) (localEntries m) (outbox m) (links m) p
    (peersSeen m) (knownPeers m) (snapshotsFrom m) (startedAt m).

(** A full outbox drops the frame. *)
Definition enqueueLocked (m : Mesh) (f : meshFrame) : Mesh :=
  if length (outbox m) <? meshOutboxSize then
    mkMesh (self m) (registry m) (localSeq m) (localEntries m) (outbox m ++ [f]) (links m)
      (pending m) (peersSeen m) (knownPeers m) (snapshotsFrom m) (startedAt m)
  else m.

Definition LocalUpsert (m : Mesh) (e : AgentEntry) : Mesh :=
  let m1 := with_local m (incr64 (localSeq m)) (<[ae_ConnID e := e]> (localEntries m)) in
  enqueueLocked m1 (deltaFrame (mkDelta DeltaOpAdd (self m) (localSeq m1) e)).

Definition LocalRemove (m : Mesh) (planeIdentifier connID : string) : Mesh :=
  match localEntries m !! connID with
  | None => m
  | Some _ =>
      let m1 := with_local m (incr64 (localSeq m)) (delete connID (localEntries m)) in
      enqueueLocked m1
        (deltaFrame (mkDelta DeltaOpRemove (self m) (localSeq m1)
                       (mkEntry planeIdentifier connID [])))
  end.

Definition localSnapshot `{MapRange} (m : Mesh) : Snapshot :=
  mkSnapshot (self m) (localSeq m) (map_range (localEntries m)).*2.

Definition Drain (m : Mesh) : Mesh :=
  enqueueLocked m (mkFrame frameDraining (self m) None None None None None).

Definition BroadcastPlaneEvent (m : Mesh) (ev : PlaneEvent) : Mesh :=
  enqueueLocked m (mkFrame framePlaneEvent "" None None None None (Some ev)).

(** One round of [runBroadcaster]: the oldest frame leaves the outbox for the
    links that are up. *)
Definition broadcastNext (m : Mesh) : option (meshFrame * list string * Mesh) :=
  match outbox m with
  | [] => None
  | f :: rest =>
      Some (f, (map_to_list (filter (λ kv, up kv.2 = true) (links m))).*1,
            mkMesh (self m) (registry m) (localSeq m) (localEntries m) rest (links m)
              (pending m) (peersSeen m) (knownPeers m) (snapshotsFrom m) (startedAt m))
  end.

(** Readiness: every known peer has sent its snapshot, or the grace is over. *)
Definition Converged (m : Mesh) (now : Z) : bool :=
  if negb (peersSeen m) then
    negb (Z.eqb (startedAt m) 0) && (meshConvergeGrace <? now - startedAt m)%Z
  else if bool_decide (knownPeers m ⊆ snapshotsFrom m) then true
  else (meshConvergeGrace <? now - startedAt m)%Z.

(** The set of links after discovery reported the peers: links to peers that
    left or moved are dropped, links to new ones are opened, and the entries of
    those that left are purged. *)
Definition reconcilePeers (m : Mesh) (peers : list Peer) : Mesh :=
  let want := foldl (λ w p, <[peer_ID p := p]> w) ∅ peers in
  let kept := filter (λ kv : string * peerLink,
                Addr <$> want !! kv.1 = Some (Addr (link_peer kv.2))) (links m) in
  let purged := filter (λ id, want !! id = None) (map_to_list (links m)).*1 in
  let opened := (λ p, mkLink p false) <$> want in
  mkMesh (self m) (foldl PurgeOwner (registry m) purged) (localSeq m) (localEntries m)
    (outbox m) (kept ∪ opened) (pending m) true (dom want) (snapshotsFrom m) (startedAt m).

(** What a frame makes the replica do besides changing its state. *)
Inductive effect :=
  | SendBack (f : meshFrame)                    (** on the same link *)
  | GoServeForward (req : ForwardRequest)       (** serve it and answer *)
  | Deliver (corrID : string) (rsp : option ForwardResponse)  (** wake a waiter *)
  | GoApplyPlaneEvent (ev : PlaneEvent).

Definition failPendingForPeer (m : Mesh) (peerID : string) : Mesh * list effect :=
  let orphaned := filter (λ kv, kv.2 = peerID) (pending m) in
  (with_pending m (pending m ∖ orphaned),
   (λ kv, Deliver kv.1 None) <$> map_to_list orphaned).

Definition handleDelta (m : Mesh) (peerID : string) (od : option Delta) : Mesh * list effect :=
  match od with
  | Some d =>
      if String.eqb (d_Owner d) peerID then
        let '(r, ok) := ApplyDelta (registry m) d in
        (with_registry m r, if ok : bool then [] else [SendBack (emptyFrame frameSnapshotReq)])
      else (m, [])
  | None => (m, [])
  end.

Definition handleSnapshot (m : Mesh) (peerID : string) (os : option Snapshot)
    : Mesh * list effect :=
  match os with
  | Some s =>
      if String.eqb (s_Owner s) peerID then
        (mkMesh (self m) (ApplySnapshot (registry m) s) (localSeq m) (localEntries m) (outbox m)
           (links m) (pending m) (peersSeen m) (knownPeers m)
           ({[peerID]} ∪ snapshotsFrom m) (startedAt m), [])
      else (m, [])
  | None => (m, [])
  end.

Definition handleForwardRsp (m : Mesh) (orsp : option ForwardResponse) : Mesh * list effect :=
  match orsp with
  | Some rsp =>
      match pending m !! fr_CorrID rsp with
      | Some _ =>
          (with_pending m (delete (fr_CorrID rsp) (pending m)),
           [Deliver (fr_CorrID rsp) (Some rsp)])
      | None => (m, [])
      end
  | None => (m, [])
  end.

Definition handleFrame `{MapRange} (m : Mesh) (peerID : string) (f : meshFrame)
    : Mesh * list effect :=
  let ty := f_Type f in
  if String.eqb ty frameDelta then handleDelta m peerID (f_Delta f)
  else if String.eqb ty frameSnapshotReq then (m, [SendBack (snapshotFrame (localSnapshot m))])
  else if String.eqb ty frameSnapshotRsp then handleSnapshot m peerID (f_Snapshot f)
  else if String.eqb ty frameForwardReq then
    match f_ForwardReq f with Some req => (m, [GoServeForward req]) | None => (m, []) end
  else if String.eqb ty frameForwardRsp then handleForwardRsp m (f_ForwardRsp f)
  else if String.eqb ty frameDraining then
    if String.eqb (f_PodID f) peerID then (with_registry m (SetDraining (registry m) peerID), [])
    else (m, [])
  else if String.eqb ty framePlaneEvent then
    match f_PlaneEvent f with Some ev => (m, [GoApplyPlaneEvent ev]) | None => (m, []) end
  else (m, []).

(** ** Forwarding one request *)

Inductive forwardError :=
  | ErrNoLink (text : string)
  | ErrForwardNotSent (text : string)
  | ErrForwardMayHaveExecuted (text : string).

(** How the wait for an answer ends. *)
Inductive waited :=
  | Answered (rsp : ForwardResponse)
  | LinkLost
  | ContextDone (err : string).

Definition stamp (req : ForwardRequest) (newID : string) : ForwardRequest :=
  mkForwardRequest (if String.eqb (fq_CorrID req) "" then newID else fq_CorrID req)
    (fq_PlaneIdentifier req) (fq_CRKey req) (fq_TimeoutMillis req) (fq_Request req).

(** [Forward] before the wait: the error, or the request as it went on the
    wire, with its waiter recorded. *)
Definition ForwardSend (m : Mesh) (owner : string) (req : ForwardRequest) (newID : string)
    (sendErr : option string) : Mesh * (ForwardRequest + forwardError) :=
  match links m !! owner with
  | None => (m, inr (ErrNoLink owner))
  | Some link =>
      if up link then
        let req' := stamp req newID in
        let m1 := with_pending m (<[fq_CorrID req' := owner]> (pending m)) in
        match sendErr with
        | Some err =>
            (with_pending m1 (delete (fq_CorrID req') (pending m1)),
             inr (ErrForwardNotSent ("to " +:+ owner +:+ ": " +:+ err)))
        | None => (m1, inl req')
        end
      else (m, inr (ErrNoLink (owner +:+ " (link down)")))
  end.

(** [Forward] after the wait.  The waiter is gone in every case: the frame
    handler or the lost link removed it, or the deadline does. *)
Definition ForwardWait (m : Mesh) (owner : string) (req : ForwardRequest) (w : waited)
    : Mesh * (ForwardResponse + forwardError) :=
  (with_pending m (delete (fq_CorrID req) (pending m)),
   match w with
   | Answered rsp => inl rsp
   | LinkLost => inr (ErrForwardMayHaveExecuted (owner +:+ " (link lost mid-request)"))
   | ContextDone err => inr (ErrForwardMayHaveExecuted ("to " +:+ owner +:+ ": " +:+ err))
   end).
