(* ===== verification/FabricSpec.v ===== *)
(** * Replication between gateway replicas

    An owner [A] changes its connections and puts deltas and snapshots on the
    wire; an observer [B] handles them in any order, any number of times or
    never.  What [B] believes about [A] is always a state [A] was in, a delta
    that does not fit is detected, and the repair makes the view current.  A
    snapshot that arrives after a newer delta, though, takes the view back. *)

From S2P Require Import Prelude GoStrings FabricMesh.

Open Scope go_scope.

Section Replication.
Context {MR : MapRange} {ML : MapRangeLaws}.

(** ** The two replicas and the wire *)

Record World := mkWorld {
  A : Mesh;
  sent : list meshFrame;  (** what [A] ever put on a link to [B] *)
  B : Mesh;
  history : list (gmap string AgentEntry);  (** the entries of [A], by sequence number *)
}.

Definition view (m : Mesh) (owner : string) : option ownerState := owners (registry m) !! owner.

(** What handling a frame of another replica, a lookup or a change of peers
    may do to the observer's view of [a]: nothing, or drop it. *)
Inductive observer_step (a : string) : Mesh → Mesh → Prop :=
  | obs_frame m q f : q ≠ a → observer_step a m (handleFrame m q f).1
  | obs_lookup m p cr :
      observer_step a m (with_registry m (Registry_Lookup (registry m) p cr).1)
  | obs_peers m ps : observer_step a m (reconcilePeers m ps)
  | obs_lost m q : observer_step a m (failPendingForPeer m q).1
  | obs_upsert m e : observer_step a m (LocalUpsert m e)
  | obs_remove m p c : observer_step a m (LocalRemove m p c).

Definition fits (m : Mesh) : Prop := (localSeq m + 1 < 2 ^ 64)%Z.

Inductive world_step : World → World → Prop :=
  | w_upsert a s b h e :
      fits a →
      world_step (mkWorld a s b h)
        (mkWorld (LocalUpsert a e) s b (h ++ [localEntries (LocalUpsert a e)]))
  | w_remove a s b h p c e :
      fits a → localEntries a !! c = Some e →
      world_step (mkWorld a s b h)
        (mkWorld (LocalRemove a p c) s b (h ++ [localEntries (LocalRemove a p c)]))
  | w_drain a s b h : world_step (mkWorld a s b h) (mkWorld (Drain a) s b h)
  | w_event a s b h ev :
      world_step (mkWorld a s b h) (mkWorld (BroadcastPlaneEvent a ev) s b h)
  | w_broadcast a s b h f ps a' :
      broadcastNext a = Some (f, ps, a') →
      world_step (mkWorld a s b h) (mkWorld a' (f :: s) b h)
  | w_snapshot a s b h :
      world_step (mkWorld a s b h) (mkWorld a (snapshotFrame (localSnapshot a) :: s) b h)
  | w_deliver a s b h f :
      f ∈ s →
      world_step (mkWorld a s b h) (mkWorld a s (handleFrame b (self a) f).1 h)
  | w_observer a s b b' h :
      observer_step (self a) b b' → world_step (mkWorld a s b h) (mkWorld a s b' h).

Definition initial (a b : string) (r : Registry) : World :=
  mkWorld (NewMesh a NewRegistry) [] (NewMesh b r) [∅].

(** ** The invariant *)

Definition at_seq (h : list (gmap string AgentEntry)) (n : Z) (m : gmap string AgentEntry) : Prop :=
  (0 ≤ n)%Z ∧ h !! Z.to_nat n = Some m.

(** A frame of the owner tells the truth about its history. *)
Definition truthful (a : string) (h : list (gmap string AgentEntry)) (f : meshFrame) : Prop :=
  (∀ d, f_Type f = frameDelta → f_Delta f = Some d →
    d_Owner d = a ∧ (1 ≤ d_Seq d)%Z ∧
    ∃ m, at_seq h (d_Seq d - 1) m ∧ at_seq h (d_Seq d) (applyOp (d_Op d) (d_Entry d) m)) ∧
  (∀ s, f_Type f = frameSnapshotRsp → f_Snapshot f = Some s →
    s_Owner s = a ∧ at_seq h (s_Seq s) (entriesMap (s_Entries s))).

Record world_inv (w : World) : Prop := {
  inv_seq : (0 ≤ localSeq (A w) < 2 ^ 64)%Z;
  inv_len : length (history w) = S (Z.to_nat (localSeq (A w)));
  inv_now : at_seq (history w) (localSeq (A w)) (localEntries (A w));
  inv_zero : history w !! 0 = Some ∅;
  inv_keys : ∀ c e, localEntries (A w) !! c = Some e → ae_ConnID e = c;
  inv_outbox : ∀ f, f ∈ outbox (A w) → truthful (self (A w)) (history w) f;
  inv_sent : ∀ f, f ∈ sent w → truthful (self (A w)) (history w) f;
  inv_view : ∀ st, view (B w) (self (A w)) = Some st → at_seq (history w) (seq st) (entries st);
}.

Lemma at_seq_app h h' n m : at_seq h n m → at_seq (h ++ h') n m.
Proof. intros [? Hl]. split; [done|]. by apply lookup_app_l_Some. Qed.

Lemma truthful_app a h h' f : truthful a h f → truthful a (h ++ h') f.
Proof.
  intros [Hd Hs]. split.
  - intros d Ht Hf. destruct (Hd d Ht Hf) as (? & ? & m & ? & ?). eauto 10 using at_seq_app.
  - intros s Ht Hf. destruct (Hs s Ht Hf). eauto using at_seq_app.
Qed.

Lemma enqueueLocked_outbox m f g :
  g ∈ outbox (enqueueLocked m f) → g ∈ outbox m ∨ g = f.
Proof.
  unfold enqueueLocked. case_goal; [simpl|by left].
  rewrite elem_of_app, list_elem_of_singleton. done.
Qed.

Lemma enqueueLocked_fields m f :
  self (enqueueLocked m f) = self m ∧ registry (enqueueLocked m f) = registry m ∧
  localSeq (enqueueLocked m f) = localSeq m ∧ localEntries (enqueueLocked m f) = localEntries m.
Proof. unfold enqueueLocked. by case_goal. Qed.

Lemma LocalUpsert_fields m e :
  let m' := LocalUpsert m e in
  self m' = self m ∧ registry m' = registry m ∧ localSeq m' = incr64 (localSeq m) ∧
  localEntries m' = <[ae_ConnID e := e]> (localEntries m) ∧
  ∀ g, g ∈ outbox m' →
    g ∈ outbox m ∨ g = deltaFrame (mkDelta DeltaOpAdd (self m) (incr64 (localSeq m)) e).
Proof.
  unfold LocalUpsert. cbn zeta.
  match goal with |- context [enqueueLocked ?m1 ?f] =>
    destruct (enqueueLocked_fields m1 f) as (-> & -> & -> & ->);
    pose proof (enqueueLocked_outbox m1 f) end. done.
Qed.

Lemma LocalRemove_fields m p c e :
  localEntries m !! c = Some e →
  let m' := LocalRemove m p c in
  self m' = self m ∧ registry m' = registry m ∧ localSeq m' = incr64 (localSeq m) ∧
  localEntries m' = delete c (localEntries m) ∧
  ∀ g, g ∈ outbox m' →
    g ∈ outbox m ∨
    g = deltaFrame (mkDelta DeltaOpRemove (self m) (incr64 (localSeq m)) (mkEntry p c [])).
Proof.
  intros Hc. unfold LocalRemove. rewrite Hc. cbn zeta.
  match goal with |- context [enqueueLocked ?m1 ?f] =>
    destruct (enqueueLocked_fields m1 f) as (-> & -> & -> & ->);
    pose proof (enqueueLocked_outbox m1 f) end. done.
Qed.

Lemma entriesMap_app es e : entriesMap (es ++ [e]) = <[ae_ConnID e := e]> (entriesMap es).
Proof. unfold entriesMap. by rewrite foldl_app. Qed.

(** A map whose keys are the identifiers of its entries is rebuilt from them. *)
Lemma entriesMap_lookup es c e :
  NoDup (ae_ConnID <$> es) → entriesMap es !! c = Some e ↔ e ∈ es ∧ ae_ConnID e = c.
Proof.
  induction es as [|x es IH] using rev_ind; intros Hnd.
  { unfold entriesMap. simpl. rewrite lookup_empty, elem_of_nil. naive_solver. }
  rewrite fmap_app in Hnd. apply NoDup_app in Hnd as (Hnd & Hdis & _).
  rewrite entriesMap_app, elem_of_app, list_elem_of_singleton.
  destruct (decide (ae_ConnID x = c)) as [<-|Hne].
  - rewrite lookup_insert, decide_True by done. split; [intros [= <-]; by auto|].
    intros [[Hin| ->] Hc]; [|done]. exfalso.
    apply (Hdis (ae_ConnID e)); [by apply list_elem_of_fmap_2|]. rewrite Hc. by left.
  - rewrite lookup_insert_ne by done. rewrite IH by done. naive_solver.
Qed.

Lemma localSnapshot_entries m :
  (∀ c e, localEntries m !! c = Some e → ae_ConnID e = c) →
  entriesMap (s_Entries (localSnapshot m)) = localEntries m.
Proof.
  intros Hk. unfold localSnapshot. simpl.
  assert (Hp : (map_range (localEntries m)).*2 ≡ₚ (map_to_list (localEntries m)).*2)
    by (by rewrite map_range_perm).
  assert (Hids : ae_ConnID <$> (map_to_list (localEntries m)).*2 = (map_to_list (localEntries m)).*1).
  { rewrite <- list_fmap_compose. apply list_fmap_ext. intros i [c e] Hi. simpl.
    apply Hk, elem_of_map_to_list, list_elem_of_lookup. eauto. }
  apply map_eq. intros c. apply option_eq. intros e.
  rewrite entriesMap_lookup.
  - rewrite Hp, list_elem_of_fmap. split.
    + intros [([c' e'] & -> & Hin%elem_of_map_to_list) Hc]. simpl in *.
      rewrite <- Hc. by rewrite (Hk _ _ Hin) in *.
    + intros Hl. split; [|by eapply Hk]. exists (c, e). by rewrite elem_of_map_to_list.
  - rewrite Hp, Hids. apply NoDup_fst_map_to_list.
Qed.

(** ** What the frame handler does to a view *)

Lemma incr64_fits x : (0 ≤ x → x + 1 < 2 ^ 64 → incr64 x = x + 1)%Z.
Proof. intros. unfold incr64. apply Z.mod_small. lia. Qed.

Lemma view_with_registry m r owner : view (with_registry m r) owner = owners r !! owner.
Proof. done. Qed.

Lemma ApplyDelta_other r d a : d_Owner d ≠ a → owners (ApplyDelta r d).1 !! a = owners r !! a.
Proof.
  intros Hne. unfold ApplyDelta.
  destruct (owners r !! d_Owner d); case_goal; simpl; rewrite ?lookup_insert_ne; done.
Qed.

Lemma handleFrame_cases (P : Mesh → Prop) m q f :
  P m →
  (∀ d, f_Type f = frameDelta → f_Delta f = Some d → d_Owner d = q →
        P (with_registry m (ApplyDelta (registry m) d).1)) →
  (∀ s, f_Type f = frameSnapshotRsp → f_Snapshot f = Some s → s_Owner s = q →
        P (handleFrame m q f).1) →
  (∀ p', P (with_pending m p')) →
  P (with_registry m (SetDraining (registry m) q)) →
  P (handleFrame m q f).1.
Proof.
  intros Hm Hd Hs Hp Hdr. unfold handleFrame in *.
  destruct (String.eqb_spec (f_Type f) frameDelta) as [Ht|Ht].
  { unfold handleDelta. destruct (f_Delta f) as [d|] eqn:Hfd; [|done].
    destruct (String.eqb_spec (d_Owner d) q) as [Ho|]; [|done].
    specialize (Hd d Ht eq_refl Ho). by destruct (ApplyDelta (registry m) d). }
  destruct (String.eqb (f_Type f) frameSnapshotReq); [done|].
  destruct (String.eqb_spec (f_Type f) frameSnapshotRsp) as [Ht'|Ht'].
  { destruct (f_Snapshot f) as [s|] eqn:Hfs; [|done].
    destruct (String.eqb_spec (s_Owner s) q) as [Ho|Ho]; [by eapply Hs|].
    simpl. apply String.eqb_neq in Ho. by rewrite Ho. }
  destruct (String.eqb (f_Type f) frameForwardReq); [by destruct (f_ForwardReq f)|].
  destruct (String.eqb (f_Type f) frameForwardRsp).
  { unfold handleForwardRsp. destruct (f_ForwardRsp f) as [rsp|]; [|done].
    destruct (pending m !! fr_CorrID rsp); [apply Hp|done]. }
  destruct (String.eqb (f_Type f) frameDraining).
  { by destruct (String.eqb (f_PodID f) q). }
  destruct (String.eqb (f_Type f) framePlaneEvent); [|done]. by destruct (f_PlaneEvent f).
Qed.

Lemma handleFrame_snapshot m q f s :
  f_Type f = frameSnapshotRsp → f_Snapshot f = Some s → s_Owner s = q →
  registry (handleFrame m q f).1 = ApplySnapshot (registry m) s ∧ (handleFrame m q f).2 = [].
Proof.
  intros Ht Hs Ho. unfold handleFrame. rewrite Ht. simpl. unfold handleSnapshot.
  rewrite Hs. apply String.eqb_eq in Ho. by rewrite Ho.
Qed.

Lemma handleFrame_other m q f a : q ≠ a → view (handleFrame m q f).1 a = view m a.
Proof.
  intros Hne. apply handleFrame_cases; try done.
  - intros d _ _ <-. rewrite view_with_registry. by apply ApplyDelta_other.
  - intros s Ht Hs Ho. unfold view.
    destruct (handleFrame_snapshot m q f s Ht Hs Ho) as [-> _].
    unfold ApplySnapshot. simpl. rewrite lookup_insert_ne; congruence.
  - rewrite view_with_registry. unfold SetDraining. simpl. by rewrite lookup_insert_ne.
Qed.

Definition good_view (a : string) (h : list (gmap string AgentEntry)) (m : Mesh) : Prop :=
  ∀ st, view m a = Some st → at_seq h (seq st) (entries st).

Lemma at_seq_fun h n m m' : at_seq h n m → at_seq h n m' → m = m'.
Proof. intros [_ H1] [_ H2]. congruence. Qed.

Lemma ApplyDelta_good r d a h :
  d_Owner d = a → (1 ≤ d_Seq d)%Z → (Z.of_nat (length h) ≤ 2 ^ 64)%Z → h !! 0 = Some ∅ →
  (∃ m, at_seq h (d_Seq d - 1) m ∧ at_seq h (d_Seq d) (applyOp (d_Op d) (d_Entry d) m)) →
  (∀ st, owners r !! a = Some st → at_seq h (seq st) (entries st)) →
  ∀ st, owners (ApplyDelta r d).1 !! a = Some st → at_seq h (seq st) (entries st).
Proof.
  intros <- Hpos Hlen H0 (m & Hm & Hm') Hr st. unfold ApplyDelta.
  destruct (owners r !! d_Owner d) as [st0|] eqn:Ho.
  - destruct (Z.eqb_spec (d_Seq d) (incr64 (seq st0))) as [Hq|]; simpl; [|naive_solver].
    rewrite lookup_insert, decide_True by done. intros [= <-]. simpl.
    specialize (Hr _ eq_refl). assert (seq st0 = (d_Seq d - 1)%Z) as Heq.
    { destruct Hr as [? Hl%lookup_lt_Some]. destruct Hm' as [_ Hl'%lookup_lt_Some].
      revert Hq. unfold incr64. destruct (decide (seq st0 + 1 < 2 ^ 64)%Z).
      - rewrite Z.mod_small by lia. lia.
      - replace (seq st0 + 1)%Z with (2 ^ 64)%Z by lia. rewrite Z.mod_same by lia. lia. }
    rewrite Heq in Hr. by rewrite (at_seq_fun _ _ _ _ Hr Hm).
  - destruct (Z.eqb_spec (d_Seq d) 1) as [Hq|]; simpl; [|naive_solver].
    rewrite lookup_insert, decide_True by done. intros [= <-]. simpl.
    rewrite Hq in Hm |- *. replace ∅ with m; [by rewrite <- Hq|].
    destruct Hm as [_ Hm]. change (h !! 0 = Some m) in Hm. congruence.
Qed.

Lemma handleFrame_good a h m f :
  (Z.of_nat (length h) ≤ 2 ^ 64)%Z → h !! 0 = Some ∅ → truthful a h f →
  good_view a h m → good_view a h (handleFrame m a f).1.
Proof.
  intros Hlen H0 [Hd Hs] Hm. apply handleFrame_cases; try done.
  - intros d Ht Hf _. destruct (Hd d Ht Hf) as (Ho & Hq & Hx).
    intros st. rewrite view_with_registry. by apply (ApplyDelta_good _ _ a h).
  - intros s Ht Hf Ho st. unfold view. destruct (handleFrame_snapshot m a f s Ht Hf Ho) as [-> _].
    unfold ApplySnapshot. simpl. rewrite Ho, lookup_insert, decide_True by done.
    intros [= <-]. simpl. by apply Hs.
  - intros st. rewrite view_with_registry. unfold SetDraining. simpl.
    rewrite lookup_insert, decide_True by done. intros [= <-]. simpl.
    unfold good_view, view in Hm. destruct (owners (registry m) !! a) as [st0|]; simpl.
    + by apply Hm.
    + by split.
Qed.

Lemma PurgeOwner_fold ids r a st :
  owners (foldl PurgeOwner r ids) !! a = Some st → owners r !! a = Some st.
Proof.
  revert r. induction ids as [|i ids IH]; intros r; simpl; [done|]. intros Hl%IH.
  simpl in Hl. by apply lookup_delete_Some in Hl as [_ Hl].
Qed.

Lemma observer_step_view a m m' st :
  observer_step a m m' → view m' a = Some st → view m a = Some st.
Proof.
  destruct 1 as [m q f Hne|m p cr|m ps|m q|m e|m p c]; unfold view.
  - fold (view (handleFrame m q f).1 a). by rewrite handleFrame_other.
  - simpl. unfold Registry_Lookup. by destruct (lookupResults _ _ _).
  - simpl. apply PurgeOwner_fold.
  - done.
  - by destruct (LocalUpsert_fields m e) as (_ & -> & _).
  - destruct (localEntries m !! c) as [e|] eqn:Hc.
    + by destruct (LocalRemove_fields m p c e Hc) as (_ & -> & _).
    + unfold LocalRemove. by rewrite Hc.
Qed.

(** ** Preservation *)

(** The owner after one numbered mutation. *)
Lemma inv_mutation w a' op e :
  world_inv w → fits (A w) →
  self a' = self (A w) → registry a' = registry (A w) →
  localSeq a' = incr64 (localSeq (A w)) →
  localEntries a' = applyOp op e (localEntries (A w)) →
  (∀ c x, localEntries a' !! c = Some x → ae_ConnID x = c) →
  (∀ g, g ∈ outbox a' →
     g ∈ outbox (A w) ∨ g = deltaFrame (mkDelta op (self (A w)) (incr64 (localSeq (A w))) e)) →
  world_inv (mkWorld a' (sent w) (B w) (history w ++ [localEntries a'])).
Proof.
  intros [Hs Hl Hn Hz Hk Ho Hse Hv] Hfit Hself _ Hseq Hes Hk' Hout.
  rewrite incr64_fits in * by (unfold fits in Hfit; lia). unfold fits in Hfit.
  assert (Hnew : at_seq (history w ++ [localEntries a']) (localSeq (A w) + 1) (localEntries a')).
  { split; [lia|]. rewrite lookup_app_r by lia. rewrite Hl.
    replace (Z.to_nat (localSeq (A w) + 1) - S (Z.to_nat (localSeq (A w)))) with 0 by lia. done. }
  constructor; simpl; rewrite ?Hself, ?Hseq; try done.
  - lia.
  - rewrite length_app, Hl. simpl. lia.
  - by apply lookup_app_l_Some.
  - intros g [Hg| ->]%Hout; [by apply truthful_app, Ho|]. split; [|done].
    intros d _ [= <-]. simpl. split; [done|]. split; [lia|].
    exists (localEntries (A w)). rewrite <- Hes. split; [|done].
    replace (localSeq (A w) + 1 - 1)%Z with (localSeq (A w)) by lia. by apply at_seq_app.
  - intros g Hg. by apply truthful_app, Hse.
  - intros st Hst. by apply at_seq_app, Hv.
Qed.

Lemma inv_enqueue w f :
  world_inv w → f_Type f ≠ frameDelta → f_Type f ≠ frameSnapshotRsp →
  world_inv (mkWorld (enqueueLocked (A w) f) (sent w) (B w) (history w)).
Proof.
  intros [Hs Hl Hn Hz Hk Ho Hse Hv] Hd Hr.
  destruct (enqueueLocked_fields (A w) f) as (E1 & _ & E3 & E4).
  constructor; simpl; rewrite ?E1, ?E3, ?E4; try done.
  intros g [Hg| ->]%enqueueLocked_outbox; [by apply Ho|]. by split.
Qed.

Lemma world_step_inv w w' : world_step w w' → world_inv w → world_inv w'.
Proof.
  destruct 1 as [a s b h e Hf|a s b h p c e Hf Hc|a s b h|a s b h ev|a s b h f ps a' Hb|
    a s b h|a s b h f Hin|a s b b' h Hob]; intros Hi.
  - destruct (LocalUpsert_fields a e) as (E1 & E2 & E3 & E4 & E5).
    apply (inv_mutation _ _ DeltaOpAdd e Hi Hf E1 E2 E3 E4); [|done].
    rewrite E4. intros c x. destruct (decide (ae_ConnID e = c)) as [<-|Hne].
    + rewrite lookup_insert, decide_True by done. by intros [= ->].
    + rewrite lookup_insert_ne by done. apply (inv_keys _ Hi).
  - destruct (LocalRemove_fields a p c e Hc) as (E1 & E2 & E3 & E4 & E5).
    apply (inv_mutation _ _ DeltaOpRemove (mkEntry p c []) Hi Hf E1 E2 E3 E4); [|done].
    rewrite E4. intros c' x [_ Hx]%lookup_delete_Some. by apply (inv_keys _ Hi).
  - by apply (inv_enqueue _ _ Hi).
  - by apply (inv_enqueue _ _ Hi).
  - unfold broadcastNext in Hb. destruct (outbox a) as [|g rest] eqn:Hout; [done|].
    injection Hb as -> _ <-. destruct Hi as [Hs Hl Hn Hz Hk Ho Hse Hv]. simpl in *.
    constructor; simpl; try done.
    + intros g Hg. apply Ho. rewrite Hout. by right.
    + intros g [->|Hg]%elem_of_cons; [|by apply Hse]. apply Ho. rewrite Hout. by left.
  - destruct Hi as [Hs Hl Hn Hz Hk Ho Hse Hv]. constructor; simpl in *; try done.
    intros g [->|Hg]%elem_of_cons; [|by apply Hse]. split; [done|].
    intros sn _ [= <-]. split; [done|]. by rewrite localSnapshot_entries.
  - destruct Hi as [Hs Hl Hn Hz Hk Ho Hse Hv]. constructor; simpl in *; try done.
    apply (handleFrame_good _ h); [rewrite Hl; lia|done|by apply Hse|done].
  - destruct Hi as [Hs Hl Hn Hz Hk Ho Hse Hv]. constructor; simpl in *; try done.
    intros st Hst. apply Hv. by eapply observer_step_view.
Qed.

Lemma initial_inv a b r : owners r !! a = None → world_inv (initial a b r).
Proof.
  intros Hr. constructor; simpl; try done.
  - by intros f Hf%elem_of_nil.
  - by intros f Hf%elem_of_nil.
  - intros st. unfold view. simpl. by rewrite Hr.
Qed.

Lemma reachable_inv a b r w :
  owners r !! a = None → rtc world_step (initial a b r) w → world_inv w.
Proof.
  intros Hr Hrun. apply initial_inv with (b := b) in Hr. revert Hr.
  induction Hrun as [|w1 w2 w3 Hst _ IH]; [done|]. eauto using world_step_inv.
Qed.

(** C35: whatever the wire does (frames lost, duplicated, reordered, the outbox
    overflowing), the entries a replica holds for an owner are the owner's
    entries at the moment the owner had the sequence number the replica
    records; in particular they are the owner's current entries when the
    numbers agree. *)
Theorem replica_view_is_history a b r w st :
  owners r !! a = None → rtc world_step (initial a b r) w →
  view (B w) (self (A w)) = Some st →
  history w !! Z.to_nat (seq st) = Some (entries st) ∧
  (seq st = localSeq (A w) → entries st = localEntries (A w)).
Proof.
  intros Hr Hrun Hst. destruct (reachable_inv _ _ _ _ Hr Hrun) as [_ _ Hnow _ _ _ _ Hv].
  specialize (Hv _ Hst). split; [apply Hv|]. intros Heq. rewrite Heq in Hv.
  by eapply at_seq_fun.
Qed.

(** A delta of the owner is either applied, and then the replica's view is
    the owner's state of that number, or refused without a change; then the
    replica asks for a snapshot, and the answer makes its view the owner's
    current state. *)
Theorem replica_repairs a b r w d :
  owners r !! a = None → rtc world_step (initial a b r) w →
  deltaFrame d ∈ sent w →
  let '(b1, effs) := handleFrame (B w) (self (A w)) (deltaFrame d) in
  (effs = [] ∧ ∃ st, view b1 (self (A w)) = Some st ∧ seq st = d_Seq d ∧
     history w !! Z.to_nat (d_Seq d) = Some (entries st)) ∨
  (b1 = B w ∧ effs = [SendBack (emptyFrame frameSnapshotReq)] ∧
   ∃ answer, (handleFrame (A w) (self b1) (emptyFrame frameSnapshotReq)).2 = [SendBack answer] ∧
   ∃ st, view (handleFrame b1 (self (A w)) answer).1 (self (A w)) = Some st ∧
     seq st = localSeq (A w) ∧ entries st = localEntries (A w)).
Proof.
  intros Hr Hrun Hin. pose proof (reachable_inv _ _ _ _ Hr Hrun) as Hi.
  destruct Hi as [Hs Hl Hn Hz Hk _ Hse Hv].
  destruct (Hse _ Hin) as [Hd _]. destruct (Hd d eq_refl eq_refl) as (Ho & _ & _).
  pose proof (handleFrame_good (self (A w)) (history w) (B w) (deltaFrame d)
    ltac:(rewrite Hl; lia) Hz (Hse _ Hin) Hv) as Hgood.
  unfold handleFrame in Hgood |- *. simpl in Hgood |- *. unfold handleDelta in Hgood |- *.
  rewrite Ho, String.eqb_refl in Hgood |- *.
  destruct (ApplyDelta (registry (B w)) d) as [r1 ok] eqn:Hap. destruct ok.
  - left. split; [done|]. unfold good_view in Hgood. simpl in Hgood.
    assert (∃ st, owners r1 !! self (A w) = Some st ∧ seq st = d_Seq d) as (st & Hst & Hq).
    { revert Hap. unfold ApplyDelta. rewrite Ho.
      destruct (owners (registry (B w)) !! self (A w)); case_goal; intros [= <-]; simpl;
        rewrite lookup_insert, decide_True by done; eauto. }
    exists st. rewrite view_with_registry. split; [done|]. split; [done|].
    rewrite <- Hq. by apply Hgood.
  - right. assert (r1 = registry (B w)) as ->.
    { revert Hap. unfold ApplyDelta.
      destruct (owners (registry (B w)) !! d_Owner d); case_goal; congruence. }
    split; [by destruct (B w)|]. split; [done|]. eexists. split; [done|].
    eexists. simpl. rewrite String.eqb_refl. unfold view. simpl.
    rewrite lookup_insert, decide_True by done. split; [done|]. simpl.
    split; [done|]. by apply localSnapshot_entries.
Qed.

Lemma lookupResults_singleton a st p cr k :
  lookupResults (mkRegistry {[a := st]} k) p cr = merge_sort agent_le (candidatesOf p cr a st).
Proof.
  unfold lookupResults. simpl. rewrite map_to_list_singleton. simpl. by rewrite app_nil_r.
Qed.

Lemma map_range_singleton {T} (c : string) (x : T) : map_range {[c := x]} = [(c, x)].
Proof.
  apply Permutation_singleton_r. rewrite map_range_perm. by rewrite map_to_list_singleton.
Qed.

(** A snapshot can take a view back for good.  A replica that has followed
    an owner through an added and a removed connection, and then receives the
    snapshot the owner took between the two, believes the connection exists:
    it asks for no repair, and a lookup returns the removed connection. *)
Theorem late_snapshot_resurrects a b p c crs :
  let e := mkEntry p c crs in
  let a1 := LocalUpsert (NewMesh a NewRegistry) e in
  let a2 := LocalRemove a1 p c in
  let b0 := NewMesh b NewRegistry in
  ∃ d1 d2, outbox a2 = [d1; d2] ∧
  let '(b1, effs1) := handleFrame b0 a d1 in
  let '(b2, effs2) := handleFrame b1 a d2 in
  let '(b3, effs3) := handleFrame b2 a (snapshotFrame (localSnapshot a1)) in
  effs1 ++ effs2 ++ effs3 = [] ∧ localEntries a2 = ∅ ∧
  (Registry_Lookup (registry b2) p "").2 = [] ∧
  (Registry_Lookup (registry b3) p "").2 = [mkRemoteAgent a e].
Proof.
  intros e a1 a2 b0. unfold a2, LocalRemove, a1, LocalUpsert, enqueueLocked.
  simpl. rewrite lookup_insert, decide_True by done. simpl.
  eexists _, _. split; [reflexivity|].
  unfold handleFrame; simpl. unfold handleDelta; simpl. rewrite String.eqb_refl.
  unfold ApplyDelta, applyOp; simpl. rewrite lookup_empty. simpl.
  rewrite lookup_insert, decide_True by done. simpl.
  unfold localSnapshot, ApplySnapshot, with_owner; simpl. rewrite !lookup_insert, !decide_True by done. simpl.
  rewrite !insert_insert_eq, !insert_empty, delete_singleton_eq, map_range_singleton.
  split_and!; [done|done|..]; unfold Registry_Lookup; rewrite lookupResults_singleton;
    unfold candidatesOf; simpl.
  - by rewrite map_to_list_empty.
  - unfold entriesMap. simpl. rewrite insert_empty, map_to_list_singleton. simpl.
    unfold matchesLookup. simpl. by rewrite String.eqb_refl.
Qed.

End Replication.
