(* ===== verification/GatewayReach.v ===== *)
(** * The connection manager under concurrent calls

    Calls that hold the manager's lock are single steps; a re-validation takes
    a snapshot, updates one connection at a time and cleans up, with other
    calls in between.  Along every such run the index stays well formed and
    every round-robin counter belongs to a plane or CR that can be served, or
    to a re-validation that has yet to clean up. *)

From S2P Require Import Prelude GoStrings GatewayConn GatewayConnSpec.

Open Scope go_scope.

Section Reach.
Context `{X : X509}.
Implicit Types (cm : ConnectionManager) (p cr : string) (l : loc).

(** ** Steps *)

Definition fresh_id cm (connID : string) : Prop := ∀ l, l < next cm → ID (heap cm l) ≠ connID.

(** The calls that run under the manager's lock. *)
Inductive op_step : ConnectionManager → ConnectionManager → Prop :=
  | op_register cm connID now planeType planeID conn validCRs cert inter :
      fresh_id cm connID → "" ∉ validCRs →
      op_step cm (Register cm connID now planeType planeID conn validCRs cert inter).1
  | op_unregister cm p connID : op_step cm (Unregister cm p connID)
  | op_get cm p : op_step cm (Get cm p).1
  | op_getForCR cm p cr : op_step cm (GetForCR cm p cr).1
  | op_lastSeen cm now p connID : op_step cm (UpdateConnectionLastSeen cm now p connID)
  | op_disconnect cm planeType planeID :
      op_step cm (DisconnectAllForPlane cm planeType planeID).1.

(** A running re-validation. *)
Record revalidation := mkRevalidation {
  rv_plane : string;
  rv_cr : string;
  rv_pool : CertPool;
  rv_counts : nat * nat;
  rv_todo : list loc;
}.

Inductive gw_step : ConnectionManager * list revalidation →
                    ConnectionManager * list revalidation → Prop :=
  | gw_op cm cm' ts : op_step cm cm' → gw_step (cm, ts) (cm', ts)
  | gw_begin cm ts planeType planeID ns name ca pool :
      let p := slash planeType planeID in
      AppendCertsFromPEM NewCertPool ca = (pool, true) →
      gw_step (cm, ts)
        (cm, mkRevalidation p (slash ns name) pool (0, 0) (revalidateSnapshot cm p) :: ts)
  | gw_conn cm ts1 ts2 p cr pool counts l todo :
      gw_step (cm, ts1 ++ mkRevalidation p cr pool counts (l :: todo) :: ts2)
        ((revalidateConn cm p cr pool counts l).1,
         ts1 ++ mkRevalidation p cr pool (revalidateConn cm p cr pool counts l).2 todo :: ts2)
  | gw_end cm ts1 ts2 p cr pool counts :
      gw_step (cm, ts1 ++ mkRevalidation p cr pool counts [] :: ts2)
        (revalidateCleanup cm p cr counts.2, ts1 ++ ts2).

(** [RevalidateCR] without interruption is a run of these steps. *)
Lemma revalidateLoop_run cm p cr pool counts conns ts1 ts2 :
  rtc gw_step (cm, ts1 ++ mkRevalidation p cr pool counts conns :: ts2)
    ((revalidateLoop cm p cr pool counts conns).1,
     ts1 ++ mkRevalidation p cr pool (revalidateLoop cm p cr pool counts conns).2 [] :: ts2).
Proof.
  revert cm counts. induction conns as [|l conns IH]; intros cm counts; simpl; [done|].
  eapply rtc_l; [apply gw_conn|].
  destruct (revalidateConn cm p cr pool counts l) as [cm1 counts1]. apply IH.
Qed.

Lemma RevalidateCR_run cm ts planeType planeID ns name ca :
  rtc gw_step (cm, ts) ((RevalidateCR cm planeType planeID ns name ca).1, ts).
Proof.
  unfold RevalidateCR, revalidateSnapshot.
  destruct (conns_of cm (slash planeType planeID)) as [|l conns] eqn:Hc; [done|].
  destruct (AppendCertsFromPEM NewCertPool ca) as [pool ok] eqn:Hca. destruct ok; [|done].
  eapply rtc_l; [by apply (gw_begin _ _ planeType planeID ns name ca pool)|].
  etrans; [apply (revalidateLoop_run _ _ _ _ _ _ [])|].
  unfold revalidateSnapshot. rewrite Hc.
  destruct (revalidateLoop _ _ _ _ _ _) as [cm1 counts]. cbn [fst snd].
  apply rtc_once, (gw_end _ []).
Qed.

(** ** The invariant *)

(** A counter that a request can still use. *)
Definition live cm (k : string) : Prop :=
  conns_of cm k ≠ [] ∨
  ∃ p cr l, k = slash p cr ∧ l ∈ conns_of cm p ∧ IsValidForCR (heap cm l) cr = true.

Definition cleanup_due (ts : list revalidation) (k : string) : Prop :=
  ∃ t, t ∈ ts ∧ k = slash (rv_plane t) (rv_cr t) ∧ 0 < (rv_counts t).2.

Record index_wf cm : Prop := {
  wf_bucket : ∀ p, connections cm !! p ≠ Some [];
  wf_nodup : ∀ p, NoDup (conns_of cm p);
  wf_plane : ∀ p l, l ∈ conns_of cm p → l < next cm ∧ PlaneIdentifier (heap cm l) = p;
  wf_ids : ∀ l l', l < next cm → l' < next cm → ID (heap cm l) = ID (heap cm l') → l = l';
  wf_crs : ∀ l, l < next cm → "" ∉ ValidCRs (heap cm l);
}.

Definition threads_wf cm (ts : list revalidation) : Prop :=
  ∀ t, t ∈ ts → rv_cr t ≠ "" ∧
    ∀ l, l ∈ rv_todo t → l < next cm ∧ PlaneIdentifier (heap cm l) = rv_plane t.

Record gw_inv (s : ConnectionManager * list revalidation) : Prop := {
  inv_index : index_wf s.1;
  inv_threads : threads_wf s.1 s.2;
  inv_keys : ∀ k n, roundRobin s.1 !! k = Some n → live s.1 k ∨ cleanup_due s.2 k;
}.

(** ** Cleaning the counters *)

Lemma foldl_delete_Some {T} (c : T → bool) (g : T → string) (xs : list T) (m : gmap string nat) k n :
  foldl (λ rr x, if c x then rr else delete (g x) rr) m xs !! k = Some n →
  m !! k = Some n ∧ ∀ x, x ∈ xs → c x = false → g x ≠ k.
Proof.
  revert m. induction xs as [|x xs IH]; intros m; simpl.
  { intros Hk. split; [done|]. by intros x Hx%elem_of_nil. }
  intros [Hm Hxs]%IH. destruct (c x) eqn:Hc.
  - split; [done|]. intros y [->|Hy]%elem_of_cons Hcy; [congruence|by apply Hxs].
  - apply lookup_delete_Some in Hm as [Hne Hm]. split; [done|].
    intros y [->|Hy]%elem_of_cons Hcy; [done|by apply Hxs].
Qed.

Lemma slash_perCR p cr : cr ≠ "" → isPerCRKey (p +:+ "/") (slash p cr) = true.
Proof.
  intros Hne. unfold isPerCRKey, slash. rewrite <- sapp_assoc, stake_app, String.eqb_refl.
  rewrite andb_true_r. apply Nat.ltb_lt. rewrite (sapp_length (p +:+ "/") cr).
  destruct cr; [done|simpl; lia].
Qed.

Lemma cleanupPerCR_Some cm p k n :
  roundRobin (cleanupPerCRRoundRobinKeys cm p) !! k = Some n →
  roundRobin cm !! k = Some n ∧ ∀ cr, cr ≠ "" → k ≠ slash p cr.
Proof.
  unfold cleanupPerCRRoundRobinKeys. simpl. intros Hk.
  apply (foldl_delete_Some (λ _, false) (λ key, key)) in Hk as [Hk Hx].
  split; [done|]. intros cr Hne ->. apply (Hx (slash p cr)); [|done|done].
  apply list_elem_of_In, filter_In. split; [|by apply slash_perCR].
  apply list_elem_of_In, list_elem_of_fmap. exists (slash p cr, n).
  by rewrite elem_of_map_to_list.
Qed.

Lemma cleanupOrphaned_Some cm p crs k n :
  roundRobin (cleanupOrphanedCRKeys cm p crs) !! k = Some n →
  roundRobin cm !! k = Some n ∧
  ∀ cr, cr ∈ crs → k = slash p cr → hasAuthorizedConn cm (conns_of cm p) cr = true.
Proof.
  unfold cleanupOrphanedCRKeys. simpl. intros Hk.
  apply (foldl_delete_Some (λ cr, hasAuthorizedConn cm (conns_of cm p) cr) (slash p)) in Hk
    as [Hk Hx].
  split; [done|]. intros cr Hcr ->. apply not_false_iff_true. intros Hf. by eapply Hx.
Qed.

Lemma hasAuthorizedConn_true cm conns cr :
  hasAuthorizedConn cm conns cr = true ↔ ∃ l, l ∈ conns ∧ IsValidForCR (heap cm l) cr = true.
Proof. apply existsb_elem. Qed.

(** ** What each call changes *)

Definition emit cm (evs : list ListenerEvent) : list ListenerEvent :=
  if listening cm then events cm ++ evs else events cm.

Lemma notify_events cm ev : events (notify cm ev) = emit cm [ev].
Proof. unfold notify, emit. by destruct (listening cm) eqn:?. Qed.

Lemma find_conn_Some h conns connID i :
  find_conn h conns connID = Some i →
  ∃ l, conns !! i = Some l ∧ nth i conns 0 = l ∧ ID (h l) = connID.
Proof.
  revert i. induction conns as [|l conns IH]; intros i; simpl; [done|].
  destruct (String.eqb_spec (ID (h l)) connID) as [Hid|].
  - intros [= <-]. eauto.
  - destruct (find_conn h conns connID) as [j|]; [|done]. intros [= <-]. by apply IH.
Qed.

Lemma find_conn_None h conns connID :
  find_conn h conns connID = None → ∀ l, l ∈ conns → ID (h l) ≠ connID.
Proof.
  induction conns as [|l conns IH]; simpl; [by intros _ l Hl%elem_of_nil|].
  destruct (String.eqb_spec (ID (h l)) connID) as [|Hne]; [done|].
  destruct (find_conn h conns connID); [done|]. intros _ l' [->|Hl']%elem_of_cons; [done|].
  by apply IH.
Qed.

Lemma Register_fields cm connID now planeType planeID conn validCRs cert inter :
  let p := slash planeType planeID in
  let cm' := (Register cm connID now planeType planeID conn validCRs cert inter).1 in
  let ac := mkAgentConnection connID conn planeType planeID p now now validCRs cert inter in
  heap cm' = (λ l, if decide (l = next cm) then ac else heap cm l) ∧
  next cm' = S (next cm) ∧
  connections cm' = <[p := conns_of cm p ++ [next cm]]> (connections cm) ∧
  roundRobin cm' = roundRobin cm ∧ listening cm' = listening cm ∧
  events cm' = emit cm [OnAgentRegistered p connID validCRs].
Proof.
  intros p cm' ac. unfold cm', Register. cbn [fst].
  match goal with |- context [notify ?c ?e] =>
    destruct (notify_fields c e) as (-> & -> & -> & -> & -> & _); rewrite (notify_events c e) end.
  done.
Qed.

Lemma conns_of_insert cm cm' p conns p' :
  connections cm' = <[p := conns]> (connections cm) →
  conns_of cm' p' = if decide (p' = p) then conns else conns_of cm p'.
Proof.
  intros Hc. unfold conns_of. rewrite Hc. destruct (decide (p' = p)) as [->|].
  - by rewrite lookup_insert, decide_True.
  - by rewrite lookup_insert_ne.
Qed.

Lemma conns_of_delete cm cm' p p' :
  connections cm' = delete p (connections cm) →
  conns_of cm' p' = if decide (p' = p) then [] else conns_of cm p'.
Proof.
  intros Hc. unfold conns_of. rewrite Hc. destruct (decide (p' = p)) as [->|].
  - by rewrite lookup_delete, decide_True.
  - by rewrite lookup_delete_ne.
Qed.

(** The state after connections of a plane were removed. *)
Record removed_from cm cm' p (rest : list loc) (gone : list loc) : Prop := {
  rf_heap : heap cm' = heap cm;
  rf_next : next cm' = next cm;
  rf_listening : listening cm' = listening cm;
  rf_conns : ∀ p', conns_of cm' p' = if decide (p' = p) then rest else conns_of cm p';
  rf_bucket : ∀ p', connections cm' !! p' = Some [] → connections cm !! p' = Some [];
  rf_keys : ∀ k n, roundRobin cm' !! k = Some n → roundRobin cm !! k = Some n;
  rf_empty : rest = [] → ∀ k n, roundRobin cm' !! k = Some n →
    k ≠ p ∧ ∀ cr, cr ≠ "" → k ≠ slash p cr;
  rf_orphan : rest ≠ [] → ∀ k n l cr, roundRobin cm' !! k = Some n → l ∈ gone →
    IsValidForCR (heap cm l) cr = true → k = slash p cr →
    hasAuthorizedConn cm rest cr = true;
  rf_events : events cm' = emit cm ((λ l, OnAgentUnregistered p (ID (heap cm l))) <$> gone);
}.

Lemma Unregister_removed cm p connID :
  match connections cm !! p with
  | Some conns =>
      match find_conn (heap cm) conns connID with
      | Some i => ∃ l, conns !! i = Some l ∧ ID (heap cm l) = connID ∧
                    removed_from cm (Unregister cm p connID) p (delete i conns) [l]
      | None => Unregister cm p connID = cm
      end
  | None => Unregister cm p connID = cm
  end.
Proof.
  unfold Unregister. destruct (connections cm !! p) as [conns|] eqn:Hp; [|done].
  destruct (find_conn (heap cm) conns connID) as [i|] eqn:Hf; [|done].
  destruct (find_conn_Some _ _ _ _ Hf) as (l & Hl & Hn & Hid).
  exists l. split; [done|]. split; [done|]. rewrite Hn, <- delete_take_drop.
  match goal with |- removed_from _ (notify ?c ?e) _ _ _ =>
    set (c3 := c); destruct (notify_fields c3 e) as (N1 & N2 & N3 & N4 & N5 & _);
    pose proof (notify_events c3 e) as N6 end.
  destruct (Nat.eqb_spec (length (delete i conns)) 0) as [Hz|Hz].
  - assert (delete i conns = []) as Hnil by by apply nil_length_inv.
    assert (Hc3 : connections c3 = delete p (connections cm)).
    { unfold c3. simpl. apply map_eq. intros p'. destruct (decide (p' = p)) as [->|];
        rewrite ?lookup_delete_eq, ?lookup_delete_ne, ?lookup_insert_ne; done. }
    assert (Hk : ∀ k n, roundRobin c3 !! k = Some n →
      roundRobin cm !! k = Some n ∧ k ≠ p ∧ ∀ cr, cr ≠ "" → k ≠ slash p cr).
    { intros k n [Hk Hcr]%cleanupPerCR_Some. simpl in Hk.
      by apply lookup_delete_Some in Hk as [Hne Hk]. }
    constructor; rewrite ?N1, ?N2, ?N4, ?N5, ?N6; try done.
    + intros p'. rewrite Hnil. apply conns_of_delete. by rewrite N3.
    + intros p'. rewrite N3, Hc3. intros [_ Hb]%lookup_delete_Some. done.
    + intros k n [Hk' _]%Hk. done.
    + intros _ k n [_ Hk']%Hk. done.
    + unfold emit, c3. simpl. by rewrite Hid.
  - assert (Hnn : delete i conns ≠ []) by (intros Hnil; by rewrite Hnil in Hz).
    assert (Hc3 : connections c3 = <[p := delete i conns]> (connections cm)) by done.
    assert (Hco : conns_of c3 p = delete i conns)
      by (by rewrite (conns_of_insert cm c3 p (delete i conns) p Hc3), decide_True).
    assert (Hk : ∀ k n, roundRobin c3 !! k = Some n → roundRobin cm !! k = Some n ∧
      ∀ cr, cr ∈ ValidCRs (heap cm l) → k = slash p cr →
        hasAuthorizedConn cm (delete i conns) cr = true).
    { intros k n [Hk Hcr]%cleanupOrphaned_Some. split; [done|]. intros cr Hin ->.
      rewrite <- Hco. by apply (Hcr cr). }
    constructor; rewrite ?N1, ?N2, ?N4, ?N5, ?N6; try done.
    + intros p'. apply conns_of_insert. by rewrite N3.
    + intros p'. rewrite N3, Hc3. intros [[_ ?]|[_ ?]]%lookup_insert_Some; [congruence|done].
    + intros k n [Hk' _]%Hk. done.
    + intros _ k n l' cr [_ Hk']%Hk Hl' Hv%bool_decide_eq_true. apply list_elem_of_singleton in Hl' as ->.
      by apply Hk'.
    + unfold emit, c3. simpl. by rewrite Hid.
Qed.

Lemma disconnectLoop_fields cm p conns :
  let cm' := disconnectLoop cm p conns in
  heap cm' = heap cm ∧ next cm' = next cm ∧ connections cm' = connections cm ∧
  roundRobin cm' = roundRobin cm ∧ listening cm' = listening cm ∧
  events cm' = emit cm ((λ l, OnAgentUnregistered p (ID (heap cm l))) <$> conns).
Proof.
  revert cm. induction conns as [|l conns IH]; intros cm; simpl.
  { unfold emit. by rewrite app_nil_r; destruct (listening cm). }
  match goal with |- context [disconnectLoop ?c p conns] =>
    destruct (IH c) as (-> & -> & -> & -> & -> & ->) end.
  match goal with |- context [notify ?c ?e] =>
    destruct (notify_fields c e) as (N1 & N2 & N3 & N4 & N5 & _);
    pose proof (notify_events c e) as N6 end.
  unfold emit in *. rewrite N1, N2, N3, N4, N5. simpl. rewrite N6. simpl.
  split_and!; try done. destruct (listening cm); [|done]. by rewrite <- app_assoc.
Qed.

Lemma Disconnect_removed cm planeType planeID :
  let p := slash planeType planeID in
  let cm' := (DisconnectAllForPlane cm planeType planeID).1 in
  conns_of cm p = [] ∧ cm' = cm ∨ removed_from cm cm' p [] (conns_of cm p).
Proof.
  intros p cm'. unfold cm', DisconnectAllForPlane. fold p. unfold conns_of.
  destruct (connections cm !! p) as [[|l conns]|] eqn:Hp; [by left| |by left]. right.
  destruct (disconnectLoop_fields cm p (l :: conns)) as (D1 & D2 & D3 & D4 & D5 & D6).
  cbn [fst]. constructor; try done.
  - intros p'. apply conns_of_delete. simpl. by rewrite <- D3.
  - intros p'. cbn [cleanupPerCRRoundRobinKeys with_roundRobin with_connections connections].
    rewrite D3. by intros [_ Hb]%lookup_delete_Some.
  - intros k n [Hk _]%cleanupPerCR_Some. cbn in Hk. apply lookup_delete_Some in Hk as [_ Hk].
    change (roundRobin (disconnectLoop cm p (l :: conns)) !! k = Some n) in Hk. by rewrite D4 in Hk.
  - intros _ k n [Hk Hcr]%cleanupPerCR_Some. cbn in Hk. by apply lookup_delete_Some in Hk as [Hne _].
Qed.

(** ** Preservation *)

Lemma live_mono cm cm' k :
  (∀ p l, l ∈ conns_of cm p → l ∈ conns_of cm' p ∧ ∀ cr, IsValidForCR (heap cm l) cr = true →
     IsValidForCR (heap cm' l) cr = true) →
  live cm k → live cm' k.
Proof.
  intros Hm [Hne|(p & cr & l & -> & Hl & Hv)].
  - left. destruct (conns_of cm k) as [|l ls] eqn:Hk; [done|].
    destruct (Hm k l) as [Hin _]; [rewrite Hk; by left|].
    intros Hn. rewrite Hn in Hin. by apply elem_of_nil in Hin.
  - right. exists p, cr, l. destruct (Hm p l Hl) as [Hin Hcr]. auto.
Qed.

Lemma authorized_nonempty cm l cr :
  index_wf cm → l < next cm → IsValidForCR (heap cm l) cr = true → cr ≠ "".
Proof.
  intros Hwf Hl Hv%bool_decide_eq_true ->. by apply (wf_crs _ Hwf l Hl).
Qed.

Lemma removed_index_wf cm cm' p rest gone :
  removed_from cm cm' p rest gone → NoDup rest →
  (∀ l, l ∈ rest → l ∈ conns_of cm p) → index_wf cm → index_wf cm'.
Proof.
  intros [R1 R2 _ R4 R5 _ _ _ _] Hnd Hsub [W1 W2 W3 W4 W5].
  constructor; rewrite ?R1, ?R2; try done.
  - intros p' Hb. by apply (W1 p'), R5.
  - intros p'. rewrite R4. by case_decide.
  - intros p' l. rewrite R4. case_decide as Hd; [subst; intros Hl%Hsub|]; by apply W3.
Qed.

Lemma removed_inv cm cm' ts p rest gone :
  removed_from cm cm' p rest gone → NoDup rest →
  (∀ l, l ∈ rest → l ∈ conns_of cm p) → (∀ l, l ∈ conns_of cm p → l ∈ rest ∨ l ∈ gone) →
  gw_inv (cm, ts) → gw_inv (cm', ts).
Proof.
  intros R Hnd Hsub Hall [Hwf Hth Hk]. simpl in *. pose proof R as [R1 R2 _ R4 _ R6 R7 R8 _].
  constructor; simpl.
  - by eapply removed_index_wf.
  - intros t Ht. rewrite R1, R2. by apply Hth.
  - intros k n Hn. destruct (Hk k n (R6 _ _ Hn)) as [Hlive|]; [|by right]. left.
    destruct Hlive as [Hne|(p' & cr & l & -> & Hl & Hv)].
    + left. rewrite R4. case_decide as Hd; [|done]. subst. intros ->. by destruct (R7 eq_refl _ _ Hn).
    + right. destruct (decide (p' = p ∧ l ∉ rest)) as [[-> Hni]|Hin].
      * destruct (Hall l Hl) as [|Hg]; [done|].
        destruct (decide (rest = [])) as [Hz|Hnz].
        { destruct (R7 Hz _ _ Hn) as [_ Hcr]. exfalso. apply (Hcr cr); [|done].
          eapply authorized_nonempty; [done| |done]. by eapply wf_plane. }
        pose proof (R8 Hnz _ _ _ _ Hn Hg Hv eq_refl) as (l' & Hl' & Hv')%hasAuthorizedConn_true.
        exists p, cr, l'. rewrite R1, R4, decide_True by done. done.
      * exists p', cr, l. rewrite R1, R4. split; [done|]. split; [|done].
        case_decide as Hd; [subst|done]. destruct (decide (l ∈ rest)); naive_solver.
Qed.

Lemma Register_inv cm ts connID now planeType planeID conn validCRs cert inter :
  fresh_id cm connID → "" ∉ validCRs → gw_inv (cm, ts) →
  gw_inv ((Register cm connID now planeType planeID conn validCRs cert inter).1, ts).
Proof.
  intros Hfresh Hcrs [[W1 W2 W3 W4 W5] Hth Hk]. cbn [fst snd] in *.
  destruct (Register_fields cm connID now planeType planeID conn validCRs cert inter)
    as (R1 & R2 & R3 & R4 & R5 & R6).
  set (cm' := (Register _ _ _ _ _ _ _ _ _).1) in *. set (p := slash planeType planeID) in *. clearbody cm'.
  pose proof (λ p', conns_of_insert cm cm' p _ p' R3) as Rc.
  assert (Hold : ∀ p' l, l ∈ conns_of cm p' → l ≠ next cm)
    by (intros p' l Hl; apply W3 in Hl as [Hl _]; cbn in Hl; lia).
  constructor; simpl.
  - constructor.
    + intros p'. rewrite R3. intros [[_ Hb]|[_ Hb]]%lookup_insert_Some; [|by apply W1 in Hb].
      by apply app_eq_nil in Hb as [_ ?].
    + intros p'. rewrite Rc. case_decide; [|done]. apply NoDup_app. split; [done|].
      split; [|apply NoDup_singleton]. intros l Hl Hl'%list_elem_of_singleton. by eapply Hold.
    + intros p' l. rewrite Rc, R1, R2. case_decide as Hd; [subst p'|].
      * rewrite elem_of_app, list_elem_of_singleton. intros [Hl| ->]; [|rewrite decide_True by done; simpl; split; [lia|done]].
        rewrite decide_False by by eapply Hold. apply W3 in Hl. split; [lia|by apply Hl].
      * intros Hl. rewrite decide_False by by eapply Hold. apply W3 in Hl. split; [lia|by apply Hl].
    + intros l l' Hl Hl'. rewrite R1, R2 in *.
      destruct (decide (l = next cm)), (decide (l' = next cm)); subst; simpl; try done.
      * intros Hid. exfalso. apply (Hfresh l'); [lia|done].
      * intros Hid. exfalso. apply (Hfresh l); [lia|done].
      * apply W4; lia.
    + intros l Hl. rewrite R1. rewrite R2 in Hl. case_decide; [done|]. apply W5. lia.
  - intros t Ht. destruct (Hth t Ht) as [? Hl]. split; [done|].
    intros l [Hlt Hpl]%Hl. rewrite R1, R2, decide_False by lia. split; [lia|done].
  - intros k n. rewrite R4. intros [Hl|]%Hk; [|by right]. left. revert Hl. apply live_mono.
    intros p' l Hl. rewrite R1, decide_False by by eapply Hold. rewrite Rc. split; [|done].
    case_decide; [|done]. subst. apply elem_of_app. by left.
Qed.

(** A change of counters, and of connections that keep identity and CRs. *)
Definition same_conn (ac ac' : AgentConnection) : Prop :=
  ID ac' = ID ac ∧ PlaneIdentifier ac' = PlaneIdentifier ac ∧ ValidCRs ac' = ValidCRs ac.

Lemma same_conn_inv cm cm' ts :
  connections cm' = connections cm → next cm' = next cm →
  (∀ l, same_conn (heap cm l) (heap cm' l)) →
  (∀ k n, roundRobin cm' !! k = Some n → (∃ n', roundRobin cm !! k = Some n') ∨ live cm k) →
  gw_inv (cm, ts) → gw_inv (cm', ts).
Proof.
  intros Hc Hn Hh Hr [[W1 W2 W3 W4 W5] Hth Hk]. simpl in *.
  assert (Hco : ∀ p, conns_of cm' p = conns_of cm p) by (intros; unfold conns_of; by rewrite Hc).
  constructor; simpl.
  - constructor; intros *; rewrite ?Hc, ?Hco, ?Hn; try done.
    + intros Hl. destruct (Hh l) as (_ & -> & _). by apply W3.
    + intros Hl Hl'. destruct (Hh l) as (-> & _), (Hh l') as (-> & _). by apply W4.
    + intros Hl. destruct (Hh l) as (_ & _ & ->). by apply W5.
  - intros t Ht. destruct (Hth t Ht) as [? Hl]. split; [done|]. intros l Hin%Hl. rewrite Hn.
    by destruct (Hh l) as (_ & -> & _).
  - assert (Hm : ∀ k, live cm k → live cm' k).
    { intros k. apply live_mono. intros p l. rewrite Hco. intros Hl. split; [done|].
      intros cr. unfold IsValidForCR. by destruct (Hh l) as (_ & _ & ->). }
    intros k n [[n' Hk']|Hl]%Hr; [|auto]. destruct (Hk _ _ Hk') as [|]; auto.
Qed.

Lemma rotate_key_inv cm ts key conns :
  live cm key → gw_inv (cm, ts) → gw_inv ((rotate_key cm key conns).1, ts).
Proof.
  intros Hlive. set (s := S (default 0 (roundRobin cm !! key) `mod` length conns) `mod` length conns).
  assert (Hr : (rotate_key cm key conns).1 = with_roundRobin cm (<[key := s]> (roundRobin cm)))
    by (unfold rotate_key; by case_goal).
  rewrite Hr. apply same_conn_inv; try done. simpl.
  intros k n [[-> _]|[_ Hk]]%lookup_insert_Some; eauto.
Qed.

Lemma op_step_inv cm cm' ts : op_step cm cm' → gw_inv (cm, ts) → gw_inv (cm', ts).
Proof.
  destruct 1 as [cm connID now planeType planeID conn crs cert inter Hf Hc|cm p connID|cm p|cm p cr|
    cm now p connID|cm planeType planeID]; intros Hi.
  - by apply Register_inv.
  - pose proof (Unregister_removed cm p connID) as Hu. unfold conns_of in *.
    destruct (connections cm !! p) as [conns|] eqn:Hp; [|by rewrite Hu].
    destruct (find_conn (heap cm) conns connID) as [i|]; [|by rewrite Hu].
    destruct Hu as (l & Hl & _ & R).
    assert (Hco : conns_of cm p = conns) by (unfold conns_of; by rewrite Hp).
    pose proof (wf_nodup _ (inv_index _ Hi) p) as Hnd. simpl in Hnd. rewrite Hco in Hnd.
    pose proof (delete_Permutation _ _ _ Hl) as Hperm. rewrite Hperm in Hnd.
    apply NoDup_cons in Hnd as [_ Hnd].
    assert (Hin : ∀ l', l' ∈ conns ↔ l' = l ∨ l' ∈ delete i conns)
      by (intros l'; rewrite Hperm at 1; apply elem_of_cons).
    eapply removed_inv; [done|done| | |done]; rewrite Hco; intros l'; rewrite Hin.
    + tauto.
    + rewrite list_elem_of_singleton. tauto.
  - unfold Get. destruct (connections cm !! p) as [[|l conns]|] eqn:Hp; [done| |done].
    apply rotate_key_inv; [|done]. left. unfold conns_of. by rewrite Hp.
  - destruct (decide (authorizedConns cm p cr = [])) as [Hn|Hn].
    + by destruct (GetForCR_None _ _ _ Hn) as [m ->].
    + rewrite GetForCR_Some by done. apply rotate_key_inv; [|done]. right.
      destruct (authorizedConns cm p cr) as [|l ls] eqn:Ha; [done|].
      assert (l ∈ authorizedConns cm p cr) as [? ?]%elem_of_authorizedConns by (rewrite Ha; by left).
      eauto 10.
  - unfold UpdateConnectionLastSeen.
    destruct (connections cm !! p) as [conns|]; [|done].
    destruct (find_conn (heap cm) conns connID) as [i|]; [|done].
    revert Hi. apply same_conn_inv; try done; [|eauto].
    intros l. simpl. by case_decide; subst.
  - destruct (Disconnect_removed cm planeType planeID) as [[_ ->]|R]; [done|].
    eapply removed_inv; [done|by apply NoDup_nil|by intros l Hl%elem_of_nil|by right|done].
Qed.

Lemma slash_nonempty s t : slash s t ≠ "".
Proof. unfold slash. by destruct s. Qed.

Lemma gw_begin_inv cm ts p cr pool :
  cr ≠ "" → gw_inv (cm, ts) →
  gw_inv (cm, mkRevalidation p cr pool (0, 0) (revalidateSnapshot cm p) :: ts).
Proof.
  intros Hcr [Hwf Hth Hk]. constructor; [done| |]; cbn [fst snd] in *.
  - intros t [->|Ht]%elem_of_cons; [|by apply Hth]. split; [done|].
    intros l Hl. by apply (wf_plane _ Hwf).
  - intros k n [Hl|(t & Ht & ?)]%Hk; [by left|]. right. exists t. by split; [right|].
Qed.

Lemma UpdateCRValidity_crs (ac : AgentConnection) cr pool :
  cr ≠ "" → "" ∉ ValidCRs ac → "" ∉ ValidCRs (UpdateCRValidity ac cr pool).1.
Proof.
  intros Hcr Hac. apply (bool_decide_eq_false_1 _).
  change (IsValidForCR (UpdateCRValidity ac cr pool).1 "" = false).
  rewrite UpdateCRValidity_valid. destruct (String.eqb_spec "" cr); [congruence|].
  by apply bool_decide_eq_false_2.
Qed.

Lemma gw_conn_index cm p cr pool counts l :
  cr ≠ "" → index_wf cm → index_wf (revalidateConn cm p cr pool counts l).1.
Proof.
  intros Hcr [W1 W2 W3 W4 W5].
  pose proof (revalidateConn_fields cm p cr pool counts l) as Hf.
  destruct (revalidateConn cm p cr pool counts l) as [cm' counts'].
  destruct Hf as (R1 & R2 & R3 & _). cbn [fst].
  assert (Hid : ∀ l', ID (heap cm' l') = ID (heap cm l') ∧
                      PlaneIdentifier (heap cm' l') = PlaneIdentifier (heap cm l')).
  { intros l'. rewrite R1. case_decide; [subst|done].
    by rewrite (UpdateCRValidity_identity (heap cm l) cr pool). }
  assert (Hco : ∀ p, conns_of cm' p = conns_of cm p) by (intros; unfold conns_of; by rewrite R3).
  constructor; intros *; rewrite ?R2, ?R3, ?Hco; try done.
  - intros Hl. destruct (Hid l0) as [_ ->]. by apply W3.
  - intros Hl Hl'. destruct (Hid l0) as [-> _], (Hid l') as [-> _]. by apply W4.
  - intros Hl. rewrite R1. case_decide; [subst|by apply W5]. apply UpdateCRValidity_crs; [done|].
    by apply W5.
Qed.

Lemma gw_conn_inv cm ts1 ts2 p cr pool counts l todo :
  gw_inv (cm, ts1 ++ mkRevalidation p cr pool counts (l :: todo) :: ts2) →
  gw_inv ((revalidateConn cm p cr pool counts l).1,
    ts1 ++ mkRevalidation p cr pool (revalidateConn cm p cr pool counts l).2 todo :: ts2).
Proof.
  intros [Hwf Hth Hk]. cbn [fst snd] in *.
  destruct (Hth (mkRevalidation p cr pool counts (l :: todo)) ltac:(set_solver)) as [Hcr Htodo].
  cbn in Hcr, Htodo. destruct (Htodo l ltac:(set_solver)) as [_ Hpl].
  pose proof (gw_conn_index cm p cr pool counts l Hcr Hwf) as Hwf'.
  pose proof (revalidateConn_fields cm p cr pool counts l) as Hf.
  destruct (revalidateConn cm p cr pool counts l) as [cm' counts']. cbn [fst snd] in *.
  destruct Hf as (R1 & R2 & R3 & R4 & _ & _ & Hcounts).
  assert (Hplane : ∀ l', PlaneIdentifier (heap cm' l') = PlaneIdentifier (heap cm l')).
  { intros l'. rewrite R1. case_decide; [subst|done].
    by rewrite (UpdateCRValidity_identity (heap cm l) cr pool). }
  assert (Hco : ∀ p, conns_of cm' p = conns_of cm p) by (intros; unfold conns_of; by rewrite R3).
  constructor; cbn [fst snd]; [done| |].
  - intros t Ht. assert (Ht' : ∃ t', t' ∈ ts1 ++ mkRevalidation p cr pool counts (l :: todo) :: ts2 ∧
      rv_cr t' = rv_cr t ∧ rv_plane t' = rv_plane t ∧ ∀ l', l' ∈ rv_todo t → l' ∈ rv_todo t').
    { apply elem_of_app in Ht as [Ht|[->|Ht]%elem_of_cons].
      - exists t. set_solver.
      - eexists. split; [apply elem_of_app; right; by left|]. cbn. set_solver.
      - exists t. set_solver. }
    destruct Ht' as (t' & Hin & <- & <- & Hsub). destruct (Hth t' Hin) as [? Hl].
    split; [done|]. intros l' Hl'%Hsub%Hl. by rewrite R2, Hplane.
  - intros k n. rewrite R4. intros [Hlive|(t & Ht & -> & Hpos)]%Hk.
    + destruct Hlive as [Hne|(p' & cr' & l' & -> & Hl' & Hv)]; [left; left; by rewrite Hco|].
      destruct (IsValidForCR (heap cm' l') cr') eqn:Hv'; [left; right|right].
      * exists p', cr', l'. by rewrite Hco.
      * rewrite R1 in Hv'. case_decide as Hd; [subst l'|congruence].
        rewrite UpdateCRValidity_valid in Hv'.
        destruct (String.eqb_spec cr' cr) as [->|]; [|congruence].
        eexists. split; [apply elem_of_app; right; by left|]. cbn.
        destruct (wf_plane _ Hwf _ _ Hl') as [_ <-]. rewrite Hpl. split; [done|].
        rewrite Hcounts, Hv', Hv. cbn. lia.
    + right. apply elem_of_app in Ht as [Ht|[->|Ht]%elem_of_cons].
      * exists t. set_solver.
      * eexists. split; [apply elem_of_app; right; by left|]. cbn in *. split; [done|].
        rewrite Hcounts. cbn. lia.
      * exists t. set_solver.
Qed.

Lemma gw_end_inv cm ts1 ts2 p cr pool counts :
  gw_inv (cm, ts1 ++ mkRevalidation p cr pool counts [] :: ts2) →
  gw_inv (revalidateCleanup cm p cr counts.2, ts1 ++ ts2).
Proof.
  intros [Hwf Hth Hk]. cbn [fst snd] in *.
  set (cm' := revalidateCleanup cm p cr counts.2).
  destruct (revalidateCleanup_fields cm p cr counts.2) as (R1 & R2 & R3 & _). fold cm' in R1, R2, R3.
  assert (Hkeys : ∀ k n, roundRobin cm' !! k = Some n → roundRobin cm !! k = Some n ∧
    (0 < counts.2 → k = slash p cr → hasAuthorizedConn cm (conns_of cm p) cr = true)).
  { intros k n. unfold cm', revalidateCleanup. destruct (Nat.ltb_spec 0 counts.2); [|naive_solver lia].
    destruct (hasAuthorizedConn cm (conns_of cm p) cr); [done|]. simpl.
    intros [Hne Hl]%lookup_delete_Some. naive_solver. }
  assert (Hlive : ∀ k, live cm k → live cm' k).
  { intros k. apply live_mono. intros p' l Hl. unfold conns_of. by rewrite R1, R3. }
  clearbody cm'. constructor; cbn [fst snd].
  - destruct Hwf as [W1 W2 W3 W4 W5].
    assert (Hco : ∀ p, conns_of cm' p = conns_of cm p) by (intros; unfold conns_of; by rewrite R3).
    constructor; intros *; rewrite ?R1, ?R2, ?R3, ?Hco; eauto.
  - intros t Ht. rewrite R1, R2. apply Hth. set_solver.
  - intros k n [Hk' Hend]%Hkeys. destruct (Hk _ _ Hk') as [Hl|(t & Ht & -> & Hpos)]; [auto|].
    apply elem_of_app in Ht as [Ht|[->|Ht]%elem_of_cons].
    + right. exists t. set_solver.
    + left. cbn in *. destruct (proj1 (hasAuthorizedConn_true _ _ _) (Hend Hpos eq_refl)) as (l & ? & ?).
      apply Hlive. right. eauto 10.
    + right. exists t. set_solver.
Qed.

Lemma gw_step_inv s s' : gw_step s s' → gw_inv s → gw_inv s'.
Proof.
  destruct 1.
  - by apply op_step_inv.
  - apply gw_begin_inv. apply slash_nonempty.
  - apply gw_conn_inv.
  - apply gw_end_inv.
Qed.

Definition initial_manager (mem : loc → AgentConnection) (listener : bool) : ConnectionManager :=
  if listener then SetListener (NewConnectionManager mem) else NewConnectionManager mem.

Lemma initial_gw_inv mem b : gw_inv (initial_manager mem b, []).
Proof.
  assert (Hc : ∀ p, conns_of (initial_manager mem b) p = []).
  { intros p. unfold conns_of, initial_manager. by destruct b; simpl; rewrite lookup_empty. }
  constructor; cbn [fst snd].
  - assert (Hn : next (initial_manager mem b) = 0) by by destruct b.
    constructor; intros *; rewrite ?Hc, ?Hn; try lia.
    + by destruct b; simpl; rewrite lookup_empty.
    + apply NoDup_nil_2.
    + by intros Hl%elem_of_nil.
  - by intros t Ht%elem_of_nil.
  - intros k n. by destruct b; simpl; rewrite lookup_empty.
Qed.

Lemma reachable_gw_inv mem b s : rtc gw_step (initial_manager mem b, []) s → gw_inv s.
Proof.
  intros Hrun. pose proof (initial_gw_inv mem b) as Hi. revert Hi.
  induction Hrun as [|s1 s2 s3 Hst _ IH]; [done|]. eauto using gw_step_inv.
Qed.

(** C36: along every interleaving of the manager's calls with running
    re-validations no plane has an empty bucket, no connection is indexed twice
    or under another plane's identifier, identifiers are unique, and every
    round-robin counter belongs to a plane with connections, to a CR with an
    authorised connection, or to a re-validation that has revoked an
    authorisation and has yet to clean up; once none is running no counter is
    orphaned. *)
Theorem manager_invariant mem listener cm ts :
  rtc gw_step (initial_manager mem listener, []) (cm, ts) →
  (∀ p, connections cm !! p ≠ Some [] ∧ NoDup (conns_of cm p) ∧
        ∀ l, l ∈ conns_of cm p → PlaneIdentifier (heap cm l) = p) ∧
  (∀ p p' l l', l ∈ conns_of cm p → l' ∈ conns_of cm p' →
        ID (heap cm l) = ID (heap cm l') → l = l') ∧
  (∀ k n, roundRobin cm !! k = Some n → live cm k ∨ cleanup_due ts k) ∧
  (ts = [] → ∀ k n, roundRobin cm !! k = Some n → live cm k).
Proof.
  intros [[W1 W2 W3 W4 _] _ Hk]%reachable_gw_inv. cbn [fst snd] in *.
  split_and!; [|intros p p' l l' Hl%W3 Hl'%W3; naive_solver|done|].
  - intros p. split_and!; [done|done|]. intros l Hl. by apply W3.
  - intros -> k n [|(t & Ht & _)]%Hk; [done|]. by apply elem_of_nil in Ht.
Qed.

End Reach.
