(* ===== verification/GatewayServer.v ===== *)
(** * The gateway server between the manager and the mesh

    [internal/cluster-gateway/server.go]: the server mirrors its connections
    into the mesh as their listener, reports the status of the fleet, routes a
    request to an agent of its own or, one hop over the mesh, to a replica that
    has one, and sheds connections when it holds more than its share.  A
    [Fleet] is the server that received a request, the connection managers of
    its peers and the log of what was handed to agents; what the network and
    the agent do in one hop is an argument. *)

From S2P Require Import Prelude GoStrings GatewayConn FabricMesh.

Open Scope go_scope.

Section Server.
Context `{X : X509}.

(** ** The listener *)

Definition onEvent (m : Mesh) (ev : ListenerEvent) : Mesh :=
  match ev with
  | OnAgentRegistered planeIdentifier connID validCRs =>
      LocalUpsert m (mkEntry planeIdentifier connID validCRs)
  | OnAgentUnregistered planeIdentifier connID => LocalRemove m planeIdentifier connID
  | OnAgentCRsChanged planeIdentifier connID validCRs =>
      LocalUpsert m (mkEntry planeIdentifier connID validCRs)
  end.

(** The mesh after the calls its listener received. *)
Definition mirrored (m : Mesh) (evs : list ListenerEvent) : Mesh := foldl onEvent m evs.

(** ** Authorisation when an agent connects *)

Definition buildIntermediatePool (certs : list Certificate) : option CertPool :=
  match certs with
  | [] => None
  | _ => Some (foldl AddCert NewCertPool certs)
  end.

(** Whether a certificate is valid for a CR with this CA, if it has one. *)
Definition validForCA (cert : Certificate) (inter : option CertPool) (ca : option string) : bool :=
  match ca with
  | None => false
  | Some caData =>
      match AppendCertsFromPEM NewCertPool caData with
      | (_, false) => false
      | (certPool, true) =>
          match Verify cert (mkVerifyOptions certPool inter true) with
          | None => true
          | Some _ => false
          end
      end
  end.

(** [crs]: the CRs of the plane with their CA, as [getAllPlaneClientCAs] gives
    them. *)
Definition verifyClientCertificatePerCR `{MapRange} (crs : result (gmap string (option string)))
    (cert : Certificate) (inter : option CertPool) (planeType planeID : string)
    : result (list string) :=
  match crs with
  | Err m => Err ("failed to get client CA configurations: " +:+ m)
  | Ok crsClientCAData =>
      if Nat.eqb (size crsClientCAData) 0 then
        Err ("no " +:+ planeType +:+ " CRs found with planeID '" +:+ planeID +:+ "'")
      else
        match (List.filter (λ kv, validForCA cert inter kv.2) (map_range crsClientCAData)).*1 with
        | [] => Err ("certificate not valid for any CR with planeID '" +:+ planeID +:+ "'")
        | validCRs => Ok validCRs
        end
  end.

(** [handleWebSocket] once the certificate is known: verify, then register. *)
Definition acceptAgent `{MapRange} (cm : ConnectionManager)
    (crs : result (gmap string (option string))) (cert : Certificate)
    (intermediateCerts : list Certificate) (connID : string) (now : Time) (conn : Connection)
    (planeType planeID : string) : ConnectionManager * result string :=
  let pool := buildIntermediatePool intermediateCerts in
  match verifyClientCertificatePerCR crs cert pool planeType planeID with
  | Err m => (cm, Err ("client certificate verification failed: " +:+ m))
  | Ok validCRs => Register cm connID now planeType planeID conn validCRs cert pool
  end.

(** ** Status of the fleet *)

Definition addRemote (st : PlaneConnectionStatus) (remote : nat) : PlaneConnectionStatus :=
  if 0 <? remote then
    mkStatus (st_PlaneType st) (st_PlaneID st) true (ConnectedAgents st + remote) (st_LastSeen st)
  else st.

Definition PlaneStatus (cm : ConnectionManager) (fabricRegistry : option Registry)
    (planeType planeID : string) : PlaneConnectionStatus :=
  let status := GetPlaneStatus cm planeType planeID in
  match fabricRegistry with
  | None => status
  | Some r => addRemote status (CountForPlane r (planeType +:+ "/" +:+ planeID))
  end.

Definition CRAuthorizationStatus (cm : ConnectionManager) (fabricRegistry : option Registry)
    (planeType planeID namespace name : string) : PlaneConnectionStatus :=
  let status := GetCRAuthorizationStatus cm planeType planeID namespace name in
  match fabricRegistry with
  | None => status
  | Some r =>
      addRemote status
        (CountForCR r (planeType +:+ "/" +:+ planeID) (slash namespace name))
  end.

(** One local status: the remote count of its plane is added and consumed. *)
Definition mergeRemote (acc : list PlaneConnectionStatus * gmap string nat)
    (st : PlaneConnectionStatus) : list PlaneConnectionStatus * gmap string nat :=
  let key := st_PlaneType st +:+ "/" +:+ st_PlaneID st in
  match acc.2 !! key with
  | Some count =>
      (acc.1 ++ [mkStatus (st_PlaneType st) (st_PlaneID st) true (ConnectedAgents st + count)
                   (st_LastSeen st)], delete key acc.2)
  | None => (acc.1 ++ [st], acc.2)
  end.

Definition AllPlaneStatuses `{MapRange} (cm : ConnectionManager) (fabricRegistry : option Registry)
    : list PlaneConnectionStatus :=
  let statuses := GetAllPlaneStatuses cm in
  match fabricRegistry with
  | None => statuses
  | Some r =>
      let '(merged, remote) := foldl mergeRemote ([], AllPlaneCounts r) statuses in
      merged ++ omap (λ '(key, count),
        match splitPlaneIdentifier key with
        | [planeType; planeID] => Some (mkStatus planeType planeID true count 0%Z)
        | _ => None
        end) (map_range remote)
  end.

(** ** Plane events *)

(** [getAllPlaneClientCAs] reads the CRs of the cluster: their CA, if any. *)
Definition fetchCRClientCA (allCRs : result (gmap string (option string)))
    (namespace name : string) : result string :=
  match allCRs with
  | Err m => Err ("failed to get CRs: " +:+ m)
  | Ok crs =>
      let crKey := slash namespace name in
      match crs !! crKey with
      | None => Err ("CR " +:+ crKey +:+ " not found")
      | Some None => Err ("CR " +:+ crKey +:+ " has no CA configured")
      | Some (Some caData) => Ok caData
      end
  end.

Definition ApplyPlaneEvent (cm : ConnectionManager)
    (allCRs : result (gmap string (option string))) (ev : PlaneEvent) : ConnectionManager :=
  if String.eqb (pe_Event ev) "created" || String.eqb (pe_Event ev) "updated" then
    match fetchCRClientCA allCRs (pe_Namespace ev) (pe_Name ev) with
    | Err _ => cm
    | Ok caData =>
        (RevalidateCR cm (pe_PlaneType ev) (pe_PlaneID ev) (pe_Namespace ev) (pe_Name ev)
           caData).1
    end
  else if String.eqb (pe_Event ev) "deleted" || String.eqb (pe_Event ev) "reconnect" then
    (DisconnectAllForPlane cm (pe_PlaneType ev) (pe_PlaneID ev)).1
  else cm.

(** ** Routing a request *)

(** A method is a token of ASCII letters, on which [strings.ToUpper] is
    [ToUpper]. *)
Definition isSafeHTTPMethod (method : string) : bool :=
  let m := ToUpper method in
  String.eqb m "GET" || String.eqb m "HEAD" || String.eqb m "OPTIONS".

Definition forwardIsSafeToRetry (err : forwardError) (req : HTTPTunnelRequest) : bool :=
  match err with
  | ErrNoLink _ | ErrForwardNotSent _ => true
  | ErrForwardMayHaveExecuted _ => isSafeHTTPMethod (Method req)
  end.

(** A request handed to an agent: the pod and its connection. *)
Definition dispatch : Type := string * loc.

Record Fleet := mkFleet {
  connMgr : ConnectionManager;
  fabricMesh : option Mesh;
  selfID : string;
  peers : gmap string ConnectionManager;
  dispatched : list dispatch;
}.

Definition with_connMgr (f : Fleet) cm :=
  mkFleet cm (fabricMesh f) (selfID f) (peers f) (dispatched f).
Definition with_mesh (f : Fleet) m :=
  mkFleet (connMgr f) (Some m) (selfID f) (peers f) (dispatched f).
Definition with_peer (f : Fleet) owner cm :=
  mkFleet (connMgr f) (fabricMesh f) (selfID f) (<[owner := cm]> (peers f)) (dispatched f).

(** What comes of a request that is written to an agent's connection. *)
Inductive agentOutcome :=
  | SendFailed (err : string)
  | Replied (response : HTTPTunnelResponse)
  | ClosedBeforeReply
  | TimedOut.

Definition tunnelResult (out : agentOutcome) : result HTTPTunnelResponse :=
  match out with
  | SendFailed err => Err ("failed to send HTTP tunnel request: " +:+ err)
  | Replied response => Ok response
  | ClosedBeforeReply => Err "agent connection closed before responding"
  | TimedOut => Err "HTTP tunnel request timeout"
  end.

(** The request goes to the agent, which may have seen it even if writing it
    failed.  The waiter it registers is gone again in every case. *)
Definition dispatchTunnelRequest (f : Fleet) (pod : string) (conn : loc) (answer : agentOutcome)
    : Fleet * result HTTPTunnelResponse :=
  (mkFleet (connMgr f) (fabricMesh f) (selfID f) (peers f) (dispatched f ++ [(pod, conn)]),
   tunnelResult answer).

(** [ServeForward] on the pod [owner]. *)
Definition ServeForward (f : Fleet) (owner : string) (cm : ConnectionManager)
    (freq : ForwardRequest) (answer : agentOutcome) : Fleet * ForwardResponse :=
  let '(cm1, conn) :=
    if negb (String.eqb (fq_CRKey freq) "")
    then GetForCR cm (fq_PlaneIdentifier freq) (fq_CRKey freq)
    else Get cm (fq_PlaneIdentifier freq) in
  let f1 := with_peer f owner cm1 in
  match conn with
  | Err err => (f1, mkForwardResponse (fq_CorrID freq) None true err)
  | Ok l =>
      let '(f2, response) := dispatchTunnelRequest f1 owner l answer in
      (f2, match response with
           | Err err => mkForwardResponse (fq_CorrID freq) None false err
           | Ok rsp => mkForwardResponse (fq_CorrID freq) (Some rsp) false ""
           end)
  end.

(** What happens to one forward: a new correlation identifier, an error of the
    write, whether the owner reads the frame, what its agent answers, and how
    the wait ends if the answer does not come back. *)
Inductive broken := LinkDown | Cancelled (err : string).

Record hop := mkHop {
  h_newID : string;
  h_sendErr : option string;
  h_reached : bool;
  h_answer : agentOutcome;
  h_broken : option broken;
}.

(** The owner serves the frame if it reads it. *)
Definition ownerServes (f : Fleet) (owner : string) (freq : ForwardRequest) (h : hop)
    : Fleet * option ForwardResponse :=
  match peers f !! owner with
  | Some cm =>
      if h_reached h then
        let '(f1, rsp) := ServeForward f owner cm freq (h_answer h) in (f1, Some rsp)
      else (f, None)
  | None => (f, None)
  end.

Definition waitOutcome (h : hop) (orsp : option ForwardResponse) : waited :=
  match h_broken h, orsp with
  | None, Some rsp => Answered rsp
  | None, None => ContextDone "context deadline exceeded"
  | Some LinkDown, _ => LinkLost
  | Some (Cancelled err), _ => ContextDone err
  end.

Definition Forward (f : Fleet) (m : Mesh) (owner : string) (freq : ForwardRequest) (h : hop)
    : Fleet * Mesh * (ForwardResponse + forwardError) :=
  match ForwardSend m owner freq (h_newID h) (h_sendErr h) with
  | (m1, inr err) => (f, m1, inr err)
  | (m1, inl freq') =>
      let '(f1, orsp) := ownerServes f owner freq' h in
      let '(m2, r) := ForwardWait m1 owner freq' (waitOutcome h orsp) in
      (f1, m2, r)
  end.

Definition errText (e : forwardError) : string :=
  match e with
  | ErrNoLink t => "no mesh link to owner pod: " +:+ t
  | ErrForwardNotSent t => "mesh forward not sent: " +:+ t
  | ErrForwardMayHaveExecuted t => "mesh forward may have executed: " +:+ t
  end.

(** The first candidate, and a second one, if possible of another pod. *)
Definition planAttempts (candidates : list RemoteAgent) : list RemoteAgent :=
  match candidates with
  | [] => []
  | c0 :: rest =>
      match List.find (λ c, negb (String.eqb (ra_Owner c) (ra_Owner c0))) rest, rest with
      | Some c, _ => [c0; c]
      | None, c1 :: _ => [c0; c1]
      | None, [] => [c0]
      end
  end.

Fixpoint attemptLoop (f : Fleet) (m : Mesh) (planeIdentifier crKey : string)
    (req : HTTPTunnelRequest) (timeoutMillis : Z) (lastErr : string)
    (attempts : list RemoteAgent) (hops : nat → hop)
    : Fleet * Mesh * result (HTTPTunnelResponse * string) :=
  match attempts with
  | [] => (f, m, Err lastErr)
  | cand :: attempts =>
      let freq := mkForwardRequest "" planeIdentifier crKey timeoutMillis req in
      let next_hops n := hops (S n) in
      let '(f1, m1, r) := Forward f m (ra_Owner cand) freq (hops 0) in
      match r with
      | inr err =>
          if negb (forwardIsSafeToRetry err req) then (f1, m1, Err (errText err))
          else attemptLoop f1 m1 planeIdentifier crKey req timeoutMillis (errText err)
                 attempts next_hops
      | inl rsp =>
          match fr_Response rsp with
          | Some response => (f1, m1, Ok (response, ra_Owner cand))
          | None =>
              let err := "forward to " +:+ ra_Owner cand +:+ " failed: " +:+ fr_Error rsp in
              if negb (fr_NoAgent rsp) && negb (isSafeHTTPMethod (Method req)) then
                (f1, m1, Err err)
              else attemptLoop f1 m1 planeIdentifier crKey req timeoutMillis err
                     attempts next_hops
          end
      end
  end.

Definition forwardViaMesh (f : Fleet) (planeIdentifier crKey : string) (req : HTTPTunnelRequest)
    (timeoutMillis : Z) (hops : nat → hop) : Fleet * result (HTTPTunnelResponse * string) :=
  match fabricMesh f with
  | None => (f, Err "gateway mesh not enabled")
  | Some m =>
      let '(r, candidates) := Registry_Lookup (registry m) planeIdentifier crKey in
      let m1 := with_registry m r in
      match candidates with
      | [] => (with_mesh f m1, Err ("no remote agents found for plane " +:+ planeIdentifier))
      | _ =>
          let '(f1, m2, res) :=
            attemptLoop f m1 planeIdentifier crKey req timeoutMillis "" (planAttempts candidates)
              hops in
          (with_mesh f1 m2, res)
      end
  end.

(** The response and the pod that served it.  [answer] is what the agent says
    when a connection of this pod serves the request. *)
Definition SendHTTPTunnelRequestForCR (f : Fleet) (planeName crKey : string)
    (req : HTTPTunnelRequest) (timeoutMillis : Z) (answer : agentOutcome)
    (hops : nat → hop) : Fleet * result (HTTPTunnelResponse * string) :=
  match GetForCR (connMgr f) planeName crKey with
  | (cm1, Err err) =>
      let '(f1, r) := forwardViaMesh (with_connMgr f cm1) planeName crKey req timeoutMillis hops in
      (f1, match r with Ok x => Ok x | Err _ => Err err end)
  | (cm1, Ok conn) =>
      let '(f1, response) := dispatchTunnelRequest (with_connMgr f cm1) (selfID f) conn answer in
      (f1, match response with Ok rsp => Ok (rsp, selfID f) | Err err => Err err end)
  end.

(** The same without a CR: any connection of the plane. *)
Definition SendHTTPTunnelRequest (f : Fleet) (planeName : string) (req : HTTPTunnelRequest)
    (timeoutMillis : Z) (answer : agentOutcome) (hops : nat → hop)
    : Fleet * result HTTPTunnelResponse :=
  match Get (connMgr f) planeName with
  | (cm1, Err err) =>
      let '(f1, r) := forwardViaMesh (with_connMgr f cm1) planeName "" req timeoutMillis hops in
      (f1, match r with Ok (rsp, _) => Ok rsp | Err _ => Err err end)
  | (cm1, Ok conn) => dispatchTunnelRequest (with_connMgr f cm1) (selfID f) conn answer
  end.

(** ** Shedding connections *)

Definition rebalanceMaxShedPerCycle : nat := 3.
Definition rebalanceSlack : nat := 1.

(** How many connections one cycle of [rebalanceOnce] sheds, from the number
    of local connections and the peers' counts. *)
Definition rebalanceShed (local : nat) (self : string) (countByOwner : gmap string nat) : nat :=
  let peerCounts := delete self countByOwner in
  let pods := size peerCounts + 1 in
  if pods <? 2 then 0
  else
    let total := map_fold (λ _ n total, total + n) local peerCounts in
    if Nat.eqb total 0 then 0
    else
      let fairShare := (total + pods - 1) / pods in
      if local <=? fairShare + rebalanceSlack then 0
      else
        let excess := local - (fairShare + rebalanceSlack) in
        Nat.min (Nat.max 1 ((excess + 1) / 2)) rebalanceMaxShedPerCycle.

(** The connections that are told to go away: none while draining. *)
Definition rebalanceOnce `{MapRange} (cm : ConnectionManager) (fabric : option Mesh)
    (isDraining : bool) : list loc :=
  match fabric with
  | Some m =>
      if isDraining then []
      else
        let local := GetAll cm in
        take (rebalanceShed (length local) (self m) (CountByOwner (registry m))) local
  | None => []
  end.

End Server.
