(* ===== verification/GatewayServerSpec.v ===== *)
(** * Requests reach the right agent, at most once

    The mesh entries of a replica are its connections when re-validations are
    not interleaved with departures; a request for a CR is handed only to
    agents authorised for it, and to at most one when repeating it is not safe;
    rebalancing stops at the fair share. *)

From S2P Require Import Prelude GoStrings GatewayConn GatewayConnSpec GatewayReach.
From S2P Require Import FabricMesh FabricSpec GatewayServer.

Open Scope go_scope.

Section Spec.
Context `{X : X509}.
Implicit Types (cm : ConnectionManager) (p cr : string) (l : loc).

(** ** Routing *)

(** The agents a pod may hand a request for a CR to. *)
Definition mayServe cm p cr l : Prop :=
  l ∈ conns_of cm p ∧ IsValidForCR (heap cm l) cr = true.

(** Connections and authorisations, which routing does not change. *)
Definition same_auth cm cm' : Prop := heap cm' = heap cm ∧ connections cm' = connections cm.

Definition same_peers (f f' : Fleet) : Prop :=
  ∀ owner cm', peers f' !! owner = Some cm' →
    ∃ cm, peers f !! owner = Some cm ∧ same_auth cm cm'.

Definition authorized_at (f : Fleet) p cr (d : dispatch) : Prop :=
  ∃ cm, peers f !! d.1 = Some cm ∧ mayServe cm p cr d.2.

Lemma same_auth_mayServe cm cm' p cr l : same_auth cm cm' → mayServe cm' p cr l → mayServe cm p cr l.
Proof. intros [Hh Hc]. unfold mayServe, conns_of. by rewrite Hh, Hc. Qed.

Lemma same_peers_authorized f f' p cr d :
  same_peers f f' → authorized_at f' p cr d → authorized_at f p cr d.
Proof.
  intros Hs (cm' & Hcm & Hm). destruct (Hs _ _ Hcm) as (cm & Hp & Ha).
  exists cm. eauto using same_auth_mayServe.
Qed.

Lemma same_peers_trans f1 f2 f3 : same_peers f1 f2 → same_peers f2 f3 → same_peers f1 f3.
Proof.
  intros H12 H23 o cm3 (cm2 & H2 & Hh & Hc)%H23. destruct (H12 _ _ H2) as (cm1 & H1 & Hh' & Hc').
  exists cm1. split; [done|]. split; congruence.
Qed.

(** What one forward does: it hands the request to at most one agent, an
    authorised one; to none if it failed before the wire or the owner had no
    agent; and to one of the owner's if there is a response. *)
Record hop_ok (f f' : Fleet) (owner p cr : string) (r : ForwardResponse + forwardError) : Prop := {
  ho_peers : same_peers f f';
  ho_log : ∃ ds, dispatched f' = dispatched f ++ ds ∧ length ds ≤ 1 ∧
    Forall (authorized_at f p cr) ds ∧
    match r with
    | inl rsp =>
        match fr_Response rsp with
        | Some _ => ∃ l, ds = [(owner, l)]
        | None => fr_NoAgent rsp = true → ds = []
        end
    | inr (ErrNoLink _) | inr (ErrForwardNotSent _) => ds = []
    | inr (ErrForwardMayHaveExecuted _) => True
    end;
}.

Lemma same_peers_refl f : same_peers f f.
Proof. intros o cm Hcm. exists cm. by repeat split. Qed.

Lemma same_peers_with_peer f owner cm cm1 :
  peers f !! owner = Some cm → same_auth cm cm1 → same_peers f (with_peer f owner cm1).
Proof.
  intros Hp Ha o cm'. simpl. intros [[<- <-]|[_ Ho]]%lookup_insert_Some; [by eauto|].
  exists cm'. by repeat split.
Qed.

Lemma ServeForward_ok f owner cm freq answer :
  peers f !! owner = Some cm → fq_CRKey freq ≠ "" →
  let '(f', rsp) := ServeForward f owner cm freq answer in
  hop_ok f f' owner (fq_PlaneIdentifier freq) (fq_CRKey freq) (inl rsp).
Proof.
  intros Hp Hcr. unfold ServeForward. apply String.eqb_neq in Hcr. rewrite Hcr. simpl.
  pose proof (GetForCR_authorized cm (fq_PlaneIdentifier freq) (fq_CRKey freq)) as Hg.
  destruct (GetForCR cm _ _) as [cm1 [l|err]].
  - destruct Hg as (Hl & Hv & Ha). pose proof (same_peers_with_peer f owner cm cm1 Hp Ha) as Hs.
    assert (authorized_at f (fq_PlaneIdentifier freq) (fq_CRKey freq) (owner, l))
      by (exists cm; done).
    simpl. split; [done|]. exists [(owner, l)]. split_and!; [done|simpl; lia|by constructor|].
    destruct (tunnelResult answer); simpl; [eauto|done].
  - destruct Hg as [-> _]. split; [by eapply same_peers_with_peer|].
    exists []. simpl. rewrite app_nil_r. split_and!; [done|lia|done|done].
Qed.

Lemma ForwardSend_spec m owner freq newID sendErr :
  match (ForwardSend m owner freq newID sendErr).2 with
  | inl freq' => fq_CRKey freq' = fq_CRKey freq ∧ fq_PlaneIdentifier freq' = fq_PlaneIdentifier freq
  | inr (ErrForwardMayHaveExecuted _) => False
  | inr _ => True
  end.
Proof.
  unfold ForwardSend. destruct (links m !! owner) as [link|]; [|done].
  destruct (up link); [|done]. by destruct sendErr.
Qed.

Lemma hop_ok_nothing f owner p cr r :
  match r with
  | inl rsp => fr_Response rsp = None
  | inr _ => True
  end → hop_ok f f owner p cr r.
Proof.
  intros Hr. split; [apply same_peers_refl|]. exists []. rewrite app_nil_r.
  split_and!; [done|simpl; lia|done|]. destruct r as [rsp|[]]; [by rewrite Hr|done..].
Qed.

Lemma hop_ok_broken f f' owner p cr rsp t :
  hop_ok f f' owner p cr (inl rsp) → hop_ok f f' owner p cr (inr (ErrForwardMayHaveExecuted t)).
Proof. intros [Hs (ds & Hds & Hl & Ha & _)]. split; [done|]. by exists ds. Qed.

Lemma Forward_ok f m owner freq h :
  fq_CRKey freq ≠ "" →
  let '(f', _, r) := Forward f m owner freq h in
  hop_ok f f' owner (fq_PlaneIdentifier freq) (fq_CRKey freq) r.
Proof.
  intros Hcr. unfold Forward.
  pose proof (ForwardSend_spec m owner freq (h_newID h) (h_sendErr h)) as Hsend.
  destruct (ForwardSend m owner freq (h_newID h) (h_sendErr h)) as [m1 [freq'|err]];
    [|by apply hop_ok_nothing].
  simpl in Hsend. destruct Hsend as [E1 E2]. rewrite <- E1 in Hcr. rewrite <- E1, <- E2.
  unfold ownerServes.
  destruct (peers f !! owner) as [cm|] eqn:Hp.
  2: { unfold waitOutcome. destruct (h_broken h) as [[]|]; by apply hop_ok_nothing. }
  destruct (h_reached h).
  2: { unfold waitOutcome. destruct (h_broken h) as [[]|]; by apply hop_ok_nothing. }
  pose proof (ServeForward_ok f owner cm freq' (h_answer h) Hp Hcr) as Hs.
  destruct (ServeForward f owner cm freq' (h_answer h)) as [f1 rsp].
  unfold waitOutcome. destruct (h_broken h) as [[]|]; simpl; [..|done]; by eapply hop_ok_broken.
Qed.

(** What a run of attempts did. *)
Record run_ok (f f' : Fleet) p cr (budget : nat) (r : result (HTTPTunnelResponse * string)) : Prop := {
  ro_log : ∃ ds, dispatched f' = dispatched f ++ ds ∧ length ds ≤ budget ∧
    Forall (authorized_at f p cr) ds ∧
    ∀ rsp pod, r = Ok (rsp, pod) → ∃ l, last ds = Some (pod, l);
}.

Definition may_repeat (req : HTTPTunnelRequest) : bool := isSafeHTTPMethod (Method req).

Lemma run_ok_later f f1 f' p cr ds b r :
  same_peers f f1 → dispatched f1 = dispatched f ++ ds → Forall (authorized_at f p cr) ds →
  run_ok f1 f' p cr b r → run_ok f f' p cr (length ds + b) r.
Proof.
  intros Hs Hds Ha [(ds' & Hds' & Hl & Ha' & Hr)]. constructor.
  exists (ds ++ ds'). rewrite Hds', Hds, app_assoc, length_app. split_and!; [done|lia| |].
  - apply Forall_app. split; [done|]. eapply Forall_impl; [done|].
    intros d. by apply same_peers_authorized.
  - intros rsp pod Heq. destruct (Hr _ _ Heq) as [l Hlast]. exists l. by rewrite last_app, Hlast.
Qed.

Lemma run_ok_mono f f' p cr b b' r : b ≤ b' → run_ok f f' p cr b r → run_ok f f' p cr b' r.
Proof.
  intros Hb [(ds & Hds & Hl & Ha & Hr)]. constructor. exists ds. split_and!; [done|lia|done|done].
Qed.

Lemma run_ok_stop f f' p cr ds r :
  dispatched f' = dispatched f ++ ds → Forall (authorized_at f p cr) ds →
  (∀ rsp pod, r = Ok (rsp, pod) → ∃ l, last ds = Some (pod, l)) → run_ok f f' p cr (length ds) r.
Proof. intros Hds Ha Hr. constructor. by exists ds. Qed.

Lemma attemptLoop_ok f m p cr req tm lastErr attempts hops :
  cr ≠ "" →
  let '(f', _, r) := attemptLoop f m p cr req tm lastErr attempts hops in
  run_ok f f' p cr (if may_repeat req then length attempts else Nat.min 1 (length attempts)) r.
Proof.
  intros Hcr. revert f m lastErr hops.
  induction attempts as [|cand attempts IH]; intros f m lastErr hops; simpl.
  { constructor. exists []. rewrite app_nil_r. split_and!; [done|by destruct (may_repeat req)|done|done]. }
  pose proof (Forward_ok f m (ra_Owner cand) (mkForwardRequest "" p cr tm req) (hops 0) Hcr) as Hf.
  destruct (Forward f m (ra_Owner cand) _ (hops 0)) as [[f1 m1] r]. simpl in Hf.
  destruct Hf as [Hs (ds & Hds & Hlen & Ha & Hr)].
  assert (Hretry : ∀ err, (may_repeat req = false → ds = []) →
    let '(f', _, r) := attemptLoop f1 m1 p cr req tm err attempts (λ n, hops (S n)) in
    run_ok f f' p cr (if may_repeat req then S (length attempts) else 1) r).
  { intros err Hnil. specialize (IH f1 m1 err (λ n, hops (S n))).
    destruct (attemptLoop f1 m1 p cr req tm err attempts _) as [[f2 m2] r2].
    eapply run_ok_mono; [|by eapply run_ok_later].
    destruct (may_repeat req); [lia|]. rewrite Hnil by done. cbn [length]. lia. }
  assert (Hstop : ∀ err, run_ok f f1 p cr (if may_repeat req then S (length attempts) else 1)
    (Err err)).
  { intros err. eapply run_ok_mono; [|by apply run_ok_stop]. destruct (may_repeat req); lia. }
  destruct r as [rsp|err].
  - destruct (fr_Response rsp) as [response|].
    + destruct Hr as [l ->]. eapply run_ok_mono; [|apply run_ok_stop; [done|done|]].
      * destruct (may_repeat req); simpl; lia.
      * intros ? ? [= <- <-]. by exists l.
    + destruct (negb (fr_NoAgent rsp) && negb (isSafeHTTPMethod (Method req))) eqn:Hb; [done|].
      apply Hretry. intros Hrep. unfold may_repeat in Hrep. rewrite Hrep in Hb.
      apply Hr. by destruct (fr_NoAgent rsp).
  - destruct (forwardIsSafeToRetry err req) eqn:Hb; simpl; [|done].
    apply Hretry. intros Hrep. destruct err; [done|done|]. simpl in Hb.
    unfold may_repeat in Hrep. congruence.
Qed.

Lemma planAttempts_length cs : length (planAttempts cs) ≤ 2.
Proof.
  destruct cs as [|c0 rest]; simpl; [lia|].
  destruct (List.find _ rest), rest; simpl; lia.
Qed.

Lemma forwardViaMesh_ok f p cr req tm hops :
  cr ≠ "" →
  run_ok f (forwardViaMesh f p cr req tm hops).1 p cr (if may_repeat req then 2 else 1)
    (forwardViaMesh f p cr req tm hops).2.
Proof.
  intros Hcr. unfold forwardViaMesh.
  assert (Hnone : ∀ f' err, dispatched f' = dispatched f →
    run_ok f f' p cr (if may_repeat req then 2 else 1) (Err err)).
  { intros f' err Hd. constructor. exists []. rewrite app_nil_r.
    split_and!; [done|simpl; lia|done|done]. }
  destruct (fabricMesh f) as [m|]; [|by apply Hnone].
  destruct (Registry_Lookup (registry m) p cr) as [r cands].
  destruct cands as [|c cs]; [by apply Hnone|].
  pose proof (attemptLoop_ok f (with_registry m r) p cr req tm "" (planAttempts (c :: cs)) hops Hcr)
    as Hl.
  destruct (attemptLoop _ _ _ _ _ _ _ _ _) as [[f1 m2] res]. simpl.
  pose proof (planAttempts_length (c :: cs)) as Hlen.
  destruct Hl as [(ds & Hds & Hn & Ha & Hr)]. constructor. exists ds.
  split_and!; [done| |done|done]. destruct (may_repeat req); lia.
Qed.

(** A request for a CR is handed only to agents that are authorised for the
    CR on the pod that serves it, to one of this pod if it has one and
    otherwise over the mesh; at most two agents see it, and at most one when
    its method is not safe to repeat, whatever fails on the way; and a response
    comes from the pod it names. *)
Theorem request_authorized_once f p cr req tm answer hops :
  cr ≠ "" →
  let '(f', r) := SendHTTPTunnelRequestForCR f p cr req tm answer hops in
  ∃ ds, dispatched f' = dispatched f ++ ds ∧
    length ds ≤ (if isSafeHTTPMethod (Method req) then 2 else 1) ∧
    Forall (λ '(pod, l), mayServe (connMgr f) p cr l ∧ pod = selfID f ∨
                         authorized_at f p cr (pod, l)) ds ∧
    ∀ rsp pod, r = Ok (rsp, pod) → ∃ l, last ds = Some (pod, l).
Proof.
  intros Hcr. unfold SendHTTPTunnelRequestForCR.
  pose proof (GetForCR_authorized (connMgr f) p cr) as Hg.
  destruct (GetForCR (connMgr f) p cr) as [cm1 [l|err]].
  - destruct Hg as (Hl & Hv & _). simpl. exists [(selfID f, l)].
    split_and!; [done|case_goal; simpl; lia| |].
    + constructor; [left; by split|done].
    + intros rsp pod. destruct (tunnelResult answer); [|done]. intros [= <- <-]. by exists l.
  - pose proof (forwardViaMesh_ok (with_connMgr f cm1) p cr req tm hops Hcr) as [(ds & Hds & Hn & Ha & Hr)].
    destruct (forwardViaMesh _ _ _ _ _ _) as [f1 r]. simpl in *. exists ds.
    split_and!; [done|done| |].
    + eapply Forall_impl; [done|]. intros [pod l] Hd. right. exact Hd.
    + intros rsp pod Heq. apply (Hr rsp pod). destruct r; [done|discriminate].
Qed.

(** ** The mesh mirrors the connections *)

(** Calls one after the other: a re-validation runs to its end. *)
Inductive seq_step : ConnectionManager → ConnectionManager → Prop :=
  | seq_op cm cm' : op_step cm cm' → seq_step cm cm'
  | seq_revalidate cm planeType planeID ns name ca :
      seq_step cm (RevalidateCR cm planeType planeID ns name ca).1.

Lemma seq_step_run cm cm' : seq_step cm cm' → rtc gw_step (cm, []) (cm', []).
Proof.
  destruct 1 as [cm cm' Hop|]; [by apply rtc_once, gw_op|]. apply RevalidateCR_run.
Qed.

Definition entry_of (ac : AgentConnection) : AgentEntry :=
  mkEntry (PlaneIdentifier ac) (ID ac) (ValidCRs ac).

(** The effect of an event on the entries. *)
Definition mirrorStep (m : gmap string AgentEntry) (ev : ListenerEvent) : gmap string AgentEntry :=
  match ev with
  | OnAgentRegistered p c crs | OnAgentCRsChanged p c crs => <[c := mkEntry p c crs]> m
  | OnAgentUnregistered _ c => delete c m
  end.

Lemma onEvent_entries m ev : localEntries (onEvent m ev) = mirrorStep (localEntries m) ev.
Proof.
  destruct ev as [p c crs|p c|p c crs]; simpl.
  - by destruct (LocalUpsert_fields m (mkEntry p c crs)) as (_ & _ & _ & -> & _).
  - destruct (localEntries m !! c) as [e|] eqn:Hc.
    + by destruct (LocalRemove_fields m p c e Hc) as (_ & _ & _ & -> & _).
    + unfold LocalRemove. rewrite Hc. by rewrite delete_id.
  - by destruct (LocalUpsert_fields m (mkEntry p c crs)) as (_ & _ & _ & -> & _).
Qed.

Lemma mirrored_entries m evs :
  localEntries (mirrored m evs) = foldl mirrorStep (localEntries m) evs.
Proof.
  revert m. induction evs as [|ev evs IH]; intros m; [done|].
  simpl. unfold mirrored in IH. by rewrite IH, onEvent_entries.
Qed.

(** The entries are the registered connections. *)
Definition mirrors (es : gmap string AgentEntry) cm : Prop :=
  ∀ c e, es !! c = Some e ↔ ∃ p l, l ∈ conns_of cm p ∧ ID (heap cm l) = c ∧ e = entry_of (heap cm l).

Lemma mirrors_ext es cm cm' :
  (∀ p, conns_of cm' p = conns_of cm p) → (∀ l, entry_of (heap cm' l) = entry_of (heap cm l)) →
  mirrors es cm → mirrors es cm'.
Proof.
  intros Hc Hh Hm c e. rewrite (Hm c e). setoid_rewrite Hc. setoid_rewrite Hh.
  assert (Hid : ∀ l, ID (heap cm' l) = ID (heap cm l))
    by (intros l; specialize (Hh l); by injection Hh).
  by setoid_rewrite Hid.
Qed.

Lemma mirrors_removed es cm cm' p rest gone :
  index_wf cm → removed_from cm cm' p rest gone → NoDup (conns_of cm p) →
  conns_of cm p ≡ₚ gone ++ rest → mirrors es cm →
  mirrors (foldl mirrorStep es ((λ l, OnAgentUnregistered p (ID (heap cm l))) <$> gone)) cm'.
Proof.
  intros Hwf R Hnd Hperm Hm. pose proof R as [R1 _ _ R4 _ _ _ _ _].
  assert (Hdel : ∀ ls m c e,
    foldl mirrorStep m ((λ l, OnAgentUnregistered p (ID (heap cm l))) <$> ls) !! c = Some e ↔
    m !! c = Some e ∧ ∀ l, l ∈ ls → ID (heap cm l) ≠ c).
  { induction ls as [|l ls IH]; intros m c e; simpl.
    { split; [|tauto]. intros Hx. split; [done|]. by intros l Hl%elem_of_nil. }
    rewrite IH, lookup_delete_Some. setoid_rewrite elem_of_cons. naive_solver. }
  assert (Hpart : ∀ l, l ∈ conns_of cm p ↔ l ∈ gone ∨ l ∈ rest)
    by (intros l; rewrite Hperm; apply elem_of_app).
  rewrite Hperm in Hnd. apply NoDup_app in Hnd as (_ & Hdis & _).
  intros c e. rewrite Hdel, (Hm c e), R1. setoid_rewrite R4. split.
  - intros [(p' & l & Hl & Hc & ->) Hg]. exists p', l. split_and!; [|done|done].
    case_decide as Hd; [subst p'|done]. apply Hpart in Hl as [Hl|Hl]; [|done].
    by destruct (Hg l Hl).
  - intros (p' & l & Hl & Hc & ->). assert (Hin : l ∈ conns_of cm p').
    { case_decide as Hd; [subst p'; apply Hpart; by right|done]. }
    split; [by eauto|]. intros l' Hl' Hid.
    assert (l' = l) as ->.
    { apply (wf_ids _ Hwf); [|by eapply wf_plane|congruence].
      eapply wf_plane, Hpart; [done|by left]. }
    case_decide as Hd; [by eapply Hdis|].
    destruct (wf_plane _ Hwf _ _ Hin) as [_ Hp']. subst p'. apply Hd.
    eapply wf_plane, Hpart; [done|by left].
Qed.

Lemma mirrors_register es cm connID now planeType planeID conn validCRs cert inter :
  index_wf cm → fresh_id cm connID → mirrors es cm →
  mirrors (mirrorStep es (OnAgentRegistered (slash planeType planeID) connID validCRs))
    (Register cm connID now planeType planeID conn validCRs cert inter).1.
Proof.
  intros Hwf Hfresh Hm.
  destruct (Register_fields cm connID now planeType planeID conn validCRs cert inter)
    as (R1 & _ & R3 & _).
  set (cm' := (Register _ _ _ _ _ _ _ _ _).1) in *. set (p := slash planeType planeID) in *.
  pose proof (λ p', conns_of_insert cm cm' p _ p' R3) as Rc. clearbody cm'.
  assert (Hold : ∀ p' l, l ∈ conns_of cm p' → l < next cm) by (intros p' l Hl; by eapply wf_plane).
  intros c e. simpl. rewrite lookup_insert_Some, (Hm c e). split.
  - intros [[<- <-]|(Hne & p' & l & Hl & <- & ->)].
    + exists p, (next cm). rewrite Rc, R1, !decide_True by done.
      split_and!; [apply elem_of_app; right; by left|done|done].
    + exists p', l. rewrite R1, decide_False by (apply Hold in Hl; lia).
      split_and!; [|done|done]. rewrite Rc. case_decide as Hd; [|done].
      rewrite Hd in Hl. apply elem_of_app. by left.
  - intros (p' & l & Hl & Hid & ->).
    assert (Hcase : l = next cm ∨ l ∈ conns_of cm p').
    { rewrite Rc in Hl. case_decide as Hd; [rewrite Hd|by right].
      apply elem_of_app in Hl as [Hl|Hl%list_elem_of_singleton]; auto. }
    rewrite R1 in Hid |- *. destruct Hcase as [->|Hin].
    + rewrite decide_True in Hid |- * by done. simpl in Hid. subst c. by left.
    + pose proof (Hold _ _ Hin) as Hlt. rewrite decide_False in Hid |- * by lia.
      right. split; [|by eauto]. intros ->. by apply (Hfresh l).
Qed.

Lemma mirrors_update es cm cm' p l :
  index_wf cm → l ∈ conns_of cm p → (∀ p', conns_of cm' p' = conns_of cm p') →
  (∀ l', l' ≠ l → heap cm' l' = heap cm l') → ID (heap cm' l) = ID (heap cm l) →
  mirrors es cm → mirrors (<[ID (heap cm' l) := entry_of (heap cm' l)]> es) cm'.
Proof.
  intros Hwf Hl Hc Hh Hid Hm c e. rewrite lookup_insert_Some, (Hm c e), Hid. split.
  - intros [[<- <-]|(Hne & p' & l' & Hl' & <- & ->)].
    + exists p, l. by rewrite Hc.
    + exists p', l'. rewrite Hc, Hh by (by intros ->). done.
  - intros (p' & l' & Hl' & Hid' & ->). rewrite Hc in Hl'.
    destruct (decide (l' = l)) as [->|Hne]; [left; by rewrite <- Hid|]. right.
    rewrite Hh in Hid' |- * by done. split; [|by eauto]. intros Heq. apply Hne.
    apply (wf_ids _ Hwf); [by eapply wf_plane|by eapply wf_plane|congruence].
Qed.

Lemma revalidateConn_mirrors es cm p cr pool counts l :
  index_wf cm → l ∈ conns_of cm p → mirrors es cm →
  ∃ evs, events (revalidateConn cm p cr pool counts l).1 = emit cm evs ∧
    mirrors (foldl mirrorStep es evs) (revalidateConn cm p cr pool counts l).1.
Proof.
  intros Hwf Hl Hm. destruct (wf_plane _ Hwf _ _ Hl) as [Hlt Hpl].
  unfold revalidateConn.
  pose proof (UpdateCRValidity_identity (heap cm l) cr pool) as Hid.
  pose proof (UpdateCRValidity_same (heap cm l) cr pool) as Hsame.
  destruct (UpdateCRValidity (heap cm l) cr pool) as [ac [[granted revoked] err]].
  simpl in Hid, Hsame. cbn [fst]. set (cm1 := store_conn cm l ac).
  assert (Hh : heap cm1 l = ac) by (unfold cm1; simpl; by rewrite decide_True).
  assert (Hh' : ∀ l', l' ≠ l → heap cm1 l' = heap cm l')
    by (intros l' Hne; unfold cm1; simpl; by rewrite decide_False).
  destruct (granted || revoked).
  - set (ev := OnAgentCRsChanged p (ID (heap cm1 l)) (GetValidCRs (heap cm1 l))).
    destruct (notify_fields cm1 ev) as (N1 & _ & N3 & _). exists [ev].
    split; [by rewrite notify_events|].
    assert (Hins : mirrorStep es ev =
      <[ID (heap (notify cm1 ev) l) := entry_of (heap (notify cm1 ev) l)]> es).
    { rewrite N1. unfold ev, entry_of. cbn [mirrorStep]. rewrite Hh, <- Hpl.
      by rewrite Hid. }
    change (foldl mirrorStep es [ev]) with (mirrorStep es ev). rewrite Hins.
    apply (mirrors_update es cm (notify cm1 ev) p l); rewrite ?N1; try done.
    + intros p'. unfold conns_of. by rewrite N3.
    + by rewrite Hh, Hid.
  - exists []. split; [unfold emit; simpl; rewrite app_nil_r; by case_goal|]. simpl.
    apply (mirrors_ext es cm); [done| |done]. intros l'.
    destruct (decide (l' = l)) as [->|Hne]; [by rewrite Hh, Hsame|by rewrite Hh'].
Qed.

Lemma revalidateLoop_mirrors es cm p cr pool counts conns :
  cr ≠ "" → index_wf cm → (∀ l, l ∈ conns → l ∈ conns_of cm p) → mirrors es cm →
  ∃ evs, events (revalidateLoop cm p cr pool counts conns).1 = emit cm evs ∧
    mirrors (foldl mirrorStep es evs) (revalidateLoop cm p cr pool counts conns).1.
Proof.
  intros Hcr. revert es cm counts. induction conns as [|l conns IH]; intros es cm counts Hwf Hin Hm.
  { exists []. split; [unfold emit; rewrite app_nil_r; by case_goal|done]. }
  destruct (revalidateConn_mirrors es cm p cr pool counts l Hwf) as (evs1 & He1 & Hm1);
    [apply Hin; by left|done|].
  pose proof (gw_conn_index cm p cr pool counts l Hcr Hwf) as Hwf1.
  pose proof (revalidateConn_fields cm p cr pool counts l) as Hf. simpl.
  destruct (revalidateConn cm p cr pool counts l) as [cm1 counts1]. simpl in *.
  destruct Hf as (_ & _ & R3 & _ & R5 & _).
  destruct (IH (foldl mirrorStep es evs1) cm1 counts1 Hwf1) as (evs2 & He2 & Hm2); [|done|].
  { intros l' Hl'. unfold conns_of. rewrite R3. apply Hin. by right. }
  exists (evs1 ++ evs2). rewrite foldl_app. split; [|done].
  rewrite He2. unfold emit in *. rewrite R5, He1. destruct (listening cm); [|done].
  by rewrite app_assoc.
Qed.

Definition mirror_inv cm : Prop :=
  index_wf cm ∧ listening cm = true ∧ mirrors (foldl mirrorStep ∅ (events cm)) cm.

Lemma mirror_emit cm cm' evs :
  listening cm = true → listening cm' = listening cm → events cm' = emit cm evs → index_wf cm' →
  mirrors (foldl mirrorStep (foldl mirrorStep ∅ (events cm)) evs) cm' → mirror_inv cm'.
Proof.
  intros Hl Hl' He Hwf Hm. split; [done|]. split; [congruence|].
  rewrite He. unfold emit. by rewrite Hl, foldl_app.
Qed.

Lemma rotate_key_fields cm key conns :
  let cm' := (rotate_key cm key conns).1 in
  heap cm' = heap cm ∧ connections cm' = connections cm ∧ listening cm' = listening cm ∧
  events cm' = events cm.
Proof. unfold rotate_key. by case_goal. Qed.

Lemma mirror_quiet cm cm' :
  (∀ p, conns_of cm' p = conns_of cm p) → (∀ l, entry_of (heap cm' l) = entry_of (heap cm l)) →
  listening cm' = listening cm → events cm' = events cm → index_wf cm' →
  mirror_inv cm → mirror_inv cm'.
Proof.
  intros Hc Hh Hl He Hwf (_ & Hli & Hm). split; [done|]. split; [congruence|].
  rewrite He. by eapply mirrors_ext.
Qed.

Lemma removed_mirror cm cm' p rest gone :
  removed_from cm cm' p rest gone → index_wf cm' → conns_of cm p ≡ₚ gone ++ rest →
  mirror_inv cm → mirror_inv cm'.
Proof.
  intros R Hwf' Hperm (Hwf & Hli & Hm).
  eapply mirror_emit; [done|by eapply rf_listening|by eapply rf_events|done|].
  eapply mirrors_removed; [done|done|by apply wf_nodup|done|done].
Qed.

Lemma op_step_mirror cm cm' : op_step cm cm' → index_wf cm' → mirror_inv cm → mirror_inv cm'.
Proof.
  destruct 1 as [cm connID now planeType planeID conn crs cert inter Hf Hc|cm p connID|cm p|cm p cr|
    cm now p connID|cm planeType planeID]; intros Hwf' Hi.
  - destruct Hi as (Hwf & Hli & Hm).
    destruct (Register_fields cm connID now planeType planeID conn crs cert inter)
      as (_ & _ & _ & _ & R5 & R6).
    eapply mirror_emit; [done|done|done|done|]. by apply mirrors_register.
  - pose proof (Unregister_removed cm p connID) as Hu.
    destruct (connections cm !! p) as [conns|] eqn:Hp; [|by rewrite Hu].
    destruct (find_conn (heap cm) conns connID) as [i|]; [|by rewrite Hu].
    destruct Hu as (l & Hl & _ & R). eapply removed_mirror; [done|done| |done].
    unfold conns_of. rewrite Hp. simpl. by rewrite <- (delete_Permutation _ _ _ Hl).
  - revert Hi Hwf'. unfold Get. destruct (connections cm !! p) as [[|l conns]|]; [done| |done].
    destruct (rotate_key_fields cm p (l :: conns)) as (R1 & R2 & R3 & R4).
    intros Hi Hwf'. eapply mirror_quiet; [|by rewrite R1|done|done|done|done].
    intros p'. unfold conns_of. by rewrite R2.
  - revert Hi Hwf'. destruct (decide (authorizedConns cm p cr = [])) as [Hn|Hn].
    { by destruct (GetForCR_None _ _ _ Hn) as [m ->]. }
    rewrite GetForCR_Some by done.
    destruct (rotate_key_fields cm (slash p cr) (authorizedConns cm p cr)) as (R1 & R2 & R3 & R4).
    intros Hi Hwf'. eapply mirror_quiet; [|by rewrite R1|done|done|done|done].
    intros p'. unfold conns_of. by rewrite R2.
  - revert Hi Hwf'. unfold UpdateConnectionLastSeen.
    destruct (connections cm !! p) as [conns|]; [|done].
    destruct (find_conn (heap cm) conns connID) as [i|]; [|done].
    intros Hi Hwf'. apply (mirror_quiet cm); [done| |done|done|done|done].
    intros l. simpl. by case_decide; subst.
  - destruct (Disconnect_removed cm planeType planeID) as [[_ Heq]|R]; [by rewrite Heq|].
    eapply removed_mirror; [done|done|by rewrite app_nil_r|done].
Qed.

Lemma RevalidateCR_mirror cm planeType planeID ns name ca :
  index_wf (RevalidateCR cm planeType planeID ns name ca).1 → mirror_inv cm →
  mirror_inv (RevalidateCR cm planeType planeID ns name ca).1.
Proof.
  unfold RevalidateCR, revalidateSnapshot. set (p := slash planeType planeID).
  destruct (conns_of cm p) as [|l conns] eqn:Hconns; [done|].
  destruct (AppendCertsFromPEM NewCertPool ca) as [pool ok]. destruct ok; [|done].
  intros Hwf' (Hwf & Hli & Hm). revert Hwf'. rewrite <- Hconns.
  destruct (revalidateLoop_mirrors _ cm p (slash ns name) pool (0, 0) (conns_of cm p)
    (slash_nonempty ns name) Hwf (λ l Hl, Hl) Hm) as (evs & He & Hm').
  pose proof (revalidateLoop_fields cm p (slash ns name) pool (0, 0) (conns_of cm p)
    (wf_nodup _ Hwf p)) as Hf.
  destruct (revalidateLoop cm p _ pool (0, 0) (conns_of cm p)) as [cm1 counts]. cbn [fst snd] in *.
  destruct Hf as (_ & _ & _ & _ & R5 & _).
  destruct (revalidateCleanup_fields cm1 p (slash ns name) counts.2) as (C1 & _ & C3 & C4 & _ & C6).
  intros Hwf'. eapply (mirror_emit cm _ evs); [done|congruence|congruence|done|].
  eapply mirrors_ext; [|by rewrite C1|done]. intros p'. unfold conns_of. by rewrite C3.
Qed.

(** C37: as long as re-validations are not interleaved with other calls, the
    entries a replica publishes in the mesh are exactly its registered
    connections, each with its plane and the CRs it is authorised for. *)
Theorem mesh_mirrors_connections mem self r cm c e :
  rtc seq_step (initial_manager mem true) cm →
  localEntries (mirrored (NewMesh self r) (events cm)) !! c = Some e ↔
  ∃ p l, l ∈ conns_of cm p ∧ ID (heap cm l) = c ∧ e = entry_of (heap cm l).
Proof.
  intros Hrun.
  assert (Hinv : mirror_inv cm ∧ rtc gw_step (initial_manager mem true, []) (cm, [])).
  { revert Hrun. apply (rtc_ind_r (R := seq_step) (λ cm, mirror_inv cm ∧
      rtc gw_step (initial_manager mem true, []) (cm, [])) (initial_manager mem true)).
    - split; [|done]. split; [apply (inv_index _ (initial_gw_inv mem true))|]. split; [done|].
      intros c' e'. simpl. rewrite lookup_empty. split; [done|].
      intros (p & l & Hl & _). unfold conns_of in Hl. simpl in Hl. rewrite lookup_empty in Hl.
      by apply elem_of_nil in Hl.
    - intros cm1 cm2 _ Hst [Hm Hg].
      assert (Hg2 : rtc gw_step (initial_manager mem true, []) (cm2, []))
        by (etrans; [done|by apply seq_step_run]).
      split; [|done]. pose proof (inv_index _ (reachable_gw_inv _ _ _ Hg2)) as Hwf2.
      destruct Hst; [by eapply op_step_mirror|by eapply RevalidateCR_mirror]. }
  destruct Hinv as [(_ & _ & Hm) _]. rewrite mirrored_entries. apply Hm.
Qed.

(** With a departure in between, a re-validation resurrects the connection
    in the mesh: it works on a snapshot of the plane's connections, so that an
    agent that left in the meantime is granted the CR and published again,
    while no connection is left and no later call will take the entry back. *)
Theorem revalidation_resurrects mem self r connID planeType planeID cert inter ns name ca pool :
  AppendCertsFromPEM NewCertPool ca = (pool, true) →
  Verify cert (mkVerifyOptions pool inter true) = None →
  ∃ cm, rtc gw_step (initial_manager mem true, []) (cm, []) ∧ connections cm = ∅ ∧
    localEntries (mirrored (NewMesh self r) (events cm)) =
      {[connID := mkEntry (slash planeType planeID) connID [slash ns name]]}.
Proof.
  intros Hca Hver. set (p := slash planeType planeID).
  set (cm0 := initial_manager mem true).
  set (cm1 := (Register cm0 connID 0 planeType planeID 0 [] cert inter).1).
  set (cm2 := Unregister cm1 p connID).
  set (rc := revalidateConn cm2 p (slash ns name) pool (0, 0) 0).
  assert (Hc0 : conns_of cm0 p = []) by (unfold conns_of; simpl; by rewrite lookup_empty).
  assert (Hc1 : connections cm1 = {[p := [0]]}).
  { unfold cm1, Register. simpl. fold p cm0. rewrite Hc0. apply insert_empty. }
  assert (Hs1 : revalidateSnapshot cm1 p = [0]).
  { unfold revalidateSnapshot, conns_of. by rewrite Hc1, lookup_singleton_eq. }
  assert (Hh1 : heap cm1 0 = mkAgentConnection connID 0 planeType planeID p 0 0 [] cert inter)
    by done.
  assert (Hu : cm2 = notify (cleanupPerCRRoundRobinKeys
      (mkCM (heap cm1) 1 ∅ ∅ true [OnAgentRegistered p connID []] [0]) p)
      (OnAgentUnregistered p connID)).
  { unfold cm2, Unregister. rewrite Hc1, lookup_singleton_eq. cbn [find_conn].
    rewrite Hh1. cbn [ID]. rewrite String.eqb_refl. cbn [nth take drop app length Nat.eqb].
    rewrite Hh1. unfold with_roundRobin at 1, with_connections, close_conn.
    cbn [heap next connections roundRobin listening events closed].
    by rewrite Hc1, insert_singleton_eq, delete_singleton_eq. }
  assert (Hrc : events rc.1 = [OnAgentRegistered p connID []; OnAgentUnregistered p connID;
      OnAgentCRsChanged p connID [slash ns name]] ∧ connections rc.1 = ∅ ∧ rc.2 = (1, 0)).
  { assert (Hup : UpdateCRValidity (heap cm2 0) (slash ns name) pool =
      (mkAgentConnection connID 0 planeType planeID p 0 0 [slash ns name] cert inter,
       (true, false, None))).
    { rewrite Hu. change (heap (notify _ _) 0) with (heap cm1 0). rewrite Hh1.
      unfold UpdateCRValidity, verifyOptions. cbn. by rewrite Hver. }
    unfold rc, revalidateConn. rewrite Hup, Hu. done. }
  destruct Hrc as (He & Hc & Hn).
  exists (revalidateCleanup rc.1 p (slash ns name) rc.2.2).
  assert (Hclean : revalidateCleanup rc.1 p (slash ns name) rc.2.2 = rc.1) by by rewrite Hn.
  rewrite Hclean. split_and!; [|done|].
  - eapply rtc_l; [apply gw_op, op_register; [intros l Hl; simpl in Hl; lia|apply not_elem_of_nil]|].
    fold cm1. eapply rtc_l; [by apply (gw_begin cm1 [] planeType planeID ns name ca pool)|].
    fold p. rewrite Hs1. eapply rtc_l; [apply gw_op, (op_unregister cm1 p connID)|].
    eapply rtc_l; [apply (gw_conn cm2 [] [])|]. fold rc.
    eapply rtc_l; [apply (gw_end _ [] [])|]. simpl. by rewrite Hclean.
  - rewrite mirrored_entries, He. simpl. by rewrite insert_empty, delete_singleton_eq, insert_empty.
Qed.

(** ** Connecting and re-validating agree *)

Section Connect.
Context {MR : MapRange} {ML : MapRangeLaws}.

Lemma verifyClientCertificatePerCR_elem crs cert inter planeType planeID valid :
  verifyClientCertificatePerCR (Ok crs) cert inter planeType planeID = Ok valid →
  ∀ cr, cr ∈ valid ↔ ∃ ca, crs !! cr = Some ca ∧ validForCA cert inter ca = true.
Proof.
  unfold verifyClientCertificatePerCR. destruct (Nat.eqb _ 0); [done|].
  intros Hv. assert (valid = (List.filter (λ kv, validForCA cert inter kv.2) (map_range crs)).*1) as ->.
  { destruct ((List.filter _ _).*1); [done|]. congruence. }
  intros cr. rewrite list_elem_of_fmap. split.
  - intros ([cr' ca] & -> & [Hin Hva]%list_elem_of_In%filter_In).
    apply list_elem_of_In in Hin. rewrite map_range_perm, elem_of_map_to_list in Hin. eauto.
  - intros (ca & Hl & Hva). exists (cr, ca). split; [done|].
    apply list_elem_of_In, filter_In. split; [|done]. apply list_elem_of_In.
    by rewrite map_range_perm, elem_of_map_to_list.
Qed.

(** An agent is accepted exactly for the CRs of the plane whose CA verifies
    its certificate, and for at least one; and the incremental re-validation of
    one of the plane's CRs with the CA it had when the agent connected neither
    grants nor revokes anything on the new connection. *)
Theorem connect_agrees_with_revalidation cm crs cert certs connID now conn planeType planeID cm' id :
  acceptAgent cm (Ok crs) cert certs connID now conn planeType planeID = (cm', Ok id) →
  let ac := heap cm' (next cm) in
  ID ac = connID ∧ next cm ∈ conns_of cm' (slash planeType planeID) ∧
  (∃ cr, IsValidForCR ac cr = true) ∧
  ∀ cr ca, crs !! cr = Some ca →
    IsValidForCR ac cr = validForCA cert (buildIntermediatePool certs) ca ∧
    ∀ data pool, ca = Some data → AppendCertsFromPEM NewCertPool data = (pool, true) →
      UpdateCRValidity ac cr pool = (ac, (false, false, None)).
Proof.
  unfold acceptAgent.
  destruct (verifyClientCertificatePerCR (Ok crs) cert (buildIntermediatePool certs) planeType planeID)
    as [valid|] eqn:Hv; [|done].
  intros Hreg. set (ac := heap cm' (next cm)).
  destruct (Register_fields cm connID now planeType planeID conn valid cert (buildIntermediatePool certs))
    as (R1 & _ & R3 & _). rewrite Hreg in R1, R3. cbn [fst] in R1, R3.
  assert (Hac : ac = mkAgentConnection connID conn planeType planeID (slash planeType planeID) now now
    valid cert (buildIntermediatePool certs)) by (unfold ac; by rewrite R1, decide_True).
  pose proof (verifyClientCertificatePerCR_elem _ _ _ _ _ _ Hv) as Hel.
  assert (Hvalid : ∀ cr ca, crs !! cr = Some ca →
    IsValidForCR ac cr = validForCA cert (buildIntermediatePool certs) ca).
  { intros cr ca Hcr. apply eq_bool_prop_intro. unfold IsValidForCR. rewrite bool_decide_spec, Hac.
    simpl. rewrite Hel, Is_true_true. naive_solver. }
  split_and!.
  - by rewrite Hac.
  - rewrite (conns_of_insert cm cm' _ _ _ R3), decide_True by done.
    apply elem_of_app. right. by left.
  - unfold verifyClientCertificatePerCR in Hv. destruct (Nat.eqb _ 0); [done|].
    destruct (List.filter _ _) as [|[cr ca] rest] eqn:Hfil; [done|]. injection Hv as <-.
    exists cr. rewrite Hac. apply bool_decide_eq_true. by left.
  - intros cr ca Hcr. split; [by apply Hvalid|]. intros data pool -> Hpem.
    specialize (Hvalid _ _ Hcr). simpl in Hvalid. rewrite Hpem in Hvalid.
    unfold UpdateCRValidity. fold (IsValidForCR ac cr). rewrite Hvalid.
    rewrite Hac. unfold verifyOptions. simpl. by destruct (Verify _ _).
Qed.

End Connect.

(** ** Rebalancing *)

(** A cycle of rebalancing sheds at most three connections, sheds exactly
    when there is another pod and this one holds more than its fair share and
    the slack, and never goes below them. *)
Theorem rebalance_keeps_fair_share local self counts :
  let peerCounts := delete self counts in
  let pods := size peerCounts + 1 in
  let total := map_fold (λ _ n total, total + n) local peerCounts in
  let fairShare := (total + pods - 1) / pods in
  let shed := rebalanceShed local self counts in
  shed ≤ rebalanceMaxShedPerCycle ∧
  (0 < shed ↔ 2 ≤ pods ∧ fairShare + rebalanceSlack < local) ∧
  (0 < shed → fairShare + rebalanceSlack ≤ local - shed).
Proof.
  intros peerCounts pods total fairShare shed. unfold shed, rebalanceShed.
  fold peerCounts. fold pods. fold total. fold fairShare.
  assert (Htotal : local ≤ total).
  { unfold total. apply (map_fold_weak_ind (λ t _, local ≤ t)); [lia|]. intros; lia. }
  unfold rebalanceMaxShedPerCycle, rebalanceSlack.
  destruct (Nat.ltb_spec pods 2) as [|Hp]; [split_and!; lia|].
  destruct (Nat.eqb_spec total 0) as [Hz|]; [split_and!; lia|].
  destruct (Nat.leb_spec local (fairShare + 1)) as [|Hl]; [split_and!; lia|].
  pose proof (Nat.Div0.div_le_upper_bound (local - (fairShare + 1) + 1) 2 (local - (fairShare + 1)) ltac:(lia)).
  split_and!; lia.
Qed.

End Spec.
