(* ===== verification/GatewayWitness.v ===== *)
(** * The gateway theorems at work

    Certificates that name the authority that signed them, a plane with two
    agents, and the theorems of the gateway applied to concrete runs. *)

From S2P Require Import Prelude GoStrings GatewayConn GatewayConnSpec GatewayReach.
From S2P Require Import FabricMesh FabricSpec GatewayServer GatewayServerSpec.

Open Scope go_scope.

(** A certificate is the name of its issuer; a pool is a list of authorities;
    an empty PEM block is unreadable. *)
#[global] Instance named_x509 : X509 := {
  Certificate := string;
  CertPool := list string;
  NewCertPool := [];
  AddCert pool cert := cert :: pool;
  AppendCertsFromPEM pool data :=
    if String.eqb data "" then (pool, false) else (data :: pool, true);
  Verify cert opts :=
    if bool_decide (cert ∈ Roots opts) then None
    else Some "x509: certificate signed by unknown authority";
}.

#[global] Instance list_range : MapRange := λ A m, map_to_list m.
#[global] Instance list_range_laws : MapRangeLaws.
Proof. intros A m. done. Qed.

Definition blank : AgentConnection :=
  mkAgentConnection "" 0 "" "" "" 0 0 [] "" None.

Definition cm0 : ConnectionManager := initial_manager (λ _, blank) true.
Definition cm1 : ConnectionManager :=
  (Register cm0 "c1" 10 "dataplane" "dp" 1 ["ns/a"] "old" None).1.
Definition cm2 : ConnectionManager :=
  (Register cm1 "c2" 20 "dataplane" "dp" 2 ["ns/a"; "ns/b"] "new" None).1.
Definition cm3 : ConnectionManager := (GetForCR cm2 "dataplane/dp" "ns/a").1.
Definition cm4 : ConnectionManager := (RevalidateCR cm3 "dataplane" "dp" "ns" "a" "new").1.

Lemma fresh_c1 : fresh_id cm0 "c1".
Proof. intros l Hl. simpl in Hl. lia. Qed.

Lemma fresh_c2 : fresh_id cm1 "c2".
Proof. intros l Hl. change (l < 1) in Hl. assert (l = 0) as -> by lia. by vm_compute. Qed.

Lemma register_c1 : op_step cm0 cm1.
Proof. apply op_register; [apply fresh_c1|by vm_compute; set_solver]. Qed.

Lemma register_c2 : op_step cm1 cm2.
Proof. apply op_register; [apply fresh_c2|by vm_compute; set_solver]. Qed.

Lemma serve_a : op_step cm2 cm3.
Proof. apply op_getForCR. Qed.

Lemma RevalidateCR_correct_witness :
  conns_of cm3 "dataplane/dp" = [0; 1] ∧
  ∃ cm', RevalidateCR cm3 "dataplane" "dp" "ns" "a" "new" = (cm', Ok (0, 1)) ∧
    authorizedConns cm' "dataplane/dp" "ns/a" = [1].
Proof.
  split; [vm_compute; reflexivity|].
  destruct (RevalidateCR_correct cm3 "dataplane" "dp" "ns" "a" "new" ["new"])
    as (cm' & Hr & _ & _ & Ha & _).
  - vm_compute. repeat constructor; set_solver.
  - reflexivity.
  - exists cm'. split; [exact Hr|exact Ha].
Defined.

(** A re-validation is running: it has revoked the CR of the first agent. *)
Definition cm5 : ConnectionManager :=
  (revalidateConn cm3 "dataplane/dp" "ns/a" ["new"] (0, 0) 0).1.
Definition running : revalidation :=
  mkRevalidation "dataplane/dp" "ns/a" ["new"] (0, 1) [1].

Lemma run_to_cm5 : rtc gw_step (cm0, []) (cm5, [running]).
Proof.
  eapply rtc_l; [apply gw_op, register_c1|].
  eapply rtc_l; [apply gw_op, register_c2|].
  eapply rtc_l; [apply gw_op, serve_a|].
  eapply rtc_l; [by apply (gw_begin cm3 [] "dataplane" "dp" "ns" "a" "new" ["new"])|].
  apply rtc_once. exact (gw_conn cm3 [] [] "dataplane/dp" "ns/a" ["new"] (0, 0) 0 [1]).
Qed.

Lemma manager_invariant_witness :
  roundRobin cm5 !! "dataplane/dp/ns/a" = Some 1 ∧
  (live cm5 "dataplane/dp/ns/a" ∨ cleanup_due [running] "dataplane/dp/ns/a").
Proof.
  split; [vm_compute; reflexivity|].
  destruct (manager_invariant (λ _, blank) true cm5 [running] run_to_cm5) as (_ & _ & Hk & _).
  apply (Hk _ 1). vm_compute. reflexivity.
Defined.

Lemma mesh_mirrors_connections_witness :
  localEntries (mirrored (NewMesh "pod-a" NewRegistry) (events cm4)) !! "c1"
    = Some (mkEntry "dataplane/dp" "c1" []) ∧
  ∃ p l, l ∈ conns_of cm4 p ∧ ID (heap cm4 l) = "c1" ∧
    mkEntry "dataplane/dp" "c1" [] = entry_of (heap cm4 l).
Proof.
  assert (Hl : localEntries (mirrored (NewMesh "pod-a" NewRegistry) (events cm4)) !! "c1"
    = Some (mkEntry "dataplane/dp" "c1" [])) by (vm_compute; reflexivity).
  split; [exact Hl|].
  apply (mesh_mirrors_connections (λ _, blank) "pod-a" NewRegistry cm4 "c1"); [|exact Hl].
  eapply rtc_l; [apply seq_op, register_c1|].
  eapply rtc_l; [apply seq_op, register_c2|].
  eapply rtc_l; [apply seq_op, serve_a|].
  apply rtc_once, seq_revalidate.
Defined.

Lemma revalidation_resurrects_witness :
  ∃ cm, rtc gw_step (initial_manager (λ _, blank) true, []) (cm, []) ∧ connections cm = ∅ ∧
    localEntries (mirrored (NewMesh "pod-a" NewRegistry) (events cm)) =
      {["c1" := mkEntry "dataplane/dp" "c1" ["ns/a"]]}.
Proof.
  apply (revalidation_resurrects (λ _, blank) "pod-a" NewRegistry "c1" "dataplane" "dp" "new" None
    "ns" "a" "new" ["new"]); reflexivity.
Defined.

Definition plane_crs : gmap string (option string) :=
  {["ns/a" := Some "new"; "ns/b" := Some "old"; "ns/c" := None]}.

Lemma connect_agrees_with_revalidation_witness :
  UpdateCRValidity (heap (acceptAgent cm0 (Ok plane_crs) "new" [] "c9" 5 9 "dataplane" "dp").1 0)
    "ns/b" ["old"] =
  (heap (acceptAgent cm0 (Ok plane_crs) "new" [] "c9" 5 9 "dataplane" "dp").1 0,
   (false, false, None)).
Proof.
  assert (Hacc : acceptAgent cm0 (Ok plane_crs) "new" [] "c9" 5 9 "dataplane" "dp" =
    ((acceptAgent cm0 (Ok plane_crs) "new" [] "c9" 5 9 "dataplane" "dp").1, Ok "c9"))
    by (vm_compute; reflexivity).
  destruct (connect_agrees_with_revalidation cm0 plane_crs "new" [] "c9" 5 9 "dataplane" "dp"
    _ _ Hacc) as (_ & _ & _ & H).
  destruct (H "ns/b" (Some "old") eq_refl) as [_ Hu].
  exact (Hu "old" ["old"] eq_refl eq_refl).
Defined.

(** ** Replication *)

Definition e1 : AgentEntry := mkEntry "dataplane/dp" "c1" ["ns/a"].
Definition e2 : AgentEntry := mkEntry "dataplane/dp" "c2" ["ns/a"].

Definition a0 : Mesh := NewMesh "pod-a" NewRegistry.
Definition b0 : Mesh := NewMesh "pod-b" NewRegistry.
Definition a1 : Mesh := LocalUpsert a0 e1.
Definition d1 : meshFrame := deltaFrame (mkDelta DeltaOpAdd "pod-a" 1 e1).
Definition a2 : Mesh := with_local a0 1 {["c1" := e1]}.
Definition b1 : Mesh := (handleFrame b0 "pod-a" d1).1.

(** One connection, published and followed. *)
Definition w1 : World := mkWorld a2 [d1] b1 [∅; {["c1" := e1]}].

Lemma run_to_w1 : rtc world_step (initial "pod-a" "pod-b" NewRegistry) w1.
Proof.
  eapply rtc_l; [apply (w_upsert a0 [] b0 [∅] e1); by vm_compute|].
  eapply rtc_l; [apply (w_broadcast a1 [] b0 _ d1 [] a2); by vm_compute|].
  apply rtc_once. exact (w_deliver a2 [d1] b0 _ d1 ltac:(by left)).
Qed.

Lemma replica_view_is_history_witness :
  view b1 "pod-a" = Some (mkOwnerState 1 false {["c1" := e1]}) ∧
  ({["c1" := e1]} : gmap string AgentEntry) = localEntries a2.
Proof.
  assert (Hv : view b1 "pod-a" = Some (mkOwnerState 1 false {["c1" := e1]}))
    by (vm_compute; reflexivity).
  split; [exact Hv|].
  destruct (replica_view_is_history "pod-a" "pod-b" NewRegistry w1 _ eq_refl run_to_w1 Hv)
    as [_ Hnow].
  apply Hnow. reflexivity.
Defined.

(** The first delta is delivered again, out of order: it is refused. *)
Lemma replica_repairs_witness :
  (handleFrame b1 "pod-a" d1).2 = [SendBack (emptyFrame frameSnapshotReq)] ∧
  ∃ answer, (handleFrame a2 "pod-b" (emptyFrame frameSnapshotReq)).2 = [SendBack answer] ∧
    ∃ st, view (handleFrame b1 "pod-a" answer).1 "pod-a" = Some st ∧
      seq st = localSeq a2 ∧ entries st = localEntries a2.
Proof.
  pose proof (replica_repairs "pod-a" "pod-b" NewRegistry w1 (mkDelta DeltaOpAdd "pod-a" 1 e1)
    eq_refl run_to_w1 ltac:(by left)) as H.
  change (B w1) with b1 in H. change (self (A w1)) with "pod-a" in H. change (A w1) with a2 in H.
  assert (He : handleFrame b1 "pod-a" (deltaFrame (mkDelta DeltaOpAdd "pod-a" 1 e1))
    = (b1, [SendBack (emptyFrame frameSnapshotReq)])) by (vm_compute; reflexivity).
  rewrite He in H. change (self b1) with "pod-b" in H.
  destruct H as [[H _]|(_ & _ & H)]; [discriminate H|].
  split; [vm_compute; reflexivity|exact H].
Defined.

Lemma late_snapshot_resurrects_witness :
  ∃ d1 d2, outbox (LocalRemove (LocalUpsert (NewMesh "pod-a" NewRegistry) e1) "dataplane/dp" "c1")
    = [d1; d2].
Proof.
  destruct (late_snapshot_resurrects "pod-a" "pod-b" "dataplane/dp" "c1" ["ns/a"])
    as (x1 & x2 & H & _).
  exists x1, x2. exact H.
Defined.

(** ** Routing *)

Definition post : HTTPTunnelRequest := mkTunnelRequest "" "" "k8s" "POST" "/api" "" ∅ "".

(** This pod has no agent; [pod-b] has two, and its answer gets lost. *)
Definition pod : Fleet :=
  mkFleet cm0
    (Some (mkMesh "pod-a" (mkRegistry {["pod-b" := mkOwnerState 2 false
              {["c1" := e1; "c2" := e2]}]} ∅)
       0 ∅ [] {["pod-b" := mkLink (mkPeer "pod-b" "10.0.0.2:9443") true]} ∅ true ∅ ∅ 0))
    "pod-a" {["pod-b" := cm2]} [].

Definition lost : hop := mkHop "id" None true (Replied (mkTunnelResponse "" 201 ∅ "" None)) (Some LinkDown).

Lemma request_authorized_once_witness :
  dispatched (SendHTTPTunnelRequestForCR pod "dataplane/dp" "ns/a" post 1000 TimedOut (λ _, lost)).1
    = [("pod-b", 0)] ∧
  ∃ ds, [("pod-b", 0)] = [] ++ ds ∧ length ds ≤ 1 ∧
    Forall (λ '(pod', l), mayServe cm0 "dataplane/dp" "ns/a" l ∧ pod' = "pod-a" ∨
                         authorized_at pod "dataplane/dp" "ns/a" (pod', l)) ds.
Proof.
  assert (Hd : dispatched (SendHTTPTunnelRequestForCR pod "dataplane/dp" "ns/a" post 1000 TimedOut
    (λ _, lost)).1 = [("pod-b", 0)]) by (vm_compute; reflexivity).
  split; [exact Hd|].
  pose proof (request_authorized_once pod "dataplane/dp" "ns/a" post 1000 TimedOut (λ _, lost)
    ltac:(discriminate)) as H.
  destruct (SendHTTPTunnelRequestForCR pod "dataplane/dp" "ns/a" post 1000 TimedOut (λ _, lost))
    as [f' r]. simpl in Hd.
  destruct H as (ds & H1 & H2 & H3 & _). exists ds. rewrite <- Hd.
  split; [exact H1|]. split; [exact H2|exact H3].
Defined.
