(* ===== verification/RenderErrors.v ===== *)
(** * Render errors and the cost budget

    [internal/template/errors.go] and [internal/template/budget.go]: the errors
    a render returns and how callers classify them, the bounded fragments of
    tenant input that error messages quote, and the budget that CEL evaluation
    is charged against.  An error is its message together with the sentinel
    errors it wraps, which is what [errors.Is] looks at.  The monad [EM] is
    code that mutates a state and may return such an error; [preserves] and
    [agrees] are the rules that carry an invariant, or a relation between two
    runs, through it. *)

From S2P Require Import Prelude GoStrings GoValue.

#[local] Set Warnings "-register-all".

(** ** Errors *)

Inductive sentinel :=
  | ErrNestedExpression
  | ErrCostLimitExceeded
  | ErrCostBudgetExceeded
  | ErrExpansionLimitExceeded
  | Canceled
  | DeadlineExceeded.

#[global] Instance sentinel_eq_dec : EqDecision sentinel.
Proof. solve_decision. Defined.

Definition sentinel_text (s : sentinel) : string :=
  match s with
  | ErrNestedExpression => "nested CEL expressions must be quoted"
  | ErrCostLimitExceeded => "cel expression cost limit exceeded"
  | ErrCostBudgetExceeded => "template render cost budget exceeded"
  | ErrExpansionLimitExceeded => "template expansion limit exceeded"
  | Canceled => "context canceled"
  | DeadlineExceeded => "context deadline exceeded"
  end.

Record goerr := mkErr { Error : string; chain : list sentinel }.

(** [errors.New] and [fmt.Errorf] without a wrapped error. *)
Definition errorf (msg : string) : goerr := mkErr msg [].

(** A sentinel as an error value. *)
Definition sentinelErr (s : sentinel) : goerr := mkErr (sentinel_text s) [s].

(** [fmt.Errorf("<before>%w<after>", err)] *)
Definition wrapf (before : string) (err : goerr) (after : string) : goerr :=
  mkErr (before +:+ Error err +:+ after) (chain err).

(** [fmt.Errorf("<before>%w: %w", err1, err2)] *)
Definition wrap2f (before : string) (err1 err2 : goerr) : goerr :=
  mkErr (before +:+ Error err1 +:+ ": " +:+ Error err2) (chain err1 ++ chain err2).

Definition errors_Is (err : goerr) (s : sentinel) : bool := bool_decide (s ∈ chain err).

Definition newline : string := String "010"%char "".

(** [errors.Join]: nil when there is no error. *)
Definition errors_Join (errs : list goerr) : option goerr :=
  match errs with
  | [] => None
  | _ => Some (mkErr (Join (Error <$> errs) newline) (errs ≫= chain))
  end.

Lemma errors_Join_None errs : errors_Join errs = None ↔ errs = [].
Proof. by destruct errs. Qed.

Definition IsTerminalRenderError (err : goerr) : bool :=
  errors_Is err ErrCostLimitExceeded
  || errors_Is err ErrCostBudgetExceeded
  || errors_Is err ErrExpansionLimitExceeded.

Definition IsRenderAborted (err : goerr) : bool :=
  IsTerminalRenderError err || errors_Is err Canceled || errors_Is err DeadlineExceeded.

(** The classification looks at the sentinels only, which wrapping keeps. *)
Lemma errors_Is_wrapf before err after s : errors_Is (wrapf before err after) s = errors_Is err s.
Proof. done. Qed.

Lemma IsRenderAborted_wrapf before err after :
  IsRenderAborted (wrapf before err after) = IsRenderAborted err.
Proof. done. Qed.

Lemma IsTerminal_aborted err : IsTerminalRenderError err = true → IsRenderAborted err = true.
Proof. unfold IsRenderAborted. by intros ->. Qed.

#[export] Hint Resolve IsTerminal_aborted : go.

(** ** State and render errors *)

Inductive eres (A : Type) : Type :=
  | Val (a : A)
  | Fail (err : goerr).
Arguments Val {A} a.
Arguments Fail {A} err.

Section EMonad.
Context {S : Type}.

(** A computation on a mutable state that returns a value or an error; what
    was done before an error stays done. *)
Definition EM (A : Type) : Type := S → S * eres A.

#[global] Instance EM_ret : MRet EM := λ _ a s, (s, Val a).

#[global] Instance EM_bind : MBind EM := λ _ _ k m s,
  match m s with
  | (s', Val a) => k a s'
  | (s', Fail err) => (s', Fail err)
  end.

Definition throw {A} (err : goerr) : EM A := λ s, (s, Fail err).

(** [if err != nil { return f(err) }] *)
Definition mapErr {A} (f : goerr → goerr) (m : EM A) : EM A := λ s,
  match m s with
  | (s', Fail err) => (s', Fail (f err))
  | r => r
  end.

(** The value or the error, for code that goes on after a failure. *)
Definition try {A} (m : EM A) : EM (eres A) := λ s,
  let r := m s in (r.1, Val r.2).

Definition getS : EM S := λ s, (s, Val s).
Definition putS (s' : S) : EM unit := λ _, (s', Val ()).

Fixpoint eForEach {A} (body : A → EM unit) (l : list A) : EM unit :=
  match l with
  | [] => mret ()
  | x :: l => body x ≫= λ _, eForEach body l
  end.

(** A loop that appends one result per item. *)
Fixpoint eMap {A B} (body : A → EM B) (l : list A) : EM (list B) :=
  match l with
  | [] => mret []
  | x :: l => body x ≫= λ y, eMap body l ≫= λ ys, mret (y :: ys)
  end.

(** The same with the index of the item. *)
Fixpoint eForEachFrom {A} (i : nat) (body : nat → A → EM unit) (l : list A) : EM unit :=
  match l with
  | [] => mret ()
  | x :: l => body i x ≫= λ _, eForEachFrom (1 + i) body l
  end.

(** *** Sequencing *)

Lemma bind_eq {A B} (m : EM A) (k : A → EM B) s :
  (m ≫= k) s = match m s with (s', Val a) => k a s' | (s', Fail err) => (s', Fail err) end.
Proof. done. Qed.

Lemma bind_ext {A B} (m : EM A) (k1 k2 : A → EM B) s :
  (∀ a s', k1 a s' = k2 a s') → (m ≫= k1) s = (m ≫= k2) s.
Proof. intros H. rewrite !bind_eq. by destruct (m s) as [s' [a|e]]. Qed.

Lemma bind_assoc {A B D} (m : EM A) (k1 : A → EM B) (k2 : B → EM D) s :
  ((m ≫= k1) ≫= k2) s = (m ≫= λ a, k1 a ≫= k2) s.
Proof. rewrite !bind_eq. by destruct (m s) as [s' [a|e]]. Qed.

Lemma bind_Val {A B} (m : EM A) (k : A → EM B) s s' b :
  (m ≫= k) s = (s', Val b) ↔ ∃ s1 a, m s = (s1, Val a) ∧ k a s1 = (s', Val b).
Proof. rewrite bind_eq. destruct (m s) as [s1 [a|e]]; naive_solver. Qed.

(** ** Invariants *)

Definition preserves (I : S → Prop) {A} (m : EM A) : Prop := ∀ s, I s → I (m s).1.

Section Preserves.
Context (I : S → Prop).

Lemma preserves_ret {A} (a : A) : preserves I (mret a).
Proof. by intros s Hs. Qed.

Lemma preserves_throw {A} err : preserves I (throw (A := A) err).
Proof. by intros s Hs. Qed.

Lemma preserves_getS : preserves I getS.
Proof. by intros s Hs. Qed.

Lemma preserves_bind {A B} (m : EM A) (k : A → EM B) :
  preserves I m → (∀ a, preserves I (k a)) → preserves I (m ≫= k).
Proof.
  intros Hm Hk s Hs. unfold mbind, EM_bind. specialize (Hm s Hs).
  destruct (m s) as [s' [a|err]]; [by apply Hk|done].
Qed.

Lemma preserves_mapErr {A} f (m : EM A) : preserves I m → preserves I (mapErr f m).
Proof.
  intros Hm s Hs. unfold mapErr. specialize (Hm s Hs). by destruct (m s) as [s' [a|err]].
Qed.

Lemma preserves_try {A} (m : EM A) : preserves I m → preserves I (try m).
Proof. intros Hm s Hs. exact (Hm s Hs). Qed.

Lemma preserves_eForEach {A} (body : A → EM unit) l :
  (∀ x, preserves I (body x)) → preserves I (eForEach body l).
Proof.
  intros Hb. induction l as [|x l IH]; [apply preserves_ret|]. by apply preserves_bind.
Qed.

Lemma preserves_eForEachFrom {A} (body : nat → A → EM unit) i l :
  (∀ i x, preserves I (body i x)) → preserves I (eForEachFrom i body l).
Proof.
  intros Hb. revert i.
  induction l as [|x l IH]; intros i; [apply preserves_ret|]. by apply preserves_bind.
Qed.

Lemma preserves_eMap {A B} (body : A → EM B) l :
  (∀ x, preserves I (body x)) → preserves I (eMap body l).
Proof.
  intros Hb. induction l as [|x l IH]; [apply preserves_ret|].
  apply preserves_bind; [done|]. intros y. apply preserves_bind; [done|]. intros ys.
  apply preserves_ret.
Qed.
End Preserves.

(** ** Relations between two runs *)

(** From related states both runs return the same and end in related states. *)
Definition agrees (R : S → S → Prop) {A} (m : EM A) : Prop :=
  ∀ s1 s2, R s1 s2 → R (m s1).1 (m s2).1 ∧ (m s1).2 = (m s2).2.

Section Agrees.
Context (R : S → S → Prop).

Lemma agrees_ret {A} (a : A) : agrees R (mret a).
Proof. by intros s1 s2 Hs. Qed.

Lemma agrees_throw {A} err : agrees R (throw (A := A) err).
Proof. by intros s1 s2 Hs. Qed.

Lemma agrees_bind {A B} (m : EM A) (k : A → EM B) :
  agrees R m → (∀ a, agrees R (k a)) → agrees R (m ≫= k).
Proof.
  intros Hm Hk s1 s2 Hs. unfold mbind, EM_bind. destruct (Hm s1 s2 Hs) as [Hr Heq].
  destruct (m s1) as [t1 r1], (m s2) as [t2 r2]. cbn [fst snd] in *. subst r2.
  destruct r1 as [a|err]; [by apply Hk|done].
Qed.

Lemma agrees_mapErr {A} f (m : EM A) : agrees R m → agrees R (mapErr f m).
Proof.
  intros Hm s1 s2 Hs. unfold mapErr. destruct (Hm s1 s2 Hs) as [Hr Heq].
  destruct (m s1) as [t1 r1], (m s2) as [t2 r2]. cbn [fst snd] in *. subst r2. by destruct r1.
Qed.

Lemma agrees_try {A} (m : EM A) : agrees R m → agrees R (try m).
Proof.
  intros Hm s1 s2 Hs. destruct (Hm s1 s2 Hs) as [Hr Heq]. split; [done|].
  cbn [try snd]. by rewrite Heq.
Qed.

Lemma agrees_eForEach {A} (body : A → EM unit) l :
  (∀ x, agrees R (body x)) → agrees R (eForEach body l).
Proof. intros Hb. induction l as [|x l IH]; [apply agrees_ret|]. by apply agrees_bind. Qed.

Lemma agrees_eForEachFrom {A} (body : nat → A → EM unit) i l :
  (∀ i x, agrees R (body i x)) → agrees R (eForEachFrom i body l).
Proof.
  intros Hb. revert i. induction l as [|x l IH]; intros i; [apply agrees_ret|]. by apply agrees_bind.
Qed.

Lemma agrees_eMap {A B} (body : A → EM B) l :
  (∀ x, agrees R (body x)) → agrees R (eMap body l).
Proof.
  intros Hb. induction l as [|x l IH]; [apply agrees_ret|].
  apply agrees_bind; [done|]. intros y. apply agrees_bind; [done|]. intros ys. apply agrees_ret.
Qed.
Lemma agrees_eMap_elem {A B} (body : A → EM B) l :
  (∀ x, x ∈ l → agrees R (body x)) → agrees R (eMap body l).
Proof.
  induction l as [|x l IH]; intros Hb; [apply agrees_ret|].
  apply agrees_bind; [apply Hb; left|]. intros y.
  apply agrees_bind; [apply IH; intros z Hz; apply Hb; by right|]. intros ys. apply agrees_ret.
Qed.

Lemma agrees_eForEachFrom_elem {A} (body : nat → A → EM unit) i l :
  (∀ i x, x ∈ l → agrees R (body i x)) → agrees R (eForEachFrom i body l).
Proof.
  revert i. induction l as [|x l IH]; intros i Hb; [apply agrees_ret|].
  apply agrees_bind; [apply Hb; left|]. intros _. apply IH. intros j z Hz. apply Hb. by right.
Qed.
End Agrees.

(** ** What a computation returns *)

(** Every value it returns, from any state, satisfies [Q]. *)
Definition yields {A} (m : EM A) (Q : A → Prop) : Prop := ∀ s a, (m s).2 = Val a → Q a.

Lemma yields_ret {A} (a : A) (Q : A → Prop) : Q a → yields (mret a) Q.
Proof. by intros Ha s b [= <-]. Qed.

Lemma yields_throw {A} err (Q : A → Prop) : yields (throw err) Q.
Proof. by intros s b. Qed.

Lemma yields_with {A B} (m : EM A) (k : A → EM B) (P : A → Prop) (Q : B → Prop) :
  yields m P → (∀ a, P a → yields (k a) Q) → yields (m ≫= k) Q.
Proof.
  intros Hm Hk s b. unfold mbind, EM_bind. specialize (Hm s).
  destruct (m s) as [s' [a|err]]; [|done]. by apply Hk, Hm.
Qed.

Lemma yields_bind {A B} (m : EM A) (k : A → EM B) (Q : B → Prop) :
  (∀ a, yields (k a) Q) → yields (m ≫= k) Q.
Proof. intros Hk. apply (yields_with m k (λ _, True)); [by intros s a|auto]. Qed.

Lemma yields_mapErr {A} f (m : EM A) (Q : A → Prop) : yields m Q → yields (mapErr f m) Q.
Proof. intros Hm s a. unfold mapErr. specialize (Hm s). destruct (m s) as [s1 [b|err]]; [apply Hm|done]. Qed.

Lemma yields_eMap {A B} (body : A → EM B) l (Q : B → Prop) :
  (∀ x, x ∈ l → yields (body x) Q) → yields (eMap body l) (Forall Q).
Proof.
  induction l as [|x l IH]; intros Hb; [by apply yields_ret|].
  eapply yields_with; [apply Hb; left|]. intros y Hy.
  eapply yields_with; [apply IH; intros z Hz; apply Hb; by right|]. intros ys Hys.
  apply yields_ret. by constructor.
Qed.

Lemma agrees_bind_yields (R : S → S → Prop) {A B} (m : EM A) (k : A → EM B) (Q : A → Prop) :
  agrees R m → yields m Q → (∀ a, Q a → agrees R (k a)) → agrees R (m ≫= k).
Proof.
  intros Hm Hy Hk s1 s2 Hs. unfold mbind, EM_bind. destruct (Hm s1 s2 Hs) as [Hr Heq].
  specialize (Hy s1). destruct (m s1) as [t1 r1], (m s2) as [t2 r2]. cbn [fst snd] in *. subst r2.
  destruct r1 as [a|err]; [exact (Hk a (Hy a eq_refl) t1 t2 Hr)|done].
Qed.
End EMonad.
Arguments EM : clear implicits.

(** [render]: the rules by which an invariant or a relation passes through a
    computation of [EM]. *)
Create HintDb render discriminated.

#[export] Hint Resolve preserves_ret preserves_throw preserves_getS preserves_bind
  preserves_mapErr preserves_try preserves_eForEach preserves_eForEachFrom preserves_eMap
  agrees_ret agrees_throw agrees_bind agrees_mapErr agrees_try agrees_eForEach
  agrees_eForEachFrom agrees_eMap : render.

(** Cases on the tests of a computation, then its rules. *)
Ltac render_step :=
  match goal with
  | |- preserves _ (match ?x with _ => _ end) => destruct x eqn:?
  | |- agrees _ (match ?x with _ => _ end) => destruct x eqn:?
  | |- preserves _ (if ?x then _ else _) => destruct x eqn:?
  | |- agrees _ (if ?x then _ else _) => destruct x eqn:?
  | |- preserves _ (_ ≫= _) => apply preserves_bind
  | |- agrees _ (_ ≫= _) => apply agrees_bind
  | |- preserves _ (mapErr _ _) => apply preserves_mapErr
  | |- agrees _ (mapErr _ _) => apply agrees_mapErr
  | |- preserves _ (try _) => apply preserves_try
  | |- agrees _ (try _) => apply agrees_try
  | |- preserves _ (eForEach _ _) => apply preserves_eForEach
  | |- preserves _ (eForEachFrom _ _ _) => apply preserves_eForEachFrom
  | |- preserves _ _ => solve [eauto with render]
  | |- agrees _ _ => solve [eauto with render]
  | |- ∀ _, _ => intros ?
  end.
Ltac render_solve := repeat render_step.

(** ** Bounded fragments *)

Definition maxErrorExprLen : nat := 256.

(** "…(truncated)": the ellipsis is the three bytes E2 80 A6. *)
Definition TruncationMarker : string :=
  String "226"%char (String "128"%char (String "166"%char "(truncated)")).

Definition byte_at (s : string) (i : nat) : ascii := default "000"%char (String.get i s).

(** [utf8.RuneStart]: [b & 0xC0 != 0x80]. *)
Definition RuneStart (b : ascii) : bool :=
  negb (N.land (N_of_ascii b) 192 =? 128)%N.

(** [for cut > 0 && !utf8.RuneStart(s[cut]) { cut-- }] *)
Fixpoint runeCut (s : string) (cut : nat) : nat :=
  match cut with
  | 0 => 0
  | S cut' => if RuneStart (byte_at s cut) then cut else runeCut s cut'
  end.

Definition TruncateTo (s : string) (maxBytes : Z) : string :=
  if (maxBytes <=? 0)%Z then ""
  else if (Z.of_nat (String.length s) <=? maxBytes)%Z then s
  else
    let cut := (maxBytes - Z.of_nat (String.length TruncationMarker))%Z in
    if (cut <=? 0)%Z then stake (runeCut s (Z.to_nat maxBytes)) s
    else stake (runeCut s (Z.to_nat cut)) s +:+ TruncationMarker.

Definition TruncateFragment (s : string) : string := TruncateTo s (Z.of_nat maxErrorExprLen).

Definition appendBounded (dst s : string) (limit : nat) : string :=
  if (limit <=? String.length dst)%nat then dst
  else
    let room := limit - String.length dst in
    if (String.length s <=? room)%nat then dst +:+ s
    else dst +:+ stake (runeCut s room) s.

(** The loop over the entries of a map: [i] is the position in the walk. *)
Fixpoint fragmentEntries (limit : nat) (entries : gmap string (string → string)) (i : nat)
    (keys : list string) (dst : string) : string :=
  match keys with
  | [] => dst
  | k :: keys =>
      if (limit <=? String.length dst)%nat then dst
      else
        let dst := if (0 <? i)%nat then dst +:+ " " else dst in
        let dst := appendBounded dst k limit +:+ ":" in
        fragmentEntries limit entries (1 + i) keys (default id (entries !! k) dst)
  end.

Fixpoint fragmentItems (limit : nat) (i : nat) (items : list (string → string)) (dst : string) : string :=
  match items with
  | [] => dst
  | item :: items =>
      if (limit <=? String.length dst)%nat then dst
      else
        let dst := if (0 <? i)%nat then dst +:+ " " else dst in
        fragmentItems limit (1 + i) items (item dst)
  end.

Fixpoint appendFragment (limit : nat) (val : any) (dst : string) : string :=
  if (limit <=? String.length dst)%nat then dst
  else
    match val with
    | VNil => dst +:+ "<nil>"
    | VString v => appendBounded dst v limit
    | VMap v =>
        fragmentEntries limit (appendFragment limit <$> v) 0 (sorted_keys v)
          (dst +:+ "map[") +:+ "]"
    | VSlice v => fragmentItems limit 0 (appendFragment limit <$> v) (dst +:+ "[") +:+ "]"
    | v => appendBounded dst (print_any v) limit
    end.

Definition FormatFragment (val : any) : string :=
  match val with
  | VString s => TruncateFragment s
  | _ => TruncateFragment (appendFragment (maxErrorExprLen + 1) val "")
  end.

(** ** The cost budget *)

(** [uint64] *)
Definition MaxUint64 : Z := 2 ^ 64 - 1.

Record CostBudget := mkBudget { spent : Z; budget : Z }.

Definition NewCostBudget (b : Z) : CostBudget := mkBudget 0 b.

Definition breachError (b : CostBudget) : goerr :=
  wrapf "" (sentinelErr ErrCostBudgetExceeded) (" (budget " +:+ Itoa (budget b) +:+ ")").

Definition breachLocked (b : CostBudget) : option goerr :=
  if (0 <? budget b)%Z && (budget b <? spent b)%Z then Some (breachError b) else None.

Definition add (b : CostBudget) (cost : Z) : CostBudget * option goerr :=
  if (MaxUint64 - spent b <? cost)%Z
  then
    let b := mkBudget MaxUint64 (budget b) in
    (b, if (0 <? budget b)%Z then Some (breachError b) else None)
  else
    let b := mkBudget (spent b + cost) (budget b) in
    (b, breachLocked b).

Definition exceeded (b : CostBudget) : option goerr :=
  if (0 <? budget b)%Z && (budget b <=? spent b)%Z then Some (breachError b) else None.

Definition defaultCELCostLimit : Z := 2000000.
Definition renderBudgetFactor : Z := 1.

(** [uint64] multiplication. *)
Definition mul64 (a b : Z) : Z := (a * b) mod 2 ^ 64.

Definition reconcileBudget (costLimit : Z) : Z :=
  let costLimit := if (costLimit =? 0)%Z then defaultCELCostLimit else costLimit in
  mul64 costLimit renderBudgetFactor.

(** * Render errors: bounds and budget

    A cut fragment stays within its bound and stays valid UTF-8, a short value
    is quoted as [%v] prints it, and a budget is never overspent by more than
    one charge, in 64-bit arithmetic. *)

#[local] Set Warnings "-register-all".

(** ** UTF-8 *)

Definition byte_in (lo hi : N) (b : ascii) : bool := (lo <=? N_of_ascii b)%N && (N_of_ascii b <=? hi)%N.

(** One encoded code point, as [unicode/utf8] accepts it. *)
Definition is_rune (r : string) : bool :=
  match r with
  | String a "" => byte_in 0 127 a
  | String a (String b "") => byte_in 194 223 a && byte_in 128 191 b
  | String a (String b (String c "")) =>
      byte_in 128 191 c
      && (byte_in 224 224 a && byte_in 160 191 b
          || byte_in 225 236 a && byte_in 128 191 b
          || byte_in 237 237 a && byte_in 128 159 b
          || byte_in 238 239 a && byte_in 128 191 b)
  | String a (String b (String c (String d ""))) =>
      byte_in 128 191 c && byte_in 128 191 d
      && (byte_in 240 240 a && byte_in 144 191 b
          || byte_in 241 243 a && byte_in 128 191 b
          || byte_in 244 244 a && byte_in 128 143 b)
  | _ => false
  end.

(** [utf8.ValidString] *)
Inductive utf8_valid : string → Prop :=
  | utf8_nil : utf8_valid ""
  | utf8_cons r s : is_rune r = true → utf8_valid s → utf8_valid (r +:+ s).

Lemma utf8_app s t : utf8_valid s → utf8_valid t → utf8_valid (s +:+ t).
Proof. induction 1; intros Ht; [done|]. rewrite sapp_assoc. constructor; auto. Qed.

Lemma RuneStart_cont b lo hi :
  (128 ≤ lo)%N → (hi ≤ 191)%N → byte_in lo hi b = true → RuneStart b = false.
Proof.
  intros Hlo Hhi. unfold byte_in. rewrite andb_true_iff, !N.leb_le.
  intros [H1 H2]. assert (128 ≤ N_of_ascii b ≤ 191)%N as Hb by lia. clear -Hb. revert Hb.
  by destruct b as [[] [] [] [] [] [] [] []]; vm_compute; intros [].
Qed.

(** The bytes after the first are continuation bytes. *)
Lemma is_rune_cont r i :
  is_rune r = true → 0 < i → i < String.length r → RuneStart (byte_at r i) = false.
Proof.
  destruct r as [|a [|b [|c [|d [|]]]]]; try done; intros Hr H0 Hi; cbn [String.length] in Hi;
    try lia; cbn [is_rune] in Hr; rewrite ?andb_true_iff, ?orb_true_iff, ?andb_true_iff in Hr;
    (destruct i as [|[|[|[|]]]]; try lia); unfold byte_at; cbn [String.get default from_option id];
    destruct_and?; repeat match goal with H : _ ∨ _ |- _ => destruct H end; destruct_and?;
    match goal with
    | H : byte_in ?lo ?hi ?b = true |- RuneStart ?b = false =>
        apply (RuneStart_cont b lo hi); [lia|lia|exact H]
    end.
Qed.

Lemma is_rune_length r : is_rune r = true → 0 < String.length r.
Proof. destruct r; [done|]. cbn [String.length]. lia. Qed.

Lemma byte_at_app_l r s i : i < String.length r → byte_at (r +:+ s) i = byte_at r i.
Proof.
  unfold byte_at. revert i. induction r as [|c r IH]; intros i Hi; [cbn in Hi; lia|].
  destruct i as [|i]; [done|]. apply IH. cbn in Hi. lia.
Qed.

Lemma byte_at_app_r r s i : byte_at (r +:+ s) (String.length r + i) = byte_at s i.
Proof. unfold byte_at. induction r as [|c r IH]; [done|]. apply IH. Qed.

Lemma stake_app_ge r s i : stake (String.length r + i) (r +:+ s) = r +:+ stake i s.
Proof.
  induction r as [|c r IH]; [done|]. rewrite !sapp_cons.
  cbn [String.length Nat.add stake]. by rewrite IH.
Qed.

(** Cutting before a byte that starts a rune keeps the text valid. *)
Lemma utf8_cut s n :
  utf8_valid s → n = 0 ∨ RuneStart (byte_at s n) = true → utf8_valid (stake n s).
Proof.
  intros Hs. revert n. induction Hs as [|r s Hr _ IH]; intros n Hn; [destruct n; constructor|].
  destruct (decide (n = 0)) as [->|Hn0]; [constructor|].
  destruct Hn as [|Hn]; [done|].
  destruct (decide (n < String.length r)) as [Hlt|Hge].
  - rewrite byte_at_app_l, (is_rune_cont r n Hr) in Hn by lia. done.
  - replace n with (String.length r + (n - String.length r)) in * by lia.
    rewrite byte_at_app_r in Hn. rewrite stake_app_ge.
    constructor; [done|]. apply IH. auto.
Qed.

Lemma runeCut_le s n : runeCut s n ≤ n.
Proof. induction n as [|n IH]; [done|]. cbn [runeCut]. case_goal; lia. Qed.

Lemma runeCut_start s n : runeCut s n = 0 ∨ RuneStart (byte_at s (runeCut s n)) = true.
Proof.
  induction n as [|n IH]; [by left|]. cbn [runeCut].
  destruct (RuneStart (byte_at s (S n))) eqn:E; [by right|done].
Qed.

Lemma stake_le_length n s : String.length (stake n s) ≤ n.
Proof.
  revert s. induction n as [|n IH]; intros s; [done|].
  destruct s as [|c s]; cbn; [lia|]. specialize (IH s). lia.
Qed.

Lemma utf8_marker : utf8_valid TruncationMarker.
Proof.
  change TruncationMarker with
    (String "226"%char (String "128"%char (String "166"%char "")) +:+ "(truncated)").
  constructor; [done|]. change "(truncated)" with
    ("(" +:+ ("t" +:+ ("r" +:+ ("u" +:+ ("n" +:+ ("c" +:+ ("a" +:+ ("t" +:+ ("e" +:+ ("d" +:+ (")" +:+ ""))))))))))).
  repeat (constructor; [done|]). constructor.
Qed.

Lemma TruncateTo_length s maxBytes :
  (Z.of_nat (String.length (TruncateTo s maxBytes)) ≤ Z.max 0 maxBytes)%Z
  ∧ ((Z.of_nat (String.length s) ≤ maxBytes)%Z → TruncateTo s maxBytes = s).
Proof.
  unfold TruncateTo. set (m := Z.of_nat (String.length TruncationMarker)).
  destruct (Z.leb_spec maxBytes 0) as [Hb|Hb].
  { split; [cbn; lia|]. destruct s; cbn [String.length]; [done|lia]. }
  destruct (Z.leb_spec (Z.of_nat (String.length s)) maxBytes) as [Hl|Hl]; [split; [lia|done]|].
  destruct (Z.leb_spec (maxBytes - m) 0) as [Hc|Hc]; (split; [|lia]).
  - pose proof (stake_le_length (runeCut s (Z.to_nat maxBytes)) s).
    pose proof (runeCut_le s (Z.to_nat maxBytes)). lia.
  - rewrite sapp_length. pose proof (stake_le_length (runeCut s (Z.to_nat (maxBytes - m))) s).
    pose proof (runeCut_le s (Z.to_nat (maxBytes - m))). unfold m in *. lia.
Qed.

(** [TruncateTo] never exceeds the bound it is given, marker included,
    returns a text that fits unchanged, otherwise keeps a prefix of the text
    (followed by the marker when there is room for it), and never cuts valid
    UTF-8 inside a rune, so that the message stays acceptable to the API
    server. *)
Theorem TruncateTo_bounded (s : string) (maxBytes : Z) :
  (Z.of_nat (String.length (TruncateTo s maxBytes)) ≤ Z.max 0 maxBytes)%Z
  ∧ ((Z.of_nat (String.length s) ≤ maxBytes)%Z → TruncateTo s maxBytes = s)
  ∧ (∃ n, TruncateTo s maxBytes = stake n s ∨ TruncateTo s maxBytes = stake n s +:+ TruncationMarker)
  ∧ (utf8_valid s → utf8_valid (TruncateTo s maxBytes)).
Proof.
  split; [apply TruncateTo_length|]. split; [apply TruncateTo_length|].
  unfold TruncateTo. set (m := Z.of_nat (String.length TruncationMarker)).
  destruct (Z.leb_spec maxBytes 0) as [Hb|Hb]; [split; [exists 0; by left|constructor]|].
  destruct (Z.leb_spec (Z.of_nat (String.length s)) maxBytes) as [Hl|Hl].
  { split; [|done]. exists (String.length s). left.
    rewrite <- (sapp_nil_r s) at 3. by rewrite stake_app. }
  destruct (Z.leb_spec (maxBytes - m) 0) as [Hc|Hc]; (split; [eauto|]); intros Hs.
  - apply utf8_cut; [done|apply runeCut_start].
  - apply utf8_app; [|apply utf8_marker]. apply utf8_cut; [done|apply runeCut_start].
Qed.

(** ** Quoting a value *)

Lemma appendBounded_fits dst s limit :
  String.length dst + String.length s ≤ limit → String.length dst < limit →
  appendBounded dst s limit = dst +:+ s.
Proof.
  intros Hl Hd. unfold appendBounded.
  destruct (Nat.leb_spec limit (String.length dst)); [lia|].
  destruct (Nat.leb_spec (String.length s) (limit - String.length dst)); [done|lia].
Qed.

(** The text of a list of pieces, separated by blanks when it follows others. *)
Fixpoint spaced (i : nat) (ws : list string) : string :=
  match ws with
  | [] => ""
  | w :: ws => (if (0 <? i)%nat then " " else "") +:+ w +:+ spaced (1 + i) ws
  end.

Lemma spaced_S i ws : spaced (S i) ws = match ws with [] => "" | _ => " " +:+ Join ws " " end.
Proof.
  revert i. induction ws as [|w ws IH]; intros i; [done|]. cbn [spaced]. rewrite IH.
  destruct ws; cbn [Join]; [by rewrite sapp_nil_r|]. cbn. done.
Qed.

Lemma spaced_Join ws : spaced 0 ws = Join ws " ".
Proof.
  destruct ws as [|w ws]; [done|]. cbn [spaced]. rewrite (spaced_S 0).
  destruct ws; cbn; by rewrite ?sapp_nil_r.
Qed.

Section Quote.
Context (limit : nat).

(** A printer that appends [w] to a text with room for it. *)
Definition appends (f : string → string) (w : string) : Prop :=
  ∀ dst, String.length dst + String.length w < limit → f dst = dst +:+ w.

Lemma fragmentItems_fits fs ws i dst :
  Forall2 appends fs ws → String.length dst + String.length (spaced i ws) < limit →
  fragmentItems limit i fs dst = dst +:+ spaced i ws.
Proof.
  intros Hf. revert i dst. induction Hf as [|f w fs ws Hfw _ IH]; intros i dst Hl.
  { cbn. by rewrite sapp_nil_r. }
  cbn [spaced] in Hl. rewrite !sapp_length in Hl. cbn [fragmentItems spaced].
  destruct (Nat.leb_spec limit (String.length dst)); [lia|].
  destruct (0 <? i)%nat; rewrite (Hfw _), IH by (rewrite ?sapp_length; cbn [String.length] in *; lia);
    by rewrite ?sapp_nil_l, ?sapp_assoc.
Qed.

Lemma fragmentEntries_fits (entries : gmap string (string → string)) (text : string → string) keys i dst :
  (∀ k, k ∈ keys → appends (default id (entries !! k)) (text k)) →
  String.length dst + String.length (spaced i ((λ k, k +:+ ":" +:+ text k) <$> keys)) < limit →
  fragmentEntries limit entries i keys dst = dst +:+ spaced i ((λ k, k +:+ ":" +:+ text k) <$> keys).
Proof.
  revert i dst. induction keys as [|k keys IH]; intros i dst He Hl.
  { cbn. by rewrite sapp_nil_r. }
  rewrite fmap_cons in *. cbn [spaced] in *. rewrite !sapp_length in Hl. cbn [fragmentEntries].
  change (String.length ":") with 1 in Hl.
  destruct (Nat.leb_spec limit (String.length dst)); [lia|].
  assert (Hk : appends (default id (entries !! k)) (text k)) by (apply He; left).
  destruct (0 <? i)%nat; cbn [String.length] in Hl;
    rewrite appendBounded_fits, (Hk _), IH;
    rewrite ?sapp_length; cbn [String.length]; try lia; try (intros k' Hk'; apply He; by right);
    by rewrite ?sapp_nil_l, ?sapp_assoc.
Qed.

Lemma appendFragment_fits v : appends (appendFragment limit v) (print_any v).
Proof.
  induction v as [|b|s|t x|m IH|l IH|l] using any_tree_ind; intros dst Hl;
    cbn [appendFragment]; cbn [print_any] in Hl |- *; (destruct (Nat.leb_spec limit (String.length dst)); [lia|]);
    try (rewrite appendBounded_fits by lia; done); try done.
  - unfold print_map in *. rewrite sorted_keys_fmap in *. rewrite <- spaced_Join in Hl |- *.
    rewrite !sapp_length in Hl. cbn [String.length] in Hl.
    rewrite (fragmentEntries_fits _ (λ k, default "" ((print_any <$> m) !! k))).
    + by rewrite !sapp_assoc.
    + intros k [v Hkv]%elem_of_sorted_keys. rewrite !lookup_fmap, Hkv. exact (IH k v Hkv).
    + rewrite !sapp_length. cbn [String.length]. lia.
  - rewrite <- spaced_Join in Hl |- *.
    rewrite !sapp_length in Hl. cbn [String.length] in Hl.
    rewrite (fragmentItems_fits _ (print_any <$> l)).
    + by rewrite !sapp_assoc.
    + rewrite Forall2_fmap. apply Forall_Forall2_diag. exact IH.
    + rewrite !sapp_length. cbn [String.length]. lia.
Qed.
End Quote.

(** An error message quotes a value as [%v] prints it whenever that text
    fits the bound of 256 bytes, whatever the value's shape, and quotes at most
    256 bytes of any value. *)
Theorem FormatFragment_spec (v : any) :
  (String.length (print_any v) ≤ maxErrorExprLen → FormatFragment v = print_any v)
  ∧ String.length (FormatFragment v) ≤ maxErrorExprLen.
Proof.
  assert (Hb : ∀ s, String.length (TruncateFragment s) ≤ maxErrorExprLen).
  { intros s. pose proof (proj1 (TruncateTo_length s (Z.of_nat maxErrorExprLen))). unfold TruncateFragment. lia. }
  split; [|destruct v; apply Hb].
  intros Hl. assert (Hid : ∀ s, String.length s ≤ maxErrorExprLen → TruncateFragment s = s).
  { intros s Hs. apply (proj2 (TruncateTo_length s _)). lia. }
  destruct v; try (cbn [FormatFragment]; rewrite appendFragment_fits by (cbn [String.length]; unfold maxErrorExprLen in *; lia);
    rewrite sapp_nil_l; by apply Hid). by apply Hid.
Qed.

(** ** The budget *)

Definition uint64 (x : Z) : Prop := (0 ≤ x ≤ MaxUint64)%Z.

Definition budget_wf (b : CostBudget) : Prop := uint64 (spent b) ∧ uint64 (budget b).

Lemma NewCostBudget_wf x : uint64 x → budget_wf (NewCostBudget x).
Proof. intros Hx. split; [|done]. unfold uint64, MaxUint64. cbn. lia. Qed.

Lemma add_spent b cost :
  budget_wf b → uint64 cost → spent (add b cost).1 = Z.min MaxUint64 (spent b + cost).
Proof.
  intros [Hs _] Hc. unfold add, uint64 in *.
  destruct (Z.ltb_spec (MaxUint64 - spent b) cost); cbn [fst spent]; lia.
Qed.

Lemma add_budget b cost : budget (add b cost).1 = budget b.
Proof. unfold add. by destruct (_ <? cost)%Z. Qed.

Lemma add_wf b cost : budget_wf b → uint64 cost → budget_wf (add b cost).1.
Proof.
  intros Hb Hc. split; [|rewrite add_budget; apply Hb].
  rewrite add_spent by done. destruct Hb as [Hb _]. unfold uint64 in *. lia.
Qed.

(** A charge is recorded exactly, saturating at the largest [uint64], and
    is reported as a breach exactly when the true sum, computed without
    overflow, is above a bounded allowance; landing on the allowance is not a
    breach, but leaves nothing for the next evaluation. *)
Theorem add_exact (b : CostBudget) (cost : Z) :
  budget_wf b → uint64 cost →
  budget_wf (add b cost).1
  ∧ spent (add b cost).1 = Z.min MaxUint64 (spent b + cost)
  ∧ (add b cost).2 =
      (if bool_decide (0 < budget b < spent b + cost)%Z then Some (breachError b) else None)
  ∧ (exceeded (add b cost).1 = None ↔ (budget b = 0 ∨ spent b + cost < budget b)%Z).
Proof.
  intros Hb Hc. split; [by apply add_wf|]. split; [by apply add_spent|].
  destruct b as [s t], Hb as [Hs Ht]. unfold uint64, add, breachLocked, exceeded, breachError in *.
  cbn [spent budget fst snd] in *.
  destruct (Z.ltb_spec (MaxUint64 - s) cost) as [H1|H1]; cbn [spent budget fst snd];
    destruct (Z.ltb_spec 0 t) as [H2|H2]; cbn [andb];
    repeat match goal with |- context [(?x <? ?y)%Z] => destruct (Z.ltb_spec x y) end;
    repeat match goal with |- context [(?x <=? ?y)%Z] => destruct (Z.leb_spec x y) end;
    case_bool_decide; (split; [try done; lia|]); split; try done; try lia; intros [|]; lia.
Qed.
