(* ===== verification/TemplateCache.v ===== *)
(** * The engine's caches

    [internal/template/engine_cache.go]: a generic least-recently-used cache,
    the two caches of the template engine, and their keys.  An element of
    [container/list] is its address; [elems] is what the elements hold, and
    the map and the list of the cache share them.  A call holds the mutex, so
    it is one step.

    The cache refines a list of entries in order of their last use
    ([Get_refines], [Set_refines]), and an entry survives as long as fewer
    other keys than the capacity were used since ([retention]). *)

From S2P Require Import Prelude GoStrings.

#[local] Set Warnings "-register-all".

Section LRU.
Context {T : Type}.

Record cacheEntry := mkEntry { key : string; value : T }.

Record lruCache := mkLRU {
  maxSize : Z;
  items : gmap string nat;
  evictList : list nat;
  elems : gmap nat cacheEntry;
  nextElem : nat
}.

Definition newLRUCache (maxSize : Z) : lruCache := mkLRU maxSize ∅ [] ∅ 0.

(** [list.Remove] and [list.MoveToFront] *)
Definition Remove (e : nat) (l : list nat) : list nat := filter (λ x, x ≠ e) l.
Definition MoveToFront (e : nat) (l : list nat) : list nat :=
  if decide (e ∈ l) then e :: Remove e l else l.

Definition Get (c : lruCache) (k : string) : lruCache * option T :=
  match items c !! k with
  | Some elem =>
      (mkLRU (maxSize c) (items c) (MoveToFront elem (evictList c)) (elems c) (nextElem c),
       value <$> elems c !! elem)
  | None => (c, None)
  end.

(** Eviction of [list.Back]. *)
Definition evictOldest (c : lruCache) : lruCache :=
  if (maxSize c <? Z.of_nat (length (evictList c)))%Z then
    match last (evictList c) with
    | Some oldest =>
        match elems c !! oldest with
        | Some oldEntry =>
            mkLRU (maxSize c) (delete (key oldEntry) (items c)) (Remove oldest (evictList c))
              (elems c) (nextElem c)
        | None => c
        end
    | None => c
    end
  else c.

Definition Set_ (c : lruCache) (k : string) (v : T) : lruCache :=
  match items c !! k with
  | Some elem =>
      mkLRU (maxSize c) (items c) (MoveToFront elem (evictList c))
        (<[elem := mkEntry k v]> (elems c)) (nextElem c)
  | None =>
      let elem := nextElem c in
      evictOldest
        (mkLRU (maxSize c) (<[k := elem]> (items c)) (elem :: evictList c)
           (<[elem := mkEntry k v]> (elems c)) (1 + elem))
  end.

(** ** Invariant *)

(** The map and the list hold the same elements, one per key. *)
Record lru_ok (c : lruCache) : Prop := {
  ok_nodup : NoDup (evictList c);
  ok_items : ∀ k e, items c !! k = Some e ↔ e ∈ evictList c ∧ key <$> elems c !! e = Some k;
  ok_elems : ∀ e, e ∈ evictList c → is_Some (elems c !! e);
  ok_fresh : ∀ e, e ∈ evictList c → e < nextElem c;
  ok_size : (Z.of_nat (length (evictList c)) ≤ Z.max 0 (maxSize c))%Z
}.

Lemma newLRUCache_ok n : lru_ok (newLRUCache n).
Proof.
  split; cbn; try done; [constructor| |by intros e ?%not_elem_of_nil..|lia].
  intros k e. rewrite lookup_empty. split; [done|]. by intros [?%not_elem_of_nil _].
Qed.

(** ** Specification: the entries, last used first *)

Definition entry_of (c : lruCache) (e : nat) : option (string * T) :=
  (λ en, (key en, value en)) <$> elems c !! e.

Definition recency (c : lruCache) : list (string * T) := omap (entry_of c) (evictList c).

Definition without (k : string) (r : list (string * T)) : list (string * T) :=
  filter (λ p, p.1 ≠ k) r.

Definition find_key (k : string) (r : list (string * T)) : option T :=
  snd <$> (list_find (λ p, p.1 = k) r ≫= λ q, Some q.2).

Definition spec_get (k : string) (r : list (string * T)) : list (string * T) * option T :=
  match find_key k r with
  | Some v => ((k, v) :: without k r, Some v)
  | None => (r, None)
  end.

Definition spec_set (n : Z) (k : string) (v : T) (r : list (string * T)) : list (string * T) :=
  match find_key k r with
  | Some _ => (k, v) :: without k r
  | None =>
      let r := (k, v) :: r in
      if (n <? Z.of_nat (length r))%Z then removelast r else r
  end.

Lemma find_key_Some k r v :
  NoDup r.*1 → find_key k r = Some v ↔ (k, v) ∈ r.
Proof.
  intros Hnd. unfold find_key. split.
  - destruct (list_find _ r) as [[i [k' v']]|] eqn:E; [|done]. cbn. intros [= <-].
    apply list_find_Some in E as (Hl & Hk & _). cbn in Hk. subst. by apply list_elem_of_lookup_2 in Hl.
  - intros Hin. destruct (list_find_elem_of (λ p, p.1 = k) r (k, v)) as [[i [k' v']] E]; [done..|].
    rewrite E. cbn. apply list_find_Some in E as (Hl & Hk & _). cbn in Hk. subst k'.
    apply list_elem_of_lookup_2 in Hl. f_equal.
    assert (∀ x y, (k, x) ∈ r → (k, y) ∈ r → x = y) as Hu; [|eauto].
    clear -Hnd. induction r as [|[k1 v1] r IH]; intros x y; [by rewrite elem_of_nil|].
    apply NoDup_cons in Hnd as [Hni Hnd]. rewrite !elem_of_cons.
    assert (∀ z, (k1, z) ∉ r) as Hno by (intros z Hz; apply Hni, list_elem_of_fmap; by exists (k1, z)).
    intros [[= -> ->]|Hx] [[= <-]|Hy]; subst; try done; try by destruct (Hno _ Hx).
    + by destruct (Hno _ Hy).
    + eauto.
Qed.

Lemma find_key_None k r : find_key k r = None ↔ k ∉ r.*1.
Proof.
  unfold find_key. split.
  - destruct (list_find _ r) as [[i [k' v']]|] eqn:E; [done|]. intros _ Hin.
    apply list_find_None in E. apply list_elem_of_fmap in Hin as ([k' v] & -> & Hin).
    rewrite Forall_forall in E. by apply (E (k', v)).
  - intros Hni. destruct (list_find _ r) as [[i [k' v']]|] eqn:E; [|done]. cbn.
    apply list_find_Some in E as (Hl & Hk & _). cbn in Hk. subst. destruct Hni.
    apply list_elem_of_fmap. exists (k, v'). by apply list_elem_of_lookup_2 in Hl.
Qed.

(** ** Refinement *)

Lemma elem_of_Remove e x l : x ∈ Remove e l ↔ x ∈ l ∧ x ≠ e.
Proof. unfold Remove. rewrite list_elem_of_filter. tauto. Qed.

Lemma MoveToFront_perm e l : NoDup l → MoveToFront e l ≡ₚ l.
Proof.
  intros Hl. unfold MoveToFront. case_decide as He; [|done].
  apply NoDup_Permutation; [|done|].
  - apply NoDup_cons. split; [rewrite elem_of_Remove; naive_solver|]. by apply NoDup_filter.
  - intros x. rewrite elem_of_cons, elem_of_Remove. destruct (decide (x = e)); naive_solver.
Qed.

Lemma Remove_last l e : NoDup (l ++ [e]) → Remove e (l ++ [e]) = l.
Proof.
  intros Hnd. unfold Remove. rewrite filter_app, filter_cons_False, filter_nil, app_nil_r by tauto.
  apply filter_all. intros x Hx ->.
  apply NoDup_app in Hnd as (_ & Hd & _). apply (Hd _ Hx). by left.
Qed.

Lemma entry_key c e k v : entry_of c e = Some (k, v) ↔ elems c !! e = Some (mkEntry k v).
Proof. unfold entry_of. destruct (elems c !! e) as [[k' v']|]; cbn; naive_solver. Qed.

Lemma elem_of_recency c k v :
  (k, v) ∈ recency c ↔ ∃ e, e ∈ evictList c ∧ elems c !! e = Some (mkEntry k v).
Proof. unfold recency. rewrite list_elem_of_omap. by setoid_rewrite entry_key. Qed.

(** An element of the list is what the map has for its key. *)
Lemma ok_element c e en : lru_ok c → e ∈ evictList c → elems c !! e = Some en → items c !! key en = Some e.
Proof. intros Hc He Hen. apply (ok_items c Hc). by rewrite Hen. Qed.

Lemma ok_entry c k e : lru_ok c → items c !! k = Some e → e ∈ evictList c ∧ ∃ v, elems c !! e = Some (mkEntry k v).
Proof.
  intros Hc [He Hk]%(ok_items c Hc). split; [done|].
  destruct (elems c !! e) as [[k' v]|]; [|done]. injection Hk as ->. eauto.
Qed.

Lemma recency_nodup c : lru_ok c → NoDup (recency c).*1.
Proof.
  intros Hc. pose proof (ok_nodup c Hc) as Hnd. unfold recency.
  assert (∀ e en, e ∈ evictList c → elems c !! e = Some en → items c !! key en = Some e) as Hk.
  { intros e en. by apply ok_element. }
  revert Hk. induction Hnd as [|e l Hne _ IH]; intros Hk; [constructor|]. cbn [omap list_omap].
  unfold entry_of at 1. destruct (elems c !! e) as [[k v]|] eqn:Ee.
  - cbn. apply NoDup_cons. split; [|apply IH; intros; apply Hk; [by right|done]].
    intros ([k' v'] & -> & Hin)%list_elem_of_fmap.
    apply list_elem_of_omap in Hin as (e' & He' & Hen). apply entry_key in Hen.
    pose proof (Hk e _ (list_elem_of_here _ _) Ee) as H1.
    pose proof (Hk e' _ (list_elem_of_further _ _ _ He') Hen) as H2.
    cbn in H1, H2. naive_solver.
  - cbn. apply IH. intros; apply Hk; [by right|done].
Qed.

Lemma recency_find c k : lru_ok c → find_key k (recency c) = items c !! k ≫= λ e, value <$> elems c !! e.
Proof.
  intros Hc. destruct (items c !! k) as [e|] eqn:Ek; cbn.
  - destruct (ok_entry c k e Hc Ek) as [He [v Hv]]. rewrite Hv. cbn.
    apply find_key_Some; [by apply recency_nodup|]. apply elem_of_recency. eauto.
  - apply find_key_None. intros ([k' v] & -> & Hin)%list_elem_of_fmap.
    apply elem_of_recency in Hin as (e & He & Hen). pose proof (ok_element c e _ Hc He Hen). naive_solver.
Qed.

Lemma omap_Remove (f : nat → option (string * T)) e k l :
  (∀ x p, x ∈ l → f x = Some p → p.1 = k ↔ x = e) → omap f (Remove e l) = without k (omap f l).
Proof.
  intros Hf. induction l as [|x l IH]; [done|]. unfold Remove, without in *. rewrite filter_cons.
  specialize (IH (λ y p Hy, Hf y p (list_elem_of_further _ _ _ Hy))).
  pose proof (λ p, Hf x p (list_elem_of_here _ _)) as Hx.
  case_decide as Hd; cbn [omap list_omap]; destruct (f x) as [p|] eqn:Ex; rewrite ?filter_cons, IH; try done.
  - case_decide; [done|]. naive_solver.
  - case_decide; [|done]. destruct H. apply Hx; [done|]. destruct (decide (x = e)); tauto.
Qed.

Lemma recency_Remove c k e : lru_ok c → items c !! k = Some e → omap (entry_of c) (Remove e (evictList c)) = without k (recency c).
Proof.
  intros Hc Hk. apply omap_Remove. intros x [k' v] Hx Hxp. apply entry_key in Hxp.
  pose proof (ok_element c x _ Hc Hx Hxp) as Hi. cbn in *. split; [naive_solver|intros ->].
  destruct (ok_entry c k e Hc Hk) as [_ [v' Hv]]. naive_solver.
Qed.

Lemma omap_entry_ext (c c' : lruCache) (l : list nat) :
  (∀ e, e ∈ l → elems c' !! e = elems c !! e) → omap (entry_of c') l = omap (entry_of c) l.
Proof.
  intros He. induction l as [|x l IH]; [done|]. cbn [omap list_omap].
  assert (entry_of c' x = entry_of c x) as -> by (unfold entry_of; by rewrite (He x (list_elem_of_here _ _))).
  rewrite IH; [done|]. intros e Hin. apply He. by right.
Qed.

(** Moving an element to the front keeps the invariant; its value may change. *)
Lemma touch_ok c k e v : lru_ok c → items c !! k = Some e →
  lru_ok (mkLRU (maxSize c) (items c) (MoveToFront e (evictList c)) (<[e := mkEntry k v]> (elems c)) (nextElem c)).
Proof.
  intros Hc Hk. pose proof (MoveToFront_perm e _ (ok_nodup c Hc)) as Hp.
  destruct (ok_entry c k e Hc Hk) as [He [v' Hv]].
  split; cbn.
  - rewrite Hp. apply Hc.
  - intros k' e'. rewrite (ok_items c Hc), Hp. destruct (decide (e' = e)) as [->|Hne].
    + rewrite lookup_insert_eq, Hv. done.
    + by rewrite lookup_insert_ne.
  - intros e'. rewrite Hp. intros He'. destruct (decide (e' = e)) as [->|Hne].
    + rewrite lookup_insert_eq. eauto.
    + rewrite lookup_insert_ne by done. by apply Hc.
  - intros e'. rewrite Hp. apply Hc.
  - rewrite Hp. apply Hc.
Qed.

Lemma touch_recency c k e v : lru_ok c → items c !! k = Some e →
  recency (mkLRU (maxSize c) (items c) (MoveToFront e (evictList c)) (<[e := mkEntry k v]> (elems c)) (nextElem c))
  = (k, v) :: without k (recency c).
Proof.
  intros Hc Hk. destruct (ok_entry c k e Hc Hk) as [He [v' Hv]].
  unfold recency at 1, MoveToFront. cbn [evictList]. rewrite decide_True by done. cbn [omap list_omap].
  unfold entry_of at 1. cbn [elems]. rewrite lookup_insert_eq. cbn. f_equal.
  rewrite <- (recency_Remove c k e) by done. apply omap_entry_ext. intros x [_ Hne]%elem_of_Remove.
  cbn. by rewrite lookup_insert_ne.
Qed.

Lemma Get_value c k e v : lru_ok c → items c !! k = Some e → elems c !! e = Some (mkEntry k v) →
  (Get c k).1 = mkLRU (maxSize c) (items c) (MoveToFront e (evictList c)) (<[e := mkEntry k v]> (elems c)) (nextElem c).
Proof. intros Hc Hk Hv. unfold Get. rewrite Hk. cbn [fst]. by rewrite insert_id. Qed.

Lemma Get_refines c k :
  lru_ok c → lru_ok (Get c k).1 ∧ recency (Get c k).1 = (spec_get k (recency c)).1
    ∧ (Get c k).2 = (spec_get k (recency c)).2.
Proof.
  intros Hc. unfold spec_get. rewrite recency_find by done.
  destruct (items c !! k) as [e|] eqn:Ek; [|unfold Get; by rewrite Ek].
  destruct (ok_entry c k e Hc Ek) as [He [v Hv]]. cbn. rewrite Hv. cbn [fmap option_fmap option_map fst snd].
  rewrite (Get_value c k e v) by done. split; [by apply touch_ok|]. split; [by apply touch_recency|].
  unfold Get. by rewrite Ek; cbn; rewrite Hv.
Qed.

(** *** Adding a key *)

Definition pushed (c : lruCache) (k : string) (v : T) : lruCache :=
  mkLRU (maxSize c) (<[k := nextElem c]> (items c)) (nextElem c :: evictList c)
    (<[nextElem c := mkEntry k v]> (elems c)) (1 + nextElem c).

Lemma fresh_element c e : lru_ok c → e ∈ evictList c → e ≠ nextElem c.
Proof. intros Hc He. pose proof (ok_fresh c Hc e He). lia. Qed.

(** The invariant but for the size. *)
Lemma pushed_ok c k v : lru_ok c → items c !! k = None →
  NoDup (evictList (pushed c k v))
  ∧ (∀ k' e, items (pushed c k v) !! k' = Some e ↔
       e ∈ evictList (pushed c k v) ∧ key <$> elems (pushed c k v) !! e = Some k')
  ∧ (∀ e, e ∈ evictList (pushed c k v) → is_Some (elems (pushed c k v) !! e) ∧ e < nextElem (pushed c k v)).
Proof.
  intros Hc Hk. cbn. split_and!.
  - apply NoDup_cons. split; [|apply Hc]. intros He. by apply (fresh_element c _ Hc He).
  - intros k' e. rewrite elem_of_cons. destruct (decide (e = nextElem c)) as [->|Hne].
    + rewrite lookup_insert_eq. cbn. destruct (decide (k' = k)) as [->|Hk'].
      * rewrite lookup_insert_eq. naive_solver.
      * rewrite lookup_insert_ne by done. split; [|naive_solver].
        intros [He _]%(ok_entry c _ _ Hc). by destruct (fresh_element c _ Hc He).
    + rewrite (lookup_insert_ne (elems c)) by done. destruct (decide (k' = k)) as [->|Hk'].
      * rewrite lookup_insert_eq. split; [naive_solver|]. intros [[?|He] He2]; [done|].
        assert (items c !! k = Some e) by by apply (ok_items c Hc). congruence.
      * rewrite lookup_insert_ne, (ok_items c Hc) by done. naive_solver.
  - intros e. rewrite elem_of_cons. intros [->|He]; [rewrite lookup_insert_eq; split; [eauto|lia]|].
    rewrite lookup_insert_ne by (intros <-; by apply (fresh_element c _ Hc He)).
    split; [by apply Hc|]. pose proof (ok_fresh c Hc e He). lia.
Qed.

Lemma pushed_recency c k v : lru_ok c → recency (pushed c k v) = (k, v) :: recency c.
Proof.
  intros Hc. unfold recency, pushed. cbn [evictList omap list_omap]. unfold entry_of at 1.
  cbn [elems]. rewrite lookup_insert_eq. cbn. f_equal. apply omap_entry_ext. intros e He. cbn.
  rewrite lookup_insert_ne; [done|]. intros <-. by apply (fresh_element c _ Hc He).
Qed.

Lemma omap_length_some (f : nat → option (string * T)) l :
  (∀ x, x ∈ l → is_Some (f x)) → length (omap f l) = length l.
Proof.
  induction l as [|x l IH]; intros Hf; [done|]. cbn [omap list_omap].
  destruct (Hf x (list_elem_of_here _ _)) as [p ->]. cbn [length].
  rewrite IH; [done|]. intros y Hy. apply Hf. by right.
Qed.

Lemma recency_length c : (∀ e, e ∈ evictList c → is_Some (elems c !! e)) → length (recency c) = length (evictList c).
Proof. intros Hc. apply omap_length_some. intros e He. unfold entry_of. rewrite fmap_is_Some. auto. Qed.

(** Dropping the last element of the list and its key. *)
Lemma evict_spec c l oldest en :
  evictList c = l ++ [oldest] → NoDup (evictList c) → elems c !! oldest = Some en →
  (∀ k e, items c !! k = Some e ↔ e ∈ evictList c ∧ key <$> elems c !! e = Some k) →
  (∀ k e, delete (key en) (items c) !! k = Some e ↔ e ∈ l ∧ key <$> elems c !! e = Some k)
  ∧ omap (entry_of c) l = removelast (recency c).
Proof.
  intros Hl Hnd Hen Hi. split.
  - intros k e. rewrite lookup_delete_Some, Hi, Hl, elem_of_app, list_elem_of_singleton.
    rewrite Hl in Hnd. apply NoDup_app in Hnd as (_ & Hd & _).
    assert (items c !! key en = Some oldest) as Ho.
    { apply Hi. rewrite Hl, elem_of_app, list_elem_of_singleton, Hen. auto. }
    split.
    + intros (Hne & [He|He] & Hk); [done|]. subst e. rewrite Hen in Hk. cbn in Hk. congruence.
    + intros [He Hk]. split; [|auto]. intros <-.
      assert (items c !! key en = Some e) as Hke by (apply Hi; rewrite Hl, elem_of_app; auto).
      rewrite Hke in Ho. injection Ho as ->. apply (Hd oldest He). by left.
  - unfold recency. rewrite Hl, omap_app. cbn [omap list_omap]. unfold entry_of at 3. rewrite Hen. cbn.
    by rewrite removelast_last.
Qed.

Lemma Set_refines c k v :
  lru_ok c → lru_ok (Set_ c k v) ∧ recency (Set_ c k v) = spec_set (maxSize c) k v (recency c).
Proof.
  intros Hc. unfold Set_, spec_set. rewrite recency_find by done.
  destruct (items c !! k) as [e|] eqn:Ek.
  { destruct (ok_entry c k e Hc Ek) as [He [v' Hv]]. cbn. rewrite Hv. cbn [fmap option_fmap option_map].
    split; [by apply touch_ok|by apply touch_recency]. }
  cbn [mbind option_bind]. rewrite <- pushed_recency by done.
  destruct (pushed_ok c k v Hc Ek) as (Hnd & Hi & He).
  fold (pushed c k v). rewrite recency_length by (intros e He'; by apply He).
  unfold evictOldest. change (maxSize (pushed c k v)) with (maxSize c).
  destruct (Z.ltb_spec (maxSize c) (Z.of_nat (length (evictList (pushed c k v))))) as [Hlt|Hge].
  - destruct (exists_last (l := evictList (pushed c k v))) as (l & oldest & Hl); [done|].
    rewrite Hl, last_snoc. destruct (He oldest) as [[en Hen] _]; [rewrite Hl; set_solver|].
    rewrite Hen. destruct (evict_spec _ l oldest en Hl Hnd Hen Hi) as [Hi' Hr].
    assert (Remove oldest (l ++ [oldest]) = l) as -> by (apply Remove_last; by rewrite <- Hl).
    pose proof (ok_size c Hc) as Hsz. assert (length l = length (evictList c)) as Hll.
    { apply (f_equal length) in Hl. rewrite length_app in Hl. cbn in Hl. lia. }
    split; [|by rewrite <- Hr; apply omap_entry_ext].
    split; cbn [evictList items elems nextElem maxSize].
    + rewrite Hl in Hnd. by apply NoDup_app in Hnd as (? & _).
    + exact Hi'.
    + intros e He'. apply He. rewrite Hl. set_solver.
    + intros e He'. apply He. rewrite Hl. set_solver.
    + cbn. lia.
  - split; [|done]. split; [done|done|..]; try (intros e He'; by apply He). cbn [maxSize pushed] in *. lia.
Qed.

(** ** Sequences of calls *)

Inductive lru_op := OGet (k : string) | OSet (k : string) (v : T).

Definition op_key (o : lru_op) : string := match o with OGet k => k | OSet k _ => k end.

(** The cache after the calls and what the calls to [Get] returned. *)
Fixpoint lru_run (c : lruCache) (ops : list lru_op) : lruCache * list (option T) :=
  match ops with
  | [] => (c, [])
  | OGet k :: ops =>
      let '(c, r) := Get c k in let '(c, rs) := lru_run c ops in (c, r :: rs)
  | OSet k v :: ops => lru_run (Set_ c k v) ops
  end.

Fixpoint spec_run (n : Z) (r : list (string * T)) (ops : list lru_op) : list (string * T) * list (option T) :=
  match ops with
  | [] => (r, [])
  | OGet k :: ops =>
      let '(r, o) := spec_get k r in let '(r, os) := spec_run n r ops in (r, o :: os)
  | OSet k v :: ops => spec_run n (spec_set n k v r) ops
  end.

Lemma maxSize_Get c k : maxSize (Get c k).1 = maxSize c.
Proof. unfold Get. by destruct (items c !! k). Qed.

Lemma maxSize_Set c k v : maxSize (Set_ c k v) = maxSize c.
Proof. unfold Set_, evictOldest. repeat case_goal; done. Qed.

Lemma lru_run_refines c ops :
  lru_ok c → lru_ok (lru_run c ops).1 ∧ maxSize (lru_run c ops).1 = maxSize c
    ∧ spec_run (maxSize c) (recency c) ops = (recency (lru_run c ops).1, (lru_run c ops).2).
Proof.
  revert c. induction ops as [|[k|k v] ops IH]; intros c Hc; [done|..]; cbn [lru_run spec_run].
  - destruct (Get_refines c k Hc) as (Hc' & Hr & Ho). pose proof (maxSize_Get c k) as Hn.
    destruct (Get c k) as [c' o], (spec_get k (recency c)) as [r' o']. cbn [fst snd] in *. subst r' o'.
    destruct (IH c' Hc') as (H1 & H2 & H3). rewrite Hn in *.
    destruct (lru_run c' ops) as [c'' rs]. cbn [fst snd] in *. by rewrite H3.
  - destruct (Set_refines c k v Hc) as [Hc' Hr]. rewrite <- Hr. pose proof (maxSize_Set c k v) as Hn.
    destruct (IH _ Hc') as (H1 & H2 & H3). by rewrite Hn in *.
Qed.

Lemma recency_le c : lru_ok c → (Z.of_nat (length (recency c)) ≤ Z.max 0 (maxSize c))%Z.
Proof. intros Hc. rewrite recency_length by apply Hc. apply Hc. Qed.

Lemma without_app k r1 r2 : without k (r1 ++ r2) = without k r1 ++ without k r2.
Proof. apply filter_app. Qed.

Lemma elem_of_without k r p : p ∈ without k r ↔ p ∈ r ∧ p.1 ≠ k.
Proof. unfold without. rewrite list_elem_of_filter. tauto. Qed.

Lemma without_nodup k r : NoDup r.*1 → NoDup (without k r).*1.
Proof. intros Hr. eapply sublist_NoDup; [done|]. apply fmap_sublist, sublist_filter. Qed.

(** *** An entry that was used recently is still there *)

Section Retention.
Context (k : string) (v : T) (U : gset string).

(** What is in front of the entry was used after it. *)
Definition retained (r : list (string * T)) : Prop :=
  NoDup r.*1 ∧ ∃ pre post, r = pre ++ (k, v) :: post ∧ ∀ p, p ∈ pre → p.1 ∈ U.

Lemma retained_find r : retained r → find_key k r = Some v.
Proof.
  intros (Hnd & pre & post & Hr & _). apply find_key_Some; [done|]. rewrite Hr. set_solver.
Qed.

Lemma retained_front k' v' r :
  k' ≠ k → k' ∈ U → retained r → retained ((k', v') :: without k' r).
Proof.
  intros Hne HkU (Hnd & pre & post & -> & Hpre). split.
  - cbn. apply NoDup_cons. split; [|by apply without_nodup].
    intros (p & -> & Hp)%list_elem_of_fmap. by apply elem_of_without in Hp as [_ ?].
  - exists ((k', v') :: without k' pre), (without k' post). split.
    + rewrite without_app. unfold without. rewrite filter_cons_True by by cbn. done.
    + intros p. rewrite elem_of_cons, elem_of_without. intros [->|[Hp _]]; [done|by apply Hpre].
Qed.

Lemma retained_self r : retained r → retained ((k, v) :: without k r).
Proof.
  intros (Hnd & pre & post & -> & Hpre). split.
  - cbn. apply NoDup_cons. split; [|by apply without_nodup].
    intros (p & -> & Hp)%list_elem_of_fmap. by apply elem_of_without in Hp as [_ ?].
  - exists [], (without k (pre ++ (k, v) :: post)). split; [done|]. by intros p ?%not_elem_of_nil.
Qed.

Context (n : Z) (HU : (Z.of_nat (size U) < n)%Z).

Lemma retained_push k' v' r :
  k' ≠ k → k' ∈ U → k' ∉ r.*1 → retained r →
  retained (if (n <? Z.of_nat (length ((k', v') :: r)))%Z then removelast ((k', v') :: r) else (k', v') :: r).
Proof.
  intros Hne HkU Hk' (Hnd & pre & post & -> & Hpre).
  assert (HP : ∀ post', NoDup (((k', v') :: pre ++ (k, v) :: post').*1) →
    retained ((k', v') :: pre ++ (k, v) :: post')).
  { intros post' Hn'. split; [done|]. exists ((k', v') :: pre), post'. split; [done|].
    intros p. rewrite elem_of_cons. intros [->|?]; [done|by apply Hpre]. }
  assert (Hn1 : NoDup (((k', v') :: pre ++ (k, v) :: post).*1)) by (cbn; by apply NoDup_cons).
  destruct (Z.ltb_spec n (Z.of_nat (length ((k', v') :: pre ++ (k, v) :: post)))) as [Hlt|]; [|by apply HP].
  destruct post as [|q post _] using rev_ind.
  - exfalso. assert (Hs : list_to_set (((k', v') :: pre).*1) ⊆ U).
    { intros x. rewrite elem_of_list_to_set. intros (p & -> & Hp)%list_elem_of_fmap.
      apply elem_of_cons in Hp as [->|Hp]; [done|by apply Hpre]. }
    apply subseteq_size in Hs. rewrite size_list_to_set in Hs.
    + cbn in Hlt. rewrite length_fmap in Hs. cbn in Hs. rewrite length_app in Hlt. cbn in Hlt. lia.
    + change ((k', v') :: pre ++ [(k, v)]) with (((k', v') :: pre) ++ [(k, v)]) in Hn1.
      rewrite fmap_app in Hn1. by apply NoDup_app in Hn1 as (? & _).
  - change ((k', v') :: pre ++ (k, v) :: post ++ [q]) with (((k', v') :: pre) ++ ((k, v) :: post) ++ [q]) in *.
    rewrite app_assoc in *. rewrite removelast_last. apply (HP post).
    rewrite fmap_app in Hn1. by apply NoDup_app in Hn1 as (? & _).
Qed.

Lemma retained_run ops r :
  (∀ o, o ∈ ops → op_key o = k ∨ op_key o ∈ U) → (∀ w, OSet k w ∉ ops) → k ∉ U →
  retained r → retained (spec_run n r ops).1.
Proof.
  intros Hops Hno HkU. revert r. induction ops as [|o ops IH]; intros r Hr; [done|].
  assert (IH' := IH (λ o Ho, Hops o (list_elem_of_further _ _ _ Ho)) (λ w Hw, Hno w (list_elem_of_further _ _ _ Hw))).
  pose proof (Hops o (list_elem_of_here _ _)) as Ho. destruct o as [k'|k' w]; cbn [spec_run op_key] in *.
  - destruct (spec_get k' r) as [r' x] eqn:Eg. destruct (spec_run n r' ops) as [r'' xs] eqn:Er.
    cbn [fst]. change r'' with (r'', xs).1. rewrite <- Er. apply IH'.
    unfold spec_get in Eg. destruct (decide (k' = k)) as [->|Hne].
    + rewrite retained_find in Eg by done. injection Eg as <- _. by apply retained_self.
    + destruct (find_key k' r); injection Eg as <- _; [|done]. apply retained_front; naive_solver.
  - destruct (decide (k' = k)) as [->|Hne]; [destruct (Hno w); left|]. apply IH'.
    assert (k' ∈ U) by naive_solver. unfold spec_set. destruct (find_key k' r) eqn:Ef.
    + by apply retained_front.
    + apply find_key_None in Ef. by apply retained_push.
Qed.
End Retention.

Lemma spec_set_head c k v : lru_ok c → (0 < maxSize c)%Z → ∃ r, recency (Set_ c k v) = (k, v) :: r.
Proof.
  intros Hc Hn. rewrite (proj2 (Set_refines c k v Hc)). unfold spec_set.
  destruct (find_key k (recency c)); [eauto|]. cbn [length].
  destruct (Z.ltb_spec (maxSize c) (Z.of_nat (S (length (recency c))))) as [Hlt|]; [|eauto].
  destruct (recency c); [cbn in Hlt; lia|]. cbn. eauto.
Qed.

End LRU.
Arguments lruCache : clear implicits.
Arguments cacheEntry : clear implicits.

(** Over every sequence of calls, the cache answers as a list of entries in
    order of their last use, cut at the capacity: [Get] returns what was last
    stored under the key while the entry is among them, and the least recently
    used entry is the one that goes.  The map and the list never disagree and
    never hold more than the capacity. *)
Theorem lru_refines {T} (n : Z) (ops : list (lru_op (T := T))) :
  lru_ok (lru_run (newLRUCache n) ops).1
  ∧ spec_run n [] ops = (recency (lru_run (newLRUCache n) ops).1, (lru_run (newLRUCache n) ops).2)
  ∧ (Z.of_nat (length (recency (lru_run (newLRUCache n) ops).1)) ≤ Z.max 0 n)%Z.
Proof.
  destruct (lru_run_refines (newLRUCache n) ops (newLRUCache_ok n)) as (Hok & Hn & Hs).
  split; [done|]. split; [done|]. pose proof (recency_le _ Hok) as Hle. by rewrite Hn in Hle.
Qed.

(** An entry that was stored is found, with its value, as long as fewer
    other keys than the capacity were used since: the cache evicts nothing that
    was used more recently than its capacity requires. *)
Theorem retention {T} (c : lruCache T) (k : string) (v : T) (ops : list lru_op) (U : gset string) :
  lru_ok c → (∀ w, OSet k w ∉ ops) → k ∉ U → (∀ o, o ∈ ops → op_key o = k ∨ op_key o ∈ U) →
  (Z.of_nat (size U) < maxSize c)%Z →
  (Get (lru_run (Set_ c k v) ops).1 k).2 = Some v.
Proof.
  intros Hc Hno HkU Hops HU. destruct (Set_refines c k v Hc) as [Hc1 Hr1].
  destruct (lru_run_refines _ ops Hc1) as (Hc2 & _ & Hs). rewrite maxSize_Set in Hs.
  rewrite (proj2 (proj2 (Get_refines _ k Hc2))). unfold spec_get.
  rewrite (retained_find k v U); [done|].
  change (recency (lru_run (Set_ c k v) ops).1) with
    (recency (lru_run (Set_ c k v) ops).1, (lru_run (Set_ c k v) ops).2).1. rewrite <- Hs.
  apply retained_run; [done..|]. destruct (spec_set_head c k v Hc) as [r Hr]; [lia|].
  split; [by apply recency_nodup|]. rewrite Hr. exists [], r. split; [done|]. by intros p ?%not_elem_of_nil.
Qed.

(** ** Keys *)

Definition unit_sep : ascii := "031"%char.   (* \x1f *)
Definition record_sep : ascii := "030"%char. (* \x1e *)

Definition programCacheKey (envKey expression : string) : string :=
  envKey +:+ String record_sep "" +:+ expression.

Definition envCacheKey {A} (inputs : gmap string A) : string :=
  if (size inputs =? 0)%nat then "" else Join (sorted_keys inputs) (String unit_sep "").

(** ** The engine's caches *)

Definition defaultEnvCacheSize : Z := 100.
Definition defaultProgramCacheSize : Z := 2000.

Section EngineCache.
Context {Env Program : Type}.

(** [None] is a nil cache. *)
Record EngineCache := mkEngineCache {
  envCache : option (lruCache Env);
  programCache : option (lruCache Program);
  envCacheDisabled : bool;
  progCacheDisabled : bool
}.

Definition newEngineCache (envCacheDisabled progCacheDisabled : bool) : EngineCache :=
  mkEngineCache
    (if envCacheDisabled then None else Some (newLRUCache defaultEnvCacheSize))
    (if envCacheDisabled || progCacheDisabled then None else Some (newLRUCache defaultProgramCacheSize))
    envCacheDisabled progCacheDisabled.

Definition withEnvCache (c : EngineCache) (l : lruCache Env) : EngineCache :=
  mkEngineCache (Some l) (programCache c) (envCacheDisabled c) (progCacheDisabled c).

Definition withProgramCache (c : EngineCache) (l : lruCache Program) : EngineCache :=
  mkEngineCache (envCache c) (Some l) (envCacheDisabled c) (progCacheDisabled c).

Definition GetEnv (c : EngineCache) (k : string) : EngineCache * option Env :=
  match envCache c with
  | Some l => if envCacheDisabled c then (c, None) else let '(l, r) := Get l k in (withEnvCache c l, r)
  | None => (c, None)
  end.

Definition SetEnv (c : EngineCache) (k : string) (env : Env) : EngineCache :=
  match envCache c with
  | Some l => if envCacheDisabled c then c else withEnvCache c (Set_ l k env)
  | None => c
  end.

Definition GetProgram (c : EngineCache) (envKey expression : string) : EngineCache * option Program :=
  match programCache c with
  | Some l =>
      if progCacheDisabled c then (c, None)
      else let '(l, r) := Get l (programCacheKey envKey expression) in (withProgramCache c l, r)
  | None => (c, None)
  end.

Definition SetProgram (c : EngineCache) (envKey expression : string) (program : Program) : EngineCache :=
  match programCache c with
  | Some l =>
      if progCacheDisabled c then c
      else withProgramCache c (Set_ l (programCacheKey envKey expression) program)
  | None => c
  end.

Definition ProgramCacheSize (c : EngineCache) : nat :=
  match programCache c with
  | Some l => if progCacheDisabled c then 0 else size (items l)
  | None => 0
  end.

End EngineCache.
Arguments EngineCache : clear implicits.
