(* ===== verification/TemplateScan.v ===== *)
(** * Expression markers in template strings

    The scanner [findCELSpans] of [internal/template/engine.go], which locates
    the [${...}] markers of a string with braces and quotes taken into account.
    The inner loop consumes a byte per step and is structural; the outer loop
    runs on fuel, and [spansLoop_total] shows that one more than the length of
    the string is always enough.  [findCELSpans_roundtrip] shows that the
    scanner recovers the parts of every template that was put together from
    texts and expressions. *)

From S2P Require Import Prelude GoStrings GoValue RenderErrors.

#[local] Set Warnings "-register-all".

Definition marker : string := "${".

Record celSpan := mkSpan { start : nat; stop : nat; inner : string }.

(** How the loop over the bytes of one expression ends: after the closing
    brace, at the end of the string, or at a nested marker. *)
Inductive scanned := Closed (pos : nat) | Unclosed | Nested (pos : nat).

Fixpoint scanExpr (s : string) (pos brace : nat) (inSingleQuote inDoubleQuote escaped : bool) : scanned :=
  match brace with
  | 0 => Closed pos
  | S b =>
      match s with
      | "" => Unclosed
      | String c s' =>
          let quoted := inSingleQuote || inDoubleQuote in
          if bool_decide (c = "\"%char) then
            scanExpr s' (1 + pos) brace inSingleQuote inDoubleQuote (if quoted then negb escaped else escaped)
          else if bool_decide (c = "'"%char) then
            scanExpr s' (1 + pos) brace
              (if negb inDoubleQuote && negb escaped then negb inSingleQuote else inSingleQuote)
              inDoubleQuote false
          else if bool_decide (c = "034"%char) then
            scanExpr s' (1 + pos) brace inSingleQuote
              (if negb inSingleQuote && negb escaped then negb inDoubleQuote else inDoubleQuote) false
          else if bool_decide (c = "{"%char) then
            scanExpr s' (1 + pos) (if quoted then brace else S brace) inSingleQuote inDoubleQuote false
          else if bool_decide (c = "}"%char) then
            scanExpr s' (1 + pos) (if quoted then brace else b) inSingleQuote inDoubleQuote false
          else if bool_decide (c = "$"%char) && negb quoted && HasPrefix s' "{" then Nested pos
          else scanExpr s' (1 + pos) brace inSingleQuote inDoubleQuote false
      end
  end.

Definition nestedError (str : string) (start pos : nat) : goerr :=
  wrapf "" (sentinelErr ErrNestedExpression) (": " +:+ TruncateFragment (slice str start (pos + 2))).

Fixpoint spansLoop (fuel : nat) (str : string) (i : nat) : option (eres (list celSpan)) :=
  match fuel with
  | 0 => None
  | S fuel =>
      if (i <? String.length str)%nat then
        match Index (sdrop i str) marker with
        | None => Some (Val [])
        | Some k =>
            let start := k + i in
            match scanExpr (sdrop (start + 2) str) (start + 2) 1 false false false with
            | Nested pos => Some (Fail (nestedError str start pos))
            | Unclosed => Some (Val [])
            | Closed pos =>
                match spansLoop fuel str pos with
                | Some (Val matches) =>
                    Some (Val (mkSpan start pos (slice str (start + 2) (pos - 1)) :: matches))
                | r => r
                end
            end
        end
      else Some (Val [])
  end.

Definition findCELSpans (str : string) : eres (list celSpan) :=
  default (Val []) (spansLoop (1 + String.length str) str 0).

Record CELMatch := mkMatch { FullExpr : string; InnerExpr : string }.

Definition FindCELExpressions (str : string) : eres (list CELMatch) :=
  match findCELSpans str with
  | Fail err => Fail err
  | Val spans => Val ((λ span, mkMatch (slice str (start span) (stop span)) (inner span)) <$> spans)
  end.

(** ** Positions *)

Lemma sdrop_sdrop a b s : sdrop a (sdrop b s) = sdrop (b + a) s.
Proof.
  revert s. induction b as [|b IH]; intros s; [done|]. destruct s; cbn; [by destruct a|]. apply IH.
Qed.

Lemma sdrop_length n s : String.length (sdrop n s) = String.length s - n.
Proof. revert s. induction n as [|n IH]; intros [|c s]; cbn; try lia. apply IH. Qed.

Lemma scanExpr_bounds s pos b sq dq esc q :
  scanExpr s pos b sq dq esc = Closed q → pos ≤ q ≤ pos + String.length s ∧ (0 < b → pos < q).
Proof.
  revert pos b sq dq esc. induction s as [|c s IH]; intros pos b sq dq esc; cbn [scanExpr];
    destruct b as [|b]; try done; try (intros [= <-]; cbn; lia).
  intros H. cbn [String.length].
  repeat match type of H with (if ?x then _ else _) = _ => destruct x end; try done;
    apply IH in H; lia.
Qed.

(** The byte before the end is the closing brace. *)
Lemma scanExpr_closing s pos b sq dq esc q :
  0 < b → scanExpr s pos b sq dq esc = Closed q → String.get (q - 1 - pos) s = Some "}"%char.
Proof.
  revert pos b sq dq esc. induction s as [|c s IH]; intros pos b sq dq esc Hb; cbn [scanExpr];
    destruct b as [|b]; try done; try lia. intros H.
  assert (Hnext : ∀ b' sq' dq' esc', 0 < b' → scanExpr s (1 + pos) b' sq' dq' esc' = Closed q →
    String.get (q - 1 - pos) (String c s) = Some "}"%char).
  { intros b' sq' dq' esc' Hb' H'. pose proof (scanExpr_bounds _ _ _ _ _ _ _ H') as [? Hlt].
    specialize (Hlt Hb'). specialize (IH _ _ _ _ _ Hb' H').
    by replace (q - 1 - pos) with (S (q - 1 - (1 + pos))) by lia. }
  repeat match type of H with
  | (if bool_decide (c = "}"%char) then _ else _) = _ => case_bool_decide as Hc
  | (if bool_decide _ then _ else _) = _ => case_bool_decide
  end; try (eapply Hnext, H; repeat case_goal; lia).
  - destruct (sq || dq); [eapply Hnext, H; lia|]. destruct b as [|b]; [|eapply Hnext, H; lia].
    assert (scanExpr s (1 + pos) 0 sq dq false = Closed (1 + pos)) as H' by by destruct s.
    rewrite H' in H. injection H as <-. subst c. by replace (_ - 1 - pos) with 0 by lia.
  - case_match; [done|]. eapply Hnext, H. lia.
Qed.

(** The position is an offset. *)
Definition shift (d : nat) (r : scanned) : scanned :=
  match r with Closed q => Closed (d + q) | Nested q => Nested (d + q) | Unclosed => Unclosed end.

Lemma scanExpr_shift d s pos b sq dq esc :
  scanExpr s (d + pos) b sq dq esc = shift d (scanExpr s pos b sq dq esc).
Proof.
  revert pos b sq dq esc. induction s as [|c s IH]; intros pos b sq dq esc; cbn [scanExpr];
    destruct b as [|b]; try done.
  replace (1 + (d + pos)) with (d + (1 + pos)) by lia.
  repeat case_bool_decide; try apply IH. case_match; [done|apply IH].
Qed.

Lemma HasPrefix_app s t p : HasPrefix s p = true → HasPrefix (s +:+ t) p = true.
Proof. rewrite !HasPrefix_spec. intros [k ->]. exists (k +:+ t). by rewrite sapp_assoc. Qed.

(** What follows the closing brace does not matter. *)
Lemma scanExpr_app s t pos b sq dq esc q :
  scanExpr s pos b sq dq esc = Closed q → scanExpr (s +:+ t) pos b sq dq esc = Closed q.
Proof.
  revert pos b sq dq esc. induction s as [|c s IH]; intros pos b sq dq esc; cbn [scanExpr].
  { destruct b as [|b]; [|done]. by destruct t. }
  rewrite sapp_cons. destruct b as [|b]; [done|]. cbn [scanExpr].
  repeat (case_bool_decide; [apply IH|]). destruct (bool_decide (c = "$"%char) && negb (sq || dq)) eqn:Eq; [|apply IH].
  cbn [andb]. destruct (HasPrefix s "{") eqn:Ep; [done|].
  destruct s as [|d s]; [done|]. intros Hcl.
  assert (HasPrefix (String d s +:+ t) "{" = HasPrefix (String d s) "{") as ->; [|rewrite Ep; by apply IH].
  by rewrite sapp_cons, !HasPrefix_cons, !HasPrefix_nil.
Qed.

Lemma scanExpr_stake s pos b sq dq esc q :
  scanExpr s pos b sq dq esc = Closed q → scanExpr (stake (q - pos) s) pos b sq dq esc = Closed q.
Proof.
  revert pos b sq dq esc. induction s as [|c s IH]; intros pos b sq dq esc H.
  { cbn [scanExpr] in *. destruct b as [|b]; [|done]. by destruct (q - pos). }
  pose proof (scanExpr_bounds _ _ _ _ _ _ _ H) as [_ Hlt]. cbn [scanExpr] in H.
  destruct b as [|b]; [destruct (q - pos); exact H|].
  destruct (q - pos) as [|n] eqn:En; [lia|].
  assert (q - (1 + pos) = n) as Hn by lia.
  assert (IH' : ∀ b' sq' dq' esc', scanExpr s (1 + pos) b' sq' dq' esc' = Closed q →
    scanExpr (stake n s) (1 + pos) b' sq' dq' esc' = Closed q) by (rewrite <- Hn; intros; by apply IH).
  cbn [stake scanExpr].
  repeat (case_bool_decide; [by apply IH'|]).
  destruct (bool_decide (c = "$"%char) && negb (sq || dq)); [|by apply IH'].
  cbn [andb] in *. destruct (HasPrefix s "{") eqn:Ep; [done|].
  destruct (HasPrefix (stake n s) "{") eqn:Ep'; [|by apply IH'].
  rewrite <- (stake_sdrop n s), HasPrefix_app in Ep by done. done.
Qed.

(** ** Texts without a marker *)

Lemma Index_app t x : Index t marker = None → Index (t +:+ marker +:+ x) marker = Some (String.length t).
Proof.
  induction t as [|c t IH]; intros Hn.
  { change ("" +:+ marker +:+ x) with (String "$" (String "{" x)). unfold marker. cbn [Index].
    by rewrite !HasPrefix_cons, HasPrefix_nil. }
  rewrite sapp_cons. cbn [Index] in *.
  destruct (HasPrefix (String c t) marker) eqn:Ep; [done|]. apply fmap_None in Hn.
  assert (HasPrefix (String c (t +:+ marker +:+ x)) marker = false) as ->.
  { apply not_true_iff_false. intros H. apply not_true_iff_false in Ep. apply Ep.
    unfold marker in *. rewrite HasPrefix_cons in *. destruct (bool_decide _); [|done]. cbn [andb] in *.
    destruct t as [|d t]; [done|]. rewrite sapp_cons in H. rewrite HasPrefix_cons, HasPrefix_nil in *. done. }
  by rewrite IH.
Qed.

Lemma HasPrefix_stake n s p : HasPrefix (stake n s) p = true → HasPrefix s p = true.
Proof. intros H. rewrite <- (stake_sdrop n s). by apply HasPrefix_app. Qed.

Lemma Index_stake s p k : p ≠ "" → Index s p = Some k → Index (stake k s) p = None.
Proof.
  intros Hp. revert k. induction s as [|c s IH]; intros k; cbn [Index].
  - destruct (HasPrefix "" p) eqn:E; [|done]. by destruct p.
  - destruct (HasPrefix (String c s) p) eqn:E.
    + intros [= <-]. cbn. by destruct p.
    + intros (k' & Hk & ->)%fmap_Some. cbn [stake Index].
      destruct (HasPrefix (String c (stake k' s)) p) eqn:E'.
      * apply (HasPrefix_stake (S k') (String c s)) in E'. congruence.
      * by rewrite (IH k' Hk).
Qed.

(** ** Templates as parts *)

(** A text followed by an expression; a template is a list of them and a last
    text. *)
Definition part : Type := string * string.

Fixpoint print (parts : list part) (rest : string) : string :=
  match parts with
  | [] => rest
  | (t, e) :: parts => t +:+ marker +:+ e +:+ "}" +:+ print parts rest
  end.

Fixpoint spans_of (i : nat) (parts : list part) : list celSpan :=
  match parts with
  | [] => []
  | (t, e) :: parts =>
      let a := i + String.length t in
      let b := a + 3 + String.length e in
      mkSpan a b e :: spans_of b parts
  end.

(** The expression's braces and quotes are balanced up to the closing brace. *)
Definition balanced (e : string) : bool :=
  match scanExpr (e +:+ "}") 0 1 false false false with
  | Closed q => (q =? 1 + String.length e)%nat
  | _ => false
  end.

Definition part_ok (p : part) : Prop := Index p.1 marker = None ∧ balanced p.2 = true.

(** The text after the last expression: no marker, or one that is not closed. *)
Definition rest_ok (rest : string) : Prop :=
  match Index rest marker with
  | None => True
  | Some k => scanExpr (sdrop (k + 2) rest) 0 1 false false false = Unclosed
  end.

Lemma balanced_scan e t pos :
  balanced e = true → scanExpr (e +:+ "}" +:+ t) pos 1 false false false = Closed (pos + 1 + String.length e).
Proof.
  unfold balanced. destruct (scanExpr (e +:+ "}") 0 1 false false false) as [q| |] eqn:E; try done.
  intros ->%Nat.eqb_eq. apply (scanExpr_app _ t) in E. rewrite sapp_assoc in E.
  rewrite <- (Nat.add_0_r pos) at 1. rewrite scanExpr_shift, E. cbn [shift]. f_equal. lia.
Qed.

Lemma scan_balanced s q :
  scanExpr s 0 1 false false false = Closed q →
  ∃ e, balanced e = true ∧ q = 1 + String.length e ∧ s = e +:+ "}" +:+ sdrop q s.
Proof.
  intros H. pose proof (scanExpr_bounds _ _ _ _ _ _ _ H) as [[_ Hle] Hlt].
  pose proof (scanExpr_closing _ _ _ _ _ _ _ Nat.lt_0_1 H) as Hc.
  apply scanExpr_stake in H. rewrite Nat.sub_0_r in *. cbn [Nat.add] in Hle. specialize (Hlt Nat.lt_0_1).
  exists (stake (q - 1) s).
  assert (Hs : stake q s = stake (q - 1) s +:+ "}").
  { clear H. revert q Hle Hlt Hc. induction s as [|c s IH]; intros q Hle Hlt Hc; [done|].
    destruct q as [|[|q]]; [lia|cbn in *; by injection Hc as ->|].
    cbn [Nat.sub stake]. rewrite sapp_cons. f_equal. specialize (IH (S q)). cbn [Nat.sub] in IH.
    rewrite Nat.sub_0_r in *. apply IH; [cbn in Hle; lia|lia|exact Hc]. }
  assert (Hl : String.length (stake (q - 1) s) = q - 1) by (apply stake_length; lia).
  split; [|split; [lia|]].
  - unfold balanced. rewrite <- Hs, H, Hl. apply Nat.eqb_eq. lia.
  - by rewrite <- sapp_assoc, <- Hs, stake_sdrop.
Qed.

(** ** The outer loop *)

Lemma spansLoop_total fuel str i :
  String.length str - i < fuel → is_Some (spansLoop fuel str i).
Proof.
  revert i. induction fuel as [|fuel IH]; intros i Hf; [lia|]. cbn [spansLoop].
  destruct (Nat.ltb_spec i (String.length str)) as [Hi|Hi]; [|by eexists].
  destruct (Index _ _) as [k|]; [|by eexists].
  destruct (scanExpr _ _ _ _ _ _) as [pos| |] eqn:E; [|by eexists..].
  apply scanExpr_bounds in E as [[Hp _] Hlt]. destruct (IH pos) as [[ms|err] ->]; [lia|by eexists..].
Qed.

(** More fuel than enough changes nothing. *)
Lemma spansLoop_fuel f1 f2 str i :
  String.length str - i < f1 → String.length str - i < f2 → spansLoop f1 str i = spansLoop f2 str i.
Proof.
  revert f2 i. induction f1 as [|f1 IH]; intros f2 i H1 H2; [lia|].
  destruct f2 as [|f2]; [lia|]. cbn [spansLoop].
  destruct (Nat.ltb_spec i (String.length str)) as [Hi|Hi]; [|done].
  destruct (Index _ _) as [k|]; [|done].
  destruct (scanExpr _ _ _ _ _ _) as [pos| |] eqn:E; [|done..].
  apply scanExpr_bounds in E as [[Hp _] Hlt]. rewrite (IH f2 pos); [done|lia..].
Qed.

(** One round from the position after a prefix [a]. *)
Lemma spansLoop_step fuel a b :
  spansLoop (S fuel) (a +:+ b) (String.length a) =
    match Index b marker with
    | None => Some (Val [])
    | Some k =>
        match scanExpr (sdrop (k + 2) b) 0 1 false false false with
        | Nested q => Some (Fail (nestedError (a +:+ b) (k + String.length a) (k + String.length a + 2 + q)))
        | Unclosed => Some (Val [])
        | Closed q =>
            let st := k + String.length a in
            match spansLoop fuel (a +:+ b) (st + 2 + q) with
            | Some (Val ms) => Some (Val (mkSpan st (st + 2 + q) (slice (a +:+ b) (st + 2) (st + 2 + q - 1)) :: ms))
            | r => r
            end
        end
    end.
Proof.
  cbn [spansLoop]. rewrite sapp_length, sdrop_app.
  destruct (Nat.ltb_spec (String.length a) (String.length a + String.length b)) as [Hi|Hi].
  2:{ destruct b; [|cbn in Hi; lia]. done. }
  destruct (Index b marker) as [k|]; [|done].
  replace (k + String.length a + 2) with (String.length a + (k + 2)) at 1 by lia.
  rewrite <- sdrop_sdrop, sdrop_app.
  rewrite <- (Nat.add_0_r (k + String.length a + 2)) at 1. rewrite scanExpr_shift.
  by destruct (scanExpr _ _ _ _ _ _).
Qed.

Lemma stake_length_min n s : String.length (stake n s) = Nat.min n (String.length s).
Proof. revert s. induction n as [|n IH]; intros [|c s]; cbn; try lia. by rewrite IH. Qed.

Lemma slice_mid x e y n m :
  n = String.length x → m = String.length x + String.length e → slice (x +:+ e +:+ y) n m = e.
Proof.
  intros -> ->. unfold slice. rewrite sdrop_app.
  replace (_ + _ - _) with (String.length e) by lia. apply stake_app.
Qed.

Lemma mkSpan_eq a b e a' b' e' : a = a' → b = b' → e = e' → mkSpan a b e = mkSpan a' b' e'.
Proof. by intros -> -> ->. Qed.

Lemma spansLoop_complete parts rest a fuel :
  Forall part_ok parts → rest_ok rest → length parts < fuel →
  spansLoop fuel (a +:+ print parts rest) (String.length a) = Some (Val (spans_of (String.length a) parts)).
Proof.
  intros Hp Hr. revert a fuel. induction Hp as [|[t e] parts [Ht He] _ IH]; intros a fuel Hf;
    (destruct fuel as [|fuel]; [lia|]); rewrite spansLoop_step; cbn [print spans_of] in *.
  - unfold rest_ok in Hr. destruct (Index rest marker) as [k|]; [|done]. by rewrite Hr.
  - rewrite Index_app by done.
    replace (String.length t + 2) with (String.length (t +:+ marker)) by by rewrite sapp_length.
    rewrite <- (sapp_assoc t), sdrop_app, balanced_scan by done. cbn [Nat.add].
    set (b := t +:+ marker +:+ e +:+ "}").
    specialize (IH (a +:+ b) fuel). cbn [length] in Hf. rewrite !sapp_assoc in IH |- *.
    unfold b in IH at 1. rewrite !sapp_assoc in IH.
    assert (Hl : String.length (a +:+ b) = String.length t + String.length a + 2 + (1 + String.length e)).
    { unfold b. rewrite !sapp_length. cbn. lia. }
    rewrite Hl in IH. cbn [Nat.add] in IH. rewrite IH by lia. apply (f_equal Some), (f_equal Val).
    f_equal; [|f_equal; lia]. apply mkSpan_eq; [lia..|].
    replace (a +:+ t +:+ marker +:+ e +:+ "}" +:+ print parts rest)
      with ((a +:+ t +:+ marker) +:+ e +:+ ("}" +:+ print parts rest)) by by rewrite !sapp_assoc.
    apply slice_mid; rewrite !sapp_length; cbn; lia.
Qed.

Lemma spansLoop_sound fuel a b spans :
  spansLoop fuel (a +:+ b) (String.length a) = Some (Val spans) →
  ∃ parts rest, Forall part_ok parts ∧ rest_ok rest ∧ b = print parts rest ∧ spans = spans_of (String.length a) parts.
Proof.
  revert a b spans. induction fuel as [|fuel IH]; intros a b spans; [done|]. rewrite spansLoop_step.
  destruct (Index b marker) as [k|] eqn:Ei.
  2:{ intros [= <-]. exists [], b. unfold rest_ok. by rewrite Ei. }
  destruct (scanExpr _ _ _ _ _ _) as [q| |] eqn:E; [|intros [= <-]; exists [], b; unfold rest_ok; by rewrite Ei, E|done].
  apply scan_balanced in E as (e & He & -> & Hs).
  set (t := stake k b). assert (Ht : Index t marker = None) by by apply (Index_stake b marker).
  pose proof (Index_split _ _ _ Ei) as Hb. change (String.length marker) with 2 in Hb.
  rewrite Hs in Hb. fold t in Hb. set (r := sdrop (1 + String.length e) (sdrop (k + 2) b)) in *.
  assert (Hk : String.length t = k).
  { apply (f_equal String.length) in Hb. rewrite !sapp_length in Hb. cbn in Hb.
    unfold t in *. rewrite stake_length_min in *. lia. }
  assert (Hab : a +:+ b = (a +:+ t +:+ marker +:+ e +:+ "}") +:+ r) by (rewrite Hb at 1; by rewrite !sapp_assoc).
  assert (Hl : String.length (a +:+ t +:+ marker +:+ e +:+ "}") = k + String.length a + 2 + (1 + String.length e)).
  { rewrite !sapp_length. cbn. lia. }
  cbn zeta. rewrite Hab at 1. rewrite <- Hl.
  destruct (spansLoop _ _ _) as [[ms|]|] eqn:Er; [|done..]. intros [= <-].
  apply IH in Er as (parts & rest & Hp & Hr & -> & ->).
  exists ((t, e) :: parts), rest. split; [by constructor|]. split; [done|]. split; [done|].
  cbn [spans_of]. rewrite Hl, Hk. f_equal; [|f_equal; lia]. apply mkSpan_eq; [lia..|].
  rewrite Hab.
  replace ((a +:+ t +:+ marker +:+ e +:+ "}") +:+ print parts rest)
    with ((a +:+ t +:+ marker) +:+ e +:+ ("}" +:+ print parts rest)) by by rewrite !sapp_assoc.
  apply slice_mid; rewrite !sapp_length; cbn; lia.
Qed.

Lemma print_length parts rest : length parts ≤ String.length (print parts rest).
Proof.
  induction parts as [|[t e] parts IH]; cbn [print length]; [lia|]. rewrite !sapp_length. cbn. lia.
Qed.

Lemma findCELSpans_loop str : spansLoop (1 + String.length str) str 0 = Some (findCELSpans str).
Proof. unfold findCELSpans. destruct (spansLoop_total (1 + String.length str) str 0) as [r ->]; [lia|done]. Qed.

Lemma findCELSpans_parts parts rest :
  Forall part_ok parts → rest_ok rest → findCELSpans (print parts rest) = Val (spans_of 0 parts).
Proof.
  intros Hp Hr. pose proof (print_length parts rest) as Hl.
  assert (H := spansLoop_complete parts rest "" (1 + String.length (print parts rest)) Hp Hr).
  rewrite sapp_nil_l in H. cbn [String.length] in H. rewrite findCELSpans_loop in H. injection H; [done|]. lia.
Qed.

Lemma findCELSpans_inv str spans :
  findCELSpans str = Val spans →
  ∃ parts rest, Forall part_ok parts ∧ rest_ok rest ∧ str = print parts rest ∧ spans = spans_of 0 parts.
Proof.
  intros H. pose proof (findCELSpans_loop str) as Hl. rewrite H in Hl.
  exact (spansLoop_sound _ "" str spans Hl).
Qed.


Lemma spansLoop_error fuel str i err :
  spansLoop fuel str i = Some (Fail err) → chain err = [ErrNestedExpression].
Proof.
  revert i. induction fuel as [|fuel IH]; intros i; cbn [spansLoop]; [done|].
  case_match; [|done]. case_match; [|done]. case_match; [|done|by intros [= <-]].
  destruct (spansLoop fuel str pos) as [[ms|err']|] eqn:E; [done| |done]. intros [= <-]. eauto.
Qed.

(** The scan terminates on every string: each round of the outer loop
    resumes beyond the marker it found, so that as many rounds as the string
    has bytes, plus one, always end with the result, and more change nothing.
    The only failure is a nested marker outside quotes. *)
Theorem findCELSpans_terminates (str : string) (fuel : nat) :
  String.length str < fuel →
  spansLoop fuel str 0 = Some (findCELSpans str)
  ∧ ∀ err, findCELSpans str = Fail err → chain err = [ErrNestedExpression].
Proof.
  intros Hf. split.
  - rewrite <- findCELSpans_loop. apply spansLoop_fuel; lia.
  - intros err He. apply (spansLoop_error (1 + String.length str) str 0). by rewrite findCELSpans_loop, He.
Qed.

(** The bytes that are outside the spans contain no marker, so a string
    without a marker has no span. *)
Lemma findCELSpans_static str : Index str marker = None → findCELSpans str = Val [].
Proof. intros H. apply (findCELSpans_parts [] str); [constructor|]. unfold rest_ok. by rewrite H. Qed.
