(* ===== verification/TemplateEngine.v ===== *)
(** * The template engine

    [internal/template/engine.go]: evaluation of one CEL expression against
    the caches, the cost budget and the context, rendering of strings and of
    whole templates, and removal of omitted fields.  The CEL implementation
    (cel-go) is the class [CEL], the JSON codec the class [JSON]; what
    [ctx.Err()] returns is the class [RenderContext], by the number of times
    the render has looked at its context.  [renderState] is what the walk
    shares: the engine's caches, the budget and that number.  A render is a
    computation of [EM], so what it charged and cached before an error stays
    charged and cached. *)

From S2P Require Import Prelude GoStrings GoValue RenderErrors TemplateCache TemplateScan.

#[local] Set Warnings "-register-all".

(** ** CEL values *)

(** An element of a [[]any] inside a CEL list. *)
Inductive celItem (A : Type) : Type :=
  | IRef (v : A)
  | IRefMap (m : list (string * A))
  | INative (v : any).
Arguments IRef {A} v.
Arguments IRefMap {A} m.
Arguments INative {A} v.

(** [ref.Val], by its type and by what [Value()] returns.  A
    [map[ref.Val]ref.Val] is the list of its entries in the order of one
    iteration, with the text [%v] of the key's value. *)
Inductive CELVal :=
  | COmit
  | CErr (t msg : string)
  | CString (s : string)
  | CBool (b : bool)
  | CNumber (t x : string)
  | CListRef (l : list CELVal)
  | CListAny (l : list (celItem CELVal))
  | CListOther (v : any)
  | CMapRef (m : list (string * CELVal))
  | CMapAny (m : gmap string (CELVal + any))
  | CMapOther (v : any)
  | CWrapped (v : CELVal)
  | COther (v : any).

(** [omitSentinel], the pointer that marks a value to be left out. *)
Definition omit_type : string := "*template.omitValue".
Definition omitSentinel : any := VScalar omit_type "&{}".
Definition omitErrMsg : string := "__OC_RENDERER_OMIT__".

Definition is_omit (v : any) : bool :=
  match v with VScalar t _ => bool_decide (t = omit_type) | _ => false end.

Definition keepItems (l : list any) : list any := filter (λ v, is_omit v = false) l.

Definition keepEntries (m : gmap string any) : gmap string any := filter (λ p, is_omit p.2 = false) m.

Definition refValMap (entries : list (string * any)) : gmap string any :=
  foldl (λ result p, if is_omit p.2 then result else <[p.1 := p.2]> result) ∅ entries.

Fixpoint convertCELValue (val : CELVal) : any :=
  match val with
  | COmit => omitSentinel
  | CErr t msg => if bool_decide (msg = omitErrMsg) then omitSentinel else VScalar t msg
  | CString s => VString s
  | CBool b => VBool b
  | CNumber t x => VScalar t x
  | CListRef l => VSlice (keepItems (convertCELValue <$> l))
  | CListAny l =>
      (* convertAnyList: only a converted ref.Val is checked for the marker *)
      VSlice (omap (λ item,
        match item with
        | IRef v => let converted := convertCELValue v in if is_omit converted then None else Some converted
        | IRefMap m => Some (VMap (refValMap ((λ p, (p.1, convertCELValue p.2)) <$> m)))
        | INative v => Some v
        end) l)
  | CListOther v => v
  | CMapRef m => VMap (refValMap ((λ p, (p.1, convertCELValue p.2)) <$> m))
  | CMapAny m =>
      VMap (omap (λ o : option any, o)
        ((λ item,
          match item with
          | inl v => let converted := convertCELValue v in if is_omit converted then None else Some converted
          | inr v => Some v
          end) <$> m))
  | CMapOther v => v
  | CWrapped v => convertCELValue v
  | COther v => v
  end.

Fixpoint RemoveOmittedFields (data : any) : any :=
  match data with
  | VMap v => VMap (keepEntries (RemoveOmittedFields <$> v))
  | VSlice v => VSlice (keepItems (RemoveOmittedFields <$> v))
  | v => v
  end.

(** ** Interfaces *)

(** An error of [ContextEval]: the error value, and whether it is cel-go's
    [EvalCancelledError] with cause [CostLimitExceeded]. *)
Record evalError := mkEvalError { evalErr : goerr; costLimitHit : bool }.

Record evaluation := mkEvaluation { evalResult : CELVal + evalError; ActualCost : option Z }.

(** cel-go.  An environment is built from the declared variables (the engine's
    extensions are fixed); the outcome of an evaluation may depend on the
    moment, because the context may interrupt it. *)
Class CEL := {
  Env : Type;
  AST : Type;
  Program : Type;
  NewEnv : gset string → eres Env;
  Compile : Env → string → eres AST;
  NewProgram : Env → AST → Z → eres Program;
  ContextEval : Program → nat → gmap string any → evaluation
}.

(** encoding/json on dynamic values. *)
Class JSON := {
  json_Marshal : any → result string;
  json_Unmarshal : string → result any
}.

Inductive ctxCause := CauseCanceled | CauseDeadline.

Definition cause_sentinel (c : ctxCause) : sentinel :=
  match c with CauseCanceled => Canceled | CauseDeadline => DeadlineExceeded end.

(** [ctx.Err()] the n-th time the render looks; once done, a context stays
    done, with the same error. *)
Class RenderContext := ctx_Err : nat → option ctxCause.
Class RenderContextLaws `{RenderContext} :=
  ctx_Err_stays : ∀ n m c, ctx_Err n = Some c → n ≤ m → ctx_Err m = Some c.

(** The cost limit the engine was configured with. *)
Class EngineConfig := configuredLimit : Z.

Section Engine.
Context {C : CEL} {J : JSON} {X : RenderContext} {G : EngineConfig}.

(** Zero selects the built-in default. *)
Definition costLimit : Z :=
  if (configuredLimit =? 0)%Z then defaultCELCostLimit else configuredLimit.

Definition renderBudgetDefault : Z := mul64 costLimit renderBudgetFactor.

Record renderState := mkRS {
  cache : EngineCache Env Program;
  rsBudget : CostBudget;
  clock : nat
}.

Definition withCache (rs : renderState) (c : EngineCache Env Program) : renderState :=
  mkRS c (rsBudget rs) (clock rs).

(** ** One expression *)

(** [rs.ctx.Err()] *)
Definition ctxErr : EM renderState (option goerr) := λ rs,
  (mkRS (cache rs) (rsBudget rs) (1 + clock rs),
   Val ((λ c, sentinelErr (cause_sentinel c)) <$> ctx_Err (clock rs))).

Definition interrupted : EM renderState unit :=
  err ← ctxErr;
  match err with
  | Some err => throw (wrapf "template render interrupted: " err "")
  | None => mret ()
  end.

(** [buildEnv] declares every input as a variable. *)
Definition buildEnv (inputs : gmap string any) : eres Env := NewEnv (dom inputs).

Definition cacheGetEnv (k : string) : EM renderState (option Env) := λ rs,
  let '(c, r) := GetEnv (cache rs) k in (withCache rs c, Val r).
Definition cacheSetEnv (k : string) (env : Env) : EM renderState unit := λ rs,
  (withCache rs (SetEnv (cache rs) k env), Val ()).
Definition cacheGetProgram (envKey expression : string) : EM renderState (option Program) := λ rs,
  let '(c, r) := GetProgram (cache rs) envKey expression in (withCache rs c, Val r).
Definition cacheSetProgram (envKey expression : string) (p : Program) : EM renderState unit := λ rs,
  (withCache rs (SetProgram (cache rs) envKey expression p), Val ()).

Definition ofEres {S A} (r : eres A) : EM S A := λ s, (s, r).

Definition getOrCreateEnv (inputs : gmap string any) : EM renderState Env :=
  let cacheKey := envCacheKey inputs in
  cached ← cacheGetEnv cacheKey;
  match cached with
  | Some env => mret env
  | None =>
      env ← ofEres (buildEnv inputs);
      cacheSetEnv cacheKey env ≫= λ _, mret env
  end.

Definition inExpression (what expression : string) : string :=
  what +:+ " '" +:+ TruncateFragment expression +:+ "': ".

(** The compiled program, from the cache or compiled and stored. *)
Definition getProgram (env : Env) (envKey expression : string) : EM renderState Program :=
  cached ← cacheGetProgram envKey expression;
  match cached with
  | Some program => mret program
  | None =>
      ast ← mapErr (λ e, wrapf (inExpression "CEL compilation error in expression" expression) e "")
              (ofEres (Compile env expression));
      program ← mapErr (λ e, wrapf (inExpression "CEL program creation error for expression" expression) e "")
                  (ofEres (NewProgram env ast costLimit));
      cacheSetProgram envKey expression program ≫= λ _, mret program
  end.

Definition contextEval (program : Program) (inputs : gmap string any) : EM renderState evaluation := λ rs,
  (mkRS (cache rs) (rsBudget rs) (1 + clock rs), Val (ContextEval program (clock rs) inputs)).

(** [rs.budget.add] *)
Definition charge (cost : Z) : EM renderState (option goerr) := λ rs,
  let '(b, err) := add (rsBudget rs) cost in (mkRS (cache rs) b (clock rs), Val err).

Definition evaluateCEL (expression : string) (inputs : gmap string any) : EM renderState any :=
  rs ← getS;
  match exceeded (rsBudget rs) with
  | Some err => throw (wrapf (inExpression "CEL evaluation skipped for expression" expression) err "")
  | None =>
      env ← mapErr (λ e, wrapf "failed to build CEL environment: " e "") (getOrCreateEnv inputs);
      program ← getProgram env (envCacheKey inputs) expression;
      ev ← contextEval program inputs;
      budgetErr ← charge (default 0%Z (ActualCost ev));
      let evalError := inExpression "CEL evaluation error in expression" expression in
      match evalResult ev with
      | inr err =>
          if bool_decide (Error (evalErr err) = omitErrMsg) then
            match budgetErr with
            | Some budgetErr => throw (wrapf evalError budgetErr "")
            | None => mret omitSentinel
            end
          else
            ctxErr ← ctxErr;
            match ctxErr with
            | Some ctxErr =>
                throw (wrap2f (inExpression "CEL evaluation interrupted in expression" expression) ctxErr (evalErr err))
            | None =>
                if costLimitHit err
                then throw (wrap2f evalError (sentinelErr ErrCostLimitExceeded) (evalErr err))
                else throw (wrapf evalError (evalErr err) "")
            end
      | inl result =>
          match budgetErr with
          | Some budgetErr => throw (wrapf evalError budgetErr "")
          | None => mret (convertCELValue result)
          end
      end
  end.

(** ** Strings *)

(** [normalizeCELResult] maps every spelling of the omit marker to the
    sentinel and leaves other results alone. *)
Definition normalizeCELResult (result : any) : any := if is_omit result then omitSentinel else result.

(** The text of a value inside a longer string. *)
Definition replacement (value : any) : string :=
  let marshalled := match json_Marshal value with Ok bytes => bytes | Err _ => print_any value end in
  match value with
  | VString typed => typed
  | VScalar t x => if bool_decide (t = "int64") || bool_decide (t = "float64") then x else marshalled
  | VBool typed => if typed then "true" else "false"
  | _ => marshalled
  end.

Fixpoint interpolate (str : string) (inputs : gmap string any) (cursor : nat) (spans : list celSpan)
    (b : string) : EM renderState string :=
  match spans with
  | [] => mret (b +:+ sdrop cursor str)
  | span :: spans =>
      value ← evaluateCEL (inner span) inputs;
      interpolate str inputs (stop span) spans
        (b +:+ slice str cursor (start span) +:+ replacement value)
  end.

Definition renderString (str : string) (inputs : gmap string any) : EM renderState any :=
  interrupted ≫= λ _,
  spans ← ofEres (findCELSpans str);
  match spans with
  | [] => mret (VString str)
  | span :: more =>
      let trimmed := TrimSpace str in
      if bool_decide (more = []) && bool_decide (slice str (start span) (stop span) = trimmed)
      then result ← evaluateCEL (inner span) inputs; mret (normalizeCELResult result)
      else text ← interpolate str inputs 0 spans ""; mret (VString text)
  end.

(** ** Templates *)

Definition keyError (key : string) (renderedKey : any) : goerr :=
  errorf ("dynamic map key '" +:+ TruncateFragment key +:+ "' must evaluate to a string, got "
          +:+ type_name renderedKey +:+ ": " +:+ FormatFragment renderedKey).

(** The loop over the sorted keys; [entries] renders the value of a key. *)
Fixpoint renderEntries (inputs : gmap string any) (entries : gmap string (EM renderState any))
    (keys : list string) (result : gmap string any) : EM renderState (gmap string any) :=
  match keys with
  | [] => mret result
  | key :: keys =>
      renderedKey ← renderString key inputs;
      match renderedKey with
      | VString evaluatedKey =>
          renderedValue ← default (mret VNil) (entries !! key);
          renderEntries inputs entries keys
            (if is_omit renderedValue then result else <[evaluatedKey := renderedValue]> result)
      | _ => throw (keyError key renderedKey)
      end
  end.

Fixpoint renderItems (items : list (EM renderState any)) : EM renderState (list any) :=
  match items with
  | [] => mret []
  | item :: items =>
      rendered ← item;
      result ← renderItems items;
      mret (if is_omit rendered then result else rendered :: result)
  end.

Fixpoint render (data : any) (inputs : gmap string any) : EM renderState any :=
  interrupted ≫= λ _,
  match data with
  | VString v => renderString v inputs
  | VMap v =>
      result ← renderEntries inputs ((λ d, render d inputs) <$> v) (sorted_keys v) ∅;
      mret (VMap result)
  | VSlice v => result ← renderItems ((λ d, render d inputs) <$> v); mret (VSlice result)
  | v => mret v
  end.

(** ** The entry point *)

(** What a render entry point shares with its caller: the engine's caches, the
    budget the context carries, if any, the forEach budget it carries, if any,
    and how often the context was looked at. *)
Record St := mkSt {
  engine : EngineCache Env Program;
  ctxBudget : option CostBudget;
  forEachSpent : option Z;
  now : nat
}.

(** Without a budget on the context, one is made for this call only. *)
Definition Render (data : any) (inputs : gmap string any) : EM St any := λ st,
  let budget := default (NewCostBudget renderBudgetDefault) (ctxBudget st) in
  let '(rs, r) := render data inputs (mkRS (engine st) budget (now st)) in
  (mkSt (cache rs) ((λ _, rsBudget rs) <$> ctxBudget st) (forEachSpent st) (clock rs), r).

(** [WithReconcileBudget] *)
Definition WithReconcileBudget (st : St) (limit : Z) : St :=
  mkSt (engine st) (Some (NewCostBudget (reconcileBudget limit))) (forEachSpent st) (now st).

End Engine.
