(* ===== verification/TemplateSpec.v ===== *)
(** * The template engine: budget, cancellation, omission, strings

    How far a render can overspend its budget, what a cancelled render does,
    that no omit marker survives, that static templates render to themselves,
    and what a string with expressions renders to. *)

From S2P Require Import Prelude GoStrings GoValue RenderErrors TemplateCache TemplateScan TemplateEngine.

#[local] Set Warnings "-register-all".

(** ** Omission *)

(** No omit marker anywhere in maps and slices. *)
Fixpoint omit_free (v : any) : Prop :=
  match v with
  | VMap m => map_Forall (λ _ v, v) (omit_free <$> m)
  | VSlice l => foldr (λ p q, p ∧ q) True (omit_free <$> l)
  | v => is_omit v = false
  end.

Lemma omit_free_map m : omit_free (VMap m) ↔ map_Forall (λ _, omit_free) m.
Proof. cbn [omit_free]. by rewrite map_Forall_fmap. Qed.

Lemma omit_free_slice l : omit_free (VSlice l) ↔ Forall omit_free l.
Proof.
  cbn [omit_free]. induction l as [|x l IH]; [by split; [constructor|]|].
  rewrite fmap_cons, Forall_cons. cbn [foldr]. by rewrite IH.
Qed.

Lemma omit_free_top v : omit_free v → is_omit v = false.
Proof. by destruct v. Qed.

Lemma keepEntries_lookup m k v : keepEntries m !! k = Some v ↔ m !! k = Some v ∧ is_omit v = false.
Proof. unfold keepEntries. by rewrite map_lookup_filter_Some. Qed.

Lemma RemoveOmitted_free v : is_omit v = false → omit_free (RemoveOmittedFields v).
Proof.
  induction v as [|b|s|t x|m IH|l IH|l] using any_tree_ind; intros Hv; try done.
  - cbn [RemoveOmittedFields]. apply omit_free_map. intros k w [Hk Hw]%keepEntries_lookup.
    rewrite lookup_fmap in Hk. apply fmap_Some in Hk as (u & Hu & ->).
    apply (IH k u Hu). by destruct u.
  - cbn [RemoveOmittedFields]. apply omit_free_slice, Forall_forall. intros w.
    unfold keepItems. rewrite list_elem_of_filter. intros [Hw (u & -> & Hu)%list_elem_of_fmap].
    rewrite Forall_forall in IH. apply (IH u Hu). by destruct u.
Qed.

Lemma RemoveOmitted_id v : omit_free v → RemoveOmittedFields v = v.
Proof.
  induction v as [|b|s|t x|m IH|l IH|l] using any_tree_ind; intros Hv; try done; cbn [RemoveOmittedFields].
  - apply omit_free_map in Hv. f_equal. apply map_eq. intros k. apply option_eq. intros w.
    rewrite keepEntries_lookup, lookup_fmap. split.
    + intros [(u & Hu & ->)%fmap_Some _]. by rewrite (IH k u Hu) by exact (Hv k u Hu).
    + intros Hw. rewrite Hw. cbn. rewrite (IH k w Hw) by exact (Hv k w Hw).
      split; [done|]. apply omit_free_top, (Hv k w Hw).
  - apply omit_free_slice in Hv. f_equal. unfold keepItems.
    induction l as [|x l IHl]; [done|]. apply Forall_cons in Hv as [Hx Hv]. apply Forall_cons in IH as [Ex IH].
    rewrite fmap_cons, (Ex Hx), filter_cons_True by by apply omit_free_top. f_equal. by apply IHl.
Qed.

(** Removing omitted fields leaves no omit marker at any depth of maps and
    slices, keeps the outermost container, changes nothing in a value that has
    no marker, and so is idempotent. *)
Theorem RemoveOmittedFields_spec (v : any) :
  (is_omit v = false → omit_free (RemoveOmittedFields v))
  ∧ (omit_free v → RemoveOmittedFields v = v)
  ∧ RemoveOmittedFields (RemoveOmittedFields v) = RemoveOmittedFields v
  ∧ type_name (RemoveOmittedFields v) = type_name v.
Proof.
  split; [apply RemoveOmitted_free|]. split; [apply RemoveOmitted_id|]. split; [|by destruct v].
  destruct (is_omit v) eqn:Ev; [by destruct v|]. by apply RemoveOmitted_id, RemoveOmitted_free.
Qed.

Section Spec.
Context {C : CEL} {J : JSON} {X : RenderContext} {G : EngineConfig}.

(** ** Invariants of the shared state *)

Section Invariant.
Context (I : renderState → Prop).
(** Looking at the context, evaluating and using the caches do not matter. *)
Context (Iclock : ∀ rs, I rs → I (mkRS (cache rs) (rsBudget rs) (1 + clock rs))).
Context (Icache : ∀ rs c, I rs → I (withCache rs c)).
(** A charge is made for an evaluation of a program, when the budget was not
    exhausted. *)
Context (Icharge : ∀ rs p n inputs,
  I rs → exceeded (rsBudget rs) = None →
  I (mkRS (cache rs) (add (rsBudget rs) (default 0%Z (ActualCost (ContextEval p n inputs)))).1 (clock rs))).

Lemma ctxErr_preserves : preserves I ctxErr.
Proof. intros rs Hrs. by apply Iclock. Qed.

Lemma interrupted_preserves : preserves I interrupted.
Proof. unfold interrupted. apply preserves_bind; [apply ctxErr_preserves|]. intros [e|]; auto with render. Qed.

Lemma ofEres_preserves {A} (r : eres A) : preserves I (ofEres r).
Proof. by intros rs Hrs. Qed.

(** Only the caches change. *)
Definition cache_only {A} (m : EM renderState A) : Prop := ∀ rs, ∃ c, (m rs).1 = withCache rs c.

Lemma cache_only_ret {A} (a : A) : cache_only (mret a).
Proof. intros rs. exists (cache rs). by destruct rs. Qed.

Lemma cache_only_ofEres {A} (r : eres A) : cache_only (ofEres r).
Proof. intros rs. exists (cache rs). by destruct rs. Qed.

Lemma cache_only_bind {A B} (m : EM renderState A) (k : A → EM renderState B) :
  cache_only m → (∀ a, cache_only (k a)) → cache_only (m ≫= k).
Proof.
  intros Hm Hk rs. unfold mbind, EM_bind. destruct (Hm rs) as [c Hc].
  destruct (m rs) as [rs' [a|err]]; cbn [fst] in Hc; subst rs'; [|by exists c].
  destruct (Hk a (withCache rs c)) as [c' ->]. by exists c'.
Qed.

Lemma cache_only_mapErr {A} f (m : EM renderState A) : cache_only m → cache_only (mapErr f m).
Proof.
  intros Hm rs. unfold mapErr. destruct (Hm rs) as [c Hc].
  destruct (m rs) as [rs' [a|err]]; cbn [fst] in *; by exists c.
Qed.

Lemma cache_only_GetEnv k : cache_only (cacheGetEnv k).
Proof. intros rs. unfold cacheGetEnv. destruct (GetEnv _ _) as [c r]. by exists c. Qed.
Lemma cache_only_GetProgram k e : cache_only (cacheGetProgram k e).
Proof. intros rs. unfold cacheGetProgram. destruct (GetProgram _ _ _) as [c r]. by exists c. Qed.
Lemma cache_only_SetEnv k e : cache_only (cacheSetEnv k e).
Proof. intros rs. by eexists. Qed.
Lemma cache_only_SetProgram k e p : cache_only (cacheSetProgram k e p).
Proof. intros rs. by eexists. Qed.

Lemma cache_only_getOrCreateEnv inputs : cache_only (getOrCreateEnv inputs).
Proof.
  unfold getOrCreateEnv. apply cache_only_bind; [apply cache_only_GetEnv|]. intros [env|]; [apply cache_only_ret|].
  apply cache_only_bind; [apply cache_only_ofEres|]. intros env.
  apply cache_only_bind; [apply cache_only_SetEnv|]. intros _. apply cache_only_ret.
Qed.

Lemma cache_only_getProgram env k e : cache_only (getProgram env k e).
Proof.
  unfold getProgram. apply cache_only_bind; [apply cache_only_GetProgram|]. intros [p|]; [apply cache_only_ret|].
  apply cache_only_bind; [apply cache_only_mapErr, cache_only_ofEres|]. intros ast.
  apply cache_only_bind; [apply cache_only_mapErr, cache_only_ofEres|]. intros p.
  apply cache_only_bind; [apply cache_only_SetProgram|]. intros _. apply cache_only_ret.
Qed.

Lemma cache_only_then {A B} (m : EM renderState A) (k : A → EM renderState B) :
  cache_only m →
  (∀ a rs, I rs → exceeded (rsBudget rs) = None → I (k a rs).1) →
  ∀ rs, I rs → exceeded (rsBudget rs) = None → I ((m ≫= k) rs).1.
Proof.
  intros Hm Hk rs Hrs He. unfold mbind, EM_bind. destruct (Hm rs) as [c Hc].
  destruct (m rs) as [rs' [a|err]]; cbn [fst] in Hc; subst rs'; [|by apply Icache].
  apply Hk; [by apply Icache|done].
Qed.

Lemma evaluateCEL_preserves expression inputs : preserves I (evaluateCEL expression inputs).
Proof.
  intros rs Hrs. unfold evaluateCEL. unfold mbind at 1, EM_bind at 1. cbn [getS].
  destruct (exceeded (rsBudget rs)) eqn:He; [done|]. revert rs Hrs He.
  apply cache_only_then; [apply cache_only_mapErr, cache_only_getOrCreateEnv|]. intros env.
  apply cache_only_then; [apply cache_only_getProgram|]. intros p rs Hrs He.
  unfold mbind at 1, EM_bind at 1. cbn [contextEval]. unfold mbind at 1, EM_bind at 1.
  set (rs' := mkRS (cache rs) (rsBudget rs) (1 + clock rs)).
  set (ev := ContextEval p (clock rs) inputs).
  pose proof (Icharge rs' p (clock rs) inputs (Iclock rs Hrs) He) as Hc. fold ev in Hc.
  unfold charge. destruct (add _ _) as [b err]. cbn [fst] in Hc.
  match goal with |- I (?m _).1 => enough (preserves I m) as Hm by exact (Hm _ Hc) end.
  destruct (evalResult ev) as [v|e]; [by destruct err; auto with render|].
  case_bool_decide; [by destruct err; auto with render|].
  apply preserves_bind; [apply ctxErr_preserves|]. intros [x|]; [auto with render|].
  destruct (costLimitHit e); auto with render.
Qed.

Lemma interpolate_preserves str inputs cursor spans b : preserves I (interpolate str inputs cursor spans b).
Proof.
  revert cursor b. induction spans as [|span spans IH]; intros cursor b; cbn [interpolate]; [auto with render|].
  apply preserves_bind; [apply evaluateCEL_preserves|done].
Qed.

Lemma renderString_preserves str inputs : preserves I (renderString str inputs).
Proof.
  unfold renderString. apply preserves_bind; [apply interrupted_preserves|]. intros _.
  apply preserves_bind; [apply ofEres_preserves|]. intros [|span more]; [auto with render|].
  case_goal; (apply preserves_bind; [|auto with render]);
    auto using evaluateCEL_preserves, interpolate_preserves.
Qed.

Lemma renderEntries_preserves inputs entries keys result :
  (∀ k m, entries !! k = Some m → preserves I m) → preserves I (renderEntries inputs entries keys result).
Proof.
  intros He. revert result. induction keys as [|key keys IH]; intros result; cbn [renderEntries]; [auto with render|].
  apply preserves_bind; [apply renderString_preserves|]. intros v. destruct v; auto with render.
  apply preserves_bind; [|done]. destruct (entries !! key) eqn:E; cbn; [eauto|auto with render].
Qed.

Lemma renderItems_preserves items : Forall (preserves I) items → preserves I (renderItems items).
Proof.
  induction 1 as [|item items Hi _ IH]; cbn [renderItems]; [auto with render|].
  apply preserves_bind; [done|]. intros r. apply preserves_bind; auto with render.
Qed.

Lemma render_preserves data inputs : preserves I (render data inputs).
Proof.
  induction data as [|b|s|t x|m IH|l IH|l] using any_tree_ind; cbn [render];
    (apply preserves_bind; [apply interrupted_preserves|]; intros _); auto with render.
  - apply renderString_preserves.
  - apply preserves_bind; [|auto with render]. apply renderEntries_preserves.
    intros k c. rewrite lookup_fmap. intros (d & Hd & ->)%fmap_Some_1. exact (IH k d Hd).
  - apply preserves_bind; [|auto with render]. apply renderItems_preserves. by apply Forall_fmap.
Qed.
End Invariant.

(** ** The budget *)

(** The largest cost one evaluation reports. *)
Definition costs_bounded (m : Z) : Prop :=
  ∀ p n inputs c, ActualCost (ContextEval p n inputs) = Some c → (0 ≤ c ≤ m)%Z.

(** An allowance of [B], overspent by less than one evaluation. *)
Definition within (m B s0 : Z) (b : CostBudget) : Prop :=
  budget_wf b ∧ budget b = B ∧ ((0 < B)%Z → (spent b < B + Z.max 1 m)%Z) ∧ (s0 ≤ spent b)%Z.

Lemma within_new m B : uint64 B → within m B 0 (NewCostBudget B).
Proof. intros HB. split; [by apply NewCostBudget_wf|]. cbn. split; [done|]. lia. Qed.

Lemma within_add m B s0 b c :
  uint64 m → (0 ≤ c ≤ m)%Z → within m B s0 b → exceeded b = None → within m B s0 (add b c).1.
Proof.
  intros Hm Hc (Hwf & HB & Hs & H0) He.
  assert (Hc' : uint64 c) by (unfold uint64 in *; lia).
  split; [by apply add_wf|]. rewrite add_budget, add_spent by done. split; [done|].
  unfold exceeded in He. rewrite HB in He. destruct Hwf as [Hw _]. unfold uint64 in *.
  destruct (Z.ltb_spec 0 B), (Z.leb_spec B (spent b)); cbn in He; try done; split; intros; lia.
Qed.

Lemma render_within m B s0 data inputs :
  uint64 m → costs_bounded m → preserves (λ rs, within m B s0 (rsBudget rs)) (render data inputs).
Proof.
  intros Hm Hc. apply render_preserves; [done..|]. intros rs p n inp Hrs He. cbn [rsBudget].
  apply within_add; try done. specialize (Hc p n inp). destruct (ActualCost _); [by apply Hc|].
  cbn. unfold uint64 in Hm. lia.
Qed.

(** The budget that the context carries. *)
Definition budget_within (m B s0 : Z) (st : St) : Prop := ∃ b, ctxBudget st = Some b ∧ within m B s0 b.

Lemma Render_within m B s0 data inputs :
  uint64 m → costs_bounded m → preserves (budget_within m B s0) (Render data inputs).
Proof.
  intros Hm Hc st (b & Hb & Hw). unfold Render. rewrite Hb. cbn [default from_option id].
  pose proof (render_within m B s0 data inputs Hm Hc (mkRS (engine st) b (now st)) Hw) as Hr.
  destruct (render data inputs _) as [rs r]. cbn [fst] in *. eexists. split; [done|exact Hr].
Qed.

(** The forEach budget is not the engine's. *)
Lemma Render_forEach (P : option Z → Prop) data inputs :
  preserves (λ st, P (forEachSpent st)) (Render data inputs).
Proof. intros st Hst. unfold Render. by destruct (render _ _ _) as [rs r]. Qed.

(** ** Static templates *)

(** No marker in a string or a key, and no omit marker. *)
Fixpoint static (v : any) : Prop :=
  match v with
  | VString s => Index s marker = None
  | VMap m => map_Forall (λ k p, Index k marker = None ∧ p) (static <$> m)
  | VSlice l => foldr (λ p q, p ∧ q) True (static <$> l)
  | v => is_omit v = false
  end.

Lemma static_map m : static (VMap m) ↔ map_Forall (λ k v, Index k marker = None ∧ static v) m.
Proof. cbn [static]. by rewrite map_Forall_fmap. Qed.

Lemma static_slice l : static (VSlice l) ↔ Forall static l.
Proof.
  cbn [static]. induction l as [|x l IH]; [by split; [constructor|]|].
  rewrite fmap_cons, Forall_cons. cbn [foldr]. by rewrite IH.
Qed.

Lemma static_top v : static v → is_omit v = false.
Proof. by destruct v. Qed.

(** The computation returns [a] and only looks at the context. *)
Definition quietly {A} (m : EM renderState A) (a : A) : Prop :=
  ∀ rs, ∃ n, m rs = (mkRS (cache rs) (rsBudget rs) n, Val a).

Lemma quietly_ret {A} (a : A) : quietly (mret a) a.
Proof. intros rs. exists (clock rs). by destruct rs. Qed.

Lemma quietly_bind {A B} (m : EM renderState A) (k : A → EM renderState B) a b :
  quietly m a → quietly (k a) b → quietly (m ≫= k) b.
Proof.
  intros Hm Hk rs. unfold mbind, EM_bind. destruct (Hm rs) as [n ->]. destruct (Hk (mkRS (cache rs) (rsBudget rs) n)) as [n' ->].
  by exists n'.
Qed.

Section Uninterrupted.
Context (Hctx : ∀ n, ctx_Err n = None).

Lemma quietly_interrupted : quietly interrupted ().
Proof. intros rs. unfold interrupted, mbind, EM_bind, ctxErr. rewrite Hctx. by eexists. Qed.

Lemma quietly_renderString str inputs : Index str marker = None → quietly (renderString str inputs) (VString str).
Proof.
  intros Hs. unfold renderString. eapply quietly_bind; [apply quietly_interrupted|].
  rewrite findCELSpans_static by done. apply (quietly_bind _ _ []); [|apply quietly_ret].
  intros rs. exists (clock rs). by destruct rs.
Qed.

Lemma quietly_entries inputs entries (m : gmap string any) keys result :
  (∀ k, k ∈ keys → ∃ v c, m !! k = Some v ∧ entries !! k = Some c ∧ quietly c v ∧
     is_omit v = false ∧ Index k marker = None) →
  ∃ r, quietly (renderEntries inputs entries keys result) r ∧
    ∀ k, r !! k = if decide (k ∈ keys) then m !! k else result !! k.
Proof.
  revert result. induction keys as [|key keys IH]; intros result Hk; cbn [renderEntries].
  { exists result. split; [apply quietly_ret|]. intros k. by rewrite decide_False by apply not_elem_of_nil. }
  destruct (Hk key (list_elem_of_here _ _)) as (v & c & Hv & Hc & Hq & Ho & Hi).
  destruct (IH (<[key := v]> result)) as (r & Hr & Hrk); [intros k Hin; apply Hk; by right|].
  exists r. split.
  - eapply quietly_bind; [by apply quietly_renderString|]. cbn.
    eapply quietly_bind; [rewrite Hc; exact Hq|]. by rewrite Ho.
  - intros k. rewrite Hrk. destruct (decide (k = key)) as [->|Hne].
    + rewrite (decide_True _ _ (list_elem_of_here _ _)). case_decide; [done|]. by rewrite lookup_insert_eq.
    + rewrite lookup_insert_ne by done. case_decide as H1; case_decide as H2; try done; set_solver.
Qed.

Lemma render_static_quiet v inputs : static v → quietly (render v inputs) v.
Proof.
  induction v as [|b|s|t x|m IH|l IH|l] using any_tree_ind; intros Hv; cbn [render];
    (eapply quietly_bind; [apply quietly_interrupted|]); try apply quietly_ret.
  - by apply quietly_renderString.
  - apply static_map in Hv.
    destruct (quietly_entries inputs ((λ d, render d inputs) <$> m) m (sorted_keys m) ∅) as (r & Hr & Hrk).
    { intros k [v Hkv]%elem_of_sorted_keys. destruct (Hv k v Hkv) as [Hk Hs].
      exists v, (render v inputs). rewrite lookup_fmap, Hkv. split_and!; auto using static_top.
      exact (IH k v Hkv Hs). }
    eapply quietly_bind; [exact Hr|]. replace r with m; [apply quietly_ret|].
    apply map_eq. intros k. rewrite Hrk. case_decide as Hd; [done|]. rewrite lookup_empty.
    rewrite elem_of_sorted_keys in Hd. by apply eq_None_not_Some.
  - apply static_slice in Hv. eapply quietly_bind; [|apply quietly_ret].
    induction l as [|x l IHl]; [apply quietly_ret|]. apply Forall_cons in Hv as [Hx Hv].
    apply Forall_cons in IH as [Ex IH]. rewrite fmap_cons. cbn [renderItems].
    eapply quietly_bind; [by apply Ex|]. eapply quietly_bind; [by apply IHl|].
    rewrite static_top by done. apply quietly_ret.
Qed.
End Uninterrupted.

(** A template without expressions renders to itself, charges nothing to
    the budget and leaves the caches alone. *)
Theorem render_static (v : any) (inputs : gmap string any) (rs : renderState) :
  (∀ n, ctx_Err n = None) → static v →
  (render v inputs rs).2 = Val v
  ∧ rsBudget (render v inputs rs).1 = rsBudget rs ∧ cache (render v inputs rs).1 = cache rs.
Proof. intros Hctx Hv. by destruct (render_static_quiet Hctx v inputs Hv rs) as [n ->]. Qed.

End Spec.

(** * What a string renders to

    A template string that is one expression between blanks renders to the
    value of the expression; every other string renders to the concatenation
    of its texts and of the printed values of its expressions, evaluated from
    left to right. *)

#[local] Set Warnings "-register-all".

(** ** Blanks *)

Fixpoint all_space (s : string) : bool :=
  match s with "" => true | String c s => is_space c && all_space s end.

Lemma TrimLeftSpace_split s : ∃ sp, all_space sp = true ∧ s = sp +:+ TrimLeftSpace s.
Proof.
  induction s as [|c s (sp & Hsp & IH)]; [by exists ""|]. cbn [TrimLeftSpace].
  destruct (is_space c) eqn:Ec; [|by exists ""].
  exists (String c sp). cbn [all_space]. rewrite Ec, Hsp, sapp_cons. by rewrite <- IH.
Qed.

Lemma TrimRightSpace_split s : ∃ sp, all_space sp = true ∧ s = TrimRightSpace s +:+ sp.
Proof.
  induction s as [|c s (sp & Hsp & IH)]; [by exists ""|]. cbn [TrimRightSpace].
  destruct (TrimRightSpace s) as [|d t] eqn:Et.
  - rewrite sapp_nil_l in IH. subst s. destruct (is_space c) eqn:Ec.
    + exists (String c sp). cbn [all_space]. by rewrite Ec, Hsp.
    + exists sp. by rewrite sapp_cons.
  - exists sp. rewrite sapp_cons. split; [done|]. by rewrite <- IH.
Qed.

Lemma TrimSpace_split s :
  ∃ sp1 sp2, all_space sp1 = true ∧ all_space sp2 = true ∧ s = sp1 +:+ TrimSpace s +:+ sp2.
Proof.
  destruct (TrimLeftSpace_split s) as (sp1 & H1 & E1).
  destruct (TrimRightSpace_split (TrimLeftSpace s)) as (sp2 & H2 & E2).
  exists sp1, sp2. split; [done|]. split; [done|]. unfold TrimSpace. by rewrite <- E2.
Qed.

Lemma TrimLeftSpace_app sp c s :
  all_space sp = true → is_space c = false → TrimLeftSpace (sp +:+ String c s) = String c s.
Proof.
  induction sp as [|d sp IH]; intros Hsp Hc.
  - rewrite sapp_nil_l. cbn. by rewrite Hc.
  - cbn [all_space] in Hsp. apply andb_true_iff in Hsp as [Hd Hsp]. rewrite sapp_cons. cbn [TrimLeftSpace].
    rewrite Hd. by apply IH.
Qed.

Lemma TrimRightSpace_all sp : all_space sp = true → TrimRightSpace sp = "".
Proof.
  induction sp as [|d sp IH]; [done|]. cbn [all_space TrimRightSpace]. intros [Hd Hsp]%andb_true_iff.
  by rewrite (IH Hsp), Hd.
Qed.

Lemma TrimRightSpace_app s c sp :
  all_space sp = true → is_space c = false →
  TrimRightSpace (s +:+ String c sp) = s +:+ String c "".
Proof.
  intros Hsp Hc. induction s as [|d s IH].
  - rewrite !sapp_nil_l. cbn [TrimRightSpace]. by rewrite TrimRightSpace_all, Hc.
  - rewrite !sapp_cons. cbn [TrimRightSpace]. rewrite IH. by destruct s.
Qed.

Lemma all_space_no_marker sp : all_space sp = true → Index sp marker = None.
Proof.
  induction sp as [|c sp IH]; [done|]. cbn [all_space]. intros [Hc Hsp]%andb_true_iff. cbn [Index].
  unfold marker in *. rewrite HasPrefix_cons. case_bool_decide as Hd; [subst c; done|].
  cbn [andb]. by rewrite (IH Hsp).
Qed.

(** The trimmed string is the expression's own marker exactly when only blanks
    surround it. *)
Lemma standalone_trim t e rest :
  Index t marker = None →
  TrimSpace (t +:+ marker +:+ e +:+ "}" +:+ rest) = marker +:+ e +:+ "}"
  ↔ all_space t = true ∧ all_space rest = true.
Proof.
  intros Ht. split.
  - intros H. destruct (TrimSpace_split (t +:+ marker +:+ e +:+ "}" +:+ rest)) as (sp1 & sp2 & H1 & H2 & E).
    rewrite H in E. pose proof (Index_app t (e +:+ "}" +:+ rest) Ht) as I1.
    rewrite E, sapp_assoc, Index_app in I1 by by apply all_space_no_marker. injection I1 as Hl.
    assert (sp1 = t) as ->.
    { rewrite <- (stake_app sp1 ((marker +:+ e +:+ "}") +:+ sp2)), <- E, Hl. apply stake_app. }
    rewrite !sapp_assoc in E. do 4 apply (inj (String.app _)) in E. by subst sp2.
  - intros [H1 H2]. unfold TrimSpace.
    change (marker +:+ e +:+ "}" +:+ rest) with (String "$" ("{" +:+ e +:+ "}" +:+ rest)).
    rewrite TrimLeftSpace_app by done.
    replace (String "$" ("{" +:+ e +:+ "}" +:+ rest)) with ((marker +:+ e) +:+ String "}" rest)
      by by rewrite sapp_assoc.
    rewrite TrimRightSpace_app by done. by rewrite sapp_assoc.
Qed.

Section Strings.
Context {C : CEL} {J : JSON} {X : RenderContext} {G : EngineConfig}.

(** The texts with the printed values in between. *)
Fixpoint weave (parts : list part) (values : list any) (rest : string) : string :=
  match parts, values with
  | (t, _) :: parts, v :: values => t +:+ replacement v +:+ weave parts values rest
  | _, _ => rest
  end.

Definition standalone (parts : list part) (rest : string) : option string :=
  match parts with
  | [(t, e)] => if all_space t && all_space rest then Some e else None
  | _ => None
  end.

Definition renderParts (parts : list part) (rest : string) (inputs : gmap string any) : EM renderState any :=
  interrupted ≫= λ _,
  match standalone parts rest with
  | Some e => v ← evaluateCEL e inputs; mret (normalizeCELResult v)
  | None => values ← eMap (λ e, evaluateCEL e inputs) parts.*2; mret (VString (weave parts values rest))
  end.

Lemma interpolate_parts parts rest a b inputs rs :
  interpolate (a +:+ print parts rest) inputs (String.length a) (spans_of (String.length a) parts) b rs =
  (values ← eMap (λ e, evaluateCEL e inputs) parts.*2; mret (b +:+ weave parts values rest)) rs.
Proof.
  revert a b rs. induction parts as [|[t e] parts IH]; intros a b rs; cbn [interpolate print spans_of fmap list_fmap eMap].
  { unfold mbind, EM_bind. cbn. by rewrite sdrop_app. }
  rewrite bind_assoc. apply bind_ext. intros v s. rewrite bind_assoc.
  set (a' := a +:+ t +:+ marker +:+ e +:+ "}").
  assert (Hl : String.length a + String.length t + 3 + String.length e = String.length a').
  { unfold a'. rewrite !sapp_length. cbn. lia. }
  cbn [start stop]. rewrite Hl.
  replace (a +:+ t +:+ marker +:+ e +:+ "}" +:+ print parts rest) with (a' +:+ print parts rest)
    by (unfold a'; by rewrite !sapp_assoc).
  rewrite IH. apply bind_ext. intros vs s'. unfold mbind, EM_bind. cbn [mret EM_ret weave].
  assert (slice (a' +:+ print parts rest) (String.length a) (String.length a + String.length t) = t) as ->.
  { unfold a'. rewrite !sapp_assoc. apply slice_mid; lia. }
  unfold mret, EM_ret. by rewrite !sapp_assoc.
Qed.

(** A string that is one expression between blanks renders to the value of
    that expression with its type; any other string renders to its texts with
    the values of its expressions printed in their places, evaluated once each
    from left to right, the first failure ending the render. *)
Theorem renderString_spec (parts : list part) (rest : string) (inputs : gmap string any) (rs : renderState) :
  Forall part_ok parts → rest_ok rest →
  renderString (print parts rest) inputs rs = renderParts parts rest inputs rs.
Proof.
  intros Hp Hr. unfold renderString, renderParts. apply bind_ext. intros _ s.
  rewrite findCELSpans_parts by done. unfold ofEres. unfold mbind at 1, EM_bind at 1.
  assert (Hi : ∀ s, interpolate (print parts rest) inputs 0 (spans_of 0 parts) "" s =
    (values ← eMap (λ e, evaluateCEL e inputs) parts.*2; mret (weave parts values rest)) s)
    by exact (λ s, interpolate_parts parts rest "" "" inputs s).
  destruct parts as [|[t e] parts]; [done|]. cbn [spans_of].
  set (str := print _ rest) in *.
  assert (Hsl : slice str (0 + String.length t) (0 + String.length t + 3 + String.length e) = marker +:+ e +:+ "}").
  { unfold str. cbn [print]. replace (t +:+ marker +:+ e +:+ "}" +:+ print parts rest)
      with (t +:+ (marker +:+ e +:+ "}") +:+ print parts rest) by by rewrite !sapp_assoc.
    apply slice_mid; rewrite ?sapp_length; cbn; lia. }
  cbn [start stop inner]. rewrite Hsl.
  assert (Hno : ∀ s, (text ← interpolate str inputs 0 (spans_of 0 ((t, e) :: parts)) ""; mret (VString text)) s =
    (values ← eMap (λ e, evaluateCEL e inputs) ((t, e) :: parts).*2;
     mret (VString (weave ((t, e) :: parts) values rest))) s).
  { intros s'. unfold mbind at 1, EM_bind at 1. rewrite Hi. unfold mbind, EM_bind.
    by destruct (eMap _ _ s') as [s'' [vs|err]]. }
  apply Forall_cons in Hp as [[Ht _] _]. cbn [fst snd] in *.
  destruct parts as [|p parts].
  - rewrite bool_decide_eq_true_2 by done. cbn [andb standalone].
    pose proof (standalone_trim t e rest Ht) as Hst. unfold str at 1. cbn [print].
    destruct (all_space t && all_space rest) eqn:Es.
    + apply andb_true_iff in Es. apply Hst in Es. rewrite bool_decide_eq_true_2 by by symmetry. done.
    + rewrite bool_decide_eq_false_2; [apply Hno|]. intros Heq. symmetry in Heq. apply Hst in Heq as [E1 E2].
      by rewrite E1, E2 in Es.
  - destruct p as [t' e']. cbn [spans_of]. rewrite bool_decide_eq_false_2 by done. apply Hno.
Qed.

End Strings.
