(* ===== verification/TemplateCacheSpec.v ===== *)
(** * Caching does not change what is rendered

    A cache is sound when every program it holds is the one compilation would
    produce for the inputs and the expression of its key.  Renders keep caches
    sound, and two runs that differ only in sound caches, an empty or disabled
    one included, return the same, charge the same and look at the context as
    often.  The keys join variable names with control characters, so this needs
    names without them, and not empty. *)

From S2P Require Import Prelude GoStrings GoValue RenderErrors TemplateCache TemplateScan TemplateEngine.

#[local] Set Warnings "-register-all".

(** ** What a cache holds after a call *)

Section Find.
Context {T : Type}.

Lemma find_key_elem (l : lruCache T) k v :
  lru_ok l → find_key k (recency l) = Some v ↔ (k, v) ∈ recency l.
Proof. intros Hl. by apply find_key_Some, recency_nodup. Qed.

Lemma find_Get l k k' v :
  lru_ok l → find_key (T := T) k' (recency (Get l k).1) = Some v → find_key k' (recency l) = Some v.
Proof.
  intros Hl. destruct (Get_refines l k Hl) as (Hl' & Hr & _). rewrite !find_key_elem by done.
  rewrite Hr. unfold spec_get. destruct (find_key k (recency l)) eqn:E; [|done]. cbn [fst].
  apply find_key_elem in E; [|done]. rewrite elem_of_cons, elem_of_without. naive_solver.
Qed.

Lemma find_Set l k w k' v :
  lru_ok l → find_key (T := T) k' (recency (Set_ l k w)) = Some v →
  (k' = k ∧ v = w) ∨ find_key k' (recency l) = Some v.
Proof.
  intros Hl. destruct (Set_refines l k w Hl) as (Hl' & Hr). rewrite !find_key_elem by done.
  rewrite Hr. unfold spec_set. destruct (find_key k (recency l)) eqn:E.
  - rewrite elem_of_cons, elem_of_without. naive_solver.
  - intros Hin. assert ((k', v) ∈ (k, w) :: recency l) as Hc; [|apply elem_of_cons in Hc; naive_solver].
    revert Hin. case_goal; [|done]. destruct (exists_last (l := (k, w) :: recency l)) as (r & x & Hx); [done|].
    rewrite Hx, removelast_last. set_solver.
Qed.

(** What [Get] returns is in the cache. *)
Lemma Get_find l k v : lru_ok l → (Get l k).2 = Some v → find_key (T := T) k (recency l) = Some v.
Proof.
  intros Hl. destruct (Get_refines l k Hl) as (_ & _ & ->). unfold spec_get.
  destruct (find_key k (recency l)); naive_solver.
Qed.
End Find.

(** ** Keys *)

Definition good_name (s : string) : Prop :=
  s ≠ "" ∧ has_byte unit_sep s = false ∧ has_byte record_sep s = false.

Definition good_inputs (inputs : gmap string any) : Prop := ∀ k, k ∈ dom inputs → good_name k.

Lemma good_keys inputs : good_inputs inputs → Forall good_name (sorted_keys inputs).
Proof. intros Hg. apply Forall_forall. intros k Hk. apply Hg, elem_of_dom, elem_of_sorted_keys, Hk. Qed.

Lemma has_byte_Join c sep ws :
  has_byte c sep = false → Forall (λ w, has_byte c w = false) ws → has_byte c (Join ws sep) = false.
Proof.
  intros Hs. induction 1 as [|w ws Hw _ IH]; [done|]. cbn [Join]. destruct ws; [done|].
  by rewrite !has_byte_app, Hw, Hs, IH.
Qed.

Lemma envCacheKey_no_record inputs : good_inputs inputs → has_byte record_sep (envCacheKey inputs) = false.
Proof.
  intros Hg. unfold envCacheKey. case_goal; [done|]. apply has_byte_Join; [done|].
  eapply Forall_impl; [by apply good_keys|]. intros w Hw. apply Hw.
Qed.

Lemma envCacheKey_inj i1 i2 :
  good_inputs i1 → good_inputs i2 → envCacheKey i1 = envCacheKey i2 → dom i1 = dom i2.
Proof.
  intros G1 G2 Hk. apply sorted_keys_dom.
  assert (HS : ∀ i : gmap string any, good_inputs i → size i ≠ 0 →
    Split unit_sep (Join (sorted_keys i) (String unit_sep "")) = sorted_keys i ∧
    Join (sorted_keys i) (String unit_sep "") ≠ "").
  { intros i Hg Hi. pose proof (good_keys i Hg) as Hgk.
    assert (sorted_keys i ≠ []) as Hne.
    { intros Hn. apply Hi. apply (f_equal length) in Hn. unfold sorted_keys in Hn.
      by rewrite sort_Strings_perm, length_fmap, length_map_to_list in Hn. }
    split.
    - apply Split_Join; [done|]. eapply Forall_impl; [done|]. intros w Hw. apply Hw.
    - destruct (sorted_keys i) as [|w ws]; [done|]. apply Forall_cons in Hgk as [[Hw _] _].
      cbn [Join]. destruct ws; [done|]. by destruct w. }
  assert (HE : ∀ i : gmap string any, size i = 0 → sorted_keys i = []).
  { intros i Hi. apply map_size_empty_inv in Hi as ->. done. }
  unfold envCacheKey in Hk.
  destruct (Nat.eqb_spec (size i1) 0) as [E1|E1], (Nat.eqb_spec (size i2) 0) as [E2|E2].
  - by rewrite !HE.
  - by destruct (HS i2 G2 E2) as [_ []].
  - by destruct (HS i1 G1 E1) as [_ []].
  - destruct (HS i1 G1 E1) as [<- _], (HS i2 G2 E2) as [<- _]. by rewrite Hk.
Qed.

Lemma programCacheKey_inj i1 i2 e1 e2 :
  good_inputs i1 → good_inputs i2 →
  programCacheKey (envCacheKey i1) e1 = programCacheKey (envCacheKey i2) e2 → dom i1 = dom i2 ∧ e1 = e2.
Proof.
  intros G1 G2 Hk. unfold programCacheKey in Hk.
  apply (f_equal (Cut record_sep)) in Hk.
  change (String record_sep "" +:+ e1) with (String record_sep e1) in Hk.
  change (String record_sep "" +:+ e2) with (String record_sep e2) in Hk.
  rewrite !Cut_app in Hk by by apply envCacheKey_no_record.
  injection Hk as Hk ->. split; [|done]. by apply envCacheKey_inj.
Qed.

(** Two inputs and expressions share a cached program only when they
    declare the same variables and the expressions are the same text. *)
Theorem cache_keys_injective (i1 i2 : gmap string any) (e1 e2 : string) :
  good_inputs i1 → good_inputs i2 →
  (envCacheKey i1 = envCacheKey i2 ↔ dom i1 = dom i2)
  ∧ (programCacheKey (envCacheKey i1) e1 = programCacheKey (envCacheKey i2) e2 ↔ dom i1 = dom i2 ∧ e1 = e2).
Proof.
  intros G1 G2. assert (He : dom i1 = dom i2 → envCacheKey i1 = envCacheKey i2).
  { intros Hd. unfold envCacheKey. rewrite <- !size_dom, Hd. by rewrite (proj2 (sorted_keys_dom i1 i2) Hd). }
  split; [split; [by apply envCacheKey_inj|done]|].
  split; [by apply programCacheKey_inj|]. intros [Hd ->]. by rewrite He.
Qed.

(** ** Soundness *)

Section Sound.
Context {C : CEL} {J : JSON} {X : RenderContext} {G : EngineConfig}.

Definition env_sound (l : lruCache Env) : Prop :=
  lru_ok l ∧ ∀ k env, find_key k (recency l) = Some env →
    ∀ inputs, good_inputs inputs → envCacheKey inputs = k → buildEnv inputs = Val env.

(** What compilation produces, without a cache. *)
Definition compileProgram (env : Env) (expression : string) : EM renderState Program :=
  ast ← mapErr (λ e, wrapf (inExpression "CEL compilation error in expression" expression) e "")
          (ofEres (Compile env expression));
  mapErr (λ e, wrapf (inExpression "CEL program creation error for expression" expression) e "")
    (ofEres (NewProgram env ast costLimit)).

Definition program_sound (l : lruCache Program) : Prop :=
  lru_ok l ∧ ∀ k p, find_key k (recency l) = Some p →
    ∀ inputs expression env, good_inputs inputs → programCacheKey (envCacheKey inputs) expression = k →
    buildEnv inputs = Val env → ∀ rs, compileProgram env expression rs = (rs, Val p).

Definition cache_sound (c : EngineCache Env Program) : Prop :=
  (∀ l, envCache c = Some l → env_sound l) ∧ (∀ l, programCache c = Some l → program_sound l).

Lemma newEngineCache_sound b1 b2 : cache_sound (newEngineCache b1 b2).
Proof.
  split; intros l; unfold newEngineCache; cbn; (destruct b1, b2; try done); intros [= <-];
    (split; [apply newLRUCache_ok|]); intros k v; by rewrite find_key_None || done.
Qed.

(** ** The two lookups *)

Lemma env_sound_Get l k : env_sound l → env_sound (Get l k).1.
Proof.
  intros [Hl Hs]. split; [by apply Get_refines|]. intros k' env Hf. apply (Hs k'). by eapply find_Get.
Qed.

Lemma env_sound_Set l inputs env :
  env_sound l → good_inputs inputs → buildEnv inputs = Val env → env_sound (Set_ l (envCacheKey inputs) env).
Proof.
  intros [Hl Hs] Hg He. split; [by apply Set_refines|]. intros k' env' Hf i Hi Hk.
  apply find_Set in Hf as [[-> ->]|Hf]; [|by eapply Hs|done].
  unfold buildEnv in *. by rewrite (envCacheKey_inj i inputs Hi Hg Hk).
Qed.

Lemma program_sound_Get l k : program_sound l → program_sound (Get l k).1.
Proof.
  intros [Hl Hs]. split; [by apply Get_refines|]. intros k' p Hf. apply (Hs k'). by eapply find_Get.
Qed.

Lemma program_sound_Set l inputs expression env p :
  program_sound l → good_inputs inputs → buildEnv inputs = Val env →
  (∀ rs, compileProgram env expression rs = (rs, Val p)) →
  program_sound (Set_ l (programCacheKey (envCacheKey inputs) expression) p).
Proof.
  intros [Hl Hs] Hg He Hp. split; [by apply Set_refines|]. intros k' p' Hf i e env' Hi Hk He'.
  apply find_Set in Hf as [[-> ->]|Hf]; [|by eapply Hs|done].
  apply programCacheKey_inj in Hk as [Hd ->]; [|done..].
  assert (env' = env) as -> by (unfold buildEnv in *; rewrite Hd in He'; congruence). done.
Qed.

Lemma cache_sound_withEnv c l : cache_sound c → env_sound l → cache_sound (withEnvCache c l).
Proof. intros [_ Hp] He. split; [by intros l' [= <-]|exact Hp]. Qed.

Lemma cache_sound_withProgram c l : cache_sound c → program_sound l → cache_sound (withProgramCache c l).
Proof. intros [He _] Hp. split; [exact He|by intros l' [= <-]]. Qed.

(** Building the environment is the same with a sound cache. *)
Lemma getOrCreateEnv_sound inputs rs :
  good_inputs inputs → cache_sound (cache rs) →
  ∃ c, cache_sound c ∧ getOrCreateEnv inputs rs = (withCache rs c, buildEnv inputs).
Proof.
  intros Hg Hc. unfold getOrCreateEnv. unfold mbind at 1, EM_bind at 1. unfold cacheGetEnv, GetEnv.
  assert (Hmiss : ∀ c, cache_sound c → ∃ c', cache_sound c' ∧
    (ofEres (buildEnv inputs) ≫= λ env, cacheSetEnv (envCacheKey inputs) env ≫= λ _, mret env : EM renderState Env)
      (withCache rs c) = (withCache rs c', buildEnv inputs)).
  { intros c Hs. unfold mbind at 1, EM_bind at 1. unfold ofEres. destruct (buildEnv inputs) as [env|err] eqn:E; [|by exists c].
    exists (SetEnv c (envCacheKey inputs) env). split; [|done]. unfold SetEnv.
    destruct (envCache c) as [l|] eqn:El; [|done]. destruct (envCacheDisabled c); [done|].
    apply cache_sound_withEnv; [done|]. apply env_sound_Set; [|done..]. by apply Hs. }
  destruct (envCache (cache rs)) as [l|] eqn:El; [|by apply Hmiss].
  destruct (envCacheDisabled (cache rs)); [by apply Hmiss|].
  pose proof (proj1 Hc l El) as Hl. pose proof (env_sound_Get l (envCacheKey inputs) Hl) as Hl'.
  pose proof (cache_sound_withEnv _ _ Hc Hl') as Hc'. pose proof (Get_find l (envCacheKey inputs)) as Hf.
  destruct (Get l (envCacheKey inputs)) as [l' [env|]]; cbn [fst snd] in *; [|by apply Hmiss].
  eexists. split; [exact Hc'|]. destruct Hl as [Hok Hs]. by rewrite (Hs _ env (Hf env Hok eq_refl) inputs Hg eq_refl).
Qed.

Lemma compileProgram_state env expression rs : (compileProgram env expression rs).1 = rs.
Proof.
  unfold compileProgram, mbind, EM_bind, mapErr, ofEres. destruct (Compile env expression); [|done].
  by destruct (NewProgram _ _ _).
Qed.

Lemma compileProgram_result env expression rs rs' :
  (compileProgram env expression rs).2 = (compileProgram env expression rs').2.
Proof.
  unfold compileProgram, mbind, EM_bind, mapErr, ofEres. destruct (Compile env expression); [|done].
  by destruct (NewProgram _ _ _).
Qed.

(** So is the program. *)
Lemma getProgram_sound inputs env expression rs :
  good_inputs inputs → buildEnv inputs = Val env → cache_sound (cache rs) →
  ∃ c, cache_sound c ∧
    getProgram env (envCacheKey inputs) expression rs = (withCache rs c, (compileProgram env expression rs).2).
Proof.
  intros Hg He Hc. set (r := (compileProgram env expression rs).2).
  assert (Hmiss : ∀ c, cache_sound c → ∃ c', cache_sound c' ∧
    (compileProgram env expression ≫= λ p,
       cacheSetProgram (envCacheKey inputs) expression p ≫= λ _, mret p) (withCache rs c) = (withCache rs c', r)).
  { intros c Hs. unfold mbind at 1, EM_bind at 1.
    pose proof (compileProgram_state env expression (withCache rs c)) as H1.
    pose proof (compileProgram_result env expression (withCache rs c) rs) as H2. fold r in H2.
    pose proof (λ rs', compileProgram_state env expression rs') as H3.
    pose proof (λ rs', compileProgram_result env expression rs' rs) as H4. fold r in H4.
    destruct (compileProgram env expression (withCache rs c)) as [s' r']. cbn [fst snd] in *. subst s' r'.
    destruct r as [p|err]; [|by exists c].
    exists (SetProgram c (envCacheKey inputs) expression p). split; [|done]. unfold SetProgram.
    destruct (programCache c) as [l|] eqn:El; [|done]. destruct (progCacheDisabled c); [done|].
    apply cache_sound_withProgram; [done|]. eapply program_sound_Set; [by apply Hs|done|done|].
    intros rs'. specialize (H3 rs'). specialize (H4 rs').
    destruct (compileProgram env expression rs'). cbn [fst snd] in *. by subst. }
  assert (Heq : ∀ rs', getProgram env (envCacheKey inputs) expression rs' =
    (cached ← cacheGetProgram (envCacheKey inputs) expression;
     match cached with Some p => mret p | None =>
       compileProgram env expression ≫= λ p, cacheSetProgram (envCacheKey inputs) expression p ≫= λ _, mret p end) rs').
  { intros rs'. unfold getProgram, compileProgram, mbind, EM_bind.
    destruct (cacheGetProgram _ _ _) as [s [[p|]|]]; [done| |done]. by destruct (mapErr _ _ s) as [? [|]]. }
  rewrite Heq. unfold mbind at 1, EM_bind at 1. unfold cacheGetProgram, GetProgram.
  destruct (programCache (cache rs)) as [l|] eqn:El; [|by apply Hmiss].
  destruct (progCacheDisabled (cache rs)); [by apply Hmiss|].
  set (k := programCacheKey (envCacheKey inputs) expression).
  pose proof (proj2 Hc l El) as Hl. pose proof (program_sound_Get l k Hl) as Hl'.
  pose proof (cache_sound_withProgram _ _ Hc Hl') as Hc'. pose proof (Get_find l k) as Hf.
  destruct (Get l k) as [l' [p|]]; cbn [fst snd] in *; [|by apply Hmiss].
  eexists. split; [exact Hc'|]. destruct Hl as [Hok Hs]. unfold r.
  by rewrite (Hs _ p (Hf p Hok eq_refl) inputs expression env Hg eq_refl He).
Qed.

(** ** Transparency *)

(** The same state but for the caches, which are sound. *)
Definition same_but_cache (rs1 rs2 : renderState) : Prop :=
  cache_sound (cache rs1) ∧ cache_sound (cache rs2) ∧ rsBudget rs1 = rsBudget rs2 ∧ clock rs1 = clock rs2.

Abbreviation SBC := same_but_cache.

Lemma agrees_ctxErr : agrees SBC ctxErr.
Proof. intros rs1 rs2 (H1 & H2 & H3 & H4). unfold ctxErr. cbn. rewrite H4. by rewrite H3. Qed.

Lemma agrees_interrupted : agrees SBC interrupted.
Proof. unfold interrupted. apply agrees_bind; [apply agrees_ctxErr|]. intros [e|]; auto with render. Qed.

Lemma agrees_ofEres {A} (r : eres A) : agrees SBC (ofEres r).
Proof. by intros rs1 rs2 H. Qed.

Lemma agrees_contextEval p inputs : agrees SBC (contextEval p inputs).
Proof. intros rs1 rs2 (H1 & H2 & H3 & H4). unfold contextEval. cbn. rewrite H4. by rewrite H3. Qed.

Lemma agrees_charge cost : agrees SBC (charge cost).
Proof.
  intros rs1 rs2 (H1 & H2 & H3 & H4). unfold charge. rewrite H3. by destruct (add _ _).
Qed.

Lemma agrees_getS {A} (k : renderState → EM renderState A) :
  (∀ rs1 rs2, SBC rs1 rs2 → k rs1 = k rs2) → (∀ rs, agrees SBC (k rs)) → agrees SBC (getS ≫= k).
Proof. intros He Hk rs1 rs2 HR. unfold mbind, EM_bind. cbn [getS]. rewrite (He rs1 rs2 HR). by apply Hk. Qed.

(** The environment and the program, to the rest of the evaluation. *)
Lemma agrees_lookup inputs expression (k : Program → EM renderState any) :
  good_inputs inputs → (∀ p, agrees SBC (k p)) →
  agrees SBC (env ← mapErr (λ e, wrapf "failed to build CEL environment: " e "") (getOrCreateEnv inputs);
              program ← getProgram env (envCacheKey inputs) expression; k program).
Proof.
  intros Hg Hk rs1 rs2 (H1 & H2 & H3 & H4). unfold mbind at 1 3 5 7, EM_bind at 1 3 5 7. unfold mapErr.
  destruct (getOrCreateEnv_sound inputs rs1 Hg H1) as (c1 & Hc1 & ->).
  destruct (getOrCreateEnv_sound inputs rs2 Hg H2) as (c2 & Hc2 & ->).
  destruct (buildEnv inputs) as [env|err] eqn:He; [|done].
  unfold mbind, EM_bind.
  destruct (getProgram_sound inputs env expression (withCache rs1 c1) Hg He Hc1) as (d1 & Hd1 & ->).
  destruct (getProgram_sound inputs env expression (withCache rs2 c2) Hg He Hc2) as (d2 & Hd2 & ->).
  rewrite (compileProgram_result env expression (withCache rs1 c1) (withCache rs2 c2)).
  destruct (compileProgram _ _ _).2 as [p|err]; [by apply Hk|done].
Qed.

Lemma agrees_evaluateCEL expression inputs : good_inputs inputs → agrees SBC (evaluateCEL expression inputs).
Proof.
  intros Hg. unfold evaluateCEL. apply agrees_getS.
  { intros rs1 rs2 (_ & _ & -> & _). done. }
  intros rs. destruct (exceeded (rsBudget rs)); [auto with render|]. apply agrees_lookup; [done|]. intros p.
  apply agrees_bind; [apply agrees_contextEval|]. intros ev.
  apply agrees_bind; [apply agrees_charge|]. intros budgetErr.
  destruct (evalResult ev) as [v|e]; [by destruct budgetErr; auto with render|].
  case_bool_decide; [by destruct budgetErr; auto with render|].
  apply agrees_bind; [apply agrees_ctxErr|]. intros [x|]; [auto with render|].
  destruct (costLimitHit e); auto with render.
Qed.

Lemma agrees_interpolate str inputs cursor spans b :
  good_inputs inputs → agrees SBC (interpolate str inputs cursor spans b).
Proof.
  intros Hg. revert cursor b. induction spans as [|span spans IH]; intros cursor b; cbn [interpolate]; [auto with render|].
  apply agrees_bind; [by apply agrees_evaluateCEL|done].
Qed.

Lemma agrees_renderString str inputs : good_inputs inputs → agrees SBC (renderString str inputs).
Proof.
  intros Hg. unfold renderString. apply agrees_bind; [apply agrees_interrupted|]. intros _.
  apply agrees_bind; [apply agrees_ofEres|]. intros [|span more]; [auto with render|].
  case_goal; (apply agrees_bind; [|auto with render]);
    auto using agrees_evaluateCEL, agrees_interpolate.
Qed.

Lemma agrees_renderEntries inputs entries keys result :
  good_inputs inputs → (∀ k m, entries !! k = Some m → agrees SBC m) →
  agrees SBC (renderEntries inputs entries keys result).
Proof.
  intros Hg He. revert result. induction keys as [|key keys IH]; intros result; cbn [renderEntries]; [auto with render|].
  apply agrees_bind; [by apply agrees_renderString|]. intros v. destruct v; auto with render.
  apply agrees_bind; [|done]. destruct (entries !! key) eqn:E; cbn; [eauto|auto with render].
Qed.

Lemma agrees_renderItems items : Forall (agrees SBC) items → agrees SBC (renderItems items).
Proof.
  induction 1 as [|item items Hi _ IH]; cbn [renderItems]; [auto with render|].
  apply agrees_bind; [done|]. intros r. apply agrees_bind; auto with render.
Qed.

Lemma agrees_render data inputs : good_inputs inputs → agrees SBC (render data inputs).
Proof.
  intros Hg. induction data as [|b|s|t x|m IH|l IH|l] using any_tree_ind; cbn [render];
    (apply agrees_bind; [apply agrees_interrupted|]; intros _); auto with render.
  - by apply agrees_renderString.
  - apply agrees_bind; [|auto with render]. apply agrees_renderEntries; [done|].
    intros k c. rewrite lookup_fmap. intros (d & Hd & ->)%fmap_Some_1. exact (IH k d Hd).
  - apply agrees_bind; [|auto with render]. apply agrees_renderItems. by apply Forall_fmap.
Qed.

(** The same at the entry point. *)
Definition st_same_but_cache (st1 st2 : St) : Prop :=
  cache_sound (engine st1) ∧ cache_sound (engine st2) ∧ ctxBudget st1 = ctxBudget st2
  ∧ forEachSpent st1 = forEachSpent st2 ∧ now st1 = now st2.

Lemma agrees_Render data inputs : good_inputs inputs → agrees st_same_but_cache (Render data inputs).
Proof.
  intros Hg [e1 b1 f1 n1] [e2 b2 f2 n2] (H1 & H2 & H3 & H4 & H5). cbn in *. subst b2 f2 n2.
  unfold Render. cbn [engine ctxBudget now forEachSpent].
  set (bud := default (NewCostBudget renderBudgetDefault) b1).
  destruct (agrees_render data inputs Hg (mkRS e1 bud n1) (mkRS e2 bud n1)) as [(R1 & R2 & R3 & R4) Hr]; [done|].
  destruct (render data inputs (mkRS e1 bud n1)) as [rs1 r1], (render data inputs (mkRS e2 bud n1)) as [rs2 r2].
  cbn [fst snd] in *. split; [|done]. by rewrite R3, R4.
Qed.

(** C32: Caching is invisible: with any two sound caches, in particular the
    caches of a used engine and a disabled cache, a render of the same template
    and inputs returns the same value or error, leaves the same budget and has
    looked at its context as often; and the caches stay sound. *)
Theorem render_cache_transparent (data : any) (inputs : gmap string any) (st : St) (c : EngineCache Env Program) :
  good_inputs inputs → cache_sound (engine st) → cache_sound c →
  let run1 := Render data inputs st in
  let run2 := Render data inputs (mkSt c (ctxBudget st) (forEachSpent st) (now st)) in
  run1.2 = run2.2 ∧ ctxBudget run1.1 = ctxBudget run2.1 ∧ now run1.1 = now run2.1 ∧ cache_sound (engine run1.1).
Proof.
  intros Hg H1 H2. cbn zeta.
  destruct (agrees_Render data inputs Hg st (mkSt c (ctxBudget st) (forEachSpent st) (now st)))
    as [(R1 & _ & R3 & _ & R5) Hr]; [by split_and!|]. done.
Qed.
End Sound.
