(* ===== verification/Renderer.v ===== *)
(** * Resource templates

    [internal/pipeline/component/renderer]: the control flow of resource
    templates ([includeWhen], [forEach]), the limits on their expansion, the
    rendering of one resource and the evaluation of validation rules.  The
    templates' fields are those of [api/v1alpha1]; a raw JSON document is its
    text. *)

From S2P Require Import Prelude GoStrings GoValue RenderErrors TemplateCache TemplateScan TemplateEngine TemplateSpec TemplateCacheSpec.

#[local] Set Warnings "-register-all".

(** ** Data *)

Record ResourceTemplate := mkResourceTemplate {
  ID : string;
  rtTargetPlane : string;
  rtIncludeWhen : string;
  rtForEach : string;
  rtVar : string;
  rtTemplate : string
}.

Record ValidationRule := mkRule { Rule : string; Message : string }.

Record RenderedResource := mkRR { Resource : gmap string any; TargetPlane : string }.

(** [v, ok := m[k].(string)] and [m[k].(map[string]any)] *)
Definition stringAt (m : gmap string any) (k : string) : option string :=
  match m !! k with Some (VString s) => Some s | _ => None end.
Definition mapAt (m : gmap string any) (k : string) : option (gmap string any) :=
  match m !! k with Some (VMap s) => Some s | _ => None end.

(** [s, _ := m[k].(string)]: the empty string otherwise. *)
Definition stringOr (m : gmap string any) (k : string) : string := default "" (stringAt m k).

(** ** Limits on expansion *)

Definition maxForEachItems : Z := 100.
Definition maxForEachItemsPerRender : Z := 10000.

(** [Itoa] of the constants and counts of the messages. *)
Definition itemLimitErr (n : Z) : goerr :=
  wrapf "" (sentinelErr ErrExpansionLimitExceeded)
    (": forEach expanded to " +:+ Itoa n +:+ " items, exceeding the limit of " +:+ Itoa maxForEachItems).

Definition renderLimitErr : goerr :=
  wrapf "" (sentinelErr ErrExpansionLimitExceeded)
    (": forEach expansions would exceed the cumulative limit of " +:+ Itoa maxForEachItemsPerRender
     +:+ " items in one render").

Section Renderer.
Context {C : CEL} {J : JSON} {X : RenderContext} {G : EngineConfig}.

Definition withForEachSpent (st : St) (x : Z) : St :=
  mkSt (engine st) (ctxBudget st) (Some x) (now st).

(** An existing budget is kept. *)
Definition WithForEachBudget (st : St) : St :=
  match forEachSpent st with
  | Some _ => st
  | None => withForEachSpent st 0
  end.

Definition checkForEachLimit (n : Z) : EM St unit := λ st,
  if (maxForEachItems <? n)%Z then (st, Fail (itemLimitErr n))
  else
    match forEachSpent st with
    | None => (st, Val ())
    | Some spent =>
        if (maxForEachItemsPerRender - n <? spent)%Z
        then (withForEachSpent st (maxForEachItemsPerRender + 1), Fail renderLimitErr)
        else (withForEachSpent st (spent + n), Val ())
    end.

(** The items of a forEach result; a map gives its entries sorted by key. *)
Definition ToIterableItems (result : any) : EM St (list any) :=
  match result with
  | VSlice v => checkForEachLimit (Z.of_nat (length v)) ≫= λ _, mret v
  | VMapSlice v => checkForEachLimit (Z.of_nat (length v)) ≫= λ _, mret (VMap <$> v)
  | VMap v =>
      checkForEachLimit (Z.of_nat (size v)) ≫= λ _,
      mret ((λ key, VMap (<["key" := VString key]> {["value" := default VNil (v !! key)]})) <$> sorted_keys v)
  | _ => throw (errorf ("forEach must evaluate to array or map, got " +:+ type_name result))
  end.

(** ** Control flow *)

Definition ShouldInclude (includeWhen : string) (celContext : gmap string any) : EM St bool :=
  if bool_decide (includeWhen = "") then mret true
  else
    result ← Render (VString includeWhen) celContext;
    match result with
    | VBool boolResult => mret boolResult
    | _ => throw (errorf ("includeWhen must evaluate to boolean, got " +:+ type_name result))
    end.

Definition varNameOr (varName : string) : string := if bool_decide (varName = "") then "item" else varName.

Definition EvalForEach (forEach varName : string) (celContext : gmap string any) : EM St (list (gmap string any)) :=
  result ← Render (VString forEach) celContext;
  items ← ToIterableItems result;
  let varName := varNameOr varName in
  mret ((λ item, <[varName := item]> celContext) <$> items).

(** ** Resources *)

Definition validateResource (resource : gmap string any) (resourceID : string) : eres unit :=
  let missing field := Fail (errorf ("resource " +:+ resourceID +:+ " missing required field '" +:+ field +:+ "'")) in
  if bool_decide (stringOr resource "kind" = "") then missing "kind"
  else if bool_decide (stringOr resource "apiVersion" = "") then missing "apiVersion"
  else
    match mapAt resource "metadata" with
    | None => missing "metadata"
    | Some metadata =>
        if bool_decide (stringOr metadata "name" = "") then missing "metadata.name" else Val ()
    end.

Definition unmarshal {S} (raw : string) : EM S any :=
  match json_Unmarshal raw with
  | Ok v => mret v
  | Err msg => throw (errorf msg)
  end.

Definition renderSingleResource (tmpl : ResourceTemplate) (celContext : gmap string any) : EM St (gmap string any) :=
  templateData ← mapErr (λ e, wrapf ("failed to unmarshal template for resource " +:+ ID tmpl +:+ ": ") e "")
                   (unmarshal (rtTemplate tmpl));
  rendered ← mapErr (λ e, wrapf ("failed to render template for resource " +:+ ID tmpl +:+ ": ") e "")
               (Render templateData celContext);
  match rendered with
  | VMap resourceMap =>
      match RemoveOmittedFields (VMap resourceMap) with
      | VMap cleaned => ofEres (validateResource cleaned (ID tmpl)) ≫= λ _, mret cleaned
      | cleanedAny =>
          throw (errorf ("RemoveOmittedFields returned unexpected type " +:+ type_name cleanedAny
                         +:+ " for resource " +:+ ID tmpl))
      end
  | _ => throw (errorf ("template must render to object for resource " +:+ ID tmpl +:+ ", got " +:+ type_name rendered))
  end.

Definition renderWithForEach (tmpl : ResourceTemplate) (celContext : gmap string any) : EM St (list (gmap string any)) :=
  itemContexts ← mapErr (λ e, wrapf ("failed to evaluate forEach for resource " +:+ ID tmpl +:+ ": ") e "")
                   (EvalForEach (rtForEach tmpl) (rtVar tmpl) celContext);
  eMap (renderSingleResource tmpl) itemContexts.

(** The resources of one template. *)
Definition renderTemplate (celContext : gmap string any) (tmpl : ResourceTemplate) : EM St (list RenderedResource) :=
  include ← mapErr (λ e, wrapf ("failed to evaluate includeWhen for resource " +:+ ID tmpl +:+ ": ") e "")
              (ShouldInclude (rtIncludeWhen tmpl) celContext);
  if negb include then mret []
  else
    rendered ← (if bool_decide (rtForEach tmpl = "")
                then res ← renderSingleResource tmpl celContext; mret [res]
                else renderWithForEach tmpl celContext);
    mret ((λ res, mkRR res (rtTargetPlane tmpl)) <$> rendered).

Definition RenderResources (templates : list ResourceTemplate) (celContext : gmap string any) : EM St (list RenderedResource) :=
  perTemplate ← eMap (renderTemplate celContext) templates;
  mret (concat perTemplate).

(** ** Validation rules *)

Definition ruleError (i : nat) (rule : ValidationRule) (what : string) : string :=
  "rule[" +:+ Itoa (Z.of_nat i) +:+ "] " +:+ quoted (TruncateTo (Rule rule) 120) +:+ " " +:+ what.

Fixpoint rulesFrom (i : nat) (rules : list ValidationRule) (celContext : gmap string any) (errs : list goerr)
    : EM St (list goerr) :=
  match rules with
  | [] => mret errs
  | rule :: rules =>
      r ← try (Render (VString (Rule rule)) celContext);
      match r with
      | Fail err =>
          let errs := errs ++ [wrapf (ruleError i rule "evaluation error: ") err ""] in
          if IsRenderAborted err then mret errs else rulesFrom (1 + i) rules celContext errs
      | Val (VBool true) => rulesFrom (1 + i) rules celContext errs
      | Val (VBool false) =>
          rulesFrom (1 + i) rules celContext
            (errs ++ [errorf (ruleError i rule "evaluated to false: " +:+ Message rule)])
      | Val result =>
          rulesFrom (1 + i) rules celContext
            (errs ++ [errorf (ruleError i rule "must evaluate to boolean, got " +:+ type_name result)])
      end
  end.

Definition EvaluateValidationRules (rules : list ValidationRule) (celContext : gmap string any) : EM St unit :=
  errs ← rulesFrom 0 rules celContext [];
  match errors_Join errs with
  | Some err => throw err
  | None => mret ()
  end.
End Renderer.

(** * Resource templates: limits, shape, rules

    The expansion limits hold, every rendered resource has the fields that
    Kubernetes requires and no omit marker, validation passes exactly when every
    rule is true, and invariants and the independence from caches pass from the
    engine to the renderer. *)

#[local] Set Warnings "-register-all".

Section RendererSpec.
Context {C : CEL} {J : JSON} {X : RenderContext} {G : EngineConfig}.

(** ** Invariants *)

Section Invariant.
Context (I : St → Prop).
Context (HR : ∀ data inputs, preserves I (Render data inputs)).
Context (HF : ∀ n, preserves I (checkForEachLimit (Z.of_nat n))).

#[local] Hint Resolve HR HF : render.

Lemma ofEres_inv {A} (r : eres A) : preserves I (ofEres r).
Proof. by intros s Hs. Qed.

Lemma unmarshal_inv raw : preserves I (unmarshal raw).
Proof. unfold unmarshal. render_solve. Qed.

#[local] Hint Resolve ofEres_inv unmarshal_inv : render.

Lemma ToIterableItems_inv v : preserves I (ToIterableItems v).
Proof. unfold ToIterableItems. render_solve. Qed.

#[local] Hint Resolve ToIterableItems_inv : render.

Lemma ShouldInclude_inv w c : preserves I (ShouldInclude w c).
Proof. unfold ShouldInclude. render_solve. Qed.

Lemma EvalForEach_inv f v c : preserves I (EvalForEach f v c).
Proof. unfold EvalForEach. render_solve. Qed.

#[local] Hint Resolve ShouldInclude_inv EvalForEach_inv : render.

Lemma renderSingleResource_inv t c : preserves I (renderSingleResource t c).
Proof. unfold renderSingleResource. render_solve. Qed.

#[local] Hint Resolve renderSingleResource_inv : render.

Lemma renderWithForEach_inv t c : preserves I (renderWithForEach t c).
Proof. unfold renderWithForEach. render_solve. Qed.

#[local] Hint Resolve renderWithForEach_inv : render.

Lemma renderTemplate_inv c t : preserves I (renderTemplate c t).
Proof. unfold renderTemplate. render_solve. Qed.

#[local] Hint Resolve renderTemplate_inv : render.

Lemma RenderResources_inv ts c : preserves I (RenderResources ts c).
Proof. unfold RenderResources. render_solve. Qed.

Lemma rulesFrom_inv i rules c errs : preserves I (rulesFrom i rules c errs).
Proof.
  revert i errs. induction rules as [|rule rules IH]; intros i errs; cbn [rulesFrom]; [auto with render|].
  apply preserves_bind; [auto with render|]. intros [v|err]; [|case_goal; auto with render].
  destruct v; try apply IH. case_goal; apply IH.
Qed.

Lemma EvaluateValidationRules_inv rules c : preserves I (EvaluateValidationRules rules c).
Proof. unfold EvaluateValidationRules. apply preserves_bind; [apply rulesFrom_inv|]. intros errs. render_solve. Qed.
End Invariant.

(** ** Limits *)

(** The count stays within the limit of a render, or one above when a loop was
    refused. *)
Definition forEach_ok (st : St) : Prop :=
  ∀ x, forEachSpent st = Some x → (0 ≤ x ≤ maxForEachItemsPerRender + 1)%Z.

Lemma checkForEachLimit_ok st n :
  (0 ≤ n)%Z → forEach_ok st → forEach_ok (checkForEachLimit n st).1.
Proof.
  intros Hn Hok. unfold checkForEachLimit. case_goal; [done|].
  destruct (forEachSpent st) as [x|] eqn:Ex; [|done]. specialize (Hok x Ex).
  destruct (Z.ltb_spec (maxForEachItemsPerRender - n) x); intros y; cbn; intros [= <-];
    unfold maxForEachItemsPerRender in *; lia.
Qed.

(** A successful check counts the items, within both limits. *)
Lemma checkForEachLimit_Val st n st' :
  checkForEachLimit n st = (st', Val ()) →
  (n ≤ maxForEachItems)%Z
  ∧ (∀ x, forEachSpent st = Some x → forEachSpent st' = Some (x + n)%Z ∧ (x + n ≤ maxForEachItemsPerRender)%Z)
  ∧ (forEachSpent st = None → st' = st).
Proof.
  unfold checkForEachLimit. destruct (Z.ltb_spec maxForEachItems n); [done|].
  destruct (forEachSpent st) as [x|].
  - destruct (Z.ltb_spec (maxForEachItemsPerRender - n) x); [done|]. intros [= <-].
    split; [lia|]. split; [|done]. intros y [= <-]. split; [done|lia].
  - intros [= <-]. split; [lia|]. by split.
Qed.

(** The number of items a value iterates over. *)
Definition item_count (v : any) : Z :=
  match v with
  | VSlice l => Z.of_nat (length l)
  | VMapSlice l => Z.of_nat (length l)
  | VMap m => Z.of_nat (size m)
  | _ => 0
  end.

Lemma length_sorted_keys {A} (m : gmap string A) : length (sorted_keys m) = size m.
Proof. unfold sorted_keys. by rewrite sort_Strings_perm, length_fmap, length_map_to_list. Qed.

(** A loop runs over at most 100 items, one per element of a list or per
    entry of a map, map entries in the order of their keys; the items of all
    loops of one render are counted, and a loop that succeeds has not taken the
    count over 10,000. *)
Theorem ToIterableItems_bounded (v : any) (st st' : St) (x : Z) (items : list any) :
  forEachSpent st = Some x → ToIterableItems v st = (st', Val items) →
  (Z.of_nat (length items) = item_count v)
  ∧ (item_count v ≤ maxForEachItems)%Z
  ∧ forEachSpent st' = Some (x + item_count v)%Z
  ∧ (x + item_count v ≤ maxForEachItemsPerRender)%Z
  ∧ match v with
    | VSlice l => items = l
    | VMapSlice l => items = VMap <$> l
    | VMap m => items = (λ k, VMap (<["key" := VString k]> {["value" := default VNil (m !! k)]})) <$> sorted_keys m
    | _ => False
    end.
Proof.
  intros Hx. assert (HC : ∀ n (l : list any), (checkForEachLimit n ≫= λ _, mret l) st = (st', Val items) →
    items = l ∧ (n ≤ maxForEachItems)%Z ∧ forEachSpent st' = Some (x + n)%Z ∧ (x + n ≤ maxForEachItemsPerRender)%Z).
  { intros n l. unfold mbind, EM_bind. destruct (checkForEachLimit n st) as [s [[]|e]] eqn:E; [|done].
    intros [= -> <-]. apply checkForEachLimit_Val in E as (H1 & H2 & _). destruct (H2 x Hx). done. }
  destruct v as [|b|s|t y|m|l|l]; try done; intros (-> & H1 & H2 & H3)%HC; cbn [item_count];
    rewrite ?length_fmap, ?length_sorted_keys; done.
Qed.

(** A refused render stays refused. *)
Lemma checkForEachLimit_sticky st n m st' :
  (0 ≤ m)%Z → checkForEachLimit n st = (st', Fail renderLimitErr) → (n ≤ maxForEachItems)%Z →
  ∃ err, (checkForEachLimit m st').2 = Fail err ∧ errors_Is err ErrExpansionLimitExceeded = true.
Proof.
  intros Hm. unfold checkForEachLimit. destruct (Z.ltb_spec maxForEachItems n); [lia|].
  destruct (forEachSpent st) as [x|]; [|done]. destruct (Z.ltb_spec (maxForEachItemsPerRender - n) x); [|done].
  intros [= <-] _. cbn [forEachSpent withForEachSpent]. case_goal; [by eexists|].
  destruct (Z.ltb_spec (maxForEachItemsPerRender - m) (maxForEachItemsPerRender + 1)); [by eexists|lia].
Qed.

(** ** Shape of a rendered resource *)

(** The fields Kubernetes requires, as non-empty strings. *)
Definition well_formed (r : gmap string any) : Prop :=
  stringOr r "kind" ≠ "" ∧ stringOr r "apiVersion" ≠ ""
  ∧ ∃ meta, mapAt r "metadata" = Some meta ∧ stringOr meta "name" ≠ "".

Lemma validateResource_spec r id : validateResource r id = Val () ↔ well_formed r.
Proof.
  unfold validateResource, well_formed. repeat case_bool_decide; try (split; naive_solver).
  destruct (mapAt r "metadata") as [meta|]; [|split; naive_solver].
  case_bool_decide; split; naive_solver.
Qed.

Lemma yields_ofEres {S A} (r : eres A) (Q : A → Prop) : (∀ a, r = Val a → Q a) → yields (S := S) (ofEres r) Q.
Proof. intros H s a Ha. by apply H. Qed.

Definition good_resource (r : gmap string any) : Prop := well_formed r ∧ omit_free (VMap r).

Lemma renderSingleResource_good t c : yields (renderSingleResource t c) good_resource.
Proof.
  unfold renderSingleResource. apply yields_bind. intros data. apply yields_bind. intros r.
  destruct r as [|b|s|ty x|m|l|l]; try apply yields_throw.
  assert (Hf : omit_free (RemoveOmittedFields (VMap m))) by by apply RemoveOmitted_free.
  destruct (RemoveOmittedFields (VMap m)) as [|b|s|ty x|r|l|l]; try apply yields_throw.
  apply (yields_with _ _ (λ _, well_formed r)).
  - apply yields_ofEres. intros [] Hv. by apply validateResource_spec in Hv.
  - intros _ Hw. by apply yields_ret.
Qed.

Lemma renderTemplate_good c t :
  yields (renderTemplate c t) (Forall (λ rr, good_resource (Resource rr) ∧ TargetPlane rr = rtTargetPlane t)).
Proof.
  unfold renderTemplate. apply yields_bind. intros include.
  destruct (negb include); [by apply yields_ret|]. apply (yields_with _ _ (Forall good_resource)).
  - case_goal.
    + eapply yields_with; [apply renderSingleResource_good|]. intros r Hr. apply yields_ret. by apply Forall_singleton.
    + unfold renderWithForEach. apply yields_bind. intros ctxs. apply yields_eMap. intros x _.
      apply renderSingleResource_good.
  - intros rs Hrs. apply yields_ret. apply Forall_fmap. eapply Forall_impl; [exact Hrs|]. done.
Qed.

Lemma RenderResources_yields templates celContext :
  yields (RenderResources templates celContext)
    (Forall (λ rr, good_resource (Resource rr) ∧ TargetPlane rr ∈ rtTargetPlane <$> templates)).
Proof.
  unfold RenderResources.
  apply (yields_with _ _ (Forall (Forall (λ rr, good_resource (Resource rr) ∧ TargetPlane rr ∈ rtTargetPlane <$> templates)))).
  - apply yields_eMap. intros t Ht s rs Hrs. apply renderTemplate_good in Hrs.
    eapply Forall_impl; [exact Hrs|]. intros rr [Hg ->]. split; [done|]. by apply list_elem_of_fmap_2.
  - intros rss Hrss. apply yields_ret. by apply Forall_concat.
Qed.

(** Whatever templates and context it is given, every resource that
    [RenderResources] returns has a kind, an apiVersion and a metadata.name that
    are non-empty strings, contains no omit marker at any depth, and goes to the
    plane of one of the templates; anything else is an error. *)
Theorem RenderResources_good (templates : list ResourceTemplate) (celContext : gmap string any)
    (st st' : St) (resources : list RenderedResource) :
  RenderResources templates celContext st = (st', Val resources) →
  Forall (λ rr, well_formed (Resource rr) ∧ omit_free (VMap (Resource rr))
                ∧ TargetPlane rr ∈ rtTargetPlane <$> templates) resources.
Proof.
  intros H. pose proof (RenderResources_yields templates celContext st resources) as Hy.
  rewrite H in Hy. eapply Forall_impl; [by apply Hy|]. intros rr [[Hw Ho] Hp]. done.
Qed.

(** ** Validation rules *)

(** Every rule, evaluated in order, and what it returned. *)
Definition evaluateAll (rules : list ValidationRule) (c : gmap string any) : EM St (list any) :=
  eMap (λ rule, Render (VString (Rule rule)) c) rules.

Lemma rulesFrom_errs i rules c errs : yields (rulesFrom i rules c errs) (λ errs', ∃ more, errs' = errs ++ more).
Proof.
  revert i errs. induction rules as [|rule rules IH]; intros i errs; cbn [rulesFrom].
  { apply yields_ret. exists []. by rewrite app_nil_r. }
  assert (Hx : ∀ e, yields (rulesFrom (1 + i) rules c (errs ++ [e])) (λ errs', ∃ more, errs' = errs ++ more)).
  { intros e s a (more & ->)%IH. exists (e :: more). by rewrite <- app_assoc. }
  apply yields_bind. intros [v|err].
  - destruct v as [|[]|s|t x|m|l|l]; try apply Hx. apply IH.
  - case_goal; [|apply Hx]. apply yields_ret. by eexists.
Qed.

Lemma rulesFrom_nil i rules c st st' :
  rulesFrom i rules c [] st = (st', Val []) ↔
  evaluateAll rules c st = (st', Val (replicate (length rules) (VBool true))).
Proof.
  revert i st. induction rules as [|rule rules IH]; intros i st; [split; by intros [= ->]|].
  cbn [rulesFrom evaluateAll eMap length replicate]. rewrite !bind_eq. unfold try.
  destruct (Render (VString (Rule rule)) c st) as [s r]. cbn [fst snd].
  assert (Hno : ∀ j e, rulesFrom j rules c [e] s ≠ (st', Val [])).
  { intros j e H. destruct (rulesFrom_errs j rules c [e] s []) as [more Hm]; [by rewrite H|done]. }
  assert (Hres : ∀ v, v ≠ VBool true →
    (evaluateAll rules c ≫= λ a, mret (v :: a) : EM St (list any)) s
    ≠ (st', Val (VBool true :: replicate (length rules) (VBool true)))).
  { intros v Hv. unfold mbind, EM_bind. destruct (evaluateAll rules c s) as [s' [vs|]]; [|done].
    by intros [= _ ->]. }
  destruct r as [v|err].
  - destruct v as [|[]|x|t x|m|l|l]; cbn [app]; try (split; intros H; [by apply Hno in H|by apply Hres in H]).
    rewrite IH. unfold evaluateAll, mbind, EM_bind. destruct (eMap _ rules s) as [s' [vs|e]]; [|done].
    unfold mret, EM_ret. split; [by intros [= -> ->]|by intros [= -> ->]].
  - split; [|done]. cbn [app]. case_goal; [done|]. intros H. by apply Hno in H.
Qed.

(** Validation succeeds exactly when every rule, evaluated once and in
    order, renders to the boolean true; it then has the same effect as those
    evaluations and no other. *)
Theorem EvaluateValidationRules_spec (rules : list ValidationRule) (celContext : gmap string any) (st st' : St) :
  EvaluateValidationRules rules celContext st = (st', Val ()) ↔
  evaluateAll rules celContext st = (st', Val (replicate (length rules) (VBool true))).
Proof.
  rewrite <- (rulesFrom_nil 0). unfold EvaluateValidationRules, mbind, EM_bind.
  destruct (rulesFrom 0 rules celContext [] st) as [s [errs|e]]; [|done].
  destruct errs as [|e errs]; cbn; [|done]. unfold mret, EM_ret. split; by intros [= ->].
Qed.
End RendererSpec.
