(* ===== verification/TraitProcessor.v ===== *)
(** * Traits

    [internal/pipeline/component/trait/processor.go]: a trait creates
    resources, patches resources in place and removes resources.  The state
    [TS] holds what the code shares by reference: the renderer's state, the
    counter of patch operations, the slice of rendered resources, whose maps are
    patched in place, and the trait's context map, whose [resource] entry is
    rebound while a where clause is evaluated.  Every rendered resource is a map
    of its own, so a resource is identified by its position in the slice: a
    target is that position with the resource found there. *)

From S2P Require Import Prelude GoStrings GoValue PatchOps RenderErrors TemplateCache TemplateScan TemplateEngine Renderer.

#[local] Set Warnings "-register-all".

(** ** Data *)

Record PatchTarget := mkPatchTarget { Group : string; Version : string; Kind : string; Where : string }.

(** [v1alpha1.JSONPatchOperation]; the value is absent or a raw document. *)
Record PatchOperation := mkPatchOperation { poOp : string; poPath : string; poValue : option string }.

Record TraitCreate := mkTraitCreate {
  tcTargetPlane : string; tcIncludeWhen : string; tcForEach : string; tcVar : string; tcTemplate : string
}.

Record TraitPatch := mkTraitPatch {
  tpForEach : string; tpVar : string; tpTarget : PatchTarget; tpTargetPlane : string;
  Operations : list PatchOperation
}.

Record TraitRemove := mkTraitRemove {
  trForEach : string; trVar : string; trTarget : PatchTarget; trTargetPlane : string
}.

(** The fields of [v1alpha1.Trait] that processing reads. *)
Record TraitBody := mkTraitBody {
  traitName : string; Creates : list TraitCreate; Patches : list TraitPatch; Removes : list TraitRemove
}.

Record TargetSpec := mkTargetSpec {
  tsKind : string; tsGroup : string; tsVersion : string; tsWhere : string; tsTargetPlane : string
}.

Definition maxPatchOperations : Z := 10000.

(** A resource of the slice with its position. *)
Definition target : Type := nat * RenderedResource.
Definition addressed (resources : list RenderedResource) : list target := imap pair resources.

(** ** Selecting resources *)

Definition splitAPIVersion (apiVersion : string) : string * string :=
  if bool_decide (apiVersion = "") then ("", "")
  else if Contains apiVersion "/" then let '(group, version, _) := Cut "/"%char apiVersion in (group, version)
  else ("", apiVersion).

Fixpoint FindTargetResources (resources : list target) (spec : TargetSpec) : list target :=
  match resources with
  | [] => []
  | rr :: rest =>
      let next := FindTargetResources rest spec in
      let resource := Resource rr.2 in
      if negb (bool_decide (tsTargetPlane spec = "")) && negb (bool_decide (TargetPlane rr.2 = tsTargetPlane spec))
      then next
      else if negb (bool_decide (tsKind spec = ""))
              && match stringAt resource "kind" with
                 | Some kind => negb (bool_decide (kind = tsKind spec))
                 | None => true
                 end
      then next
      else
        let '(group, version) :=
          match stringAt resource "apiVersion" with Some gv => splitAPIVersion gv | None => ("", "") end in
        if negb (bool_decide (tsGroup spec = "")) && negb (bool_decide (group = tsGroup spec)) then next
        else if negb (bool_decide (tsVersion spec = "")) && negb (bool_decide (version = tsVersion spec)) then next
        else rr :: next
  end.

Definition matchesTarget (rr : RenderedResource) (spec : TargetSpec) : bool :=
  let resource := Resource rr in
  let '(group, version) :=
    match stringAt resource "apiVersion" with Some gv => splitAPIVersion gv | None => ("", "") end in
  (bool_decide (tsTargetPlane spec = "") || bool_decide (TargetPlane rr = tsTargetPlane spec))
  && (bool_decide (tsKind spec = "") || bool_decide (stringAt resource "kind" = Some (tsKind spec)))
  && (bool_decide (tsGroup spec = "") || bool_decide (group = tsGroup spec))
  && (bool_decide (tsVersion spec = "") || bool_decide (version = tsVersion spec)).

Section Trait.
Context {C : CEL} {J : JSON} {X : RenderContext} {G : EngineConfig}.

(** ** State *)

Record TS := mkTS {
  base : St;
  patchOperations : Z;
  celContext : gmap string any;
  resources : list RenderedResource
}.

Definition lift {A} (m : EM St A) : EM TS A := λ ts,
  let '(st, r) := m (base ts) in (mkTS st (patchOperations ts) (celContext ts) (resources ts), r).

Definition setContext (c : gmap string any) : EM TS unit := λ ts,
  (mkTS (base ts) (patchOperations ts) c (resources ts), Val ()).

Definition setResources (rs : list RenderedResource) : EM TS unit := λ ts,
  (mkTS (base ts) (patchOperations ts) (celContext ts) rs, Val ()).

Definition gets {A} (f : TS → A) : EM TS A := λ ts, (ts, Val (f ts)).

(** The engine's [Render] in the trait's context. *)
Definition renderHere (data : any) : EM TS any :=
  c ← gets celContext; lift (Render data c).

(** Code that works on a clone of the context with one more binding; the
    original is untouched. *)
Definition withItem {A} (varName : string) (item : any) (m : EM TS A) : EM TS A :=
  c ← gets celContext;
  setContext (<[varName := item]> c) ≫= λ _,
  r ← try m;
  setContext c ≫= λ _, ofEres r.

(** [ctx.Err()] outside the engine. *)
Definition ctxErrHere : EM TS (option goerr) := λ ts,
  let st := base ts in
  (mkTS (mkSt (engine st) (ctxBudget st) (forEachSpent st) (1 + now st))
     (patchOperations ts) (celContext ts) (resources ts),
   Val ((λ c, sentinelErr (cause_sentinel c)) <$> ctx_Err (now st))).

(** ** Creating *)

Definition renderSingleCreate (create : TraitCreate) (c : gmap string any) (path : string) : EM St RenderedResource :=
  templateData ← mapErr (λ e, wrapf ("failed to unmarshal create template for " +:+ path +:+ ": ") e "")
                   (unmarshal (tcTemplate create));
  rendered ← mapErr (λ e, wrapf ("failed to render create template for " +:+ path +:+ ": ") e "")
               (Render templateData c);
  match rendered with
  | VMap resourceMap =>
      match RemoveOmittedFields (VMap resourceMap) with
      | VMap cleaned => mret (mkRR cleaned (tcTargetPlane create))
      | cleanedAny =>
          throw (errorf ("RemoveOmittedFields returned unexpected type " +:+ type_name cleanedAny +:+ " for " +:+ path))
      end
  | _ => throw (errorf ("create template must render to object for " +:+ path +:+ ", got " +:+ type_name rendered))
  end.

Definition appendResource (rr : RenderedResource) : EM TS unit :=
  rs ← gets resources; setResources (rs ++ [rr]).

Definition applyCreate (trait : TraitBody) (i : nat) (create : TraitCreate) : EM TS unit :=
  let createPath := "trait " +:+ traitName trait +:+ " create #" +:+ Itoa (Z.of_nat i) in
  c ← gets celContext;
  include ← mapErr (λ e, wrapf ("failed to evaluate includeWhen for " +:+ createPath +:+ ": ") e "")
              (lift (ShouldInclude (tcIncludeWhen create) c));
  if negb include then mret ()
  else if negb (bool_decide (tcForEach create = "")) then
    itemContexts ← mapErr (λ e, wrapf ("failed to evaluate forEach for " +:+ createPath +:+ ": ") e "")
                     (lift (EvalForEach (tcForEach create) (tcVar create) c));
    eForEach (λ itemContext, lift (renderSingleCreate create itemContext createPath) ≫= appendResource) itemContexts
  else lift (renderSingleCreate create c createPath) ≫= appendResource.

Definition ApplyTraitCreates (trait : TraitBody) : EM TS unit :=
  eForEachFrom 0 (applyCreate trait) (Creates trait).

(** ** Where clauses *)

Definition bindResource (resource : gmap string any) : EM TS unit :=
  c ← gets celContext; setContext (<["resource" := VMap resource]> c).

Definition restoreResource (previous : option any) : EM TS unit :=
  c ← gets celContext;
  setContext (match previous with Some p => <["resource" := p]> c | None => delete "resource" c end).

(** "trait <name> patch #<i>" or "trait <name> remove #<i>" *)
Definition traitRef (name what : string) (i : nat) : string :=
  "trait " +:+ name +:+ " " +:+ what +:+ " #" +:+ Itoa (Z.of_nat i).

Definition whereError (whereClause ref : string) (err : goerr) : goerr :=
  wrapf ("failed to evaluate where clause '" +:+ TruncateFragment whereClause +:+ "' for " +:+ ref +:+ ": ") err "".

Definition whereTypeError (whereClause ref : string) (result : any) : goerr :=
  errorf ("where clause '" +:+ TruncateFragment whereClause +:+ "' must evaluate to boolean for " +:+ ref
          +:+ ", got " +:+ type_name result).

Fixpoint filterLoop (previous : option any) (whereClause ref : string) (targets : list target) : EM TS (list target) :=
  match targets with
  | [] => mret []
  | rr :: rest =>
      bindResource (Resource rr.2) ≫= λ _,
      r ← try (renderHere (VString whereClause));
      match r with
      | Fail err => restoreResource previous ≫= λ _, throw (whereError whereClause ref err)
      | Val (VBool boolResult) =>
          filtered ← filterLoop previous whereClause ref rest;
          mret (if boolResult then rr :: filtered else filtered)
      | Val result => restoreResource previous ≫= λ _, throw (whereTypeError whereClause ref result)
      end
  end.

Definition filterTargets (targets : list target) (whereClause ref : string) : EM TS (list target) :=
  previous ← gets (λ ts, celContext ts !! "resource");
  filtered ← filterLoop previous whereClause ref targets;
  restoreResource previous ≫= λ _, mret filtered.

(** ** Patching *)

(** The rendered value of an operation: nil without one, or for remove. *)
Definition renderValue (op : PatchOperation) (ref : string) : EM TS any :=
  if bool_decide (poOp op = "remove") then mret VNil
  else
    match poValue op with
    | None => mret VNil
    | Some raw =>
        value ← mapErr (λ e, wrapf ("failed to unmarshal value for " +:+ ref +:+ ": ") e "") (unmarshal raw);
        mapErr (λ e, wrapf ("failed to render value for " +:+ ref +:+ ": ") e "") (renderHere value)
    end.

Definition renderOperation (ref : string) (i : nat) (op : PatchOperation) : EM TS JSONPatchOperation :=
  let opRef := ref +:+ " operation #" +:+ Itoa (Z.of_nat i) in
  pathValue ← mapErr (λ e, wrapf ("failed to render path '" +:+ poPath op +:+ "' for " +:+ opRef +:+ ": ") e "")
                (renderHere (VString (poPath op)));
  match pathValue with
  | VString pathStr =>
      value ← renderValue op opRef;
      mret (mkOperation (poOp op) pathStr value)
  | _ =>
      throw (errorf ("path '" +:+ poPath op +:+ "' must evaluate to string for " +:+ opRef +:+ ", got "
                     +:+ type_name pathValue))
  end.

Definition renderOperations (operations : list PatchOperation) (ref : string) : EM TS (list JSONPatchOperation) :=
  eMap (λ p, renderOperation ref p.1 p.2) (imap pair operations).

(** [uint64] arithmetic on the counter. *)
Definition chargePatchOperations (targets operations : Z) : EM TS unit := λ ts,
  if (targets =? 0)%Z || (operations =? 0)%Z then (ts, Val ())
  else
    let remaining := ((maxPatchOperations - patchOperations ts) mod 2 ^ 64)%Z in
    if (remaining / operations <? targets)%Z then
      (ts, Fail (wrapf "" (sentinelErr ErrExpansionLimitExceeded)
        (": trait patches would apply " +:+ Itoa ((patchOperations ts + targets * operations) mod 2 ^ 64)
         +:+ " operations in one render, exceeding the limit of " +:+ Itoa maxPatchOperations)))
    else
      (mkTS (base ts) ((patchOperations ts + targets * operations) mod 2 ^ 64) (celContext ts) (resources ts), Val ()).

(** [patch.ApplyPatches] on the map of a resource, in place. *)
Definition patchResource (i : nat) (ops : list JSONPatchOperation) : EM TS unit := λ ts,
  match resources ts !! i with
  | None => (ts, Val ())
  | Some rr =>
      let '(root, r) := ApplyPatches ops (VMap (Resource rr)) in
      let resource := match root with VMap m => m | _ => Resource rr end in
      (mkTS (base ts) (patchOperations ts) (celContext ts) (<[i := mkRR resource (TargetPlane rr)]> (resources ts)),
       match r with Ok _ => Val () | Err msg => Fail (errorf msg) end)
  end.

(** The resource as the error message names it, after the patch. *)
Definition patchedResourceID (ts : TS) (i : nat) : string :=
  let resource := default ∅ (Resource <$> resources ts !! i) in
  let kind := stringOr resource "kind" in
  let name := stringOr (default ∅ (mapAt resource "metadata")) "name" in
  let resourceID := TruncateFragment kind +:+ "/" +:+ TruncateFragment name in
  if bool_decide (resourceID = "/") then "unknown resource" else resourceID.

Fixpoint applyTargets (targets : list target) (ops : list JSONPatchOperation) (ref : string) : EM TS unit :=
  match targets with
  | [] => mret ()
  | rr :: rest =>
      ctxErr ← ctxErrHere;
      match ctxErr with
      | Some err => throw (wrapf (ref +:+ " interrupted: ") err "")
      | None =>
          r ← try (patchResource rr.1 ops);
          match r with
          | Fail err =>
              id ← gets (λ ts, patchedResourceID ts rr.1);
              throw (wrapf ("failed to apply patches to " +:+ id +:+ " for " +:+ ref +:+ ": ") err "")
          | Val _ => applyTargets rest ops ref
          end
      end
  end.

Definition applyPatchOnce (name : string) (patchIndex : nat) (traitPatch : TraitPatch) : EM TS unit :=
  let ref := traitRef name "patch" patchIndex in
  let t := tpTarget traitPatch in
  let spec := mkTargetSpec (Kind t) (Group t) (Version t) (Where t) (tpTargetPlane traitPatch) in
  rs ← gets resources;
  let matchedResources := FindTargetResources (addressed rs) spec in
  if bool_decide (matchedResources = []) then mret ()
  else
    targets ← (if bool_decide (tsWhere spec = "") then mret matchedResources
               else filterTargets matchedResources (tsWhere spec) ref);
    if bool_decide (targets = []) then mret ()
    else
      renderedOps ← renderOperations (Operations traitPatch) ref;
      mapErr (λ e, wrapf (ref +:+ ": ") e "")
        (chargePatchOperations (Z.of_nat (length targets)) (Z.of_nat (length renderedOps))) ≫= λ _,
      applyTargets targets renderedOps ref.

(** The items of a forEach of a patch or a remove. *)
Definition traitItems (forEach ref : string) : EM TS (list any) :=
  itemsRaw ← mapErr (λ e, wrapf ("failed to evaluate forEach expression '" +:+ TruncateFragment forEach
                                  +:+ "' for " +:+ ref +:+ ": ") e "")
               (renderHere (VString forEach));
  mapErr (λ e, wrapf ("invalid forEach result for " +:+ ref +:+ ": ") e "") (lift (ToIterableItems itemsRaw)).

Definition iterationError (i : nat) (err : goerr) : goerr :=
  wrapf ("forEach iteration " +:+ Itoa (Z.of_nat i) +:+ " failed: ") err "".

Definition applyPatchWithForEach (name : string) (patchIndex : nat) (traitPatch : TraitPatch) : EM TS unit :=
  items ← traitItems (tpForEach traitPatch) (traitRef name "patch" patchIndex);
  let varName := varNameOr (tpVar traitPatch) in
  eForEachFrom 0 (λ i item,
    mapErr (iterationError i) (withItem varName item (applyPatchOnce name patchIndex traitPatch))) items.

Definition applyPatch (name : string) (patchIndex : nat) (traitPatch : TraitPatch) : EM TS unit :=
  if negb (bool_decide (tpForEach traitPatch = "")) then applyPatchWithForEach name patchIndex traitPatch
  else applyPatchOnce name patchIndex traitPatch.

Definition ApplyTraitPatches (trait : TraitBody) : EM TS unit :=
  eForEachFrom 0 (λ i traitPatch,
    mapErr (λ e, wrapf ("failed to apply trait patch #" +:+ Itoa (Z.of_nat i) +:+ " for trait "
                         +:+ traitName trait +:+ ": ") e "")
      (applyPatch (traitName trait) i traitPatch)) (Patches trait).

(** ** Removing *)

(** The loop over the slice; [toRemove] holds the positions to drop. *)
Fixpoint removalsLoop (spec : TargetSpec) (ref : string) (rs : list target) (toRemove : gset nat) : EM TS (gset nat) :=
  match rs with
  | [] => mret toRemove
  | rr :: rest =>
      if negb (matchesTarget rr.2 spec) then removalsLoop spec ref rest toRemove
      else if bool_decide (tsWhere spec = "") then removalsLoop spec ref rest ({[rr.1]} ∪ toRemove)
      else
        bindResource (Resource rr.2) ≫= λ _,
        result ← mapErr (whereError (tsWhere spec) ref) (renderHere (VString (tsWhere spec)));
        match result with
        | VBool true => removalsLoop spec ref rest ({[rr.1]} ∪ toRemove)
        | VBool false => removalsLoop spec ref rest toRemove
        | _ => throw (whereTypeError (tsWhere spec) ref result)
        end
  end.

(** The deferred function restores the binding on every path. *)
Definition collectRemovalsOnce (name : string) (removeIndex : nat) (remove : TraitRemove) (toRemove : gset nat) : EM TS (gset nat) :=
  let ref := traitRef name "remove" removeIndex in
  let t := trTarget remove in
  let spec := mkTargetSpec (Kind t) (Group t) (Version t) (Where t) (trTargetPlane remove) in
  previous ← gets (λ ts, celContext ts !! "resource");
  rs ← gets resources;
  r ← try (removalsLoop spec ref (addressed rs) toRemove);
  restoreResource previous ≫= λ _, ofEres r.

Fixpoint removalsFrom (i : nat) (body : nat → any → gset nat → EM TS (gset nat)) (items : list any)
    (toRemove : gset nat) : EM TS (gset nat) :=
  match items with
  | [] => mret toRemove
  | item :: items => body i item toRemove ≫= removalsFrom (1 + i) body items
  end.

Definition collectRemovalsForEntry (name : string) (removeIndex : nat) (remove : TraitRemove) (toRemove : gset nat) : EM TS (gset nat) :=
  if bool_decide (trForEach remove = "") then collectRemovalsOnce name removeIndex remove toRemove
  else
    items ← traitItems (trForEach remove) (traitRef name "remove" removeIndex);
    let varName := varNameOr (trVar remove) in
    removalsFrom 0 (λ i item toRemove,
      mapErr (iterationError i) (withItem varName item (collectRemovalsOnce name removeIndex remove toRemove)))
      items toRemove.

Fixpoint removalsOfEntries (name : string) (i : nat) (removes : list TraitRemove) (toRemove : gset nat) : EM TS (gset nat) :=
  match removes with
  | [] => mret toRemove
  | remove :: removes =>
      mapErr (λ e, wrapf ("failed to apply trait remove #" +:+ Itoa (Z.of_nat i) +:+ " for trait " +:+ name +:+ ": ") e "")
        (collectRemovalsForEntry name i remove toRemove)
      ≫= removalsOfEntries name (1 + i) removes
  end.

(** The resources whose position is not marked. *)
Definition unmarked (toRemove : gset nat) (rs : list RenderedResource) : list RenderedResource :=
  snd <$> filter (λ t : target, t.1 ∉ toRemove) (addressed rs).

Definition ApplyTraitRemoves (trait : TraitBody) : EM TS unit :=
  if bool_decide (Removes trait = []) then mret ()
  else
    toRemove ← removalsOfEntries (traitName trait) 0 (Removes trait) ∅;
    rs ← gets resources;
    if bool_decide (toRemove = ∅) then mret () else setResources (unmarked toRemove rs).

(** ** A trait *)

Definition ProcessTraits (trait : TraitBody) : EM TS unit :=
  ApplyTraitCreates trait ≫= λ _, ApplyTraitPatches trait ≫= λ _, ApplyTraitRemoves trait.
End Trait.
