(* ===== verification/TraitFrame.v ===== *)
(** * Traits: what changes and what does not

    Patches change only the resources their targets match and never the number,
    the order or the planes of the resources; a patched resource is still an
    object.  Creates only append.  Removal drops exactly the marked resources,
    and marks only resources that a remove entry matches. *)

From S2P Require Import Prelude GoStrings GoValue PatchPath PatchOps RenderErrors TemplateCache TemplateScan TemplateEngine TemplateSpec TemplateCacheSpec Renderer TraitProcessor TraitSpec.

#[local] Set Warnings "-register-all".

(** ** A patched object is an object *)

(** The computation of the patch engine keeps the document an object. *)
Definition keeps_object {A} (m : M any A) : Prop := ∀ v, (∃ x, v = VMap x) → ∃ x, (m v).1 = VMap x.

Lemma keeps_object_result {A} (r : result A) : keeps_object (ofResult r).
Proof. by intros v Hv. Qed.

Lemma keeps_object_ret {A} (a : A) : keeps_object (mret a).
Proof. by intros v Hv. Qed.

Lemma keeps_object_load r : keeps_object (load r).
Proof. by intros v Hv. Qed.

Lemma keeps_object_bind {A B} (m : M any A) (k : A → M any B) :
  keeps_object m → (∀ a, keeps_object (k a)) → keeps_object (m ≫= k).
Proof.
  intros Hm Hk v Hv. unfold mbind, M_bind. specialize (Hm v Hv).
  destruct (m v) as [v' [a|e]]; [by apply Hk|done].
Qed.

Lemma keeps_object_store r x : r ≠ [] → keeps_object (store_at r x).
Proof. intros Hr v [m ->]. by apply put_map. Qed.

Lemma keeps_object_forEach {A} (body : A → M any unit) l :
  (∀ x, keeps_object (body x)) → keeps_object (forEach body l).
Proof. intros Hb. induction l as [|x l IH]; [apply keeps_object_ret|]. by apply keeps_object_bind. Qed.

Lemma keeps_object_wrapErr {A} p (m : M any A) : keeps_object m → keeps_object (wrapErr p m).
Proof. intros Hm v Hv. unfold wrapErr. specialize (Hm v Hv). by destruct (m v) as [v' [a|e]]. Qed.

Lemma app_not_nil {A} (l : list A) x xs : l ++ x :: xs ≠ [].
Proof. by destruct l. Qed.

#[local] Hint Resolve keeps_object_result keeps_object_ret keeps_object_load keeps_object_bind keeps_object_store
  keeps_object_forEach keeps_object_wrapErr app_not_nil : render.

Ltac object_step :=
  match goal with
  | |- keeps_object (match ?x with _ => _ end) => destruct x eqn:?
  | |- keeps_object (if ?x then _ else _) => destruct x eqn:?
  | |- keeps_object (_ ≫= _) => apply keeps_object_bind
  | |- keeps_object (fail _) => apply keeps_object_result
  | |- keeps_object _ => solve [eauto with render]
  | |- ∀ _, _ => intros ?
  end.
Ltac object_solve := repeat object_step.

Lemma navigateLoop_object n segments current : length segments ≤ n → keeps_object (navigateLoop current segments).
Proof.
  revert segments current. induction n as [|n IH]; intros segments current Hn;
    (destruct segments as [|seg [|nextSeg rest]]; [apply keeps_object_result| |]); cbn [navigateLoop length] in *;
    try lia; object_solve; apply IH; cbn [length] in *; lia.
Qed.

Lemma removeValue_object container k seg : keeps_object (removeValue container k seg).
Proof.
  unfold removeValue. intros v [m ->]. unfold mbind, M_bind. cbn [load].
  match goal with |- ∃ x, (?m _).1 = VMap x => enough (keeps_object m) as Hk by (apply Hk; eauto) end.
  object_solve. destruct container as [|acc container]; [|by apply keeps_object_store].
  cbn [get default from_option id]. intros v [m' ->]. cbn. eauto.
Qed.

Lemma applyJSONPatch_object op pointer value : keeps_object (applyJSONPatch op pointer value).
Proof.
  unfold applyJSONPatch. destruct (splitPointer pointer) as [|seg segs]; [apply keeps_object_result|].
  apply keeps_object_bind; [by eapply navigateLoop_object|]. intros [[c k] l].
  repeat case_goal; [unfold addValue|unfold replaceValue|apply removeValue_object|apply keeps_object_result]; object_solve.
Qed.

Lemma ensureLoop_object n segments current : length segments ≤ n → keeps_object (ensureLoop current segments).
Proof.
  revert segments current. induction n as [|n IH]; intros segments current Hn;
    (destruct segments as [|seg [|next rest]]; [apply keeps_object_ret..|]); cbn [length] in Hn; try lia.
  assert (Ht : ∀ c, keeps_object (ensureLoop c (next :: rest))) by (intros c; apply IH; cbn [length]; lia).
  remember (next :: rest) as tail eqn:E. cbn [ensureLoop]. destruct tail as [|next' rest']; [done|].
  injection E as -> ->. object_solve; apply Ht.
Qed.

Lemma parentLoop_object create ps l i current segments : keeps_object (parentLoop create ps l i current segments).
Proof.
  revert i current. induction segments as [|seg rest IH]; intros i current; cbn [parentLoop]; [apply keeps_object_ret|].
  object_solve; apply IH.
Qed.

Lemma mergeShallow_object pointer value : keeps_object (mergeShallowAtPointer pointer value).
Proof.
  unfold mergeShallowAtPointer. apply keeps_object_bind.
  { unfold navigateToParent. case_goal; [|apply keeps_object_ret].
    apply keeps_object_bind; [apply parentLoop_object|]. intros r. apply keeps_object_ret. }
  intros [parent lastSeg]. unfold mergeShallowEntry. object_solve.
Qed.

Lemma keeps_object_self : keeps_object (λ root, (root, Ok root)).
Proof. by intros v Hv. Qed.

#[local] Hint Resolve keeps_object_self applyJSONPatch_object mergeShallow_object : render.

Lemma applyOperation_object op : keeps_object (applyOperation op).
Proof.
  unfold applyOperation, applyRFC6902, applyMergeShallow, ensureParentExists. object_solve.
  apply keeps_object_forEach. intros p. object_solve. by eapply ensureLoop_object.
Qed.

Lemma ApplyPatches_object ops m : ∃ m', (ApplyPatches ops (VMap m)).1 = VMap m'.
Proof.
  assert (H : ∀ i, keeps_object (applyFrom i ops)).
  { induction ops as [|op ops IH]; intros i; cbn [applyFrom]; [apply keeps_object_ret|].
    apply keeps_object_bind; [apply keeps_object_wrapErr, applyOperation_object|]. intros _. apply IH. }
  apply (H 0 (VMap m)). eauto.
Qed.

Section TraitFrame.
Context {C : CEL} {J : JSON} {X : RenderContext} {G : EngineConfig}.

(** ** Resources during patching *)

Lemma lift_resources {A} (m : EM St A) : keeps resources (lift m).
Proof. by apply keeps_lift. Qed.
Lemma renderHere_resources data : keeps resources (renderHere data).
Proof. unfold renderHere. apply keeps_bind; [apply keeps_gets|]. intros c. apply lift_resources. Qed.
Lemma setContext_resources c : keeps resources (setContext c).
Proof. by intros ts. Qed.
Lemma ctxErrHere_resources : keeps resources ctxErrHere.
Proof. by intros ts. Qed.
Lemma charge_resources a b : keeps resources (chargePatchOperations a b).
Proof. intros ts. unfold chargePatchOperations. by repeat case_goal. Qed.

#[local] Hint Resolve lift_resources renderHere_resources setContext_resources ctxErrHere_resources charge_resources : render.

Lemma filterTargets_resources targets w ref : keeps resources (filterTargets targets w ref).
Proof.
  unfold filterTargets. apply keeps_bind; [apply keeps_gets|]. intros previous.
  apply keeps_bind; [|unfold restoreResource; keeps_solve].
  induction targets as [|rr targets IH]; cbn [filterLoop]; unfold bindResource, restoreResource; keeps_solve.
Qed.

Lemma removalsLoop_resources spec ref rs s : keeps resources (removalsLoop spec ref rs s).
Proof.
  revert s. induction rs as [|rr rs IH]; intros s; cbn [removalsLoop]; [apply keeps_ret|].
  unfold bindResource. keeps_solve.
Qed.

Lemma renderOperations_resources ops ref : keeps resources (renderOperations ops ref).
Proof.
  unfold renderOperations. apply keeps_eMap. intros [i op]. unfold renderOperation, renderValue. keeps_solve.
Qed.

Lemma traitItems_resources f ref : keeps resources (traitItems f ref).
Proof. unfold traitItems. keeps_solve. Qed.

#[local] Hint Resolve filterTargets_resources removalsLoop_resources renderOperations_resources traitItems_resources : render.

Lemma collectRemovalsOnce_resources name i remove s : keeps resources (collectRemovalsOnce name i remove s).
Proof. unfold collectRemovalsOnce, restoreResource. keeps_solve. Qed.

Lemma withItem_resources {A} v item (m : EM TS A) : keeps resources m → keeps resources (withItem v item m).
Proof. intros Hm. unfold withItem. keeps_solve. Qed.

#[local] Hint Resolve collectRemovalsOnce_resources withItem_resources : render.

(** *** Planes, number and order *)

Definition planes (ts : TS) : list string := TargetPlane <$> resources ts.

Lemma keeps_planes {A} (m : EM TS A) : keeps resources m → keeps planes m.
Proof. intros Hm ts. unfold planes. by rewrite Hm. Qed.

Lemma patchResource_planes i ops : keeps planes (patchResource i ops).
Proof.
  intros ts. unfold patchResource, planes. destruct (resources ts !! i) as [rr|] eqn:E; [|done].
  destruct (ApplyPatches _ _) as [root r]. cbn. rewrite list_fmap_insert. cbn.
  apply list_insert_id. by rewrite list_lookup_fmap, E.
Qed.

#[local] Hint Resolve keeps_planes patchResource_planes : render.

Lemma applyTargets_planes targets ops ref : keeps planes (applyTargets targets ops ref).
Proof. induction targets as [|rr targets IH]; cbn [applyTargets]; [apply keeps_ret|]. keeps_solve. Qed.

#[local] Hint Resolve applyTargets_planes : render.

Lemma withItem_planes {A} v item (m : EM TS A) : keeps planes m → keeps planes (withItem v item m).
Proof. intros Hm. unfold withItem. keeps_solve. Qed.

Lemma applyPatchOnce_planes name i p : keeps planes (applyPatchOnce name i p).
Proof. unfold applyPatchOnce. keeps_solve. Qed.

#[local] Hint Resolve withItem_planes applyPatchOnce_planes : render.

Lemma ApplyTraitPatches_planes trait : keeps planes (ApplyTraitPatches trait).
Proof. unfold ApplyTraitPatches, applyPatch, applyPatchWithForEach. keeps_solve. Qed.

(** *** A resource that no target matches *)

Definition patchSpec (p : TraitPatch) : TargetSpec :=
  mkTargetSpec (Kind (tpTarget p)) (Group (tpTarget p)) (Version (tpTarget p)) (Where (tpTarget p)) (tpTargetPlane p).

Section Untouched.
Context (i : nat) (rr : RenderedResource).
Definition untouched (ts : TS) : Prop := resources ts !! i = Some rr.

Lemma keeps_untouched {A} (m : EM TS A) : keeps resources m → preserves untouched m.
Proof. intros Hm ts Hts. unfold untouched. by rewrite Hm. Qed.

Lemma patchResource_untouched j ops : j ≠ i → preserves untouched (patchResource j ops).
Proof.
  intros Hne ts Hts. unfold patchResource, untouched in *. destruct (resources ts !! j) as [r|]; [|done].
  destruct (ApplyPatches _ _) as [root res]. cbn. by rewrite list_lookup_insert_ne.
Qed.

#[local] Hint Resolve keeps_untouched patchResource_untouched : render.

Lemma applyTargets_untouched targets ops ref :
  (∀ t, t ∈ targets → t.1 ≠ i) → preserves untouched (applyTargets targets ops ref).
Proof.
  induction targets as [|t targets IH]; intros Hne; cbn [applyTargets]; [auto with render|].
  assert (t.1 ≠ i) by (apply Hne; left).
  assert (preserves untouched (applyTargets targets ops ref)) by (apply IH; intros t' Ht; apply Hne; by right).
  render_solve.
Qed.

Lemma filterLoop_subset previous w ref targets : yields (filterLoop previous w ref targets) (λ l, l ⊆ targets).
Proof.
  induction targets as [|t targets IH]; cbn [filterLoop]; [by apply yields_ret|].
  apply yields_bind. intros _. apply yields_bind. intros [v|e].
  - destruct v; try (apply yields_bind; intros _; apply yields_throw).
    eapply yields_with; [exact IH|]. intros l Hl. apply yields_ret. case_goal; set_solver.
  - apply yields_bind. intros _. apply yields_throw.
Qed.

Lemma applyPatchOnce_untouched name k p :
  matchesTarget rr (patchSpec p) = false → preserves untouched (applyPatchOnce name k p).
Proof.
  intros Hno ts Hts. unfold applyPatchOnce. rewrite bind_eq. cbn [gets].
  set (matched := FindTargetResources _ _).
  assert (Hm : ∀ t, t ∈ matched → t.1 ≠ i).
  { intros [j r] Ht. unfold matched in Ht. rewrite FindTargetResources_filter, list_elem_of_filter, elem_of_addressed in Ht.
    cbn in *. destruct Ht as [Ht Hl]. intros ->. unfold untouched in Hts. rewrite Hts in Hl. injection Hl as ->.
    unfold patchSpec in Hno. congruence. }
  match goal with |- untouched (?m _).1 => enough (preserves untouched m) as Hp by exact (Hp ts Hts) end.
  case_goal; [auto with render|].
  set (sel := if bool_decide _ then _ else _).
  assert (Hsel : yields sel (λ l, l ⊆ matched)).
  { unfold sel. case_goal; [by apply yields_ret|]. unfold filterTargets. apply yields_bind. intros prev.
    eapply yields_with; [apply filterLoop_subset|]. intros l Hl. apply yields_bind. intros _. by apply yields_ret. }
  assert (Hk : keeps resources sel) by (unfold sel; keeps_solve).
  intros ts1 Hts1. rewrite bind_eq. pose proof (Hsel ts1) as Hy. pose proof (Hk ts1) as Hr.
  destruct (sel ts1) as [ts2 [targets|e]]; cbn [fst snd] in *; [|by unfold untouched; rewrite Hr].
  specialize (Hy targets eq_refl).
  assert (Hts2 : untouched ts2) by (unfold untouched; by rewrite Hr).
  revert ts2 Hts2 Hr. intros ts2 Hts2 _. revert ts2 Hts2.
  match goal with |- ∀ ts2, _ → untouched (?m ts2).1 => change (preserves untouched m) end.
  case_goal; [auto with render|].
  apply preserves_bind; [auto with render|]. intros ops.
  apply preserves_bind; [apply keeps_untouched; keeps_solve|]. intros _.
  apply applyTargets_untouched. intros t Ht. apply Hm, Hy, Ht.
Qed.

Lemma withItem_untouched {A} v item (m : EM TS A) : preserves untouched m → preserves untouched (withItem v item m).
Proof.
  intros Hm ts Hts. exact (Hm (mkTS (base ts) (patchOperations ts) (<[v := item]> (celContext ts)) (resources ts)) Hts).
Qed.

Lemma preserves_eForEachFrom_elem {A} (body : nat → A → EM TS unit) k l :
  (∀ j x, x ∈ l → preserves untouched (body j x)) → preserves untouched (eForEachFrom k body l).
Proof.
  revert k. induction l as [|x l IH]; intros k Hb; [apply preserves_ret|].
  apply preserves_bind; [apply Hb; left|]. intros _. apply IH. intros j y Hy. apply Hb. by right.
Qed.

Lemma ApplyTraitPatches_untouched trait :
  (∀ p, p ∈ Patches trait → matchesTarget rr (patchSpec p) = false) → preserves untouched (ApplyTraitPatches trait).
Proof.
  intros Hno. unfold ApplyTraitPatches. apply preserves_eForEachFrom_elem. intros j p Hp.
  apply preserves_mapErr. pose proof (applyPatchOnce_untouched (traitName trait) j p (Hno p Hp)) as Ho.
  unfold applyPatch, applyPatchWithForEach. case_goal; [|done].
  apply preserves_bind; [auto with render|]. intros items. apply preserves_eForEachFrom. intros n item.
  apply preserves_mapErr. by apply withItem_untouched.
Qed.
End Untouched.

(** C34: Patching, whether it succeeds or fails half way, never changes how many
    resources there are, their order or their planes, and leaves unchanged every
    resource that no patch of the trait targets by plane, kind, group and
    version. *)
Theorem ApplyTraitPatches_frame (trait : TraitBody) (ts : TS) :
  TargetPlane <$> resources (ApplyTraitPatches trait ts).1 = TargetPlane <$> resources ts
  ∧ ∀ i rr, resources ts !! i = Some rr →
      (∀ p, p ∈ Patches trait → matchesTarget rr (patchSpec p) = false) →
      resources (ApplyTraitPatches trait ts).1 !! i = Some rr.
Proof.
  split; [apply (ApplyTraitPatches_planes trait ts)|].
  intros i rr Hi Hno. by apply (ApplyTraitPatches_untouched i rr trait Hno).
Qed.

(** ** Removal *)

Definition removeSpec (r : TraitRemove) : TargetSpec :=
  mkTargetSpec (Kind (trTarget r)) (Group (trTarget r)) (Version (trTarget r)) (Where (trTarget r)) (trTargetPlane r).

(** An entry that applies to everything it matches. *)
Definition matches_plainly (r : TraitRemove) : Prop := trForEach r = "" ∧ Where (trTarget r) = "".

(** The marks grow from [s] to [s'] by positions that the entries match. *)
Record marks (rs : list RenderedResource) (removes : list TraitRemove) (s s' : gset nat) : Prop := {
  marks_grow : s ⊆ s';
  marks_match : ∀ i, i ∈ s' → i ∈ s ∨ ∃ rr r, rs !! i = Some rr ∧ r ∈ removes ∧ matchesTarget rr (removeSpec r) = true;
  marks_all : ∀ r i rr, r ∈ removes → matches_plainly r → rs !! i = Some rr → matchesTarget rr (removeSpec r) = true → i ∈ s'
}.

Lemma marks_nil rs s : marks rs [] s s.
Proof. split; [done|auto|]. by intros r i rr ?%not_elem_of_nil. Qed.

Lemma marks_cons rs r removes s1 s2 s3 :
  marks rs [r] s1 s2 → marks rs removes s2 s3 → marks rs (r :: removes) s1 s3.
Proof.
  intros [G1 M1 A1] [G2 M2 A2]. split; [set_solver|..].
  - intros i [Hi|Hi]%M2; [|set_solver]. apply M1 in Hi as [Hi|(rr & r' & H1 & H2%list_elem_of_singleton & H3)]; [auto|].
    subst. right. exists rr, r. split_and!; [done|by left|done].
  - intros r' i rr [->|Hr]%elem_of_cons Hu Hi Hm.
    + apply G2, (A1 r i rr); [by left|done..].
    + by apply (A2 r' i rr).
Qed.

(** The same entry again, as a forEach applies it. *)
Lemma marks_again rs r s1 s2 s3 : marks rs [r] s1 s2 → marks rs [r] s2 s3 → marks rs [r] s1 s3.
Proof.
  intros [G1 M1 A1] [G2 M2 A2]. split; [set_solver|..|by intros; eapply A2].
  intros i [Hi|Hi]%M2; [by apply M1|by right].
Qed.

Lemma removalsLoop_marks spec ref l s :
  yields (removalsLoop spec ref l s) (λ s', s ⊆ s'
    ∧ (∀ i, i ∈ s' → i ∈ s ∨ ∃ rr, (i, rr) ∈ l ∧ matchesTarget rr spec = true)
    ∧ (tsWhere spec = "" → ∀ i rr, (i, rr) ∈ l → matchesTarget rr spec = true → i ∈ s')).
Proof.
  revert s. induction l as [|[n r] l IH]; intros s; cbn [removalsLoop fst snd].
  { apply yields_ret. split_and!; [done|auto|]. by intros _ i rr ?%not_elem_of_nil. }
  assert (Hskip : (matchesTarget r spec = true → tsWhere spec ≠ "") →
    yields (removalsLoop spec ref l s) (λ s', s ⊆ s'
    ∧ (∀ i, i ∈ s' → i ∈ s ∨ ∃ rr, (i, rr) ∈ (n, r) :: l ∧ matchesTarget rr spec = true)
    ∧ (tsWhere spec = "" → ∀ i rr, (i, rr) ∈ (n, r) :: l → matchesTarget rr spec = true → i ∈ s'))).
  { intros Hno ts s' Hs. apply IH in Hs as (H1 & H2 & H3). split_and!; [done|..].
    - intros i [Hi|(rr & Hi & Hm)]%H2; [auto|]. right. exists rr. split; [by right|done].
    - intros Hw i rr [[= -> ->]|Hi]%elem_of_cons Hm; [by destruct (Hno Hm)|]. by apply (H3 Hw i rr). }
  assert (Htake : matchesTarget r spec = true →
    yields (removalsLoop spec ref l ({[n]} ∪ s)) (λ s', s ⊆ s'
    ∧ (∀ i, i ∈ s' → i ∈ s ∨ ∃ rr, (i, rr) ∈ (n, r) :: l ∧ matchesTarget rr spec = true)
    ∧ (tsWhere spec = "" → ∀ i rr, (i, rr) ∈ (n, r) :: l → matchesTarget rr spec = true → i ∈ s'))).
  { intros Hy ts s' Hs. apply IH in Hs as (H1 & H2 & H3). split_and!; [set_solver|..].
    - intros i [[->%elem_of_singleton|Hi]%elem_of_union|(rr & Hi & Hm)]%H2; [|auto|].
      + right. exists r. split; [by left|done].
      + right. exists rr. split; [by right|done].
    - intros Hw i rr [[= -> ->]|Hi]%elem_of_cons Hm; [set_solver|]. by apply (H3 Hw i rr). }
  destruct (matchesTarget r spec) eqn:Em; cbn [negb]; [|by apply Hskip].
  case_bool_decide as Hw; [by apply Htake|].
  apply yields_bind. intros _. apply yields_bind. intros v.
  destruct v as [|[]|x|t x|m|l'|l']; try apply yields_throw; [by apply Htake|by apply Hskip].
Qed.

(** Computations that leave the resources [rs] and return what [Q] says. *)
Definition onR {A} (rs : list RenderedResource) (m : EM TS A) (Q : A → Prop) : Prop :=
  ∀ ts, resources ts = rs → resources (m ts).1 = rs ∧ ∀ a, (m ts).2 = Val a → Q a.

Lemma onR_bind {A B} rs (m : EM TS A) (k : A → EM TS B) P Q :
  onR rs m P → (∀ a, P a → onR rs (k a) Q) → onR rs (m ≫= k) Q.
Proof.
  intros Hm Hk ts Hts. rewrite bind_eq. destruct (Hm ts Hts) as [Hr HP].
  destruct (m ts) as [ts' [a|e]]; [by apply Hk; [apply HP|]|]. by split.
Qed.

Lemma onR_keeps {A} rs (m : EM TS A) : keeps resources m → onR rs m (λ _, True).
Proof. intros Hm ts <-. by split; [apply Hm|]. Qed.

Lemma onR_mapErr {A} rs g (m : EM TS A) Q : onR rs m Q → onR rs (mapErr g m) Q.
Proof.
  intros Hm ts Hts. unfold mapErr. destruct (Hm ts Hts) as [Hr HQ].
  destruct (m ts) as [ts' [a|e]]; by split.
Qed.

Lemma onR_withItem {A} rs v item (m : EM TS A) Q : onR rs m Q → onR rs (withItem v item m) Q.
Proof.
  intros Hm ts Hts.
  exact (Hm (mkTS (base ts) (patchOperations ts) (<[v := item]> (celContext ts)) (resources ts)) Hts).
Qed.

Lemma collectRemovalsOnce_marks rs name i r s : onR rs (collectRemovalsOnce name i r s) (marks rs [r] s).
Proof.
  intros ts Hts. split; [by rewrite collectRemovalsOnce_resources|]. intros s'.
  unfold collectRemovalsOnce. rewrite bind_eq. cbn [gets]. rewrite bind_eq. cbn [gets]. rewrite bind_eq. unfold try.
  pose proof (removalsLoop_marks (removeSpec r) (traitRef name "remove" i) (addressed (resources ts)) s ts) as Hy.
  unfold removeSpec in Hy at 1. destruct (removalsLoop _ _ _ _ ts) as [ts1 res]. cbn [fst snd] in *.
  rewrite bind_eq. destruct (restoreResource _ ts1) as [ts2 [u|e]] eqn:Er; [|by injection Er].
  cbn [ofEres snd]. intros ->. destruct (Hy s' eq_refl) as (H1 & H2 & H3). rewrite Hts in *. split; [done|..].
  - intros n [Hn|(rr & Hn%elem_of_addressed & Hm)]%H2; [auto|]. right. exists rr, r. split_and!; [done|by left|done].
  - intros r' n rr ->%list_elem_of_singleton [_ Hw] Hn Hm. apply (H3 Hw n rr); [by apply elem_of_addressed|done].
Qed.

Lemma collectRemovalsForEntry_marks rs name i r s : onR rs (collectRemovalsForEntry name i r s) (marks rs [r] s).
Proof.
  unfold collectRemovalsForEntry. case_bool_decide as Hf; [apply collectRemovalsOnce_marks|].
  eapply onR_bind; [apply onR_keeps, traitItems_resources|]. intros items _.
  assert (H0 : marks rs [r] s s).
  { split; [done|auto|]. intros r' n rr ->%list_elem_of_singleton [Hu _]. by destruct Hf. }
  assert (Hgen : ∀ k s0, marks rs [r] s s0 → onR rs (removalsFrom k (λ i0 item toRemove,
    mapErr (iterationError i0) (withItem (varNameOr (trVar r)) item (collectRemovalsOnce name i r toRemove))) items s0)
    (marks rs [r] s)); [|by apply Hgen].
  induction items as [|item items IH]; intros k s0 Hs0; cbn [removalsFrom].
  { intros ts Hts. split; [done|]. by intros a [= <-]. }
  eapply onR_bind; [apply onR_mapErr, onR_withItem, collectRemovalsOnce_marks|]. intros s1 Hs1.
  apply IH. by eapply marks_again.
Qed.

Lemma removalsOfEntries_marks rs name i removes s : onR rs (removalsOfEntries name i removes s) (marks rs removes s).
Proof.
  revert i s. induction removes as [|r removes IH]; intros i s; cbn [removalsOfEntries].
  { intros ts Hts. split; [done|]. intros a [= <-]. apply marks_nil. }
  eapply onR_bind; [apply onR_mapErr, collectRemovalsForEntry_marks|]. intros s1 Hs1 ts Hts.
  destruct (IH (1 + i) s1 ts Hts) as [Hr HQ]. split; [done|]. intros a Ha. eapply marks_cons; eauto.
Qed.

Lemma unmarked_empty rs : unmarked ∅ rs = rs.
Proof.
  unfold unmarked. rewrite filter_all by set_solver. unfold addressed. apply list_eq. intros i.
  rewrite list_lookup_fmap, list_lookup_imap. by destruct (rs !! i).
Qed.

Lemma unmarked_sublist s rs : unmarked s rs `sublist_of` rs.
Proof.
  rewrite <- (unmarked_empty rs) at 2. unfold unmarked. apply fmap_sublist.
  rewrite (filter_all (λ t : target, t.1 ∉ ∅)) by set_solver. apply sublist_filter.
Qed.

Lemma ApplyTraitRemoves_marks trait ts :
  match (ApplyTraitRemoves trait ts).2 with
  | Fail _ => resources (ApplyTraitRemoves trait ts).1 = resources ts
  | Val _ => ∃ s, marks (resources ts) (Removes trait) ∅ s
               ∧ resources (ApplyTraitRemoves trait ts).1 = unmarked s (resources ts)
               ∧ resources (ApplyTraitRemoves trait ts).1 `sublist_of` resources ts
  end.
Proof.
  unfold ApplyTraitRemoves. case_bool_decide as Hn.
  { exists ∅. rewrite Hn. cbn. rewrite unmarked_empty. split_and!; [apply marks_nil|done..]. }
  rewrite bind_eq.
  destruct (removalsOfEntries_marks (resources ts) (traitName trait) 0 (Removes trait) ∅ ts eq_refl) as [Hr HQ].
  destruct (removalsOfEntries _ _ _ _ ts) as [ts1 [s|e]]; cbn [fst snd] in *; [|done].
  specialize (HQ s eq_refl). rewrite bind_eq. cbn [gets]. rewrite Hr.
  case_bool_decide as Hs; cbn.
  - exists s. subst s. rewrite unmarked_empty, Hr. done.
  - exists s. split_and!; [done..|apply unmarked_sublist].
Qed.

(** Removal that succeeds keeps, in order, exactly the resources at
    unmarked positions, where every marked resource is matched by the target of
    some remove entry, and an entry without forEach and where marks everything it
    matches; removal that fails drops nothing. *)
Theorem ApplyTraitRemoves_spec (trait : TraitBody) (ts : TS) :
  match (ApplyTraitRemoves trait ts).2 with
  | Fail _ => resources (ApplyTraitRemoves trait ts).1 = resources ts
  | Val _ => ∃ s, marks (resources ts) (Removes trait) ∅ s
               ∧ resources (ApplyTraitRemoves trait ts).1 = unmarked s (resources ts)
               ∧ resources (ApplyTraitRemoves trait ts).1 `sublist_of` resources ts
  end.
Proof. apply ApplyTraitRemoves_marks. Qed.

(** ** Creation *)

(** The computation appends resources without omit marker, in the planes of
    the trait's templates. *)
Definition appends_created (trait : TraitBody) {A} (m : EM TS A) : Prop := ∀ ts, ∃ new,
  resources (m ts).1 = resources ts ++ new
  ∧ Forall (λ rr, omit_free (VMap (Resource rr)) ∧ TargetPlane rr ∈ tcTargetPlane <$> Creates trait) new.

Lemma appends_keeps trait {A} (m : EM TS A) : keeps resources m → appends_created trait m.
Proof. intros Hm ts. exists []. rewrite Hm, app_nil_r. by split; [|constructor]. Qed.

Lemma appends_bind trait {A B} (m : EM TS A) (k : A → EM TS B) :
  appends_created trait m → (∀ a, appends_created trait (k a)) → appends_created trait (m ≫= k).
Proof.
  intros Hm Hk ts. rewrite bind_eq. destruct (Hm ts) as (n1 & H1 & F1).
  destruct (m ts) as [ts' [a|e]]; cbn [fst] in *; [|by exists n1].
  destruct (Hk a ts') as (n2 & H2 & F2). exists (n1 ++ n2). rewrite H2, H1, app_assoc.
  split; [done|]. by apply Forall_app.
Qed.

Lemma renderSingleCreate_good create c path :
  yields (renderSingleCreate create c path)
    (λ rr, omit_free (VMap (Resource rr)) ∧ TargetPlane rr = tcTargetPlane create).
Proof.
  unfold renderSingleCreate. apply yields_bind. intros data. apply yields_bind. intros r.
  destruct r as [|b|x|t x|m|l|l]; try apply yields_throw.
  assert (Hf : omit_free (RemoveOmittedFields (VMap m))) by by apply RemoveOmitted_free.
  destruct (RemoveOmittedFields (VMap m)); try apply yields_throw. by apply yields_ret.
Qed.

Lemma create_one_appends trait create c path :
  create ∈ Creates trait → appends_created trait (lift (renderSingleCreate create c path) ≫= appendResource).
Proof.
  intros Hin ts. rewrite bind_eq. unfold lift.
  pose proof (renderSingleCreate_good create c path (base ts)) as Hy.
  destruct (renderSingleCreate create c path (base ts)) as [st [rr|e]]; cbn [fst snd] in *.
  - destruct (Hy rr eq_refl) as [Ho Hp]. exists [rr]. split; [done|]. apply Forall_singleton. split; [done|].
    rewrite Hp. by apply list_elem_of_fmap_2.
  - exists []. rewrite app_nil_r. by split; [|constructor].
Qed.

Lemma applyCreate_appends trait i create : create ∈ Creates trait → appends_created trait (applyCreate trait i create).
Proof.
  intros Hin. unfold applyCreate. apply appends_bind; [apply appends_keeps, keeps_gets|]. intros c.
  apply appends_bind; [apply appends_keeps; keeps_solve|]. intros include.
  case_goal; [apply appends_keeps, keeps_ret|]. case_goal; [|by apply create_one_appends].
  apply appends_bind; [apply appends_keeps; keeps_solve|]. intros ctxs.
  induction ctxs as [|x ctxs IH]; cbn [eForEach]; [apply appends_keeps, keeps_ret|].
  apply appends_bind; [by apply create_one_appends|done].
Qed.

Lemma ApplyTraitCreates_appends trait : appends_created trait (ApplyTraitCreates trait).
Proof.
  unfold ApplyTraitCreates. assert (H : ∀ l i, (∀ c, c ∈ l → c ∈ Creates trait) →
    appends_created trait (eForEachFrom i (applyCreate trait) l)); [|by apply H].
  induction l as [|c l IH]; intros i Hl; cbn [eForEachFrom]; [apply appends_keeps, keeps_ret|].
  apply appends_bind; [apply applyCreate_appends, Hl; left|]. intros _. apply IH. intros c' Hc. apply Hl. by right.
Qed.

(** Creating leaves every existing resource where it is and appends only
    resources without an omit marker, each in the plane of one of the trait's
    templates, also when it fails half way. *)
Theorem ApplyTraitCreates_spec (trait : TraitBody) (ts : TS) :
  ∃ new, resources (ApplyTraitCreates trait ts).1 = resources ts ++ new
  ∧ Forall (λ rr, omit_free (VMap (Resource rr)) ∧ TargetPlane rr ∈ tcTargetPlane <$> Creates trait) new.
Proof. apply ApplyTraitCreates_appends. Qed.
End TraitFrame.
