(* ===== verification/PostProcess.v ===== *)
(** * Post-processing of rendered resources

    The last steps of [internal/pipeline/component/pipeline.go]: labels, the
    resource hash on the pod template of the main workload, the final
    validation, and the order of the output.  The hash function
    ([pkg/hash], over [dump.ForHash]) is the class [ResourceHash]. *)

From S2P Require Import Prelude GoStrings GoValue RenderErrors TemplateCache TemplateScan TemplateEngine Renderer TraitProcessor.

#[local] Set Warnings "-register-all".

(** [hash.ComputeHash(content, nil)] *)
Class ResourceHash := ComputeHash : list (gmap string any) → string.

(** ** Labels *)

Definition addLabels (resource : gmap string any) (labelsToAdd : gmap string string) : eres (gmap string any) :=
  match mapAt resource "metadata" with
  | None => Fail (errorf "resource missing metadata")
  | Some metadata =>
      let existingLabels := default ∅ (mapAt metadata "labels") in
      let labels := (VString <$> labelsToAdd) ∪ existingLabels in
      Val (<["metadata" := VMap (<["labels" := VMap labels]> metadata)]> resource)
  end.

(** ** Validation *)

Definition validateResourceAt (i : nat) (rr : RenderedResource) : eres unit :=
  let resource := Resource rr in
  let kind := stringOr resource "kind" in
  let apiVersion := stringOr resource "apiVersion" in
  let resourceID := "resource #" +:+ Itoa (Z.of_nat i) +:+ (if bool_decide (kind = "") then "" else " (" +:+ kind +:+ ")") in
  if bool_decide (apiVersion = "") then Fail (errorf (resourceID +:+ " missing apiVersion"))
  else if bool_decide (kind = "") then Fail (errorf (resourceID +:+ " missing kind"))
  else
    match mapAt resource "metadata" with
    | None => Fail (errorf (resourceID +:+ " missing metadata"))
    | Some metadata =>
        if bool_decide (stringOr metadata "name" = "") then Fail (errorf (resourceID +:+ " missing metadata.name"))
        else Val ()
    end.

Fixpoint validateFrom (i : nat) (rs : list RenderedResource) : eres unit :=
  match rs with
  | [] => Val ()
  | rr :: rs =>
      match validateResourceAt i rr with
      | Val _ => validateFrom (1 + i) rs
      | Fail err => Fail err
      end
  end.

Definition validateResources (rs : list RenderedResource) : eres unit := validateFrom 0 rs.

(** ** Order *)

Definition compareResources (a b : gmap string any) : bool :=
  let kind1 := stringOr a "kind" in
  let kind2 := stringOr b "kind" in
  if negb (bool_decide (kind1 = kind2)) then str_ltb kind1 kind2
  else
    let apiVersion1 := stringOr a "apiVersion" in
    let apiVersion2 := stringOr b "apiVersion" in
    if negb (bool_decide (apiVersion1 = apiVersion2)) then str_ltb apiVersion1 apiVersion2
    else
      let meta1 := default ∅ (mapAt a "metadata") in
      let meta2 := default ∅ (mapAt b "metadata") in
      let ns1 := stringOr meta1 "namespace" in
      let ns2 := stringOr meta2 "namespace" in
      let name1 := stringOr meta1 "name" in
      let name2 := stringOr meta2 "name" in
      if negb (bool_decide (ns1 = ns2)) then str_ltb ns1 ns2
      else str_ltb name1 name2.

(** [sort.SliceStable]: the stable order by [less], by insertion behind the
    elements that are not greater. *)
Section Stable.
Context {A : Type} (less : A → A → bool).

Fixpoint insertStable (x : A) (l : list A) : list A :=
  match l with
  | [] => [x]
  | y :: l => if less x y then x :: y :: l else y :: insertStable x l
  end.

Definition SliceStable (l : list A) : list A := foldl (λ acc x, insertStable x acc) [] l.
End Stable.

Definition sortRenderedResources (rs : list RenderedResource) : list RenderedResource :=
  SliceStable (λ a b, compareResources (Resource a) (Resource b)) rs.

(** ** The hash of the other resources *)

Definition workloadTypeDeployment : string := "deployment".
Definition workloadTypeStatefulSet : string := "statefulset".
Definition kindDeployment : string := "Deployment".
Definition kindStatefulSet : string := "StatefulSet".
Definition TargetPlaneDataPlane : string := "dataplane".
Definition AnnotationKeyDPResourceHash : string := "openchoreo.dev/dp-resource-hash".

Definition isMainWorkloadKind (kind workloadType : string) : bool :=
  if bool_decide (workloadType = workloadTypeDeployment) then bool_decide (kind = kindDeployment)
  else if bool_decide (workloadType = workloadTypeStatefulSet) then bool_decide (kind = kindStatefulSet)
  else false.

Definition extractContentExcludingMetadata (resource : gmap string any) : gmap string any :=
  filter (λ p, p.1 ≠ "metadata") resource.

(** Missing maps on the way to the annotations are made, in place. *)
Definition addPodTemplateAnnotation (resource : gmap string any) (key value : string) : eres (gmap string any) :=
  match mapAt resource "spec" with
  | None => Fail (errorf "resource missing spec")
  | Some spec =>
      let template := default ∅ (mapAt spec "template") in
      let templateMeta := default ∅ (mapAt template "metadata") in
      let annotations := default ∅ (mapAt templateMeta "annotations") in
      let annotations := <[key := VString value]> annotations in
      let templateMeta := <["annotations" := VMap annotations]> templateMeta in
      let template := <["metadata" := VMap templateMeta]> template in
      Val (<["spec" := VMap (<["template" := VMap template]> spec)]> resource)
  end.

Section Hash.
Context {H : ResourceHash}.

(** The first main workload is annotated; there is only one. *)
Fixpoint annotateWorkload (workloadType resourceHash : string) (rs : list RenderedResource) : eres (list RenderedResource) :=
  match rs with
  | [] => Val []
  | rr :: rest =>
      let kind := stringOr (Resource rr) "kind" in
      if negb (isMainWorkloadKind kind workloadType) then
        match annotateWorkload workloadType resourceHash rest with
        | Val rest => Val (rr :: rest)
        | Fail err => Fail err
        end
      else
        match addPodTemplateAnnotation (Resource rr) AnnotationKeyDPResourceHash resourceHash with
        | Val r => Val (mkRR r (TargetPlane rr) :: rest)
        | Fail err => Fail (wrapf ("failed to add annotation to " +:+ kind +:+ ": ") err "")
        end
  end.

(** What is hashed: the dataplane resources other than the main workload, in
    canonical order, without their metadata. *)
Definition hashContent (workloadType : string) (rs : list RenderedResource) : list (gmap string any) :=
  extractContentExcludingMetadata <$>
    SliceStable compareResources
      (Resource <$> filter (λ rr, TargetPlane rr = TargetPlaneDataPlane
                                  ∧ isMainWorkloadKind (stringOr (Resource rr) "kind") workloadType = false) rs).

Definition addDPResourceHashAnnotation (workloadType : string) (rs : list RenderedResource) : eres (list RenderedResource) :=
  if negb (bool_decide (workloadType = workloadTypeDeployment))
     && negb (bool_decide (workloadType = workloadTypeStatefulSet)) then Val rs
  else
    let content := hashContent workloadType rs in
    if bool_decide (content = []) then Val rs
    else annotateWorkload workloadType (ComputeHash content) rs.

(** Labels on every resource. *)
Fixpoint labelAll (labels : gmap string string) (rs : list RenderedResource) : eres (list RenderedResource) :=
  match rs with
  | [] => Val []
  | rr :: rs =>
      match addLabels (Resource rr) labels with
      | Fail err => Fail (wrapf "failed to add labels: " err "")
      | Val r =>
          match labelAll labels rs with
          | Val rs => Val (mkRR r (TargetPlane rr) :: rs)
          | Fail err => Fail err
          end
      end
  end.

Definition postProcessResources (workloadType : string) (labels : gmap string string) (rs : list RenderedResource)
    : eres (list RenderedResource) :=
  match labelAll labels rs with
  | Fail err => Fail err
  | Val rs =>
      match addDPResourceHashAnnotation workloadType rs with
      | Val rs => Val rs
      | Fail err => Fail (wrapf "failed to add dp-resource-hash annotation: " err "")
      end
  end.
End Hash.

(** * Post-render validation

    [internal/pipeline/component/postrender.go]: rules that are evaluated on the
    rendered resources after every trait was applied.  Failures are collected,
    at most twenty; the collector is passed along with the decision to stop. *)

#[local] Set Warnings "-register-all".

(** ** Data *)

Record PostRenderTarget := mkPostRenderTarget { prPatchTarget : PatchTarget; MustMatch : option bool }.

Record PostRenderValidation := mkPostRenderValidation {
  When : string; prForEach : string; prVar : string; prTarget : PostRenderTarget;
  prTargetPlane : string; prRule : string; prMessage : string
}.

Definition TargetPlaneOrDefault (v : PostRenderValidation) : string :=
  if bool_decide (prTargetPlane v = "") then TargetPlaneDataPlane else prTargetPlane v.

Definition MustMatchOrDefault (t : PostRenderTarget) : bool :=
  match MustMatch t with None => true | Some b => b end.

Record pendingPostRender := mkPending {
  label : string; pendContext : gmap string any; validations : list PostRenderValidation
}.

(** ** The collector *)

Definition maxPostRenderErrors : nat := 20.

Record postRenderErrors := mkCollected { errs : list goerr; capped : bool }.

Definition collect (c : postRenderErrors) (err : goerr) : postRenderErrors * bool :=
  let errs' := errs c ++ [err] in
  let capped' := capped c || (maxPostRenderErrors <=? length errs')%nat in
  (mkCollected errs' capped', capped' || IsRenderAborted err).

Definition collectedErr (c : postRenderErrors) : option goerr :=
  errors_Join
    (errs c ++ if capped c
               then [errorf ("validation stopped after " +:+ Itoa (Z.of_nat maxPostRenderErrors) +:+ " failures")]
               else []).

Definition resourceIdentity (rr : RenderedResource) : string :=
  let kind := stringOr (Resource rr) "kind" in
  let name := stringOr (default ∅ (mapAt (Resource rr) "metadata")) "name" in
  if bool_decide (kind = "") && bool_decide (name = "") then "unknown resource"
  else TruncateFragment kind +:+ "/" +:+ TruncateFragment name.

Definition iterationDescriber (varName : string) (item : any) : string :=
  "forEach " +:+ varName +:+ "=" +:+ FormatFragment item.

Section PostRender.
Context {C : CEL} {J : JSON} {X : RenderContext} {G : EngineConfig}.

(** What a validation does to the collector, and whether the sweep stops. *)
Abbreviation sweep := (EM St (postRenderErrors * bool)).

Definition report (c : postRenderErrors) (err : goerr) : sweep := mret (collect c err).

(** The resources for which the where clause is true; the context is cloned. *)
Fixpoint filterByWhere (rs : list RenderedResource) (whereClause : string) (baseContext : gmap string any)
    : EM St (list RenderedResource) :=
  match rs with
  | [] => mret []
  | rr :: rs =>
      result ← mapErr (λ e, wrapf ("where clause " +:+ quoted (TruncateFragment whereClause) +:+ " evaluation error: ") e "")
                 (Render (VString whereClause) (<["resource" := VMap (Resource rr)]> baseContext));
      match result with
      | VBool boolResult =>
          filtered ← filterByWhere rs whereClause baseContext;
          mret (if boolResult then rr :: filtered else filtered)
      | _ =>
          throw (errorf ("where clause " +:+ quoted (TruncateFragment whereClause)
                         +:+ " must evaluate to boolean, got " +:+ type_name result))
      end
  end.

(** The rule on every matched resource. *)
Fixpoint evaluateRule (v : PostRenderValidation) (lbl suffix : string) (celContext : gmap string any)
    (matched : list RenderedResource) (c : postRenderErrors) : sweep :=
  match matched with
  | [] => mret (c, false)
  | rr :: matched =>
      r ← try (Render (VString (prRule v)) (<["resource" := VMap (Resource rr)]> celContext));
      let next (err : goerr) : sweep :=
        let '(c, stop) := collect c err in
        if stop then mret (c, true) else evaluateRule v lbl suffix celContext matched c in
      match r with
      | Fail err =>
          next (wrapf (quoted lbl +:+ " post-render rule evaluation error on " +:+ resourceIdentity rr +:+ ": ") err suffix)
      | Val (VBool true) => evaluateRule v lbl suffix celContext matched c
      | Val (VBool false) =>
          next (errorf (quoted lbl +:+ " post-render validation on " +:+ resourceIdentity rr +:+ " failed: "
                        +:+ TruncateFragment (prMessage v) +:+ suffix))
      | Val result =>
          next (errorf (quoted lbl +:+ " post-render rule on " +:+ resourceIdentity rr
                        +:+ " must evaluate to boolean, got " +:+ type_name result +:+ suffix))
      end
  end.

Definition evaluatePostRenderSelection (rs : list RenderedResource) (lbl : string) (iterDesc : option string)
    (celContext : gmap string any) (v : PostRenderValidation) (c : postRenderErrors) : sweep :=
  let suffix := match iterDesc with None => "" | Some d => " (" +:+ d +:+ ")" end in
  let t := prPatchTarget (prTarget v) in
  let spec := mkTargetSpec (Kind t) (Group t) (Version t) "" (TargetPlaneOrDefault v) in
  let found := snd <$> FindTargetResources (addressed rs) spec in
  r ← try (if bool_decide (Where t = "") then mret found else filterByWhere found (Where t) celContext);
  match r with
  | Fail err => report c (wrapf (quoted lbl +:+ " post-render validation: ") err "")
  | Val [] =>
      if MustMatchOrDefault (prTarget v)
      then report c (errorf (quoted lbl +:+ " post-render validation: no resource matched target "
                             +:+ Group t +:+ "/" +:+ Version t +:+ "/" +:+ Kind t +:+ suffix))
      else mret (c, false)
  | Val matched => evaluateRule v lbl suffix celContext matched c
  end.

Fixpoint evaluateIterations (rs : list RenderedResource) (p : pendingPostRender) (v : PostRenderValidation)
    (varName : string) (items : list any) (c : postRenderErrors) : sweep :=
  match items with
  | [] => mret (c, false)
  | item :: items =>
      '(c, stop) ← evaluatePostRenderSelection rs (label p) (Some (iterationDescriber varName item))
                     (<[varName := item]> (pendContext p)) v c;
      if stop : bool then mret (c, true) else evaluateIterations rs p v varName items c
  end.

Definition evaluateOnePostRender (rs : list RenderedResource) (p : pendingPostRender) (v : PostRenderValidation)
    (c : postRenderErrors) : sweep :=
  include ← try (if bool_decide (When v = "") then mret true else ShouldInclude (When v) (pendContext p));
  match include with
  | Fail err => report c (wrapf (quoted (label p) +:+ " post-render validation: when evaluation error: ") err "")
  | Val false => mret (c, false)
  | Val true =>
      if bool_decide (prForEach v = "") then evaluatePostRenderSelection rs (label p) None (pendContext p) v c
      else
        raw ← try (Render (VString (prForEach v)) (pendContext p));
        match raw with
        | Fail err => report c (wrapf (quoted (label p) +:+ " post-render validation: forEach evaluation error: ") err "")
        | Val itemsRaw =>
            items ← try (ToIterableItems itemsRaw);
            match items with
            | Fail err => report c (wrapf (quoted (label p) +:+ " post-render validation: invalid forEach result: ") err "")
            | Val items => evaluateIterations rs p v (varNameOr (prVar v)) items c
            end
        end
  end.

(** The validations of the pending sources, in order, until one stops. *)
Fixpoint sweepAll (rs : list RenderedResource) (todo : list (pendingPostRender * PostRenderValidation))
    (c : postRenderErrors) : EM St postRenderErrors :=
  match todo with
  | [] => mret c
  | (p, v) :: todo =>
      '(c, stop) ← evaluateOnePostRender rs p v c;
      if stop : bool then mret c else sweepAll rs todo c
  end.

Definition evaluatePostRenderValidations (rs : list RenderedResource) (pending : list pendingPostRender) : EM St unit :=
  c ← sweepAll rs (pending ≫= λ p, (λ v, (p, v)) <$> validations p) (mkCollected [] false);
  match collectedErr c with
  | Some err => throw err
  | None => mret ()
  end.
End PostRender.
