(* ===== verification/PostProcessSpec.v ===== *)
(** * Post-processing: order, hash, labels

    The comparison of resources is a strict weak order by kind, apiVersion,
    namespace and name; sorting is stable, sorted and canonical; the resource
    hash does not depend on the order in which resources were rendered; labels
    are set on every resource and nothing else is touched; the final validation
    accepts exactly the well-formed resources. *)

From S2P Require Import Prelude GoStrings GoValue RenderErrors TemplateCache TemplateScan TemplateEngine TemplateSpec TemplateCacheSpec Renderer TraitProcessor TraitSpec PostProcess.

#[local] Set Warnings "-register-all".

(** ** Comparison *)

Lemma str_ltb_asym s t : str_ltb s t = true → str_ltb t s = false.
Proof.
  unfold str_ltb, String.ltb. rewrite (String.compare_antisym s t). by destruct (String.compare t s).
Qed.

Lemma str_ltb_total s t : s ≠ t → str_ltb s t = false → str_ltb t s = true.
Proof.
  unfold str_ltb, String.ltb. rewrite (String.compare_antisym s t).
  destruct (String.compare t s) eqn:E; try done. by apply String.compare_eq_iff in E as ->.
Qed.

Lemma str_ltb_le s t : str_ltb s t = true → String.le s t ∧ s ≠ t.
Proof.
  unfold str_ltb, String.ltb, String.le, String.leb. destruct (String.compare s t) eqn:E; try done.
  intros _. split; [done|]. intros ->. pose proof (String.compare_antisym t t) as Ha. by rewrite E in Ha.
Qed.

Lemma str_le_ltb s t : String.le s t → s ≠ t → str_ltb s t = true.
Proof.
  unfold str_ltb, String.ltb, String.le, String.leb. destruct (String.compare s t) eqn:E; try done.
  by apply String.compare_eq_iff in E.
Qed.

Lemma str_ltb_trans s t u : str_ltb s t = true → str_ltb t u = true → str_ltb s u = true.
Proof.
  intros [H1 N1]%str_ltb_le [H2 N2]%str_ltb_le. apply str_le_ltb; [by etrans|].
  intros ->. apply N2. by apply (anti_symm String.le).
Qed.

(** Lexicographic order of string tuples. *)
Fixpoint lex_ltb (l1 l2 : list string) : bool :=
  match l1, l2 with
  | a :: l1, b :: l2 => if bool_decide (a = b) then lex_ltb l1 l2 else str_ltb a b
  | _, _ => false
  end.

Definition rank (r : gmap string any) : list string :=
  let meta := default ∅ (mapAt r "metadata") in
  [stringOr r "kind"; stringOr r "apiVersion"; stringOr meta "namespace"; stringOr meta "name"].

Lemma str_ltb_irrefl s : str_ltb s s = false.
Proof. destruct (str_ltb s s) eqn:E; [|done]. pose proof (str_ltb_asym s s E). congruence. Qed.

Lemma compareResources_rank a b : compareResources a b = lex_ltb (rank a) (rank b).
Proof.
  unfold compareResources, rank. cbn [lex_ltb]. repeat case_bool_decide; try done; cbn [negb].
  - match goal with H : ?x = ?y |- str_ltb ?x ?y = _ => rewrite H end. apply str_ltb_irrefl.
Qed.

Lemma lex_ltb_asym l1 l2 : lex_ltb l1 l2 = true → lex_ltb l2 l1 = false.
Proof.
  revert l2. induction l1 as [|a l1 IH]; intros [|b l2]; try done. cbn [lex_ltb].
  case_bool_decide as E1; case_bool_decide as E2; subst; try done; [apply IH|apply str_ltb_asym].
Qed.

Lemma lex_ltb_trans l1 l2 l3 : lex_ltb l1 l2 = true → lex_ltb l2 l3 = true → lex_ltb l1 l3 = true.
Proof.
  revert l2 l3. induction l1 as [|a l1 IH]; intros [|b l2] [|c l3]; try done. cbn [lex_ltb].
  case_bool_decide as E1; case_bool_decide as E2; case_bool_decide as E3; subst; try done;
    try (apply IH); try (intros Hx Hy; by rewrite (str_ltb_asym _ _ Hx) in Hy).
  apply str_ltb_trans.
Qed.

(** Tuples of one length that are not ordered are equal. *)
Lemma lex_ltb_tie l1 l2 :
  length l1 = length l2 → lex_ltb l1 l2 = false → lex_ltb l2 l1 = false → l1 = l2.
Proof.
  revert l2. induction l1 as [|a l1 IH]; intros [|b l2] Hl; try done. cbn [lex_ltb].
  case_bool_decide as E1; case_bool_decide as E2; subst; try done.
  - intros H1 H2. f_equal. apply IH; [by injection Hl|done..].
  - intros H1 H2. pose proof (str_ltb_total a b E1 H1). congruence.
Qed.

(** ** Stable sorting *)

Lemma sorted_weaken {A} (R Q : A → A → Prop) l :
  (∀ x y, R x y → Q x y) → StronglySorted R l → StronglySorted Q l.
Proof. intros HRQ. induction 1 as [|x l _ IH Hx]; constructor; [done|]. eapply Forall_impl; eauto. Qed.

Section Stable.
Context {A : Type} (less : A → A → bool).
Context (asym : ∀ x y, less x y = true → less y x = false).
Context (neg_trans : ∀ x y z, less y x = false → less z y = false → less z x = false).

Definition not_after (x y : A) : Prop := less y x = false.
Definition tied (x y : A) : Prop := less x y = false ∧ less y x = false.

#[global] Instance tied_dec x y : Decision (tied x y).
Proof. unfold tied. apply _. Defined.

Lemma insertStable_perm x l : insertStable less x l ≡ₚ x :: l.
Proof.
  induction l as [|y l IH]; [done|]. cbn [insertStable]. case_goal; [done|]. rewrite IH. constructor.
Qed.

Lemma insertStable_sorted x l :
  StronglySorted not_after l → StronglySorted not_after (insertStable less x l).
Proof.
  induction 1 as [|y l Hs IH Hy]; cbn [insertStable]; [by repeat constructor|].
  destruct (less x y) eqn:E.
  - constructor; [by constructor|]. constructor; [by apply asym|].
    eapply Forall_impl; [exact Hy|]. intros z Hz. unfold not_after in *.
    apply (neg_trans x y z); [by apply asym|done].
  - constructor; [done|]. rewrite insertStable_perm. by constructor.
Qed.

Lemma insertStable_tied x l z :
  StronglySorted not_after l →
  filter (tied z) (insertStable less x l) = filter (tied z) l ++ filter (tied z) [x].
Proof.
  induction 1 as [|y l Hs IH Hy]; [done|]. cbn [insertStable]. destruct (less x y) eqn:E.
  - rewrite !filter_cons. rewrite filter_nil. destruct (decide (tied z x)) as [[Hx1 Hx2]|Hx]; [|by rewrite app_nil_r].
    assert (Hno : ∀ w, w ∈ y :: l → ¬ tied z w).
    { intros w Hw [H1 H2].
      assert (less w y = false) as Hwy.
      { apply elem_of_cons in Hw as [->|Hw]; [by destruct (less y y) eqn:Ey; [pose proof (asym y y Ey); congruence|]|].
        rewrite Forall_forall in Hy. by apply Hy. }
      assert (less x w = false) as Hxw by (apply (neg_trans w z x); done).
      assert (less x y = false); [|congruence]. apply (neg_trans y w x); [done|done]. }
    rewrite decide_False by (apply Hno; left). rewrite (filter_none (tied z) l); [done|].
    intros w Hw. apply Hno. by right.
  - rewrite !filter_cons, IH. by case_decide.
Qed.

Lemma SliceStable_spec l :
  SliceStable less l ≡ₚ l ∧ StronglySorted not_after (SliceStable less l)
  ∧ ∀ z, filter (tied z) (SliceStable less l) = filter (tied z) l.
Proof.
  unfold SliceStable. induction l as [|x l (Hp & Hs & Ht)] using rev_ind.
  - split; [done|]. split; [constructor|done].
  - rewrite foldl_snoc. split_and!.
    + rewrite insertStable_perm, Hp. by rewrite Permutation_app_comm.
    + by apply insertStable_sorted.
    + intros z. by rewrite insertStable_tied, Ht, filter_app.
Qed.

(** Without ties the result depends on the elements only. *)
Lemma SliceStable_canonical l1 l2 :
  l1 ≡ₚ l2 → (∀ x y, x ∈ l1 → y ∈ l1 → tied x y → x = y) → SliceStable less l1 = SliceStable less l2.
Proof.
  intros Hp Hu. destruct (SliceStable_spec l1) as (P1 & S1 & _), (SliceStable_spec l2) as (P2 & S2 & _).
  apply (StronglySorted_unique_strong not_after); [|done..|by rewrite P1, P2].
  intros x y Hx Hy H1 H2. rewrite P1 in Hx. rewrite P2, <- Hp in Hy. by apply Hu.
Qed.
End Stable.

Lemma compare_neg_trans x y z :
  compareResources y x = false → compareResources z y = false → compareResources z x = false.
Proof.
  rewrite !compareResources_rank. intros H1 H2.
  destruct (lex_ltb (rank z) (rank x)) eqn:E; [|done].
  destruct (lex_ltb (rank x) (rank y)) eqn:E2.
  - rewrite (lex_ltb_trans _ _ _ E E2) in H2. done.
  - assert (rank x = rank y) as Hr by by apply lex_ltb_tie. rewrite Hr in E. congruence.
Qed.

Lemma compare_asym x y : compareResources x y = true → compareResources y x = false.
Proof. rewrite !compareResources_rank. apply lex_ltb_asym. Qed.

Lemma compare_tied x y : tied compareResources x y ↔ rank x = rank y.
Proof.
  unfold tied. rewrite !compareResources_rank. split; [intros []; by apply lex_ltb_tie|].
  intros ->. assert (lex_ltb (rank y) (rank y) = false); [|done].
  destruct (lex_ltb (rank y) (rank y)) eqn:E; [|done]. pose proof (lex_ltb_asym _ _ E). congruence.
Qed.

Abbreviation rrLess := (λ a b : RenderedResource, compareResources (Resource a) (Resource b)).

Lemma sortRenderedResources_sorted rs :
  sortRenderedResources rs ≡ₚ rs
  ∧ StronglySorted (λ a b, lex_ltb (rank (Resource b)) (rank (Resource a)) = false) (sortRenderedResources rs)
  ∧ ∀ a, filter (tied rrLess a) (sortRenderedResources rs) = filter (tied rrLess a) rs.
Proof.
  destruct (SliceStable_spec rrLess (λ x y, compare_asym _ _) (λ x y z, compare_neg_trans _ _ _) rs) as (Hp & Hs & Ht).
  split_and!; [done| |done]. eapply sorted_weaken; [|exact Hs]. intros x y. unfold not_after. by rewrite compareResources_rank.
Qed.

(** The output is in order of kind, apiVersion, namespace and name; it holds
    exactly the resources that were rendered; resources that agree in all four
    keep the order in which they were rendered; and when no two agree, the order
    of the output does not depend on the order of rendering at all. *)
Theorem sortRenderedResources_spec (rs : list RenderedResource) :
  sortRenderedResources rs ≡ₚ rs
  ∧ StronglySorted (λ a b, lex_ltb (rank (Resource b)) (rank (Resource a)) = false) (sortRenderedResources rs)
  ∧ (∀ a, filter (λ b, rank (Resource a) = rank (Resource b)) (sortRenderedResources rs)
          = filter (λ b, rank (Resource a) = rank (Resource b)) rs)
  ∧ ∀ rs', rs ≡ₚ rs' → NoDup (rank ∘ Resource <$> rs) → sortRenderedResources rs = sortRenderedResources rs'.
Proof.
  destruct (sortRenderedResources_sorted rs) as (Hp & Hs & Ht). split; [done|]. split; [done|]. split.
  - intros a. specialize (Ht a). rewrite (list_filter_iff (λ b, rank (Resource a) = rank (Resource b)) (tied rrLess a));
      [|intros b; by rewrite <- compare_tied]. rewrite Ht. symmetry. apply list_filter_iff.
    intros b. by rewrite <- compare_tied.
  - intros rs' Hrs Hnd. apply SliceStable_canonical; [intros; by apply compare_asym|intros *; apply compare_neg_trans|done|].
    intros x y Hx Hy Hxy. change (tied compareResources (Resource x) (Resource y)) in Hxy.
    apply compare_tied in Hxy. apply list_elem_of_lookup in Hx as [i Hi], Hy as [j Hj].
    assert (i = j) as ->; [|congruence].
    apply (NoDup_lookup _ i j (rank (Resource x)) Hnd); rewrite list_lookup_fmap.
    + by rewrite Hi.
    + rewrite Hj. cbn. by rewrite Hxy.
Qed.

(** ** The hash *)

Lemma hashContent_perm wt rs rs' :
  rs ≡ₚ rs' → NoDup (rank ∘ Resource <$> rs) → hashContent wt rs = hashContent wt rs'.
Proof.
  intros Hp Hnd. unfold hashContent. f_equal.
  apply SliceStable_canonical; [apply compare_asym|apply compare_neg_trans|by rewrite Hp|].
  intros x y (a & -> & Ha)%list_elem_of_fmap (b & -> & Hb)%list_elem_of_fmap Hxy.
  apply list_elem_of_filter in Ha as [_ Ha], Hb as [_ Hb]. apply compare_tied in Hxy.
  apply list_elem_of_lookup in Ha as [i Hi], Hb as [j Hj].
  assert (i = j) as ->; [|congruence].
  apply (NoDup_lookup _ i j (rank (Resource a)) Hnd); rewrite list_lookup_fmap.
  - by rewrite Hi.
  - rewrite Hj. cbn. by rewrite Hxy.
Qed.

(** The content does not change with the metadata of a resource, and a change
    of its metadata alone does not reorder the resources that are hashed. *)
Lemma extractContent_lookup r k :
  extractContentExcludingMetadata r !! k = if decide (k = "metadata") then None else r !! k.
Proof.
  unfold extractContentExcludingMetadata. case_decide as Hk.
  - apply map_lookup_filter_None_2. right. intros v _ Hn. by apply Hn.
  - destruct (r !! k) as [v|] eqn:E.
    + by apply map_lookup_filter_Some_2.
    + by apply map_lookup_filter_None_2; left.
Qed.

(** Sorting commutes with a change that the comparison does not see. *)
Lemma SliceStable_Forall2 {A} (less : A → A → bool) (R : A → A → Prop) l l' :
  (∀ x x' y y', R x x' → R y y' → less x y = less x' y') →
  Forall2 R l l' → Forall2 R (SliceStable less l) (SliceStable less l').
Proof.
  intros HR Hl. unfold SliceStable.
  assert (Hi : ∀ x x' acc acc', R x x' → Forall2 R acc acc' →
    Forall2 R (insertStable less x acc) (insertStable less x' acc')).
  { intros x x' acc acc' Hx Ha. induction Ha as [|y y' acc acc' Hy Ha IH]; cbn [insertStable]; [by repeat constructor|].
    rewrite (HR x x' y y' Hx Hy). destruct (less x' y'); constructor; [done|by constructor|done|done]. }
  assert (Hg : ∀ acc acc', Forall2 R acc acc' →
    Forall2 R (foldl (λ acc x, insertStable less x acc) acc l) (foldl (λ acc x, insertStable less x acc) acc' l')).
  { induction Hl as [|x x' l l' Hx _ IH]; intros acc acc' Ha; [done|]. cbn. apply IH. by apply Hi. }
  by apply Hg.
Qed.

(** ** Labels *)

(** Two resources that differ in the labels of their metadata only. *)
Definition same_but_labels (r r' : gmap string any) : Prop :=
  (∀ k, k ≠ "metadata" → r' !! k = r !! k)
  ∧ ∃ meta meta', mapAt r "metadata" = Some meta ∧ mapAt r' "metadata" = Some meta'
      ∧ ∀ k, k ≠ "labels" → meta' !! k = meta !! k.

Definition labelled (labels : gmap string string) (r : gmap string any) : Prop :=
  ∃ meta ls, mapAt r "metadata" = Some meta ∧ mapAt meta "labels" = Some ls
    ∧ ∀ k v, labels !! k = Some v → ls !! k = Some (VString v).

Lemma mapAt_insert r k m : mapAt (<[k := VMap m]> r) k = Some m.
Proof. unfold mapAt. by rewrite lookup_insert_eq. Qed.

Lemma addLabels_spec r labels :
  match addLabels r labels with
  | Fail _ => mapAt r "metadata" = None
  | Val r' => same_but_labels r r' ∧ labelled labels r'
      ∧ ∀ meta ls k, mapAt r "metadata" = Some meta → mapAt meta "labels" = Some ls → labels !! k = None →
          ∃ meta' ls', mapAt r' "metadata" = Some meta' ∧ mapAt meta' "labels" = Some ls' ∧ ls' !! k = ls !! k
  end.
Proof.
  unfold addLabels. destruct (mapAt r "metadata") as [meta|] eqn:Em; [|done].
  split_and!.
  - split; [intros k Hk; by rewrite lookup_insert_ne|]. exists meta. eexists.
    split; [done|]. split; [apply mapAt_insert|]. intros k Hk. by rewrite lookup_insert_ne.
  - eexists _, _. split; [apply mapAt_insert|]. split; [apply mapAt_insert|]. intros k v Hk.
    apply lookup_union_Some_l. by rewrite lookup_fmap, Hk.
  - intros meta' ls k [= <-] Hls Hk. eexists _, _. split; [apply mapAt_insert|]. split; [apply mapAt_insert|].
    rewrite Hls. cbn. rewrite lookup_union_r; [done|]. by rewrite lookup_fmap, Hk.
Qed.

Lemma stringOr_eq (m m' : gmap string any) k : m' !! k = m !! k → stringOr m' k = stringOr m k.
Proof. unfold stringOr, stringAt. by intros ->. Qed.

Lemma same_but_labels_rank r r' : same_but_labels r r' → rank r' = rank r.
Proof.
  intros (H1 & meta & meta' & Hm & Hm' & H2). unfold rank. rewrite Hm, Hm'. cbn [default from_option id].
  by rewrite (stringOr_eq r r' "kind"), (stringOr_eq r r' "apiVersion"), (stringOr_eq meta meta' "namespace"),
    (stringOr_eq meta meta' "name") by auto.
Qed.

Lemma same_but_labels_well_formed r r' : same_but_labels r r' → well_formed r → well_formed r'.
Proof.
  intros Hs (Hk & Ha & meta0 & Hm0 & Hn). pose proof (same_but_labels_rank r r' Hs) as Hr.
  destruct Hs as (H1 & meta & meta' & Hm & Hm' & H2). unfold rank in Hr. injection Hr as E1 E2 E3 E4.
  rewrite Hm, Hm' in *. cbn [default from_option id] in *. injection Hm0 as ->.
  split; [congruence|]. split; [congruence|]. exists meta'. split; [done|congruence].
Qed.

Lemma same_but_labels_content r r' :
  same_but_labels r r' → extractContentExcludingMetadata r' = extractContentExcludingMetadata r.
Proof.
  intros (H1 & _). apply map_eq. intros k. rewrite !extractContent_lookup. case_decide; [done|]. by apply H1.
Qed.

Definition relabelled (labels : gmap string string) (rr rr' : RenderedResource) : Prop :=
  TargetPlane rr' = TargetPlane rr ∧ same_but_labels (Resource rr) (Resource rr') ∧ labelled labels (Resource rr').

Lemma labelAll_spec labels rs rs' : labelAll labels rs = Val rs' → Forall2 (relabelled labels) rs rs'.
Proof.
  revert rs'. induction rs as [|rr rs IH]; intros rs'; cbn [labelAll]; [intros [= <-]; constructor|].
  pose proof (addLabels_spec (Resource rr) labels) as Ha.
  destruct (addLabels (Resource rr) labels) as [r|]; [|done]. destruct (labelAll labels rs) as [l|]; [|done].
  intros [= <-]. constructor; [|by apply IH]. split_and!; [done|apply Ha|apply Ha].
Qed.

Lemma filter_Forall2 {A} (R : A → A → Prop) (P : A → Prop) `{!∀ x, Decision (P x)} l l' :
  (∀ x y, R x y → P x ↔ P y) → Forall2 R l l' → Forall2 R (filter P l) (filter P l').
Proof.
  intros HP. induction 1 as [|x y l l' Hxy _ IH]; [constructor|]. rewrite !filter_cons.
  pose proof (HP x y Hxy). case_decide; case_decide; try tauto. by constructor.
Qed.

Lemma hashContent_labels wt labels rs rs' : labelAll labels rs = Val rs' → hashContent wt rs' = hashContent wt rs.
Proof.
  intros Hl%labelAll_spec. unfold hashContent.
  assert (HF : Forall2 same_but_labels
    (SliceStable compareResources (Resource <$> filter (λ rr, TargetPlane rr = TargetPlaneDataPlane
       ∧ isMainWorkloadKind (stringOr (Resource rr) "kind") wt = false) rs))
    (SliceStable compareResources (Resource <$> filter (λ rr, TargetPlane rr = TargetPlaneDataPlane
       ∧ isMainWorkloadKind (stringOr (Resource rr) "kind") wt = false) rs'))).
  { apply SliceStable_Forall2.
    - intros x x' y y' Hx Hy. by rewrite !compareResources_rank, (same_but_labels_rank _ _ Hx), (same_but_labels_rank _ _ Hy).
    - apply Forall2_fmap. eapply Forall2_impl; [eapply filter_Forall2, Hl|].
      + intros x y (Hp & Hs & _). rewrite Hp. destruct Hs as [Hs _]. by rewrite (stringOr_eq (Resource x) (Resource y) "kind" (Hs "kind" ltac:(done))).
      + intros x y (_ & Hs & _). exact Hs. }
  symmetry. revert HF. generalize (SliceStable compareResources (Resource <$> filter (λ rr, TargetPlane rr = TargetPlaneDataPlane
       ∧ isMainWorkloadKind (stringOr (Resource rr) "kind") wt = false) rs)).
  intros l1 HF. induction HF as [|x y l1 l2 Hxy _ IH]; [done|].
  rewrite !fmap_cons, IH. f_equal. symmetry. by apply same_but_labels_content.
Qed.

(** The hash on the pod template is a function of what the resources
    contain: it is the same whatever the order in which the resources were
    rendered, as long as no two share kind, apiVersion, namespace and name, and
    the labels that were just added do not enter it. *)
Theorem resource_hash_canonical (workloadType : string) (labels : gmap string string) (rs rs' labelled' : list RenderedResource) :
  rs ≡ₚ rs' → NoDup (rank ∘ Resource <$> rs) → labelAll labels rs' = Val labelled' →
  hashContent workloadType labelled' = hashContent workloadType rs.
Proof.
  intros Hp Hnd Hl. rewrite (hashContent_labels workloadType labels rs' labelled' Hl).
  symmetry. by apply hashContent_perm.
Qed.

(** ** Validation *)

Lemma validateResourceAt_spec i rr : validateResourceAt i rr = Val () ↔ well_formed (Resource rr).
Proof.
  unfold validateResourceAt, well_formed. repeat case_bool_decide; try (split; naive_solver);
    (destruct (mapAt (Resource rr) "metadata") as [meta|]; [|split; naive_solver]);
    case_bool_decide; split; naive_solver.
Qed.

Lemma validateResources_spec rs : validateResources rs = Val () ↔ Forall (well_formed ∘ Resource) rs.
Proof.
  unfold validateResources. generalize 0. induction rs as [|rr rs IH]; intros i; cbn [validateFrom]; [by split|].
  rewrite Forall_cons. cbn [compose]. rewrite <- (IH (1 + i)), <- (validateResourceAt_spec i rr).
  destruct (validateResourceAt i rr) as [[]|err]; naive_solver.
Qed.

(** ** The annotation *)

(** The value of the annotation on the pod template. *)
Definition podAnnotation (key : string) (r : gmap string any) : option any :=
  mapAt r "spec" ≫= λ spec, mapAt spec "template" ≫= λ template,
  mapAt template "metadata" ≫= λ meta, mapAt meta "annotations" ≫= λ annotations, annotations !! key.

Lemma addPodTemplateAnnotation_spec r key value r' :
  addPodTemplateAnnotation r key value = Val r' →
  podAnnotation key r' = Some (VString value) ∧ ∀ k, k ≠ "spec" → r' !! k = r !! k.
Proof.
  unfold addPodTemplateAnnotation. destruct (mapAt r "spec") as [spec|]; [|done]. intros [= <-]. split.
  - unfold podAnnotation. do 4 (rewrite mapAt_insert; cbn [mbind option_bind]). by rewrite lookup_insert_eq.
  - intros k Hk. by rewrite lookup_insert_ne.
Qed.

(** A main workload that carries the hash, or a resource left as it was. *)
Definition annotated (wt h : string) (rr rr' : RenderedResource) : Prop :=
  TargetPlane rr' = TargetPlane rr
  ∧ (∀ k, k ≠ "spec" → Resource rr' !! k = Resource rr !! k)
  ∧ (Resource rr' = Resource rr
     ∨ isMainWorkloadKind (stringOr (Resource rr) "kind") wt = true
       ∧ podAnnotation AnnotationKeyDPResourceHash (Resource rr') = Some (VString h)).

Lemma annotated_refl wt h rr : annotated wt h rr rr.
Proof. split_and!; auto. Qed.

Lemma annotated_all wt h rs : Forall2 (annotated wt h) rs rs.
Proof. induction rs; constructor; auto using annotated_refl. Qed.

Lemma annotateWorkload_spec wt h rs rs' :
  annotateWorkload wt h rs = Val rs' →
  Forall2 (annotated wt h) rs rs'
  ∧ (Exists (λ rr, isMainWorkloadKind (stringOr (Resource rr) "kind") wt = true) rs →
     Exists (λ rr, podAnnotation AnnotationKeyDPResourceHash (Resource rr) = Some (VString h)) rs').
Proof.
  revert rs'. induction rs as [|rr rs IH]; intros rs'; cbn [annotateWorkload].
  { intros [= <-]. split; [constructor|by intros ?%Exists_nil]. }
  destruct (isMainWorkloadKind _ wt) eqn:Em; cbn [negb].
  - destruct (addPodTemplateAnnotation _ _ _) as [r|] eqn:Ea; [|done]. intros [= <-].
    apply addPodTemplateAnnotation_spec in Ea as [Hv Hk]. split; [|by intros _; left].
    constructor; [|apply annotated_all]. split_and!; [done|exact Hk|by right].
  - destruct (annotateWorkload wt h rs) as [l|]; [|done]. intros [= <-]. destruct (IH l eq_refl) as [HF HE].
    split; [by constructor; [apply annotated_refl|]|]. intros [?|?]%Exists_cons; [congruence|]. right. by apply HE.
Qed.

Lemma annotated_rank wt h rr rr' : annotated wt h rr rr' → rank (Resource rr') = rank (Resource rr).
Proof.
  intros (_ & Hk & _). unfold rank, mapAt. rewrite (Hk "metadata") by done.
  by rewrite (stringOr_eq (Resource rr) (Resource rr') "kind"), (stringOr_eq (Resource rr) (Resource rr') "apiVersion")
    by (by apply Hk).
Qed.

Lemma annotated_labelled wt h labels rr rr' :
  annotated wt h rr rr' → labelled labels (Resource rr) → labelled labels (Resource rr').
Proof. intros (_ & Hk & _). unfold labelled, mapAt. by rewrite (Hk "metadata"). Qed.

Section PostProcess.
Context {H : ResourceHash}.

(** What post-processing does to one resource. *)
Definition post_processed (labels : gmap string string) (rr rr' : RenderedResource) : Prop :=
  TargetPlane rr' = TargetPlane rr ∧ rank (Resource rr') = rank (Resource rr) ∧ labelled labels (Resource rr').

Lemma Forall2_compose {A} (P Q R : A → A → Prop) l1 l2 l3 :
  (∀ x y z, P x y → Q y z → R x z) → Forall2 P l1 l2 → Forall2 Q l2 l3 → Forall2 R l1 l3.
Proof.
  intros HR H12. revert l3. induction H12 as [|x y l1 l2 Hxy _ IH]; intros l3 H23; inversion H23; subst; constructor; eauto.
Qed.

Lemma postProcessResources_spec wt labels rs rs' :
  postProcessResources wt labels rs = Val rs' → Forall2 (post_processed labels) rs rs'.
Proof.
  unfold postProcessResources. destruct (labelAll labels rs) as [l|] eqn:El; [|done].
  destruct (addDPResourceHashAnnotation wt l) as [l'|] eqn:Ea; [|done]. intros [= <-].
  apply labelAll_spec in El.
  apply (Forall2_compose (relabelled labels) (annotated wt (ComputeHash (hashContent wt l))) _ _ l); [|done|].
  - intros x y z (Hp & Hs & Hl) Hyz. pose proof Hyz as (Hp' & _). split_and!; [congruence| |by eapply annotated_labelled].
    rewrite (annotated_rank _ _ _ _ Hyz). by apply same_but_labels_rank.
  - revert Ea. unfold addDPResourceHashAnnotation.
    destruct (negb _ && negb _); [intros [= <-]; apply annotated_all|].
    destruct (bool_decide _); [intros [= <-]; apply annotated_all|].
    by intros [? _]%annotateWorkload_spec.
Qed.
End PostProcess.

(** * Post-render validation: the reference and the collector

    A sweep that finds nothing wrong is the plain evaluation of every rule on
    every matched resource; otherwise the failures are collected, at most twenty
    and none after an error that aborts the render. *)

#[local] Set Warnings "-register-all".

(** ** The collector *)

(** At most twenty failures, and none behind one that aborted the render. *)
Definition collector_ok (c : postRenderErrors) : Prop :=
  length (errs c) ≤ maxPostRenderErrors
  ∧ capped c = (maxPostRenderErrors <=? length (errs c))
  ∧ ∀ front e, errs c = front ++ [e] → Forall (λ e, IsRenderAborted e = false) front.

(** More failures may be collected. *)
Definition collecting (c : postRenderErrors) : Prop :=
  length (errs c) < maxPostRenderErrors ∧ capped c = false ∧ Forall (λ e, IsRenderAborted e = false) (errs c).

Lemma collecting_ok c : collecting c → collector_ok c.
Proof.
  intros (Hl & Hc & Ha). split_and!; [lia| |].
  - rewrite Hc. symmetry. by apply Nat.leb_gt.
  - intros front e He. rewrite He in Ha. by apply Forall_app in Ha as [? _].
Qed.

Lemma collect_spec c err :
  collecting c →
  let '(c', stop) := collect c err in
  errs c' = errs c ++ [err] ∧ collector_ok c' ∧ (stop = false → collecting c').
Proof.
  intros (Hl & Hc & Ha). unfold collect. rewrite Hc. cbn [orb errs capped]. split; [done|].
  assert (Hlen : length (errs c ++ [err]) = S (length (errs c))) by by rewrite length_app, Nat.add_1_r.
  split.
  - split_and!; [cbn; lia|done|]. intros front e. cbn [errs]. by intros [<- _]%app_inj_tail.
  - intros [Hm Hx]%orb_false_elim. split_and!; cbn [errs capped]; [by apply Nat.leb_gt in Hm|done|].
    apply Forall_app. split; [done|]. by apply Forall_singleton.
Qed.

Section PostRenderSpec.
Context {C : CEL} {J : JSON} {X : RenderContext} {G : EngineConfig}.

(** ** The reference *)

(** What has to be true, with the first failure as the outcome. *)
Definition checkRule (v : PostRenderValidation) (ctx : gmap string any) (rr : RenderedResource) : EM St unit :=
  r ← Render (VString (prRule v)) (<["resource" := VMap (Resource rr)]> ctx);
  match r with VBool true => mret () | _ => throw (errorf "the rule is not true") end.

Definition checkSelection (rs : list RenderedResource) (ctx : gmap string any) (v : PostRenderValidation) : EM St unit :=
  let t := prPatchTarget (prTarget v) in
  let spec := mkTargetSpec (Kind t) (Group t) (Version t) "" (TargetPlaneOrDefault v) in
  let found := filter (λ rr, matchesTarget rr spec = true) rs in
  matched ← (if bool_decide (Where t = "") then mret found else filterByWhere found (Where t) ctx);
  if bool_decide (matched = []) && MustMatchOrDefault (prTarget v) then throw (errorf "nothing matched")
  else eForEach (checkRule v ctx) matched.

Definition checkOne (rs : list RenderedResource) (pv : pendingPostRender * PostRenderValidation) : EM St unit :=
  let '(p, v) := pv in
  include ← (if bool_decide (When v = "") then mret true else ShouldInclude (When v) (pendContext p));
  if negb include then mret ()
  else if bool_decide (prForEach v = "") then checkSelection rs (pendContext p) v
  else
    itemsRaw ← Render (VString (prForEach v)) (pendContext p);
    items ← ToIterableItems itemsRaw;
    eForEach (λ item, checkSelection rs (<[varNameOr (prVar v) := item]> (pendContext p)) v) items.

Definition checkAll (rs : list RenderedResource) (pending : list pendingPostRender) : EM St unit :=
  eForEach (checkOne rs) (pending ≫= λ p, (λ v, (p, v)) <$> validations p).

(** ** Following the reference *)

(** While failures are collected, the sweep does what the reference does as
    long as that succeeds, and collects at least one failure when it fails. *)
Definition tracks (m : postRenderErrors → EM St (postRenderErrors * bool)) (ref : EM St unit) : Prop :=
  ∀ c st, collecting c →
    match ref st with
    | (st', Val _) => m c st = (st', Val (c, false))
    | (_, Fail _) => ∃ st' c' stop e more, m c st = (st', Val (c', stop))
        ∧ errs c' = errs c ++ e :: more ∧ collector_ok c' ∧ (stop = false → collecting c')
    end.

(** Whatever the reference does, the sweep returns. *)
Lemma tracks_total m ref c st :
  tracks m ref → collecting c →
  ∃ st' c' stop more, m c st = (st', Val (c', stop))
    ∧ errs c' = errs c ++ more ∧ collector_ok c' ∧ (stop = false → collecting c').
Proof.
  intros Hm Hc. specialize (Hm c st Hc). destruct (ref st) as [st1 [u|e]].
  - exists st1, c, false, []. rewrite app_nil_r. auto using collecting_ok.
  - destruct Hm as (st' & c' & stop & e' & more & Hm & He). by exists st', c', stop, (e' :: more).
Qed.

(** One sweep, and the next unless it stopped. *)
Definition andThen (m1 m2 : postRenderErrors → EM St (postRenderErrors * bool)) (c : postRenderErrors) : EM St (postRenderErrors * bool) :=
  '(c, stop) ← m1 c; if stop : bool then mret (c, true) else m2 c.

Lemma tracks_andThen m1 m2 ref1 ref2 :
  tracks m1 ref1 → tracks m2 ref2 → tracks (andThen m1 m2) (ref1 ≫= λ _, ref2).
Proof.
  intros H1 H2 c st Hc. rewrite bind_eq. unfold andThen. rewrite bind_eq. specialize (H1 c st Hc).
  destruct (ref1 st) as [st1 [u|e1]].
  - rewrite H1. exact (H2 c st1 Hc).
  - destruct H1 as (st2 & c2 & stop & e & more & -> & He & Hok & Hgo). destruct stop.
    { exists st2, c2, true, e, more. split_and!; done. }
    destruct (tracks_total m2 ref2 c2 st2 H2 (Hgo eq_refl)) as (st3 & c3 & stop3 & more3 & -> & He3 & Hok3 & Hgo3).
    exists st3, c3, stop3, e, (more ++ more3). rewrite He3, He, <- app_assoc. done.
Qed.

Lemma tracks_nothing : tracks (λ c, mret (c, false)) (mret ()).
Proof. by intros c st Hc. Qed.

Lemma tracks_report (f : goerr → goerr) err : tracks (λ c, report c (f err)) (throw err).
Proof.
  intros c st Hc. cbn [throw]. pose proof (collect_spec c (f err) Hc) as Hs. unfold report.
  destruct (collect c (f err)) as [c' stop] eqn:E. by exists st, c', stop, (f err), [].
Qed.

(** Code that goes on with the value or collects the error. *)
Lemma tracks_try {A} (m : EM St A) (body : postRenderErrors → eres A → EM St (postRenderErrors * bool)) ref :
  (∀ err, tracks (λ c, body c (Fail err)) (throw err)) → (∀ a, tracks (λ c, body c (Val a)) (ref a)) →
  tracks (λ c, try m ≫= body c) (m ≫= ref).
Proof.
  intros Hf Hk c st Hc. rewrite !bind_eq. unfold try. destruct (m st) as [st1 [a|err]]; cbn [fst snd].
  - exact (Hk a c st1 Hc).
  - exact (Hf err c st1 Hc).
Qed.

Lemma tracks_ext m m' ref ref' :
  (∀ c st, m c st = m' c st) → (∀ st, ref st = ref' st) → tracks m ref → tracks m' ref'.
Proof. intros Hm Hr H c st Hc. rewrite <- Hm, <- Hr. by apply H. Qed.

(** ** The sweep *)

(** The rule on one resource: what is collected for its outcome. *)
Definition outcomeError (v : PostRenderValidation) (lbl suffix : string) (rr : RenderedResource) (r : eres any) : option goerr :=
  match r with
  | Fail err => Some (wrapf (quoted lbl +:+ " post-render rule evaluation error on " +:+ resourceIdentity rr +:+ ": ") err suffix)
  | Val (VBool true) => None
  | Val (VBool false) =>
      Some (errorf (quoted lbl +:+ " post-render validation on " +:+ resourceIdentity rr +:+ " failed: "
                    +:+ TruncateFragment (prMessage v) +:+ suffix))
  | Val result =>
      Some (errorf (quoted lbl +:+ " post-render rule on " +:+ resourceIdentity rr
                    +:+ " must evaluate to boolean, got " +:+ type_name result +:+ suffix))
  end.

Lemma evaluateRule_tracks v lbl suffix ctx matched :
  tracks (evaluateRule v lbl suffix ctx matched) (eForEach (checkRule v ctx) matched).
Proof.
  induction matched as [|rr matched IH]; [apply tracks_nothing|].
  set (one := λ c, try (Render (VString (prRule v)) (<["resource" := VMap (Resource rr)]> ctx)) ≫= λ r,
    match outcomeError v lbl suffix rr r with Some err => report c err | None => mret (c, false) end).
  apply (tracks_ext (andThen one (evaluateRule v lbl suffix ctx matched)) _
    (checkRule v ctx rr ≫= λ _, eForEach (checkRule v ctx) matched)); [|done|].
  - intros c st. cbn [evaluateRule]. unfold andThen, one. rewrite !bind_eq. unfold try.
    destruct (Render _ _ st) as [st1 [a|err]]; cbn [fst snd]; [destruct a as [|[]| | | | |]|];
      cbn [outcomeError]; try done; unfold report; cbn [mret EM_ret]; by destruct (collect _ _) as [? []].
  - apply tracks_andThen; [|exact IH]. apply tracks_try.
    + intros err. apply (tracks_report (λ e, wrapf _ e suffix)).
    + intros a. destruct a as [|[]| | | | |]; try apply tracks_nothing; apply (tracks_report (λ _, _)).
Qed.

Lemma addressed_filter rs spec :
  snd <$> FindTargetResources (addressed rs) spec = filter (λ rr, matchesTarget rr spec = true) rs.
Proof.
  rewrite FindTargetResources_filter. unfold addressed.
  assert (Hg : ∀ f : nat → RenderedResource → target, (∀ i rr, (f i rr).2 = rr) →
    snd <$> filter (λ t : target, matchesTarget t.2 spec = true) (imap f rs) = filter (λ rr, matchesTarget rr spec = true) rs).
  { induction rs as [|rr rs IH]; intros f Hf; [done|]. cbn [imap]. rewrite !filter_cons, Hf.
    case_decide; [rewrite fmap_cons, Hf; f_equal|]; apply IH; intros i r; apply Hf. }
  by apply Hg.
Qed.

Lemma evaluatePostRenderSelection_tracks rs lbl desc ctx v :
  tracks (evaluatePostRenderSelection rs lbl desc ctx v) (checkSelection rs ctx v).
Proof.
  unfold evaluatePostRenderSelection, checkSelection. rewrite addressed_filter. apply tracks_try.
  - intros err. apply (tracks_report (λ e, wrapf _ e "")).
  - intros [|rr matched].
    + rewrite bool_decide_eq_true_2 by done. cbn [andb eForEach].
      case_goal; [apply (tracks_report (λ _, _))|apply tracks_nothing].
    + rewrite bool_decide_eq_false_2 by done. apply evaluateRule_tracks.
Qed.

Lemma evaluateIterations_tracks rs p v varName items :
  tracks (evaluateIterations rs p v varName items)
    (eForEach (λ item, checkSelection rs (<[varName := item]> (pendContext p)) v) items).
Proof.
  induction items as [|item items IH]; [apply tracks_nothing|].
  exact (tracks_andThen _ _ _ _ (evaluatePostRenderSelection_tracks rs (label p) _ _ v) IH).
Qed.

Lemma evaluateOnePostRender_tracks rs p v :
  tracks (evaluateOnePostRender rs p v) (checkOne rs (p, v)).
Proof.
  unfold evaluateOnePostRender, checkOne. apply tracks_try; [intros err; apply (tracks_report (λ e, wrapf _ e ""))|].
  intros []; cbn [negb]; [|apply tracks_nothing]. case_goal; [apply evaluatePostRenderSelection_tracks|].
  apply tracks_try; [intros err; apply (tracks_report (λ e, wrapf _ e ""))|]. intros raw.
  apply tracks_try; [intros err; apply (tracks_report (λ e, wrapf _ e ""))|]. intros items.
  apply evaluateIterations_tracks.
Qed.

Lemma sweepAll_tracks rs todo c st :
  collecting c →
  match eForEach (checkOne rs) todo st with
  | (st', Val _) => sweepAll rs todo c st = (st', Val c)
  | (_, Fail _) => ∃ st' c' e more, sweepAll rs todo c st = (st', Val c') ∧ errs c' = errs c ++ e :: more ∧ collector_ok c'
  end.
Proof.
  revert c st. induction todo as [|[p v] todo IH]; intros c st Hc; [done|].
  cbn [sweepAll eForEach]. rewrite !bind_eq. pose proof (evaluateOnePostRender_tracks rs p v c st Hc) as H1.
  destruct (checkOne rs (p, v) st) as [st1 [u|e1]].
  - rewrite H1. by apply IH.
  - destruct H1 as (st2 & c2 & stop & e & more & -> & He & Hok & Hgo). destruct stop; [by eexists _, _, _, _|].
    specialize (IH c2 st2 (Hgo eq_refl)). destruct (eForEach (checkOne rs) todo st2) as [st3 [u|e3]].
    + rewrite IH. by eexists _, _, _, _.
    + destruct IH as (st4 & c4 & e4 & more4 & -> & He4 & Hok4). exists st4, c4, e, (more ++ e4 :: more4).
      by rewrite He4, He, <- app_assoc.
Qed.

Lemma collecting_start : collecting (mkCollected [] false).
Proof. split_and!; [cbn; unfold maxPostRenderErrors; lia|done|constructor]. Qed.

(** C31: The post-render sweep is total and agrees with the plain reference: it
    passes, in the same final state, exactly when the reference that evaluates
    every selected rule on every matched resource and stops at the first failure
    passes.  Otherwise the error joins at least one and at most twenty collected
    failures, no failure follows one that aborted the render, and a note is
    appended exactly when twenty were reached. *)
Theorem evaluatePostRenderValidations_spec (rs : list RenderedResource) (pending : list pendingPostRender) (st : St) :
  match checkAll rs pending st with
  | (st', Val _) => evaluatePostRenderValidations rs pending st = (st', Val ())
  | (_, Fail _) => ∃ st' front e note,
      evaluatePostRenderValidations rs pending st
        = (st', Fail (mkErr (Join (Error <$> front ++ e :: note) newline) ((front ++ e :: note) ≫= chain)))
      ∧ length (front ++ [e]) ≤ maxPostRenderErrors
      ∧ Forall (λ e, IsRenderAborted e = false) front
      ∧ (note = [] ↔ length (front ++ [e]) < maxPostRenderErrors)
  end.
Proof.
  unfold checkAll, evaluatePostRenderValidations. rewrite bind_eq.
  pose proof (sweepAll_tracks rs (pending ≫= λ p, (λ v, (p, v)) <$> validations p) _ st collecting_start) as H.
  destruct (eForEach (checkOne rs) _ st) as [st1 [u|e1]]; [by rewrite H|].
  destruct H as (st2 & c2 & e & more & -> & He & Hl & Hc & Ha). cbn [errs app] in He.
  assert (exists front e', errs c2 = front ++ [e']) as (front & e' & Hf).
  { destruct (errs c2) as [|x l _] using rev_ind; [done|by eexists _, _]. }
  unfold collectedErr. rewrite Hf, Hc in *. rewrite <- app_assoc. cbn [app].
  eexists st2, front, e', _. split; [|split; [done|split; [by eapply Ha|]]].
  - unfold errors_Join. destruct front; reflexivity.
  - destruct (Nat.leb_spec maxPostRenderErrors (length (front ++ [e']))); split; intros; try done; lia.
Qed.
End PostRenderSpec.
