(* ===== verification/ComponentPipeline.v ===== *)
(** * The component pipeline

    [Render] of [internal/pipeline/component/pipeline.go]: validation of the
    input, pre-render rules, base resources, embedded and component-level
    traits, post-render rules, post-processing, final validation and order; with
    the resolution of trait bindings ([context/embedded_trait.go],
    [context/trait.go]).  The struct validator and the builders of the CEL
    contexts (schema defaulting, the extraction of workload, data plane and
    environment data) are the class [Contexts], for the input at hand.

    The processor's counter and the slice of resources live in [TS]; while a
    trait is processed its context map is the one of the state, and the pending
    validations of the trait take that map afterwards, as the code shares it. *)

From S2P Require Import Prelude GoStrings GoValue PatchPath PatchOps RenderErrors TemplateCache TemplateScan TemplateEngine TemplateSpec TemplateCacheSpec Renderer TraitProcessor TraitSpec TraitFrame PostProcess PostProcessSpec.

#[local] Set Warnings "-register-all".

(** ** Data *)

(** [v1alpha1.Trait] or ClusterTrait. *)
Record Trait := mkTrait {
  traitKind : string;
  traitBody : TraitBody;
  Validations : list ValidationRule;
  PreRenderValidations : list ValidationRule;
  PostRenderValidations : list PostRenderValidation
}.

(** A reference to a trait, from the ComponentType or from the component; the
    raw bindings may be absent. *)
Record TraitUse := mkTraitUse {
  useKind : string;
  useName : string;
  InstanceName : string;
  useParameters : option string;
  useEnvironmentConfigs : option string
}.

Record RenderInput := mkRenderInput {
  ctName : string;
  WorkloadType : string;
  ctValidations : list ValidationRule;
  ctPreRenderValidations : list ValidationRule;
  ctPostRenderValidations : list PostRenderValidation;
  ctResources : option (list ResourceTemplate);
  ctTraits : list TraitUse;
  componentTraits : list TraitUse;
  inputTraits : list Trait;
  traitEnvironmentConfigs : option (gmap string (option string));
  MetadataLabels : gmap string string
}.

Record RenderMetadata := mkRenderMetadata {
  ResourceCount : Z;
  BaseResourceCount : Z;
  TraitCount : Z;
  TraitResourceCount : Z
}.

Record RenderOutput := mkRenderOutput { outResources : list RenderedResource; Metadata : RenderMetadata }.

(** [EffectivePreRenderValidations] of both specs. *)
Definition EffectivePreRenderValidations (pre old : list ValidationRule) : list ValidationRule :=
  match pre with [] => old | _ => pre end.

Definition traitRefKindTrait : string := "Trait".
Definition kindOr (kind : string) : string := if bool_decide (kind = "") then traitRefKindTrait else kind.
Definition traitKey (kind name : string) : string := kindOr kind +:+ ":" +:+ name.

(** The later of two traits with one key wins. *)
Definition traitMap (traits : list Trait) : gmap string Trait :=
  foldl (λ m t, <[traitKey (traitKind t) (traitName (traitBody t)) := t]> m) ∅ traits.

(** ** Target planes *)

Definition planeOr (plane : string) : string := if bool_decide (plane = "") then TargetPlaneDataPlane else plane.

Definition defaultTemplatePlane (t : ResourceTemplate) : ResourceTemplate :=
  mkResourceTemplate (ID t) (planeOr (rtTargetPlane t)) (rtIncludeWhen t) (rtForEach t) (rtVar t) (rtTemplate t).

(** Creates and patches; removes are not touched. *)
Definition defaultTraitPlanes (t : Trait) : Trait :=
  let b := traitBody t in
  mkTrait (traitKind t)
    (mkTraitBody (traitName b)
       ((λ c, mkTraitCreate (planeOr (tcTargetPlane c)) (tcIncludeWhen c) (tcForEach c) (tcVar c) (tcTemplate c)) <$> Creates b)
       ((λ p, mkTraitPatch (tpForEach p) (tpVar p) (tpTarget p) (planeOr (tpTargetPlane p)) (Operations p)) <$> Patches b)
       (Removes b))
    (Validations t) (PreRenderValidations t) (PostRenderValidations t).

Definition ApplyTargetPlaneDefaults (input : RenderInput) : RenderInput :=
  mkRenderInput (ctName input) (WorkloadType input) (ctValidations input) (ctPreRenderValidations input)
    (ctPostRenderValidations input) ((λ l : list ResourceTemplate, defaultTemplatePlane <$> l) <$> ctResources input) (ctTraits input)
    (componentTraits input) (defaultTraitPlanes <$> inputTraits input) (traitEnvironmentConfigs input)
    (MetadataLabels input).

(** ** Contexts *)

(** What is built from the rest of the input: the struct validator's verdict,
    the component context, and the context of a trait instance from its resolved
    parameters and environment configs. *)
Class Contexts := {
  structError : option goerr;
  componentContext : eres (gmap string any);
  traitContext : Trait → string → gmap string any → gmap string any → eres (gmap string any)
}.

Section Pipeline.
Context {C : CEL} {J : JSON} {X : RenderContext} {G : EngineConfig} {H : ResourceHash} {K : Contexts}.

Definition json_kind (v : any) : string :=
  match v with
  | VBool _ => "bool"
  | VString _ => "string"
  | VScalar _ _ => "number"
  | VSlice _ | VMapSlice _ => "array"
  | VMap _ => "object"
  | VNil => "null"
  end.

(** [json.Unmarshal] into a [map[string]any]; null gives the nil map. *)
Definition unmarshalMap {S} (raw : string) : EM S (gmap string any) :=
  v ← unmarshal raw;
  match v with
  | VMap m => mret m
  | VNil => mret ∅
  | _ => throw (errorf ("json: cannot unmarshal " +:+ json_kind v +:+ " into Go value of type map[string]interface {}"))
  end.

Definition resolveBindings (raw : option string) (contextMap : gmap string any) : EM St (gmap string any) :=
  match raw with
  | None => mret ∅
  | Some raw =>
      data ← mapErr (λ e, wrapf "failed to unmarshal bindings: " e "") (unmarshalMap raw);
      resolved ← mapErr (λ e, wrapf "failed to evaluate CEL bindings: " e "") (Render (VMap data) contextMap);
      match resolved with
      | VMap resolvedMap => mret resolvedMap
      | _ => throw (errorf ("resolved bindings is not a map, got type " +:+ type_name resolved))
      end
  end.

Definition ResolveEmbeddedTraitBindings (u : TraitUse) (contextMap : gmap string any)
    : EM St (gmap string any * gmap string any) :=
  let what part := "failed to resolve embedded trait " +:+ useName u +:+ "/" +:+ InstanceName u +:+ " " +:+ part +:+ ": " in
  params ← mapErr (λ e, wrapf (what "parameters") e "") (resolveBindings (useParameters u) contextMap);
  envConfigs ← mapErr (λ e, wrapf (what "environmentConfigs") e "") (resolveBindings (useEnvironmentConfigs u) contextMap);
  mret (params, envConfigs).

Definition extractParameters (raw : option string) : EM St (gmap string any) :=
  match raw with
  | None => mret ∅
  | Some raw => mapErr (λ e, wrapf "failed to unmarshal parameters: " e "") (unmarshalMap raw)
  end.

Definition extractTraitEnvConfigs (rb : option (gmap string (option string))) (instanceName : string) : EM St (gmap string any) :=
  match rb ≫= λ m, m !! instanceName with
  | None => mret ∅
  | Some instanceOverride =>
      mapErr (λ e, wrapf "failed to extract trait environment configs: " e "") (extractParameters instanceOverride)
  end.

Definition ExtractTraitInstanceBindings (u : TraitUse) (rb : option (gmap string (option string)))
    : EM St (gmap string any * gmap string any) :=
  params ← mapErr (λ e, wrapf "failed to extract trait instance parameters: " e "") (extractParameters (useParameters u));
  envConfigs ← extractTraitEnvConfigs rb (InstanceName u);
  mret (params, envConfigs).

(** ** Steps *)

Definition validateInput (input : RenderInput) : eres unit :=
  match structError with
  | Some err => Fail (wrapf "validation failed: " err "")
  | None => match ctResources input with None => Fail (errorf "component type has no resources") | Some _ => Val () end
  end.

Definition componentTypePendingPostRenders (input : RenderInput) (contextMap : gmap string any) : list pendingPostRender :=
  match ctPostRenderValidations input with
  | [] => []
  | vs => [mkPending ("ComponentType " +:+ ctName input) contextMap vs]
  end.

(** The counts of the metadata and the pending validations, along the traits. *)
Record progress := mkProgress { traitsDone : Z; traitResources : Z; pendings : list pendingPostRender }.

(** One trait: bindings, context, rules, creates, patches and removes. *)
Definition processTrait (embedded : bool) (bindings : TraitUse → EM St (gmap string any * gmap string any))
    (traits : gmap string Trait) (pr : progress) (u : TraitUse) : EM TS progress :=
  let which := if embedded then "embedded trait" else "trait" in
  let inst := useName u +:+ "/" +:+ InstanceName u in
  match traits !! traitKey (useKind u) (useName u) with
  | None => throw (errorf (which +:+ " " +:+ useName u +:+ " referenced but not found in traits list"))
  | Some t =>
      resolved ← mapErr (λ e, wrapf ((if embedded then "failed to resolve embedded trait bindings for "
                                      else "failed to extract trait bindings for ") +:+ inst +:+ ": ") e "")
                   (lift (bindings u));
      c ← mapErr (λ e, wrapf ("failed to build " +:+ which +:+ " context for " +:+ inst +:+ ": ") e "")
            (ofEres (traitContext t (InstanceName u) resolved.1 resolved.2));
      mapErr (λ e, wrapf ("trait " +:+ inst +:+ " validation failed: ") e "")
        (lift (EvaluateValidationRules (EffectivePreRenderValidations (PreRenderValidations t) (Validations t)) c)) ≫= λ _,
      setContext c ≫= λ _,
      before ← gets (λ ts, length (resources ts));
      mapErr (λ e, wrapf ("failed to process " +:+ which +:+ " " +:+ inst +:+ ": ") e "") (ProcessTraits (traitBody t)) ≫= λ _,
      after ← gets (λ ts, length (resources ts));
      contextMap ← gets celContext;
      mret (mkProgress (traitsDone pr + 1) (traitResources pr + (Z.of_nat after - Z.of_nat before))
        (pendings pr ++
          match PostRenderValidations t with
          | [] => []
          | vs => [mkPending (kindOr (useKind u) +:+ " " +:+ inst) contextMap vs]
          end))
  end.

Fixpoint processAll (embedded : bool) (bindings : TraitUse → EM St (gmap string any * gmap string any))
    (traits : gmap string Trait) (uses : list TraitUse) (pr : progress) : EM TS progress :=
  match uses with
  | [] => mret pr
  | u :: uses => processTrait embedded bindings traits pr u ≫= processAll embedded bindings traits uses
  end.

(** From the rendered base resources to the end of the traits. *)
Definition processEveryTrait (input : RenderInput) (contextMap : gmap string any) (pr : progress) : EM TS progress :=
  let traits := traitMap (inputTraits input) in
  pr ← processAll true (λ u, ResolveEmbeddedTraitBindings u contextMap) traits (ctTraits input) pr;
  processAll false (λ u, ExtractTraitInstanceBindings u (traitEnvironmentConfigs input)) traits (componentTraits input) pr.

(** Run the traits on a fresh processor. *)
Definition withProcessor {A} (rs : list RenderedResource) (m : EM TS A) : EM St (list RenderedResource * A) := λ st,
  let '(ts, r) := m (mkTS st 0 ∅ rs) in
  (base ts, match r with Val a => Val (resources ts, a) | Fail err => Fail err end).

(** [Pipeline.Render], in the context of one call (timeout and budgets). *)
Definition RenderComponent (input : RenderInput) : EM St RenderOutput :=
  st ← getS;
  putS (WithForEachBudget st) ≫= λ _,
  mapErr (λ e, wrapf "invalid input: " e "") (ofEres (validateInput input)) ≫= λ _,
  contextMap ← mapErr (λ e, wrapf "failed to build component context: " e "") (ofEres componentContext);
  mapErr (λ e, wrapf "component type validation failed: " e "")
    (EvaluateValidationRules
       (EffectivePreRenderValidations (ctPreRenderValidations input) (ctValidations input)) contextMap) ≫= λ _,
  let pending := componentTypePendingPostRenders input contextMap in
  let input := ApplyTargetPlaneDefaults input in
  rendered ← mapErr (λ e, wrapf "failed to render base resources: " e "")
               (RenderResources (default [] (ctResources input)) contextMap);
  processed ← withProcessor rendered (processEveryTrait input contextMap (mkProgress 0 0 pending));
  let '(rs, pr) := processed in
  mapErr (λ e, wrapf "post-render validation failed: " e "") (evaluatePostRenderValidations rs (pendings pr)) ≫= λ _,
  rs ← mapErr (λ e, wrapf "failed to post-process resources: " e "")
         (ofEres (postProcessResources (WorkloadType input) (MetadataLabels input) rs));
  mapErr (λ e, wrapf "validation failed: " e "") (ofEres (validateResources rs)) ≫= λ _,
  let rs := sortRenderedResources rs in
  mret (mkRenderOutput rs
    (mkRenderMetadata (Z.of_nat (length rs)) (Z.of_nat (length rendered)) (traitsDone pr) (traitResources pr))).
End Pipeline.

(** * The component pipeline, end to end

    What a successful render returns, and what every render, successful or not,
    has spent. *)

#[local] Set Warnings "-register-all".

Section PipelineSpec.
Context {C : CEL} {J : JSON} {X : RenderContext} {G : EngineConfig} {H : ResourceHash} {K : Contexts}.

(** ** Limits *)

Section Invariant.
Context (I : St → Prop).
Context (HR : ∀ data inputs, preserves I (Render data inputs)).
Context (HF : ∀ n, preserves I (checkForEachLimit (Z.of_nat n))).
Context (HC : ∀ st, I st → I (mkSt (engine st) (ctxBudget st) (forEachSpent st) (1 + now st))).

#[local] Hint Resolve HR HF ofEres_inv unmarshal_inv ToIterableItems_inv ShouldInclude_inv EvalForEach_inv
  RenderResources_inv EvaluateValidationRules_inv : render.

(** *** Traits *)

Definition on_base (ts : TS) : Prop := I (base ts).

Lemma preserves_lift {A} (m : EM St A) : preserves I m → preserves on_base (lift m).
Proof. intros Hm ts Hts. unfold lift. specialize (Hm (base ts) Hts). by destruct (m (base ts)) as [st r]. Qed.

Lemma preserves_base_keeps {A} (m : EM TS A) : keeps base m → preserves on_base m.
Proof. intros Hm ts Hts. unfold on_base. by rewrite Hm. Qed.

Lemma renderHere_inv data : preserves on_base (renderHere data).
Proof.
  unfold renderHere. apply preserves_bind; [by apply preserves_base_keeps, keeps_gets|].
  intros c. by apply preserves_lift.
Qed.

Lemma setContext_inv c : preserves on_base (setContext c).
Proof. by intros ts Hts. Qed.
Lemma setResources_inv rs : preserves on_base (setResources rs).
Proof. by intros ts Hts. Qed.
Lemma gets_inv {A} (f : TS → A) : preserves on_base (gets f).
Proof. by intros ts Hts. Qed.
Lemma ofEres_base_inv {A} (r : eres A) : preserves on_base (ofEres r).
Proof. by intros ts Hts. Qed.
Lemma ctxErrHere_inv : preserves on_base ctxErrHere.
Proof. intros ts Hts. by apply HC. Qed.
Lemma charge_inv a b : preserves on_base (chargePatchOperations a b).
Proof. apply preserves_base_keeps. intros ts. unfold chargePatchOperations. by repeat case_goal. Qed.
Lemma patchResource_inv i ops : preserves on_base (patchResource i ops).
Proof.
  apply preserves_base_keeps. intros ts. unfold patchResource. case_goal; [|done]. by destruct (ApplyPatches _ _).
Qed.
Lemma unmarshal_base_inv raw : preserves on_base (unmarshal raw).
Proof. unfold unmarshal. render_solve. Qed.

#[local] Hint Resolve preserves_lift renderHere_inv setContext_inv setResources_inv gets_inv ofEres_base_inv
  ctxErrHere_inv charge_inv patchResource_inv unmarshal_base_inv : render.

Lemma withItem_inv {A} v item (m : EM TS A) : preserves on_base m → preserves on_base (withItem v item m).
Proof. intros Hm. unfold withItem. render_solve. Qed.

Lemma traitItems_inv f ref : preserves on_base (traitItems f ref).
Proof. unfold traitItems. render_solve. Qed.

#[local] Hint Resolve withItem_inv traitItems_inv : render.

Lemma renderSingleCreate_inv create c path : preserves I (renderSingleCreate create c path).
Proof. unfold renderSingleCreate. render_solve. Qed.

#[local] Hint Resolve renderSingleCreate_inv : render.

Lemma ApplyTraitCreates_inv trait : preserves on_base (ApplyTraitCreates trait).
Proof. unfold ApplyTraitCreates, applyCreate, appendResource. render_solve. Qed.

Lemma filterTargets_inv targets w ref : preserves on_base (filterTargets targets w ref).
Proof.
  unfold filterTargets. apply preserves_bind; [auto with render|]. intros previous.
  apply preserves_bind; [|unfold restoreResource; render_solve].
  induction targets as [|rr targets IH]; cbn [filterLoop]; unfold bindResource, restoreResource; render_solve.
Qed.

Lemma renderOperations_inv ops ref : preserves on_base (renderOperations ops ref).
Proof.
  unfold renderOperations. apply preserves_eMap. intros [i op]. unfold renderOperation, renderValue. render_solve.
Qed.

Lemma applyTargets_inv targets ops ref : preserves on_base (applyTargets targets ops ref).
Proof. induction targets as [|rr targets IH]; cbn [applyTargets]; render_solve. Qed.

#[local] Hint Resolve filterTargets_inv renderOperations_inv applyTargets_inv : render.

Lemma applyPatchOnce_inv name i p : preserves on_base (applyPatchOnce name i p).
Proof. unfold applyPatchOnce. render_solve. Qed.

#[local] Hint Resolve applyPatchOnce_inv : render.

Lemma ApplyTraitPatches_inv trait : preserves on_base (ApplyTraitPatches trait).
Proof. unfold ApplyTraitPatches, applyPatch, applyPatchWithForEach. render_solve. Qed.

Lemma removalsLoop_inv spec ref rs s : preserves on_base (removalsLoop spec ref rs s).
Proof.
  revert s. induction rs as [|rr rs IH]; intros s; cbn [removalsLoop]; [auto with render|].
  unfold bindResource. render_solve.
Qed.

#[local] Hint Resolve removalsLoop_inv : render.

Lemma collectRemovalsOnce_inv name i remove s : preserves on_base (collectRemovalsOnce name i remove s).
Proof. unfold collectRemovalsOnce, restoreResource. render_solve. Qed.

#[local] Hint Resolve collectRemovalsOnce_inv : render.

Lemma removalsFrom_inv i body items s :
  (∀ i x s, preserves on_base (body i x s)) → preserves on_base (removalsFrom i body items s).
Proof.
  intros Hb. revert i s. induction items as [|x items IH]; intros i s; [apply preserves_ret|].
  cbn [removalsFrom]. by apply preserves_bind.
Qed.

Lemma ApplyTraitRemoves_inv trait : preserves on_base (ApplyTraitRemoves trait).
Proof.
  unfold ApplyTraitRemoves. destruct (bool_decide _); [auto with render|]. apply preserves_bind; [|render_solve].
  generalize 0, (∅ : gset nat). induction (Removes trait) as [|r removes IH]; intros i s; cbn [removalsOfEntries];
    [auto with render|].
  apply preserves_bind; [|intros s'; apply IH]. apply preserves_mapErr. unfold collectRemovalsForEntry. case_goal; [auto with render|].
  apply preserves_bind; [auto with render|]. intros items. apply removalsFrom_inv. intros j x s'. render_solve.
Qed.

Lemma ProcessTraits_inv trait : preserves on_base (ProcessTraits trait).
Proof.
  unfold ProcessTraits. apply preserves_bind; [apply ApplyTraitCreates_inv|]. intros _.
  apply preserves_bind; [apply ApplyTraitPatches_inv|]. intros _. apply ApplyTraitRemoves_inv.
Qed.

#[local] Hint Resolve ProcessTraits_inv : render.

(** *** Post-render validation *)

Lemma filterByWhere_inv rs w c : preserves I (filterByWhere rs w c).
Proof. induction rs as [|rr rs IH]; cbn [filterByWhere]; render_solve. Qed.

Lemma evaluateRule_inv v lbl suffix ctx matched c : preserves I (evaluateRule v lbl suffix ctx matched c).
Proof.
  revert c. induction matched as [|rr matched IH]; intros c; cbn [evaluateRule]; [auto with render|].
  apply preserves_bind; [auto with render|]. intros r.
  assert (Hn : ∀ err, preserves I (let '(c, stop) := collect c err in
    if stop then mret (c, true) else evaluateRule v lbl suffix ctx matched c)).
  { intros err. destruct (collect c err) as [c' []]; [auto with render|apply IH]. }
  destruct r as [a|err]; [|apply Hn]. destruct a as [|[]| | | | |]; (apply IH || apply Hn).
Qed.

#[local] Hint Resolve filterByWhere_inv evaluateRule_inv : render.

Lemma evaluatePostRenderSelection_inv rs lbl desc ctx v c :
  preserves I (evaluatePostRenderSelection rs lbl desc ctx v c).
Proof. unfold evaluatePostRenderSelection, report. render_solve. Qed.

#[local] Hint Resolve evaluatePostRenderSelection_inv : render.

Lemma evaluateIterations_inv rs p v varName items c : preserves I (evaluateIterations rs p v varName items c).
Proof.
  revert c. induction items as [|item items IH]; intros c; cbn [evaluateIterations]; [auto with render|].
  apply preserves_bind; [auto with render|]. intros [c' []]; auto with render.
Qed.

#[local] Hint Resolve evaluateIterations_inv : render.

Lemma evaluatePostRenderValidations_inv rs pending : preserves I (evaluatePostRenderValidations rs pending).
Proof.
  unfold evaluatePostRenderValidations. apply preserves_bind; [|intros c; render_solve].
  generalize (mkCollected [] false). induction (pending ≫= _) as [|[p v] todo IH]; intros c; cbn [sweepAll];
    [auto with render|].
  apply preserves_bind; [|intros [c' []]; auto with render]. unfold evaluateOnePostRender, report. render_solve.
Qed.

(** *** The pipeline *)

Lemma resolveBindings_inv raw c : preserves I (resolveBindings raw c).
Proof. unfold resolveBindings, unmarshalMap. render_solve. Qed.

Lemma extractParameters_inv raw : preserves I (extractParameters raw).
Proof. unfold extractParameters, unmarshalMap. render_solve. Qed.

#[local] Hint Resolve resolveBindings_inv extractParameters_inv evaluatePostRenderValidations_inv : render.

Lemma processTrait_inv embedded bindings traits pr u :
  (∀ u, preserves I (bindings u)) → preserves on_base (processTrait embedded bindings traits pr u).
Proof. intros Hb. unfold processTrait. render_solve. Qed.

Lemma processAll_inv embedded bindings traits uses pr :
  (∀ u, preserves I (bindings u)) → preserves on_base (processAll embedded bindings traits uses pr).
Proof.
  intros Hb. revert pr. induction uses as [|u uses IH]; intros pr; cbn [processAll]; [auto with render|].
  apply preserves_bind; [by apply processTrait_inv|done].
Qed.

Lemma processEveryTrait_inv input c pr : preserves on_base (processEveryTrait input c pr).
Proof.
  unfold processEveryTrait. apply preserves_bind; [|intros pr'].
  - apply processAll_inv. intros u. unfold ResolveEmbeddedTraitBindings. render_solve.
  - apply processAll_inv. intros u. unfold ExtractTraitInstanceBindings, extractTraitEnvConfigs. render_solve.
Qed.

Lemma withProcessor_inv {A} rs (m : EM TS A) : preserves on_base m → preserves I (withProcessor rs m).
Proof.
  intros Hm st Hst. unfold withProcessor. specialize (Hm (mkTS st 0 ∅ rs) Hst). by destruct (m _) as [ts [a|e]].
Qed.

#[local] Hint Resolve processEveryTrait_inv withProcessor_inv : render.

(** Every computation of the pipeline keeps an invariant of the shared state
    that the engine and the loop counter keep, once the counter is in place. *)
Lemma RenderComponent_inv input st : I (WithForEachBudget st) → I (RenderComponent input st).1.
Proof.
  intros Hst. unfold RenderComponent. rewrite bind_eq. cbn [getS]. rewrite bind_eq. cbn [putS].
  match goal with |- I (?m _).1 => enough (preserves I m) as Hp by exact (Hp _ Hst) end.
  render_solve.
Qed.
End Invariant.

(** *** Patch operations *)

Lemma setContext_patch_ok c : preserves patch_ok (setContext c).
Proof. by intros ts Hts. Qed.

Lemma processAll_patch_ok embedded bindings traits uses pr : preserves patch_ok (processAll embedded bindings traits uses pr).
Proof.
  pose proof ProcessTraits_patch_ok as Hp. pose proof setContext_patch_ok as Hs.
  assert (Hl : ∀ A (m : EM St A), preserves patch_ok (lift m)) by (intros A m; apply keeps_preserves, lift_count).
  assert (Hg : ∀ A (f : TS → A), preserves patch_ok (gets f)) by by intros A f ts Hts.
  assert (He : ∀ A (r : eres A), preserves patch_ok (ofEres r)) by by intros A r ts Hts.
  revert pr. induction uses as [|u uses IH]; intros pr; cbn [processAll]; [auto with render|].
  apply preserves_bind; [|done]. unfold processTrait. render_solve.
Qed.

Definition limits_kept (m B s0 : Z) (st : St) : Prop :=
  budget_within m B s0 st ∧ ∃ x, forEachSpent st = Some x ∧ (0 ≤ x ≤ maxForEachItemsPerRender + 1)%Z.

Lemma limits_Render m B s0 data inputs :
  uint64 m → costs_bounded m → preserves (limits_kept m B s0) (Render data inputs).
Proof.
  intros Hm Hc st [Hb Hf]. split; [by apply Render_within|].
  exact (Render_forEach (λ o, ∃ x, o = Some x ∧ (0 ≤ x ≤ maxForEachItemsPerRender + 1)%Z) data inputs st Hf).
Qed.

Lemma limits_checkForEach m B s0 n : preserves (limits_kept m B s0) (checkForEachLimit (Z.of_nat n)).
Proof.
  intros st [(b & Hb & Hw) (x & Hx & Hr)]. unfold checkForEachLimit. rewrite Hx.
  repeat case_goal; (split; [by exists b|]); cbn [fst forEachSpent withForEachSpent]; eexists; (split; [done|]);
    unfold maxForEachItemsPerRender, maxForEachItems in *; lia.
Qed.


(** ** Results *)

Lemma mapErr_Val {S A} f (m : EM S A) s s' a : mapErr f m s = (s', Val a) ↔ m s = (s', Val a).
Proof. unfold mapErr. destruct (m s) as [s1 [b|e]]; naive_solver. Qed.

Lemma Forall_sublist {A} (P : A → Prop) l1 l2 : l1 `sublist_of` l2 → Forall P l2 → Forall P l1.
Proof. induction 1; inversion 1; subst; try constructor; auto. Qed.

(** Every resource goes to a named plane. *)
Definition planes_named (ts : TS) : Prop := Forall (λ p, p ≠ "") (planes ts).

Lemma ProcessTraits_planes trait :
  Forall (λ c, tcTargetPlane c ≠ "") (Creates trait) → preserves planes_named (ProcessTraits trait).
Proof.
  intros Hc. unfold ProcessTraits. apply preserves_bind; [|intros _; apply preserves_bind; [|intros _]]; intros ts Hts.
  - unfold planes_named, planes. destruct (ApplyTraitCreates_appends trait ts) as (new & -> & Hn).
    rewrite fmap_app. apply Forall_app. split; [done|]. apply Forall_fmap. eapply Forall_impl; [exact Hn|].
    intros rr (_ & (c & Hp & Hi)%list_elem_of_fmap). cbn. rewrite Hp. rewrite Forall_forall in Hc. by apply Hc.
  - unfold planes_named. by rewrite ApplyTraitPatches_planes.
  - unfold planes_named, planes. pose proof (ApplyTraitRemoves_marks trait ts) as Hr.
    destruct (ApplyTraitRemoves trait ts) as [ts' [u|e]]; cbn [fst snd] in *; [|by rewrite Hr].
    destruct Hr as (s & _ & _ & Hs). eapply Forall_sublist; [|exact Hts]. by apply fmap_sublist.
Qed.

Lemma lift_run {A} (m : EM St A) ts ts' r : lift m ts = (ts', r) → resources ts' = resources ts.
Proof. intros Hl. pose proof (lift_resources m ts) as Hr. by rewrite Hl in Hr. Qed.

Definition traits_named (traits : gmap string Trait) : Prop :=
  map_Forall (λ _ t, Forall (λ c, tcTargetPlane c ≠ "") (Creates (traitBody t))) traits.

Lemma processTrait_Val embedded bindings traits pr u ts ts' pr' :
  traits_named traits →
  processTrait embedded bindings traits pr u ts = (ts', Val pr') →
  (traitsDone pr' = traitsDone pr + 1)%Z
  ∧ (traitResources pr' - traitResources pr = Z.of_nat (length (resources ts')) - Z.of_nat (length (resources ts)))%Z
  ∧ (planes_named ts → planes_named ts').
Proof.
  intros Hn. unfold processTrait. destruct (traits !! _) as [t|] eqn:Et; [|done]. specialize (Hn _ t Et).
  intros (ts1 & res & H1%mapErr_Val & Hrun)%bind_Val.
  apply lift_run in H1 as R1.
  apply bind_Val in Hrun as (ts2 & c & H2%mapErr_Val & Hrun). injection H2 as <- _.
  apply bind_Val in Hrun as (ts3 & [] & H3%mapErr_Val & Hrun).
  apply lift_run in H3 as R3.
  apply bind_Val in Hrun as (ts4 & [] & H4 & Hrun). injection H4 as <-.
  apply bind_Val in Hrun as (ts5 & before & H5 & Hrun). injection H5 as <- <-.
  apply bind_Val in Hrun as (ts6 & [] & H6%mapErr_Val & Hrun).
  pose proof (ProcessTraits_planes (traitBody t) Hn (mkTS (base ts3) (patchOperations ts3) c (resources ts3))) as HP.
  rewrite H6 in HP. cbn [fst resources] in HP. unfold planes_named, planes in HP |- *. cbn [resources] in HP.
  apply bind_Val in Hrun as (ts7 & after & H7 & Hrun). injection H7 as <- <-.
  apply bind_Val in Hrun as (ts8 & cm & H8 & Hrun). injection H8 as <- <-. injection Hrun as <- <-.
  cbn [traitsDone traitResources resources]. rewrite R3, R1 in *. split_and!; [done|lia|done].
Qed.

Lemma processAll_Val embedded bindings traits uses pr ts ts' pr' :
  traits_named traits →
  processAll embedded bindings traits uses pr ts = (ts', Val pr') →
  (traitsDone pr' = traitsDone pr + Z.of_nat (length uses))%Z
  ∧ (traitResources pr' - traitResources pr = Z.of_nat (length (resources ts')) - Z.of_nat (length (resources ts)))%Z
  ∧ (planes_named ts → planes_named ts').
Proof.
  intros Hn. revert pr ts. induction uses as [|u uses IH]; intros pr ts; cbn [processAll].
  { intros [= <- <-]. cbn. split_and!; [lia|lia|done]. }
  intros (ts1 & pr1 & (H1 & H2 & H3)%(processTrait_Val _ _ _ _ _ _ _ _ Hn) & (H4 & H5 & H6)%IH)%bind_Val.
  cbn [length]. split_and!; [lia|lia|auto].
Qed.

Lemma planeOr_named p : planeOr p ≠ "".
Proof. unfold planeOr. by case_bool_decide. Qed.

Lemma traitMap_named input : traits_named (traitMap (inputTraits (ApplyTargetPlaneDefaults input))).
Proof.
  cbn [inputTraits ApplyTargetPlaneDefaults]. unfold traitMap.
  assert (Hg : ∀ l (m : gmap string Trait), traits_named m →
    traits_named (foldl (λ m t, <[traitKey (traitKind t) (traitName (traitBody t)) := t]> m) m (defaultTraitPlanes <$> l))).
  { induction l as [|t l IH]; intros m Hm; [done|]. rewrite fmap_cons. cbn [foldl]. apply IH, map_Forall_insert_2; [|done].
    cbn. apply Forall_fmap, Forall_true. intros c. apply planeOr_named. }
  by apply Hg, map_Forall_empty.
Qed.

Lemma templates_named input rs :
  Forall (λ rr, good_resource (Resource rr)
    ∧ TargetPlane rr ∈ rtTargetPlane <$> default [] (ctResources (ApplyTargetPlaneDefaults input))) rs →
  Forall (λ p, p ≠ "") (TargetPlane <$> rs).
Proof.
  intros Hf. apply Forall_fmap. eapply Forall_impl; [exact Hf|]. intros rr (_ & (t & Hp & Ht)%list_elem_of_fmap).
  cbn [compose]. rewrite Hp. cbn [ctResources ApplyTargetPlaneDefaults] in Ht. destruct (ctResources input) as [l|]; cbn in Ht; [|by apply elem_of_nil in Ht].
  apply list_elem_of_fmap in Ht as (t' & -> & _). apply planeOr_named.
Qed.

Lemma withProcessor_Val {A} rs (m : EM TS A) st st' rs' a :
  withProcessor rs m st = (st', Val (rs', a)) → ∃ ts', m (mkTS st 0 ∅ rs) = (ts', Val a) ∧ resources ts' = rs'.
Proof.
  unfold withProcessor. destruct (m _) as [ts' [b|e]]; [|done]. intros [= <- <- <-]. by exists ts'.
Qed.

Lemma processEveryTrait_Val input c pr ts ts' pr' :
  processEveryTrait (ApplyTargetPlaneDefaults input) c pr ts = (ts', Val pr') →
  (traitsDone pr' = traitsDone pr + Z.of_nat (length (ctTraits input)) + Z.of_nat (length (componentTraits input)))%Z
  ∧ (traitResources pr' - traitResources pr = Z.of_nat (length (resources ts')) - Z.of_nat (length (resources ts)))%Z
  ∧ (planes_named ts → planes_named ts').
Proof.
  pose proof (traitMap_named input) as Hn. unfold processEveryTrait.
  intros (ts1 & pr1 & (H1 & H2 & H3)%(processAll_Val _ _ _ _ _ _ _ _ Hn) & (H4 & H5 & H6)%(processAll_Val _ _ _ _ _ _ _ _ Hn))%bind_Val.
  cbn [ctTraits componentTraits ApplyTargetPlaneDefaults] in *. split_and!; [lia|lia|auto].
Qed.

(** The last steps: labels, hash, validation and order. *)
Lemma finish_output wt labels rs rs1 :
  postProcessResources wt labels rs = Val rs1 → validateResources rs1 = Val () →
  Forall (λ p, p ≠ "") (TargetPlane <$> rs) →
  Forall (λ rr, well_formed (Resource rr) ∧ labelled labels (Resource rr) ∧ TargetPlane rr ≠ "") (sortRenderedResources rs1)
  ∧ length (sortRenderedResources rs1) = length rs.
Proof.
  intros HF%postProcessResources_spec Hv%validateResources_spec Hp.
  destruct (sortRenderedResources_sorted rs1) as (Hperm & _ & _). rewrite Hperm.
  split; [|symmetry; by eapply Forall2_length].
  clear Hperm. apply Forall_fmap in Hp. revert Hv Hp. induction HF as [|x y rs rs1 (E & _ & Hl) _ IH]; [by constructor|].
  intros [Hw Hv]%Forall_cons [Hx Hp]%Forall_cons. constructor; [|by apply IH].
  cbn in *. split_and!; [done..|by rewrite E].
Qed.

(** C3: What a successful render of a component returns: every resource has a
    non-empty kind, apiVersion and metadata.name, carries every platform label
    and goes to a named plane, although patches are free to change any field and
    templates may leave the plane out; the list is in order of kind, apiVersion,
    namespace and name; and the counts of the metadata add up. *)
Theorem RenderComponent_output (input : RenderInput) (st st' : St) (out : RenderOutput) :
  RenderComponent input st = (st', Val out) →
  Forall (λ rr, well_formed (Resource rr) ∧ labelled (MetadataLabels input) (Resource rr) ∧ TargetPlane rr ≠ "")
    (outResources out)
  ∧ StronglySorted (λ a b, lex_ltb (rank (Resource b)) (rank (Resource a)) = false) (outResources out)
  ∧ ResourceCount (Metadata out) = Z.of_nat (length (outResources out))
  ∧ (ResourceCount (Metadata out) = BaseResourceCount (Metadata out) + TraitResourceCount (Metadata out))%Z
  ∧ (TraitCount (Metadata out) = Z.of_nat (length (ctTraits input)) + Z.of_nat (length (componentTraits input)))%Z.
Proof.
  unfold RenderComponent. intros (s0 & st0 & _ & Hrun)%bind_Val.
  apply bind_Val in Hrun as (s1 & [] & _ & Hrun). apply bind_Val in Hrun as (s2 & [] & _ & Hrun).
  apply bind_Val in Hrun as (s3 & ctx & _ & Hrun). apply bind_Val in Hrun as (s4 & [] & _ & Hrun).
  apply bind_Val in Hrun as (s5 & rendered & Hren%mapErr_Val & Hrun).
  pose proof (RenderResources_yields _ _ s4 rendered ltac:(by rewrite Hren)) as Hgood. apply templates_named in Hgood.
  apply bind_Val in Hrun as (s6 & [rs pr] & Hproc & Hrun).
  apply withProcessor_Val in Hproc as (ts & (H1 & H2 & H3)%processEveryTrait_Val & <-). cbn [resources traitsDone traitResources] in *.
  apply bind_Val in Hrun as (s7 & [] & _ & Hrun). apply bind_Val in Hrun as (s8 & rs1 & Hpost%mapErr_Val & Hrun).
  injection Hpost as _ Hpost. apply bind_Val in Hrun as (s9 & [] & Hval%mapErr_Val & Hrun). injection Hval as _ Hval.
  injection Hrun as _ <-. cbn [outResources Metadata ResourceCount BaseResourceCount TraitCount TraitResourceCount].
  destruct (finish_output _ _ _ _ Hpost Hval (H3 Hgood)) as [Hall Hlen].
  split; [exact Hall|]. split; [apply sortRenderedResources_sorted|]. split; [done|]. split; [|lia].
  rewrite Hlen. lia.
Qed.
End PipelineSpec.
