(* ===== verification/RenderWitness.v ===== *)
(** * The render theorems at work

    An expression language of the literals [true] and [false] and of variables,
    where every evaluation costs one; three raw documents; and the theorems of
    the render pipeline applied to a component with one trait. *)

From S2P Require Import Prelude GoStrings GoValue PatchPath PatchOps RenderErrors TemplateCache TemplateScan TemplateEngine TemplateSpec TemplateCacheSpec Renderer TraitProcessor TraitSpec TraitFrame PostProcess PostProcessSpec ComponentPipeline.

#[local] Set Warnings "-register-all".

(** ** Instances *)

#[global] Instance literal_CEL : CEL := {
  Env := gset string;
  AST := string;
  Program := string;
  NewEnv vars := Val vars;
  Compile env e := Val e;
  NewProgram env ast limit := Val ast;
  ContextEval p n inputs :=
    mkEvaluation
      (if bool_decide (p = "true") then inl (CBool true)
       else if bool_decide (p = "false") then inl (CBool false)
       else match inputs !! p with
            | Some v => inl (COther v)
            | None => inr (mkEvalError (errorf "no such key") false)
            end)
      (Some 1%Z)
}.

(** Two raw documents: a Deployment whose name is an expression, and a
    ConfigMap. *)
Definition deploymentDoc : any :=
  VMap {["apiVersion" := VString "apps/v1"; "kind" := VString "Deployment";
         "metadata" := VMap {["name" := VString "${name}"]}; "spec" := VMap ∅]}.
Definition configDoc : any :=
  VMap {["apiVersion" := VString "v1"; "kind" := VString "ConfigMap";
         "metadata" := VMap {["name" := VString "settings"]}]}.

#[global] Instance raw_JSON : JSON := {
  json_Marshal v := Ok (print_any v);
  json_Unmarshal raw :=
    if bool_decide (raw = "deployment") then Ok deploymentDoc
    else if bool_decide (raw = "config") then Ok configDoc
    else if bool_decide (raw = "three") then Ok (VScalar "float64" "3")
    else Err "unexpected end of JSON input"
}.

#[global] Instance calm : RenderContext := λ _, None.
#[global] Instance default_config : EngineConfig := 0%Z.
#[global] Instance constant_hash : ResourceHash := λ _, "h".
#[global] Instance fixed_contexts : Contexts := {
  structError := None;
  componentContext := Val {["name" := VString "web"]};
  traitContext t inst params configs := Val {["name" := VString inst]}
}.

Definition st0 : St := mkSt (newEngineCache false false) (Some (NewCostBudget 1000)) None 0.

(** ** The component *)

(** A Deployment; a trait that adds a ConfigMap and sets the replicas of the
    Deployment; a rule on every rendered Deployment. *)
Definition webTrait : Trait :=
  mkTrait "Trait"
    (mkTraitBody "scale"
       [mkTraitCreate "" "${true}" "" "" "config"]
       [mkTraitPatch "" "" (mkPatchTarget "apps" "v1" "Deployment" "") "" [mkPatchOperation "add" "/spec/replicas" (Some "three")]]
       [])
    [] [] [mkPostRenderValidation "" "" "" (mkPostRenderTarget (mkPatchTarget "apps" "v1" "Deployment" "${true}") None) "" "${true}" "never"].

Definition webInput : RenderInput :=
  mkRenderInput "web" "deployment" [] [mkRule "${true}" "never"] []
    (Some [mkResourceTemplate "main" "" "" "" "" "deployment"]) [] [mkTraitUse "" "scale" "s1" None None]
    [webTrait] None {["app" := "web"]}.

Definition webRun : St * eres RenderOutput := RenderComponent webInput st0.
Definition webOut : RenderOutput :=
  match webRun.2 with Val out => out | Fail _ => mkRenderOutput [] (mkRenderMetadata 0 0 0 0) end.

Lemma web_succeeds : RenderComponent webInput st0 = (webRun.1, Val webOut).
Proof. vm_compute. reflexivity. Qed.

Lemma RenderComponent_output_witness :
  (λ rr, stringOr (Resource rr) "kind") <$> outResources webOut = ["ConfigMap"; "Deployment"]
  ∧ TargetPlane <$> outResources webOut = ["dataplane"; "dataplane"]
  ∧ Forall (λ rr, well_formed (Resource rr) ∧ labelled {["app" := "web"]} (Resource rr) ∧ TargetPlane rr ≠ "")
      (outResources webOut).
Proof.
  split; [vm_compute; reflexivity|]. split; [vm_compute; reflexivity|].
  exact (proj1 (RenderComponent_output webInput st0 webRun.1 webOut web_succeeds)).
Defined.

Lemma literal_costs : costs_bounded 1.
Proof. intros p n inputs c. cbn. intros [= <-]. lia. Qed.

Lemma st0_within : budget_within 1 1000 0 st0.
Proof.
  exists (NewCostBudget 1000). split; [reflexivity|]. apply within_new. split; vm_compute; congruence.
Qed.


(** ** The engine *)

Lemma inputs_good : good_inputs {["name" := VString "web"]}.
Proof.
  intros k. rewrite dom_singleton, elem_of_singleton. intros ->. vm_compute. repeat split; discriminate.
Qed.

Lemma render_cache_transparent_witness :
  let inputs : gmap string any := {["name" := VString "web"]} in
  (Render deploymentDoc inputs (Render deploymentDoc inputs st0).1).2
  = (Render deploymentDoc inputs
       (mkSt (newEngineCache true true) (ctxBudget (Render deploymentDoc inputs st0).1) None
          (now (Render deploymentDoc inputs st0).1))).2.
Proof.
  intros inputs.
  assert (Hs : cache_sound (engine (Render deploymentDoc inputs st0).1)).
  { exact (proj2 (proj2 (proj2 (render_cache_transparent deploymentDoc inputs st0 (engine st0) inputs_good
      (newEngineCache_sound _ _) (newEngineCache_sound _ _))))). }
  exact (proj1 (render_cache_transparent deploymentDoc inputs (Render deploymentDoc inputs st0).1
    (newEngineCache true true) inputs_good Hs (newEngineCache_sound _ _))).
Defined.

Lemma findCELSpans_terminates_witness :
  spansLoop 20 "a${x}b${y" 0 = Some (Val [mkSpan 1 5 "x"]).
Proof.
  rewrite (proj1 (findCELSpans_terminates "a${x}b${y" 20 ltac:(cbn; lia))). vm_compute. reflexivity.
Defined.

Definition rs0 : renderState := mkRS (newEngineCache false false) (NewCostBudget 1000) 0.

Lemma renderString_spec_witness :
  (renderString (print [("hello ", "name")] "!") {["name" := VString "web"]} rs0).2 = Val (VString "hello web!").
Proof.
  rewrite (renderString_spec [("hello ", "name")] "!" {["name" := VString "web"]} rs0);
    [vm_compute; reflexivity| |exact I].
  apply Forall_singleton. split; vm_compute; reflexivity.
Defined.

(** A charge at the top of [uint64] saturates and is reported. *)
Lemma add_exact_witness :
  spent (add (mkBudget 10 5) MaxUint64).1 = MaxUint64 ∧ (add (mkBudget 10 5) MaxUint64).2 = Some (breachError (mkBudget 10 5)).
Proof.
  destruct (add_exact (mkBudget 10 5) MaxUint64) as (_ & H1 & H2 & _).
  - split; vm_compute; repeat split; discriminate.
  - vm_compute. repeat split; discriminate.
  - split; [rewrite H1; vm_compute; reflexivity|rewrite H2; vm_compute; reflexivity].
Defined.

(** ** Traits *)

Definition jobResource : gmap string any := {["kind" := VString "Job"; "apiVersion" := VString "batch/v1"]}.

Lemma empty_group_matches_any_witness :
  matchesTarget (mkRR jobResource "dataplane") (mkTargetSpec "Job" "" "v1" "" "dataplane") = true.
Proof. apply (empty_group_matches_any "Job" "v1" "dataplane" "batch" jobResource); vm_compute; reflexivity. Defined.

Definition ts1 : TS := mkTS st0 0 {["name" := VString "web"]} [mkRR jobResource "dataplane"].

Lemma ApplyTraitPatches_frame_witness :
  resources (ApplyTraitPatches (traitBody webTrait) ts1).1 !! 0 = Some (mkRR jobResource "dataplane").
Proof.
  apply (proj2 (ApplyTraitPatches_frame (traitBody webTrait) ts1)); [reflexivity|].
  intros p Hp. apply list_elem_of_singleton in Hp as ->. vm_compute. reflexivity.
Defined.
