(* ===== verification/ReleaseObjects.v ===== *)
(** * Rendered releases: objects, conditions, client interfaces

    The types of [api/v1alpha1/renderedrelease_types.go], the condition helpers
    of [internal/controller/conditions.go], and the libraries of Kubernetes the
    controller calls, as classes: dynamic objects ([unstructured]), status
    conditions ([apimachinery/pkg/api/meta]), finalizers ([controllerutil]). *)

From S2P Require Import Prelude GoStrings GoValue RenderErrors.

#[local] Set Warnings "-register-all".

(** ** Kinds *)

Record GVK := mkGVK { gvkGroup : string; gvkVersion : string; gvkKind : string }.

#[global] Instance GVK_eq_dec : EqDecision GVK.
Proof. solve_decision. Defined.

(** [HealthStatus] *)
Inductive Health := HealthUnknown | HealthProgressing | HealthHealthy | HealthSuspended | HealthDegraded.

#[global] Instance Health_eq_dec : EqDecision Health.
Proof. solve_decision. Defined.

(** ** The custom resource *)

Record RenderedManifest := mkManifest { manifestID : string; manifestRaw : string }.

(** [RenderedManifestStatus]; times are numbers, the raw status is its text. *)
Record ManifestStatus := mkManifestStatus {
  msID : string;
  msGroup : string;
  msVersion : string;
  msKind : string;
  msName : string;
  msNamespace : string;
  msStatus : option string;
  msHealth : Health;
  msLastObserved : option Z
}.

(** [metav1.Condition] *)
Record Condition := mkCondition {
  condType : string;
  condStatus : string;
  condReason : string;
  condMessage : string;
  condTransition : Z;
  condGeneration : Z
}.

#[global] Instance ManifestStatus_eq_dec : EqDecision ManifestStatus.
Proof. solve_decision. Defined.
#[global] Instance Condition_eq_dec : EqDecision Condition.
Proof. solve_decision. Defined.

Record ReleaseStatus := mkReleaseStatus { stResources : list ManifestStatus; stConditions : list Condition }.

Record RenderedRelease := mkRelease {
  relName : string;
  relNamespace : string;
  relUID : string;
  relGeneration : Z;
  relDeleting : bool;
  relFinalizers : list string;
  relAnnotations : gmap string string;
  relTargetPlane : string;
  relEnvironment : string;
  relProject : string;
  relResources : list RenderedManifest;
  relInterval : option Z;
  relProgressingInterval : option Z;
  relStatus : ReleaseStatus
}.

Definition withStatus (r : RenderedRelease) (s : ReleaseStatus) : RenderedRelease :=
  mkRelease (relName r) (relNamespace r) (relUID r) (relGeneration r) (relDeleting r) (relFinalizers r)
    (relAnnotations r) (relTargetPlane r) (relEnvironment r) (relProject r) (relResources r) (relInterval r)
    (relProgressingInterval r) s.

Definition withFinalizers (r : RenderedRelease) (fs : list string) : RenderedRelease :=
  mkRelease (relName r) (relNamespace r) (relUID r) (relGeneration r) (relDeleting r) fs
    (relAnnotations r) (relTargetPlane r) (relEnvironment r) (relProject r) (relResources r) (relInterval r)
    (relProgressingInterval r) (relStatus r).

(** [GetConditions] and [SetConditions] *)
Definition GetConditions (r : RenderedRelease) : list Condition := stConditions (relStatus r).
Definition SetConditions (r : RenderedRelease) (cs : list Condition) : RenderedRelease :=
  withStatus r (mkReleaseStatus (stResources (relStatus r)) cs).
Definition SetResources (r : RenderedRelease) (rs : list ManifestStatus) : RenderedRelease :=
  withStatus r (mkReleaseStatus rs (GetConditions r)).

(** ** Libraries *)

(** Dynamic objects of the plane. *)
Class Unstructured := {
  Obj : Type;
  UnmarshalObj : string → eres Obj;
  GetLabels : Obj → gmap string string;
  SetLabels : Obj → gmap string string → Obj;
  GroupVersionKind : Obj → GVK;
  GetName : Obj → string;
  GetNamespace : Obj → string;
  GetGeneration : Obj → Z;
  GetDeletionTimestamp : Obj → bool;
  (* the annotations of the pod template, as [NestedStringMap] reads them *)
  PodAnnotations : Obj → eres (gmap string string);
  SetPodAnnotations : Obj → gmap string string → eres Obj;
  (* [spec.paused] as a bool, false when it is absent or of another type *)
  SpecPaused : Obj → bool;
  (* [spec.replicas] when it is present and an integer *)
  SpecReplicas : Obj → option Z;
  (* the JSON text of the status field, when there is one that is not nil *)
  StatusField : Obj → option (result string)
}.

(** Setting labels is what reading them returns, and changes nothing else that
    identifies the object. *)
Class UnstructuredLaws `{Unstructured} := {
  SetLabels_labels : ∀ o ls, GetLabels (SetLabels o ls) = ls;
  SetLabels_gvk : ∀ o ls, GroupVersionKind (SetLabels o ls) = GroupVersionKind o;
  SetLabels_name : ∀ o ls, GetName (SetLabels o ls) = GetName o;
  SetLabels_namespace : ∀ o ls, GetNamespace (SetLabels o ls) = GetNamespace o;
  SetPodAnnotations_labels : ∀ o o' a, SetPodAnnotations o a = Val o' → GetLabels o' = GetLabels o;
  SetPodAnnotations_gvk : ∀ o o' a, SetPodAnnotations o a = Val o' → GroupVersionKind o' = GroupVersionKind o;
  SetPodAnnotations_name : ∀ o o' a, SetPodAnnotations o a = Val o' → GetName o' = GetName o;
  SetPodAnnotations_namespace : ∀ o o' a, SetPodAnnotations o a = Val o' → GetNamespace o' = GetNamespace o
}.

(** [meta.SetStatusCondition] and [meta.FindStatusCondition]. *)
Class StatusConditions := {
  SetStatusCondition : list Condition → Condition → list Condition * bool;
  FindStatusCondition : list Condition → string → option Condition
}.

(** Two conditions that say the same, apart from when it became so. *)
Definition says (c : Condition) : string * string * string * string * Z :=
  (condType c, condStatus c, condReason c, condMessage c, condGeneration c).

(** What is set is found, other types are left alone, and no change is reported
    exactly when the condition already said so. *)
Class StatusConditionsLaws `{StatusConditions} := {
  Set_finds : ∀ cs c, ∃ c', FindStatusCondition (SetStatusCondition cs c).1 (condType c) = Some c' ∧ says c' = says c;
  Set_others : ∀ cs c t, t ≠ condType c → FindStatusCondition (SetStatusCondition cs c).1 t = FindStatusCondition cs t;
  Set_unchanged : ∀ cs c, (SetStatusCondition cs c).2 = false → (SetStatusCondition cs c).1 = cs
}.

(** [controllerutil.AddFinalizer], [RemoveFinalizer] and [ContainsFinalizer] on
    the list of finalizers. *)
Class Finalizers := {
  AddFinalizer : list string → string → list string * bool;
  RemoveFinalizer : list string → string → list string * bool;
  ContainsFinalizer : list string → string → bool
}.

Class FinalizersLaws `{Finalizers} := {
  Contains_elem : ∀ l f, ContainsFinalizer l f = true ↔ f ∈ l;
  Add_elem : ∀ l f, f ∈ (AddFinalizer l f).1 ∧ ((AddFinalizer l f).2 = true ↔ f ∉ l);
  Remove_elem : ∀ l f g, g ∈ (RemoveFinalizer l f).1 ↔ g ∈ l ∧ g ≠ f;
  Remove_changed : ∀ l f, (RemoveFinalizer l f).2 = true ↔ f ∈ l
}.

(** ** Conditions *)

Definition ConditionTrue : string := "True".
Definition ConditionFalse : string := "False".

Definition maxConditionMessageLen : Z := 8192.

(** [now] is the clock. *)
Definition NewCondition (now : Z) (ct status reason message : string) (observedGeneration : Z) : Condition :=
  mkCondition ct status reason (TruncateTo message maxConditionMessageLen) now observedGeneration.

Section Conditions.
Context {SC : StatusConditions}.

Definition markCondition (now : Z) (r : RenderedRelease) (ct status reason message : string) : RenderedRelease * bool :=
  let cond := NewCondition now ct status reason message (relGeneration r) in
  let '(conditions, changed) := SetStatusCondition (GetConditions r) cond in
  (if changed then SetConditions r conditions else r, changed).

Definition MarkTrueCondition (now : Z) (r : RenderedRelease) (ct reason message : string) : RenderedRelease * bool :=
  markCondition now r ct ConditionTrue reason message.

Definition MarkFalseCondition (now : Z) (r : RenderedRelease) (ct reason message : string) : RenderedRelease * bool :=
  markCondition now r ct ConditionFalse reason message.

(** The loop over the updated conditions: [None] when a change was found, or
    the types that were seen. *)
Fixpoint changedLoop (current updated : list Condition) (seen : list string) : option (list string) :=
  match updated with
  | [] => Some seen
  | u :: updated =>
      match FindStatusCondition current (condType u) with
      | None => None
      | Some c =>
          if bool_decide (condStatus c = condStatus u) && bool_decide (condReason c = condReason u)
             && bool_decide (condMessage c = condMessage u) && bool_decide (condGeneration c = condGeneration u)
          then changedLoop current updated (condType u :: seen)
          else None
      end
  end.

Definition NeedConditionUpdate (current updated : list Condition) : bool :=
  if negb (length current =? length updated)%nat then true
  else
    match changedLoop current updated [] with
    | None => true
    | Some seen => negb (forallb (λ c, bool_decide (condType c ∈ seen)) current)
    end.
End Conditions.

(** * Rendered releases: health and inventory

    [internal/controller/renderedrelease/controller_status.go]: the health of
    deployments, stateful sets, pods and cron jobs, the inventory of what was
    applied, and what makes a release poll faster.  The conversion of a dynamic
    object to a typed one is the class [Converter]. *)

#[local] Set Warnings "-register-all".

Definition appsAPIGroup : string := "apps".
Definition deploymentKind : string := "Deployment".
Definition statefulSetKind : string := "StatefulSet".
Definition batchAPIGroup : string := "batch".
Definition cronJobKind : string := "CronJob".
Definition reasonProgressDeadlineExceeded : string := "ProgressDeadlineExceeded".
Definition LabelKeyRenderedReleaseResourceID : string := "openchoreo.dev/rendered-release-resource-id".

(** ** Typed objects *)

(** The fields of the Kubernetes types that are read. *)
Record DeploymentCondition := mkDeploymentCondition { dcType : string; dcStatus : string; dcReason : string }.

Record Deployment := mkDeployment {
  depGeneration : Z;
  depPaused : bool;
  depReplicas : option Z;
  depObserved : Z;
  depUpdated : Z;
  depReady : Z;
  depAvailable : Z;
  depUnavailable : Z;
  depConditions : list DeploymentCondition
}.

Record StatefulSet := mkStatefulSet {
  ssGeneration : Z;
  ssReplicas : option Z;
  ssObserved : Z;
  ssCurrentRevision : string;
  ssUpdateRevision : string;
  ssReady : Z;
  ssAvailable : Z;
  ssUpdated : Z
}.

(** A container's state: the reason it waits for, if it waits; readiness. *)
Record ContainerStatus := mkContainerStatus { csWaiting : option string; csReady : bool }.
Record Pod := mkPod { podPhase : string; podContainers : list ContainerStatus }.
Record CronJob := mkCronJob { cjSuspend : option bool; cjActive : nat; cjLastSchedule : option Z }.

Section Health.
Context {U : Unstructured}.

(** [runtime.DefaultUnstructuredConverter.FromUnstructured] *)
Class Converter := {
  toDeployment : Obj → eres Deployment;
  toStatefulSet : Obj → eres StatefulSet;
  toPod : Obj → eres Pod;
  toCronJob : Obj → eres CronJob
}.

Context {K : Converter}.

(** ** Deployments *)

(** The last condition of each type counts. *)
Fixpoint lastOfType (t : string) (cs : list DeploymentCondition) (found : option DeploymentCondition) : option DeploymentCondition :=
  match cs with
  | [] => found
  | c :: cs => lastOfType t cs (if bool_decide (dcType c = t) then Some c else found)
  end.

Definition extractDeploymentConditions (cs : list DeploymentCondition)
    : option DeploymentCondition * option DeploymentCondition * option DeploymentCondition :=
  (lastOfType "Available" cs None, lastOfType "Progressing" cs None, lastOfType "ReplicaFailure" cs None).

Definition orOne (replicas : option Z) : Z := default 1%Z replicas.

Definition deploymentHealth (d : Deployment) : Health :=
  if depPaused d then HealthSuspended
  else if bool_decide (depReplicas d = Some 0%Z) then HealthSuspended
  else if bool_decide (depObserved d = 0%Z) || (depObserved d <? depGeneration d)%Z then HealthProgressing
  else
    let desiredReplicas := orOne (depReplicas d) in
    let '(availableCond, progressingCond, replicaFailCond) := extractDeploymentConditions (depConditions d) in
    if bool_decide (dcReason <$> progressingCond = Some reasonProgressDeadlineExceeded) then HealthDegraded
    else if bool_decide (dcStatus <$> replicaFailCond = Some ConditionTrue) then HealthDegraded
    else if bool_decide (desiredReplicas = depUpdated d) && bool_decide (depAvailable d = 0%Z) && (0 <? desiredReplicas)%Z then
      match progressingCond with
      | Some c =>
          if bool_decide (dcStatus c = ConditionTrue) then
            if bool_decide (dcReason c = "NewReplicaSetAvailable") then HealthDegraded else HealthProgressing
          else HealthDegraded
      | None => HealthDegraded
      end
    else if match availableCond with Some c => negb (bool_decide (dcStatus c = ConditionTrue)) | None => false end
            && (0 <? depUnavailable d)%Z && ((0 <? depReady d)%Z || (0 <? depAvailable d)%Z) then HealthDegraded
    else if bool_decide (desiredReplicas = depUpdated d) && bool_decide (desiredReplicas = depReady d)
            && bool_decide (desiredReplicas = depAvailable d) && bool_decide (depUnavailable d = 0%Z) then HealthHealthy
    else HealthProgressing.

Definition getDeploymentHealth (o : Obj) : eres Health :=
  match toDeployment o with
  | Fail err => Fail (wrapf "failed to convert to deployment: " err "")
  | Val d => Val (deploymentHealth d)
  end.

(** ** Other kinds *)

Definition statefulSetHealth (s : StatefulSet) : Health :=
  if bool_decide (ssObserved s = 0%Z) || (ssObserved s <? ssGeneration s)%Z then HealthProgressing
  else
    let desiredReplicas := orOne (ssReplicas s) in
    if negb (bool_decide (ssCurrentRevision s = ssUpdateRevision s)) then HealthProgressing
    else if bool_decide (desiredReplicas = ssReady s) && bool_decide (desiredReplicas = ssAvailable s)
            && bool_decide (desiredReplicas = ssUpdated s) then HealthHealthy
    else HealthProgressing.

Definition getStatefulSetHealth (o : Obj) : eres Health :=
  match toStatefulSet o with
  | Fail err => Fail (wrapf "failed to convert to statefulset: " err "")
  | Val s => Val (statefulSetHealth s)
  end.

Definition waitsForError (c : ContainerStatus) : bool :=
  match csWaiting c with
  | Some reason => bool_decide (reason ∈ ["CrashLoopBackOff"; "ImagePullBackOff"; "ErrImagePull"])
  | None => false
  end.

(** The containers in order; the first that is not fine decides. *)
Fixpoint containersHealth (cs : list ContainerStatus) : Health :=
  match cs with
  | [] => HealthHealthy
  | c :: cs =>
      if waitsForError c then HealthDegraded
      else if negb (csReady c) then HealthProgressing
      else containersHealth cs
  end.

Definition podHealth (p : Pod) : Health :=
  if bool_decide (podPhase p = "Pending") then HealthProgressing
  else if bool_decide (podPhase p = "Running") then containersHealth (podContainers p)
  else if bool_decide (podPhase p = "Succeeded") then HealthHealthy
  else if bool_decide (podPhase p = "Failed") then HealthDegraded
  else HealthUnknown.

Definition getPodHealth (o : Obj) : eres Health :=
  match toPod o with
  | Fail err => Fail (wrapf "failed to convert to pod: " err "")
  | Val p => Val (podHealth p)
  end.

Definition cronJobHealth (c : CronJob) : Health :=
  if bool_decide (cjSuspend c = Some true) then HealthSuspended
  else if (0 <? cjActive c)%nat then HealthProgressing
  else match cjLastSchedule c with Some _ => HealthHealthy | None => HealthProgressing end.

Definition getCronJobHealth (o : Obj) : eres Health :=
  match toCronJob o with
  | Fail err => Fail (wrapf "failed to convert to cronjob: " err "")
  | Val c => Val (cronJobHealth c)
  end.

Definition getUnknownResourceHealth (o : Obj) : eres Health := Val HealthHealthy.

Definition kindHealthCheckFunc (gvk : GVK) : option (Obj → eres Health) :=
  if bool_decide (gvkGroup gvk = appsAPIGroup) && bool_decide (gvkKind gvk = deploymentKind) then Some getDeploymentHealth
  else if bool_decide (gvkGroup gvk = appsAPIGroup) && bool_decide (gvkKind gvk = statefulSetKind) then Some getStatefulSetHealth
  else if bool_decide (gvkGroup gvk = "") && bool_decide (gvkKind gvk = "Pod") then Some getPodHealth
  else if bool_decide (gvkGroup gvk = batchAPIGroup) && bool_decide (gvkKind gvk = cronJobKind) then Some getCronJobHealth
  else None.

Definition GetHealthCheckFunc (gvk : GVK) : Obj → eres Health :=
  match kindHealthCheckFunc gvk with Some check => check | None => getUnknownResourceHealth end.

Definition HasKindHealthCheck (gvk : GVK) : bool :=
  match kindHealthCheckFunc gvk with Some _ => true | None => false end.

(** ** The inventory *)

(** [obj.GetLabels()[LabelKeyRenderedReleaseResourceID]] *)
Definition resourceID (o : Obj) : string := default "" (GetLabels o !! LabelKeyRenderedReleaseResourceID).

Definition snapshotPrecedesApply (applied live : Obj) : bool :=
  (0 <? GetGeneration applied)%Z && (0 <? GetGeneration live)%Z && (GetGeneration live <? GetGeneration applied)%Z.

(** Later objects with an id replace earlier ones. *)
Definition liveByID (live : list Obj) : gmap string Obj :=
  foldl (λ m o, if bool_decide (resourceID o = "") then m else <[resourceID o := o]> m) ∅ live.

Definition oldByID (old : list ManifestStatus) : gmap string ManifestStatus :=
  foldl (λ m s, <[msID s := s]> m) ∅ old.

(** [apiequality.Semantic.DeepEqual] on raw statuses and on whole statuses. *)
Class SemanticEquality := {
  equalRaw : option string → option string → bool;
  equalStatus : ReleaseStatus → ReleaseStatus → bool
}.
Context {Q : SemanticEquality}.

Definition observedStatus (live : Obj) : option string :=
  match StatusField live with
  | Some (Ok raw) => Some raw
  | _ => None
  end.

Definition observedHealth (gvk : GVK) (desired live : Obj) : Health :=
  let health := match GetHealthCheckFunc gvk live with Val h => h | Fail _ => HealthUnknown end in
  if snapshotPrecedesApply desired live then HealthProgressing else health.

Definition manifestStatus (now : Z) (old : gmap string ManifestStatus) (live : gmap string Obj) (desired : Obj) : ManifestStatus :=
  let gvk := GroupVersionKind desired in
  let id := resourceID desired in
  let entry := mkManifestStatus id (gvkGroup gvk) (gvkVersion gvk) (gvkKind gvk) (GetName desired) (GetNamespace desired) in
  match live !! id with
  | None => entry None HealthUnknown None
  | Some o =>
      let status := observedStatus o in
      let health := observedHealth gvk desired o in
      let kept :=
        match old !! id with
        | Some s => if equalRaw (msStatus s) status && bool_decide (msHealth s = health) then msLastObserved s else None
        | None => None
        end in
      entry status health (Some (default now kept))
  end.

Definition buildResourceStatus (now : Z) (old : RenderedRelease) (desired live : list Obj) : list ManifestStatus :=
  manifestStatus now (oldByID (stResources (relStatus old))) (liveByID live) <$> desired.

Definition hasTransitioningResources (rs : list ManifestStatus) : bool :=
  existsb (λ r, bool_decide (msHealth r = HealthProgressing) || bool_decide (msHealth r = HealthUnknown)
                || bool_decide (msHealth r = HealthDegraded)) rs.

Definition hasResurrectableWorkload (desired live : list Obj) : bool :=
  existsb (λ d,
    let gvk := GroupVersionKind d in
    bool_decide (gvkGroup gvk = appsAPIGroup)
    && (bool_decide (gvkKind gvk = deploymentKind) || bool_decide (gvkKind gvk = statefulSetKind))
    && match liveByID live !! resourceID d with
       | Some o => negb (SpecPaused o) && bool_decide (SpecReplicas o = Some 0%Z)
       | None => false
       end) desired.
End Health.
Arguments Converter : clear implicits.
Arguments Converter {U}.
