(* ===== verification/PlaneObjects.v ===== *)
(** * Planes: objects, errors, references

    The custom resources of [api/v1alpha1] that describe data, observability and
    workflow planes, in a namespace or for the whole cluster, with the
    references between them; and the errors of the Kubernetes and gateway
    clients with what [errors.As] finds in them. *)

From S2P Require Import Prelude GoStrings ReleaseObjects.

#[local] Set Warnings "-register-all".

(** ** Errors *)

(** What the code asks of an error, anywhere in its chain. *)
Inductive errTag :=
  | IsNotFoundErr | IsConflictErr | IsForbiddenErr | IsUnauthorizedErr | IsBadRequestErr | IsInternalErr
  | IsNoMatchErr | IsDeadlineErr | IsTransientErr | IsPermanentErr | IsAlreadyExistsErr
  | ErrLeaseNotHeld | ErrEventsSourceUnavailable
  | ErrResourceNotFound | ErrAlertsResolveSearchScope | ErrScopeNotFound | ErrScopeResolutionFailed
  | ErrAuthzForbidden | ErrAuthzUnauthorized | ErrAuthzServiceUnavailable | ErrAuthzTimeout | ErrAuthzInvalidResponse.

#[global] Instance errTag_eq_dec : EqDecision errTag.
Proof. solve_decision. Defined.

Record clientError := mkClientError { ceText : string; ceTags : list errTag }.

Definition plainErr (msg : string) : clientError := mkClientError msg [].

(** [fmt.Errorf("<before>%w", err)] *)
Definition wrapErrorf (before : string) (err : clientError) : clientError :=
  mkClientError (before +:+ ceText err) (ceTags err).

Definition hasTag (t : errTag) (err : clientError) : bool := bool_decide (t ∈ ceTags err).

Lemma hasTag_wrap t before err : hasTag t (wrapErrorf before err) = hasTag t err.
Proof. done. Qed.

(** Computations that change a state and return a value or an error. *)
Section ClientMonad.
Context {S : Type}.

Definition CM (A : Type) : Type := S → S * (A + clientError).

#[global] Instance CM_ret : MRet CM := λ _ a s, (s, inl a).
#[global] Instance CM_bind : MBind CM := λ _ _ k m s,
  match m s with
  | (s', inl a) => k a s'
  | (s', inr err) => (s', inr err)
  end.

Definition fails {A} (err : clientError) : CM A := λ s, (s, inr err).

(** The value or the error, for code that looks at the error. *)
Definition attempt {A} (m : CM A) : CM (A + clientError) := λ s, let r := m s in (r.1, inl r.2).

(** [if err != nil { return f(err) }] *)
Definition orElse {A} (m : CM A) (f : clientError → clientError) : CM A := λ s,
  match m s with
  | (s', inr err) => (s', inr (f err))
  | r => r
  end.

Lemma CM_bind_eq {A B} (m : CM A) (k : A → CM B) s :
  (m ≫= k) s = match m s with (s', inl a) => k a s' | (s', inr err) => (s', inr err) end.
Proof. done. Qed.
End ClientMonad.
Arguments CM : clear implicits.

(** ** Metadata and references *)

Record ObjectMeta := mkMeta {
  metaName : string;
  metaNamespace : string;
  metaUID : string;
  metaGeneration : Z;
  metaDeleting : bool;
  metaFinalizers : list string;
  metaAnnotations : gmap string string
}.

(** [DataPlaneRef], [ObservabilityPlaneRef] and [WorkflowPlaneRef], and the
    references of cluster-scoped objects. *)
Record PlaneRef := mkPlaneRef { refKind : string; refName : string }.

(** ** Specifications *)

Record SecretKeyReference := mkSecretKeyReference { skName : string; skNamespace : string; skKey : string }.
Record ValueFrom := mkValueFrom { vfSecretKeyRef : option SecretKeyReference; vfValue : string }.
Record ClusterAgentConfig := mkClusterAgentConfig { ClientCA : ValueFrom }.

Record GatewayListenerSpec := mkGatewayListenerSpec { glListenerName : string; glPort : Z; glHost : string }.
Record GatewayEndpointSpec := mkGatewayEndpointSpec {
  geName : string;
  geNamespace : string;
  geHTTP : option GatewayListenerSpec;
  geHTTPS : option GatewayListenerSpec;
  geTLS : option GatewayListenerSpec
}.
Record GatewayNetworkSpec := mkGatewayNetworkSpec {
  gnExternal : option GatewayEndpointSpec;
  gnInternal : option GatewayEndpointSpec
}.
Record GatewaySpec := mkGatewaySpec { gsIngress : option GatewayNetworkSpec; gsEgress : option GatewayNetworkSpec }.

Record DataPlaneSpec := mkDataPlaneSpec {
  dpPlaneID : string;
  dpClusterAgent : ClusterAgentConfig;
  dpGateway : GatewaySpec;
  dpSecretStoreRef : option string;
  dpObservabilityPlaneRef : option PlaneRef
}.

Record ClusterDataPlaneSpec := mkClusterDataPlaneSpec {
  cdpPlaneID : string;
  cdpClusterAgent : ClusterAgentConfig;
  cdpGateway : GatewaySpec;
  cdpSecretStoreRef : option string;
  cdpObservabilityPlaneRef : option PlaneRef
}.

Record ObservabilityPlaneSpec := mkObservabilityPlaneSpec {
  opPlaneID : string;
  opClusterAgent : ClusterAgentConfig;
  opObserverURL : string;
  opRCAAgentURL : string;
  opFinOpsAgentURL : string
}.

Record ClusterObservabilityPlaneSpec := mkClusterObservabilityPlaneSpec {
  copPlaneID : string;
  copClusterAgent : ClusterAgentConfig;
  copObserverURL : string;
  copRCAAgentURL : string;
  copFinOpsAgentURL : string
}.

Record WorkflowPlaneSpec := mkWorkflowPlaneSpec {
  wpPlaneID : string;
  wpClusterAgent : ClusterAgentConfig;
  wpSecretStoreRef : option string;
  wpObservabilityPlaneRef : option PlaneRef
}.

Record ClusterWorkflowPlaneSpec := mkClusterWorkflowPlaneSpec {
  cwpPlaneID : string;
  cwpClusterAgent : ClusterAgentConfig;
  cwpSecretStoreRef : option string;
  cwpObservabilityPlaneRef : option PlaneRef
}.

(** ** Status *)

Record AgentConnectionStatus := mkAgentConnectionStatus {
  acConnected : bool;
  acConnectedAgents : Z;
  acLastConnectedTime : option Z;
  acLastDisconnectedTime : option Z;
  acLastHeartbeatTime : option Z;
  acMessage : string
}.

(** The status the six kinds share. *)
Record PlaneCRStatus := mkPlaneCRStatus {
  psObservedGeneration : Z;
  psConditions : list Condition;
  psAgentConnection : option AgentConnectionStatus
}.

(** ** Objects *)

Record PlaneCR (Spec : Type) := mkPlaneCR { crMeta : ObjectMeta; crSpec : Spec; crStatus : PlaneCRStatus }.
Arguments mkPlaneCR {Spec} _ _ _.
Arguments crMeta {Spec} _.
Arguments crSpec {Spec} _.
Arguments crStatus {Spec} _.

Abbreviation DataPlane := (PlaneCR DataPlaneSpec).
Abbreviation ClusterDataPlane := (PlaneCR ClusterDataPlaneSpec).
Abbreviation ObservabilityPlane := (PlaneCR ObservabilityPlaneSpec).
Abbreviation ClusterObservabilityPlane := (PlaneCR ClusterObservabilityPlaneSpec).
Abbreviation WorkflowPlane := (PlaneCR WorkflowPlaneSpec).
Abbreviation ClusterWorkflowPlane := (PlaneCR ClusterWorkflowPlaneSpec).

Definition crName {Spec} (p : PlaneCR Spec) : string := metaName (crMeta p).
Definition crNamespace {Spec} (p : PlaneCR Spec) : string := metaNamespace (crMeta p).

(** The identifier of a plane, in every kind. *)
Class HasPlaneID (Spec : Type) := specPlaneID : Spec → string.
#[global] Instance dp_id : HasPlaneID DataPlaneSpec := dpPlaneID.
#[global] Instance cdp_id : HasPlaneID ClusterDataPlaneSpec := cdpPlaneID.
#[global] Instance op_id : HasPlaneID ObservabilityPlaneSpec := opPlaneID.
#[global] Instance cop_id : HasPlaneID ClusterObservabilityPlaneSpec := copPlaneID.
#[global] Instance wp_id : HasPlaneID WorkflowPlaneSpec := wpPlaneID.
#[global] Instance cwp_id : HasPlaneID ClusterWorkflowPlaneSpec := cwpPlaneID.

(** The identifier, or the name when it is not set. *)
Definition effectivePlaneID {Spec} `{HasPlaneID Spec} (p : PlaneCR Spec) : string :=
  if bool_decide (specPlaneID (crSpec p) = "") then crName p else specPlaneID (crSpec p).

(** ** Environments and workflows *)

Record EnvironmentCR := mkEnvironment {
  envMeta : ObjectMeta;
  envDataPlaneRef : option PlaneRef;
  envIsProduction : bool;
  envGateway : GatewaySpec
}.

(** The parts of a workflow that are only passed on. *)
Class WorkflowParts := { SchemaSection : Type; RawTemplate : Type; WorkflowResource : Type; ExternalRef : Type }.

Section Workflows.
Context {WT : WorkflowParts}.

(** [WorkflowSpec] and [ClusterWorkflowSpec] have the same fields. *)
Record WorkflowSpec := mkWorkflowSpec {
  wfWorkflowPlaneRef : option PlaneRef;
  wfParameters : option SchemaSection;
  wfRunTemplate : option RawTemplate;
  wfResources : list WorkflowResource;
  wfExternalRefs : list ExternalRef;
  wfTTLAfterCompletion : string
}.

Record Workflow := mkWorkflow { wfMeta : ObjectMeta; wfSpec : WorkflowSpec }.
Record ClusterWorkflow := mkClusterWorkflow { cwfMeta : ObjectMeta; cwfSpec : WorkflowSpec }.
End Workflows.
