(* ===== verification/PlaneRefs.v ===== *)
(** * Resolution of plane references

    [internal/controller/reference.go]: which data, observability or workflow
    plane an object refers to, with the defaults, and the clients of the
    resolved planes; the field index and the watch of
    [internal/controller/dataplane/controller_watch.go]; and what the controllers
    promise about it.  The Kubernetes client is the class [PlaneStore]. *)

From S2P Require Import Prelude GoStrings ReleaseObjects PlaneObjects.

#[local] Set Warnings "-register-all".

Definition DefaultPlaneName : string := "default".
Definition DataPlaneRefKindDataPlane : string := "DataPlane".
Definition DataPlaneRefKindClusterDataPlane : string := "ClusterDataPlane".
Definition ObservabilityPlaneRefKindObservabilityPlane : string := "ObservabilityPlane".
Definition ObservabilityPlaneRefKindClusterObservabilityPlane : string := "ClusterObservabilityPlane".
Definition WorkflowPlaneRefKindWorkflowPlane : string := "WorkflowPlane".
Definition WorkflowPlaneRefKindClusterWorkflowPlane : string := "ClusterWorkflowPlane".
Definition WorkflowRefKindWorkflow : string := "Workflow".
Definition WorkflowRefKindClusterWorkflow : string := "ClusterWorkflow".

Section Refs.
Context {WT : WorkflowParts} {S : Type}.

(** [client.Client.Get] on the kinds that are read; a cluster-scoped object is
    read by its name. *)
Class PlaneStore := {
  getEnvironment : string → string → CM S EnvironmentCR;
  getDataPlane : string → string → CM S DataPlane;
  getClusterDataPlane : string → CM S ClusterDataPlane;
  getObservabilityPlane : string → string → CM S ObservabilityPlane;
  getClusterObservabilityPlane : string → CM S ClusterObservabilityPlane;
  getWorkflowPlane : string → string → CM S WorkflowPlane;
  getClusterWorkflowPlane : string → CM S ClusterWorkflowPlane;
  getWorkflow : string → string → CM S Workflow;
  getClusterWorkflow : string → CM S ClusterWorkflow;
  (* [apierrors.NewNotFound] for a resource of this API group *)
  NewNotFound : string → string → clientError
}.
Context {PS : PlaneStore}.

Definition IsNotFoundError (err : clientError) : bool := hasTag IsNotFoundErr err.

(** ** Reading by kind and name

    The three resolutions have the same text but for the names of the kinds: a
    namespaced kind [N] and a cluster-scoped kind [C] with their readers. *)
Section Resolution.
Context {N C : Type} (kindN kindC resource : string).
Context (getN : string → string → CM S N) (getC : string → CM S C).

(** Either a namespaced or a cluster-scoped plane. *)
Record PlaneResult := mkPlaneResult { resNamespaced : option N; resCluster : option C }.

Definition fetchNamespaced (namespace name : string) : CM S PlaneResult :=
  p ← orElse (getN namespace name) (λ err,
        if IsNotFoundError err
        then wrapErrorf (kindN +:+ " '" +:+ name +:+ "' not found in namespace '" +:+ namespace +:+ "': ") err
        else wrapErrorf ("failed to get " +:+ kindN +:+ " '" +:+ name +:+ "': ") err);
  mret (mkPlaneResult (Some p) None).

Definition fetchCluster (name : string) : CM S PlaneResult :=
  p ← orElse (getC name) (λ err,
        if IsNotFoundError err
        then wrapErrorf (kindC +:+ " '" +:+ name +:+ "' not found: ") err
        else wrapErrorf ("failed to get " +:+ kindC +:+ " '" +:+ name +:+ "': ") err);
  mret (mkPlaneResult None (Some p)).

Definition defaultPlaneNotFound (msg : string) : clientError :=
  wrapErrorf (msg +:+ ": ") (NewNotFound resource DefaultPlaneName).

Definition getDefaultCluster (namespace : string) : CM S PlaneResult :=
  r ← attempt (getC DefaultPlaneName);
  match r with
  | inl p => mret (mkPlaneResult None (Some p))
  | inr err =>
      if negb (IsNotFoundError err) then fails (wrapErrorf ("failed to get default " +:+ kindC +:+ ": ") err)
      else if negb (bool_decide (namespace = "")) then
        fails (defaultPlaneNotFound ("no " +:+ kindN +:+ "Ref specified and neither default " +:+ kindN +:+ " nor "
          +:+ kindC +:+ " '" +:+ DefaultPlaneName +:+ "' found in namespace '" +:+ namespace +:+ "'"))
      else
        fails (defaultPlaneNotFound ("no " +:+ kindN +:+ "Ref specified and default " +:+ kindC +:+ " '"
          +:+ DefaultPlaneName +:+ "' not found"))
  end.

Definition getDefaultPlane (namespace : string) : CM S PlaneResult :=
  if negb (bool_decide (namespace = "")) then
    r ← attempt (getN namespace DefaultPlaneName);
    match r with
    | inl p => mret (mkPlaneResult (Some p) None)
    | inr err =>
        if negb (IsNotFoundError err) then fails (wrapErrorf ("failed to get default " +:+ kindN +:+ ": ") err)
        else getDefaultCluster namespace
    end
  else getDefaultCluster namespace.

Definition getPlaneFromRef (namespace : string) (ref : option PlaneRef) : CM S PlaneResult :=
  match ref with
  | None => getDefaultPlane namespace
  | Some ref =>
      if bool_decide (refKind ref = kindN) then fetchNamespaced namespace (refName ref)
      else if bool_decide (refKind ref = kindC) then fetchCluster (refName ref)
      else fails (plainErr ("unsupported " +:+ kindN +:+ "Ref kind '" +:+ refKind ref +:+ "'"))
  end.
End Resolution.
Arguments PlaneResult : clear implicits.
Arguments mkPlaneResult {N C} _ _.
Arguments resNamespaced {N C} _.
Arguments resCluster {N C} _.

Definition DataPlaneResult : Type := PlaneResult DataPlane ClusterDataPlane.
Definition ObservabilityPlaneResult : Type := PlaneResult ObservabilityPlane ClusterObservabilityPlane.
Definition WorkflowPlaneResult : Type := PlaneResult WorkflowPlane ClusterWorkflowPlane.

(** ** Data planes *)

(** [GetName] and [GetNamespace] of a result. *)
Definition resultName {A B} (r : PlaneResult (PlaneCR A) (PlaneCR B)) : string :=
  match resNamespaced r, resCluster r with
  | Some p, _ => crName p
  | None, Some p => crName p
  | None, None => ""
  end.

Definition resultNamespace {A B} (r : PlaneResult (PlaneCR A) (PlaneCR B)) : string :=
  match resNamespaced r with Some p => crNamespace p | None => "" end.

Definition getDefaultDataPlane : string → CM S DataPlaneResult :=
  getDefaultPlane DataPlaneRefKindDataPlane DataPlaneRefKindClusterDataPlane "clusterdataplanes"
    getDataPlane getClusterDataPlane.

Definition GetDataPlaneFromRef : string → option PlaneRef → CM S DataPlaneResult :=
  getPlaneFromRef DataPlaneRefKindDataPlane DataPlaneRefKindClusterDataPlane "clusterdataplanes"
    getDataPlane getClusterDataPlane.

(** The data plane, or a facade of the cluster's. *)
Definition ToDataPlane (r : DataPlaneResult) : option DataPlane :=
  match resNamespaced r, resCluster r with
  | Some dp, _ => Some dp
  | None, Some cdp =>
      let spec := crSpec cdp in
      let obsRef := (λ ref, mkPlaneRef ObservabilityPlaneRefKindClusterObservabilityPlane (refName ref))
                    <$> cdpObservabilityPlaneRef spec in
      Some (mkPlaneCR
        (mkMeta (crName cdp) "" (metaUID (crMeta cdp)) 0 false [] (metaAnnotations (crMeta cdp)))
        (mkDataPlaneSpec (cdpPlaneID spec) (cdpClusterAgent spec) (cdpGateway spec) (cdpSecretStoreRef spec) obsRef)
        (mkPlaneCRStatus 0 [] None))
  | None, None => None
  end.

(** ** Observability planes *)

Definition getDefaultObservabilityPlane : string → CM S ObservabilityPlaneResult :=
  getDefaultPlane ObservabilityPlaneRefKindObservabilityPlane ObservabilityPlaneRefKindClusterObservabilityPlane
    "clusterobservabilityplanes" getObservabilityPlane getClusterObservabilityPlane.

Definition GetObservabilityPlaneFromRef : string → option PlaneRef → CM S ObservabilityPlaneResult :=
  getPlaneFromRef ObservabilityPlaneRefKindObservabilityPlane ObservabilityPlaneRefKindClusterObservabilityPlane
    "clusterobservabilityplanes" getObservabilityPlane getClusterObservabilityPlane.

Definition GetObserverURL (r : ObservabilityPlaneResult) : string :=
  match resNamespaced r, resCluster r with
  | Some p, _ => opObserverURL (crSpec p)
  | None, Some p => copObserverURL (crSpec p)
  | None, None => ""
  end.

Definition GetPlaneID (r : ObservabilityPlaneResult) : string :=
  match resNamespaced r, resCluster r with
  | Some p, _ => opPlaneID (crSpec p)
  | None, Some p => copPlaneID (crSpec p)
  | None, None => ""
  end.

Definition clusterObsRefToObsRef (ref : option PlaneRef) : option PlaneRef :=
  match ref with
  | None => None
  | Some ref => Some (mkPlaneRef (refKind ref) (refName ref))
  end.

(** The observability plane of a data plane. *)
Definition observabilityPlaneOf (r : DataPlaneResult) : CM S ObservabilityPlaneResult :=
  match resNamespaced r, resCluster r with
  | Some dp, _ => GetObservabilityPlaneFromRef (crNamespace dp) (dpObservabilityPlaneRef (crSpec dp))
  | None, Some cdp => GetObservabilityPlaneFromRef "" (clusterObsRefToObsRef (cdpObservabilityPlaneRef (crSpec cdp)))
  | None, None => fails (plainErr "no data plane set in result")
  end.

(** ** Workflow planes *)

Definition getDefaultWorkflowPlane : string → CM S WorkflowPlaneResult :=
  getDefaultPlane WorkflowPlaneRefKindWorkflowPlane WorkflowPlaneRefKindClusterWorkflowPlane "clusterworkflowplanes"
    getWorkflowPlane getClusterWorkflowPlane.

Definition GetWorkflowPlaneFromRef : string → option PlaneRef → CM S WorkflowPlaneResult :=
  getPlaneFromRef WorkflowPlaneRefKindWorkflowPlane WorkflowPlaneRefKindClusterWorkflowPlane "clusterworkflowplanes"
    getWorkflowPlane getClusterWorkflowPlane.

Definition GetSecretStoreName (r : WorkflowPlaneResult) : string :=
  match resNamespaced r ≫= (λ p, wpSecretStoreRef (crSpec p)) with
  | Some name => name
  | None => default "" (resCluster r ≫= λ p, cwpSecretStoreRef (crSpec p))
  end.

Definition workflowObservabilityPlane (r : WorkflowPlaneResult) : CM S ObservabilityPlaneResult :=
  match resNamespaced r, resCluster r with
  | Some wp, _ => GetObservabilityPlaneFromRef (crNamespace wp) (wpObservabilityPlaneRef (crSpec wp))
  | None, Some cwp => GetObservabilityPlaneFromRef "" (clusterObsRefToObsRef (cwpObservabilityPlaneRef (crSpec cwp)))
  | None, None => fails (plainErr "no workflow plane set in result")
  end.

(** ** Workflows *)

Record WorkflowResult := mkWorkflowResult { resWorkflow : option Workflow; resClusterWorkflow : option ClusterWorkflow }.

Definition GetWorkflowSpec (r : WorkflowResult) : WorkflowSpec :=
  match resWorkflow r, resClusterWorkflow r with
  | Some wf, _ => wfSpec wf
  | None, Some cw =>
      let spec := cwfSpec cw in
      let ref :=
        match wfWorkflowPlaneRef spec with
        | Some ref => mkPlaneRef (refKind ref) (refName ref)
        | None => mkPlaneRef WorkflowPlaneRefKindClusterWorkflowPlane DefaultPlaneName
        end in
      mkWorkflowSpec (Some ref) (wfParameters spec) (wfRunTemplate spec) (wfResources spec) (wfExternalRefs spec)
        (wfTTLAfterCompletion spec)
  | None, None => mkWorkflowSpec None None None [] [] ""
  end.

Definition ResolveWorkflow (namespace kind name : string) : CM S WorkflowResult :=
  if bool_decide (kind = WorkflowRefKindClusterWorkflow) || bool_decide (kind = "") then
    cw ← orElse (getClusterWorkflow name) (λ err,
           if IsNotFoundError err then wrapErrorf ("clusterWorkflow '" +:+ name +:+ "' not found: ") err
           else wrapErrorf ("failed to get clusterWorkflow '" +:+ name +:+ "': ") err);
    mret (mkWorkflowResult None (Some cw))
  else if bool_decide (kind = WorkflowRefKindWorkflow) then
    wf ← orElse (getWorkflow namespace name) (λ err,
           if IsNotFoundError err
           then wrapErrorf ("workflow '" +:+ name +:+ "' not found in namespace '" +:+ namespace +:+ "': ") err
           else wrapErrorf ("failed to get workflow '" +:+ name +:+ "': ") err);
    mret (mkWorkflowResult (Some wf) None)
  else
    fails (plainErr ("unsupported workflowRef kind '" +:+ kind +:+ "' for workflow '" +:+ name +:+ "' in namespace '"
      +:+ namespace +:+ "'")).

(** ** Clients of planes *)

(** [PlaneClientProvider]; [None] stands for a nil provider. *)
Record Provider (Client : Type) := mkProvider {
  DataPlaneClient : DataPlane → CM S Client;
  ClusterDataPlaneClient : ClusterDataPlane → CM S Client;
  ObservabilityPlaneClient : ObservabilityPlane → CM S Client;
  ClusterObservabilityPlaneClient : ClusterObservabilityPlane → CM S Client;
  WorkflowPlaneClient : WorkflowPlane → CM S Client;
  ClusterWorkflowPlaneClient : ClusterWorkflowPlane → CM S Client
}.
Arguments DataPlaneClient {Client} _.
Arguments ClusterDataPlaneClient {Client} _.
Arguments ObservabilityPlaneClient {Client} _.
Arguments ClusterObservabilityPlaneClient {Client} _.
Arguments WorkflowPlaneClient {Client} _.
Arguments ClusterWorkflowPlaneClient {Client} _.

Section Clients.
Context {Client : Type}.

Definition GetDataPlaneK8sClient (r : DataPlaneResult) (provider : option (Provider Client)) : CM S Client :=
  match provider with
  | None => fails (plainErr "no DataPlaneClientProvider configured")
  | Some p =>
      match resNamespaced r, resCluster r with
      | Some dp, _ => DataPlaneClient p dp
      | None, Some cdp => ClusterDataPlaneClient p cdp
      | None, None => fails (plainErr "no data plane set in result")
      end
  end.

Definition GetObservabilityPlaneK8sClient (r : ObservabilityPlaneResult) (provider : option (Provider Client)) : CM S Client :=
  match provider with
  | None => fails (plainErr "no ObservabilityPlaneClientProvider configured")
  | Some p =>
      match resNamespaced r, resCluster r with
      | Some op, _ => ObservabilityPlaneClient p op
      | None, Some cop => ClusterObservabilityPlaneClient p cop
      | None, None => fails (plainErr "no observability plane set in result")
      end
  end.

Definition GetWorkflowPlaneK8sClient (r : WorkflowPlaneResult) (provider : option (Provider Client)) : CM S Client :=
  match provider with
  | None => fails (plainErr "no WorkflowPlaneClientProvider configured")
  | Some p =>
      match resNamespaced r, resCluster r with
      | Some wp, _ => WorkflowPlaneClient p wp
      | None, Some cwp => ClusterWorkflowPlaneClient p cwp
      | None, None => fails (plainErr "no workflow plane set in result")
      end
  end.
End Clients.

(** ** Environments of a data plane *)

(** What the field index stores for an environment. *)
Definition dataPlaneRefIndex (env : EnvironmentCR) : list string :=
  match envDataPlaneRef env with
  | None => [DefaultPlaneName]
  | Some ref => if bool_decide (refKind ref = DataPlaneRefKindClusterDataPlane) then [] else [refName ref]
  end.

(** The namespace and name of the data plane to reconcile. *)
Definition GetDataPlaneForEnvironment (env : EnvironmentCR) : CM S (list (string * string)) :=
  r ← attempt (GetDataPlaneFromRef (metaNamespace (envMeta env)) (envDataPlaneRef env));
  match r with
  | inr _ => mret []
  | inl result =>
      match resNamespaced result with
      | None => mret []
      | Some dp => mret [(crNamespace dp, crName dp)]
      end
  end.
End Refs.
Arguments PlaneStore {WT} S.
Arguments PlaneResult : clear implicits.
Arguments Provider : clear implicits.
Arguments mkProvider {S Client} _ _ _ _ _ _.
Arguments DataPlaneClient {S Client} _ _.
Arguments ClusterDataPlaneClient {S Client} _ _.
Arguments ObservabilityPlaneClient {S Client} _ _.
Arguments ClusterObservabilityPlaneClient {S Client} _ _.
Arguments WorkflowPlaneClient {S Client} _ _.
Arguments ClusterWorkflowPlaneClient {S Client} _ _.

(** * What plane references resolve to

    On a store whose reads are truthful the resolution is the documented one,
    with "not found" exactly for planes that are not there; and an object of the
    cluster never uses a plane of a namespace. *)

#[local] Set Warnings "-register-all".

Lemma IsNotFoundError_wrap before err : IsNotFoundError (wrapErrorf before err) = IsNotFoundError err.
Proof. done. Qed.

#[local] Arguments IsNotFoundError : simpl never.

Section Spec.
Context {WT : WorkflowParts} {S : Type} {PS : PlaneStore S}.

(** ** One kind of plane *)

Section Kind.
Context {N C : Type} (kindN kindC resource : string).
Context (getN : string → string → CM S N) (getC : string → CM S C).

(** What is stored, and that a read tells it. *)
Context (viewN : S → string → string → option N) (viewC : S → string → option C).

Definition same_views (s s' : S) : Prop :=
  (∀ ns name, viewN s' ns name = viewN s ns name) ∧ (∀ name, viewC s' name = viewC s name).

(** A read finds what is stored, and reports "not found" only when nothing is. *)
Record truthful : Prop := {
  readN : ∀ ns name s, same_views s (getN ns name s).1
    ∧ match (getN ns name s).2 with
      | inl p => viewN s ns name = Some p
      | inr e => IsNotFoundError e = true → viewN s ns name = None
      end;
  readC : ∀ name s, same_views s (getC name s).1
    ∧ match (getC name s).2 with
      | inl p => viewC s name = Some p
      | inr e => IsNotFoundError e = true → viewC s name = None
      end;
  newNotFound : ∀ name, IsNotFoundError (NewNotFound resource name) = true
}.

Definition namespacedResult (p : N) : PlaneResult N C := mkPlaneResult (Some p) None.
Definition clusterResult (p : C) : PlaneResult N C := mkPlaneResult None (Some p).

(** The documented resolution. *)
Definition resolved (s : S) (namespace : string) (ref : option PlaneRef) : option (PlaneResult N C) :=
  match ref with
  | Some r =>
      if bool_decide (refKind r = kindN) then namespacedResult <$> viewN s namespace (refName r)
      else if bool_decide (refKind r = kindC) then clusterResult <$> viewC s (refName r)
      else None
  | None =>
      match (if bool_decide (namespace = "") then None else viewN s namespace DefaultPlaneName) with
      | Some p => Some (namespacedResult p)
      | None => clusterResult <$> viewC s DefaultPlaneName
      end
  end.

(** What an answer says about what should be resolved. *)
Definition agrees_with (want : option (PlaneResult N C)) (r : PlaneResult N C + clientError) : Prop :=
  match r with
  | inl res => want = Some res
  | inr e => IsNotFoundError e = true → want = None
  end.

Lemma getDefaultCluster_agrees namespace s :
  truthful → agrees_with (clusterResult <$> viewC s DefaultPlaneName)
    (getDefaultCluster kindN kindC resource getC namespace s).2.
Proof.
  intros HT. unfold getDefaultCluster, attempt. rewrite CM_bind_eq.
  destruct (readC HT DefaultPlaneName s) as [_ H]. destruct (getC DefaultPlaneName s) as [s1 [p|e]]; cbn in *.
  { by rewrite H. }
  destruct (IsNotFoundError e) eqn:E; cbn; [|by rewrite IsNotFoundError_wrap, E].
  rewrite (H eq_refl). by case_bool_decide.
Qed.

Lemma getPlaneFromRef_agrees namespace ref s :
  truthful → agrees_with (resolved s namespace ref) (getPlaneFromRef kindN kindC resource getN getC namespace ref s).2.
Proof.
  intros HT. destruct ref as [r|]; cbn [getPlaneFromRef resolved].
  - case_bool_decide as HN; [|case_bool_decide as HC; [|done]].
    + unfold fetchNamespaced, orElse. rewrite CM_bind_eq. destruct (readN HT namespace (refName r) s) as [_ H].
      destruct (getN namespace (refName r) s) as [s1 [p|e]]; cbn in *; [by rewrite H|].
      destruct (IsNotFoundError e) eqn:E; [by rewrite (H eq_refl)|]. by rewrite IsNotFoundError_wrap, E.
    + unfold fetchCluster, orElse. rewrite CM_bind_eq. destruct (readC HT (refName r) s) as [_ H].
      destruct (getC (refName r) s) as [s1 [p|e]]; cbn in *; [by rewrite H|].
      destruct (IsNotFoundError e) eqn:E; [by rewrite (H eq_refl)|]. by rewrite IsNotFoundError_wrap, E.
  - unfold getDefaultPlane. case_bool_decide as Hns; cbn [negb]; [by apply getDefaultCluster_agrees|].
    unfold attempt. rewrite CM_bind_eq. destruct (readN HT namespace DefaultPlaneName s) as [[_ Hv] H].
    destruct (getN namespace DefaultPlaneName s) as [s1 [p|e]]; cbn in *; [by rewrite H|].
    destruct (IsNotFoundError e) eqn:E; cbn [negb].
    + rewrite (H eq_refl), <- Hv. by apply getDefaultCluster_agrees.
    + cbn. by rewrite IsNotFoundError_wrap, E.
Qed.

(** Without a namespace, or with a reference to the cluster's kind, the result
    is of the cluster. *)
Lemma getPlaneFromRef_cluster namespace ref s s' res :
  kindN ≠ kindC →
  match ref with Some r => refKind r = kindC | None => namespace = "" end →
  getPlaneFromRef kindN kindC resource getN getC namespace ref s = (s', inl res) →
  resNamespaced res = None.
Proof.
  intros Hne Href. destruct ref as [r|]; cbn [getPlaneFromRef].
  - rewrite bool_decide_eq_false_2 by congruence. rewrite bool_decide_eq_true_2 by done.
    unfold fetchCluster, orElse. rewrite CM_bind_eq. destruct (getC (refName r) s) as [s1 [p|e]]; [|done].
    by intros [= <- <-].
  - unfold getDefaultPlane. rewrite bool_decide_eq_true_2 by done. cbn [negb]. unfold getDefaultCluster, attempt.
    rewrite CM_bind_eq. destruct (getC DefaultPlaneName s) as [s1 [p|e]]; cbn; [by intros [= <- <-]|].
    by repeat case_match.
Qed.
End Kind.

(** ** The three kinds *)

(** A store of planes that is not written to while references are resolved. *)
Class PlaneViews := {
  dataPlanes : S → string → string → option DataPlane;
  clusterDataPlanes : S → string → option ClusterDataPlane;
  observabilityPlanes : S → string → string → option ObservabilityPlane;
  clusterObservabilityPlanes : S → string → option ClusterObservabilityPlane;
  workflowPlanes : S → string → string → option WorkflowPlane;
  clusterWorkflowPlanes : S → string → option ClusterWorkflowPlane;
  data_truthful : truthful "clusterdataplanes" getDataPlane getClusterDataPlane dataPlanes clusterDataPlanes;
  observability_truthful :
    truthful "clusterobservabilityplanes" getObservabilityPlane getClusterObservabilityPlane
      observabilityPlanes clusterObservabilityPlanes;
  workflow_truthful :
    truthful "clusterworkflowplanes" getWorkflowPlane getClusterWorkflowPlane workflowPlanes clusterWorkflowPlanes
}.
Context {PV : PlaneViews}.

(** On a store whose reads are truthful, a reference resolves to exactly the
    plane it names, and the absence of one to the default plane of the namespace
    and then of the cluster; an error that callers take for "not found" is
    returned only when there is no such plane. *)
Theorem references_resolve (namespace : string) (ref : option PlaneRef) (s : S) :
  agrees_with (resolved DataPlaneRefKindDataPlane DataPlaneRefKindClusterDataPlane dataPlanes clusterDataPlanes s namespace ref)
    (GetDataPlaneFromRef namespace ref s).2
  ∧ agrees_with (resolved ObservabilityPlaneRefKindObservabilityPlane ObservabilityPlaneRefKindClusterObservabilityPlane
                   observabilityPlanes clusterObservabilityPlanes s namespace ref)
      (GetObservabilityPlaneFromRef namespace ref s).2
  ∧ agrees_with (resolved WorkflowPlaneRefKindWorkflowPlane WorkflowPlaneRefKindClusterWorkflowPlane
                   workflowPlanes clusterWorkflowPlanes s namespace ref)
      (GetWorkflowPlaneFromRef namespace ref s).2.
Proof.
  split_and!; apply getPlaneFromRef_agrees; [apply data_truthful|apply observability_truthful|apply workflow_truthful].
Qed.

End Spec.

Section Scope.
Context {WT : WorkflowParts} {S : Type} {PS : PlaneStore S}.

(** A reference that the schema of a cluster-scoped object admits. *)
Definition clusterOnly (kind : string) (ref : option PlaneRef) : Prop := ∀ r, ref = Some r → refKind r = kind.

Lemma clusterObs_kind ref :
  clusterOnly ObservabilityPlaneRefKindClusterObservabilityPlane ref →
  match clusterObsRefToObsRef ref with
  | Some r => refKind r = ObservabilityPlaneRefKindClusterObservabilityPlane
  | None => "" = ""
  end.
Proof. destruct ref as [r|]; [|done]. intros H. exact (H r eq_refl). Qed.

(** What a cluster-scoped object uses is cluster-scoped: whatever a tenant
    creates in the namespace of a run, a cluster workflow runs on a cluster
    workflow plane and reports to a cluster observability plane, and a cluster
    data plane reports to a cluster observability plane. *)
Theorem cluster_scope_is_kept (cw : ClusterWorkflow) (namespace : string) (s s1 s2 : S)
    (r : WorkflowPlaneResult) (o : ObservabilityPlaneResult) (cdp : ClusterDataPlane) :
  clusterOnly WorkflowPlaneRefKindClusterWorkflowPlane (wfWorkflowPlaneRef (cwfSpec cw)) →
  (∀ p, resCluster r = Some p → clusterOnly ObservabilityPlaneRefKindClusterObservabilityPlane (cwpObservabilityPlaneRef (crSpec p))) →
  clusterOnly ObservabilityPlaneRefKindClusterObservabilityPlane (cdpObservabilityPlaneRef (crSpec cdp)) →
  GetWorkflowPlaneFromRef namespace (wfWorkflowPlaneRef (GetWorkflowSpec (mkWorkflowResult None (Some cw)))) s = (s1, inl r) →
  (workflowObservabilityPlane r s1 = (s2, inl o) ∨ observabilityPlaneOf (mkPlaneResult None (Some cdp)) s1 = (s2, inl o)) →
  resNamespaced r = None ∧ resNamespaced o = None.
Proof.
  intros Hw Ho Hc Hrun Hobs.
  assert (Hr : resNamespaced r = None).
  { eapply getPlaneFromRef_cluster; [|  |exact Hrun]; [discriminate|].
    cbn [GetWorkflowSpec resWorkflow resClusterWorkflow wfWorkflowPlaneRef].
    destruct (wfWorkflowPlaneRef (cwfSpec cw)) as [ref|]; [exact (Hw ref eq_refl)|done]. }
  split; [done|]. destruct Hobs as [Hobs|Hobs].
  - unfold workflowObservabilityPlane in Hobs. rewrite Hr in Hobs. destruct (resCluster r) as [p|]; [|done].
    eapply getPlaneFromRef_cluster; [|  |exact Hobs]; [discriminate|]. by apply clusterObs_kind, Ho.
  - eapply getPlaneFromRef_cluster; [|  |exact Hobs]; [discriminate|]. by apply clusterObs_kind.
Qed.
End Scope.
