(* ===== verification/ReleaseController.v ===== *)
(** * The rendered release controller

    [internal/controller/renderedrelease/controller.go] and
    [controller_finalize.go]: one reconciliation applies the resources of a
    release to its plane, deletes what is no longer wanted and records an
    inventory; deletion cleans the plane before the finalizer goes.  The API
    servers are the class [Cluster]: every call may change the state behind it
    and may fail.  A reconciliation is a computation of [EM] on that state and on
    the list of the calls it has made, with what each returned. *)

From S2P Require Import Prelude GoStrings GoValue RenderErrors ReleaseObjects PlaneObjects PlaneRefs.

#[local] Set Warnings "-register-all".

(** ** Constants *)

Definition ControllerName : string := "renderedrelease-controller".
Definition targetPlaneDataPlane : string := "dataplane".
Definition targetPlaneObservabilityPlane : string := "observabilityplane".
Definition ConditionResourcesApplied : string := "ResourcesApplied".
Definition ReasonApplySucceeded : string := "ApplySucceeded".
Definition ReasonApplyFailed : string := "ApplyFailed".
Definition DataPlaneCleanupFinalizer : string := "openchoreo.dev/dataplane-cleanup".
Definition ObsPlaneCleanupFinalizer : string := "openchoreo.dev/obsplane-cleanup".
Definition ConditionFinalizing : string := "Finalizing".
Definition ReasonCleanupInProgress : string := "CleanupInProgress".
Definition ReasonCleanupFailed : string := "CleanupFailed".
Definition AnnotationKeyRestartedAt : string := "openchoreo.dev/restartedAt".
Definition LabelKeyManagedBy : string := "openchoreo.dev/managed-by".
Definition LabelKeyCreatedBy : string := "openchoreo.dev/created-by".
Definition LabelKeyRenderedReleaseUID : string := "openchoreo.dev/rendered-release-uid".
Definition LabelKeyRenderedReleaseName : string := "openchoreo.dev/rendered-release-name".
Definition LabelKeyRenderedReleaseNamespace : string := "openchoreo.dev/rendered-release-namespace".
Definition LabelKeyNamespaceName : string := "openchoreo.dev/namespace".
Definition LabelKeyEnvironmentName : string := "openchoreo.dev/environment".
Definition LabelKeyProjectName : string := "openchoreo.dev/project".

Definition wellKnownDataPlaneGVKs : list GVK :=
  [mkGVK "" "v1" "Service"; mkGVK "" "v1" "ConfigMap"; mkGVK "" "v1" "Secret"; mkGVK "" "v1" "ServiceAccount";
   mkGVK "" "v1" "Namespace"; mkGVK "" "v1" "PersistentVolumeClaim";
   mkGVK appsAPIGroup "v1" deploymentKind; mkGVK appsAPIGroup "v1" statefulSetKind;
   mkGVK "batch" "v1" "Job"; mkGVK "batch" "v1" "CronJob";
   mkGVK "autoscaling" "v2" "HorizontalPodAutoscaler"; mkGVK "policy" "v1" "PodDisruptionBudget";
   mkGVK "networking.k8s.io" "v1" "NetworkPolicy"; mkGVK "networking.k8s.io" "v1" "Ingress";
   mkGVK "rbac.authorization.k8s.io" "v1" "Role"; mkGVK "rbac.authorization.k8s.io" "v1" "RoleBinding";
   mkGVK "rbac.authorization.k8s.io" "v1" "ClusterRole"; mkGVK "rbac.authorization.k8s.io" "v1" "ClusterRoleBinding";
   mkGVK "gateway.networking.k8s.io" "v1" "HTTPRoute"; mkGVK "gateway.networking.k8s.io" "v1" "Gateway"].

Definition wellKnownObservabilityPlaneGVKs : list GVK := [mkGVK "openchoreo.dev" "v1alpha1" "ObservabilityAlertRule"].

(** ** Interfaces *)

(** An error of the API server with its classification. *)
Record apiError := mkAPIError { apiErr : goerr; IsNotFound : bool; IsAlreadyExists : bool; IsNoMatchError : bool }.

Record NamespaceObj := mkNamespace { nsName : string; nsLabels : gmap string string }.

Section Controller.
Context {U : Unstructured} {K : Converter} {Q : SemanticEquality} {SC : StatusConditions} {FZ : Finalizers}.

(** The control plane, the target planes and the clients of the planes. *)
Class Cluster := {
  CPState : Type;
  PlaneState : Type;
  PlaneClient : Type;
  cp_Get : string → string → CPState → CPState * (RenderedRelease + apiError);
  cp_Update : RenderedRelease → CPState → CPState * option goerr;
  cp_StatusUpdate : RenderedRelease → CPState → CPState * option goerr;
  cp_parts : WorkflowParts;
  cp_store : PlaneStore CPState;
  cp_provider : option (Provider CPState PlaneClient);
  plane_Apply : PlaneClient → Obj → PlaneState → PlaneState * eres Obj;
  plane_List : PlaneClient → GVK → gmap string string → PlaneState → PlaneState * (list Obj + apiError);
  plane_Delete : PlaneClient → Obj → PlaneState → PlaneState * option goerr;
  plane_GetNamespace : PlaneClient → string → PlaneState → PlaneState * option apiError;
  plane_CreateNamespace : PlaneClient → NamespaceObj → PlaneState → PlaneState * option apiError
}.
Context {CL : Cluster}.
#[local] Existing Instances cp_parts cp_store.

(** The order in which a set of kinds or of namespaces is iterated, and the
    random jitter: a fifth of an interval in floating point, and a random number
    below a bound. *)
Class Nondeterminism := {
  gvkOrder : list GVK → list GVK;
  nsOrder : list NamespaceObj → list NamespaceObj;
  fifth : Z → Z;
  rand_Intn : Z → Z
}.
Context {ND : Nondeterminism}.

(** The calls of a reconciliation and what they returned. *)
Inductive call :=
  | CUpdate (r : RenderedRelease) (err : option goerr)
  | CStatusUpdate (r : RenderedRelease) (err : option goerr)
  | CApply (o : Obj) (answer : eres Obj)
  | CList (gvk : GVK) (selector : gmap string string) (answer : list Obj + apiError)
  | CDelete (o : Obj) (err : option goerr)
  | CNamespace (ns : NamespaceObj).

Record World := mkWorld { cpOf : CPState; planeOf : PlaneState; calls : list call }.

Definition onCP {A} (f : CPState → CPState * A) : EM World A := λ w,
  let '(cp, a) := f (cpOf w) in (mkWorld cp (planeOf w) (calls w), Val a).
Definition onPlane {A} (f : PlaneState → PlaneState * A) : EM World A := λ w,
  let '(pl, a) := f (planeOf w) in (mkWorld (cpOf w) pl (calls w), Val a).
Definition record (c : call) : EM World unit := λ w, (mkWorld (cpOf w) (planeOf w) (calls w ++ [c]), Val ()).

Definition liftE {A} (r : eres A) : EM World A := λ w, (w, r).

(** ** Calls *)

Definition Update (r : RenderedRelease) : EM World unit :=
  err ← onCP (cp_Update r);
  record (CUpdate r err) ≫= λ _, match err with Some e => throw e | None => mret () end.

Definition StatusUpdate (r : RenderedRelease) : EM World unit :=
  err ← onCP (cp_StatusUpdate r);
  record (CStatusUpdate r err) ≫= λ _, match err with Some e => throw e | None => mret () end.

(** The clients of the planes of an environment, through its references. *)
Definition environmentOf (ns environmentName : string) : CM CPState EnvironmentCR :=
  orElse (getEnvironment ns environmentName) (wrapErrorf ("failed to get environment " +:+ environmentName +:+ ": ")).

Definition dataPlaneOf (ns environmentName : string) : CM CPState (DataPlaneResult) :=
  env ← environmentOf ns environmentName;
  orElse (GetDataPlaneFromRef (metaNamespace (envMeta env)) (envDataPlaneRef env))
    (wrapErrorf ("failed to resolve dataplane for environment " +:+ environmentName +:+ ": ")).

Definition dpClientOf (ns environmentName : string) : CM CPState PlaneClient :=
  r ← dataPlaneOf ns environmentName;
  orElse (GetDataPlaneK8sClient r cp_provider)
    (wrapErrorf ("failed to create dataplane client for " +:+ resultName r +:+ ": ")).

Definition opClientOf (ns environmentName : string) : CM CPState PlaneClient :=
  r ← dataPlaneOf ns environmentName;
  obs ← orElse (observabilityPlaneOf r)
    (wrapErrorf ("failed to resolve observability plane for dataplane " +:+ resultName r +:+ ": "));
  orElse (GetObservabilityPlaneK8sClient obs cp_provider)
    (wrapErrorf ("failed to create observability plane client for " +:+ resultName obs +:+ ": ")).

(** The release controller looks at the text of these errors only. *)
Definition eresOf {A} (r : A + clientError) : eres A :=
  match r with inl a => Val a | inr e => Fail (errorf (ceText e)) end.

Definition getDPClient (ns environmentName : string) : EM World PlaneClient :=
  r ← onCP (dpClientOf ns environmentName); liftE (eresOf r).
Definition getOPClient (ns environmentName : string) : EM World PlaneClient :=
  r ← onCP (opClientOf ns environmentName); liftE (eresOf r).

Definition UpdateStatusConditions (current updated : RenderedRelease) : EM World unit :=
  if NeedConditionUpdate (GetConditions current) (GetConditions updated)
  then StatusUpdate (SetConditions current (GetConditions updated))
  else mret ().

(** ** Desired state *)

Definition injectRestartedAt (o : Obj) (value : string) : eres Obj :=
  let gvk := GroupVersionKind o in
  if negb (bool_decide (gvkGroup gvk = appsAPIGroup)) || negb (bool_decide (gvkKind gvk = deploymentKind)) then Val o
  else
    match PodAnnotations o with
    | Fail err => Fail (wrapf "read pod template annotations: " err "")
    | Val annotations =>
        match SetPodAnnotations o (<[AnnotationKeyRestartedAt := value]> annotations) with
        | Fail err => Fail (wrapf "set pod template annotations: " err "")
        | Val o => Val o
        end
    end.

Definition trackingLabels (release : RenderedRelease) (id : string) (ls : gmap string string) : gmap string string :=
  <[LabelKeyRenderedReleaseNamespace := relNamespace release]>
  (<[LabelKeyRenderedReleaseName := relName release]>
  (<[LabelKeyRenderedReleaseUID := relUID release]>
  (<[LabelKeyRenderedReleaseResourceID := id]>
  (<[LabelKeyManagedBy := ControllerName]> ls)))).

Definition desiredObject (release : RenderedRelease) (restartedAt : string) (m : RenderedManifest) : eres Obj :=
  match UnmarshalObj (manifestRaw m) with
  | Fail err => Fail (wrapf ("failed to unmarshal resource " +:+ manifestID m +:+ ": ") err "")
  | Val o =>
      let o := SetLabels o (trackingLabels release (manifestID m) (GetLabels o)) in
      if bool_decide (restartedAt = "") then Val o
      else
        match injectRestartedAt o restartedAt with
        | Fail err => Fail (wrapf ("failed to inject restartedAt on resource " +:+ manifestID m +:+ ": ") err "")
        | Val o => Val o
        end
  end.

Fixpoint desiredObjects (release : RenderedRelease) (restartedAt : string) (ms : list RenderedManifest) : eres (list Obj) :=
  match ms with
  | [] => Val []
  | m :: ms =>
      match desiredObject release restartedAt m with
      | Fail err => Fail err
      | Val o => match desiredObjects release restartedAt ms with Fail err => Fail err | Val os => Val (o :: os) end
      end
  end.

Definition makeDesiredResources (release : RenderedRelease) : eres (list Obj) :=
  desiredObjects release (default "" (relAnnotations release !! AnnotationKeyRestartedAt)) (relResources release).

(** ** Namespaces of the observability plane *)

Definition namespaceLabels (release : RenderedRelease) : gmap string string :=
  <[LabelKeyProjectName := relProject release]>
  (<[LabelKeyEnvironmentName := relEnvironment release]>
  (<[LabelKeyNamespaceName := relNamespace release]>
  (<[LabelKeyRenderedReleaseUID := relUID release]>
  (<[LabelKeyRenderedReleaseNamespace := relNamespace release]>
  (<[LabelKeyRenderedReleaseName := relName release]>
  {[LabelKeyCreatedBy := ControllerName]}))))).

Fixpoint namespaceSet (os : list Obj) (seen : list string) : list string :=
  match os with
  | [] => seen
  | o :: os =>
      let ns := GetNamespace o in
      namespaceSet os (if bool_decide (ns = "") || bool_decide (ns ∈ seen) then seen else seen ++ [ns])
  end.

Definition makeDesiredNamespaces (release : RenderedRelease) (os : list Obj) : list NamespaceObj :=
  nsOrder ((λ ns, mkNamespace ns (namespaceLabels release)) <$> namespaceSet os []).

Definition ensureNamespace (c : PlaneClient) (ns : NamespaceObj) : EM World unit :=
  err ← onPlane (plane_GetNamespace c (nsName ns));
  match err with
  | None => mret ()
  | Some e =>
      if negb (IsNotFound e) then throw (wrapf ("failed to check namespace " +:+ nsName ns +:+ ": ") (apiErr e) "")
      else
        record (CNamespace ns) ≫= λ _,
        err ← onPlane (plane_CreateNamespace c ns);
        match err with
        | None => mret ()
        | Some e => if IsAlreadyExists e then mret ()
                    else throw (wrapf ("failed to create namespace " +:+ nsName ns +:+ ": ") (apiErr e) "")
        end
  end.

Definition ensureNamespaces (c : PlaneClient) (nss : list NamespaceObj) : EM World unit := eForEach (ensureNamespace c) nss.

(** ** Applying *)

(** The client replaces the object by the server's answer. *)
Definition applyOne (c : PlaneClient) (o : Obj) : EM World Obj :=
  answer ← onPlane (plane_Apply c o);
  record (CApply o answer) ≫= λ _,
  mapErr (λ e, wrapf ("failed to apply resource " +:+ resourceID o +:+ ": ") e "") (liftE answer).

Definition applyResources (c : PlaneClient) (os : list Obj) : EM World (list Obj) := eMap (applyOne c) os.

(** ** Discovery *)

Definition statusGVK (s : ManifestStatus) : GVK := mkGVK (msGroup s) (msVersion s) (msKind s).

Definition findAllKnownGVKs (desired : list Obj) (applied : list ManifestStatus) (targetPlane : string) : list GVK :=
  gvkOrder (remove_dups ((GroupVersionKind <$> desired) ++ (statusGVK <$> applied)
    ++ (if bool_decide (targetPlane = targetPlaneObservabilityPlane)
        then wellKnownObservabilityPlaneGVKs else wellKnownDataPlaneGVKs))).

Definition managedSelector (release : RenderedRelease) : gmap string string :=
  <[LabelKeyRenderedReleaseUID := relUID release]> {[LabelKeyManagedBy := ControllerName]}.

Fixpoint listLiveResourcesByGVKs (c : PlaneClient) (release : RenderedRelease) (gvks : list GVK) : EM World (list Obj) :=
  match gvks with
  | [] => mret []
  | gvk :: gvks =>
      answer ← onPlane (plane_List c gvk (managedSelector release));
      record (CList gvk (managedSelector release) answer) ≫= λ _,
      match answer with
      | inl items => rest ← listLiveResourcesByGVKs c release gvks; mret (items ++ rest)
      | inr e =>
          if IsNoMatchError e then listLiveResourcesByGVKs c release gvks
          else throw (wrapf ("failed to list resources for " +:+ gvkGroup gvk +:+ "/" +:+ gvkVersion gvk
                             +:+ ", Kind=" +:+ gvkKind gvk +:+ ": ") (apiErr e) "")
      end
  end.

(** ** Deletion *)

Definition findStaleResources (live desired : list Obj) : list Obj :=
  let desiredResourceIDs := filter (λ id, id ≠ "") (resourceID <$> desired) in
  filter (λ o, resourceID o ≠ "" ∧ resourceID o ∉ desiredResourceIDs) live.

Definition deleteOne (c : PlaneClient) (o : Obj) : EM World unit :=
  if GetDeletionTimestamp o then mret ()
  else
    err ← onPlane (plane_Delete c o);
    record (CDelete o err) ≫= λ _,
    match err with
    | Some e => throw (wrapf ("failed to delete stale resource " +:+ resourceID o +:+ ": ") e "")
    | None => mret ()
    end.

Definition deleteResources (c : PlaneClient) (os : list Obj) : EM World unit := eForEach (deleteOne c) os.

(** ** Status *)

(** Whether the status was written. *)
Definition updateStatus (old release : RenderedRelease) (statuses : list ManifestStatus) : EM World (RenderedRelease * bool) :=
  let release := SetResources release statuses in
  if equalStatus (relStatus old) (relStatus release) then mret (release, false)
  else
    mapErr (λ e, wrapf "failed to update status: " e "") (StatusUpdate release) ≫= λ _, mret (release, true).

(** ** Requeueing *)

Definition minute : Z := 60000000000.
Definition second : Z := 1000000000.

(** A [time.Duration] is a signed number of 64 bits, and addition wraps. *)
Definition duration (x : Z) : Z := ((x + 2 ^ 63) mod 2 ^ 64 - 2 ^ 63)%Z.

Definition addJitter (base maxJitter : Z) : Z :=
  if (maxJitter <=? 0)%Z then base else duration (base + rand_Intn maxJitter).

Definition jitteredInterval (configured : option Z) (standard : Z) : Z :=
  match configured with
  | Some 0%Z => 0
  | Some interval => addJitter interval (fifth interval)
  | None => addJitter standard (fifth standard)
  end.

Definition getStableRequeueInterval (release : RenderedRelease) : Z := jitteredInterval (relInterval release) (5 * minute).
Definition getResurrectableRequeueInterval : Z := addJitter minute (fifth minute).
Definition getProgressingRequeueInterval (release : RenderedRelease) : Z :=
  jitteredInterval (relProgressingInterval release) (10 * second).

(** ** Finalization *)

Definition finalizingCondition (now : Z) (generation : Z) : Condition :=
  NewCondition now ConditionFinalizing ConditionTrue ReasonCleanupInProgress "Cleaning up dataplane resources" generation.

Definition cleanupFailedCondition (now : Z) (generation : Z) (err : goerr) : Condition :=
  NewCondition now ConditionFinalizing ConditionTrue ReasonCleanupFailed (Error err) generation.

Definition ensureFinalizer (release : RenderedRelease) : EM World (RenderedRelease * bool) :=
  if relDeleting release then mret (release, false)
  else
    let finalizer :=
      if bool_decide (relTargetPlane release = targetPlaneObservabilityPlane) then ObsPlaneCleanupFinalizer
      else DataPlaneCleanupFinalizer in
    let '(fs, added) := AddFinalizer (relFinalizers release) finalizer in
    if added then
      let release := withFinalizers release fs in Update release ≫= λ _, mret (release, true)
    else mret (release, false).

(** A step of the cleanup that failed: the condition is set and written, and
    the error is returned unless writing failed. *)
Definition orCleanupFailed {A} (now : Z) (old release : RenderedRelease) (what : string) (m : EM World A) : EM World A :=
  r ← try m;
  match r with
  | Val a => mret a
  | Fail err =>
      let release := SetConditions release
        (SetStatusCondition (GetConditions release) (cleanupFailedCondition now (relGeneration release) err)).1 in
      UpdateStatusConditions old release ≫= λ _, throw (wrapf what err "")
  end.

(** The steps both planes share, with the finalizer, the client and the kinds
    of the plane. *)
Definition cleanup (now : Z) (old release : RenderedRelease) (finalizer clientError : string)
    (getClient : EM World PlaneClient) (gvks : list GVK) : EM World Z :=
  let '(conditions, changed) := SetStatusCondition (GetConditions release) (finalizingCondition now (relGeneration release)) in
  let release := SetConditions release conditions in
  if changed then UpdateStatusConditions old release ≫= λ _, mret 0%Z
  else
    c ← orCleanupFailed now old release clientError getClient;
    live ← orCleanupFailed now old release "failed to list live resources for cleanup: " (listLiveResourcesByGVKs c release gvks);
    orCleanupFailed now old release "failed to delete resources during finalization: " (deleteResources c live) ≫= λ _,
    if negb (bool_decide (length live = 0)) then mret (5 * second)%Z
    else
      let '(fs, removed) := RemoveFinalizer (relFinalizers release) finalizer in
      (if removed : bool then Update (withFinalizers release fs) else mret ()) ≫= λ _, mret 0%Z.

Definition finalizeDataPlane (now : Z) (old release : RenderedRelease) : EM World Z :=
  if negb (ContainsFinalizer (relFinalizers release) DataPlaneCleanupFinalizer) then mret 0%Z
  else
    cleanup now old release DataPlaneCleanupFinalizer "failed to get dataplane client for finalization: "
      (getDPClient (relNamespace release) (relEnvironment release))
      (findAllKnownGVKs [] (stResources (relStatus release)) targetPlaneDataPlane).

(** The kinds of the inventory that are on the list, each once, in order. *)
Definition intersectObsPlaneGVKs (release : RenderedRelease) : list GVK :=
  filter (λ g, g ∈ wellKnownObservabilityPlaneGVKs)
    (rev (remove_dups (rev (statusGVK <$> stResources (relStatus release))))).

Definition finalizeObsPlane (now : Z) (old release : RenderedRelease) : EM World Z :=
  let fs := relFinalizers release in
  if negb (ContainsFinalizer fs ObsPlaneCleanupFinalizer) && negb (ContainsFinalizer fs DataPlaneCleanupFinalizer) then mret 0%Z
  else
    let activeFinalizer :=
      if ContainsFinalizer fs ObsPlaneCleanupFinalizer then ObsPlaneCleanupFinalizer else DataPlaneCleanupFinalizer in
    cleanup now old release activeFinalizer "failed to get observability plane client for finalization: "
      (getOPClient (relNamespace release) (relEnvironment release)) (intersectObsPlaneGVKs release).

Definition finalize (now : Z) (old release : RenderedRelease) : EM World Z :=
  if bool_decide (relTargetPlane release = targetPlaneObservabilityPlane) then finalizeObsPlane now old release
  else finalizeDataPlane now old release.

(** ** Reconciliation *)

Definition targetPlaneOr (targetPlane : string) : string :=
  if bool_decide (targetPlane = "") then targetPlaneDataPlane else targetPlane.

Definition planeClient (release : RenderedRelease) : EM World PlaneClient :=
  if bool_decide (targetPlaneOr (relTargetPlane release) = targetPlaneObservabilityPlane)
  then getOPClient (relNamespace release) (relEnvironment release)
  else getDPClient (relNamespace release) (relEnvironment release).

(** Apply; on failure the condition is written when it changed, an error of
    that write is only logged, and the error is returned. *)
Definition applyOrReport (now : Z) (release : RenderedRelease) (c : PlaneClient) (os : list Obj) : EM World (list Obj) :=
  r ← try (applyResources c os);
  match r with
  | Val os => mret os
  | Fail err =>
      let '(release, changed) := MarkFalseCondition now release ConditionResourcesApplied ReasonApplyFailed
        ("Failed to apply resources to target plane: " +:+ Error err) in
      (if changed : bool then try (StatusUpdate release) ≫= λ _, mret () else mret ()) ≫= λ _, throw err
  end.

(** From the applied resources to the requeue interval. *)
Definition settle (now : Z) (old release : RenderedRelease) (c : PlaneClient) (desired : list Obj) : EM World Z :=
  let release := (MarkTrueCondition now release ConditionResourcesApplied ReasonApplySucceeded "All resources applied successfully").1 in
  let gvks := findAllKnownGVKs desired (stResources (relStatus release)) (targetPlaneOr (relTargetPlane release)) in
  live ← listLiveResourcesByGVKs c release gvks;
  deleteResources c (findStaleResources live desired) ≫= λ _,
  let statuses := buildResourceStatus now old desired live in
  '(release, updated) ← updateStatus old release statuses;
  if updated : bool then mret 0%Z
  else if hasTransitioningResources (stResources (relStatus release)) then mret (getProgressingRequeueInterval release)
  else if hasResurrectableWorkload desired live then mret getResurrectableRequeueInterval
  else mret (getStableRequeueInterval release).

(** A release that is there and not being deleted. *)
Definition reconcileRelease (now : Z) (old : RenderedRelease) : EM World Z :=
  '(release, added) ← ensureFinalizer old;
  if added : bool then mret 0%Z
  else
    c ← planeClient release;
    desired ← liftE (makeDesiredResources release);
    (if bool_decide (targetPlaneOr (relTargetPlane release) = targetPlaneObservabilityPlane)
     then ensureNamespaces c (makeDesiredNamespaces release desired) else mret ()) ≫= λ _,
    desired ← applyOrReport now release c desired;
    settle now old release c desired.

(** [Reconcile] with the time of the call; the result is the interval after
    which the release is queued again, zero for none. *)
Definition Reconcile (now : Z) (ns name : string) : EM World Z :=
  r ← onCP (cp_Get ns name);
  match r with
  | inr e => if IsNotFound e then mret 0%Z else throw (apiErr e)
  | inl release => if relDeleting release then finalize now release release else reconcileRelease now release
  end.
End Controller.
