(* ===== verification/ReleaseSpec.v ===== *)
(** * Rendered releases: what a reconciliation does to the plane

    Properties of the calls of one reconciliation, whatever the API servers
    answer: what is deleted and when, when the finalizer goes, what the status
    says when it is written.  [issues m Q] states that every run of [m] adds
    calls to the list that are in [Q] with what it returns. *)

From S2P Require Import Prelude GoStrings GoValue RenderErrors ReleaseObjects PlaneObjects PlaneRefs ReleaseController.

#[local] Set Warnings "-register-all".

Section Issues.
Context {U : Unstructured} {CL : Cluster}.

Definition issues {A} (m : EM World A) (Q : list call → eres A → Prop) : Prop := ∀ w, ∃ new,
  calls (m w).1 = calls w ++ new ∧ Q new (m w).2.

Lemma issues_weaken {A} (m : EM World A) (Q R : list call → eres A → Prop) :
  issues m Q → (∀ new r, Q new r → R new r) → issues m R.
Proof. intros Hm HQR w. destruct (Hm w) as (new & ? & ?). exists new. auto. Qed.

Lemma issues_ret {A} (a : A) (Q : list call → eres A → Prop) : Q [] (Val a) → issues (mret a) Q.
Proof. intros HQ w. exists []. by rewrite app_nil_r. Qed.

Lemma issues_throw {A} err (Q : list call → eres A → Prop) : Q [] (Fail err) → issues (throw err) Q.
Proof. intros HQ w. exists []. by rewrite app_nil_r. Qed.

Lemma issues_liftE {A} (r : eres A) (Q : list call → eres A → Prop) : Q [] r → issues (liftE r) Q.
Proof. intros HQ w. exists []. by rewrite app_nil_r. Qed.

Lemma issues_bind {A B} (m : EM World A) (k : A → EM World B) Q (R : list call → eres B → Prop) :
  issues m Q → (∀ new err, Q new (Fail err) → R new (Fail err)) →
  (∀ n1 a, Q n1 (Val a) → issues (k a) (λ n2 r, R (n1 ++ n2) r)) →
  issues (m ≫= k) R.
Proof.
  intros Hm HF Hk w. rewrite bind_eq. destruct (Hm w) as (n1 & H1 & HQ).
  destruct (m w) as [w1 [a|err]]; cbn [fst snd] in *; [|exists n1; auto].
  destruct (Hk n1 a HQ w1) as (n2 & H2 & HR). exists (n1 ++ n2). by rewrite H2, H1, app_assoc.
Qed.

Lemma issues_mapErr {A} f (m : EM World A) (Q : list call → eres A → Prop) :
  issues m (λ new r, Q new match r with Val a => Val a | Fail err => Fail (f err) end) → issues (mapErr f m) Q.
Proof.
  intros Hm w. unfold mapErr. destruct (Hm w) as (new & H1 & HQ). exists new.
  by destruct (m w) as [w1 [a|err]].
Qed.

Lemma issues_try {A} (m : EM World A) (Q : list call → eres A → Prop) (R : list call → eres (eres A) → Prop) :
  issues m Q → (∀ new r, Q new r → R new (Val r)) → issues (try m) R.
Proof. intros Hm HR w. destruct (Hm w) as (new & H1 & HQ). exists new. split; [done|]. by apply HR. Qed.

Lemma issues_onPlane {A} (f : PlaneState → PlaneState * A) : issues (onPlane f) (λ new r, new = [] ∧ ∃ a, r = Val a).
Proof. intros w. exists []. unfold onPlane. destruct (f _). cbn. rewrite app_nil_r. eauto. Qed.

Lemma issues_onCP {A} (f : CPState → CPState * A) : issues (onCP f) (λ new r, new = [] ∧ ∃ a, r = Val a).
Proof. intros w. exists []. unfold onCP. destruct (f _). cbn. rewrite app_nil_r. eauto. Qed.

Lemma issues_record c : issues (record c) (λ new r, new = [c] ∧ r = Val ()).
Proof. intros w. by exists [c]. Qed.

(** A call: what the server answers is recorded, and the rest goes on with it. *)
Lemma issues_plane {A B} (f : PlaneState → PlaneState * A) (mk : A → call) (k : A → EM World B) Q :
  (∀ a, issues (k a) (λ n r, Q (mk a :: n) r)) →
  issues (onPlane f ≫= λ a, record (mk a) ≫= λ _, k a) Q.
Proof.
  intros Hk. eapply issues_bind; [apply issues_onPlane|by intros new err [_ [a ?]]|].
  intros n1 a [-> _]. eapply issues_bind; [apply issues_record|by intros new err [_ ?]|].
  intros n2 u [-> _]. exact (Hk a).
Qed.

Lemma issues_cp {A B} (f : CPState → CPState * A) (mk : A → call) (k : A → EM World B) Q :
  (∀ a, issues (k a) (λ n r, Q (mk a :: n) r)) →
  issues (onCP f ≫= λ a, record (mk a) ≫= λ _, k a) Q.
Proof.
  intros Hk. eapply issues_bind; [apply issues_onCP|by intros new err [_ [a ?]]|].
  intros n1 a [-> _]. eapply issues_bind; [apply issues_record|by intros new err [_ ?]|].
  intros n2 u [-> _]. exact (Hk a).
Qed.
End Issues.

Section Spec.
Context {U : Unstructured} {K : Converter} {Q : SemanticEquality} {SC : StatusConditions} {FZ : Finalizers}.
Context {CL : Cluster} {ND : Nondeterminism}.

(** ** The parts *)

(** The listing of a sequence of kinds: one call each, with its items, or none
    for a kind the plane does not know. *)
Inductive listing (release : RenderedRelease) : list GVK → list call → list Obj → Prop :=
  | listing_nil : listing release [] [] []
  | listing_items g gs items new live :
      listing release gs new live →
      listing release (g :: gs) (CList g (managedSelector release) (inl items) :: new) (items ++ live)
  | listing_unknown g gs e new live :
      IsNoMatchError e = true → listing release gs new live →
      listing release (g :: gs) (CList g (managedSelector release) (inr e) :: new) live.

Definition is_list (c : call) : Prop := match c with CList _ _ _ => True | _ => False end.

Lemma listLive_issues c release gvks :
  issues (listLiveResourcesByGVKs c release gvks) (λ new r,
    Forall is_list new ∧ ∀ live, r = Val live → listing release gvks new live).
Proof.
  induction gvks as [|g gs IH]; cbn [listLiveResourcesByGVKs].
  { apply issues_ret. split; [constructor|]. intros live [= <-]. constructor. }
  apply issues_plane. intros [items|e].
  - eapply issues_bind; [exact IH|by intros new err [H _]; split; [constructor|]|].
    intros n1 rest [HF Hl]. apply issues_ret. rewrite app_nil_r. split; [by constructor|].
    intros live [= <-]. constructor. by apply Hl.
  - destruct (IsNoMatchError e) eqn:E.
    + eapply issues_weaken; [exact IH|]. intros new r [HF Hl]. split; [by constructor|]. intros live Hr. constructor; auto.
    + apply issues_throw. split; [by repeat constructor|done].
Qed.

Lemma listing_elem release gvks new live o :
  listing release gvks new live → o ∈ live →
  ∃ g items, CList g (managedSelector release) (inl items) ∈ new ∧ o ∈ items ∧ g ∈ gvks.
Proof.
  induction 1 as [|g gs items new live _ IH|g gs e new live _ _ IH].
  - by intros ?%elem_of_nil.
  - intros [Hi|Hl]%elem_of_app; [exists g, items; split_and!; [left|done|left]|].
    destruct (IH Hl) as (g' & items' & ? & ? & ?). exists g', items'. split_and!; [by right|done|by right].
  - intros Hl. destruct (IH Hl) as (g' & items' & ? & ? & ?). exists g', items'. split_and!; [by right|done|by right].
Qed.

(** Every kind was listed and found empty, or is unknown to the plane. *)
Lemma listing_empty release gvks new g :
  listing release gvks new [] → g ∈ gvks →
  CList g (managedSelector release) (inl []) ∈ new
  ∨ ∃ e, IsNoMatchError e = true ∧ CList g (managedSelector release) (inr e) ∈ new.
Proof.
  remember [] as live eqn:El.
  induction 1 as [|g' gs items new live _ IH|g' gs e new live He _ IH]; intros Hg.
  - by apply elem_of_nil in Hg.
  - apply app_eq_nil in El as [-> ->]. apply elem_of_cons in Hg as [->|Hg]; [left; left|].
    destruct (IH eq_refl Hg) as [?|(e & ? & ?)]; [left; by right|right; exists e; split; [done|by right]].
  - apply elem_of_cons in Hg as [->|Hg]; [right; exists e; split; [done|left]|].
    destruct (IH El Hg) as [?|(e' & ? & ?)]; [left; by right|right; exists e'; split; [done|by right]].
Qed.

(** Deletions: of objects that are not terminating, in order. *)
Definition deletes_of (os : list Obj) (new : list call) : Prop :=
  ∀ c, c ∈ new → ∃ o err, c = CDelete o err ∧ o ∈ os ∧ GetDeletionTimestamp o = false.

Lemma deleteOne_issues c o :
  issues (deleteOne c o) (λ new r, deletes_of [o] new ∧
    (r = Val () → GetDeletionTimestamp o = false → CDelete o None ∈ new)).
Proof.
  unfold deleteOne. destruct (GetDeletionTimestamp o) eqn:Et.
  { apply issues_ret. split; [by intros c' ?%elem_of_nil|done]. }
  apply issues_plane. intros err.
  assert (HD : deletes_of [o] [CDelete o err]).
  { intros c' ->%list_elem_of_singleton. exists o, err. split_and!; [done|by apply list_elem_of_singleton|done]. }
  destruct err; [by apply issues_throw|]. apply issues_ret. split; [done|]. intros _ _. left.
Qed.

Lemma deletes_of_subset os os' new : os ⊆ os' → deletes_of os new → deletes_of os' new.
Proof. intros Hs HD c Hc. destruct (HD c Hc) as (o & err & ? & ? & ?). exists o, err. auto. Qed.

Lemma deletes_of_app os n1 n2 : deletes_of os n1 → deletes_of os n2 → deletes_of os (n1 ++ n2).
Proof. intros H1 H2 c [Hc|Hc]%elem_of_app; auto. Qed.

Lemma deleteResources_issues c os :
  issues (deleteResources c os) (λ new r, deletes_of os new ∧
    (r = Val () → ∀ o, o ∈ os → GetDeletionTimestamp o = false → CDelete o None ∈ new)).
Proof.
  induction os as [|o os IH]; cbn [deleteResources eForEach].
  { apply issues_ret. split; [by intros c' ?%elem_of_nil|]. by intros _ o ?%elem_of_nil. }
  eapply issues_bind; [apply deleteOne_issues| |].
  - intros new err [HD _]. split; [|done]. eapply deletes_of_subset; [|exact HD]. set_solver.
  - intros n1 [] [HD1 HV1]. eapply issues_weaken; [exact IH|]. intros n2 r [HD2 HV2]. split.
    + apply deletes_of_app; eapply deletes_of_subset; try eassumption; set_solver.
    + intros Hr x [->|Hx]%elem_of_cons Hd; apply elem_of_app; [left; by apply HV1|right; by apply HV2].
Qed.

(** Applications: one per object, with the answers that replace the objects. *)
Definition is_apply (c : call) : Prop := match c with CApply _ _ => True | _ => False end.

Lemma applyResources_issues c os :
  issues (applyResources c os) (λ new r, Forall is_apply new ∧
    ∀ applied, r = Val applied → new = zip_with (λ o a, CApply o (Val a)) os applied ∧ length applied = length os).
Proof.
  induction os as [|o os IH]; cbn [applyResources eMap].
  { apply issues_ret. split; [constructor|]. by intros applied [= <-]. }
  apply (issues_bind _ _ (λ new r, Forall is_apply new ∧ ∀ a, r = Val a → new = [CApply o (Val a)])).
  - unfold applyOne. apply issues_plane. intros answer. apply issues_mapErr, issues_liftE.
    split; [by repeat constructor|]. intros a Ha. by destruct answer; simplify_eq.
  - by intros new err [HF _].
  - intros n1 a [HF1 Ha]. rewrite (Ha a eq_refl) in *. eapply issues_bind; [exact IH| |].
    + intros new err [HF2 _]. split; [by constructor|done].
    + intros n2 rest [HF2 Hr]. apply issues_ret. rewrite app_nil_r. split; [by constructor|].
      intros applied [= <-]. destruct (Hr rest eq_refl) as [-> Hl]. cbn. by rewrite Hl.
Qed.

Lemma StatusUpdate_issues r : issues (StatusUpdate r) (λ new res, ∃ err, new = [CStatusUpdate r err] ∧ (res = Val () → err = None)).
Proof.
  unfold StatusUpdate. apply issues_cp. intros [e|]; [apply issues_throw|apply issues_ret]; by eexists.
Qed.

Lemma Update_issues r : issues (Update r) (λ new res, ∃ err, new = [CUpdate r err] ∧ (res = Val () → err = None)).
Proof.
  unfold Update. apply issues_cp. intros [e|]; [apply issues_throw|apply issues_ret]; by eexists.
Qed.

(** Calls to a control plane or about namespaces, which are neither lists nor
    deletions nor status updates. *)
Lemma getClient_silent f : issues (onCP f ≫= λ r : PlaneClient + clientError, liftE (eresOf r)) (λ new r, new = []).
Proof.
  eapply issues_bind; [apply issues_onCP|by intros new err [-> _]|].
  intros n1 r [-> _]. by apply issues_liftE.
Qed.

Lemma planeClient_silent release : issues (planeClient release) (λ new r, new = []).
Proof. unfold planeClient. case_goal; apply getClient_silent. Qed.

Definition is_namespace (c : call) : Prop := match c with CNamespace _ => True | _ => False end.

Lemma ensureNamespaces_issues c nss : issues (ensureNamespaces c nss) (λ new r, Forall is_namespace new).
Proof.
  induction nss as [|ns nss IH]; cbn [ensureNamespaces eForEach]; [by apply issues_ret|].
  apply (issues_bind _ _ (λ new r, Forall is_namespace new)); [|done|].
  - unfold ensureNamespace. eapply issues_bind; [apply issues_onPlane|by intros new err [_ [a ?]]|].
    intros n1 [e|] [-> _]; [|by apply issues_ret]. case_goal; [by apply issues_throw|].
    eapply issues_bind; [apply issues_record|by intros new err [_ ?]|]. intros n2 [] [-> _].
    eapply issues_bind; [apply issues_onPlane|by intros new err [_ [a ?]]|].
    intros n3 [e'|] [-> _]; [case_goal|]; try (apply issues_ret; by repeat constructor).
    apply issues_throw. by repeat constructor.
  - intros n1 [] H1. eapply issues_weaken; [exact IH|]. intros n2 r H2. by apply Forall_app.
Qed.

(** ** A whole reconciliation *)

(** The release as it is after the resources were applied, the kinds that are
    listed and the inventory that is recorded. *)
Definition applied_release (now : Z) (release : RenderedRelease) : RenderedRelease :=
  (MarkTrueCondition now release ConditionResourcesApplied ReasonApplySucceeded "All resources applied successfully").1.

Definition knownGVKs (now : Z) (release : RenderedRelease) (applied : list Obj) : list GVK :=
  findAllKnownGVKs applied (stResources (relStatus (applied_release now release)))
    (targetPlaneOr (relTargetPlane (applied_release now release))).

(** The calls after the resources were applied. *)
Inductive settling (now : Z) (release : RenderedRelease) (applied : list Obj) : list call → Prop :=
  | settling_listing lists :
      Forall is_list lists → settling now release applied lists
  | settling_deleting lists live dels :
      listing (applied_release now release) (knownGVKs now release applied) lists live →
      deletes_of (findStaleResources live applied) dels →
      settling now release applied (lists ++ dels)
  | settling_status lists live dels err :
      listing (applied_release now release) (knownGVKs now release applied) lists live →
      deletes_of (findStaleResources live applied) dels →
      (∀ o, o ∈ findStaleResources live applied → GetDeletionTimestamp o = false → CDelete o None ∈ dels) →
      settling now release applied
        (lists ++ dels ++ [CStatusUpdate (SetResources (applied_release now release) (buildResourceStatus now release applied live)) err]).

Lemma settle_issues now release c applied :
  issues (settle now release release c applied) (λ new r, settling now release applied new).
Proof.
  unfold settle. eapply issues_bind; [apply listLive_issues| |].
  { intros new err [HF _]. by constructor. }
  intros lists live [HF Hl]. specialize (Hl live eq_refl).
  eapply issues_bind; [apply deleteResources_issues| |].
  { intros dels err [HD _]. by econstructor. }
  intros dels [] [HD HV]. specialize (HV eq_refl).
  apply (issues_bind _ _ (λ new r, new = [] ∨ ∃ err, new =
    [CStatusUpdate (SetResources (applied_release now release) (buildResourceStatus now release applied live)) err])).
  - unfold updateStatus. destruct (equalStatus _ _); [apply issues_ret; by left|].
    apply (issues_bind _ _ (λ new r, ∃ err, new =
      [CStatusUpdate (SetResources (applied_release now release) (buildResourceStatus now release applied live)) err])).
    + apply issues_mapErr. eapply issues_weaken; [apply StatusUpdate_issues|]. intros new r (e & -> & _). by exists e.
    + intros new err (e & ->). right. by exists e.
    + intros n1 [] (e & ->). apply issues_ret. right. by exists e.
  - intros new err [->|(e & ->)]; rewrite ?app_nil_r; by econstructor.
  - intros n1 [r updated] Hn. assert (settling now release applied (lists ++ dels ++ n1)).
    { destruct Hn as [->|(e & ->)]; [rewrite app_nil_r|]; by econstructor. }
    repeat case_goal; apply issues_ret; by rewrite app_nil_r.
Qed.

(** The calls of a reconciliation of a release that is not being deleted. *)
Inductive reconciling (now : Z) (release : RenderedRelease) : list call → Prop :=
  | reconciling_finalizer r err : reconciling now release [CUpdate r err]
  | reconciling_namespaces nss : Forall is_namespace nss → reconciling now release nss
  | reconciling_apply_failed nss applies :
      Forall is_namespace nss → Forall is_apply applies → reconciling now release (nss ++ applies)
  | reconciling_reported nss applies e err :
      Forall is_namespace nss → Forall is_apply applies →
      reconciling now release (nss ++ applies ++
        [CStatusUpdate (MarkFalseCondition now release ConditionResourcesApplied ReasonApplyFailed
           ("Failed to apply resources to target plane: " +:+ e)).1 err])
  | reconciling_applied nss desired applied rest :
      Forall is_namespace nss → makeDesiredResources release = Val desired → length applied = length desired →
      settling now release applied rest →
      reconciling now release (nss ++ zip_with (λ o a, CApply o (Val a)) desired applied ++ rest).

Lemma applyOrReport_issues now release c os nss :
  Forall is_namespace nss →
  issues (applyOrReport now release c os) (λ new r,
    match r with
    | Val applied => new = zip_with (λ o a, CApply o (Val a)) os applied ∧ length applied = length os
    | Fail _ => reconciling now release (nss ++ new)
    end).
Proof.
  intros Hnss. unfold applyOrReport.
  apply (issues_bind _ _ (λ new rr, ∃ r, rr = Val r ∧ Forall is_apply new ∧
    ∀ applied, r = Val applied → new = zip_with (λ o a, CApply o (Val a)) os applied ∧ length applied = length os)).
  { eapply issues_try; [apply applyResources_issues|]. intros new r Hn. by exists r. }
  { by intros new err (r & ? & _). }
  intros applies r (r' & [= <-] & HF & HV). destruct r as [applied|err].
  - apply issues_ret. rewrite app_nil_r. by apply HV.
  - destruct (MarkFalseCondition _ _ _ _ _) as [release' changed] eqn:Em.
    apply (issues_bind _ _ (λ new r, new = [] ∨ ∃ e, new = [CStatusUpdate release' e])).
    + destruct changed; [|apply issues_ret; by left].
      apply (issues_bind _ _ (λ new r, ∃ e, new = [CStatusUpdate release' e])).
      * eapply issues_try; [apply StatusUpdate_issues|]. intros new r (e & -> & _). by exists e.
      * intros new err' (e & ->). right. by eexists.
      * intros n1 r (e & ->). apply issues_ret. right. by eexists.
    + intros new err' [->|(e & ->)]; [rewrite app_nil_r; by constructor|].
      pose proof (reconciling_reported now release nss applies (Error err) e Hnss HF) as Hr. by rewrite Em in Hr.
    + intros n1 [] [->|(e & ->)]; apply issues_throw; [rewrite !app_nil_r; by constructor|].
      rewrite app_nil_r.
      pose proof (reconciling_reported now release nss applies (Error err) e Hnss HF) as Hr. by rewrite Em in Hr.
Qed.

Lemma reconcileRelease_issues now release :
  relDeleting release = false →
  issues (reconcileRelease now release) (λ new r, reconciling now release new).
Proof.
  intros Hd. unfold reconcileRelease.
  apply (issues_bind _ _ (λ new r, match r with Val (release', false) => new = [] ∧ release' = release | _ => ∃ r' err, new = [CUpdate r' err] end)).
  - unfold ensureFinalizer. rewrite Hd. destruct (AddFinalizer _ _) as [fs []]; [|by apply issues_ret].
    eapply issues_bind; [apply Update_issues| |].
    + intros new err (e & -> & _). by eexists _, _.
    + intros n1 [] (e & -> & _). apply issues_ret. by eexists _, _.
  - intros new err (r' & e & ->). constructor.
  - intros n1 [release' []] Hn; [destruct Hn as (r' & e & ->); apply issues_ret; rewrite app_nil_r; constructor|].
    destruct Hn as [-> ->]. cbn [app].
    eapply issues_bind; [apply planeClient_silent|intros new err ->; by apply reconciling_namespaces|]. intros n2 c ->.
    apply (issues_bind _ _ (λ new r, new = [] ∧ r = makeDesiredResources release)); [by apply issues_liftE| |].
    { intros new err [-> _]. by apply reconciling_namespaces. }
    intros n3 desired [-> Hdes]. cbn [app].
    apply (issues_bind _ _ (λ new r, Forall is_namespace new)); [|intros new err HF; by apply reconciling_namespaces|].
    { case_goal; [apply ensureNamespaces_issues|by apply issues_ret]. }
    intros nss [] Hnss. eapply issues_bind; [by apply applyOrReport_issues|done|].
    intros n4 applied [-> Hl]. eapply issues_weaken; [apply settle_issues|]. intros rest r Hs.
    by apply reconciling_applied.
Qed.

(** ** Deletion *)

Lemma skip_prefix {A} (P : A → Prop) X Y pre c post :
  Forall P X → ¬ P c → X ++ Y = pre ++ c :: post → ∃ pre', pre = X ++ pre' ∧ Y = pre' ++ c :: post.
Proof.
  intros HX Hc. revert pre. induction HX as [|x X Hx _ IH]; intros pre; cbn [app]; [by exists pre|].
  destruct pre as [|p pre]; cbn [app]; [intros [= -> _]; done|]. intros [= -> (pre' & -> & ->)%IH]. by exists pre'.
Qed.

Lemma no_prefix {A} (P : A → Prop) X pre c post : Forall P X → ¬ P c → X ≠ pre ++ c :: post.
Proof. intros HX Hc ->. apply Forall_app in HX as [_ [? _]%Forall_cons]. done. Qed.

Lemma applied_release_uid now release : relUID (applied_release now release) = relUID release.
Proof. unfold applied_release, MarkTrueCondition, markCondition. by destruct (SetStatusCondition _ _) as [? []]. Qed.

Lemma listing_release r1 r2 gvks new live : relUID r1 = relUID r2 → listing r1 gvks new live → listing r2 gvks new live.
Proof.
  intros Hu. assert (managedSelector r1 = managedSelector r2) as Hs by (unfold managedSelector; by rewrite Hu).
  induction 1; [constructor|rewrite Hs; by constructor|rewrite Hs; by constructor].
Qed.

Lemma listing_lists release gvks new live : listing release gvks new live → Forall is_list new.
Proof. induction 1; by constructor. Qed.

Lemma applies_apply desired applied : Forall is_apply (zip_with (λ o a, CApply o (Val a)) desired applied).
Proof. revert applied. induction desired as [|d desired IH]; intros [|a applied]; cbn; by constructor. Qed.

Lemma zip_applied desired applied d a pre :
  (d, a) ∈ zip desired applied → CApply d (Val a) ∈ zip_with (λ o a, CApply o (Val a)) desired applied ++ pre.
Proof.
  intros Hz. apply elem_of_app. left. revert applied Hz.
  induction desired as [|d' desired IH]; intros [|a' applied] Hz; cbn in *; try by apply elem_of_nil in Hz.
  apply elem_of_cons in Hz as [[= -> ->]|Hz]; [left|right; by apply IH].
Qed.

Lemma findStale_elem live applied o :
  o ∈ findStaleResources live applied ↔ o ∈ live ∧ resourceID o ≠ "" ∧ (resourceID o ∉ resourceID <$> applied).
Proof.
  unfold findStaleResources. rewrite list_elem_of_filter, list_elem_of_filter. naive_solver.
Qed.

(** A deletion among the calls of a reconciliation. *)
Lemma settling_delete now release applied rest pre o err post :
  settling now release applied rest → rest = pre ++ CDelete o err :: post →
  (∃ g items, CList g (managedSelector release) (inl items) ∈ pre ∧ o ∈ items)
  ∧ resourceID o ≠ "" ∧ (resourceID o ∉ resourceID <$> applied) ∧ GetDeletionTimestamp o = false.
Proof.
  assert (Hcore : ∀ lists live dels pre' post', listing (applied_release now release) (knownGVKs now release applied) lists live →
    deletes_of (findStaleResources live applied) dels → dels = pre' ++ CDelete o err :: post' →
    (∃ g items, CList g (managedSelector release) (inl items) ∈ lists ++ pre' ∧ o ∈ items)
    ∧ resourceID o ≠ "" ∧ (resourceID o ∉ resourceID <$> applied) ∧ GetDeletionTimestamp o = false).
  { intros lists live dels pre' post' Hl HD ->.
    destruct (HD (CDelete o err)) as (o' & err' & [= <- <-] & [Hin [H1 H2]]%findStale_elem & H3);
      [apply elem_of_app; right; left|].
    split; [|done]. apply (listing_release _ release) in Hl; [|apply applied_release_uid].
    destruct (listing_elem _ _ _ _ _ Hl Hin) as (g & items & ? & ? & _). exists g, items. split; [|done].
    apply elem_of_app. by left. }
  intros [lists HF|lists live dels Hl HD|lists live dels err' Hl HD _] Heq.
  - by destruct (no_prefix _ _ _ (CDelete o err) _ HF (λ H, H) Heq).
  - eapply skip_prefix in Heq as (pre' & -> & ->); [|by eapply listing_lists|by intros []]. by eapply Hcore.
  - eapply skip_prefix in Heq as (pre' & -> & Heq); [|by eapply listing_lists|by intros []].
    destruct post as [|p post _] using rev_ind.
    { change [CDelete o err] with ([] ++ [CDelete o err]) in Heq. by apply app_inj_tail in Heq as [_ ?]. }
    rewrite app_comm_cons, app_assoc in Heq. apply app_inj_tail in Heq as [Heq _]. by eapply Hcore.
Qed.

(** C9: A reconciliation deletes an object of the plane only after every desired
    resource was applied successfully, and only an object that the plane listed
    as managed by this very release, that carries a resource id which no applied
    resource has, and that is not already terminating; whatever the API servers
    answer and wherever the run stops. *)
Theorem deletes_only_stale (now : Z) (release : RenderedRelease) (w : World) (pre post : list call) (o : Obj) (err : option goerr) :
  relDeleting release = false →
  calls (reconcileRelease now release w).1 = calls w ++ pre ++ CDelete o err :: post →
  ∃ desired applied, makeDesiredResources release = Val desired ∧ length applied = length desired
  ∧ (∀ d a, (d, a) ∈ zip desired applied → CApply d (Val a) ∈ pre)
  ∧ (∃ g items, CList g (managedSelector release) (inl items) ∈ pre ∧ o ∈ items)
  ∧ resourceID o ≠ "" ∧ (resourceID o ∉ resourceID <$> applied) ∧ GetDeletionTimestamp o = false.
Proof.
  intros Hd Hcalls. destruct (reconcileRelease_issues now release Hd w) as (new & Hnew & Hr).
  rewrite Hnew in Hcalls. apply app_inv_head in Hcalls.
  destruct Hr as [r e|nss HF|nss applies H1 H2|nss applies e er H1 H2|nss desired applied rest H1 Hdes Hl Hs].
  - destruct pre as [|? [|]]; simplify_eq.
  - by destruct (no_prefix _ _ _ (CDelete o err) _ HF (λ H, H) Hcalls).
  - eapply skip_prefix in Hcalls as (? & -> & Hcalls); [|exact H1|by intros []]. by destruct (no_prefix _ _ _ (CDelete o err) _ H2 (λ H, H) Hcalls).
  - eapply skip_prefix in Hcalls as (? & -> & Hcalls); [|exact H1|by intros []].
    eapply skip_prefix in Hcalls as (p & -> & Hcalls); [|exact H2|by intros []]. by destruct p as [|? [|]]; simplify_eq.
  - eapply skip_prefix in Hcalls as (? & -> & Hcalls); [|exact H1|by intros []].
    eapply skip_prefix in Hcalls as (p & -> & Hcalls); [|apply applies_apply|by intros []].
    destruct (settling_delete _ _ _ _ _ _ _ _ Hs Hcalls) as ((g & items & Hg & Hi) & Hrest).
    exists desired, applied. split_and!; try done.
    + intros d a Hz. apply elem_of_app. right. by apply zip_applied.
    + exists g, items. split; [|done]. apply elem_of_app. right. apply elem_of_app. by right.
    + apply Hrest. + apply Hrest. + apply Hrest.
Qed.
End Spec.
