(* ===== verification/ReleaseConverge.v ===== *)
(** * Rendered releases: status and finalization

    What a status that is written says, when the finalizer of a release is
    removed, and a case in which it is removed too early. *)

From S2P Require Import Prelude GoStrings GoValue RenderErrors ReleaseObjects PlaneObjects PlaneRefs ReleaseController ReleaseSpec.

#[local] Set Warnings "-register-all".

Section Final.
Context {U : Unstructured} {K : Converter} {Q : SemanticEquality} {SC : StatusConditions} {FZ : Finalizers}.
Context {CL : Cluster} {ND : Nondeterminism}.

(** ** Status *)

Lemma mark_resources now release ct status reason message :
  stResources (relStatus (markCondition now release ct status reason message).1) = stResources (relStatus release).
Proof. unfold markCondition. by destruct (SetStatusCondition _ _) as [cs []]. Qed.

(** After a mark the condition is there and says what was marked. *)
Lemma mark_finds `{!StatusConditionsLaws} now release ct status reason message :
  ∃ c, FindStatusCondition (GetConditions (markCondition now release ct status reason message).1) ct = Some c
    ∧ condStatus c = status ∧ condReason c = reason ∧ condGeneration c = relGeneration release.
Proof.
  unfold markCondition. set (cond := NewCondition _ _ _ _ _ _).
  destruct (Set_finds (GetConditions release) cond) as (c & Hf & Hs). cbn [condType] in Hf.
  pose proof (Set_unchanged (GetConditions release) cond) as Hu.
  destruct (SetStatusCondition (GetConditions release) cond) as [cs changed]. cbn [fst snd] in *.
  exists c. injection Hs as _ H1 H2 _ H3. split; [|done].
  destruct changed; [exact Hf|]. by rewrite (Hu eq_refl) in Hf.
Qed.

Lemma inventory_ids now old applied live :
  msID <$> buildResourceStatus now old applied live = resourceID <$> applied
  ∧ statusGVK <$> buildResourceStatus now old applied live = GroupVersionKind <$> applied.
Proof.
  unfold buildResourceStatus. rewrite <- !list_fmap_compose. split; apply list_fmap_ext; intros i o _; cbn;
    unfold manifestStatus; destruct (liveByID live !! resourceID o); cbn; [done..| |]; by destruct (GroupVersionKind o).
Qed.

(** The condition says that resources were, or were not, applied for the
    current generation. *)
Definition applied_says (r release : RenderedRelease) (status : string) : Prop :=
  ∃ c, FindStatusCondition (GetConditions r) ConditionResourcesApplied = Some c
    ∧ condStatus c = status ∧ condGeneration c = relGeneration release.

Definition not_status (c : call) : Prop := match c with CStatusUpdate _ _ => False | _ => True end.

Lemma is_list_not_status new : Forall is_list new → Forall not_status new.
Proof. intros HF. eapply Forall_impl; [exact HF|by intros []]. Qed.
Lemma is_apply_not_status new : Forall is_apply new → Forall not_status new.
Proof. intros HF. eapply Forall_impl; [exact HF|by intros []]. Qed.
Lemma is_namespace_not_status new : Forall is_namespace new → Forall not_status new.
Proof. intros HF. eapply Forall_impl; [exact HF|by intros []]. Qed.
Lemma deletes_not_status os new : deletes_of os new → Forall not_status new.
Proof. intros HD. apply Forall_forall. intros c Hc. by destruct (HD c Hc) as (o & err & -> & _). Qed.

#[local] Hint Resolve is_list_not_status is_apply_not_status is_namespace_not_status deletes_not_status : render.

(** The status that was written in such a run, with what came before. *)
Lemma skip_status X Y pre r err post :
  Forall not_status X → X ++ Y = pre ++ CStatusUpdate r err :: post →
  ∃ pre', pre = X ++ pre' ∧ Y = pre' ++ CStatusUpdate r err :: post.
Proof. intros HX. by apply skip_prefix with (P := not_status); [|intros []]. Qed.

Lemma last_status X r err pre r' err' post :
  Forall not_status X → X ++ [CStatusUpdate r err] = pre ++ CStatusUpdate r' err' :: post →
  r' = r ∧ post = [] ∧ pre = X.
Proof.
  intros HX (p & -> & Hp)%skip_status; [|done]. destruct p as [|? [|]]; simplify_eq/=. by rewrite app_nil_r.
Qed.

Lemma no_status X pre r err post : Forall not_status X → X ≠ pre ++ CStatusUpdate r err :: post.
Proof. intros HX. by apply (no_prefix not_status); [|intros []]. Qed.

(** C12: The status that a reconciliation writes never mixes generations: it is
    the last call of the run; either it reports that applying failed and leaves
    the inventory as it was, or it reports that resources were applied for this
    generation together with an inventory of exactly the resources that were,
    with their ids and kinds, after every stale resource was deleted. *)
Theorem status_tells_truth `{!StatusConditionsLaws} (now : Z) (release : RenderedRelease) (w : World)
    (pre post : list call) (r : RenderedRelease) (err : option goerr) :
  relDeleting release = false →
  calls (reconcileRelease now release w).1 = calls w ++ pre ++ CStatusUpdate r err :: post →
  post = [] ∧
  ((applied_says r release ConditionFalse ∧ stResources (relStatus r) = stResources (relStatus release)
    ∧ Forall (λ c, is_namespace c ∨ is_apply c) pre)
   ∨ (∃ desired applied live before lists dels,
      makeDesiredResources release = Val desired ∧ length applied = length desired
      ∧ pre = before ++ lists ++ dels ∧ listing release (knownGVKs now release applied) lists live
      ∧ (∀ d a, (d, a) ∈ zip desired applied → CApply d (Val a) ∈ pre)
      ∧ (∀ o, o ∈ findStaleResources live applied → GetDeletionTimestamp o = false → CDelete o None ∈ pre)
      ∧ applied_says r release ConditionTrue
      ∧ msID <$> stResources (relStatus r) = resourceID <$> applied
      ∧ statusGVK <$> stResources (relStatus r) = GroupVersionKind <$> applied)).
Proof.
  intros Hd Hcalls. destruct (reconcileRelease_issues now release Hd w) as (new & Hnew & Hr).
  rewrite Hnew in Hcalls. apply app_inv_head in Hcalls.
  destruct Hr as [r' e|nss HF|nss applies H1 H2|nss applies e er H1 H2|nss desired applied rest H1 Hdes Hl Hs].
  - destruct pre as [|? [|]]; simplify_eq.
  - by apply no_status in Hcalls; [|auto with render].
  - apply no_status in Hcalls; [done|]. apply Forall_app; auto with render.
  - rewrite app_assoc in Hcalls. apply last_status in Hcalls as (-> & -> & ->); [|apply Forall_app; auto with render].
    split; [done|]. left. split_and!.
    + destruct (mark_finds now release ConditionResourcesApplied ConditionFalse ReasonApplyFailed
        ("Failed to apply resources to target plane: " +:+ e)) as (c & ? & ? & _ & ?). by exists c.
    + apply mark_resources.
    + apply Forall_app. split; [eapply Forall_impl; [exact H1|by left]|eapply Forall_impl; [exact H2|by right]].
  - apply skip_status in Hcalls as (p1 & -> & Hcalls); [|auto with render].
    apply skip_status in Hcalls as (p2 & -> & Hcalls); [|apply is_apply_not_status, applies_apply].
    destruct Hs as [lists HF|lists live dels Hli HD|lists live dels err' Hli HD HV].
    + by apply no_status in Hcalls; [|auto with render].
    + apply no_status in Hcalls; [done|]. apply Forall_app. eauto using listing_lists with render.
    + rewrite app_assoc in Hcalls.
      apply last_status in Hcalls as (-> & -> & ->); [|apply Forall_app; eauto using listing_lists with render].
      split; [done|]. right.
      exists desired, applied, live, (nss ++ zip_with (λ o a, CApply o (Val a)) desired applied), lists, dels.
      destruct (inventory_ids now release applied live) as [Hi Hg].
      split_and!; try done.
      * by rewrite <- app_assoc.
      * eapply listing_release; [|exact Hli]. apply applied_release_uid.
      * intros d a Hz. apply elem_of_app. right. by apply zip_applied.
      * intros o Ho Ht. do 3 (apply elem_of_app; right). by apply HV.
      * destruct (mark_finds now release ConditionResourcesApplied ConditionTrue ReasonApplySucceeded
          "All resources applied successfully") as (c & ? & ? & _ & ?). by exists c.
Qed.

(** ** Finalization *)

Definition not_update (c : call) : Prop := match c with CUpdate _ _ => False | _ => True end.

Lemma UpdateStatusConditions_issues old release :
  issues (UpdateStatusConditions old release) (λ new r, Forall not_update new).
Proof.
  unfold UpdateStatusConditions. destruct (NeedConditionUpdate _ _); [|by apply issues_ret].
  eapply issues_weaken; [apply StatusUpdate_issues|]. intros new r (e & -> & _). by repeat constructor.
Qed.

(** A step of the cleanup: what it issued, or its failure and a status update. *)
Lemma orCleanupFailed_issues {A} now old release what (m : EM World A) (P : list call → eres A → Prop) :
  issues m P → (∀ new err, P new (Fail err) → Forall not_update new) →
  issues (orCleanupFailed now old release what m) (λ new r,
    match r with Val a => P new (Val a) | Fail _ => Forall not_update new end).
Proof.
  intros Hm HP. unfold orCleanupFailed. apply (issues_bind _ _ (λ new rr, ∃ r, rr = Val r ∧ P new r)).
  - eapply issues_try; [exact Hm|]. intros new r Hr. by exists r.
  - by intros new err (r & ? & _).
  - intros n1 r (r' & [= <-] & Hr). destruct r as [a|err]; [apply issues_ret; by rewrite app_nil_r|].
    eapply issues_bind; [apply UpdateStatusConditions_issues| |].
    + intros n2 e H2. apply Forall_app. eauto.
    + intros n2 [] H2. apply issues_throw. rewrite app_nil_r. apply Forall_app. eauto.
Qed.

Lemma lists_not_update new : Forall is_list new → Forall not_update new.
Proof. intros HF. eapply Forall_impl; [exact HF|by intros []]. Qed.

Lemma deletes_not_update os new : deletes_of os new → Forall not_update new.
Proof. intros HD. apply Forall_forall. intros c Hc. by destruct (HD c Hc) as (o & err & -> & _). Qed.

(** The release is updated only after every kind was listed and nothing was
    there. *)
Lemma cleanup_issues now old release finalizer clientError getClient gvks :
  issues getClient (λ new r, new = []) →
  issues (cleanup now old release finalizer clientError getClient gvks) (λ new r,
    Forall not_update new
    ∨ ∃ lists r' err, new = lists ++ [CUpdate r' err] ∧ listing release gvks lists []
        ∧ (RemoveFinalizer (relFinalizers release) finalizer).2 = true
        ∧ relFinalizers r' = (RemoveFinalizer (relFinalizers release) finalizer).1).
Proof.
  intros Hc. unfold cleanup. destruct (SetStatusCondition _ _) as [cs changed].
  set (release' := SetConditions release cs). destruct changed.
  { eapply issues_bind; [apply UpdateStatusConditions_issues|intros new err HF; by left|].
    intros n1 [] HF. apply issues_ret. rewrite app_nil_r. by left. }
  eapply issues_bind; [eapply orCleanupFailed_issues; [exact Hc|by intros new err ->]|intros new err HF; by left|].
  intros n1 c ->. cbn [app].
  eapply issues_bind; [eapply orCleanupFailed_issues; [apply listLive_issues|]|intros new err HF; by left|].
  { intros new err [HF _]. by apply lists_not_update. }
  intros lists live [HF Hl]. specialize (Hl live eq_refl).
  eapply issues_bind; [eapply orCleanupFailed_issues; [apply deleteResources_issues|]| |].
  { intros new err [HD _]. by eapply deletes_not_update. }
  { intros new err HN. left. apply Forall_app. split; [by apply lists_not_update|done]. }
  intros dels [] [HD _].
  assert (HN : Forall not_update (lists ++ dels)).
  { apply Forall_app. split; [by apply lists_not_update|by eapply deletes_not_update]. }
  destruct (bool_decide (length live = 0)) eqn:Elen; cbn [negb]; [|apply issues_ret; rewrite app_nil_r; by left].
  apply bool_decide_eq_true, nil_length_inv in Elen. subst live.
  assert (dels = []) as ->.
  { destruct dels as [|d dels]; [done|]. destruct (HD d) as (o & e & _ & Ho & _); [left|]. by apply elem_of_nil in Ho. }
  rewrite app_nil_r in *. cbn [relFinalizers release' SetConditions withStatus].
  destruct (RemoveFinalizer (relFinalizers release) finalizer) as [fs removed] eqn:Er.
  apply (issues_bind _ _ (λ new r, new = [] ∨ removed = true ∧ ∃ e, new = [CUpdate (withFinalizers release' fs) e])).
  - destruct removed; [|apply issues_ret; by left]. eapply issues_weaken; [apply Update_issues|].
    intros new r (e & -> & _). right. split; [done|]. by exists e.
  - intros new err [->|(Hr & e & ->)]; [rewrite app_nil_r; by left|]. right.
    exists lists, (withFinalizers release' fs), e. split_and!; [done|by eapply listing_release; [|exact Hl]|done|done].
  - intros n2 [] [->|(Hr & e & ->)]; apply issues_ret; rewrite ?app_nil_r; [by left|]. right.
    exists lists, (withFinalizers release' fs), e. split_and!; [done|by eapply listing_release; [|exact Hl]|done|done].
Qed.

(** The kinds are iterated in some order. *)
Class NondeterminismLaws := gvkOrder_perm : ∀ l, gvkOrder l ≡ₚ l.

(** C11: The cleanup finalizer of a data plane release is removed only in a run
    that has just listed every kind of the inventory and every well-known kind
    and found nothing that is managed by the release, or that the plane does not
    know the kind; then the finalizer, and no other, is gone. *)
Theorem finalizer_waits_for_plane `{!FinalizersLaws, !NondeterminismLaws} (now : Z) (release : RenderedRelease) (w : World)
    (pre post : list call) (r : RenderedRelease) (err : option goerr) :
  relTargetPlane release ≠ targetPlaneObservabilityPlane →
  calls (finalize now release release w).1 = calls w ++ pre ++ CUpdate r err :: post →
  (∀ g, g ∈ (statusGVK <$> stResources (relStatus release)) ++ wellKnownDataPlaneGVKs →
     CList g (managedSelector release) (inl []) ∈ pre
     ∨ ∃ e, IsNoMatchError e = true ∧ CList g (managedSelector release) (inr e) ∈ pre)
  ∧ ∀ f, f ∈ relFinalizers r ↔ f ∈ relFinalizers release ∧ f ≠ DataPlaneCleanupFinalizer.
Proof.
  intros Hp Hcalls. unfold finalize in Hcalls. rewrite bool_decide_eq_false_2 in Hcalls by done.
  unfold finalizeDataPlane in Hcalls. destruct (ContainsFinalizer _ _); cbn [negb] in Hcalls.
  2: { cbn in Hcalls. rewrite <- (app_nil_r (calls w)) in Hcalls at 1. apply app_inv_head in Hcalls. by destruct pre. }
  destruct (cleanup_issues now release release DataPlaneCleanupFinalizer "failed to get dataplane client for finalization: "
    (getDPClient (relNamespace release) (relEnvironment release))
    (findAllKnownGVKs [] (stResources (relStatus release)) targetPlaneDataPlane) (getClient_silent _) w) as (new & Hnew & Hs).
  rewrite Hnew in Hcalls. apply app_inv_head in Hcalls.
  destruct Hs as [HN|(lists & r' & e & -> & Hl & Hc & Hf)].
  { by destruct (no_prefix not_update _ _ (CUpdate r err) _ HN (λ H, H) Hcalls). }
  eapply skip_prefix in Hcalls as (p & -> & Hcalls); [|eapply lists_not_update, listing_lists, Hl|by intros []].
  destruct p as [|? [|]]; simplify_eq/=. rewrite app_nil_r. split.
  - intros g Hg. eapply listing_empty; [exact Hl|]. unfold findAllKnownGVKs. rewrite gvkOrder_perm, elem_of_remove_dups.
    rewrite (bool_decide_eq_false_2 (targetPlaneDataPlane = _)) by done. exact Hg.
  - intros f. rewrite Hf. apply Remove_elem.
Qed.

(** The finalizer of an observability plane release whose inventory is still
    empty, because no status was written since its resources were applied, is
    removed without a single look at the plane: what was applied stays behind. *)
Theorem obs_finalizer_skips_plane `{!FinalizersLaws} (now : Z) (release : RenderedRelease) (w : World) (c : PlaneClient) (cp : CPState) :
  relTargetPlane release = targetPlaneObservabilityPlane → ObsPlaneCleanupFinalizer ∈ relFinalizers release →
  stResources (relStatus release) = [] →
  (SetStatusCondition (GetConditions release) (finalizingCondition now (relGeneration release))).2 = false →
  opClientOf (relNamespace release) (relEnvironment release) (cpOf w) = (cp, inl c) →
  ∃ r err, calls (finalize now release release w).1 = calls w ++ [CUpdate r err] ∧ (ObsPlaneCleanupFinalizer ∉ relFinalizers r)
    ∧ planeOf (finalize now release release w).1 = planeOf w.
Proof.
  intros Hp Hf Hi Hs Hc. unfold finalize. rewrite bool_decide_eq_true_2 by done. unfold finalizeObsPlane.
  rewrite (proj2 (Contains_elem _ _) Hf). cbn [negb andb]. unfold intersectObsPlaneGVKs. rewrite Hi. cbn [fmap list_fmap rev remove_dups].
  unfold cleanup. destruct (SetStatusCondition _ _) as [cs changed]. cbn [snd] in Hs. subst changed.
  unfold orCleanupFailed, getOPClient. rewrite bind_eq. unfold try. rewrite !bind_eq. unfold onCP. rewrite Hc. cbn.
  pose proof (Remove_changed (relFinalizers release) ObsPlaneCleanupFinalizer) as Hr.
  pose proof (Remove_elem (relFinalizers release) ObsPlaneCleanupFinalizer ObsPlaneCleanupFinalizer) as He.
  destruct (RemoveFinalizer (relFinalizers release) ObsPlaneCleanupFinalizer) as [fs removed]. cbn [fst snd] in *.
  destruct removed; [|discriminate (proj2 Hr Hf)].
  unfold Update, mbind, EM_bind, onCP. cbn. rewrite (bool_decide_eq_true_2 (0 = 0)) by done. cbn.
  destruct (cp_Update (withFinalizers (SetConditions release cs) fs) cp) as [cp' err]. cbn.
  exists (withFinalizers (SetConditions release cs) fs), err.
  destruct err; cbn; (split; [done|]); (split; [|done]); cbn; intros ?%He; naive_solver.
Qed.
End Final.

(** * Rendered releases: convergence

    On a plane that answers consistently, a reconciliation that succeeds leaves
    the plane in the state the release describes: every resource of the release
    is there, and whatever else the release managed is gone or terminating.
    The health of a deployment is characterised as well. *)

#[local] Set Warnings "-register-all".

(** ** Health *)

Lemma serving_healthy (b1 b2 : bool) (n u r a un : Z) :
  (if b1 && (0 <? un)%Z && b2 then HealthDegraded
   else if bool_decide (n = u) && bool_decide (n = r) && bool_decide (n = a) && bool_decide (un = 0%Z) then HealthHealthy
   else HealthProgressing) = HealthHealthy
  ↔ u = n ∧ r = n ∧ a = n ∧ un = 0%Z.
Proof.
  split.
  - destruct (b1 && (0 <? un)%Z && b2); [done|]. repeat case_bool_decide; naive_solver.
  - intros (-> & -> & -> & ->). rewrite !bool_decide_eq_true_2 by done. by rewrite andb_false_r.
Qed.

(** A deployment is healthy exactly when it is neither paused nor scaled to
    zero, its status is about the current spec, no rollout deadline or replica
    failure is reported, and all its replicas are updated, ready and available
    with none unavailable. *)
Theorem deployment_healthy (d : Deployment) :
  deploymentHealth d = HealthHealthy ↔
  depPaused d = false ∧ depReplicas d ≠ Some 0%Z ∧ depObserved d ≠ 0%Z ∧ (depGeneration d ≤ depObserved d)%Z
  ∧ dcReason <$> lastOfType "Progressing" (depConditions d) None ≠ Some reasonProgressDeadlineExceeded
  ∧ dcStatus <$> lastOfType "ReplicaFailure" (depConditions d) None ≠ Some ConditionTrue
  ∧ depUpdated d = orOne (depReplicas d) ∧ depReady d = orOne (depReplicas d) ∧ depAvailable d = orOne (depReplicas d)
  ∧ depUnavailable d = 0%Z.
Proof.
  unfold deploymentHealth, extractDeploymentConditions. set (n := orOne (depReplicas d)).
  destruct (depPaused d); [split; [done|by intros [? _]]|].
  case_bool_decide as H1; [split; [done|naive_solver]|].
  destruct (bool_decide (depObserved d = 0%Z)) eqn:H2; [apply bool_decide_eq_true in H2; split; [done|naive_solver]|].
  apply bool_decide_eq_false in H2. cbn [orb].
  destruct (Z.ltb_spec (depObserved d) (depGeneration d)) as [H3|H3]; [split; [done|lia]|].
  case_bool_decide as H4; [split; [done|naive_solver]|]. case_bool_decide as H5; [split; [done|naive_solver]|].
  destruct (bool_decide (n = depUpdated d) && bool_decide (depAvailable d = 0%Z) && (0 <? n)%Z) eqn:H6.
  - apply andb_true_iff in H6 as [[_ H7%bool_decide_eq_true]%andb_true_iff H8%Z.ltb_lt].
    split; [|lia]. repeat case_match; done.
  - rewrite serving_healthy. naive_solver.
Qed.

(** ** Convergence *)

Section Converge.
Context {U : Unstructured} {K : Converter} {Q : SemanticEquality} {SC : StatusConditions} {FZ : Finalizers}.
Context {CL : Cluster} {ND : Nondeterminism}.

Definition key (o : Obj) : GVK * string * string := (GroupVersionKind o, GetNamespace o, GetName o).

(** A plane whose reads are current: an object is stored under its kind,
    namespace and name; applying stores an object that has at least the labels
    given; listing returns the stored objects of a kind with the labels selected;
    deleting drops the object or marks it as terminating. *)
Class PlaneLaws := {
  stored : PlaneClient → PlaneState → GVK * string * string → option Obj;
  stored_key : ∀ c s k o, stored c s k = Some o → key o = k;
  apply_stores : ∀ c o s s' a, plane_Apply c o s = (s', Val a) →
    key a = key o ∧ GetLabels o ⊆ GetLabels a ∧ stored c s' (key o) = Some a
    ∧ ∀ k, k ≠ key o → stored c s' k = stored c s k;
  list_items : ∀ c g sel s s' items, plane_List c g sel s = (s', inl items) →
    (∀ k, stored c s' k = stored c s k)
    ∧ ∀ o, o ∈ items ↔ stored c s (key o) = Some o ∧ GroupVersionKind o = g ∧ sel ⊆ GetLabels o;
  list_unknown : ∀ c g sel s s' e, plane_List c g sel s = (s', inr e) → IsNoMatchError e = true →
    (∀ k, stored c s' k = stored c s k) ∧ ∀ k o, stored c s k = Some o → GroupVersionKind o ≠ g;
  delete_drops : ∀ c o s s', plane_Delete c o s = (s', None) →
    (∀ o', stored c s' (key o) = Some o' → GetDeletionTimestamp o' = true)
    ∧ ∀ k, k ≠ key o → stored c s' k = stored c s k
}.
Context {PL : PlaneLaws} {UL : UnstructuredLaws}.

Abbreviation at_ c w := (stored c (planeOf w)).

(** *** Applying *)

Lemma onPlane_run {A} (f : PlaneState → PlaneState * A) w w' a :
  onPlane f w = (w', Val a) → ∃ s, f (planeOf w) = (s, a) ∧ planeOf w' = s.
Proof. unfold onPlane. destruct (f (planeOf w)) as [s b] eqn:E. intros [= <- <-]. by exists s. Qed.

Lemma record_run c w w' u : record c w = (w', Val u) → planeOf w' = planeOf w.
Proof. by intros [= <- <-]. Qed.

Lemma applyOne_stored c o w w' a :
  applyOne c o w = (w', Val a) →
  key a = key o ∧ GetLabels o ⊆ GetLabels a ∧ at_ c w' (key o) = Some a
  ∧ ∀ k, k ≠ key o → at_ c w' k = at_ c w k.
Proof.
  unfold applyOne. intros (w1 & answer & (s & Hs & Hp)%onPlane_run & Hrun)%bind_Val.
  apply bind_Val in Hrun as (w2 & [] & Hr%record_run & Hrun). unfold mapErr, liftE in Hrun.
  destruct answer as [a'|e]; [|done]. injection Hrun as <- <-. apply apply_stores in Hs. by rewrite Hr, Hp.
Qed.

Definition answered (o a : Obj) : Prop := key a = key o ∧ GetLabels o ⊆ GetLabels a.

Lemma applyResources_stored c os w w' applied :
  applyResources c os w = (w', Val applied) →
  Forall2 answered os applied
  ∧ (∀ o, o ∈ os → ∃ a, a ∈ applied ∧ at_ c w' (key o) = Some a)
  ∧ ∀ k, k ∉ (key <$> os) → at_ c w' k = at_ c w k.
Proof.
  revert w w' applied. induction os as [|o os IH]; intros w w' applied; cbn [applyResources eMap].
  { intros [= <- <-]. split; [constructor|]. split; [by intros o ?%elem_of_nil|done]. }
  intros (w1 & a & (Ha & Hl & Hst & Hother)%applyOne_stored & Hrun)%bind_Val.
  apply bind_Val in Hrun as (w2 & rest & (HF & Hin & Hout)%IH & Hrun). injection Hrun as <- <-.
  split; [by constructor|]. split.
  - intros x [->|Hx]%elem_of_cons.
    + destruct (decide (key o ∈ (key <$> os))) as [(y & Hy & Hin')%list_elem_of_fmap|Hn].
      * destruct (Hin y Hin') as (b & Hb & Hst'). exists b. split; [by right|]. by rewrite Hy.
      * exists a. split; [left|]. by rewrite Hout.
    + destruct (Hin x Hx) as (b & Hb & Hst'). exists b. split; [by right|done].
  - intros k Hk. rewrite fmap_cons, not_elem_of_cons in Hk. destruct Hk as [Hk1 Hk2]. by rewrite Hout, Hother.
Qed.

(** *** Listing *)

Lemma listLive_stored c release gvks w w' live :
  listLiveResourcesByGVKs c release gvks w = (w', Val live) →
  (∀ k, at_ c w' k = at_ c w k)
  ∧ ∀ o, o ∈ live ↔ at_ c w (key o) = Some o ∧ GroupVersionKind o ∈ gvks ∧ managedSelector release ⊆ GetLabels o.
Proof.
  revert w w' live. induction gvks as [|g gvks IH]; intros w w' live; cbn [listLiveResourcesByGVKs].
  { intros [= <- <-]. split; [done|]. intros o. split; [by intros ?%elem_of_nil|by intros (_ & ?%elem_of_nil & _)]. }
  intros (w1 & answer & (s & Hs & Hp)%onPlane_run & Hrun)%bind_Val.
  apply bind_Val in Hrun as (w2 & [] & Hr%record_run & Hrun).
  destruct answer as [items|e].
  - apply bind_Val in Hrun as (w3 & rest & (Hk & Hl)%IH & Hrun). injection Hrun as <- <-.
    apply list_items in Hs as [Hs1 Hs2]. rewrite Hr, Hp in *. split; [intros k; by rewrite Hk|].
    intros o. rewrite elem_of_app, Hs2, Hl, Hs1, elem_of_cons. naive_solver.
  - destruct (IsNoMatchError e) eqn:En; [|done]. apply IH in Hrun as (Hk & Hl).
    apply list_unknown in Hs as [Hs1 Hs2]; [|done]. rewrite Hr, Hp in *. split; [intros k; by rewrite Hk|].
    intros o. rewrite Hl, Hs1, elem_of_cons. split; [naive_solver|].
    intros (Hst & [Hg|Hg] & Hsel); [|naive_solver]. by destruct (Hs2 _ _ Hst).
Qed.

(** *** Deleting *)

(** Nothing is stored under the key, or something that terminates. *)
Definition gone (c : PlaneClient) (w : World) (k : GVK * string * string) : Prop :=
  ∀ o, at_ c w k = Some o → GetDeletionTimestamp o = true.

Lemma deleteOne_stored c o w w' :
  deleteOne c o w = (w', Val ()) →
  (GetDeletionTimestamp o = false → gone c w' (key o))
  ∧ (∀ k, at_ c w' k = at_ c w k ∨ gone c w' k) ∧ ∀ k, k ≠ key o → at_ c w' k = at_ c w k.
Proof.
  unfold deleteOne. destruct (GetDeletionTimestamp o); [intros [= <-]; naive_solver|].
  intros (w1 & err & (s & Hs & Hp)%onPlane_run & Hrun)%bind_Val.
  apply bind_Val in Hrun as (w2 & [] & Hr%record_run & Hrun). destruct err as [e|]; [done|]. injection Hrun as <-.
  apply delete_drops in Hs as [Hd Ho]. rewrite <- Hp, <- Hr in *. split; [done|]. split; [|done].
  intros k. destruct (decide (k = key o)) as [->|Hk]; [by right|left; by apply Ho].
Qed.

Lemma deleteResources_stored c os w w' :
  deleteResources c os w = (w', Val ()) →
  (∀ o, o ∈ os → GetDeletionTimestamp o = false → gone c w' (key o))
  ∧ (∀ k, at_ c w' k = at_ c w k ∨ gone c w' k) ∧ ∀ k, k ∉ (key <$> os) → at_ c w' k = at_ c w k.
Proof.
  revert w. induction os as [|o os IH]; intros w; cbn [deleteResources eForEach].
  { intros [= <-]. split; [by intros o ?%elem_of_nil|]. split; [by left|done]. }
  intros (w1 & [] & (H1 & H2 & H3)%deleteOne_stored & (I1 & I2 & I3)%IH)%bind_Val. split_and!.
  - intros x [->|Hx]%elem_of_cons Ht; [|by apply I1]. destruct (I2 (key o)) as [He|]; [|done].
    intros y Hy. rewrite He in Hy. by apply (H1 Ht).
  - intros k. destruct (I2 k) as [He|]; [|by right]. destruct (H2 k) as [He'|Hg]; [left; by rewrite He|].
    right. intros y Hy. rewrite He in Hy. by apply Hg.
  - intros k Hk. rewrite fmap_cons, not_elem_of_cons in Hk. destruct Hk as [Hk1 Hk2]. by rewrite I3, H3.
Qed.

(** *** The labels of desired resources *)

Lemma trackingLabels_spec release id ls :
  trackingLabels release id ls !! LabelKeyRenderedReleaseResourceID = Some id
  ∧ managedSelector release ⊆ trackingLabels release id ls.
Proof.
  split; [unfold trackingLabels; by rewrite !lookup_insert_ne, lookup_insert_eq by done|].
  apply map_subseteq_spec. intros k v. unfold managedSelector.
  rewrite lookup_insert_Some, lookup_singleton_Some. unfold trackingLabels.
  intros [[<- <-]|[? [<- <-]]]; by rewrite !lookup_insert_ne, lookup_insert_eq by done.
Qed.

Definition tracked (release : RenderedRelease) (id : string) (o : Obj) : Prop :=
  GetLabels o !! LabelKeyRenderedReleaseResourceID = Some id ∧ managedSelector release ⊆ GetLabels o.

Lemma tracked_id release id o : tracked release id o → resourceID o = id.
Proof. intros [H _]. unfold resourceID. by rewrite H. Qed.

Lemma tracked_answered release id o a : tracked release id o → answered o a → tracked release id a.
Proof.
  intros [H1 H2] [_ Hs]. split; [by eapply lookup_weaken|by etrans].
Qed.

Lemma desiredObject_tracked release restartedAt m o :
  desiredObject release restartedAt m = Val o → tracked release (manifestID m) o.
Proof.
  unfold desiredObject. destruct (UnmarshalObj _) as [o0|]; [|done].
  set (o1 := SetLabels o0 _).
  assert (Ht : tracked release (manifestID m) o1) by (unfold tracked, o1; rewrite SetLabels_labels; apply trackingLabels_spec).
  case_bool_decide; [by intros [= <-]|]. unfold injectRestartedAt.
  destruct (negb _ || negb _); [by intros [= <-]|].
  destruct (PodAnnotations o1) as [an|]; [|done]. destruct (SetPodAnnotations o1 _) as [o2|] eqn:E; [|done].
  intros [= <-]. unfold tracked. by rewrite (SetPodAnnotations_labels _ _ _ E).
Qed.

Lemma desiredObjects_tracked release restartedAt ms os :
  desiredObjects release restartedAt ms = Val os → Forall2 (λ m, tracked release (manifestID m)) ms os.
Proof.
  revert os. induction ms as [|m ms IH]; intros os; cbn [desiredObjects]; [intros [= <-]; constructor|].
  destruct (desiredObject release restartedAt m) as [o|] eqn:E; [|done].
  destruct (desiredObjects release restartedAt ms) as [os'|]; [|done]. intros [= <-].
  constructor; [by eapply desiredObject_tracked|by apply IH].
Qed.

(** The answers of the plane carry the ids of the release. *)
Lemma applied_tracked release desired applied :
  makeDesiredResources release = Val desired → Forall2 answered desired applied →
  Forall2 (λ m, tracked release (manifestID m)) (relResources release) applied.
Proof.
  intros Hd%desiredObjects_tracked HA. revert applied HA.
  induction Hd as [|m o ms os Ho _ IH]; intros applied HA; inversion HA; subst; constructor; [|by apply IH].
  by eapply tracked_answered.
Qed.

Lemma Forall2_elem_r {A B} (R : A → B → Prop) l k y : Forall2 R l k → y ∈ k → ∃ x, x ∈ l ∧ R x y.
Proof.
  induction 1 as [|x z l k Hxz _ IH]; [by intros ?%elem_of_nil|].
  intros [->|Hy]%elem_of_cons; [exists x; split; [left|done]|].
  destruct (IH Hy) as (x' & ? & ?). exists x'. split; [by right|done].
Qed.

Lemma applied_ids release applied :
  Forall2 (λ m, tracked release (manifestID m)) (relResources release) applied →
  resourceID <$> applied = manifestID <$> relResources release.
Proof. induction 1 as [|m o ms os Ho _ IH]; [done|]. rewrite !fmap_cons, IH. f_equal. by eapply tracked_id. Qed.

(** *** The run *)

Lemma StatusUpdate_plane r w : planeOf (StatusUpdate r w).1 = planeOf w.
Proof. unfold StatusUpdate, onCP, mbind, EM_bind. cbn. destruct (cp_StatusUpdate r (cpOf w)) as [cp [e|]]; done. Qed.

Lemma updateStatus_plane old release statuses w : planeOf (updateStatus old release statuses w).1 = planeOf w.
Proof.
  unfold updateStatus. destruct (equalStatus _ _); [done|]. rewrite bind_eq. unfold mapErr.
  pose proof (StatusUpdate_plane (SetResources release statuses) w) as Hp.
  by destruct (StatusUpdate _ w) as [w1 [[]|e]].
Qed.

Lemma settle_run now old release c applied w w' n :
  settle now old release c applied w = (w', Val n) →
  ∃ w1 w2 live, listLiveResourcesByGVKs c (applied_release now release) (knownGVKs now release applied) w = (w1, Val live)
    ∧ deleteResources c (findStaleResources live applied) w1 = (w2, Val ()) ∧ planeOf w' = planeOf w2.
Proof.
  unfold settle. intros (w1 & live & Hl & Hrun)%bind_Val. apply bind_Val in Hrun as (w2 & [] & Hd & Hrun).
  apply bind_Val in Hrun as (w3 & [r updated] & Hu & Hrun). exists w1, w2, live. split_and!; [done|done|].
  pose proof (updateStatus_plane old (applied_release now release) (buildResourceStatus now old applied live) w2) as Hp.
  unfold applied_release in Hp. rewrite Hu in Hp. cbn [fst] in Hp. rewrite <- Hp.
  repeat case_match; by injection Hrun as <-.
Qed.

(** After listing and deleting, from a plane on which the resources were
    applied. *)
Lemma settle_converges now release c applied w w' n :
  Forall2 (λ m, tracked release (manifestID m)) (relResources release) applied →
  settle now release release c applied w = (w', Val n) →
  (∀ k a, a ∈ applied → at_ c w k = Some a → at_ c w' k = Some a)
  ∧ ∀ k o, at_ c w' k = Some o → managedSelector release ⊆ GetLabels o → GroupVersionKind o ∈ knownGVKs now release applied →
      resourceID o = "" ∨ resourceID o ∈ (manifestID <$> relResources release) ∨ GetDeletionTimestamp o = true.
Proof.
  intros HT (w1 & w2 & live & (L1 & L2)%listLive_stored & (D1 & D2 & D3)%deleteResources_stored & Hp)%settle_run.
  rewrite <- (applied_ids _ _ HT). unfold at_ in *. rewrite Hp.
  assert (Hsel : managedSelector (applied_release now release) = managedSelector release).
  { unfold managedSelector. by rewrite applied_release_uid. }
  rewrite Hsel in L2. split.
  - intros k a Ha Hst. rewrite D3; [by rewrite L1|].
    intros (o & -> & [Hlive [_ Hno]]%findStale_elem)%list_elem_of_fmap.
    apply L2 in Hlive as (Hst' & _). rewrite Hst in Hst'. injection Hst' as <-. apply Hno. by apply list_elem_of_fmap_2.
  - intros k o Hst Hm Hg. destruct (decide (resourceID o = "")) as [|Hne]; [by left|].
    destruct (decide (resourceID o ∈ (resourceID <$> applied))) as [|Hni]; [by right; left|]. right. right.
    destruct (D2 k) as [He|Hgone]; [|by apply Hgone]. rewrite Hst, L1 in He. symmetry in He.
    pose proof (stored_key _ _ _ _ He) as <-.
    assert (o ∈ live) as Hlive by (by apply L2).
    destruct (GetDeletionTimestamp o) eqn:Et; [done|]. rewrite <- Et.
    apply (D1 o); [by apply findStale_elem|done|done].
Qed.

(** The kinds that a release is known to have used. *)
Definition kindsOf (release : RenderedRelease) (desired : list Obj) : list GVK :=
  (GroupVersionKind <$> desired) ++ (statusGVK <$> stResources (relStatus release))
  ++ (if bool_decide (targetPlaneOr (relTargetPlane release) = targetPlaneObservabilityPlane)
      then wellKnownObservabilityPlaneGVKs else wellKnownDataPlaneGVKs).

Lemma answered_gvks desired applied : Forall2 answered desired applied → GroupVersionKind <$> applied = GroupVersionKind <$> desired.
Proof. induction 1 as [|d a ds aa [Hk _] _ IH]; [done|]. rewrite !fmap_cons, IH. f_equal. by injection Hk. Qed.

Lemma knownGVKs_kinds `{!NondeterminismLaws} now release desired applied g :
  Forall2 answered desired applied → g ∈ kindsOf release desired → g ∈ knownGVKs now release applied.
Proof.
  intros HA Hg. unfold knownGVKs, findAllKnownGVKs. rewrite gvkOrder_perm, elem_of_remove_dups, (answered_gvks _ _ HA).
  unfold applied_release, MarkTrueCondition. rewrite mark_resources. unfold markCondition.
  destruct (SetStatusCondition _ _) as [cs []]; exact Hg.
Qed.

End Converge.
