(* ===== verification/ReleaseWitness.v ===== *)
(** * The release controller at work

    Objects as records, a plane as a map, conditions and finalizers as lists,
    with the laws of the interfaces, and the theorems applied to a release whose
    second resource was dropped and to a release that is deleted. *)

From S2P Require Import Prelude GoStrings GoValue RenderErrors ReleaseObjects PlaneObjects PlaneRefs ReleaseController ReleaseSpec ReleaseConverge.

#[local] Set Warnings "-register-all".

(** ** Objects *)

Record Plain := mkPlain {
  plGVK : GVK; plNamespace : string; plName : string; plLabels : gmap string string; plDeleting : bool
}.

#[global] Instance Plain_eq_dec : EqDecision Plain.
Proof. solve_decision. Defined.

Definition deploymentObj : Plain := mkPlain (mkGVK "apps" "v1" "Deployment") "dp" "web" ∅ false.
Definition configObj : Plain := mkPlain (mkGVK "" "v1" "ConfigMap") "dp" "settings" ∅ false.

#[global] Instance plain_objects : Unstructured := {
  Obj := Plain;
  UnmarshalObj raw :=
    if bool_decide (raw = "deployment") then Val deploymentObj
    else if bool_decide (raw = "config") then Val configObj
    else Fail (errorf "unexpected end of JSON input");
  GetLabels := plLabels;
  SetLabels o ls := mkPlain (plGVK o) (plNamespace o) (plName o) ls (plDeleting o);
  GroupVersionKind := plGVK;
  GetName := plName;
  GetNamespace := plNamespace;
  GetGeneration _ := 1%Z;
  GetDeletionTimestamp := plDeleting;
  PodAnnotations _ := Val ∅;
  SetPodAnnotations o _ := Val o;
  SpecPaused _ := false;
  SpecReplicas _ := Some 1%Z;
  StatusField _ := None
}.

#[global] Instance plain_objects_laws : UnstructuredLaws.
Proof. by split; try (intros o o' a [= <-]). Qed.

#[global] Instance ready_converter : Converter := {
  toDeployment _ := Val (mkDeployment 1 false (Some 1%Z) 1 1 1 1 0 []);
  toStatefulSet _ := Fail (errorf "not a stateful set");
  toPod _ := Fail (errorf "not a pod");
  toCronJob _ := Fail (errorf "not a cron job")
}.

#[global] Instance ReleaseStatus_eq_dec : EqDecision ReleaseStatus.
Proof. solve_decision. Defined.

#[global] Instance plain_equality : SemanticEquality := {
  equalRaw a b := bool_decide (a = b);
  equalStatus a b := bool_decide (a = b)
}.

(** ** Conditions and finalizers *)

Fixpoint setCondition (cs : list Condition) (c : Condition) : list Condition * bool :=
  match cs with
  | [] => ([c], true)
  | x :: cs =>
      if bool_decide (condType x = condType c) then
        if bool_decide (says x = says c) then (x :: cs, false) else (c :: cs, true)
      else let '(cs, changed) := setCondition cs c in (x :: cs, changed)
  end.

Fixpoint findCondition (cs : list Condition) (t : string) : option Condition :=
  match cs with
  | [] => None
  | x :: cs => if bool_decide (condType x = t) then Some x else findCondition cs t
  end.

#[global] Instance listed_conditions : StatusConditions := {
  SetStatusCondition := setCondition;
  FindStatusCondition := findCondition
}.

#[global] Instance listed_conditions_laws : StatusConditionsLaws.
Proof.
  split; cbn.
  - intros cs c. induction cs as [|x cs IH]; cbn; [rewrite bool_decide_eq_true_2 by done; by exists c|].
    case_bool_decide as Ht; [case_bool_decide as Hs; cbn|].
    + rewrite bool_decide_eq_true_2 by done. by exists x.
    + rewrite bool_decide_eq_true_2 by done. by exists c.
    + destruct (setCondition cs c) as [cs' b]. cbn in *. by rewrite bool_decide_eq_false_2.
  - intros cs c t Hne. induction cs as [|x cs IH]; cbn; [by rewrite bool_decide_eq_false_2 by congruence|].
    case_bool_decide as Ht; [case_bool_decide as Hs; cbn; [done|]|].
    + rewrite !bool_decide_eq_false_2 by congruence. done.
    + destruct (setCondition cs c) as [cs' b]. cbn in *. by rewrite IH.
  - intros cs c. induction cs as [|x cs IH]; cbn; [done|]. case_bool_decide; [by case_bool_decide|].
    destruct (setCondition cs c) as [cs' b]. cbn in *. intros ->. by rewrite IH.
Qed.

#[global] Instance listed_finalizers : Finalizers := {
  AddFinalizer l f := if bool_decide (f ∈ l) then (l, false) else (l ++ [f], true);
  RemoveFinalizer l f := (filter (λ g, g ≠ f) l, bool_decide (f ∈ l));
  ContainsFinalizer l f := bool_decide (f ∈ l)
}.

#[global] Instance listed_finalizers_laws : FinalizersLaws.
Proof.
  split; cbn.
  - intros l f. apply bool_decide_eq_true.
  - intros l f. case_bool_decide; cbn; (split; [set_solver|naive_solver]).
  - intros l f g. rewrite list_elem_of_filter. naive_solver.
  - intros l f. apply bool_decide_eq_true.
Qed.

(** ** A plane in memory *)

#[global] Instance GVK_countable : Countable GVK.
Proof.
  refine (inj_countable' (λ g, (gvkGroup g, gvkVersion g, gvkKind g)) (λ p, mkGVK p.1.1 p.1.2 p.2) _). by intros [].
Defined.

Abbreviation shelf := (gmap (GVK * string * string) Plain).

Definition itemsOf (g : GVK) (sel : gmap string string) (s : shelf) : list Plain :=
  filter (λ o, s !! key o = Some o ∧ plGVK o = g ∧ sel ⊆ plLabels o) (snd <$> map_to_list s).

Definition applied_to (o : Plain) (s : shelf) : Plain :=
  mkPlain (plGVK o) (plNamespace o) (plName o) (plLabels o ∪ default ∅ (plLabels <$> s !! key o)) false.

(** Every environment uses the default planes of its namespace. *)
Definition no_workflows : WorkflowParts := Build_WorkflowParts unit unit unit unit.

Definition anyMeta (ns name : string) : ObjectMeta := mkMeta name ns "" 1 false [] ∅.
Definition anyAgent : ClusterAgentConfig := mkClusterAgentConfig (mkValueFrom None "ca").
Definition anyGateway : GatewaySpec := mkGatewaySpec None None.
Definition anyStatus : PlaneCRStatus := mkPlaneCRStatus 1 [] None.
Definition absent {S A : Type} : CM S A := fails (mkClientError "not found" [IsNotFoundErr]).

Definition default_planes {S : Type} : @PlaneStore no_workflows S :=
  @Build_PlaneStore no_workflows S
    (λ ns name, mret (mkEnvironment (anyMeta ns name) None false anyGateway))
    (λ ns name, mret (mkPlaneCR (anyMeta ns name) (mkDataPlaneSpec "" anyAgent anyGateway None None) anyStatus))
    (λ _, absent)
    (λ ns name, mret (mkPlaneCR (anyMeta ns name) (mkObservabilityPlaneSpec "" anyAgent "" "" "") anyStatus))
    (λ _, absent) (λ _ _, absent) (λ _, absent) (λ _ _, absent) (λ _, absent)
    (λ _ _, mkClientError "not found" [IsNotFoundErr]).

Definition unit_clients {S : Type} : Provider S unit :=
  mkProvider (λ _, mret ()) (λ _, mret ()) (λ _, mret ()) (λ _, mret ()) (λ _, mret ()) (λ _, mret ()).

#[global] Instance memory_cluster : Cluster := {
  CPState := option RenderedRelease;
  PlaneState := shelf;
  PlaneClient := unit;
  cp_Get _ _ r := (r, match r with Some x => inl x | None => inr (mkAPIError (errorf "not found") true false false) end);
  cp_Update r _ := (Some r, None);
  cp_StatusUpdate r _ := (Some r, None);
  cp_parts := no_workflows;
  cp_store := default_planes;
  cp_provider := Some unit_clients;
  plane_Apply _ o s := (<[key o := applied_to o s]> s, Val (applied_to o s));
  plane_List _ g sel s := (s, inl (itemsOf g sel s));
  plane_Delete _ o s := (delete (key o) s, None);
  plane_GetNamespace _ _ s := (s, None);
  plane_CreateNamespace _ _ s := (s, None)
}.

#[global] Instance in_order : Nondeterminism := {
  gvkOrder l := l; nsOrder l := l; fifth x := (x / 5)%Z; rand_Intn _ := 0%Z
}.
#[global] Instance in_order_laws : NondeterminismLaws.
Proof. intros l. done. Qed.

Definition storedIn (s : shelf) (k : GVK * string * string) : option Plain :=
  match s !! k with Some o => if bool_decide (key o = k) then Some o else None | None => None end.

Lemma storedIn_Some s k o : storedIn s k = Some o ↔ s !! k = Some o ∧ key o = k.
Proof. unfold storedIn. destruct (s !! k) as [x|]; [case_bool_decide|]; naive_solver. Qed.

#[global] Instance memory_laws : PlaneLaws.
Proof.
  refine {| stored := λ (_ : PlaneClient) s, storedIn s |}; cbn.
  - by intros c s k o [_ H]%storedIn_Some.
  - intros c o s s' a [= <- <-].
    split; [done|]. split; [apply map_union_subseteq_l|]. split.
    + apply storedIn_Some. by rewrite lookup_insert_eq.
    + intros k Hk. unfold storedIn. by rewrite lookup_insert_ne.
  - intros c g sel s s' items [= <- <-]. split; [done|]. intros o. unfold itemsOf.
    rewrite list_elem_of_filter, storedIn_Some. split; [naive_solver|]. intros ([H1 _] & H2 & H3). split; [done|].
    apply list_elem_of_fmap. exists (@key plain_objects o, o). split; [done|]. by apply elem_of_map_to_list.
  - done.
  - intros c o s s' [= <-]. unfold storedIn. rewrite lookup_delete_eq. split; [done|].
    intros k Hk. by rewrite lookup_delete_ne.
Qed.

(** ** A release with a dropped resource *)

(** The config map was applied by an earlier generation. *)
Definition webRelease : RenderedRelease :=
  mkRelease "web" "acme" "uid-1" 2 false [DataPlaneCleanupFinalizer] ∅ "dataplane" "dev" "shop"
    [mkManifest "web" "deployment"] None None
    (mkReleaseStatus [mkManifestStatus "settings" "" "v1" "ConfigMap" "settings" "dp" None HealthHealthy None] []).

Definition staleConfig : Plain := SetLabels configObj (trackingLabels webRelease "settings" ∅).

Definition staleWorld : World := mkWorld (Some webRelease) {[key staleConfig := staleConfig]} [].

Definition webRun : World * eres Z := reconcileRelease 7 webRelease staleWorld.

(** A call of a run at a position, and a result of a run. *)
Lemma call_at (l : list call) i c : l !! i = Some c → l = [] ++ take i l ++ c :: drop (S i) l.
Proof. intros H. cbn. symmetry. by apply take_drop_middle. Qed.

Lemma run_result {W A} (run : W * eres A) r : run.2 = r → run = (run.1, r).
Proof. intros <-. apply surjective_pairing. Qed.

Lemma deletes_only_stale_witness :
  ∃ desired applied, makeDesiredResources webRelease = Val desired ∧ length applied = length desired
  ∧ (∀ d a, (d, a) ∈ zip desired applied → CApply d (Val a) ∈ take 21 (calls webRun.1))
  ∧ (∃ g items, CList g (managedSelector webRelease) (inl items) ∈ take 21 (calls webRun.1) ∧ staleConfig ∈ items)
  ∧ resourceID staleConfig ≠ "" ∧ (resourceID staleConfig ∉ resourceID <$> applied) ∧ GetDeletionTimestamp staleConfig = false.
Proof.
  apply (deletes_only_stale 7 webRelease staleWorld (take 21 (calls webRun.1)) (drop 22 (calls webRun.1)) staleConfig None).
  - reflexivity.
  - apply (call_at (calls webRun.1)). vm_compute. reflexivity.
Defined.

(** The status that this run writes. *)
Definition webStatus : RenderedRelease :=
  match last (calls webRun.1) with Some (CStatusUpdate r _) => r | _ => webRelease end.

Lemma status_tells_truth_witness :
  drop 23 (calls webRun.1) = [] ∧
  ((applied_says webStatus webRelease ConditionFalse ∧ stResources (relStatus webStatus) = stResources (relStatus webRelease)
    ∧ Forall (λ c, is_namespace c ∨ is_apply c) (take 22 (calls webRun.1)))
   ∨ (∃ desired applied live before lists dels,
      makeDesiredResources webRelease = Val desired ∧ length applied = length desired
      ∧ take 22 (calls webRun.1) = before ++ lists ++ dels ∧ listing webRelease (knownGVKs 7 webRelease applied) lists live
      ∧ (∀ d a, (d, a) ∈ zip desired applied → CApply d (Val a) ∈ take 22 (calls webRun.1))
      ∧ (∀ o, o ∈ findStaleResources live applied → GetDeletionTimestamp o = false → CDelete o None ∈ take 22 (calls webRun.1))
      ∧ applied_says webStatus webRelease ConditionTrue
      ∧ msID <$> stResources (relStatus webStatus) = resourceID <$> applied
      ∧ statusGVK <$> stResources (relStatus webStatus) = GroupVersionKind <$> applied)).
Proof.
  apply (status_tells_truth 7 webRelease staleWorld (take 22 (calls webRun.1)) (drop 23 (calls webRun.1)) webStatus None).
  - reflexivity.
  - apply (call_at (calls webRun.1)). vm_compute. reflexivity.
Defined.


(** ** Releases that are deleted *)

Definition deletedRelease (targetPlane finalizer : string) : RenderedRelease :=
  mkRelease "web" "acme" "uid-1" 2 true [finalizer; "foregroundDeletion"] ∅ targetPlane "dev" "shop" [] None None
    (mkReleaseStatus [] [finalizingCondition 5 2]).

Definition emptyWorld : World := mkWorld None ∅ [].

Definition deletedWeb : RenderedRelease := deletedRelease "dataplane" DataPlaneCleanupFinalizer.

Definition finalRun : World * eres Z := finalize 7 deletedWeb deletedWeb emptyWorld.

Lemma finalRun_eq : finalize 7 deletedWeb deletedWeb emptyWorld = finalRun.
Proof. unfold finalRun. reflexivity. Qed.

Definition finalRelease : RenderedRelease :=
  match last (calls finalRun.1) with Some (CUpdate r _) => r | _ => webRelease end.

Lemma finalizer_waits_for_plane_witness :
  (∀ g, g ∈ (statusGVK <$> stResources (relStatus deletedWeb)) ++ wellKnownDataPlaneGVKs →
     CList g (managedSelector deletedWeb) (inl []) ∈ take 20 (calls finalRun.1)
     ∨ ∃ e, IsNoMatchError e = true ∧ CList g (managedSelector deletedWeb) (inr e) ∈ take 20 (calls finalRun.1))
  ∧ ∀ f, f ∈ relFinalizers finalRelease ↔ f ∈ relFinalizers deletedWeb ∧ f ≠ DataPlaneCleanupFinalizer.
Proof.
  apply (finalizer_waits_for_plane 7 deletedWeb emptyWorld
    (take 20 (calls finalRun.1)) (drop 21 (calls finalRun.1)) finalRelease None).
  - discriminate.
  - rewrite finalRun_eq. apply (call_at (calls finalRun.1)). vm_compute. reflexivity.
Defined.

(** An alert rule is on the plane and stays there. *)
Definition alertRule : Plain := mkPlain (mkGVK "openchoreo.dev" "v1alpha1" "ObservabilityAlertRule") "op" "errors"
  (trackingLabels webRelease "rule" ∅) false.

Definition obsWorld : World := mkWorld None {[key alertRule := alertRule]} [].

Definition deletedAlerts : RenderedRelease := deletedRelease "observabilityplane" ObsPlaneCleanupFinalizer.

Definition obsRun : World * eres Z := finalize 7 deletedAlerts deletedAlerts obsWorld.

Lemma obs_finalizer_skips_plane_witness :
  ∃ r err, calls obsRun.1 = calls obsWorld ++ [CUpdate r err] ∧ (ObsPlaneCleanupFinalizer ∉ relFinalizers r)
    ∧ planeOf obsRun.1 = planeOf obsWorld.
Proof.
  apply (obs_finalizer_skips_plane 7 deletedAlerts obsWorld () None).
  - reflexivity.
  - left.
  - reflexivity.
  - vm_compute. reflexivity.
  - reflexivity.
Defined.
