(* ===== verification/PlaneProxy.v ===== *)
(** * URLs of the gateway

    Escaping and unescaping of path segments ([net/url]), the paths of the
    Kubernetes API as [internal/clients/kubernetes/proxy_client.go] builds them,
    and the lemmas about both. *)

From S2P Require Import Prelude GoStrings GatewayConn ReleaseObjects PlaneObjects PlaneRefs.

#[local] Set Warnings "-register-all".
Open Scope go_scope.

(** ** [url.PathEscape] *)

(** [shouldEscape] in the mode of path segments. *)
Definition shouldEscape (c : ascii) : bool :=
  let n := nat_of_ascii c in
  if (97 <=? n)%nat && (n <=? 122)%nat || (65 <=? n)%nat && (n <=? 90)%nat || (48 <=? n)%nat && (n <=? 57)%nat
  then false
  else if bool_decide (c ∈ ["-"; "_"; "."; "~"]%char) then false
  else if bool_decide (c ∈ ["$"; "&"; "+"; ","; "/"; ":"; ";"; "="; "?"; "@"]%char)
  then bool_decide (c ∈ ["/"; ";"; ","; "?"]%char)
  else true.

Definition upperhex (n : nat) : ascii := ascii_of_nat (if (n <? 10)%nat then 48 + n else 55 + n).

Fixpoint PathEscape (s : string) : string :=
  match s with
  | "" => ""
  | String c s =>
      if shouldEscape c then
        String "%" (String (upperhex (nat_of_ascii c / 16)) (String (upperhex (nat_of_ascii c mod 16)) (PathEscape s)))
      else String c (PathEscape s)
  end.

Definition unhex (c : ascii) : option nat :=
  let n := nat_of_ascii c in
  if (48 <=? n)%nat && (n <=? 57)%nat then Some (n - 48)
  else if (97 <=? n)%nat && (n <=? 102)%nat then Some (n - 87)
  else if (65 <=? n)%nat && (n <=? 70)%nat then Some (n - 55)
  else None.

(** [unescape] in the mode of paths: [None] for a bad escape. *)
Fixpoint pathUnescape (s : string) : option string :=
  match s with
  | "" => Some ""
  | String c s =>
      if bool_decide (c = "%"%char) then
        match s with
        | String h (String l s) =>
            match unhex h, unhex l with
            | Some a, Some b => String (ascii_of_nat (16 * a + b)) <$> pathUnescape s
            | _, _ => None
            end
        | _ => None
        end
      else String c <$> pathUnescape s
  end.

Lemma unhex_upperhex n : n < 16 → unhex (upperhex n) = Some n.
Proof. intros Hn. do 16 (destruct n as [|n]; [reflexivity|]). lia. Qed.

Lemma PathEscape_cons_raw c : shouldEscape c = false → c ≠ "%"%char.
Proof. by intros H ->. Qed.

Lemma pathUnescape_cons c s : c ≠ "%"%char → pathUnescape (String c s) = String c <$> pathUnescape s.
Proof. intros Hc. cbn [pathUnescape]. by rewrite bool_decide_eq_false_2. Qed.

(** Escaping in front of any text is undone. *)
Lemma pathUnescape_escape s t : pathUnescape (PathEscape s +:+ t) = (λ u, s +:+ u) <$> pathUnescape t.
Proof.
  induction s as [|c s IH]; cbn [PathEscape].
  { rewrite sapp_nil_l. by destruct (pathUnescape t). }
  destruct (shouldEscape c) eqn:E.
  - rewrite !sapp_cons. cbn [pathUnescape]. rewrite bool_decide_eq_true_2 by done.
    pose proof (nat_ascii_bounded c) as Hb.
    rewrite !unhex_upperhex by (try apply Nat.Div0.div_lt_upper_bound; try apply Nat.mod_upper_bound; lia).
    rewrite IH. rewrite <- Nat.div_mod_eq, ascii_nat_embedding. by destruct (pathUnescape t).
  - rewrite sapp_cons, pathUnescape_cons by (by eapply PathEscape_cons_raw).
    rewrite IH. by destruct (pathUnescape t).
Qed.

Lemma pathUnescape_plain s t :
  has_byte "%" s = false → pathUnescape (s +:+ t) = (λ u, s +:+ u) <$> pathUnescape t.
Proof.
  induction s as [|c s IH]; [rewrite sapp_nil_l; by destruct (pathUnescape t)|].
  cbn [has_byte]. intros [Hc Hs]%orb_false_iff. rewrite sapp_cons, pathUnescape_cons.
  - rewrite (IH Hs). by destruct (pathUnescape t).
  - intros ->. by rewrite bool_decide_eq_true_2 in Hc.
Qed.

Lemma has_byte_escape c s :
  shouldEscape c = true → unhex c = None → c ≠ "%"%char → has_byte c (PathEscape s) = false.
Proof.
  intros Hc Hx Hp. induction s as [|d s IH]; [done|]. cbn [PathEscape].
  destruct (shouldEscape d) eqn:E; cbn [has_byte].
  - pose proof (nat_ascii_bounded d) as Hb.
    rewrite IH, !bool_decide_eq_false_2; [done|..]; try congruence; intros ->;
      rewrite unhex_upperhex in Hx by (try apply Nat.Div0.div_lt_upper_bound; try apply Nat.mod_upper_bound; lia); done.
  - rewrite IH, bool_decide_eq_false_2 by congruence. done.
Qed.

(** ** Resources *)

Definition isVowel (c : ascii) : bool := bool_decide (c ∈ ["a"; "e"; "i"; "o"; "u"]%char).

Definition byteAt (s : string) (i : nat) : ascii := default "000"%char (String.get i s).

Definition pluralizeKind (kind : string) : string :=
  let lower := ToLower kind in
  if bool_decide (lower = "endpoints") then "endpoints"
  else if bool_decide (lower = "ingress") then "ingresses"
  else if bool_decide (lower = "networkpolicy") then "networkpolicies"
  else if HasSuffix lower "s" || HasSuffix lower "x" || HasSuffix lower "ch" || HasSuffix lower "sh" then lower +:+ "es"
  else if HasSuffix lower "y" && (1 <? String.length lower)
          && negb (isVowel (byteAt lower (String.length lower - 2)))
  then stake (String.length lower - 1) lower +:+ "ies"
  else lower +:+ "s".

Definition clusterScopedKinds : list string :=
  ["Namespace"; "Node"; "PersistentVolume"; "ClusterRole"; "ClusterRoleBinding"; "StorageClass";
   "CustomResourceDefinition"; "APIService"; "ValidatingWebhookConfiguration"; "MutatingWebhookConfiguration";
   "PriorityClass"].

Definition isNamespaced (gvk : GVK) : bool := negb (bool_decide (gvkKind gvk ∈ clusterScopedKinds)).

Definition buildListPath (gvk : GVK) (namespace : string) : string :=
  let resource := pluralizeKind (gvkKind gvk) in
  let inNamespace := negb (bool_decide (namespace = "")) && isNamespaced gvk in
  if bool_decide (gvkGroup gvk = "") then
    if inNamespace then "/api/" +:+ gvkVersion gvk +:+ "/namespaces/" +:+ namespace +:+ "/" +:+ resource
    else "/api/" +:+ gvkVersion gvk +:+ "/" +:+ resource
  else if inNamespace then
    "/apis/" +:+ gvkGroup gvk +:+ "/" +:+ gvkVersion gvk +:+ "/namespaces/" +:+ namespace +:+ "/" +:+ resource
  else "/apis/" +:+ gvkGroup gvk +:+ "/" +:+ gvkVersion gvk +:+ "/" +:+ resource.

Definition buildGetPath (gvk : GVK) (namespace name : string) : string :=
  let resource := pluralizeKind (gvkKind gvk) in
  let inNamespace := negb (bool_decide (namespace = "")) && isNamespaced gvk in
  if bool_decide (gvkGroup gvk = "") then
    if inNamespace
    then "/api/" +:+ gvkVersion gvk +:+ "/namespaces/" +:+ namespace +:+ "/" +:+ resource +:+ "/" +:+ name
    else "/api/" +:+ gvkVersion gvk +:+ "/" +:+ resource +:+ "/" +:+ name
  else if inNamespace then
    "/apis/" +:+ gvkGroup gvk +:+ "/" +:+ gvkVersion gvk +:+ "/namespaces/" +:+ namespace +:+ "/" +:+ resource +:+ "/" +:+ name
  else "/apis/" +:+ gvkGroup gvk +:+ "/" +:+ gvkVersion gvk +:+ "/" +:+ resource +:+ "/" +:+ name.

Definition buildCreatePath (gvk : GVK) (namespace : string) : string := buildListPath gvk namespace.
Definition buildUpdatePath (gvk : GVK) (namespace name : string) : string := buildGetPath gvk namespace name.
Definition buildDeletePath (gvk : GVK) (namespace name : string) : string := buildGetPath gvk namespace name.
Definition buildStatusPath (gvk : GVK) (namespace name : string) : string := buildGetPath gvk namespace name +:+ "/status".

(** The first slash ends a path of the API. *)
Lemma paths_absolute gvk namespace name :
  (∃ rest, buildListPath gvk namespace = "/" +:+ rest) ∧ (∃ rest, buildGetPath gvk namespace name = "/" +:+ rest).
Proof.
  unfold buildListPath, buildGetPath. cbn zeta.
  split; repeat case_match; eexists; by rewrite ?sapp_cons, ?sapp_nil_l.
Qed.

(** Core and grouped resources have their name as the last segment. *)
Lemma buildGetPath_list gvk namespace name :
  buildGetPath gvk namespace name = buildListPath gvk namespace +:+ "/" +:+ name.
Proof. unfold buildListPath, buildGetPath. cbn zeta. repeat case_match; by rewrite !sapp_assoc. Qed.

(** ** Reading a target

    What a server sees of the target of a request: the unescaped path and the
    raw query. *)
Definition readTarget (target : string) : option (string * string) :=
  let '(raw, query, _) := Cut "?" target in (λ p, (p, query)) <$> pathUnescape raw.

Lemma Cut_none c s : has_byte c s = false → Cut c s = (s, "", false).
Proof.
  induction s as [|d s IH]; [done|]. cbn [has_byte Cut]. rewrite orb_false_iff. intros [-> Hs]. by rewrite IH.
Qed.

Lemma TrimPrefix_app p s : TrimPrefix (p +:+ s) p = s.
Proof.
  unfold TrimPrefix. assert (HasPrefix (p +:+ s) p = true) as -> by (apply HasPrefix_spec; by exists s). apply sdrop_app.
Qed.

(** * Clients of planes

    [internal/clients/kubernetes]: the proxy client that speaks the Kubernetes
    API of a plane through the cluster gateway ([proxy_client.go]), the manager
    that caches one client per plane ([client.go]) and the provider the
    controllers use ([plane_client_provider.go]).  The network, the files of TLS,
    the codec of objects and the errors of the Kubernetes library are classes. *)

#[local] Set Warnings "-register-all".
Open Scope go_scope.

(** ** TLS *)

Record ProxyTLSConfig := mkProxyTLSConfig {
  CACertPath : string;
  ClientCertPath : string;
  ClientKeyPath : string;
  Insecure : bool
}.

(** Files and key pairs, with the text of an error. *)
Class TLSFiles := {
  KeyPair : Type;
  ReadFile : string → result string;
  LoadX509KeyPair : string → string → result KeyPair
}.

Section Proxy.
Context {X : X509} {TF : TLSFiles}.

Record tlsConfig := mkTLSConfig {
  InsecureSkipVerify : bool;
  RootCAs : option CertPool;
  Certificates : list KeyPair
}.

(** The roots of the server's certificate. *)
Definition proxyRoots (c : ProxyTLSConfig) : result (bool * option CertPool) :=
  if Insecure c then Ok (true, None)
  else if bool_decide (CACertPath c = "") then Ok (false, None)
  else
    match ReadFile (CACertPath c) with
    | Err m => Err ("failed to read CA certificate: " +:+ m)
    | Ok caCert =>
        match AppendCertsFromPEM NewCertPool caCert with
        | (pool, true) => Ok (false, Some pool)
        | (_, false) => Err "failed to parse CA certificate"
        end
    end.

Definition buildProxyTLSConfig (config : option ProxyTLSConfig) : result tlsConfig :=
  match config with
  | None => Ok (mkTLSConfig false None [])
  | Some c =>
      match proxyRoots c with
      | Err m => Err m
      | Ok (insecure, roots) =>
          if bool_decide (ClientCertPath c = "") && bool_decide (ClientKeyPath c = "") then Ok (mkTLSConfig insecure roots [])
          else if bool_decide (ClientCertPath c = "") || bool_decide (ClientKeyPath c = "") then
            Err "both ClientCertPath and ClientKeyPath must be set for mTLS"
          else
            match LoadX509KeyPair (ClientCertPath c) (ClientKeyPath c) with
            | Err m => Err ("failed to load client certificate and key: " +:+ m)
            | Ok clientCert => Ok (mkTLSConfig insecure roots [clientCert])
            end
      end
  end.

(** ** The proxy client *)

Record ProxyClient := mkProxyClient {
  gatewayURL : string;
  planeType : string;
  planeID : string;
  pcNamespace : string;
  pcName : string;
  httpTLS : tlsConfig
}.

Definition TrimSuffix (s suffix : string) : string :=
  if HasSuffix s suffix then stake (String.length s - String.length suffix) s else s.

Definition NewProxyClient (gatewayURL planeIdentifier crNamespace crName : string) (tls : option ProxyTLSConfig)
    : ProxyClient + clientError :=
  if bool_decide (gatewayURL = "") then inr (plainErr "gatewayURL is required")
  else if bool_decide (planeIdentifier = "") then inr (plainErr "planeIdentifier is required")
  else if bool_decide (crName = "") then inr (plainErr "crName is required")
  else
    match Split "/" planeIdentifier with
    | [planeType; planeID] =>
        match buildProxyTLSConfig tls with
        | Err m => inr (plainErr ("failed to build TLS config: " +:+ m))
        | Ok cfg => inl (mkProxyClient (TrimSuffix gatewayURL "/") planeType planeID crNamespace crName cfg)
        end
    | _ => inr (plainErr ("invalid planeIdentifier format: expected 'planeType/planeID', got '" +:+ planeIdentifier +:+ "'"))
    end.

(** The part of the URL behind the gateway's own. *)
Definition proxyTarget (pc : ProxyClient) (apiPath : string) : string :=
  "/api/proxy/" +:+ PathEscape (planeType pc) +:+ "/" +:+ PathEscape (planeID pc) +:+ "/" +:+ PathEscape (pcNamespace pc)
  +:+ "/" +:+ PathEscape (pcName pc) +:+ "/k8s" +:+ apiPath.

Definition buildProxyURL (pc : ProxyClient) (apiPath : string) : string := gatewayURL pc +:+ proxyTarget pc apiPath.

(** ** Requests *)

Record httpRequest := mkRequest {
  rqMethod : string;
  rqURL : string;
  rqHeaders : list (string * string);
  rqBody : string
}.

(** The body may fail to be read. *)
Record httpResponse := mkResponse { respCode : Z; respBody : result string }.

Context {S O P : Type}.

(** [NewRequest] gives the error of a malformed request, [Do] the answer of the
    network or the error. *)
Class HTTPTransport := {
  NewRequest : string → string → option string;
  Do : tlsConfig → httpRequest → S → S * result httpResponse
}.

(** Objects, patches and the JSON codec. *)
Class ObjectCodec := {
  ObjectKinds : O → result (list GVK);
  objNamespace : O → string;
  objName : O → string;
  Marshal : O → result string;
  Unmarshal : string → O → result O;
  patchType : P → string;
  patchData : P → O → result string
}.

(** Errors of [k8s.io/apimachinery]: a [metav1.Status] in a body that says
    "Failure", and the text of the errors that the package makes. *)
Class APIErrors := {
  statusFailure : string → option clientError;
  apiErrorText : errTag → string → string → string → string → string
}.
Context {HT : HTTPTransport} {OC : ObjectCodec} {AE : APIErrors}.

(** A status error carries a reason of the API server: it is not the error of a
    REST mapper that does not know a kind. *)
Class APIErrorsLaws := status_no_match : ∀ body err, statusFailure body = Some err → IsNoMatchErr ∉ ceTags err.

Definition apiError (t : errTag) (group resource name msg : string) : clientError :=
  mkClientError (apiErrorText t group resource name msg) [t].

Definition bodyText (resp : httpResponse) : string := match respBody resp with Ok b => b | Err _ => "" end.

(** The reason for a code without a status in the body. *)
Definition codeTag (code : Z) : option errTag :=
  if bool_decide (code = 404%Z) then Some IsNotFoundErr
  else if bool_decide (code = 409%Z) then Some IsConflictErr
  else if bool_decide (code = 403%Z) then Some IsForbiddenErr
  else if bool_decide (code = 401%Z) then Some IsUnauthorizedErr
  else if bool_decide (code = 400%Z) then Some IsBadRequestErr
  else if bool_decide (code = 500%Z) || bool_decide (code = 503%Z) then Some IsInternalErr
  else None.

Definition handleErrorResponse (resp : httpResponse) (gvk : GVK) (name : string) : clientError :=
  let body := bodyText resp in
  match statusFailure body with
  | Some err => err
  | None =>
      match codeTag (respCode resp) with
      | Some t => apiError t (gvkGroup gvk) (pluralizeKind (gvkKind gvk)) name body
      | None => plainErr ("proxy request failed with status " +:+ Itoa (respCode resp) +:+ ": " +:+ body)
      end
  end.

Definition ofResult {A} (before : string) (r : result A) : CM S A :=
  match r with Ok a => mret a | Err m => fails (plainErr (before +:+ m)) end.

Definition getGVK (o : O) : CM S GVK :=
  gvks ← ofResult "failed to get GVK: " (ObjectKinds o);
  match gvks with
  | [] => fails (plainErr "no GVK found for object")
  | gvk :: _ => mret gvk
  end.

Definition getGVKForList (o : O) : CM S GVK :=
  gvk ← getGVK o; mret (mkGVK (gvkGroup gvk) (gvkVersion gvk) (TrimSuffix (gvkKind gvk) "List")).

(** [NewRequestWithContext], the headers and [Do]. *)
Definition send (pc : ProxyClient) (req : httpRequest) : CM S httpResponse :=
  match NewRequest (rqMethod req) (rqURL req) with
  | Some m => fails (plainErr ("failed to create request: " +:+ m))
  | None => λ s,
      match Do (httpTLS pc) req s with
      | (s', Ok resp) => (s', inl resp)
      | (s', Err m) => (s', inr (plainErr ("proxy request failed: " +:+ m)))
      end
  end.

Definition isSuccess (resp : httpResponse) : bool := (200 <=? respCode resp)%Z && (respCode resp <? 300)%Z.

(** The answer is decoded into the object. *)
Definition decodeInto (resp : httpResponse) (gvk : GVK) (name : string) (o : O) : CM S O :=
  if negb (isSuccess resp) then fails (handleErrorResponse resp gvk name)
  else
    body ← ofResult "failed to read response: " (respBody resp);
    ofResult "failed to decode response: " (Unmarshal body o).

Definition acceptJSON : list (string * string) := [("Accept", "application/json")].
Definition sendJSON : list (string * string) := [("Content-Type", "application/json"); ("Accept", "application/json")].

Definition withQuery (url query : string) : string :=
  if bool_decide (query = "") then url else url +:+ "?" +:+ query.

Definition proxyGet (pc : ProxyClient) (namespace name : string) (o : O) : CM S O :=
  gvk ← getGVK o;
  resp ← send pc (mkRequest "GET" (buildProxyURL pc (buildGetPath gvk namespace name)) acceptJSON "");
  decodeInto resp gvk name o.

(** The options of a list; the selectors are their texts. *)
Record ListOptions := mkListOptions {
  loNamespace : string;
  loLabelSelector : option string;
  loFieldSelector : option string;
  loLimit : Z;
  loContinue : string
}.

Definition buildListQueryParams (opts : ListOptions) : string :=
  Join ((match loLabelSelector opts with Some s => ["labelSelector=" +:+ s] | None => [] end)
        ++ (match loFieldSelector opts with Some s => ["fieldSelector=" +:+ s] | None => [] end)
        ++ (if (0 <? loLimit opts)%Z then ["limit=" +:+ Itoa (loLimit opts)] else [])
        ++ (if bool_decide (loContinue opts = "") then [] else ["continue=" +:+ loContinue opts])) "&".

Definition proxyList (pc : ProxyClient) (opts : ListOptions) (o : O) : CM S O :=
  gvk ← getGVKForList o;
  resp ← send pc (mkRequest "GET"
    (withQuery (buildProxyURL pc (buildListPath gvk (loNamespace opts))) (buildListQueryParams opts)) acceptJSON "");
  decodeInto resp gvk "" o.

Definition proxyCreate (pc : ProxyClient) (o : O) : CM S O :=
  gvk ← getGVK o;
  body ← ofResult "failed to marshal object: " (Marshal o);
  resp ← send pc (mkRequest "POST" (buildProxyURL pc (buildCreatePath gvk (objNamespace o))) sendJSON body);
  decodeInto resp gvk (objName o) o.

Definition proxyUpdate (pc : ProxyClient) (o : O) : CM S O :=
  gvk ← getGVK o;
  body ← ofResult "failed to marshal object: " (Marshal o);
  resp ← send pc (mkRequest "PUT" (buildProxyURL pc (buildUpdatePath gvk (objNamespace o) (objName o))) sendJSON body);
  decodeInto resp gvk (objName o) o.

(** [buildPatchQueryParams] and [buildSubResourcePatchQueryParams] *)
Definition buildPatchQueryParams (fieldManager : string) (force : option bool) : string :=
  Join ((if bool_decide (fieldManager = "") then [] else ["fieldManager=" +:+ fieldManager])
        ++ (if bool_decide (force = Some true) then ["force=true"] else [])) "&".

Definition patchAt (pc : ProxyClient) (path : string) (gvk : GVK) (p : P) (fieldManager : string) (force : option bool) (o : O)
    : CM S O :=
  data ← ofResult "failed to get patch data: " (patchData p o);
  resp ← send pc (mkRequest "PATCH" (withQuery (buildProxyURL pc path) (buildPatchQueryParams fieldManager force))
    [("Content-Type", patchType p); ("Accept", "application/json")] data);
  decodeInto resp gvk (objName o) o.

Definition proxyPatch (pc : ProxyClient) (p : P) (fieldManager : string) (force : option bool) (o : O) : CM S O :=
  gvk ← getGVK o;
  patchAt pc (buildUpdatePath gvk (objNamespace o) (objName o)) gvk p fieldManager force o.

Definition proxyDelete (pc : ProxyClient) (o : O) : CM S unit :=
  gvk ← getGVK o;
  resp ← send pc (mkRequest "DELETE" (buildProxyURL pc (buildDeletePath gvk (objNamespace o) (objName o))) acceptJSON "");
  if negb (bool_decide (respCode resp = 200%Z)) && negb (bool_decide (respCode resp = 404%Z))
  then fails (handleErrorResponse resp gvk (objName o))
  else mret ().

(** [Status().Update] and [Status().Patch] *)
Definition statusUpdate (pc : ProxyClient) (o : O) : CM S O :=
  gvk ← getGVK o;
  body ← ofResult "failed to marshal object: " (Marshal o);
  resp ← send pc (mkRequest "PUT" (buildProxyURL pc (buildStatusPath gvk (objNamespace o) (objName o))) sendJSON body);
  decodeInto resp gvk (objName o) o.

Definition statusPatch (pc : ProxyClient) (p : P) (fieldManager : string) (force : option bool) (o : O) : CM S O :=
  gvk ← getGVK o;
  patchAt pc (buildStatusPath gvk (objNamespace o) (objName o)) gvk p fieldManager force o.
End Proxy.
Arguments HTTPTransport {X TF} S.
Arguments ObjectCodec : clear implicits.

(** ** The manager of clients *)

Section Manager.
Context {X : X509} {TF : TLSFiles}.

Record KubeMultiClientManager := mkManager {
  clients : gmap string ProxyClient;
  mgrTLS : option ProxyTLSConfig
}.

Definition NewManagerWithProxyTLS (tls : option ProxyTLSConfig) : KubeMultiClientManager := mkManager ∅ tls.

Abbreviation M := (CM KubeMultiClientManager).

Definition GetOrAddClient (key : string) (createFunc : ProxyClient + clientError) : M ProxyClient := λ m,
  match clients m !! key with
  | Some cl => (m, inl cl)
  | None =>
      match createFunc with
      | inr err => (m, inr err)
      | inl cl => (mkManager (<[key := cl]> (clients m)) (mgrTLS m), inl cl)
      end
  end.

Definition RemoveClient (key : string) (m : KubeMultiClientManager) : KubeMultiClientManager :=
  mkManager (delete key (clients m)) (mgrTLS m).

(** [fmt.Sprintf] of slash-separated segments. *)
Definition segments (l : list string) : string := Join l "/".

(** The namespace of the URL for a cluster-scoped object. *)
Definition clusterPlaceholder : string := "_cluster".

Definition proxyFor (url planeIdentifier crNamespace crName : string) (m : KubeMultiClientManager) : ProxyClient + clientError :=
  NewProxyClient url planeIdentifier crNamespace crName (mgrTLS m).

Definition GetK8sClientFromDataPlane (url : string) (dp : DataPlane) : M ProxyClient := λ m,
  if bool_decide (url = "") then (m, inr (plainErr "gatewayURL is required for cluster agent mode"))
  else
    let planeID := effectivePlaneID dp in
    GetOrAddClient (segments ["v2"; "dataplane"; planeID; crNamespace dp; crName dp])
      (proxyFor url (segments ["dataplane"; planeID]) (crNamespace dp) (crName dp) m) m.

Definition GetK8sClientFromWorkflowPlane (url : string) (wp : WorkflowPlane) : M ProxyClient := λ m,
  if bool_decide (url = "") then (m, inr (plainErr "gatewayURL is required for cluster agent mode"))
  else
    let planeID := effectivePlaneID wp in
    GetOrAddClient (segments ["v2"; "workflowplane"; planeID; crNamespace wp; crName wp])
      (proxyFor url (segments ["workflowplane"; planeID]) (crNamespace wp) (crName wp) m) m.

Definition GetK8sClientFromClusterWorkflowPlane (url : string) (cwp : ClusterWorkflowPlane) : M ProxyClient := λ m,
  if bool_decide (url = "") then (m, inr (plainErr "gatewayURL is required for cluster agent mode"))
  else
    let planeID := effectivePlaneID cwp in
    GetOrAddClient (segments ["v2"; "clusterworkflowplane"; planeID; crName cwp])
      (proxyFor url (segments ["workflowplane"; planeID]) clusterPlaceholder (crName cwp) m) m.

Definition GetK8sClientFromClusterDataPlane (url : string) (cdp : ClusterDataPlane) : M ProxyClient := λ m,
  if bool_decide (url = "") then (m, inr (plainErr "gatewayURL is required for cluster agent mode"))
  else
    let planeID := effectivePlaneID cdp in
    GetOrAddClient (segments ["v2"; "clusterdataplane"; planeID; crName cdp])
      (proxyFor url (segments ["dataplane"; planeID]) clusterPlaceholder (crName cdp) m) m.

(** Whether a CA is configured, inline or in a secret. *)
Definition agentMode (c : ClusterAgentConfig) : bool :=
  negb (bool_decide (vfValue (ClientCA c) = ""))
  || match vfSecretKeyRef (ClientCA c) with Some _ => true | None => false end.

Definition GetK8sClientFromObservabilityPlane (url : string) (op : ObservabilityPlane) : M ProxyClient := λ m,
  if agentMode (opClusterAgent (crSpec op)) then
    if bool_decide (url = "") then (m, inr (plainErr "gatewayURL is required for agent mode"))
    else
      GetOrAddClient (segments ["v2"; "observabilityplane"; crNamespace op; crName op])
        (proxyFor url (segments ["observabilityplane"; effectivePlaneID op]) (crNamespace op) (crName op) m) m
  else (m, inr (plainErr "agent mode must be enabled for ObservabilityPlane")).

Definition GetK8sClientFromClusterObservabilityPlane (url : string) (cop : ClusterObservabilityPlane) : M ProxyClient := λ m,
  if agentMode (copClusterAgent (crSpec cop)) then
    if bool_decide (url = "") then (m, inr (plainErr "gatewayURL is required for agent mode"))
    else
      GetOrAddClient (segments ["v2"; "clusterobservabilityplane"; crName cop])
        (proxyFor url (segments ["observabilityplane"; effectivePlaneID cop]) clusterPlaceholder (crName cop) m) m
  else (m, inr (plainErr "agent mode must be enabled for ClusterObservabilityPlane")).

(** The provider on top of the manager. *)
Definition NewPlaneClientProvider (url : string) : Provider KubeMultiClientManager ProxyClient :=
  mkProvider
    (GetK8sClientFromDataPlane url) (GetK8sClientFromClusterDataPlane url)
    (GetK8sClientFromObservabilityPlane url) (GetK8sClientFromClusterObservabilityPlane url)
    (GetK8sClientFromWorkflowPlane url) (GetK8sClientFromClusterWorkflowPlane url).
End Manager.
