(* ===== verification/GatewayClient.v ===== *)
(** * The HTTP front of the gateway

    [internal/cluster-gateway]: the validation of proxied requests
    ([validator.go]), the proxy handler of [server.go] that routes a request to an
    agent of the plane, and the API by which controllers announce changes of
    planes and ask for their status ([plane_api.go]). *)

From S2P Require Import Prelude GoStrings GatewayConn FabricMesh GatewayServer PlaneObjects PlaneProxy.

#[local] Set Warnings "-register-all".
Open Scope go_scope.

(** ** Requests and answers *)

(** A request as a handler sees it: the path is unescaped, a header has its
    values in order. *)
Record serverRequest := mkServerRequest {
  srMethod : string;
  srPath : string;
  srRawQuery : string;
  srHeaders : gmap string (list string);
  srContentLength : Z;
  srBody : result string
}.

Definition headerGet (r : serverRequest) (k : string) : string :=
  match srHeaders r !! k with Some (v :: _) => v | _ => "" end.

(** What a handler does to the headers of its answer. *)
Inductive headerOp := AddHeader (k v : string) | SetHeader (k v : string).

Record answer (B : Type) := mkAnswer { anCode : Z; anHeaders : list headerOp; anBody : B + string }.
Arguments mkAnswer {B} _ _ _.
Arguments anCode {B} _.
Arguments anHeaders {B} _.
Arguments anBody {B} _.

(** [http.Error]: a message instead of a body. *)
Definition httpError {B} (msg : string) (code : Z) : answer B :=
  mkAnswer code [SetHeader "Content-Type" "text/plain; charset=utf-8"; SetHeader "X-Content-Type-Options" "nosniff"] (inr msg).

Definition jsonAnswer {B} (b : B) : answer B := mkAnswer 200 [SetHeader "Content-Type" "application/json"] (inl b).

(** ** Validation *)

Record RequestValidator := mkValidator {
  maxRequestBodySize : Z;
  allowedMethods : gset string;
  blockedPaths : list string;
  allowedTargets : gset string
}.

Definition NewRequestValidator : RequestValidator :=
  mkValidator (10 * 1024 * 1024)
    {["GET"; "POST"; "PUT"; "PATCH"; "DELETE"; "HEAD"; "OPTIONS"]}
    ["/api/v1/namespaces/kube-system/secrets"; "/apis/v1/serviceaccounts"]
    {["k8s"; "monitoring"; "logs"]}.

Record ValidationError := mkValidationError { veCode : Z; veMessage : string }.

Definition nul : string := String "000"%char "".

Definition ValidateRequest (v : RequestValidator) (r : serverRequest) (target path : string) : option ValidationError :=
  if negb (bool_decide (srMethod r ∈ allowedMethods v)) then
    Some (mkValidationError 405 ("HTTP method not allowed: " +:+ srMethod r))
  else if negb (bool_decide (target ∈ allowedTargets v)) then
    Some (mkValidationError 403 ("Target not allowed: " +:+ target))
  else if existsb (Contains path) (blockedPaths v) then
    Some (mkValidationError 403 ("Access to path is blocked: " +:+ path))
  else if (maxRequestBodySize v <? srContentLength r)%Z then
    Some (mkValidationError 413 ("Request body too large: " +:+ Itoa (srContentLength r) +:+ " bytes (max: "
      +:+ Itoa (maxRequestBodySize v) +:+ ")"))
  else if Contains path ".." then Some (mkValidationError 400 "Path contains directory traversal")
  else if Contains path nul then Some (mkValidationError 400 "Path contains null bytes")
  else None.

Definition AllowTarget (v : RequestValidator) (target : string) : RequestValidator :=
  mkValidator (maxRequestBodySize v) (allowedMethods v) (blockedPaths v) ({[target]} ∪ allowedTargets v).
Definition BlockPath (v : RequestValidator) (path : string) : RequestValidator :=
  mkValidator (maxRequestBodySize v) (allowedMethods v) (blockedPaths v ++ [path]) (allowedTargets v).
Definition SetMaxRequestBodySize (v : RequestValidator) (size : Z) : RequestValidator :=
  mkValidator size (allowedMethods v) (blockedPaths v) (allowedTargets v).

(** ** Routing *)

Definition crNamespaceClusterPlaceholder : string := "_cluster".

Record route := mkRoute {
  rtPlaneType : string;
  rtPlaneID : string;
  rtNamespace : string;
  rtName : string;
  rtTarget : string;
  rtPath : string
}.

(** The six parts of a proxy path. *)
Definition parseProxyPath (path : string) : option route :=
  match Split "/" (TrimPrefix path "/api/proxy/") with
  | planeType :: planeID :: ns :: name :: target :: p :: rest =>
      Some (mkRoute planeType planeID ns name target ("/" +:+ Join (p :: rest) "/"))
  | _ => None
  end.

Definition routePlane (rt : route) : string := slash (rtPlaneType rt) (rtPlaneID rt).

(** The placeholder stands for the empty namespace of a cluster-scoped CR. *)
Definition routeCR (rt : route) : string :=
  slash (if bool_decide (rtNamespace rt = crNamespaceClusterPlaceholder) then "" else rtNamespace rt) (rtName rt).

Definition isStreamingRequest (r : serverRequest) (path : string) : bool :=
  if Contains (srRawQuery r) "watch=true" then true
  else if Contains path "/log" && Contains (srRawQuery r) "follow=true" then true
  else bool_decide (headerGet r "Connection" = "Upgrade") || negb (bool_decide (headerGet r "Upgrade" = "")).

Section HTTP.
Context `{X : X509} `{MR : MapRange}.

Definition handleStreamingProxy : answer string :=
  httpError ("Streaming operations (watch, logs -f, exec, port-forward) are not yet supported through the HTTP proxy. "
    +:+ "Use the CQRS API (/api/k8s-resources/) for resource operations, or connect directly to the data plane for streaming operations.") 501.

(** [requestID] is the identifier that is generated when the request has none,
    [reply] and [hops] are what agents and the mesh do. *)
Definition handleHTTPProxy (f : Fleet) (v : RequestValidator) (r : serverRequest) (requestID : string)
    (reply : agentOutcome) (hops : nat → hop) : Fleet * answer string :=
  let id := if bool_decide (headerGet r "X-Request-ID" = "") then requestID else headerGet r "X-Request-ID" in
  match parseProxyPath (srPath r) with
  | None =>
      (f, httpError "invalid proxy URL format: /api/proxy/{planeType}/{planeID}/{namespace}/{crName}/{target}/{path}" 400)
  | Some rt =>
      match ValidateRequest v r (rtTarget rt) (rtPath rt) with
      | Some e => (f, httpError (veMessage e) (veCode e))
      | None =>
          if isStreamingRequest r (rtPath rt) then (f, handleStreamingProxy)
          else
            match srBody r with
            | Err _ => (f, httpError "failed to read request body" 400)
            | Ok body =>
                let tunnelReq :=
                  mkTunnelRequest "" id (rtTarget rt) (srMethod r) (rtPath rt) (srRawQuery r) (srHeaders r) body in
                match SendHTTPTunnelRequestForCR f (routePlane rt) (routeCR rt) tunnelReq 30000 reply hops with
                | (f1, Err err) =>
                    if Contains err "no agents authorized for CR"
                    then (f1, httpError ("Forbidden: Agent not authorized for CR " +:+ routeCR rt) 403)
                    else (f1, httpError ("proxy request failed: " +:+ err) 502)
                | (f1, Ok (response, servedBy)) =>
                    (f1, mkAnswer (StatusCode response)
                           ((map_range (rs_Headers response) ≫= λ '(k, vs), AddHeader k <$> vs)
                            ++ [SetHeader "X-Cluster-Gateway-Entry-Pod" (selfID f1);
                                SetHeader "X-Cluster-Gateway-Served-By" servedBy])
                           (inl (rs_Body response)))
                end
            end
      end
  end.

(** ** The API of planes *)

(** The notification of a controller. *)
Record PlaneNotification := mkNotification {
  nfPlaneType : string;
  nfPlaneID : string;
  nfEvent : string;
  nfNamespace : string;
  nfName : string
}.

Record PlaneNotificationResponse := mkNotificationResponse {
  nrSuccess : bool;
  nrAction : string;
  nrDisconnectedAgents : option nat;
  nrAuthorizationsGranted : option nat;
  nrAuthorizationsRevoked : option nat
}.

Definition propagatePlaneEvent (mesh : option Mesh) (ev : PlaneEvent) : option Mesh :=
  match mesh with
  | None => None
  | Some m => Some (BroadcastPlaneEvent m ev)
  end.

Definition eventOf (n : PlaneNotification) : PlaneEvent :=
  mkPlaneEvent (nfPlaneType n) (nfPlaneID n) (nfEvent n) (nfNamespace n) (nfName n).

(** The payload is decoded by [encoding/json], or it is not; [allCRs] is what
    the server reads of the CRs of the plane. *)
Definition handlePlaneNotification (cm : ConnectionManager) (mesh : option Mesh)
    (allCRs : result (gmap string (option string))) (payload : result PlaneNotification)
    : ConnectionManager * option Mesh * answer PlaneNotificationResponse :=
  match payload with
  | Err m => (cm, mesh, httpError ("invalid payload: " +:+ m) 400)
  | Ok n =>
      if bool_decide (nfPlaneType n = "") || bool_decide (nfPlaneID n = "") || bool_decide (nfEvent n = "") then
        (cm, mesh, httpError "missing required fields: planeType, planeID, event" 400)
      else if bool_decide (nfEvent n = "created") || bool_decide (nfEvent n = "updated") then
        match fetchCRClientCA allCRs (nfNamespace n) (nfName n) with
        | Err m => (cm, mesh, httpError ("failed to fetch CR CA for re-validation: " +:+ m) 503)
        | Ok caData =>
            match RevalidateCR cm (nfPlaneType n) (nfPlaneID n) (nfNamespace n) (nfName n) caData with
            | (cm1, Err m) => (cm1, mesh, httpError ("re-validation failed: " +:+ m) 500)
            | (cm1, Ok (updated, removed)) =>
                (cm1, propagatePlaneEvent mesh (eventOf n),
                 jsonAnswer (mkNotificationResponse true "revalidate" None (Some updated) (Some removed)))
            end
        end
      else if bool_decide (nfEvent n = "deleted") then
        let '(cm1, count) := DisconnectAllForPlane cm (nfPlaneType n) (nfPlaneID n) in
        (cm1, propagatePlaneEvent mesh (eventOf n),
         jsonAnswer (mkNotificationResponse true "disconnect" (Some count) None None))
      else (cm, mesh, httpError ("unknown event type: " +:+ nfEvent n) 400)
  end.

(** [PlaneReconnectResponse]: the number of agents that were disconnected. *)
Definition handleReconnect (cm : ConnectionManager) (mesh : option Mesh) (planeType planeID : string)
    : ConnectionManager * option Mesh * answer (bool * nat) :=
  if bool_decide (planeType = "") || bool_decide (planeID = "") then
    (cm, mesh, httpError "missing planeType or planeID in path" 400)
  else
    let '(cm1, count) := DisconnectAllForPlane cm planeType planeID in
    (cm1, propagatePlaneEvent mesh (mkPlaneEvent planeType planeID "reconnect" "" ""), jsonAnswer (true, count)).

(** The query parameters are empty when they are absent. *)
Definition handleGetPlaneStatus (cm : ConnectionManager) (fabricRegistry : option Registry)
    (planeType planeID namespace name : string) : answer PlaneConnectionStatus :=
  if bool_decide (planeType = "") || bool_decide (planeID = "") then
    httpError "missing planeType or planeID in path" 400
  else
    jsonAnswer (if negb (bool_decide (name = ""))
                then CRAuthorizationStatus cm fabricRegistry planeType planeID namespace name
                else PlaneStatus cm fabricRegistry planeType planeID).

Definition handleGetAllPlaneStatus (cm : ConnectionManager) (fabricRegistry : option Registry)
    : answer (list PlaneConnectionStatus * nat) :=
  let statuses := AllPlaneStatuses cm fabricRegistry in jsonAnswer (statuses, length statuses).
End HTTP.

(** * The controllers' client of the gateway

    [internal/clients/gateway/client.go]: notifications of the life of planes,
    forced reconnects and status queries over HTTP, and the classification of
    their errors.  The network and the JSON codec are classes. *)

#[local] Set Warnings "-register-all".
Open Scope go_scope.

(** ** Errors *)

(** [TransientError] and [PermanentError] with a status code, if there is one. *)
Definition transientError (code : Z) (msg : string) : clientError :=
  mkClientError
    (if (0 <? code)%Z then "transient gateway error (status " +:+ Itoa code +:+ "): " +:+ msg
     else "transient gateway error: " +:+ msg) [IsTransientErr].

Definition permanentError (code : Z) (msg : string) : clientError :=
  mkClientError
    (if (0 <? code)%Z then "permanent gateway error (status " +:+ Itoa code +:+ "): " +:+ msg
     else "permanent gateway error: " +:+ msg) [IsPermanentErr].

Definition isNetworkError (err : clientError) : bool :=
  Contains (ceText err) "connection refused" || Contains (ceText err) "connection reset"
  || Contains (ceText err) "no such host" || Contains (ceText err) "network is unreachable"
  || Contains (ceText err) "i/o timeout" || hasTag IsDeadlineErr err.

Definition IsTransientError (err : clientError) : bool := hasTag IsTransientErr err || isNetworkError err.
Definition IsPermanentError (err : clientError) : bool := hasTag IsPermanentErr err.

Definition classifyHTTPError (statusCode : Z) : clientError :=
  if (500 <=? statusCode)%Z && (statusCode <? 600)%Z then transientError statusCode "gateway server error"
  else if bool_decide (statusCode = 429%Z) then transientError statusCode "gateway rate limited"
  else if (400 <=? statusCode)%Z && (statusCode <? 500)%Z then permanentError statusCode "gateway client error"
  else transientError statusCode "unexpected status code".

(** The error to return for a retry, if there should be one. *)
Definition HandleGatewayError (err : clientError) : option clientError :=
  if IsTransientError err then Some err
  else if IsPermanentError err then None
  else None.

(** ** Calls *)

(** What the client decodes of the gateway's answers. *)
Record NotificationResponse := mkNotified { ncDisconnectedAgents : Z; ncSuccess : bool }.
Record ConnectionStatus := mkConnectionStatus {
  gsPlaneType : string;
  gsPlaneID : string;
  gsConnected : bool;
  gsConnectedAgents : Z;
  gsLastSeen : Z
}.

Section Client.
Context {S : Type}.

Class GatewayTransport := {
  gwNewRequest : string → string → option string;
  gwDo : httpRequest → S → S * (httpResponse + clientError)
}.

Class GatewayCodec := {
  encodeNotification : PlaneNotification → result string;
  decodeNotification : string → result NotificationResponse;
  decodeStatus : string → result ConnectionStatus
}.
Context {GT : GatewayTransport} {GC : GatewayCodec} (baseURL : string).

(** A request and its decoded answer. *)
Definition gatewayCall {A} (req : httpRequest) (failed : string) (decode : string → result A) : CM S A :=
  match gwNewRequest (rqMethod req) (rqURL req) with
  | Some m => fails (plainErr ("failed to create request: " +:+ m))
  | None => λ s,
      match gwDo req s with
      | (s', inr _) => (s', inr (transientError 0 failed))
      | (s', inl resp) =>
          if negb (bool_decide (respCode resp = 200%Z)) then (s', inr (classifyHTTPError (respCode resp)))
          else
            match respBody resp with
            | Err m => (s', inr (plainErr ("failed to decode response: " +:+ m)))
            | Ok body =>
                match decode body with
                | Err m => (s', inr (plainErr ("failed to decode response: " +:+ m)))
                | Ok a => (s', inl a)
                end
            end
      end
  end.

Definition NotifyPlaneLifecycle (n : PlaneNotification) : CM S NotificationResponse :=
  match encodeNotification n with
  | Err m => fails (plainErr ("failed to marshal notification: " +:+ m))
  | Ok body =>
      gatewayCall (mkRequest "POST" (baseURL +:+ "/api/v1/planes/notify") [("Content-Type", "application/json")] body)
        "failed to send notification" decodeNotification
  end.

Definition ForceReconnect (planeType planeID : string) : CM S NotificationResponse :=
  gatewayCall (mkRequest "POST" (baseURL +:+ "/api/v1/planes/" +:+ planeType +:+ "/" +:+ planeID +:+ "/reconnect") [] "")
    "failed to send reconnect request" decodeNotification.

Definition statusURL (planeType planeID namespace name : string) : string :=
  let url := baseURL +:+ "/api/v1/planes/" +:+ planeType +:+ "/" +:+ planeID +:+ "/status" in
  if negb (bool_decide (namespace = "")) && negb (bool_decide (name = ""))
  then url +:+ "?namespace=" +:+ namespace +:+ "&name=" +:+ name
  else url.

Definition QueryPlaneStatus (planeType planeID namespace name : string) : CM S ConnectionStatus :=
  gatewayCall (mkRequest "GET" (statusURL planeType planeID namespace name) [] "") "failed to get plane status" decodeStatus.
End Client.
Arguments GatewayTransport : clear implicits.
