(* ===== verification/PlaneControllers.v ===== *)
(** * The controllers of planes

    [internal/controller/dataplane], [observabilityplane], [workflowplane] and
    their cluster-scoped counterparts: each keeps the gateway informed of a
    plane's life, drops cached clients, and reports whether agents are connected.
    The six controllers share their steps; what differs is in a [PlaneKind].  A
    run is recorded as the list of its calls with their answers. *)

From S2P Require Import Prelude GoStrings ReleaseObjects PlaneObjects PlaneProxy GatewayClient.

#[local] Set Warnings "-register-all".
Open Scope go_scope.

Definition TypeCreated : string := "Created".
Definition TypeFinalizing : string := "Finalizing".

(** One minute and thirty seconds. *)
Definition StatusUpdateInterval : Z := 60000000000.
Definition deletionBlockedInterval : Z := 30000000000.

(** ** Objects that change *)

Section Update.
Context {Spec : Type}.

Definition withCRStatus (p : PlaneCR Spec) (st : PlaneCRStatus) : PlaneCR Spec := mkPlaneCR (crMeta p) (crSpec p) st.

Definition withObserved (p : PlaneCR Spec) (g : Z) : PlaneCR Spec :=
  withCRStatus p (mkPlaneCRStatus g (psConditions (crStatus p)) (psAgentConnection (crStatus p))).
Definition withConditions (p : PlaneCR Spec) (cs : list Condition) : PlaneCR Spec :=
  withCRStatus p (mkPlaneCRStatus (psObservedGeneration (crStatus p)) cs (psAgentConnection (crStatus p))).
Definition withAgentConnection (p : PlaneCR Spec) (ac : AgentConnectionStatus) : PlaneCR Spec :=
  withCRStatus p (mkPlaneCRStatus (psObservedGeneration (crStatus p)) (psConditions (crStatus p)) (Some ac)).
Definition withCRFinalizers (p : PlaneCR Spec) (fs : list string) : PlaneCR Spec :=
  let m := crMeta p in
  mkPlaneCR (mkMeta (metaName m) (metaNamespace m) (metaUID m) (metaGeneration m) (metaDeleting m) fs (metaAnnotations m))
    (crSpec p) (crStatus p).

Definition generation (p : PlaneCR Spec) : Z := metaGeneration (crMeta p).
Definition observed (p : PlaneCR Spec) : Z := psObservedGeneration (crStatus p).
End Update.

(** ** What the kinds differ in *)

Record PlaneKind (Spec : Type) := mkPlaneKind {
  kindFinalizer : string;
  kindReason : string;
  kindMessage : string;
  (* the notification of an event *)
  kindNotification : PlaneCR Spec → string → PlaneNotification;
  (* plane type, plane identifier, namespace and name of the status query *)
  kindQuery : PlaneCR Spec → string * string * string * string;
  (* the keys of cached clients, from the version of the cache *)
  kindCacheKeys : string → PlaneCR Spec → list string;
  (* whether a change of an existing object is announced *)
  kindAnnouncesChanges : bool
}.
Arguments mkPlaneKind {Spec} _ _ _ _ _ _ _.
Arguments kindFinalizer {Spec} _.
Arguments kindReason {Spec} _.
Arguments kindMessage {Spec} _.
Arguments kindNotification {Spec} _.
Arguments kindQuery {Spec} _.
Arguments kindCacheKeys {Spec} _.
Arguments kindAnnouncesChanges {Spec} _.

(** [invalidateCache] and [notifyGateway] of namespaced planes. *)
Definition namespacedNotification {Spec} `{HasPlaneID Spec} (planeType : string) (p : PlaneCR Spec) (event : string) : PlaneNotification :=
  mkNotification planeType (effectivePlaneID p) event (crNamespace p) (crName p).

Definition namespacedQuery {Spec} `{HasPlaneID Spec} (planeType : string) (p : PlaneCR Spec) : string * string * string * string :=
  (planeType, effectivePlaneID p, crNamespace p, crName p).

Definition namespacedCacheKeys {Spec} `{HasPlaneID Spec} (planeType version : string) (p : PlaneCR Spec) : list string :=
  segments [version; planeType; effectivePlaneID p; crNamespace p; crName p]
  :: (if bool_decide (effectivePlaneID p = crName p) then []
      else [segments [version; planeType; crName p; crNamespace p; crName p]]).

(** The same for cluster-scoped planes, whose identifier is required. *)
Definition clusterNotification {Spec} `{HasPlaneID Spec} (planeType : string) (p : PlaneCR Spec) (event : string) : PlaneNotification :=
  mkNotification planeType (specPlaneID (crSpec p)) event "" (crName p).

Definition clusterQuery {Spec} `{HasPlaneID Spec} (planeType : string) (p : PlaneCR Spec) : string * string * string * string :=
  (planeType, specPlaneID (crSpec p), "", crName p).

Definition clusterCacheKeys {Spec} `{HasPlaneID Spec} (planeType version : string) (p : PlaneCR Spec) : list string :=
  [segments [version; planeType; specPlaneID (crSpec p); crName p]].

Definition observabilityCacheKeys (version : string) (p : ObservabilityPlane) : list string :=
  [segments [version; "observabilityplane"; crNamespace p; crName p]].
Definition clusterObservabilityCacheKeys (version : string) (p : ClusterObservabilityPlane) : list string :=
  [segments [version; "clusterobservabilityplane"; crName p]].

Definition dataPlaneKind : PlaneKind DataPlaneSpec :=
  mkPlaneKind "openchoreo.dev/dataplane-cleanup" "DataPlaneCreated" "Dataplane is created"
    (namespacedNotification "dataplane") (namespacedQuery "dataplane") (namespacedCacheKeys "dataplane") true.
Definition observabilityPlaneKind : PlaneKind ObservabilityPlaneSpec :=
  mkPlaneKind "openchoreo.dev/observabilityplane-cleanup" "ObservabilityPlaneCreated" "Observabilityplane is created"
    (namespacedNotification "observabilityplane") (namespacedQuery "observabilityplane") observabilityCacheKeys true.
Definition workflowPlaneKind : PlaneKind WorkflowPlaneSpec :=
  mkPlaneKind "openchoreo.dev/workflowplane-cleanup" "WorkflowPlaneCreated" "Workflowplane is created"
    (namespacedNotification "workflowplane") (namespacedQuery "workflowplane") (namespacedCacheKeys "workflowplane") true.
Definition clusterDataPlaneKind : PlaneKind ClusterDataPlaneSpec :=
  mkPlaneKind "openchoreo.dev/clusterdataplane-cleanup" "ClusterDataPlaneCreated" "ClusterDataplane is created"
    (clusterNotification "dataplane") (clusterQuery "dataplane") (clusterCacheKeys "clusterdataplane") false.
Definition clusterObservabilityPlaneKind : PlaneKind ClusterObservabilityPlaneSpec :=
  mkPlaneKind "openchoreo.dev/clusterobservabilityplane-cleanup" "ClusterObservabilityPlaneCreated"
    "Observabilityplane is created"
    (clusterNotification "observabilityplane") (clusterQuery "observabilityplane") clusterObservabilityCacheKeys false.
Definition clusterWorkflowPlaneKind : PlaneKind ClusterWorkflowPlaneSpec :=
  mkPlaneKind "openchoreo.dev/clusterworkflowplane-cleanup" "ClusterWorkflowPlaneCreated" "Workflowplane is created"
    (clusterNotification "workflowplane") (clusterQuery "workflowplane") (clusterCacheKeys "clusterworkflowplane") false.

(** ** The environment of a controller *)

Section Controllers.
Context {Spec S : Type} {SC : StatusConditions} {FZ : Finalizers}.

(** The gateway's client and the manager of clients may be nil. *)
Record GatewayOps := mkGatewayOps {
  opNotify : PlaneNotification → CM S NotificationResponse;
  opStatus : string → string → string → string → CM S ConnectionStatus
}.

Class PlaneEnv := {
  readCR : string → string → CM S (PlaneCR Spec);
  writeCR : PlaneCR Spec → CM S unit;
  writeStatus : PlaneCR Spec → CM S unit;
  (* environments of a namespace whose index has this name *)
  countEnvironments : string → string → CM S nat;
  gatewayClient : option GatewayOps;
  clientManager : option (string → S → S);
  cacheVersion : string
}.
Context {PE : PlaneEnv}.

Inductive planeCall :=
  | PUpdate (p : PlaneCR Spec) (err : option clientError)
  | PStatusUpdate (p : PlaneCR Spec) (err : option clientError)
  | PNotify (n : PlaneNotification) (err : option clientError)
  | PQuery (q : string * string * string * string) (err : option clientError)
  | PCount (result : nat + clientError)
  | PForget (key : string)
  | PEvent (reason message : string).

Record PlaneWorld := mkPlaneWorld { pwState : S; pwCalls : list planeCall }.

Abbreviation M := (CM PlaneWorld).

Definition errOf {A} (r : A + clientError) : option clientError := match r with inl _ => None | inr e => Some e end.

(** A call on the state, recorded with its answer. *)
Definition performed {A} (f : A + clientError → planeCall) (m : CM S A) : M A := λ w,
  let r := m (pwState w) in (mkPlaneWorld r.1 (pwCalls w ++ [f r.2]), r.2).

Definition emit (c : planeCall) : M unit := λ w, (mkPlaneWorld (pwState w) (pwCalls w ++ [c]), inl ()).

Definition planeUpdate (p : PlaneCR Spec) : M unit := performed (λ r, PUpdate p (errOf r)) (writeCR p).
Definition planeStatusUpdate (p : PlaneCR Spec) : M unit := performed (λ r, PStatusUpdate p (errOf r)) (writeStatus p).

Definition forget (key : string) : M unit := λ w,
  match clientManager with
  | Some f => (mkPlaneWorld (f key (pwState w)) (pwCalls w ++ [PForget key]), inl ())
  | None => (w, inl ())
  end.

Context (k : PlaneKind Spec).

(** ** Steps *)

Definition ensurePlaneFinalizer (p : PlaneCR Spec) : M (PlaneCR Spec * bool) :=
  if metaDeleting (crMeta p) then mret (p, false)
  else
    let '(fs, added) := AddFinalizer (metaFinalizers (crMeta p)) (kindFinalizer k) in
    if added then let p := withCRFinalizers p fs in planeUpdate p ≫= λ _, mret (p, true) else mret (p, false).

Definition shouldIgnoreReconcile (p : PlaneCR Spec) : bool :=
  match FindStatusCondition (psConditions (crStatus p)) TypeCreated with Some _ => true | None => false end.

Definition managed : bool :=
  match clientManager with Some _ => negb (bool_decide (cacheVersion = "")) | None => false end.

Definition invalidateCache (p : PlaneCR Spec) : M unit :=
  foldr (λ key rest, forget key ≫= λ _, rest) (mret ()) (kindCacheKeys k cacheVersion p).

Definition notifyGateway (g : GatewayOps) (p : PlaneCR Spec) (event : string) : M unit :=
  let n := kindNotification k p event in
  orElse (performed (λ r, PNotify n (errOf r)) (opNotify g n)) (wrapErrorf "failed to notify gateway: ") ≫= λ _, mret ().

(** Notify, and go on unless the error asks for a retry: whether the gateway
    was notified. *)
Definition notifyOrRetry (p : PlaneCR Spec) (event : string) : M bool :=
  match gatewayClient with
  | None => mret false
  | Some g =>
      r ← attempt (notifyGateway g p event);
      match r with
      | inl _ => mret true
      | inr err => match HandleGatewayError err with Some e => fails e | None => mret false end
      end
  end.

Definition connectedMessage (agents : Z) : string :=
  if bool_decide (agents = 1%Z) then "1 agent connected" else Itoa agents +:+ " agents connected (HA mode)".

Definition connectionOf (now : Z) (old : option AgentConnectionStatus) (st : ConnectionStatus) : AgentConnectionStatus :=
  let ac := default (mkAgentConnectionStatus false 0 None None None "") old in
  if gsConnected st then
    mkAgentConnectionStatus true (gsConnectedAgents st)
      (if acConnected ac then acLastConnectedTime ac else Some now) (acLastDisconnectedTime ac)
      (Some (gsLastSeen st)) (connectedMessage (gsConnectedAgents st))
  else
    mkAgentConnectionStatus false (gsConnectedAgents st)
      (acLastConnectedTime ac) (if acConnected ac then Some now else acLastDisconnectedTime ac)
      (acLastHeartbeatTime ac) "No agents connected".

Definition populateAgentConnectionStatus (now : Z) (p : PlaneCR Spec) : M (PlaneCR Spec) :=
  match gatewayClient with
  | None => mret p
  | Some g =>
      let q := kindQuery k p in
      let '(planeType, planeID, namespace, name) := q in
      st ← performed (λ r, PQuery q (errOf r)) (opStatus g planeType planeID namespace name);
      mret (withAgentConnection p (connectionOf now (psAgentConnection (crStatus p)) st))
  end.

(** The status is polled unless the gateway was just notified; an error of the
    poll is only logged. *)
Definition pollUnless (now : Z) (notified : bool) (p : PlaneCR Spec) : M (PlaneCR Spec) :=
  if notified then mret p
  else
    r ← attempt (populateAgentConnectionStatus now p);
    mret (match r with inl p' => p' | inr _ => p end).

(** ** Reconciliation *)

(** An object that was created before; an error of the status update is only
    logged. *)
Definition refresh (now : Z) (p : PlaneCR Spec) : M Z :=
  let changed := kindAnnouncesChanges k && (observed p <? generation p)%Z
                 && match gatewayClient with Some _ => true | None => false end in
  '(p, notified) ←
    (if changed : bool
     then notified ← notifyOrRetry p "updated"; mret (withObserved p (generation p), notified)
     else mret (p, false));
  p ← pollUnless now notified p;
  attempt (planeStatusUpdate p) ≫= λ _, mret StatusUpdateInterval.

Definition createdCondition (now : Z) (p : PlaneCR Spec) : Condition :=
  mkCondition TypeCreated ConditionTrue (kindReason k) (kindMessage k) now (generation p).

Definition create (now : Z) (p : PlaneCR Spec) : M Z :=
  let p := withObserved p (generation p) in
  let p := withConditions p (SetStatusCondition (psConditions (crStatus p)) (createdCondition now p)).1 in
  notified ← notifyOrRetry p "updated";
  p ← pollUnless now notified p;
  planeStatusUpdate p ≫= λ _,
  emit (PEvent "ReconcileComplete" ("Successfully created " +:+ crName p)) ≫= λ _,
  mret StatusUpdateInterval.

(** The last steps of a deletion. *)
Definition releasePlane (p : PlaneCR Spec) : M Z :=
  notifyOrRetry p "deleted" ≫= λ _,
  (if managed then invalidateCache p else mret ()) ≫= λ _,
  let '(fs, removed) := RemoveFinalizer (metaFinalizers (crMeta p)) (kindFinalizer k) in
  (if removed : bool then orElse (planeUpdate (withCRFinalizers p fs)) (wrapErrorf "failed to remove finalizer: ") else mret ())
  ≫= λ _, mret 0%Z.

Definition finalizePlane (p : PlaneCR Spec) : M Z :=
  if negb (ContainsFinalizer (metaFinalizers (crMeta p)) (kindFinalizer k)) then mret 0%Z else releasePlane p.

(** [finalizer] is the finalization of the kind. *)
Definition reconcilePlane (finalizer : PlaneCR Spec → M Z) (now : Z) (namespace name : string) : M Z := λ w,
  match readCR namespace name (pwState w) with
  | (s, inr err) =>
      (mkPlaneWorld s (pwCalls w), if hasTag IsNotFoundErr err then inl 0%Z else inr err)
  | (s, inl p) =>
      let w := mkPlaneWorld s (pwCalls w) in
      if metaDeleting (crMeta p) then finalizer p w
      else
        ('(p, added) ← ensurePlaneFinalizer p;
         if added : bool then mret 0%Z
         else
           (if managed && negb (shouldIgnoreReconcile p) then invalidateCache p else mret ()) ≫= λ _,
           if shouldIgnoreReconcile p then refresh now p else create now p) w
  end.

(** ** Data planes are kept while an environment refers to them *)

Definition updatePlaneConditions (old p : PlaneCR Spec) : M unit :=
  if NeedConditionUpdate (psConditions (crStatus old)) (psConditions (crStatus p))
  then planeStatusUpdate (withConditions old (psConditions (crStatus p)))
  else mret ().

Definition countReferencingEnvironments (p : PlaneCR Spec) : M nat :=
  orElse (performed PCount (countEnvironments (crNamespace p) (crName p))) (wrapErrorf "failed to list environments: ").

Definition deletionBlockedCondition (now : Z) (p : PlaneCR Spec) (msg : string) : Condition :=
  NewCondition now TypeFinalizing ConditionFalse "DeletionBlocked" msg (generation p).
Definition planeFinalizingCondition (now : Z) (p : PlaneCR Spec) : Condition :=
  NewCondition now TypeFinalizing ConditionTrue "DataplaneFinalizing" "Dataplane is finalizing" (generation p).

(** The rest of the finalization, when the references were counted. *)
Definition finalizeCounted (now : Z) (p : PlaneCR Spec) (refCount : nat) : M Z :=
  if (0 <? refCount)%nat then
    let msg := "Deletion blocked: dataplane is still referenced by " +:+ Itoa (Z.of_nat refCount) +:+ " environment(s)" in
    let '(cs, changed) := SetStatusCondition (psConditions (crStatus p)) (deletionBlockedCondition now p msg) in
    (if changed : bool then updatePlaneConditions p (withConditions p cs) else mret ()) ≫= λ _, mret deletionBlockedInterval
  else
    let '(cs, changed) := SetStatusCondition (psConditions (crStatus p)) (planeFinalizingCondition now p) in
    if changed : bool then updatePlaneConditions p (withConditions p cs) ≫= λ _, mret 0%Z
    else releasePlane (withConditions p cs).

Definition finalizeDataPlaneCR (now : Z) (p : PlaneCR Spec) : M Z :=
  if negb (ContainsFinalizer (metaFinalizers (crMeta p)) (kindFinalizer k)) then mret 0%Z
  else
    refCount ← orElse (countReferencingEnvironments p) (wrapErrorf "failed to check environment references: ");
    finalizeCounted now p refCount.
End Controllers.
Arguments PlaneEnv : clear implicits.
Arguments GatewayOps : clear implicits.
Arguments planeCall : clear implicits.
Arguments PlaneWorld : clear implicits.
Arguments mkPlaneWorld {Spec S} _ _.

(** ** The six controllers *)

Section Six.
Context {S : Type} {SC : StatusConditions} {FZ : Finalizers}.

Definition reconcileDataPlane {PE : PlaneEnv DataPlaneSpec S} (now : Z) : string → string → CM (PlaneWorld DataPlaneSpec S) Z :=
  reconcilePlane dataPlaneKind (finalizeDataPlaneCR dataPlaneKind now) now.
Definition reconcileObservabilityPlane {PE : PlaneEnv ObservabilityPlaneSpec S} (now : Z)
    : string → string → CM (PlaneWorld ObservabilityPlaneSpec S) Z :=
  reconcilePlane observabilityPlaneKind (finalizePlane observabilityPlaneKind) now.
Definition reconcileWorkflowPlane {PE : PlaneEnv WorkflowPlaneSpec S} (now : Z)
    : string → string → CM (PlaneWorld WorkflowPlaneSpec S) Z :=
  reconcilePlane workflowPlaneKind (finalizePlane workflowPlaneKind) now.
Definition reconcileClusterDataPlane {PE : PlaneEnv ClusterDataPlaneSpec S} (now : Z)
    : string → string → CM (PlaneWorld ClusterDataPlaneSpec S) Z :=
  reconcilePlane clusterDataPlaneKind (finalizePlane clusterDataPlaneKind) now.
Definition reconcileClusterObservabilityPlane {PE : PlaneEnv ClusterObservabilityPlaneSpec S} (now : Z)
    : string → string → CM (PlaneWorld ClusterObservabilityPlaneSpec S) Z :=
  reconcilePlane clusterObservabilityPlaneKind (finalizePlane clusterObservabilityPlaneKind) now.
Definition reconcileClusterWorkflowPlane {PE : PlaneEnv ClusterWorkflowPlaneSpec S} (now : Z)
    : string → string → CM (PlaneWorld ClusterWorkflowPlaneSpec S) Z :=
  reconcilePlane clusterWorkflowPlaneKind (finalizePlane clusterWorkflowPlaneKind) now.
End Six.
