(* ===== verification/PlaneProxySpec.v ===== *)
(** * The clients of planes reach their plane

    A request of a proxy client is routed by the gateway to the plane and the CR
    of the client; a cached client is always the one of its plane, but for the
    identifier of observability planes; and errors of the proxy never say that
    a kind is unknown. *)

From S2P Require Import Prelude GoStrings GatewayConn FabricMesh GatewayServer GatewayServerSpec ReleaseObjects PlaneObjects PlaneRefs PlaneProxy GatewayClient.

#[local] Set Warnings "-register-all".
Open Scope go_scope.

(** Names as the schema admits them have no slash. *)
Definition noSlash (s : string) : Prop := has_byte "/" s = false.

Lemma Split_slash s t : noSlash s → Split "/" (s +:+ "/" +:+ t) = s :: Split "/" t.
Proof. apply Split_app_sep. Qed.

(** ** Routing *)

Section Routing.
Context {X : X509} {TF : TLSFiles}.

Record cleanClient (pc : ProxyClient) : Prop := {
  clean_type : noSlash (planeType pc);
  clean_id : noSlash (planeID pc);
  clean_ns : noSlash (pcNamespace pc);
  clean_name : noSlash (pcName pc)
}.

(** A path of the API with nothing that a URL escapes. *)
Definition plainPath (path : string) : Prop :=
  ∃ rest, path = "/" +:+ rest ∧ has_byte "%" rest = false ∧ has_byte "?" rest = false.

Lemma escape_no_query s : has_byte "?" (PathEscape s) = false.
Proof. by apply has_byte_escape. Qed.

Lemma proxyTarget_no_query pc path : plainPath path → has_byte "?" (proxyTarget pc path) = false.
Proof.
  intros (rest & -> & _ & Hq). unfold proxyTarget.
  rewrite !has_byte_app, !escape_no_query, Hq. reflexivity.
Qed.

Definition rawPath (pc : ProxyClient) (path : string) : string :=
  "/api/proxy/" +:+ planeType pc +:+ "/" +:+ planeID pc +:+ "/" +:+ pcNamespace pc +:+ "/" +:+ pcName pc +:+ "/k8s" +:+ path.

Lemma unescape_last s : has_byte "%" s = false → pathUnescape s = Some s.
Proof. intros Hs. rewrite <- (sapp_nil_r s) at 1. rewrite pathUnescape_plain by done. cbn. by rewrite sapp_nil_r. Qed.

Lemma proxyTarget_unescape pc path : plainPath path → pathUnescape (proxyTarget pc path) = Some (rawPath pc path).
Proof.
  intros (rest & -> & Hp & _). unfold proxyTarget, rawPath.
  rewrite (pathUnescape_plain "/api/proxy/"), pathUnescape_escape, (pathUnescape_plain "/"), pathUnescape_escape,
    (pathUnescape_plain "/"), pathUnescape_escape, (pathUnescape_plain "/"), pathUnescape_escape,
    (pathUnescape_plain "/k8s"), unescape_last by (try reflexivity; by rewrite has_byte_app, Hp).
  reflexivity.
Qed.

Lemma rawPath_routes pc path :
  cleanClient pc → plainPath path →
  parseProxyPath (rawPath pc path)
  = Some (mkRoute (planeType pc) (planeID pc) (pcNamespace pc) (pcName pc) "k8s" path).
Proof.
  intros [H1 H2 H3 H4] (rest & -> & _). unfold parseProxyPath, rawPath. rewrite TrimPrefix_app.
  rewrite (Split_slash _ _ H1), (Split_slash _ _ H2), (Split_slash _ _ H3).
  change ("/k8s" +:+ "/" +:+ rest) with ("/" +:+ "k8s" +:+ "/" +:+ rest).
  rewrite (Split_slash _ _ H4), (Split_slash "k8s") by reflexivity.
  destruct (Split "/" rest) as [|p ps] eqn:E; [by apply Split_not_nil in E|].
  by rewrite <- E, Join_Split.
Qed.

(** What the server reads of a request with a query. *)
Lemma readTarget_routes pc path query :
  cleanClient pc → plainPath path →
  ∃ p, readTarget (withQuery (proxyTarget pc path) query) = Some (p, query)
    ∧ parseProxyPath p = Some (mkRoute (planeType pc) (planeID pc) (pcNamespace pc) (pcName pc) "k8s" path).
Proof.
  intros Hc Hp. exists (rawPath pc path). split; [|by apply rawPath_routes].
  unfold readTarget, withQuery. pose proof (proxyTarget_no_query pc path Hp) as Hq.
  case_bool_decide as E.
  - rewrite (Cut_none _ _ Hq), proxyTarget_unescape by done. by subst.
  - change (proxyTarget pc path +:+ "?" +:+ query) with (proxyTarget pc path +:+ String "?" query).
    rewrite (Cut_app _ _ _ Hq), proxyTarget_unescape by done. done.
Qed.

(** The CR that the gateway authorises the request for. *)
Definition clientCR (pc : ProxyClient) : string :=
  slash (if bool_decide (pcNamespace pc = crNamespaceClusterPlaceholder) then "" else pcNamespace pc) (pcName pc).

(** The CR of a route of the client. *)
Lemma route_client pc path :
  routePlane (mkRoute (planeType pc) (planeID pc) (pcNamespace pc) (pcName pc) "k8s" path) = slash (planeType pc) (planeID pc)
  ∧ routeCR (mkRoute (planeType pc) (planeID pc) (pcNamespace pc) (pcName pc) "k8s" path) = clientCR pc.
Proof. done. Qed.


End Routing.

(** * Cached clients belong to their plane

    Along every sequence of calls of the manager of clients, a cached client
    addresses the CR of the plane it is returned for, and its plane identifier
    unless it is of an observability plane. *)

#[local] Set Warnings "-register-all".
Open Scope go_scope.

Section Clients.
Context {X : X509} {TF : TLSFiles}.

(** ** Planes and owners of clients *)

Inductive anyPlane :=
  | ADataPlane (p : DataPlane)
  | AClusterDataPlane (p : ClusterDataPlane)
  | AObservabilityPlane (p : ObservabilityPlane)
  | AClusterObservabilityPlane (p : ClusterObservabilityPlane)
  | AWorkflowPlane (p : WorkflowPlane)
  | AClusterWorkflowPlane (p : ClusterWorkflowPlane).

Definition clientFor (url : string) (x : anyPlane) : CM KubeMultiClientManager ProxyClient :=
  let provider := NewPlaneClientProvider url in
  match x with
  | ADataPlane p => DataPlaneClient provider p
  | AClusterDataPlane p => ClusterDataPlaneClient provider p
  | AObservabilityPlane p => ObservabilityPlaneClient provider p
  | AClusterObservabilityPlane p => ClusterObservabilityPlaneClient provider p
  | AWorkflowPlane p => WorkflowPlaneClient provider p
  | AClusterWorkflowPlane p => ClusterWorkflowPlaneClient provider p
  end.

(** What a client of the plane should address: the type that agents register
    with, the identifier of the plane, and the CR. *)
Definition typeOf (x : anyPlane) : string :=
  match x with
  | ADataPlane _ | AClusterDataPlane _ => "dataplane"
  | AObservabilityPlane _ | AClusterObservabilityPlane _ => "observabilityplane"
  | AWorkflowPlane _ | AClusterWorkflowPlane _ => "workflowplane"
  end.
Definition idOf (x : anyPlane) : string :=
  match x with
  | ADataPlane p => effectivePlaneID p
  | AClusterDataPlane p => effectivePlaneID p
  | AObservabilityPlane p => effectivePlaneID p
  | AClusterObservabilityPlane p => effectivePlaneID p
  | AWorkflowPlane p => effectivePlaneID p
  | AClusterWorkflowPlane p => effectivePlaneID p
  end.
Definition namespaceOf (x : anyPlane) : string :=
  match x with
  | ADataPlane p => crNamespace p
  | AObservabilityPlane p => crNamespace p
  | AWorkflowPlane p => crNamespace p
  | AClusterDataPlane _ | AClusterObservabilityPlane _ | AClusterWorkflowPlane _ => clusterPlaceholder
  end.
Definition nameOf (x : anyPlane) : string :=
  match x with
  | ADataPlane p => crName p
  | AClusterDataPlane p => crName p
  | AObservabilityPlane p => crName p
  | AClusterObservabilityPlane p => crName p
  | AWorkflowPlane p => crName p
  | AClusterWorkflowPlane p => crName p
  end.
Definition isObservability (x : anyPlane) : bool :=
  match x with AObservabilityPlane _ | AClusterObservabilityPlane _ => true | _ => false end.

(** The segments of the key of the plane's client. *)
Definition keySegments (x : anyPlane) : list string :=
  match x with
  | ADataPlane p => ["v2"; "dataplane"; effectivePlaneID p; crNamespace p; crName p]
  | AClusterDataPlane p => ["v2"; "clusterdataplane"; effectivePlaneID p; crName p]
  | AObservabilityPlane p => ["v2"; "observabilityplane"; crNamespace p; crName p]
  | AClusterObservabilityPlane p => ["v2"; "clusterobservabilityplane"; crName p]
  | AWorkflowPlane p => ["v2"; "workflowplane"; effectivePlaneID p; crNamespace p; crName p]
  | AClusterWorkflowPlane p => ["v2"; "clusterworkflowplane"; effectivePlaneID p; crName p]
  end.

(** Names and identifiers as the schema admits them. *)
Definition cleanPlane (x : anyPlane) : Prop := noSlash (idOf x) ∧ noSlash (namespaceOf x) ∧ noSlash (nameOf x).

Lemma keySegments_clean x : cleanPlane x → Forall noSlash (keySegments x).
Proof. intros (H1 & H2 & H3). destruct x; repeat constructor; done. Qed.

(** Equal keys are of planes that agree on everything a client is made of. *)
Lemma key_determines x y :
  cleanPlane x → cleanPlane y → segments (keySegments x) = segments (keySegments y) →
  typeOf x = typeOf y ∧ namespaceOf x = namespaceOf y ∧ nameOf x = nameOf y
  ∧ isObservability x = isObservability y ∧ (isObservability x = false → idOf x = idOf y).
Proof.
  intros Hx%keySegments_clean Hy%keySegments_clean Hk. apply (f_equal (Split "/")) in Hk. unfold segments in Hk.
  rewrite !Split_Join in Hk by (try done; by destruct x, y).
  destruct x, y; simplify_eq/=; done.
Qed.

(** ** What a client addresses *)

Definition addresses (url : string) (pc : ProxyClient) (x : anyPlane) : Prop :=
  gatewayURL pc = TrimSuffix url "/" ∧ planeType pc = typeOf x ∧ pcNamespace pc = namespaceOf x ∧ pcName pc = nameOf x
  ∧ (isObservability x = false → planeID pc = idOf x).

Lemma addresses_key url pc x y :
  cleanPlane x → cleanPlane y → segments (keySegments x) = segments (keySegments y) →
  addresses url pc x → addresses url pc y.
Proof.
  intros Hx Hy Hk (H1 & H2 & H3 & H4 & H5). destruct (key_determines x y Hx Hy Hk) as (K1 & K2 & K3 & K4 & K5).
  split_and!; try congruence. intros Ho. rewrite <- K4 in Ho. rewrite <- (K5 Ho). by apply H5.
Qed.

Lemma NewProxyClient_addresses url x tls pc :
  cleanPlane x →
  NewProxyClient url (segments [typeOf x; idOf x]) (namespaceOf x) (nameOf x) tls = inl pc →
  addresses url pc x ∧ planeID pc = idOf x.
Proof.
  intros (Hid & _ & _). unfold NewProxyClient. repeat case_bool_decide; try done.
  unfold segments. rewrite Split_Join; [|done|by destruct x; repeat constructor].
  destruct (buildProxyTLSConfig tls); [|done]. by intros [= <-].
Qed.

(** Every call is one to the cache with the key of the plane. *)
Lemma clientFor_cached url x m :
  (∃ err, clientFor url x m = (m, inr err))
  ∨ clientFor url x m
    = GetOrAddClient (segments (keySegments x))
        (NewProxyClient url (segments [typeOf x; idOf x]) (namespaceOf x) (nameOf x) (mgrTLS m)) m.
Proof.
  destruct x; cbn;
    unfold GetK8sClientFromDataPlane, GetK8sClientFromClusterDataPlane, GetK8sClientFromObservabilityPlane,
      GetK8sClientFromClusterObservabilityPlane, GetK8sClientFromWorkflowPlane, GetK8sClientFromClusterWorkflowPlane;
    repeat case_match; eauto.
Qed.

(** ** Histories of the cache *)

(** A client is asked for, or one is removed. *)
Inductive mgr_step (url : string) : KubeMultiClientManager → KubeMultiClientManager → Prop :=
  | step_client x m : cleanPlane x → mgr_step url m (clientFor url x m).1
  | step_remove key m : mgr_step url m (RemoveClient key m).

Definition cache_ok (url : string) (m : KubeMultiClientManager) : Prop :=
  ∀ key pc, clients m !! key = Some pc → ∃ x, cleanPlane x ∧ key = segments (keySegments x) ∧ addresses url pc x.

Lemma clientFor_ok url x m :
  cache_ok url m → cleanPlane x →
  cache_ok url (clientFor url x m).1
  ∧ ∀ pc, (clientFor url x m).2 = inl pc → addresses url pc x.
Proof.
  intros Hm Hx. destruct (clientFor_cached url x m) as [(err & ->)| ->]; [done|].
  unfold GetOrAddClient. destruct (clients m !! _) as [cl|] eqn:Hk.
  { split; [done|]. intros pc [= <-]. destruct (Hm _ _ Hk) as (y & Hy & Hkey & Ha). by apply (addresses_key url cl y x). }
  destruct (NewProxyClient _ _ _ _ _) as [cl|err] eqn:Hn; [|done].
  apply NewProxyClient_addresses in Hn as [Hn _]; [|done]. split; [|by intros pc [= <-]].
  intros key pc. cbn. rewrite lookup_insert_Some. intros [[<- <-]|[_ H]]; [by exists x|by apply Hm].
Qed.

Lemma mgr_step_ok url m m' : mgr_step url m m' → cache_ok url m → cache_ok url m'.
Proof.
  intros [x m0 Hx|key m0] Hm; [by apply clientFor_ok|]. intros k pc. cbn. rewrite lookup_delete_Some. intros [_ H]. by apply Hm.
Qed.

Lemma reachable_cache_ok url tls m : rtc (mgr_step url) (NewManagerWithProxyTLS tls) m → cache_ok url m.
Proof.
  intros Hr. assert (H0 : cache_ok url (NewManagerWithProxyTLS tls)) by (intros key pc; cbn; by rewrite lookup_empty).
  induction Hr; eauto using mgr_step_ok.
Qed.

(** C7: Whatever clients were created, cached and removed before, the client
    returned for a plane sends its requests through the configured gateway to
    agents of the plane's type, for the plane's own CR, and, for data and
    workflow planes, to the plane identifier that the CR has now: no plane is
    ever handed the client of another. *)
Theorem client_is_isolated (url : string) (tls : option ProxyTLSConfig) (m m' : KubeMultiClientManager) (x : anyPlane)
    (pc : ProxyClient) :
  rtc (mgr_step url) (NewManagerWithProxyTLS tls) m → cleanPlane x →
  clientFor url x m = (m', inl pc) →
  gatewayURL pc = TrimSuffix url "/" ∧ planeType pc = typeOf x ∧ pcNamespace pc = namespaceOf x ∧ pcName pc = nameOf x
  ∧ (isObservability x = false → planeID pc = idOf x).
Proof.
  intros Hr Hx Hc. destruct (clientFor_ok url x m (reachable_cache_ok url tls m Hr) Hx) as [_ H].
  apply H. by rewrite Hc.
Qed.

(** The client that was cached is returned. *)
Lemma clientFor_again url x m m' pc : clientFor url x m = (m', inl pc) → clients m' !! segments (keySegments x) = Some pc.
Proof.
  destruct (clientFor_cached url x m) as [(err & ->)| ->]; [done|]. unfold GetOrAddClient.
  destruct (clients m !! _) eqn:Hk; [by intros [= <- <-]|]. destruct (NewProxyClient _ _ _ _ _); [|done].
  intros [= <- <-]. apply lookup_insert_eq.
Qed.
End Clients.
