(* ===== verification/PlaneSpec.v ===== *)
(** * What the plane controllers do in which order

    A plane is released only after the gateway was told and cached clients were
    dropped; and two changes that go unnoticed: of a cluster-scoped plane by the
    gateway, and of an observability plane's identifier by its cached client. *)

From S2P Require Import Prelude GoStrings ReleaseObjects GatewayConn PlaneObjects PlaneRefs PlaneProxy GatewayClient PlaneProxySpec PlaneControllers.

#[local] Set Warnings "-register-all".
Open Scope go_scope.

(** ** Traces *)

Section Traces.
Context {Spec S : Type}.
Abbreviation M := (CM (PlaneWorld Spec S)).
Implicit Types (w : PlaneWorld Spec S) (new : list (planeCall Spec)).

(** The calls that are added, with the result, satisfy [Q]. *)
Definition traces {A} (m : M A) (Q : list (planeCall Spec) → A + clientError → Prop) : Prop :=
  ∀ w, ∃ new, pwCalls (m w).1 = pwCalls w ++ new ∧ Q new (m w).2.

Lemma traces_weaken {A} (m : M A) (Q Q' : list (planeCall Spec) → A + clientError → Prop) :
  traces m Q → (∀ new r, Q new r → Q' new r) → traces m Q'.
Proof. intros Hm HQ w. destruct (Hm w) as (new & ? & ?). eauto. Qed.

Lemma traces_ret {A} (a : A) (Q : list (planeCall Spec) → A + clientError → Prop) : Q [] (inl a) → traces (mret a) Q.
Proof. intros H w. exists []. by rewrite app_nil_r. Qed.

Lemma traces_fails {A} e (Q : list (planeCall Spec) → A + clientError → Prop) : Q [] (inr e) → traces (fails e) Q.
Proof. intros H w. exists []. by rewrite app_nil_r. Qed.

Lemma traces_bind {A B} (m : M A) (f : A → M B) P (Q : list (planeCall Spec) → B + clientError → Prop) :
  traces m P → (∀ new e, P new (inr e) → Q new (inr e)) →
  (∀ new a, P new (inl a) → traces (f a) (λ new' r, Q (new ++ new') r)) → traces (m ≫= f) Q.
Proof.
  intros Hm He Hf w. rewrite CM_bind_eq. destruct (Hm w) as (new & Hc & HP). destruct (m w) as [w1 [a|e]]; cbn in *.
  - destruct (Hf new a HP w1) as (new' & Hc' & HQ). exists (new ++ new'). by rewrite Hc', Hc, app_assoc.
  - exists new. by split; [|apply He].
Qed.

Lemma traces_attempt {A} (m : M A) P :
  traces m P → traces (attempt m) (λ new r, ∃ r', r = inl r' ∧ P new r').
Proof. intros Hm w. destruct (Hm w) as (new & Hc & HP). exists new. unfold attempt. cbn. eauto. Qed.

Lemma traces_orElse {A} (m : M A) g P (Q : list (planeCall Spec) → A + clientError → Prop) :
  traces m P → (∀ new a, P new (inl a) → Q new (inl a)) → (∀ new e, P new (inr e) → Q new (inr (g e))) →
  traces (orElse m g) Q.
Proof.
  intros Hm Hv He w. destruct (Hm w) as (new & Hc & HP). exists new. unfold orElse.
  destruct (m w) as [w1 [a|e]]; cbn in *; eauto.
Qed.

Lemma traces_performed {A} f (m : CM S A) :
  traces (performed f m) (λ new r, new = [f r]).
Proof. intros w. exists [f (m (pwState w)).2]. by split. Qed.

(** A run without a kind of call. *)
Definition silent {A} (P : planeCall Spec → Prop) (m : M A) : Prop := traces m (λ new _, Forall (λ c, ¬ P c) new).

Lemma silent_ret {A} P (a : A) : silent P (mret a).
Proof. by apply traces_ret. Qed.

Lemma silent_bind {A B} P (m : M A) (f : A → M B) : silent P m → (∀ a, silent P (f a)) → silent P (m ≫= f).
Proof.
  intros Hm Hf. eapply traces_bind; [exact Hm|done|]. intros new a Hn. eapply traces_weaken; [apply Hf|].
  intros new' r Hn'. by apply Forall_app.
Qed.

Lemma silent_attempt {A} P (m : M A) : silent P m → silent P (attempt m).
Proof. intros Hm. eapply traces_weaken; [apply traces_attempt, Hm|]. by intros new r (r' & -> & Hn). Qed.

Lemma silent_performed {A} P f (m : CM S A) : (∀ r, ¬ P (f r)) → silent P (performed f m).
Proof. intros Hf. eapply traces_weaken; [apply traces_performed|]. intros new r ->. by repeat constructor. Qed.
End Traces.

(** ** Releasing a plane *)

Section Release.
Context {Spec S : Type} {SC : StatusConditions} {FZ : Finalizers} {PE : PlaneEnv Spec S} (k : PlaneKind Spec).
Implicit Types (p : PlaneCR Spec).

(** The gateway was told, or it refused for good. *)
Definition announced p (event : string) (new : list (planeCall Spec)) : Prop :=
  gatewayClient = None
  ∨ ∃ e, PNotify (kindNotification k p event) e ∈ new
       ∧ match e with Some e => HandleGatewayError (wrapErrorf "failed to notify gateway: " e) = None | None => True end.

Definition forgotten p (new : list (planeCall Spec)) : Prop :=
  managed = true → ∀ key, key ∈ kindCacheKeys k cacheVersion p → PForget key ∈ new.

Definition not_PUpdate (c : planeCall Spec) : Prop := match c with PUpdate _ _ => False | _ => True end.

(** The object is written at most once, at the end, and only after the rest. *)
Definition released p (fs : list string) (new : list (planeCall Spec)) : Prop :=
  ∃ pre p' err, new = pre ++ [PUpdate p' err] ∧ Forall not_PUpdate pre ∧ announced p "deleted" pre ∧ forgotten p pre
    ∧ metaFinalizers (crMeta p') = fs.

(** A gateway that answers every notification, and an API server that takes
    every write. *)
Definition gatewayAccepts : Prop := ∀ g n (s : S), gatewayClient = Some g → ∃ resp, (opNotify g n s).2 = inl resp.
Definition storeAccepts : Prop := ∀ p (s : S), (writeCR p s).2 = inl ().

Lemma notifyGateway_traces (g : GatewayOps S) p event :
  traces (notifyGateway k g p event) (λ new r, ∃ e, new = [PNotify (kindNotification k p event) e]
    ∧ (gatewayClient = Some g → gatewayAccepts → r = inl ())
    ∧ match r with
      | inl _ => e = None
      | inr e' => ∃ e0, e = Some e0 ∧ e' = wrapErrorf "failed to notify gateway: " e0
      end).
Proof.
  intros w. unfold notifyGateway, orElse, performed. rewrite CM_bind_eq.
  pose proof (λ H (Ha : gatewayAccepts), Ha g (kindNotification k p event) (pwState w) H) as Ha.
  destruct (opNotify g _ (pwState w)) as [s [resp|e]]; cbn in *; eexists; (split; [done|]); eexists; (split; [done|]);
    (split; [|by eauto]); [done|].
  intros H Hall. by destruct (Ha H Hall) as (? & [=]).
Qed.

Lemma notifyOrRetry_traces p event :
  traces (S := S) (notifyOrRetry k p event)
    (λ new r, Forall not_PUpdate new ∧ (∀ b, r = inl b → announced p event new) ∧ (gatewayAccepts → ∃ b, r = inl b)).
Proof.
  unfold notifyOrRetry, announced. destruct gatewayClient as [g|] eqn:Eg; [|apply traces_ret; split_and!; by eauto].
  eapply traces_bind; [apply traces_attempt, notifyGateway_traces|..].
  - by intros new e (? & [=] & _).
  - intros new r (r' & [= <-] & e & -> & Hacc & Hr). destruct r as [[]|e'].
    + subst e. apply traces_ret. split_and!; [by repeat constructor| |by eauto].
      intros b _. right. exists None. split; [left|done].
    + destruct Hr as (e0 & -> & ->). destruct (HandleGatewayError _) eqn:E.
      * apply traces_fails. split_and!; [by repeat constructor|done|]. intros Ha. by specialize (Hacc Eg Ha).
      * apply traces_ret. split_and!; [by repeat constructor| |by eauto].
        intros b _. right. exists (Some e0). split; [left|done].
Qed.

Lemma forget_traces key : managed = true → traces (S := S) (forget key) (λ new r, new = [PForget key] ∧ r = inl ()).
Proof. unfold managed, forget. intros Hm w. destruct clientManager; [|done]. by exists [PForget key]. Qed.

Lemma invalidateCache_traces p :
  traces (S := S) (if managed then invalidateCache k p else mret ())
    (λ new r, Forall not_PUpdate new ∧ forgotten p new ∧ r = inl ()).
Proof.
  unfold forgotten. destruct managed eqn:Hm; [|by apply traces_ret].
  unfold invalidateCache. induction (kindCacheKeys k cacheVersion p) as [|key keys IH]; cbn [foldr].
  { apply traces_ret. split_and!; [done| |done]. by intros _ key ?%elem_of_nil. }
  eapply traces_bind; [by apply forget_traces|by intros new e [_ [=]]|].
  intros new [] [-> _]. eapply traces_weaken; [exact IH|].
  intros new' r (Hn & Hf & Hr). split_and!; [by constructor| |done]. intros _ x [->|Hx]%elem_of_cons; [left|]. right. by apply Hf.
Qed.

(** What is left of a deletion when it is not blocked. *)
Definition releases p (new : list (planeCall Spec)) (r : Z + clientError) : Prop :=
  (Forall not_PUpdate new ∨ released p (RemoveFinalizer (metaFinalizers (crMeta p)) (kindFinalizer k)).1 new)
  ∧ (gatewayAccepts → storeAccepts → (RemoveFinalizer (metaFinalizers (crMeta p)) (kindFinalizer k)).2 = true →
     r = inl 0%Z ∧ ∃ p', PUpdate p' None ∈ new).

Lemma removal_traces p fs removed :
  traces (S := S)
    (if removed : bool then orElse (planeUpdate (withCRFinalizers p fs)) (wrapErrorf "failed to remove finalizer: ") else mret ())
    (λ new r, (new = [] ∧ removed = false ∧ r = inl ())
              ∨ removed = true ∧ ∃ err, new = [PUpdate (withCRFinalizers p fs) err] ∧ (storeAccepts → err = None ∧ r = inl ())).
Proof.
  destruct removed; [|apply traces_ret; by left]. intros w. unfold orElse, planeUpdate, performed.
  pose proof (λ H : storeAccepts, H (withCRFinalizers p fs) (pwState w)) as Hs.
  destruct (writeCR _ _) as [s [[]|e]]; cbn in *; eexists; (split; [done|]); right; (split; [done|]); eexists; (split; [done|]);
    [done|]. intros H. by specialize (Hs H).
Qed.

Lemma releasePlane_traces p : traces (S := S) (releasePlane k p) (releases p).
Proof.
  unfold releasePlane, releases. eapply traces_bind; [apply notifyOrRetry_traces|..].
  { intros new e (H & _ & Hb). split; [by left|]. intros Ha. by destruct (Hb Ha). }
  intros n1 b (H1 & Ha & _). specialize (Ha b eq_refl).
  eapply traces_bind; [apply invalidateCache_traces|by intros new e (_ & _ & [=])|].
  intros n2 [] (H2 & Hf & _). destruct (RemoveFinalizer _ _) as [fs removed] eqn:Er. cbn [fst snd].
  assert (∀ err, released p fs (n1 ++ n2 ++ [PUpdate (withCRFinalizers p fs) err])) as Hlast.
  { intros err. exists (n1 ++ n2), (withCRFinalizers p fs), err. rewrite <- app_assoc. split_and!; try done.
    - by apply Forall_app.
    - destruct Ha as [?|(e' & ? & ?)]; [by left|right; exists e'; split; [apply elem_of_app; by left|done]].
    - intros Hm key Hk. apply elem_of_app. right. by apply Hf. }
  eapply traces_bind; [apply removal_traces|..].
  - intros new e [(-> & -> & [=])|(-> & err & -> & Hs)]. split; [right; apply Hlast|]. intros _ Hst. by destruct (Hs Hst).
  - intros new [] [(-> & -> & _)|(-> & err & -> & Hs)]; apply traces_ret; rewrite !app_nil_r.
    + split; [left; by apply Forall_app|done].
    + split; [right; apply Hlast|]. intros _ Hst _. destruct (Hs Hst) as [-> _]. split; [done|].
      exists (withCRFinalizers p fs). rewrite !elem_of_app. right. right. left.
Qed.

Lemma releases_contents p cs new r : 
  (∀ event, kindNotification k (withConditions p cs) event = kindNotification k p event) →
  (∀ v, kindCacheKeys k v (withConditions p cs) = kindCacheKeys k v p) →
  releases (withConditions p cs) new r → releases p new r.
Proof.
  intros Hn Hk [H1 H2]. split; [|exact H2]. destruct H1 as [H1|(pre & p' & err & -> & Hpre & Ha & Hf & Hfs)]; [by left|].
  right. exists pre, p', err. unfold announced, forgotten in *. rewrite Hn in Ha. rewrite Hk in Hf. done.
Qed.
End Release.

(** ** Deletion *)

Section Deletion.
Context {S : Type} {SC : StatusConditions} {FZ : Finalizers} {FL : FinalizersLaws} {PE : PlaneEnv DataPlaneSpec S}.

(** A run that begins with reading an object that is being deleted. *)
Lemma reconcilePlane_deleting {Spec} {PE' : PlaneEnv Spec S} (k : PlaneKind Spec) fin now ns name p w s :
  readCR ns name (pwState w) = (s, inl p) → metaDeleting (crMeta p) = true →
  reconcilePlane k fin now ns name w = fin p (mkPlaneWorld s (pwCalls w)).
Proof. intros Hr Hd. unfold reconcilePlane. by rewrite Hr, Hd. Qed.

Lemma updatePlaneConditions_traces {Spec} {PE' : PlaneEnv Spec S} (old p : PlaneCR Spec) :
  traces (S := S) (updatePlaneConditions old p) (λ new _, Forall not_PUpdate new).
Proof.
  unfold updatePlaneConditions. case_match; [|by apply traces_ret].
  eapply traces_weaken; [apply traces_performed|]. intros new r ->. by repeat constructor.
Qed.

Lemma finalizeCounted_traces now (p : DataPlane) n :
  traces (S := S) (finalizeCounted dataPlaneKind now p n) (λ new r,
    (Forall not_PUpdate new
     ∨ n = 0 ∧ released dataPlaneKind p (RemoveFinalizer (metaFinalizers (crMeta p)) (kindFinalizer dataPlaneKind)).1 new)
    ∧ (n = 0 →
       SetStatusCondition (psConditions (crStatus p)) (planeFinalizingCondition now p) = (psConditions (crStatus p), false) →
       releases dataPlaneKind p new r)).
Proof.
  unfold finalizeCounted. destruct (Nat.ltb_spec 0 n) as [Hn|Hn].
  - destruct (SetStatusCondition _ _) as [cs ch]. eapply traces_weaken with (Q := λ new _, Forall not_PUpdate new).
    2:{ intros new r H. split; [by left|lia]. }
    apply (traces_bind _ _ (λ new _, Forall not_PUpdate new)); [|done|].
    + destruct ch; [apply updatePlaneConditions_traces|by apply traces_ret].
    + intros new [] H. apply traces_ret. by rewrite app_nil_r.
  - assert (n = 0) as -> by lia. destruct (SetStatusCondition _ _) as [cs [|]].
    + eapply traces_bind; [apply updatePlaneConditions_traces|..].
      * intros new e H. split; [by left|by intros _ [=]].
      * intros new [] H. apply traces_ret. rewrite app_nil_r. split; [by left|by intros _ [=]].
    + eapply traces_weaken; [apply releasePlane_traces|]. intros new r Hr%releases_contents; [|done..].
      split; [|done]. destruct Hr as [[H|H] _]; [by left|by right].
Qed.

End Deletion.

(** ** Changes that go unnoticed *)

Section Existing.
Context {Spec S : Type} {SC : StatusConditions} {FZ : Finalizers} {FL : FinalizersLaws} {PE : PlaneEnv Spec S} (k : PlaneKind Spec).
Implicit Types (p : PlaneCR Spec).

(** An object that was reconciled before and is not being deleted. *)
Record existing p : Prop := {
  existing_alive : metaDeleting (crMeta p) = false;
  existing_finalizer : kindFinalizer k ∈ metaFinalizers (crMeta p);
  existing_created : ∃ c, FindStatusCondition (psConditions (crStatus p)) TypeCreated = Some c
}.

Lemma reconcilePlane_existing fin now ns name p w s :
  readCR ns name (pwState w) = (s, inl p) → existing p →
  reconcilePlane k fin now ns name w = refresh k now p (mkPlaneWorld s (pwCalls w)).
Proof.
  intros Hr [Ha Hf (c & Hc)]. unfold reconcilePlane. rewrite Hr, Ha. unfold ensurePlaneFinalizer. rewrite Ha.
  destruct (Add_elem (metaFinalizers (crMeta p)) (kindFinalizer k)) as [_ Hadd].
  destruct (AddFinalizer _ _) as [fs [|]]; cbn in Hadd; [by apply Hadd in Hf|].
  assert (shouldIgnoreReconcile p = true) as Hi by (unfold shouldIgnoreReconcile; by rewrite Hc).
  rewrite CM_bind_eq. cbn. by rewrite Hi, andb_false_r, CM_bind_eq.
Qed.

(** Calls by which others would learn of a change. *)
Definition tells (c : planeCall Spec) : Prop := match c with PNotify _ _ | PForget _ => True | _ => False end.
Definition forgets (c : planeCall Spec) : Prop := match c with PForget _ => True | _ => False end.

Lemma pollUnless_silent (P : planeCall Spec → Prop) now notified p :
  (∀ q err, ¬ P (PQuery q err)) → silent P (pollUnless (S := S) k now notified p).
Proof.
  intros HP. unfold pollUnless. destruct notified; [apply silent_ret|].
  apply silent_bind; [|intros a; apply silent_ret]. apply silent_attempt.
  unfold populateAgentConnectionStatus. destruct gatewayClient as [g|]; [|apply silent_ret].
  destruct (kindQuery k p) as [[[t i] n] m] eqn:E. apply silent_bind; [|intros a; apply silent_ret].
  apply silent_performed. intros r. apply HP.
Qed.

(** The end of a refresh. *)
Lemma polled_silent (P : planeCall Spec → Prop) now notified p :
  (∀ q err, ¬ P (PQuery q err)) → (∀ q err, ¬ P (PStatusUpdate q err)) →
  silent P (pollUnless (S := S) k now notified p ≫= λ p, attempt (planeStatusUpdate p) ≫= λ _, mret StatusUpdateInterval).
Proof.
  intros H1 H2. apply silent_bind; [by apply pollUnless_silent|]. intros p'.
  apply silent_bind; [|intros a; apply silent_ret]. apply silent_attempt, silent_performed. intros r. apply H2.
Qed.

Lemma refresh_tells_none now p : kindAnnouncesChanges k = false → silent tells (refresh (S := S) k now p).
Proof.
  intros Hk. unfold refresh. rewrite Hk. cbn [andb]. apply silent_bind; [apply silent_ret|]. intros [p' notified].
  apply polled_silent; by intros ?? [].
Qed.

Lemma notifyOrRetry_silent p event : silent forgets (notifyOrRetry (S := S) k p event).
Proof.
  unfold notifyOrRetry. destruct gatewayClient as [g|]; [|apply silent_ret]. apply silent_bind.
  - apply silent_attempt. unfold notifyGateway. apply silent_bind; [|intros a; apply silent_ret].
    eapply traces_orElse; [apply traces_performed|..]; intros new ? ->; (constructor; [by intros []|constructor]).
  - intros [[]|e]; [apply silent_ret|]. destruct (HandleGatewayError e); [by apply traces_fails|apply silent_ret].
Qed.

Lemma refresh_forgets_none now p : silent forgets (refresh (S := S) k now p).
Proof.
  unfold refresh. apply silent_bind.
  - destruct (_ && _ && _); [|apply silent_ret]. apply silent_bind; [apply notifyOrRetry_silent|intros a; apply silent_ret].
  - intros [p' notified]. apply polled_silent; by intros ?? [].
Qed.

Lemma silent_run {A} P (m : CM (PlaneWorld Spec S) A) s (w : PlaneWorld Spec S) : silent P m →
  ∃ new, pwCalls (m (mkPlaneWorld s (pwCalls w))).1 = pwCalls w ++ new ∧ Forall (λ c, ¬ P c) new.
Proof. intros Hm. destruct (Hm (mkPlaneWorld s (pwCalls w))) as (new & Hn & Hf). by exists new. Qed.
End Existing.

Section Unnoticed.
Context {S : Type} {SC : StatusConditions} {FZ : Finalizers} {FL : FinalizersLaws}.

(** No change of an existing cluster-scoped data plane is announced: whatever
    its generation, a reconciliation neither notifies the gateway nor drops a
    cached client, so that connected agents keep the authorisation that the old
    CA gave them.  (The controller of namespaced data planes announces it.) *)
Theorem cluster_change_unannounced {PE : PlaneEnv ClusterDataPlaneSpec S} (now : Z) (ns name : string) (p : ClusterDataPlane)
    (w : PlaneWorld ClusterDataPlaneSpec S) (s : S) :
  readCR ns name (pwState w) = (s, inl p) → existing clusterDataPlaneKind p →
  ∃ new, pwCalls (reconcileClusterDataPlane now ns name w).1 = pwCalls w ++ new
    ∧ Forall (λ c, match c with PNotify _ _ | PForget _ => False | _ => True end) new.
Proof.
  intros Hr He. unfold reconcileClusterDataPlane. rewrite (reconcilePlane_existing _ _ _ _ _ p w s Hr He).
  destruct (silent_run tells _ s w (refresh_tells_none clusterDataPlaneKind now p eq_refl)) as (new & Hn & Hf).
  exists new. split; [exact Hn|]. eapply Forall_impl; [exact Hf|]. by intros [] ?.
Qed.

(** The client of an observability plane outlives a change of the plane's
    identifier: the key of the cache has no identifier in it and a reconciliation
    of the changed, existing object drops no client, so the client that was
    created for the old identifier is returned again and sends requests to the
    agents of the old plane. *)
Theorem obs_client_stale {X : X509} {TF : TLSFiles} {PE : PlaneEnv ObservabilityPlaneSpec S} (now : Z) (ns name url : string)
    (p p' : ObservabilityPlane) (tls : option ProxyTLSConfig) (m' : KubeMultiClientManager) (pc : ProxyClient)
    (w : PlaneWorld ObservabilityPlaneSpec S) (s : S) :
  cleanPlane (AObservabilityPlane p) → clientFor url (AObservabilityPlane p) (NewManagerWithProxyTLS tls) = (m', inl pc) →
  crNamespace p' = crNamespace p → crName p' = crName p → agentMode (opClusterAgent (crSpec p')) = true →
  readCR ns name (pwState w) = (s, inl p') → existing observabilityPlaneKind p' →
  (∃ new, pwCalls (reconcileObservabilityPlane now ns name w).1 = pwCalls w ++ new ∧ ∀ key, PForget key ∉ new)
  ∧ clientFor url (AObservabilityPlane p') m' = (m', inl pc) ∧ planeID pc = effectivePlaneID p.
Proof.
  intros Hcl Hc Hns Hnm Ham Hr He. split_and!.
  - unfold reconcileObservabilityPlane. rewrite (reconcilePlane_existing _ _ _ _ _ p' w s Hr He).
    destruct (silent_run forgets _ s w (refresh_forgets_none observabilityPlaneKind now p')) as (new & Hn & Hf).
    exists new. split; [exact Hn|]. intros key Hk. rewrite Forall_forall in Hf. by apply (Hf _ Hk).
  - pose proof (clientFor_again url _ _ _ _ Hc) as Hk. cbn [keySegments] in Hk. cbn in Hc |- *.
    unfold GetK8sClientFromObservabilityPlane in *.
    rewrite Ham, Hns, Hnm. destruct (agentMode _); [|done]. case_bool_decide; [done|]. unfold GetOrAddClient. by rewrite Hk.
  - destruct (clientFor_cached url (AObservabilityPlane p) (NewManagerWithProxyTLS tls)) as [(err & E)|E];
      rewrite Hc in E; [done|]. unfold GetOrAddClient in E. cbn in E. rewrite lookup_empty in E.
    destruct (NewProxyClient _ _ _ _ _) as [cl|err] eqn:Hn; [|done]. injection E as _ ->.
    by apply (NewProxyClient_addresses url (AObservabilityPlane p)) in Hn as [_ Hn].
Qed.
End Unnoticed.
