(* ===== verification/PlaneRelease.v ===== *)
(** * Controllers, gateway and clients on one wire

    The routes of [RegisterRoutes] in [plane_api.go] serve what the controllers'
    client of the gateway sends, the controllers write to the API server and
    drop clients from the manager: the environment of a plane controller made of
    the other components.  The JSON codec is a class with the laws of a round
    trip; the network may lose a request. *)

From S2P Require Import Prelude GoStrings GoValue GatewayConn GatewayConnSpec FabricMesh GatewayServer RenderErrors ReleaseObjects PlaneObjects PlaneRefs ReleaseController ReleaseSpec ReleaseConverge PlaneProxy GatewayClient PlaneControllers PlaneSpec.

#[local] Set Warnings "-register-all".
Open Scope go_scope.

(** ** Queries *)

(** [url.ParseQuery] and [Values.Get]: the first value of a key. *)
Fixpoint plusToSpace (s : string) : string :=
  match s with
  | "" => ""
  | String c s => String (if bool_decide (c = "+"%char) then " "%char else c) (plusToSpace s)
  end.

Definition queryUnescape (s : string) : option string := pathUnescape (plusToSpace s).

Fixpoint queryFirst (key : string) (pieces : list string) : string :=
  match pieces with
  | [] => ""
  | p :: ps =>
      if has_byte ";" p || bool_decide (p = "") then queryFirst key ps
      else
        let '(k, v, _) := Cut "=" p in
        match queryUnescape k, queryUnescape v with
        | Some k, Some v => if bool_decide (k = key) then v else queryFirst key ps
        | _, _ => queryFirst key ps
        end
  end.

Definition queryGet (query key : string) : string := queryFirst key (Split "&" query).

(** ** Names as the API server admits them *)

Definition labelChar (c : ascii) : bool :=
  let n := nat_of_ascii c in
  (97 <=? n)%nat && (n <=? 122)%nat || (48 <=? n)%nat && (n <=? 57)%nat || bool_decide (c ∈ ["-"; "."]%char).

Fixpoint isLabel (s : string) : bool :=
  match s with "" => true | String c s => labelChar c && isLabel s end.

Lemma label_no c s : isLabel s = true → labelChar c = false → has_byte c s = false.
Proof.
  intros Hs Hc. induction s as [|d s IH]; [done|]. cbn in Hs |- *. apply andb_true_iff in Hs as [Hd Hs].
  rewrite (IH Hs), orb_false_r. apply bool_decide_eq_false. intros ->. congruence.
Qed.

Lemma label_plus s : isLabel s = true → plusToSpace s = s.
Proof.
  induction s as [|d s IH]; [done|]. cbn. intros [Hd Hs]%andb_true_iff. rewrite (IH Hs).
  case_bool_decide as E; [by subst|done].
Qed.

Lemma label_unescape s : isLabel s = true → queryUnescape s = Some s.
Proof.
  intros Hs. unfold queryUnescape. rewrite label_plus by done. rewrite <- (sapp_nil_r s) at 1.
  rewrite pathUnescape_plain by (by apply label_no). cbn. by rewrite sapp_nil_r.
Qed.

Lemma queryFirst_pair key v ps k :
  isLabel k = true → isLabel v = true → k ≠ "" →
  queryFirst key ((k +:+ "=" +:+ v) :: ps) = if bool_decide (k = key) then v else queryFirst key ps.
Proof.
  intros Hk Hv Hne. cbn [queryFirst].
  rewrite !has_byte_app, (label_no ";" k), (label_no ";" v) by done. cbn [has_byte].
  rewrite (bool_decide_eq_false_2 (k +:+ "=" +:+ v = "")) by (destruct k; discriminate).
  rewrite (bool_decide_eq_false_2 (";"%char = "="%char)) by done. cbn [orb].
  change (k +:+ "=" +:+ v) with (k +:+ String "=" v).
  rewrite Cut_app by (by apply label_no).
  rewrite (label_unescape k Hk), (label_unescape v Hv). reflexivity.
Qed.

(** ** Routes *)

(** The path of a request is matched segment by segment. *)
Inductive planeRoute :=
  | RouteNotify
  | RouteReconnect (planeType planeID : string)
  | RouteStatus (planeType planeID : string)
  | RouteAllStatus.

Definition matchRoute (method raw : string) : option planeRoute :=
  let path := Split "/" raw in
  if bool_decide (path = [""; "api"; "v1"; "planes"; "notify"]) then
    if bool_decide (method = "POST") then Some RouteNotify else None
  else if bool_decide (path = [""; "api"; "v1"; "planes"; "status"]) then
    if bool_decide (method = "GET") then Some RouteAllStatus else None
  else if bool_decide (take 4 path = [""; "api"; "v1"; "planes"]) then
    match drop 4 path with
    | [t; i; op] =>
        match pathUnescape t, pathUnescape i with
        | Some t, Some i =>
            if bool_decide (t = "") || bool_decide (i = "") then None
            else if bool_decide (op = "reconnect") && bool_decide (method = "POST") then Some (RouteReconnect t i)
            else if bool_decide (op = "status") && bool_decide (method = "GET") then Some (RouteStatus t i)
            else None
        | _, _ => None
        end
    | _ => None
    end
  else None.

Section Wire.
Context {X : X509} {MR : MapRange}.

(** The state of a gateway, with what it reads of the CRs of a plane. *)
Record gwServer := mkGwServer {
  gwConns : ConnectionManager;
  gwMesh : option Mesh;
  gwRegistry : option Registry;
  gwCRs : string → string → result (gmap string (option string))
}.

(** The server's side of the codec. *)
Class ServerCodec := {
  decodePayload : string → result PlaneNotification;
  encodeResponse : PlaneNotificationResponse → string;
  encodeReconnect : bool * nat → string;
  encodeStatus : PlaneConnectionStatus → string;
  encodeStatuses : list PlaneConnectionStatus * nat → string
}.

(** What the client keeps of an answer. *)
Definition notifiedOf (r : PlaneNotificationResponse) : NotificationResponse :=
  mkNotified (Z.of_nat (default 0 (nrDisconnectedAgents r))) (nrSuccess r).
Definition statusOf (st : PlaneConnectionStatus) : ConnectionStatus :=
  mkConnectionStatus (st_PlaneType st) (st_PlaneID st) (Connected st) (Z.of_nat (ConnectedAgents st)) (st_LastSeen st).

(** Structs of strings, numbers and times survive [encoding/json]. *)
Class CodecLaws {GC : GatewayCodec} {SC : ServerCodec} := {
  payload_roundtrip : ∀ n, ∃ body, encodeNotification n = Ok body ∧ decodePayload body = Ok n;
  response_roundtrip : ∀ r, decodeNotification (encodeResponse r) = Ok (notifiedOf r);
  status_roundtrip : ∀ st, decodeStatus (encodeStatus st) = Ok (statusOf st)
}.
Context {GC : GatewayCodec} {SC : ServerCodec} (baseURL : string).

Definition respond {B} (encode : B → string) (a : answer B) : httpResponse :=
  mkResponse (anCode a) (Ok (match anBody a with inl b => encode b | inr msg => msg +:+ String "010" "" end)).

(** The mux of the internal port, for the API of planes. *)
Definition serve (req : httpRequest) (s : gwServer) : gwServer * httpResponse :=
  let '(raw, query, _) := Cut "?" (TrimPrefix (rqURL req) baseURL) in
  match matchRoute (rqMethod req) raw with
  | Some RouteNotify =>
      let payload := decodePayload (rqBody req) in
      let crs := match payload with Ok n => gwCRs s (nfPlaneType n) (nfPlaneID n) | Err m => Err m end in
      let '(cm, mesh, a) := handlePlaneNotification (gwConns s) (gwMesh s) crs payload in
      (mkGwServer cm mesh (gwRegistry s) (gwCRs s), respond encodeResponse a)
  | Some (RouteReconnect t i) =>
      let '(cm, mesh, a) := handleReconnect (gwConns s) (gwMesh s) t i in
      (mkGwServer cm mesh (gwRegistry s) (gwCRs s), respond encodeReconnect a)
  | Some (RouteStatus t i) =>
      (s, respond encodeStatus
            (handleGetPlaneStatus (gwConns s) (gwRegistry s) t i (queryGet query "namespace") (queryGet query "name")))
  | Some RouteAllStatus => (s, respond encodeStatuses (handleGetAllPlaneStatus (gwConns s) (gwRegistry s)))
  | None => (s, mkResponse 404 (Ok "404 page not found"))
  end.

(** ** The environment of a controller *)

Context {TF : TLSFiles} {Spec T : Type}.

Record planeSystem := mkPlaneSystem {
  psStore : T;
  psGateway : gwServer;
  psClients : KubeMultiClientManager
}.

Definition onStore {A} (m : CM T A) : CM planeSystem A := λ s,
  let r := m (psStore s) in (mkPlaneSystem r.1 (psGateway s) (psClients s), r.2).

(** A request that the network loses does not reach the server. *)
#[local] Instance wireTransport (lost : httpRequest → option clientError) : GatewayTransport planeSystem := {|
  gwNewRequest := λ _ _, None;
  gwDo := λ req s,
    match lost req with
    | Some e => (s, inr e)
    | None => let r := serve req (psGateway s) in (mkPlaneSystem (psStore s) r.1 (psClients s), inl r.2)
    end
|}.

(** The API server's calls on [T]. *)
Record storeOps := mkStoreOps {
  storeRead : string → string → CM T (PlaneCR Spec);
  storeWrite : PlaneCR Spec → CM T unit;
  storeWriteStatus : PlaneCR Spec → CM T unit;
  storeCount : string → string → CM T nat
}.

Definition wiredEnv (ops : storeOps) (lost : httpRequest → option clientError) : PlaneEnv Spec planeSystem := {|
  readCR ns name := onStore (storeRead ops ns name);
  writeCR p := onStore (storeWrite ops p);
  writeStatus p := onStore (storeWriteStatus ops p);
  countEnvironments ns name := onStore (storeCount ops ns name);
  gatewayClient :=
    Some (mkGatewayOps (NotifyPlaneLifecycle (GT := wireTransport lost) baseURL) (QueryPlaneStatus (GT := wireTransport lost) baseURL));
  clientManager := Some (λ key s, mkPlaneSystem (psStore s) (psGateway s) (RemoveClient key (psClients s)));
  cacheVersion := "v2"
|}.
End Wire.
Arguments gwServer {X}.

(** * From the change of a plane to the authorisation of its agents

    The controllers, their client of the gateway and the gateway together: a
    changed data plane re-validates the agents that are connected, and what the
    gateway reports of a plane depends on the scope of its CR. *)

#[local] Set Warnings "-register-all".
Open Scope go_scope.

Section EndToEnd.
Context {X : X509} {MR : MapRange} {GC : GatewayCodec} {SCo : ServerCodec} {CL : CodecLaws}.
Context {TF : TLSFiles} {T : Type} (baseURL : string) (lost : httpRequest → option clientError).

Abbreviation world := (planeSystem (T := T)).
#[local] Instance transport : GatewayTransport world := wireTransport baseURL lost.

Definition withGateway (s : world) (g : gwServer) : world := mkPlaneSystem (psStore s) g (psClients s).

Lemma withGateway_same (s : world) : withGateway s (psGateway s) = s.
Proof. by destruct s. Qed.

(** ** A notification *)

Lemma serve_notify body g :
  serve baseURL (mkRequest "POST" (baseURL +:+ "/api/v1/planes/notify") [("Content-Type", "application/json")] body) g
  = (let payload := decodePayload body in
     let crs := match payload with Ok n => gwCRs g (nfPlaneType n) (nfPlaneID n) | Err m => Err m end in
     let '(cm, mesh, a) := handlePlaneNotification (gwConns g) (gwMesh g) crs payload in
     (mkGwServer cm mesh (gwRegistry g) (gwCRs g), respond encodeResponse a)).
Proof.
  unfold serve. cbn [rqURL rqMethod rqBody]. rewrite TrimPrefix_app, Cut_none by reflexivity.
  assert (matchRoute "POST" "/api/v1/planes/notify" = Some RouteNotify) as -> by reflexivity. reflexivity.
Qed.

(** The notification of an update over the wire. *)
Lemma notify_wire (n : PlaneNotification) (s : world) :
  nfPlaneType n ≠ "" → nfPlaneID n ≠ "" → nfEvent n = "updated" →
  ∃ req, NotifyPlaneLifecycle baseURL n s =
    match lost req with
    | Some _ => (s, inr (transientError 0 "failed to send notification"))
    | None =>
        let g := psGateway s in
        match fetchCRClientCA (gwCRs g (nfPlaneType n) (nfPlaneID n)) (nfNamespace n) (nfName n) with
        | Err _ => (s, inr (classifyHTTPError 503))
        | Ok ca =>
            match RevalidateCR (gwConns g) (nfPlaneType n) (nfPlaneID n) (nfNamespace n) (nfName n) ca with
            | (cm, Err _) => (withGateway s (mkGwServer cm (gwMesh g) (gwRegistry g) (gwCRs g)), inr (classifyHTTPError 500))
            | (cm, Ok _) =>
                (withGateway s (mkGwServer cm (propagatePlaneEvent (gwMesh g) (eventOf n)) (gwRegistry g) (gwCRs g)),
                 inl (mkNotified 0 true))
            end
        end
    end.
Proof.
  intros Ht Hi He. destruct (payload_roundtrip n) as (body & Henc & Hdec). unfold NotifyPlaneLifecycle. rewrite Henc.
  exists (mkRequest "POST" (baseURL +:+ "/api/v1/planes/notify") [("Content-Type", "application/json")] body).
  unfold gatewayCall. cbn [gwNewRequest gwDo transport wireTransport]. destruct (lost _); [done|].
  rewrite serve_notify, Hdec. cbn zeta. unfold handlePlaneNotification.
  rewrite !(bool_decide_eq_false_2 (_ = "")) by (by rewrite ?He). cbn [orb].
  rewrite He, (bool_decide_eq_true_2 ("updated" = "updated")), orb_true_r by done.
  destruct (fetchCRClientCA _ _ _) as [ca|m]; cbn; [|by destruct s as [? [] ?]].
  destruct (RevalidateCR _ _ _ _ _ _) as [cm [[a b]|m]]; cbn; [|done].
  by rewrite response_roundtrip.
Qed.

Lemma RevalidateCR_error cm t i ns name ca cm' m : RevalidateCR cm t i ns name ca = (cm', Err m) → cm' = cm.
Proof. unfold RevalidateCR. repeat case_match; intros; by simplify_eq. Qed.

(** What the re-validation does to the plane, with an unreadable CA only when
    nobody is connected. *)
Lemma RevalidateCR_authorizes cm t i ns name ca cm' counts :
  NoDup (conns_of cm (slash t i)) → RevalidateCR cm t i ns name ca = (cm', Ok counts) →
  authorizedConns cm' (slash t i) (slash ns name)
  = List.filter (λ l, verifies (AppendCertsFromPEM NewCertPool ca).1 (heap cm l)) (conns_of cm (slash t i)).
Proof.
  intros Hnd Hr. destruct (AppendCertsFromPEM NewCertPool ca) as [pool [|]] eqn:Hca.
  - destruct (RevalidateCR_correct cm t i ns name ca pool Hnd Hca) as (cm1 & Hr' & _ & _ & Ha & _).
    rewrite Hr in Hr'. by injection Hr' as -> _.
  - unfold RevalidateCR, revalidateSnapshot in Hr. rewrite Hca in Hr.
    destruct (conns_of cm (slash t i)) eqn:E; [|done]. injection Hr as <- _. unfold authorizedConns. by rewrite E.
Qed.

Lemma RevalidateCR_succeeds cm t i ns name ca pool :
  AppendCertsFromPEM NewCertPool ca = (pool, true) → ∃ cm' counts, RevalidateCR cm t i ns name ca = (cm', Ok counts).
Proof. intros Hca. unfold RevalidateCR. rewrite Hca. repeat case_match; eauto. Qed.

(** ** A change *)

Context {SC : StatusConditions} {FZ : Finalizers} {FL : FinalizersLaws} (ops : storeOps (Spec := DataPlaneSpec) (T := T)).
#[local] Instance dataPlaneEnv : PlaneEnv DataPlaneSpec world := wiredEnv baseURL ops lost.

(** The notification is retried, or it re-validated the agents. *)
Inductive noticed (p : DataPlane) (s : world) : world → list (planeCall DataPlaneSpec) → bool + clientError → Prop :=
  | noticed_retry err e :
      noticed p s s [PNotify (namespacedNotification "dataplane" p "updated") (Some err)] (inr e)
  | noticed_revalidated ca cm counts :
      let g := psGateway s in
      fetchCRClientCA (gwCRs g "dataplane" (effectivePlaneID p)) (crNamespace p) (crName p) = Ok ca →
      RevalidateCR (gwConns g) "dataplane" (effectivePlaneID p) (crNamespace p) (crName p) ca = (cm, Ok counts) →
      noticed p s
        (withGateway s (mkGwServer cm
          (propagatePlaneEvent (gwMesh g) (eventOf (namespacedNotification "dataplane" p "updated"))) (gwRegistry g) (gwCRs g)))
        [PNotify (namespacedNotification "dataplane" p "updated") None] (inl true).

(** The gateway can be reached and finds a readable CA for the plane. *)
Definition canRevalidate (p : DataPlane) (g : gwServer) : Prop :=
  (∀ req, lost req = None)
  ∧ ∃ ca pool, fetchCRClientCA (gwCRs g "dataplane" (effectivePlaneID p)) (crNamespace p) (crName p) = Ok ca
             ∧ AppendCertsFromPEM NewCertPool ca = (pool, true).

Lemma transient_retried msg code e : e = transientError code msg →
  HandleGatewayError (wrapErrorf "failed to notify gateway: " e) = Some (wrapErrorf "failed to notify gateway: " e).
Proof. by intros ->. Qed.

Lemma notifyOrRetry_wire (p : DataPlane) (w : PlaneWorld DataPlaneSpec world) :
  effectivePlaneID p ≠ "" →
  ∃ s' new r, notifyOrRetry dataPlaneKind p "updated" w = (mkPlaneWorld s' (pwCalls w ++ new), r)
    ∧ noticed p (pwState w) s' new r ∧ (canRevalidate p (psGateway (pwState w)) → r = inl true).
Proof.
  intros Hid. unfold notifyOrRetry. cbn [gatewayClient dataPlaneEnv wiredEnv]. rewrite CM_bind_eq.
  unfold attempt, notifyGateway, orElse, performed. rewrite CM_bind_eq. cbn [opNotify].
  destruct (notify_wire (namespacedNotification "dataplane" p "updated") (pwState w)) as (req & Heq); [done|done|done|].
  cbn [kindNotification dataPlaneKind]. unfold transport in Heq. rewrite Heq. clear Heq.
  unfold canRevalidate. cbn [nfPlaneType nfPlaneID nfNamespace nfName namespacedNotification].
  destruct (lost req) eqn:Hl.
  { eexists _, _, _. split; [reflexivity|]. split; [constructor|]. intros [Hd _]. by rewrite Hd in Hl. }
  destruct (fetchCRClientCA _ _ _) as [ca|m] eqn:Hf.
  2:{ eexists _, _, _. split; [reflexivity|]. split; [constructor|]. by intros (_ & ? & ? & ? & _). }
  destruct (RevalidateCR _ _ _ _ _ _) as [cm [counts|m]] eqn:Hr.
  - eexists _, _, _. split; [reflexivity|]. split; [by econstructor|done].
  - apply RevalidateCR_error in Hr as Hcm. subst cm. eexists _, _, _. split; [reflexivity|]. split.
    + assert (withGateway (pwState w) (mkGwServer (gwConns (psGateway (pwState w))) (gwMesh (psGateway (pwState w)))
        (gwRegistry (psGateway (pwState w))) (gwCRs (psGateway (pwState w)))) = pwState w) as ->
        by (destruct w as [[? [] ?] ?]; reflexivity).
      constructor.
    + intros (_ & ca' & pool & [= <-] & Hp).
      destruct (RevalidateCR_succeeds (gwConns (psGateway (pwState w))) "dataplane" (effectivePlaneID p) (crNamespace p)
        (crName p) ca pool Hp) as (? & ? & ?). congruence.
Qed.

(** The status update does not touch the gateway. *)
Lemma statusUpdate_gateway (p : DataPlane) (w : PlaneWorld DataPlaneSpec world) :
  ∃ s' err, attempt (planeStatusUpdate p) w = (mkPlaneWorld s' (pwCalls w ++ [PStatusUpdate p err]), inl (writeStatus p (pwState w)).2)
    ∧ psGateway s' = psGateway (pwState w).
Proof. by eexists _, _. Qed.

End EndToEnd.

(** ** What is reported of a plane *)

Section Status.
Context {X : X509} {MR : MapRange} {GC : GatewayCodec} {SCo : ServerCodec} {CL : CodecLaws}.
Context {TF : TLSFiles} {T : Type} (baseURL : string).

Definition delivers : httpRequest → option clientError := λ _, None.

Definition planePath (planeType planeID : string) : string :=
  "/api/v1/planes/" +:+ planeType +:+ "/" +:+ planeID +:+ "/status".

Lemma label_last s : isLabel s = true → pathUnescape s = Some s.
Proof.
  intros Hs. rewrite <- (sapp_nil_r s) at 1. rewrite pathUnescape_plain by (by apply label_no). cbn. by rewrite sapp_nil_r.
Qed.

Lemma matchRoute_status t i :
  isLabel t = true → isLabel i = true → t ≠ "" → i ≠ "" → matchRoute "GET" (planePath t i) = Some (RouteStatus t i).
Proof.
  intros Ht Hi Hte Hie. unfold matchRoute.
  assert (Split "/" (planePath t i) = [""; "api"; "v1"; "planes"; t; i; "status"]) as ->.
  { change (planePath t i) with (Join [""; "api"; "v1"; "planes"; t; i; "status"] (String "/" "")).
    apply Split_Join; [done|]. repeat constructor; by apply label_no. }
  rewrite !bool_decide_eq_false_2 by done. cbn [take drop]. rewrite bool_decide_eq_true_2 by done.
  by rewrite !label_last, !bool_decide_eq_false_2 by done.
Qed.

Lemma planePath_no_query t i : isLabel t = true → isLabel i = true → has_byte "?" (planePath t i) = false.
Proof. intros Ht Hi. unfold planePath. by rewrite !has_byte_app, (label_no "?" t), (label_no "?" i). Qed.

Lemma queryGet_pair ns name :
  isLabel ns = true → isLabel name = true →
  queryGet ("namespace=" +:+ ns +:+ "&name=" +:+ name) "namespace" = ns
  ∧ queryGet ("namespace=" +:+ ns +:+ "&name=" +:+ name) "name" = name.
Proof.
  intros Hn Hm. unfold queryGet.
  assert (Split "&" ("namespace=" +:+ ns +:+ "&name=" +:+ name) = ["namespace" +:+ "=" +:+ ns; "name" +:+ "=" +:+ name]) as ->.
  { change ("namespace=" +:+ ns +:+ "&name=" +:+ name)
      with (Join ["namespace=" +:+ ns; "name=" +:+ name] (String "&" "")).
    apply Split_Join; [done|]. apply Forall_cons_2; [|apply Forall_singleton]; rewrite !has_byte_app.
    - by rewrite (label_no "&" ns).
    - by rewrite (label_no "&" name). }
  by rewrite !queryFirst_pair.
Qed.

Abbreviation world := (planeSystem (T := T)).

(** What is asked for: the authorisation for the CR when both its names are
    given, otherwise the connections of the plane. *)
Definition reported (g : gwServer) (planeType planeID ns name : string) : PlaneConnectionStatus :=
  if bool_decide (ns = "") || bool_decide (name = "") then PlaneStatus (gwConns g) (gwRegistry g) planeType planeID
  else CRAuthorizationStatus (gwConns g) (gwRegistry g) planeType planeID ns name.

Lemma serve_status g t i query q :
  isLabel t = true → isLabel i = true → t ≠ "" → i ≠ "" → query = "" ∧ q = "" ∨ query = String "?" q →
  serve baseURL (mkRequest "GET" (baseURL +:+ planePath t i +:+ query) [] "") g
  = (g, respond encodeStatus (handleGetPlaneStatus (gwConns g) (gwRegistry g) t i (queryGet q "namespace") (queryGet q "name"))).
Proof.
  intros Ht Hi Hte Hie Hq. unfold serve. cbn [rqURL rqMethod]. rewrite TrimPrefix_app.
  pose proof (planePath_no_query t i Ht Hi) as Hp. destruct Hq as [[-> ->]| ->].
  - by rewrite sapp_nil_r, (Cut_none _ _ Hp), matchRoute_status.
  - by rewrite (Cut_app _ _ _ Hp), matchRoute_status.
Qed.

Lemma query_wire (s : world) t i ns name :
  isLabel t = true → isLabel i = true → isLabel ns = true → isLabel name = true → t ≠ "" → i ≠ "" →
  QueryPlaneStatus (GT := wireTransport baseURL delivers) baseURL t i ns name s
  = (s, inl (statusOf (reported (psGateway s) t i ns name))).
Proof.
  intros Ht Hi Hns Hn Hte Hie. unfold QueryPlaneStatus, gatewayCall. cbn [gwNewRequest gwDo wireTransport delivers].
  assert (statusURL baseURL t i ns name = baseURL +:+ planePath t i +:+
    (if bool_decide (ns = "") || bool_decide (name = "") then "" else "?" +:+ "namespace=" +:+ ns +:+ "&name=" +:+ name)) as ->.
  { unfold statusURL, planePath. rewrite <- negb_orb. destruct (_ || _); cbn [negb]; by rewrite ?sapp_nil_r, ?sapp_assoc. }
  destruct (queryGet_pair ns name Hns Hn) as [Q1 Q2]. unfold reported.
  assert (∀ q ns' name', t ≠ "" → i ≠ "" → queryGet q "namespace" = ns' → queryGet q "name" = name' →
    handleGetPlaneStatus (gwConns (psGateway s)) (gwRegistry (psGateway s)) t i (queryGet q "namespace") (queryGet q "name")
    = jsonAnswer (if negb (bool_decide (name' = ""))
                  then CRAuthorizationStatus (gwConns (psGateway s)) (gwRegistry (psGateway s)) t i ns' name'
                  else PlaneStatus (gwConns (psGateway s)) (gwRegistry (psGateway s)) t i)) as Hh.
  { intros q ns' name' ?? -> ->. unfold handleGetPlaneStatus. by rewrite (bool_decide_eq_false_2 (t = "")), (bool_decide_eq_false_2 (i = "")). }
  destruct (bool_decide (ns = "") || bool_decide (name = "")) eqn:E.
  - rewrite (serve_status _ _ _ _ "") by (try done; by left). rewrite (Hh "" "" "") by done.
    cbn. rewrite status_roundtrip. by destruct s as [? [] ?].
  - rewrite (serve_status _ _ _ _ ("namespace=" +:+ ns +:+ "&name=" +:+ name)) by (try done; by right).
    apply orb_false_iff in E as [_ E]. rewrite (Hh _ ns name), E by done.
    cbn. rewrite status_roundtrip. by destruct s as [? [] ?].
Qed.

(** The status of an object after the query. *)
Definition polled {Spec} (now : Z) (p : PlaneCR Spec) (st : PlaneConnectionStatus) : PlaneCR Spec :=
  withAgentConnection p (connectionOf now (psAgentConnection (crStatus p)) (statusOf st)).

Lemma populate_wire {Spec} (k : PlaneKind Spec) (ops : storeOps (T := T)) now (p : PlaneCR Spec) (w : PlaneWorld Spec world) t i ns name :
  kindQuery k p = (t, i, ns, name) →
  isLabel t = true → isLabel i = true → isLabel ns = true → isLabel name = true → t ≠ "" → i ≠ "" →
  populateAgentConnectionStatus (PE := wiredEnv baseURL ops delivers) k now p w
  = (mkPlaneWorld (pwState w) (pwCalls w ++ [PQuery (t, i, ns, name) None]),
     inl (polled now p (reported (psGateway (pwState w)) t i ns name))).
Proof.
  intros Hk Ht Hi Hns Hn Hte Hie. unfold populateAgentConnectionStatus. cbn [gatewayClient wiredEnv]. rewrite Hk, CM_bind_eq.
  unfold performed. cbn [opStatus]. by rewrite query_wire.
Qed.

(** The agent connection that is written to the status of a cluster-scoped
    data plane is that of the plane: every connected agent of the plane counts,
    authorised for the CR or not, because the client leaves out the name when
    there is no namespace.  The query that the gateway documents for such a CR,
    with a name only, reports the agents that are authorised for it, and so does
    the status of a data plane in a namespace. *)
Theorem cluster_status_is_plane_level (opsC : storeOps (T := T)) (opsN : storeOps (T := T)) (now : Z)
    (c : ClusterDataPlane) (p : DataPlane) (wC : PlaneWorld ClusterDataPlaneSpec world) (wN : PlaneWorld DataPlaneSpec world) :
  let gC := psGateway (pwState wC) in
  let gN := psGateway (pwState wN) in
  let idC := specPlaneID (crSpec c) in
  isLabel idC = true → isLabel (crName c) = true → idC ≠ "" → crName c ≠ "" →
  isLabel (effectivePlaneID p) = true → isLabel (crNamespace p) = true → isLabel (crName p) = true →
  effectivePlaneID p ≠ "" → crNamespace p ≠ "" → crName p ≠ "" →
  (populateAgentConnectionStatus (PE := wiredEnv baseURL opsC delivers) clusterDataPlaneKind now c wC).2
  = inl (polled now c (PlaneStatus (gwConns gC) (gwRegistry gC) "dataplane" idC))
  ∧ handleGetPlaneStatus (gwConns gC) (gwRegistry gC) "dataplane" idC "" (crName c)
    = jsonAnswer (CRAuthorizationStatus (gwConns gC) (gwRegistry gC) "dataplane" idC "" (crName c))
  ∧ (populateAgentConnectionStatus (PE := wiredEnv baseURL opsN delivers) dataPlaneKind now p wN).2
    = inl (polled now p (CRAuthorizationStatus (gwConns gN) (gwRegistry gN) "dataplane" (effectivePlaneID p) (crNamespace p) (crName p))).
Proof.
  intros gC gN idC H1 H2 H3 H4 H5 H6 H7 H8 H9 H10. split_and!.
  - by rewrite (populate_wire clusterDataPlaneKind opsC now c wC "dataplane" idC "" (crName c)).
  - unfold handleGetPlaneStatus. by rewrite (bool_decide_eq_false_2 (idC = "")), (bool_decide_eq_false_2 (crName c = "")).
  - rewrite (populate_wire dataPlaneKind opsN now p wN "dataplane" (effectivePlaneID p) (crNamespace p) (crName p)) by done.
    unfold reported. by rewrite (bool_decide_eq_false_2 (crNamespace p = "")), (bool_decide_eq_false_2 (crName p = "")).
Qed.
End Status.

(** * Releases on planes behind the proxy

    The rendered release controller with clients that are proxy clients: an
    answer of the proxy never says that a kind is unknown, so a kind that the
    plane does not serve stops every reconciliation. *)

#[local] Set Warnings "-register-all".
Open Scope go_scope.

Lemma TrimSuffix_app s suf : TrimSuffix (s +:+ suf) suf = s.
Proof.
  unfold TrimSuffix. assert (HasSuffix (s +:+ suf) suf = true) as -> by (apply HasSuffix_spec; by exists s).
  rewrite sapp_length. replace (String.length s + String.length suf - String.length suf) with (String.length s) by lia.
  apply stake_app.
Qed.

Section ProxyErrors.
Context {X : X509} {TF : TLSFiles} {S O P : Type} {HT : HTTPTransport S} {OC : ObjectCodec O P} {AE : APIErrors} {AL : APIErrorsLaws}.

Lemma handleErrorResponse_known resp gvk name : IsNoMatchErr ∉ ceTags (handleErrorResponse resp gvk name).
Proof.
  unfold handleErrorResponse. destruct (statusFailure _) eqn:E; [by apply (status_no_match _ _ E)|].
  unfold codeTag. repeat case_match; cbn; simplify_eq; set_solver.
Qed.

Lemma ofResult_known {A} before (r : result A) (s s' : S) e : ofResult before r s = (s', inr e) → IsNoMatchErr ∉ ceTags e.
Proof. destruct r; [done|]. intros [= <- <-]. cbn. set_solver. Qed.

(** The request of a listing, when its kind can be determined. *)
Definition listRequest (pc : ProxyClient) (opts : ListOptions) (gvk : GVK) : httpRequest :=
  mkRequest "GET" (withQuery (buildProxyURL pc (buildListPath gvk (loNamespace opts))) (buildListQueryParams opts)) acceptJSON "".

(** A listing that is not answered with success fails, and not for want of a
    kind. *)
Lemma proxyList_fails pc opts o group version kind (s : S) :
  ObjectKinds o = Ok [mkGVK group version (kind +:+ "List")] →
  (∃ s' resp, Do (httpTLS pc) (listRequest pc opts (mkGVK group version kind)) s = (s', Ok resp) ∧ isSuccess resp = false) →
  ∃ s' e, proxyList pc opts o s = (s', inr e) ∧ IsNoMatchErr ∉ ceTags e.
Proof.
  intros Hk (s' & resp & Hd & Hs). unfold proxyList, getGVKForList, getGVK. rewrite Hk. cbn [ofResult].
  rewrite !CM_bind_eq. cbn [mret CM_ret gvkGroup gvkVersion gvkKind].
  assert (TrimSuffix (kind +:+ "List") "List" = kind) as -> by apply TrimSuffix_app.
  unfold send. destruct (NewRequest _ _).
  { eexists _, _. split; [reflexivity|]. cbn. set_solver. }
  unfold listRequest in Hd. rewrite CM_bind_eq, Hd. unfold decodeInto. rewrite Hs. cbn [negb]. eexists _, _. split; [reflexivity|].
  apply handleErrorResponse_known.
Qed.
End ProxyErrors.

(** ** A release controller on top of proxy clients *)

Section Blocked.
Context {U : Unstructured} {K : Converter} {Q : SemanticEquality} {SC : StatusConditions} {FZ : Finalizers}.
Context {CL : Cluster} {ND : Nondeterminism} {NL : NondeterminismLaws}.
Context {X : X509} {TF : TLSFiles} {O P : Type} {HT : HTTPTransport PlaneState} {OC : ObjectCodec O P} {AE : APIErrors} {AL : APIErrorsLaws}.

(** The error as the controller sees it. *)
Definition apiErrorOf (e : clientError) : ReleaseController.apiError :=
  mkAPIError (errorf (ceText e)) (hasTag IsNotFoundErr e) false (hasTag IsNoMatchErr e).

(** The listings of a plane are those of its proxy client. *)
Class ProxiedPlane := {
  proxyOf : PlaneClient → ProxyClient;
  emptyList : GVK → O;
  listItems : O → list Obj;
  selectorText : gmap string string → string;
  emptyList_kind : ∀ g, ObjectKinds (emptyList g) = Ok [mkGVK (gvkGroup g) (gvkVersion g) (gvkKind g +:+ "List")];
  list_proxied : ∀ c g sel s, plane_List c g sel s =
    match proxyList (proxyOf c) (mkListOptions "" (Some (selectorText sel)) None 0 "") (emptyList g) s with
    | (s', inl l) => (s', inl (listItems l))
    | (s', inr e) => (s', inr (apiErrorOf e))
    end
}.
Context {PP : ProxiedPlane}.

(** The API server of the plane does not serve the kind: it answers every
    listing with 404. *)
Definition unserved (g : GVK) : Prop :=
  ∀ c sel s, ∃ s' resp,
    Do (httpTLS (proxyOf c)) (listRequest (proxyOf c) (mkListOptions "" (Some (selectorText sel)) None 0 "") g) s = (s', Ok resp)
    ∧ respCode resp = 404%Z.

Lemma unserved_list g c sel s : unserved g → ∃ s' e, plane_List c g sel s = (s', inr e) ∧ IsNoMatchError e = false.
Proof.
  intros Hu. rewrite list_proxied. destruct (Hu c sel s) as (s' & resp & Hd & Hc).
  destruct (proxyList_fails (proxyOf c) (mkListOptions "" (Some (selectorText sel)) None 0 "") (emptyList g)
    (gvkGroup g) (gvkVersion g) (gvkKind g) s) as (s1 & e & -> & He); [apply emptyList_kind| |].
  - exists s', resp. destruct g. split; [done|]. unfold isSuccess. by rewrite Hc.
  - exists s1, (apiErrorOf e). split; [done|]. cbn. by apply bool_decide_eq_false.
Qed.

Lemma listLive_blocked c release gvks g w w' live :
  g ∈ gvks → unserved g → listLiveResourcesByGVKs c release gvks w ≠ (w', Val live).
Proof.
  intros Hg Hu. revert w w' live. induction gvks as [|g' gvks IH]; intros w w' live; [by apply elem_of_nil in Hg|].
  cbn [listLiveResourcesByGVKs]. intros (w1 & answer & (s & Hs & _)%onPlane_run & Hrun)%bind_Val.
  apply bind_Val in Hrun as (w2 & [] & _ & Hrun). apply elem_of_cons in Hg as [->|Hg].
  - destruct (unserved_list g' c (managedSelector release) (planeOf w) Hu) as (s' & e & He & Hn).
    rewrite Hs in He. injection He as _ ->. by rewrite Hn in Hrun.
  - destruct answer as [items|e].
    + apply bind_Val in Hrun as (w3 & rest & Hr & _). by apply (IH Hg) in Hr.
    + destruct (IsNoMatchError e); [by apply (IH Hg) in Hrun|done].
Qed.

(** The kinds that are listed whatever the release applies. *)
Definition alwaysListed (release : RenderedRelease) : list GVK := kindsOf release [].

Lemma alwaysListed_known now release applied g : g ∈ alwaysListed release → g ∈ knownGVKs now release applied.
Proof.
  intros Hg. unfold knownGVKs, findAllKnownGVKs. rewrite gvkOrder_perm, elem_of_remove_dups, elem_of_app. right.
  unfold applied_release, MarkTrueCondition. rewrite mark_resources. unfold markCondition.
  destruct (SetStatusCondition _ _) as [cs []]; exact Hg.
Qed.

(** A plane that does not serve one of the kinds that are always listed, for
    example because the Gateway API is not installed, stops every
    reconciliation of every release on it: the proxy turns the 404 of the
    listing into an error that the controller does not take for a missing kind,
    so that no status is ever recorded and nothing stale is ever deleted,
    although the controller means to skip kinds that are not registered. *)
Theorem missing_kind_blocks_release (now : Z) (release : RenderedRelease) (g : GVK) (w : World) :
  relDeleting release = false →
  (AddFinalizer (relFinalizers release)
     (if bool_decide (relTargetPlane release = targetPlaneObservabilityPlane)
      then ObsPlaneCleanupFinalizer else DataPlaneCleanupFinalizer)).2 = false →
  g ∈ alwaysListed release → unserved g →
  ∃ w' err, reconcileRelease now release w = (w', Fail err).
Proof.
  intros Hd Hf Hg Hu. destruct (reconcileRelease now release w) as [w' [n|err]] eqn:Hrun; [|by eauto].
  exfalso. unfold reconcileRelease in Hrun. apply bind_Val in Hrun as (w1 & [r added] & He & Hrun).
  unfold ensureFinalizer in He. rewrite Hd in He. destruct (AddFinalizer _ _) as [fs b]. cbn [snd] in Hf. subst b.
  injection He as <- <- <-. apply bind_Val in Hrun as (w2 & c & _ & Hrun).
  apply bind_Val in Hrun as (w3 & desired & _ & Hrun). apply bind_Val in Hrun as (w4 & [] & _ & Hrun).
  apply bind_Val in Hrun as (w5 & applied & _ & Hrun).
  apply settle_run in Hrun as (w6 & w7 & live & Hl & _). revert Hl.
  by eapply listLive_blocked; [apply alwaysListed_known|].
Qed.
End Blocked.
