(* ===== verification/PlaneWitness.v ===== *)
(** * The plane theorems at work

    Planes in a namespace and of the cluster, a gateway with two agents, a codec
    that keeps every struct, and the theorems about planes applied to them. *)

From S2P Require Import Prelude GoStrings RenderErrors ReleaseObjects GatewayConn GatewayConnSpec FabricMesh GatewayServer GatewayServerSpec GatewayWitness.
From S2P Require Import PlaneObjects PlaneRefs ReleaseController ReleaseConverge ReleaseWitness PlaneProxy GatewayClient PlaneControllers.
From S2P Require Import PlaneProxySpec PlaneSpec PlaneRelease.

#[local] Set Warnings "-register-all".
Open Scope go_scope.

(** ** Objects *)

Definition created : Condition := mkCondition TypeCreated ConditionTrue "Created" "created" 1 1.

Definition metaOf (ns name : string) (gen : Z) (deleting : bool) (fs : list string) : ObjectMeta :=
  mkMeta name ns "" gen deleting fs ∅.

(** A data plane whose second generation was not observed yet. *)
Definition plane (deleting : bool) : DataPlane :=
  mkPlaneCR (metaOf "acme" "prod" 2 deleting ["openchoreo.dev/dataplane-cleanup"; "foregroundDeletion"])
    (mkDataPlaneSpec "dp" anyAgent anyGateway None None)
    (mkPlaneCRStatus 1 [created; NewCondition 7 TypeFinalizing ConditionTrue "DataplaneFinalizing" "Dataplane is finalizing" 2] None).

Definition clusterPlane : ClusterDataPlane :=
  mkPlaneCR (metaOf "" "shared" 2 false ["openchoreo.dev/clusterdataplane-cleanup"])
    (mkClusterDataPlaneSpec "dp" anyAgent anyGateway None None) (mkPlaneCRStatus 1 [created] None).

Definition obsPlane (id : string) : ObservabilityPlane :=
  mkPlaneCR (metaOf "acme" "obs" 2 false ["openchoreo.dev/observabilityplane-cleanup"])
    (mkObservabilityPlaneSpec id anyAgent "" "" "") (mkPlaneCRStatus 2 [created] None).

(** ** References *)

#[local] Existing Instance no_workflows.

Definition noPlane {S A : Type} : CM S A := absent.

(** One data plane per namespace, and cluster planes by any name. *)
#[local] Instance some_planes : PlaneStore unit := {
  getEnvironment _ _ := noPlane;
  getDataPlane ns name := if bool_decide (name = "default") then mret (plane false) else noPlane;
  getClusterDataPlane _ := mret clusterPlane;
  getObservabilityPlane _ _ := noPlane;
  getClusterObservabilityPlane name :=
    mret (mkPlaneCR (metaOf "" name 1 false []) (mkClusterObservabilityPlaneSpec "obs" anyAgent "" "" "") anyStatus);
  getWorkflowPlane _ _ := noPlane;
  getClusterWorkflowPlane name :=
    mret (mkPlaneCR (metaOf "" name 1 false []) (mkClusterWorkflowPlaneSpec "wf" anyAgent None None) anyStatus);
  getWorkflow _ _ := noPlane;
  getClusterWorkflow _ := noPlane;
  NewNotFound _ _ := mkClientError "not found" [IsNotFoundErr]
}.

(** What a reader of these planes returns. *)
Definition answerOf {A} (m : CM unit A) : option A := match (m ()).2 with inl a => Some a | inr _ => None end.

Lemma answers_truthful {N C} resource (getN : string → string → CM unit N) (getC : string → CM unit C) :
  truthful resource getN getC (λ _ ns name, answerOf (getN ns name)) (λ _ name, answerOf (getC name)).
Proof.
  split; [|..|done].
  - intros ns name []. unfold same_views, answerOf. split; [done|]. by destruct (getN ns name ()) as [? [?|?]].
  - intros name []. unfold same_views, answerOf. split; [done|]. by destruct (getC name ()) as [? [?|?]].
Qed.

#[local] Instance some_views : PlaneViews := {
  data_truthful := answers_truthful _ _ _;
  observability_truthful := answers_truthful _ _ _;
  workflow_truthful := answers_truthful _ _ _
}.

Lemma references_resolve_witness :
  (GetDataPlaneFromRef "acme" None ()).2 = inl (mkPlaneResult (Some (plane false)) None)
  ∧ resolved DataPlaneRefKindDataPlane DataPlaneRefKindClusterDataPlane dataPlanes clusterDataPlanes () "acme" None
    = Some (mkPlaneResult (Some (plane false)) None).
Proof. split; [reflexivity|]. exact (proj1 (references_resolve "acme" None ())). Defined.

Definition buildWorkflow : ClusterWorkflow := mkClusterWorkflow (metaOf "" "build" 1 false []) (mkWorkflowSpec None None None [] [] "").

Definition runPlane : WorkflowPlaneResult :=
  mkPlaneResult None (Some (mkPlaneCR (metaOf "" "default" 1 false []) (mkClusterWorkflowPlaneSpec "wf" anyAgent None None) anyStatus)).
Definition runObs : ObservabilityPlaneResult :=
  mkPlaneResult None (Some (mkPlaneCR (metaOf "" "default" 1 false []) (mkClusterObservabilityPlaneSpec "obs" anyAgent "" "" "") anyStatus)).

Lemma cluster_scope_is_kept_witness : resNamespaced runPlane = None ∧ resNamespaced runObs = None.
Proof.
  apply (cluster_scope_is_kept buildWorkflow "acme" () () () runPlane runObs clusterPlane).
  - by intros r [=].
  - intros p [= <-] r [=].
  - by intros r [=].
  - vm_compute. reflexivity.
  - left. vm_compute. reflexivity.
Defined.

(** ** Requests and clients *)

#[local] Instance no_files : TLSFiles := {
  KeyPair := unit; ReadFile _ := Err "no such file"; LoadX509KeyPair _ _ := Err "no such file"
}.

Definition gwURL : string := "https://gateway:8443/".

Definition aClient : ProxyClient := mkProxyClient "https://gateway:8443" "dataplane" "dp" "ns" "a" (mkTLSConfig false None []).

Definition podsRequest : serverRequest :=
  mkServerRequest "GET" (rawPath aClient "/api/v1/pods") "" ∅ 0 (Ok "").

(** The pod of the gateway's own example: its agents are at another replica. *)
Definition podsRun : Fleet * answer string :=
  handleHTTPProxy pod NewRequestValidator podsRequest "r1" TimedOut (λ _, GatewayWitness.lost).


Lemma plane_clean : cleanPlane (ADataPlane (plane false)).
Proof. split_and!; reflexivity. Qed.

(** The manager after a client of another plane was made. *)
Definition someClients : KubeMultiClientManager :=
  (clientFor gwURL (AObservabilityPlane (obsPlane "o1")) (NewManagerWithProxyTLS None)).1.

Definition planeClientMade : KubeMultiClientManager * (ProxyClient + clientError) :=
  clientFor gwURL (ADataPlane (plane false)) someClients.

Definition madeClient : ProxyClient :=
  mkProxyClient "https://gateway:8443" "dataplane" "dp" "acme" "prod" (mkTLSConfig false None []).

Lemma client_is_isolated_witness :
  planeClientMade.2 = inl madeClient ∧ planeType madeClient = "dataplane" ∧ pcNamespace madeClient = "acme"
  ∧ pcName madeClient = "prod" ∧ planeID madeClient = "dp".
Proof.
  split; [vm_compute; reflexivity|].
  destruct (client_is_isolated gwURL None someClients planeClientMade.1 (ADataPlane (plane false)) madeClient)
    as (_ & H1 & H2 & H3 & H4).
  - apply rtc_once. apply step_client. split_and!; reflexivity.
  - exact plane_clean.
  - change (clientFor gwURL (ADataPlane (plane false)) someClients) with planeClientMade.
    rewrite (surjective_pairing planeClientMade). by f_equal.
  - split_and!; [exact H1|exact H2|exact H3|exact (H4 eq_refl)].
Defined.

(** ** Controllers *)

(** A store that keeps one object, and no gateway. *)
Definition stored_env {Spec} : PlaneEnv Spec (PlaneCR Spec) :=
  @Build_PlaneEnv Spec (PlaneCR Spec) (λ _ _ s, (s, inl s)) (λ p _, (p, inl ())) (λ p _, (p, inl ()))
    (λ _ _ s, (s, inl 0)) None (Some (λ _ s, s)) "v2".
#[local] Existing Instance stored_env.

Definition deletedPlane : PlaneWorld DataPlaneSpec DataPlane := mkPlaneWorld (plane true) [].


Lemma clusterPlane_existing : existing clusterDataPlaneKind clusterPlane.
Proof. split; [reflexivity|left|]. by exists created. Qed.

Definition changedCluster : PlaneWorld ClusterDataPlaneSpec ClusterDataPlane := mkPlaneWorld clusterPlane [].

Lemma cluster_change_unannounced_witness :
  (observed clusterPlane < generation clusterPlane)%Z
  ∧ ∃ new, pwCalls (reconcileClusterDataPlane 9 "" "shared" changedCluster).1 = [] ++ new
    ∧ Forall (λ c, match c with PNotify _ _ | PForget _ => False | _ => True end) new.
Proof.
  split; [done|].
  exact (cluster_change_unannounced 9 "" "shared" clusterPlane changedCluster clusterPlane eq_refl clusterPlane_existing).
Defined.

Definition obsChanged : PlaneWorld ObservabilityPlaneSpec ObservabilityPlane := mkPlaneWorld (obsPlane "o2") [].

Definition obsClient : ProxyClient :=
  mkProxyClient "https://gateway:8443" "observabilityplane" "o1" "acme" "obs" (mkTLSConfig false None []).

Lemma obs_client_stale_witness :
  clientFor gwURL (AObservabilityPlane (obsPlane "o2")) someClients = (someClients, inl obsClient)
  ∧ planeID obsClient = "o1" ∧ idOf (AObservabilityPlane (obsPlane "o2")) = "o2".
Proof.
  destruct (obs_client_stale 9 "acme" "obs" gwURL (obsPlane "o1") (obsPlane "o2") None someClients obsClient obsChanged (obsPlane "o2"))
    as (_ & H1 & H2).
  - split_and!; reflexivity.
  - unfold someClients. rewrite (surjective_pairing (clientFor _ _ _)). by f_equal.
  - reflexivity.
  - reflexivity.
  - reflexivity.
  - reflexivity.
  - split; [reflexivity|left|]. by exists created.
  - split; [exact H1|]. split; [exact H2|reflexivity].
Defined.

(** ** A codec: numbers in binary digits *)

Fixpoint digits (p : positive) : string :=
  match p with xH => "" | xO p => String "0" (digits p) | xI p => String "1" (digits p) end.
Fixpoint number (s : string) : positive :=
  match s with "" => xH | String c s => if bool_decide (c = "0"%char) then xO (number s) else xI (number s) end.

Lemma number_digits p : number (digits p) = p.
Proof. induction p as [p IH|p IH|]; cbn; [by rewrite IH..|done]. Qed.

Definition toText {A} `{Countable A} (a : A) : string := digits (encode a).
Definition ofText {A} `{Countable A} (s : string) : result A :=
  match decode (number s) with Some a => Ok a | None => Err "unexpected end of JSON input" end.

Lemma ofText_toText {A} `{Countable A} (a : A) : ofText (toText a) = Ok a.
Proof. unfold ofText, toText. by rewrite number_digits, decode_encode. Qed.

Definition notificationParts (n : PlaneNotification) : string * string * string * string * string :=
  (nfPlaneType n, nfPlaneID n, nfEvent n, nfNamespace n, nfName n).
Definition partsNotification (p : string * string * string * string * string) : PlaneNotification :=
  let '(t, i, e, ns, n) := p in mkNotification t i e ns n.
Definition statusParts (st : ConnectionStatus) : string * string * bool * Z * Z :=
  (gsPlaneType st, gsPlaneID st, gsConnected st, gsConnectedAgents st, gsLastSeen st).
Definition partsStatus (p : string * string * bool * Z * Z) : ConnectionStatus :=
  let '(t, i, c, n, l) := p in mkConnectionStatus t i c n l.
Definition mapOk {A B} (f : A → B) (r : result A) : result B := match r with Ok a => Ok (f a) | Err m => Err m end.

#[local] Instance text_codec : GatewayCodec := {
  encodeNotification n := Ok (toText (notificationParts n));
  decodeNotification s := mapOk (λ '(n, b), mkNotified n b) (ofText s);
  decodeStatus s := mapOk partsStatus (ofText s)
}.
#[local] Instance text_server : ServerCodec := {
  decodePayload s := mapOk partsNotification (ofText s);
  encodeResponse r := toText (ncDisconnectedAgents (notifiedOf r), ncSuccess (notifiedOf r));
  encodeReconnect r := "";
  encodeStatus st := toText (statusParts (statusOf st));
  encodeStatuses _ := ""
}.
#[local] Instance text_laws : CodecLaws.
Proof.
  split.
  - intros n. eexists. split; [reflexivity|]. cbn. rewrite ofText_toText. by destruct n.
  - intros r. cbn. by rewrite ofText_toText.
  - intros st. cbn. by rewrite ofText_toText.
Qed.

(** ** The system: two agents of the plane, of which one has the new CA *)

Definition gatewayOf (cm : ConnectionManager) : gwServer :=
  mkGwServer cm None None (λ _ _, Ok {["acme/prod" := Some "new"]}).

Definition systemOf {T} (t : T) : planeSystem (T := T) := mkPlaneSystem t (gatewayOf cm2) (NewManagerWithProxyTLS None).

Definition memory {Spec} : storeOps (Spec := Spec) (T := PlaneCR Spec) :=
  mkStoreOps (λ _ _ s, (s, inl s)) (λ p _, (p, inl ())) (λ p _, (p, inl ())) (λ _ _ s, (s, inl 0)).

Definition noLoss : httpRequest → option clientError := λ _, None.

Definition changedPlane : PlaneWorld DataPlaneSpec (planeSystem (T := DataPlane)) := mkPlaneWorld (systemOf (plane false)) [].

Definition changeRun : PlaneWorld DataPlaneSpec (planeSystem (T := DataPlane)) * (Z + clientError) :=
  @reconcileDataPlane _ _ _ (dataPlaneEnv gwURL noLoss memory) 9 "acme" "prod" changedPlane.

Lemma plane_existing : existing dataPlaneKind (plane false).
Proof. split; [reflexivity|left|]. by exists created. Qed.

Lemma plane_can : canRevalidate noLoss (plane false) (gatewayOf cm2).
Proof. split; [done|]. by exists "new", ["new"]. Qed.


(** A store of one object that is only read. *)
Definition fixedStore {Spec} (p : PlaneCR Spec) : storeOps (Spec := Spec) (T := unit) :=
  mkStoreOps (λ _ _ s, (s, inl p)) (λ _ s, (s, inl ())) (λ _ s, (s, inl ())) (λ _ _ s, (s, inl 0)).

Lemma cluster_status_is_plane_level_witness :
  ∃ c p, (populateAgentConnectionStatus (PE := wiredEnv gwURL (fixedStore clusterPlane) delivers) clusterDataPlaneKind 9 clusterPlane
            (mkPlaneWorld (systemOf ()) [])).2 = inl c
  ∧ (populateAgentConnectionStatus (PE := wiredEnv gwURL (fixedStore (plane false)) delivers) dataPlaneKind 9 (plane false)
       (mkPlaneWorld (systemOf ()) [])).2 = inl p
  ∧ (acConnectedAgents <$> psAgentConnection (crStatus c)) = Some 2%Z
  ∧ (acConnectedAgents <$> psAgentConnection (crStatus p)) = Some 0%Z.
Proof.
  destruct (cluster_status_is_plane_level gwURL (fixedStore clusterPlane) (fixedStore (plane false)) 9 clusterPlane (plane false)
    (mkPlaneWorld (systemOf ()) []) (mkPlaneWorld (systemOf ()) [])) as (H1 & _ & H2);
    [reflexivity|reflexivity|discriminate|discriminate|reflexivity|reflexivity|reflexivity|discriminate|discriminate|discriminate|].
  eexists _, _. split; [exact H1|]. split; [exact H2|]. vm_compute. split; reflexivity.
Defined.

(** ** A plane without the Gateway API *)

#[local] Instance no_server : HTTPTransport shelf := {
  NewRequest _ _ := None;
  Do _ _ s := (s, Ok (mkResponse 404 (Ok "404 page not found")))
}.

(** Lists of a kind; nothing is decoded from a 404. *)
#[local] Instance kind_lists : ObjectCodec GVK unit := {
  ObjectKinds g := Ok [mkGVK (gvkGroup g) (gvkVersion g) (gvkKind g +:+ "List")];
  objNamespace _ := "";
  objName _ := "";
  Marshal _ := Err "unsupported";
  Unmarshal _ g := Ok g;
  patchType _ := "";
  patchData _ _ := Err "unsupported"
}.

#[local] Instance plain_errors : APIErrors := { statusFailure _ := None; apiErrorText _ _ _ _ msg := msg }.
#[local] Instance plain_errors_laws : APIErrorsLaws.
Proof. by intros body err [=]. Qed.

#[local] Instance proxied_cluster : Cluster := {
  CPState := option RenderedRelease;
  PlaneState := shelf;
  PlaneClient := ProxyClient;
  cp_Get _ _ r := (r, match r with Some x => inl x | None => inr (mkAPIError (errorf "not found") true false false) end);
  cp_Update r _ := (Some r, None);
  cp_StatusUpdate r _ := (Some r, None);
  cp_parts := no_workflows;
  cp_store := default_planes;
  cp_provider := Some (mkProvider (λ _, mret aClient) (λ _, mret aClient) (λ _, mret aClient) (λ _, mret aClient) (λ _, mret aClient) (λ _, mret aClient));
  plane_Apply _ o s := (<[@ReleaseConverge.key plain_objects o := applied_to o s]> s, Val (applied_to o s));
  plane_List c g sel s :=
    match proxyList c (mkListOptions "" (Some "") None 0 "") g s with
    | (s', inl l) => (s', inl [])
    | (s', inr e) => (s', inr (apiErrorOf e))
    end;
  plane_Delete _ o s := (s, None);
  plane_GetNamespace _ _ s := (s, None);
  plane_CreateNamespace _ _ s := (s, None)
}.

#[local] Instance proxied_plane : ProxiedPlane := {
  proxyOf c := c;
  emptyList g := g;
  listItems _ := [];
  selectorText _ := "";
  emptyList_kind _ := eq_refl;
  list_proxied _ _ _ _ := eq_refl
}.

Lemma missing_kind_blocks_release_witness :
  ∃ w' err, reconcileRelease (CL := proxied_cluster) 7 webRelease (mkWorld (Some webRelease) ∅ []) = (w', Fail err).
Proof.
  apply (missing_kind_blocks_release 7 webRelease (mkGVK "gateway.networking.k8s.io" "v1" "HTTPRoute")).
  - reflexivity.
  - vm_compute. reflexivity.
  - vm_compute. set_solver.
  - intros c sel s. eexists _, _. split; reflexivity.
Defined.
