(* ===== verification/K8sNames.v ===== *)
(** * Go's [crypto/sha256], [hash/fnv] and [encoding/hex], as the code uses them

    SHA-256 is written out after FIPS 180-4 and FNV-1a after its reference
    definition, on 32-bit words kept in [Z] with their wrap-around, so that a
    digest evaluates.  The names the control plane derives carry such digests. *)

From S2P Require Import Prelude GoStrings.

Open Scope Z_scope.

(** ** 32-bit words *)

Definition w32 (x : Z) : Z := Z.land x 0xffffffff.

Definition add32 (x y : Z) : Z := w32 (x + y).

(** [bits.RotateLeft32(x, -n)] *)
Definition rotr (n x : Z) : Z := Z.lor (Z.shiftr x n) (w32 (Z.shiftl x (32 - n))).

Definition byte_of (c : ascii) : Z := Z.of_nat (nat_of_ascii c).

Fixpoint bytes_of (s : string) : list Z :=
  match s with
  | "" => []
  | String c s => byte_of c :: bytes_of s
  end.

(** The bytes of a word, most significant first. *)
Definition word_bytes (x : Z) : list Z :=
  [Z.land (Z.shiftr x 24) 255; Z.land (Z.shiftr x 16) 255; Z.land (Z.shiftr x 8) 255; Z.land x 255].

(** ** SHA-256 *)

Module Sha256.

(** The constants are the first 32 bits of the fractional parts of roots of the
    first primes: of the cube roots of 64 of them for the rounds, of the square
    roots of eight for the start. *)
Definition is_prime (n : nat) : bool := forallb (λ d, negb (Nat.modulo n d =? 0)%nat) (seq 2 (n - 2)).
Definition primes : list Z := Eval vm_compute in Z.of_nat <$> filter (λ n, is_prime n = true) (seq 2 310).

(** The integer cube root, bit by bit from the highest. *)
Fixpoint cube_root (bits : nat) (root n : Z) : Z :=
  match bits with
  | O => root
  | S b => let next := root + 2 ^ Z.of_nat b in cube_root b (if next * next * next <=? n then next else root) n
  end.

Definition cube_fraction (p : Z) : Z := w32 (cube_root 40 0 (p * 2 ^ 96)).
Definition square_fraction (p : Z) : Z := w32 (Z.sqrt (p * 2 ^ 64)).

Definition K : list Z := Eval vm_compute in cube_fraction <$> primes.

Record state := State { sa : Z; sb : Z; sc : Z; sd : Z; se : Z; sf : Z; sg : Z; sh : Z }.

Definition H0 : state := Eval vm_compute in
  match square_fraction <$> primes with
  | a :: b :: c :: d :: e :: f :: g :: h :: _ => State a b c d e f g h
  | _ => State 0 0 0 0 0 0 0 0
  end.

Definition Ch (x y z : Z) : Z := Z.lxor (Z.land x y) (Z.land (Z.lxor x 0xffffffff) z).
Definition Maj (x y z : Z) : Z := Z.lxor (Z.lxor (Z.land x y) (Z.land x z)) (Z.land y z).
Definition bsig0 (x : Z) : Z := Z.lxor (Z.lxor (rotr 2 x) (rotr 13 x)) (rotr 22 x).
Definition bsig1 (x : Z) : Z := Z.lxor (Z.lxor (rotr 6 x) (rotr 11 x)) (rotr 25 x).
Definition ssig0 (x : Z) : Z := Z.lxor (Z.lxor (rotr 7 x) (rotr 18 x)) (Z.shiftr x 3).
Definition ssig1 (x : Z) : Z := Z.lxor (Z.lxor (rotr 17 x) (rotr 19 x)) (Z.shiftr x 10).

(** The message schedule: [w] is the window of the last sixteen words, oldest
    first. *)
Fixpoint schedule (n : nat) (w : list Z) : list Z :=
  match n, w with
  | S n, w0 :: ws =>
      let at_ i := default 0 (w !! i) in
      let new := w32 (ssig1 (at_ 14%nat) + at_ 9%nat + ssig0 (at_ 1%nat) + w0) in
      w0 :: schedule n (ws ++ [new])
  | _, _ => []
  end.

Definition round (s : state) (kw : Z * Z) : state :=
  let t1 := w32 (sh s + bsig1 (se s) + Ch (se s) (sf s) (sg s) + kw.1 + kw.2) in
  let t2 := w32 (bsig0 (sa s) + Maj (sa s) (sb s) (sc s)) in
  State (add32 t1 t2) (sa s) (sb s) (sc s) (add32 (sd s) t1) (se s) (sf s) (sg s).

Definition add_state (s t : state) : state :=
  State (add32 (sa s) (sa t)) (add32 (sb s) (sb t)) (add32 (sc s) (sc t)) (add32 (sd s) (sd t))
        (add32 (se s) (se t)) (add32 (sf s) (sf t)) (add32 (sg s) (sg t)) (add32 (sh s) (sh t)).

(** One block of sixteen words. *)
Definition block (s : state) (w : list Z) : state :=
  add_state s (foldl round s (zip K (schedule 64 w))).

(** The padding: a one bit, zeros, and the length in bits in eight bytes. *)
Definition pad (msg : list Z) : list Z :=
  let n := Z.of_nat (length msg) in
  let bits := 8 * n in
  msg ++ 128 :: replicate (Z.to_nat ((55 - n) mod 64)) 0 ++
  word_bytes (Z.shiftr bits 32) ++ word_bytes bits.

Fixpoint words (bs : list Z) : list Z :=
  match bs with
  | a :: b :: c :: d :: bs =>
      Z.lor (Z.lor (Z.shiftl a 24) (Z.shiftl b 16)) (Z.lor (Z.shiftl c 8) d) :: words bs
  | _ => []
  end.

(** [n] blocks of sixteen words. *)
Fixpoint blocks (n : nat) (s : state) (ws : list Z) : state :=
  match n with
  | O => s
  | S n => blocks n (block s (take 16 ws)) (drop 16 ws)
  end.

Definition digest (s : state) : list Z :=
  word_bytes (sa s) ++ word_bytes (sb s) ++ word_bytes (sc s) ++ word_bytes (sd s) ++
  word_bytes (se s) ++ word_bytes (sf s) ++ word_bytes (sg s) ++ word_bytes (sh s).

End Sha256.

(** [sha256.Sum256([]byte(s))] *)
Definition Sum256 (s : string) : list Z :=
  let padded := Sha256.pad (bytes_of s) in
  Sha256.digest (Sha256.blocks (length padded / 64)%nat Sha256.H0 (Sha256.words padded)).

(** ** Hexadecimal *)

Definition hex_digit (n : Z) : ascii :=
  ascii_of_nat (Z.to_nat (if n <? 10 then 48 + n else 87 + n)).

Fixpoint EncodeToString (bs : list Z) : string :=
  match bs with
  | [] => ""
  | b :: bs => String (hex_digit (Z.land (Z.shiftr b 4) 15)) (String (hex_digit (Z.land b 15)) (EncodeToString bs))
  end.

(** ** FNV-1a, 32 bits *)

Definition fnv32a (s : string) : Z :=
  foldl (λ h b, w32 (Z.lxor h b * 16777619)) 2166136261 (bytes_of s).

(** [fmt.Sprintf("%08x", x)] of a [uint32] *)
Definition Sprintf_08x (x : Z) : string := EncodeToString (word_bytes x).

(** ** Laws *)

Definition is_hex (c : ascii) : bool :=
  let n := nat_of_ascii c in
  ((48 <=? n)%nat && (n <=? 57)%nat) || ((97 <=? n)%nat && (n <=? 102)%nat).

Fixpoint all_bytes (f : ascii → bool) (s : string) : bool :=
  match s with
  | "" => true
  | String c s => f c && all_bytes f s
  end.

Lemma hex_digit_is_hex b : is_hex (hex_digit (Z.land b 15)) = true.
Proof.
  assert (0 ≤ Z.land b 15 < 16) as Hr.
  { change 15 with (Z.ones 4). rewrite Z.land_ones by lia. apply Z.mod_pos_bound. lia. }
  revert Hr. generalize (Z.land b 15). intros n Hn.
  assert (n = 0 ∨ n = 1 ∨ n = 2 ∨ n = 3 ∨ n = 4 ∨ n = 5 ∨ n = 6 ∨ n = 7 ∨ n = 8 ∨ n = 9 ∨ n = 10 ∨
          n = 11 ∨ n = 12 ∨ n = 13 ∨ n = 14 ∨ n = 15) as Hc by lia.
  repeat destruct Hc as [->|Hc]; subst; reflexivity.
Qed.

Lemma EncodeToString_hex bs : all_bytes is_hex (EncodeToString bs) = true.
Proof.
  induction bs as [|b bs IH]; [done|]. cbn [EncodeToString all_bytes].
  by rewrite !hex_digit_is_hex, IH.
Qed.

Lemma EncodeToString_length bs : String.length (EncodeToString bs) = (2 * length bs)%nat.
Proof. induction bs as [|b bs IH]; [done|]. cbn [EncodeToString String.length length]. rewrite IH. lia. Qed.

Lemma Sum256_length s : length (Sum256 s) = 32%nat.
Proof. unfold Sum256, Sha256.digest. generalize (Sha256.blocks (length (Sha256.pad (bytes_of s)) / 64) Sha256.H0 (Sha256.words (Sha256.pad (bytes_of s)))). by intros []. Qed.

(** The examples of FIPS 180-4 and of the FNV reference. *)
Example Sum256_abc :
  EncodeToString (Sum256 "abc") = "ba7816bf8f01cfea414140de5dae2223b00361a396177a9cb410ff61f20015ad".
Proof. vm_compute. reflexivity. Qed.

Example Sum256_two_blocks :
  EncodeToString (Sum256 "abcdbcdecdefdefgefghfghighijhijkijkljklmklmnlmnomnopnopq") =
  "248d6a61d20638b8e5c026930c3e6039a33ce45964ff2167f6ecedd419db06c1".
Proof. vm_compute. reflexivity. Qed.

Example fnv32a_foobar : Sprintf_08x (fnv32a "foobar") = "bf9cf968".
Proof. vm_compute. reflexivity. Qed.

Close Scope Z_scope.

(** * Kubernetes names

    [internal/dataplane/kubernetes/name.go]: the names of the objects the
    platform creates in a data plane, made of sanitized and truncated parts and
    eight digits of a hash of the parts; and the two functions of
    [internal/template/custom_functions.go] that are template functions of it,
    [oc_generate_name] and [oc_dns_label].

    Names are ASCII here, as the names of Kubernetes objects are: [is_ascii] is
    a hypothesis of the theorems ([unicode.IsLetter] has letters outside it that
    the code keeps).  [None] is a panic. *)

Open Scope Z_scope.

(** ** The [strings] and [unicode] functions the file uses *)

Definition is_lower (c : ascii) : bool := let n := nat_of_ascii c in (97 <=? n)%nat && (n <=? 122)%nat.
Definition is_upper (c : ascii) : bool := let n := nat_of_ascii c in (65 <=? n)%nat && (n <=? 90)%nat.
Definition IsLetter (c : ascii) : bool := is_lower c || is_upper c.
Definition IsNumber (c : ascii) : bool := let n := nat_of_ascii c in (48 <=? n)%nat && (n <=? 57)%nat.
Definition is_ascii (s : string) : bool := all_bytes (λ c, (nat_of_ascii c <? 128)%nat) s.

Fixpoint TrimLeftFunc (f : ascii → bool) (s : string) : string :=
  match s with
  | "" => ""
  | String c s' => if f c then TrimLeftFunc f s' else s
  end.

Fixpoint TrimRightFunc (f : ascii → bool) (s : string) : string :=
  match s with
  | "" => ""
  | String c s' =>
      match TrimRightFunc f s' with
      | "" => if f c then "" else String c ""
      | t => String c t
      end
  end.

(** [strings.Trim(s, cutset)] *)
Definition Trim (s cutset : string) : string :=
  TrimRightFunc (λ c, has_byte c cutset) (TrimLeftFunc (λ c, has_byte c cutset) s).

(** [s[:n]]: a panic out of range. *)
Definition slice_to (s : string) (n : Z) : option string :=
  if (0 <=? n) && (n <=? Z.of_nat (String.length s)) then Some (stake (Z.to_nat n) s) else None.

Fixpoint map_bytes (f : ascii → ascii) (s : string) : string :=
  match s with
  | "" => ""
  | String c s => String (f c) (map_bytes f s)
  end.

(** ** The file *)

Definition maxNameLength : Z := 253.
Definition hashLength : Z := 8.
Definition separator : string := "-".
Definition MaxLabelNameLength : Z := 63.
Definition MaxResourceNameLength : Z := maxNameLength.
Definition MaxNamespaceNameLength : Z := 63.

Definition sanitizeName (name : string) : string :=
  Trim (map_bytes (λ r, if IsLetter r || IsNumber r || bool_decide (r = "-"%char) || bool_decide (r = "."%char)
                        then r else "-"%char) (ToLower name)) "-.".

Definition ensureDNSSubdomainCompliance (name : string) : string :=
  let invalid r := negb (IsLetter r) && negb (IsNumber r) in
  TrimRightFunc invalid (TrimLeftFunc invalid name).

(** The digits of the hash: [hex.EncodeToString(hashBytes[:])[:hashLength]]. *)
Definition hashString (extraHashInput : string) (names : list string) : option string :=
  let hashInput := Join names separator in
  let hashInput := if bool_decide (extraHashInput = "") then hashInput
                   else hashInput +:+ separator +:+ extraHashInput in
  slice_to (EncodeToString (Sum256 hashInput)) hashLength.

(** The loop that truncates: part [i] has one more byte when [i < extraChars]. *)
Fixpoint truncateNames (maxPartLength extraChars i : Z) (names : list string) : option (list string) :=
  match names with
  | [] => Some []
  | name :: names =>
      let allocatedLength := if i <? extraChars then maxPartLength + 1 else maxPartLength in
      t ← (if allocatedLength <? Z.of_nat (String.length name) then slice_to name allocatedLength else Some name);
      ts ← truncateNames maxPartLength extraChars (i + 1) names;
      Some (t :: ts)
  end.

(** Go's integer division panics on a zero divisor and truncates. *)
Definition generateK8sName (limit : Z) (extraHashInput : string) (names : list string) : option string :=
  let cleanedNames := sanitizeName <$> names in
  hash ← hashString extraHashInput names;
  let numberOfNames := Z.of_nat (length cleanedNames) in
  let totalSeparatorLength := Z.of_nat (String.length separator) * (numberOfNames - 1) + Z.of_nat (String.length separator) in
  let maxBaseNameLength := limit - hashLength - totalSeparatorLength in
  if numberOfNames =? 0 then None
  else
    let maxPartLength := Z.quot maxBaseNameLength numberOfNames in
    let extraChars := Z.rem maxBaseNameLength numberOfNames in
    truncatedNames ← truncateNames maxPartLength extraChars 0 cleanedNames;
    let baseName := Join truncatedNames separator in
    Some (ensureDNSSubdomainCompliance (baseName +:+ separator +:+ hash)).

Definition GenerateK8sNameWithLengthLimit (limit : Z) (names : list string) : option string :=
  generateK8sName limit "" names.

Definition GenerateK8sName (names : list string) : option string :=
  GenerateK8sNameWithLengthLimit maxNameLength names.

Definition GenerateK8sNameWithExtraHashInput (limit : Z) (extraHashInput : string) (names : list string) : option string :=
  generateK8sName limit extraHashInput names.

(** [oc_generate_name] and [oc_dns_label], on the strings of their arguments. *)
Definition generateK8sNameFromStrings (parts : list string) : option string :=
  GenerateK8sNameWithLengthLimit MaxResourceNameLength parts.

Definition generateK8sDNSLabelFromStrings (parts : list string) : option string :=
  GenerateK8sNameWithLengthLimit MaxLabelNameLength parts.

(** The cases of the repository's test of [GenerateK8sName]. *)
Example GenerateK8sName_tests :
  GenerateK8sName ["project"; "component"] = Some "project-component-932d1646" ∧
  GenerateK8sName ["My_Project$"; "Component@Name"] = Some "my-project-component-name-40314333" ∧
  GenerateK8sName ["-invalid-start"; "invalid-end-"] = Some "invalid-start-invalid-end-f124257d" ∧
  GenerateK8sName [""; ""] = Some "3973e022" ∧
  GenerateK8sName ["!!!"; "###"] = Some "606b424e" ∧
  GenerateK8sName ["ProjectName"; "ComponentName"] = Some "projectname-componentname-755d4ced" ∧
  GenerateK8sName ["project.name"; "component.name"] = Some "project.name-component.name-851db5b2".
Proof. vm_compute. repeat split. Qed.

Close Scope Z_scope.

(** * Kubernetes names: what the generated names are

    A generated name fits its limit, is a DNS subdomain name and ends in the
    hash; equal names have equal hashes; the hash separates lists of parts only
    when no part contains the separator. *)

Open Scope Z_scope.

(** ** Bytes of a string *)

Lemma all_bytes_app f s t : all_bytes f (s +:+ t) = all_bytes f s && all_bytes f t.
Proof. induction s as [|c s IH]; [done|]. rewrite sapp_cons. cbn [all_bytes]. by rewrite IH, andb_assoc. Qed.

Lemma all_bytes_impl (f g : ascii → bool) s :
  (∀ c, f c = true → g c = true) → all_bytes f s = true → all_bytes g s = true.
Proof.
  intros Hfg. induction s as [|c s IH]; [done|]. cbn [all_bytes]. rewrite !andb_true_iff.
  intros [Hc Hs]. auto.
Qed.

Lemma all_bytes_map f g s :
  (∀ c, f (g c) = true) → all_bytes f (map_bytes g s) = true.
Proof. intros Hg. induction s as [|c s IH]; [done|]. cbn [map_bytes all_bytes]. by rewrite Hg, IH. Qed.

Lemma all_bytes_stake f n s : all_bytes f s = true → all_bytes f (stake n s) = true.
Proof.
  revert s. induction n as [|n IH]; intros [|c s]; cbn [stake all_bytes]; [done..|].
  rewrite !andb_true_iff. intros [Hc Hs]. auto.
Qed.

Lemma all_bytes_Join f ws sep :
  all_bytes f sep = true → Forall (λ w, all_bytes f w = true) ws → all_bytes f (Join ws sep) = true.
Proof.
  intros Hsep Hws. induction Hws as [|w ws Hw Hws IH]; [done|]. destruct ws as [|w' ws]; [done|].
  change (Join (w :: w' :: ws) sep) with (w +:+ sep +:+ Join (w' :: ws) sep).
  by rewrite !all_bytes_app, Hw, Hsep, IH.
Qed.

(** ** Trimming *)

Lemma TrimLeftFunc_suffix f s : ∃ p, s = p +:+ TrimLeftFunc f s ∧ all_bytes f p = true.
Proof.
  induction s as [|c s (p & IH & Hp)]; [by exists ""|]. cbn [TrimLeftFunc]. destruct (f c) eqn:Hc.
  - exists (String c p). rewrite sapp_cons, <- IH. cbn [all_bytes]. by rewrite Hc.
  - by exists "".
Qed.

Lemma TrimRightFunc_prefix f s : ∃ p, s = TrimRightFunc f s +:+ p ∧ all_bytes f p = true.
Proof.
  induction s as [|c s (p & IH & Hp)]; [by exists ""|]. cbn [TrimRightFunc].
  destruct (TrimRightFunc f s) as [|d t] eqn:Ht.
  - rewrite sapp_nil_l in IH. subst p. destruct (f c) eqn:Hc.
    + exists (String c s). rewrite sapp_nil_l. cbn [all_bytes]. by rewrite Hc.
    + exists s. by rewrite sapp_cons.
  - exists p. by rewrite sapp_cons, <- IH.
Qed.

Lemma TrimLeftFunc_app f s c t : f c = false → TrimLeftFunc f (s +:+ String c t) = TrimLeftFunc f s +:+ String c t.
Proof.
  intros Hc. induction s as [|d s IH].
  - rewrite !sapp_nil_l. cbn [TrimLeftFunc]. rewrite Hc. done.
  - rewrite sapp_cons. cbn [TrimLeftFunc]. destruct (f d); [done|by rewrite sapp_cons].
Qed.

Lemma TrimRightFunc_app f s c : f c = false → TrimRightFunc f (s +:+ String c "") = s +:+ String c "".
Proof.
  intros Hc. induction s as [|d s IH].
  - rewrite sapp_nil_l. cbn [TrimRightFunc]. by rewrite Hc.
  - rewrite sapp_cons. cbn [TrimRightFunc]. rewrite IH. by destruct s.
Qed.

Lemma snoc_string s : s ≠ "" → ∃ t c, s = t +:+ String c "".
Proof.
  induction s as [|d s IH]; [done|]. intros _. destruct s as [|e s].
  - by exists "", d.
  - destruct IH as (t & c & ->); [done|]. exists (String d t), c. by rewrite sapp_cons.
Qed.

(** Trimming what begins and ends with a byte that stays is the identity. *)
Lemma TrimRightFunc_tail f s t :
  t ≠ "" → all_bytes (λ c, negb (f c)) t = true → TrimRightFunc f (s +:+ t) = s +:+ t.
Proof.
  intros (t' & c & ->)%snoc_string Ht. rewrite all_bytes_app in Ht. cbn [all_bytes] in Ht.
  apply andb_true_iff in Ht as [_ Hc]. rewrite andb_true_r in Hc.
  rewrite <- sapp_assoc. apply TrimRightFunc_app. by destruct (f c).
Qed.

Lemma all_bytes_TrimLeftFunc f g s : all_bytes g s = true → all_bytes g (TrimLeftFunc f s) = true.
Proof.
  destruct (TrimLeftFunc_suffix f s) as (p & Heq & _). rewrite Heq at 1. rewrite all_bytes_app.
  by intros [_ H]%andb_true_iff.
Qed.

Lemma all_bytes_TrimRightFunc f g s : all_bytes g s = true → all_bytes g (TrimRightFunc f s) = true.
Proof.
  destruct (TrimRightFunc_prefix f s) as (p & Heq & _). rewrite Heq at 1. rewrite all_bytes_app.
  by intros [H _]%andb_true_iff.
Qed.

Lemma TrimLeftFunc_length f s : (String.length (TrimLeftFunc f s) ≤ String.length s)%nat.
Proof.
  destruct (TrimLeftFunc_suffix f s) as (p & Heq & _). rewrite Heq at 2. rewrite sapp_length. lia.
Qed.

Lemma TrimLeftFunc_head f s c t : TrimLeftFunc f s = String c t → f c = false.
Proof.
  induction s as [|d s IH]; [done|]. cbn [TrimLeftFunc]. destruct (f d) eqn:Hd; [done|]. congruence.
Qed.

(** ** The bytes of a DNS name *)

Definition alnum (c : ascii) : bool := is_lower c || IsNumber c.
Definition dns_label_byte (c : ascii) : bool := alnum c || bool_decide (c = "-"%char).
Definition dns_byte (c : ascii) : bool := dns_label_byte c || bool_decide (c = "."%char).

(** A DNS subdomain name as Kubernetes takes one, its length apart: lower-case
    letters, digits, hyphens and dots, a letter or a digit at both ends. *)
Definition dns_name (byte : ascii → bool) (s : string) : Prop :=
  all_bytes byte s = true ∧
  (∃ c t, s = String c t ∧ alnum c = true) ∧ (∃ t c, s = t +:+ String c "" ∧ alnum c = true).

Ltac byte_cases c := destruct c as [[] [] [] [] [] [] [] []]; vm_compute; try done.

Lemma sanitize_byte c :
  let r := lower_byte c in
  dns_byte (if IsLetter r || IsNumber r || bool_decide (r = "-"%char) || bool_decide (r = "."%char) then r else "-"%char) = true.
Proof. byte_cases c. Qed.

Lemma map_bytes_ToLower f s : map_bytes f (ToLower s) = map_bytes (λ c, f (lower_byte c)) s.
Proof. induction s as [|c s IH]; [done|]. cbn [ToLower map_bytes]. by rewrite IH. Qed.

Lemma sanitizeName_dns name : all_bytes dns_byte (sanitizeName name) = true.
Proof.
  unfold sanitizeName, Trim. apply all_bytes_TrimRightFunc, all_bytes_TrimLeftFunc.
  rewrite map_bytes_ToLower. apply all_bytes_map. intros c. apply sanitize_byte.
Qed.

Lemma hex_alnum c : is_hex c = true → alnum c = true.
Proof. byte_cases c. Qed.

Lemma invalid_alnum c : dns_byte c = true → negb (IsLetter c) && negb (IsNumber c) = negb (alnum c).
Proof. byte_cases c. Qed.

(** ** The hash *)

Lemma hex_prefix s : slice_to (EncodeToString (Sum256 s)) hashLength = Some (stake 8 (EncodeToString (Sum256 s))).
Proof. unfold slice_to. by rewrite EncodeToString_length, Sum256_length. Qed.

Lemma hashString_names names :
  hashString "" names = Some (stake 8 (EncodeToString (Sum256 (Join names separator)))).
Proof. unfold hashString. rewrite bool_decide_eq_true_2 by done. apply hex_prefix. Qed.

Lemma hashString_spec extra names :
  ∃ h, hashString extra names = Some h ∧ String.length h = 8%nat ∧ all_bytes is_hex h = true.
Proof.
  unfold hashString. cbn zeta. rewrite hex_prefix. eexists; split; [done|]. split.
  - apply stake_length. rewrite EncodeToString_length, Sum256_length. lia.
  - apply (all_bytes_stake _ 8), EncodeToString_hex.
Qed.

(** ** Truncation *)

Definition total_length (ws : list string) : Z := foldr (λ w n, Z.of_nat (String.length w) + n) 0 ws.

Lemma Join_length ws :
  ws ≠ [] → Z.of_nat (String.length (Join ws separator)) = total_length ws + Z.of_nat (length ws) - 1.
Proof.
  induction ws as [|w ws IH]; [done|]. intros _. destruct ws as [|w' ws]; [cbn; lia|].
  change (Join (w :: w' :: ws) separator) with (w +:+ separator +:+ Join (w' :: ws) separator).
  rewrite !sapp_length. specialize (IH ltac:(done)). cbn [total_length foldr length] in *.
  rewrite Nat2Z.inj_add, Nat2Z.inj_add, IH. change (Z.of_nat (String.length separator)) with 1. lia.
Qed.

Lemma slice_to_in s n : 0 ≤ n ≤ Z.of_nat (String.length s) → slice_to s n = Some (stake (Z.to_nat n) s).
Proof. intros Hn. unfold slice_to. by rewrite (proj2 (Z.leb_le _ _)), (proj2 (Z.leb_le _ _)) by lia. Qed.

(** The truncated parts keep their bytes and share the bytes available. *)
Lemma truncateNames_total p e i f names :
  0 ≤ p → Forall (λ w, all_bytes f w = true) names →
  ∃ ts, truncateNames p e i names = Some ts ∧ length ts = length names ∧
        Forall (λ w, all_bytes f w = true) ts ∧
        total_length ts ≤ p * Z.of_nat (length names) + Z.max 0 (Z.min (Z.of_nat (length names)) (e - i)).
Proof.
  intros Hp Hall. revert i. induction Hall as [|w ws Hw Hws IH]; intros i.
  - exists []. repeat split; [done|]. cbn. lia.
  - destruct (IH (i + 1)) as (ts & Hts & Hl & Hf & Ht). cbn [truncateNames].
    set (a := if i <? e then p + 1 else p).
    assert (0 ≤ a ∧ a = p + (if i <? e then 1 else 0)) as [Ha Ha'] by (subst a; destruct (i <? e); lia).
    assert (∃ t, (if a <? Z.of_nat (String.length w) then slice_to w a else Some w) = Some t ∧
                 all_bytes f t = true ∧ Z.of_nat (String.length t) ≤ a) as (t & -> & Htf & Htl).
    { destruct (a <? Z.of_nat (String.length w)) eqn:Hlt.
      - apply Z.ltb_lt in Hlt. rewrite slice_to_in by lia. eexists; split; [done|].
        split; [by apply all_bytes_stake|]. rewrite stake_length by lia. lia.
      - apply Z.ltb_ge in Hlt. eexists; repeat split; [done|lia]. }
    cbn. rewrite Hts. exists (t :: ts). split; [done|]. split; [by cbn; rewrite Hl|]. split; [by constructor|].
    cbn [total_length foldr length] in *. fold (total_length ts) in *. rewrite Nat2Z.inj_succ.
    destruct (i <? e) eqn:Hie; [apply Z.ltb_lt in Hie|apply Z.ltb_ge in Hie]; nia.
Qed.

Lemma truncateNames_id p e i names :
  Forall (λ w, Z.of_nat (String.length w) ≤ p) names → truncateNames p e i names = Some names.
Proof.
  intros Hall. revert i. induction Hall as [|w ws Hw Hws IH]; intros i; [done|]. cbn [truncateNames].
  rewrite (IH (i + 1)). by rewrite (proj2 (Z.ltb_ge _ _)) by (destruct (i <? e); lia).
Qed.

(** ** The shape of a generated name *)

Lemma ensure_form base h :
  all_bytes dns_byte base = true → h ≠ "" → all_bytes is_hex h = true →
  ensureDNSSubdomainCompliance (base +:+ h) =
  TrimLeftFunc (λ r, negb (IsLetter r) && negb (IsNumber r)) base +:+ h.
Proof.
  intros Hb Hne Hh. unfold ensureDNSSubdomainCompliance. destruct h as [|c t]; [done|].
  assert (∀ c, is_hex c = true → negb (negb (IsLetter c) && negb (IsNumber c)) = true) as Hhex
    by (intros d; byte_cases d).
  cbn [all_bytes] in Hh. apply andb_true_iff in Hh as [Hc Ht].
  rewrite TrimLeftFunc_app by (specialize (Hhex c Hc); by apply negb_true_iff in Hhex).
  apply (TrimRightFunc_tail _ _ (String c t)); [done|]. cbn [all_bytes]. rewrite Hhex by done.
  by apply (all_bytes_impl is_hex).
Qed.

(** A name of [n] parts needs [8 + n] bytes; with them there is one, made of the
    truncated parts and the hash. *)
Lemma generateK8sName_form (byte : ascii → bool) limit extra names :
  (∀ c, byte c = true → dns_byte c = true) → byte "-"%char = true →
  Forall (λ w, all_bytes byte w = true) (sanitizeName <$> names) →
  names ≠ [] → hashLength + Z.of_nat (length names) ≤ limit →
  ∃ base h, generateK8sName limit extra names = Some (base +:+ h) ∧
            hashString extra names = Some h ∧ String.length h = 8%nat ∧ all_bytes is_hex h = true ∧
            all_bytes byte base = true ∧
            (∀ c t, base = String c t → alnum c = true) ∧
            Z.of_nat (String.length base) ≤ limit - 8.
Proof.
  intros Hdns Hsep Hall Hne Hlim. unfold generateK8sName, hashLength in *.
  destruct (hashString_spec extra names) as (h & Hh & Hl & Hx). rewrite Hh. cbn [mbind option_bind].
  rewrite length_fmap. set (n := Z.of_nat (length names)) in *.
  assert (0 < n) as Hn by (destruct names; [done|cbn in n; lia]).
  rewrite (proj2 (Z.eqb_neq n 0)) by lia. cbn zeta.
  change (Z.of_nat (String.length separator)) with 1. set (mb := limit - 8 - (1 * (n - 1) + 1)).
  destruct (truncateNames_total (Z.quot mb n) (Z.rem mb n) 0 byte (sanitizeName <$> names))
    as (ts & -> & Htl & Htb & Htt); [apply Z.quot_pos; lia|done|].
  cbn [mbind option_bind].
  assert (all_bytes byte (Join ts separator +:+ separator) = true) as Hb.
  { rewrite all_bytes_app. assert (all_bytes byte separator = true) as Hs by (cbn; by rewrite Hsep).
    by rewrite (all_bytes_Join _ ts separator), Hs. }
  assert (h ≠ "") as Hh0 by (intros ->; done).
  exists (TrimLeftFunc (λ r, negb (IsLetter r) && negb (IsNumber r)) (Join ts separator +:+ separator)), h.
  rewrite <- sapp_assoc, (ensure_form _ h (all_bytes_impl _ _ _ Hdns Hb) Hh0 Hx). do 4 (split; [done|]). split; [|split].
  - by apply all_bytes_TrimLeftFunc.
  - intros c t Hct. pose proof (TrimLeftFunc_head _ _ _ _ Hct) as Hc.
    assert (dns_byte c = true) as Hd.
    { apply Hdns. apply (all_bytes_TrimLeftFunc (λ r, negb (IsLetter r) && negb (IsNumber r))) in Hb.
      rewrite Hct in Hb. by apply andb_true_iff in Hb as [? _]. }
    cbv beta in Hc. rewrite (invalid_alnum c Hd) in Hc. by apply negb_false_iff in Hc.
  - pose proof (TrimLeftFunc_length (λ r, negb (IsLetter r) && negb (IsNumber r))
      (Join ts separator +:+ separator)) as Hle.
    rewrite sapp_length in Hle. change (String.length separator) with 1%nat in Hle.
    rewrite length_fmap in Htl, Htt. fold n in Htt.
    pose proof (Join_length ts ltac:(intros ->; destruct names; done)) as HJ.
    rewrite Htl in HJ. fold n in HJ.
    pose proof (Z.quot_rem' mb n). pose proof (Z.rem_bound_pos mb n). nia.
Qed.

(** Every sanitized part is made of the bytes of a DNS subdomain name. *)
Lemma sanitized_dns names : Forall (λ w, all_bytes dns_byte w = true) (sanitizeName <$> names).
Proof. apply Forall_fmap, Forall_true. intros w. apply sanitizeName_dns. Qed.

(** A part without a dot is made of those of a DNS label. *)
Lemma sanitized_label names :
  Forall (λ w, has_byte "." w = false) names →
  Forall (λ w, all_bytes dns_label_byte w = true) (sanitizeName <$> names).
Proof.
  intros H. apply Forall_fmap. eapply Forall_impl; [done|]. intros w Hw. cbn.
  unfold sanitizeName, Trim. apply all_bytes_TrimRightFunc, all_bytes_TrimLeftFunc.
  rewrite map_bytes_ToLower. induction w as [|c w IH]; [done|].
  cbn [has_byte] in Hw. apply orb_false_iff in Hw as [Hc Hw]. cbn [map_bytes all_bytes].
  rewrite (IH Hw), andb_true_r. clear -Hc. revert Hc. byte_cases c.
Qed.

Lemma generateK8sName_dns limit extra names :
  names ≠ [] → hashLength + Z.of_nat (length names) ≤ limit →
  ∃ base h, generateK8sName limit extra names = Some (base +:+ h) ∧
            hashString extra names = Some h ∧ String.length h = 8%nat ∧ all_bytes is_hex h = true ∧
            all_bytes dns_byte base = true ∧
            (∀ c t, base = String c t → alnum c = true) ∧
            Z.of_nat (String.length base) ≤ limit - 8.
Proof. apply (generateK8sName_form dns_byte); [done|done|apply sanitized_dns]. Qed.

Lemma alnum_dns c : alnum c = true → dns_byte c = true.
Proof. byte_cases c. Qed.

Lemma dns_name_app (byte : ascii → bool) base h :
  (∀ c, alnum c = true → byte c = true) →
  all_bytes byte base = true → (∀ c t, base = String c t → alnum c = true) →
  h ≠ "" → all_bytes is_hex h = true → dns_name byte (base +:+ h).
Proof.
  intros Hbyte Hb Hhd Hne Hx. split; [|split].
  - rewrite all_bytes_app, Hb. cbn. apply (all_bytes_impl is_hex); [|done]. auto using hex_alnum.
  - destruct base as [|c t]; [|exists c, (t +:+ h); split; [by rewrite sapp_cons|by eapply Hhd]].
    destruct h as [|c t]; [done|]. exists c, t. rewrite sapp_nil_l. split; [done|].
    apply andb_true_iff in Hx as [Hc _]. by apply hex_alnum.
  - apply snoc_string in Hne as (t & c & ->). exists (base +:+ t), c. rewrite sapp_assoc. split; [done|].
    rewrite all_bytes_app in Hx. apply andb_true_iff in Hx as [_ Hc]. cbn [all_bytes] in Hc.
    rewrite andb_true_r in Hc. by apply hex_alnum.
Qed.

(** ** The hash tells lists of parts apart *)

(** Equal names have equal hashes, whatever the limits. *)
Lemma equal_names_equal_hashes l1 l2 e1 e2 ns1 ns2 nm :
  ns1 ≠ [] → ns2 ≠ [] → hashLength + Z.of_nat (length ns1) ≤ l1 → hashLength + Z.of_nat (length ns2) ≤ l2 →
  generateK8sName l1 e1 ns1 = Some nm → generateK8sName l2 e2 ns2 = Some nm →
  hashString e1 ns1 = hashString e2 ns2.
Proof.
  intros Hn1 Hn2 Hl1 Hl2 Hg1 Hg2.
  destruct (generateK8sName_dns l1 e1 ns1) as (b1 & h1 & Hf1 & Hh1 & Hlen1 & _); [done..|].
  destruct (generateK8sName_dns l2 e2 ns2) as (b2 & h2 & Hf2 & Hh2 & Hlen2 & _); [done..|].
  rewrite Hf1 in Hg1. rewrite Hf2 in Hg2. injection Hg1 as Hg1. injection Hg2 as Hg2.
  rewrite <- Hg2 in Hg1. apply sapp_inj_2 in Hg1 as [_ Hh]; [|congruence]. congruence.
Qed.

Lemma Join_separator_inj ns1 ns2 :
  ns1 ≠ [] → ns2 ≠ [] →
  Forall (λ w, has_byte "-" w = false) ns1 → Forall (λ w, has_byte "-" w = false) ns2 →
  Join ns1 separator = Join ns2 separator → ns1 = ns2.
Proof.
  intros Hn1 Hn2 H1 H2 Heq. rewrite <- (Split_Join "-" ns1), <- (Split_Join "-" ns2) by done.
  by change (String "-" "") with separator; rewrite Heq.
Qed.

(** ** Clean parts are not changed *)

(** A part that is already a DNS label: a Kubernetes name without dots. *)
Definition clean (s : string) : Prop := dns_name dns_label_byte s.

Lemma clean_sanitize s : clean s → sanitizeName s = s.
Proof.
  intros (Hb & (c & t & Hct & Hc) & (t' & c' & Ht' & Hc')). unfold sanitizeName, Trim.
  rewrite map_bytes_ToLower.
  assert (∀ u, all_bytes dns_label_byte u = true →
    map_bytes (λ c, if IsLetter (lower_byte c) || IsNumber (lower_byte c) || bool_decide (lower_byte c = "-"%char) ||
                       bool_decide (lower_byte c = "."%char) then lower_byte c else "-"%char) u = u) as Hid.
  { induction u as [|d u IH]; [done|]. cbn [all_bytes map_bytes]. intros [Hd Hu]%andb_true_iff.
    rewrite (IH Hu). f_equal. clear -Hd. revert Hd. byte_cases d. }
  rewrite (Hid s Hb).
  assert (∀ d, alnum d = true → has_byte d "-." = false) as Hcut by (intros d; byte_cases d).
  assert (TrimLeftFunc (λ c, has_byte c "-.") s = s) as ->
    by (rewrite Hct; cbn [TrimLeftFunc]; by rewrite (Hcut c Hc)).
  rewrite Ht'. apply TrimRightFunc_app. auto.
Qed.

Lemma clean_sep a b : clean a → clean b → clean (a +:+ separator +:+ b).
Proof.
  intros (Ha & (c & t & Hct & Hc) & _) (Hb & _ & (t' & c' & Ht' & Hc')). split; [|split].
  - by rewrite !all_bytes_app, Ha, Hb.
  - exists c, (t +:+ separator +:+ b). by rewrite Hct, sapp_cons.
  - exists (a +:+ separator +:+ t'), c'. by rewrite Ht', !sapp_assoc.
Qed.

Lemma clean_names_id ns : Forall clean ns → sanitizeName <$> ns = ns.
Proof. intros H. induction H as [|s ns Hs H IH]; [done|]. rewrite fmap_cons. by rewrite IH, (clean_sanitize s). Qed.

(** Parts of a name that are short enough are not truncated. *)
Lemma generateK8sName_clean limit extra ns h :
  ns ≠ [] → Forall clean ns → hashString extra ns = Some h →
  Forall (λ w, Z.of_nat (String.length w) ≤ Z.quot (limit - hashLength - Z.of_nat (length ns)) (Z.of_nat (length ns))) ns →
  generateK8sName limit extra ns =
  Some (ensureDNSSubdomainCompliance (Join ns separator +:+ separator +:+ h)).
Proof.
  intros Hne Hc Hh Hlen. unfold generateK8sName. rewrite Hh. cbn [mbind option_bind].
  rewrite clean_names_id by done. change (Z.of_nat (String.length separator)) with 1.
  replace (1 * (Z.of_nat (length ns) - 1) + 1) with (Z.of_nat (length ns)) by lia.
  rewrite (proj2 (Z.eqb_neq _ 0)) by (destruct ns; [done|cbn; lia]).
  cbn zeta. by rewrite truncateNames_id.
Qed.

Lemma Forall_two {A} (P : A → Prop) pre x y post :
  Forall P pre → P x → P y → Forall P post → Forall P (pre ++ [x; y] ++ post).
Proof. intros. apply Forall_app. split; [done|]. by apply Forall_cons_2, Forall_cons_2. Qed.

(** Moving a separator from one part into the next changes nothing: the hash and
    the base name see the joined parts only. *)
Lemma separator_shift limit pre a b c post :
  pre ≠ [] → post ≠ [] → Forall clean (pre ++ [a; b; c] ++ post) →
  let n := Z.of_nat (2 + length pre + length post) in
  Forall (λ w, Z.of_nat (String.length w) ≤ Z.quot (limit - hashLength - n) n)
    (pre ++ [a +:+ separator +:+ b; b +:+ separator +:+ c] ++ post) →
  GenerateK8sNameWithLengthLimit limit (pre ++ [a; b +:+ separator +:+ c] ++ post) =
  GenerateK8sNameWithLengthLimit limit (pre ++ [a +:+ separator +:+ b; c] ++ post).
Proof.
  intros Hpre Hpost Hclean n Hlen. unfold GenerateK8sNameWithLengthLimit.
  apply Forall_app in Hclean as [Hcp [Hc Hcq]%Forall_app].
  apply Forall_app in Hlen as [Hlp [Hl Hlq]%Forall_app].
  apply Forall_cons in Hc as [Ha [Hb [Hcc _]%Forall_cons]%Forall_cons].
  apply Forall_cons in Hl as [Hab [Hbc _]%Forall_cons].
  rewrite !sapp_length in Hab, Hbc. change (String.length separator) with 1%nat in Hab, Hbc.
  assert (Join (pre ++ [a; b +:+ separator +:+ c] ++ post) separator =
          Join (pre ++ [a +:+ separator +:+ b; c] ++ post) separator) as HJ.
  { rewrite !(Join_app pre), !(Join_app [_; _] post) by done. cbn [Join]. by rewrite !sapp_assoc. }
  destruct (hashString_spec "" (pre ++ [a; b +:+ separator +:+ c] ++ post)) as (h & Hh & _).
  assert (hashString "" (pre ++ [a +:+ separator +:+ b; c] ++ post) = Some h) as Hh'.
  { unfold hashString in *. by rewrite <- HJ. }
  assert (∀ x y, Z.of_nat (length (pre ++ [x; y] ++ post)) = n) as Hn.
  { intros x y. rewrite !length_app. unfold n. cbn [length]. lia. }
  rewrite (generateK8sName_clean limit "" _ h); [|by destruct pre| |done|].
  rewrite (generateK8sName_clean limit "" (pre ++ [a +:+ separator +:+ b; c] ++ post) h); [|by destruct pre| |done|].
  - by rewrite HJ.
  - apply Forall_two; auto using clean_sep.
  - rewrite Hn. apply Forall_two; [done|..|done]; rewrite ?sapp_length; change (String.length separator) with 1%nat; lia.
  - apply Forall_two; auto using clean_sep.
  - rewrite Hn. apply Forall_two; [done|..|done]; rewrite ?sapp_length; change (String.length separator) with 1%nat; lia.
Qed.

(** ** Properties *)


(** The hash tells the generated names apart when no part contains the
    separator: two lists of such parts have the same name, under any two limits,
    only if they are the same list or if the first 32 bits of the SHA-256 digests
    of two different joined lists agree. *)
Theorem separator_free_names_distinct l1 l2 ns1 ns2 nm :
  ns1 ≠ [] → ns2 ≠ [] → hashLength + Z.of_nat (length ns1) ≤ l1 → hashLength + Z.of_nat (length ns2) ≤ l2 →
  Forall (λ w, has_byte "-" w = false) ns1 → Forall (λ w, has_byte "-" w = false) ns2 →
  GenerateK8sNameWithLengthLimit l1 ns1 = Some nm → GenerateK8sNameWithLengthLimit l2 ns2 = Some nm →
  ns1 = ns2 ∨
  (Join ns1 separator ≠ Join ns2 separator ∧
   stake 8 (EncodeToString (Sum256 (Join ns1 separator))) = stake 8 (EncodeToString (Sum256 (Join ns2 separator)))).
Proof.
  intros Hn1 Hn2 Hl1 Hl2 Hs1 Hs2 Hg1 Hg2.
  pose proof (equal_names_equal_hashes l1 l2 "" "" ns1 ns2 nm Hn1 Hn2 Hl1 Hl2 Hg1 Hg2) as Hh.
  destruct (decide (Join ns1 separator = Join ns2 separator)) as [HJ|HJ].
  - left. by apply Join_separator_inj.
  - right. split; [done|]. rewrite !hashString_names in Hh. by apply (inj Some) in Hh.
Qed.


Close Scope Z_scope.
