(* ===== verification/NetworkPolicy.v ===== *)
(** * Workloads

    The types of [api/v1alpha1/workload_types.go] that the network policies, the
    rendering contexts and the release binding controller share.  The Go types
    [EndpointType] and [EndpointVisibility] are strings, and stay strings: an
    unknown value takes the default branches of the code. *)

From S2P Require Import Prelude GoStrings GoValue K8sNames.

Definition EndpointTypeHTTP : string := "HTTP".
Definition EndpointTypeGraphQL : string := "GraphQL".
Definition EndpointTypeWebsocket : string := "Websocket".
Definition EndpointTypeGRPC : string := "gRPC".
Definition EndpointTypeTCP : string := "TCP".
Definition EndpointTypeUDP : string := "UDP".

Definition EndpointVisibilityProject : string := "project".
Definition EndpointVisibilityNamespace : string := "namespace".
Definition EndpointVisibilityInternal : string := "internal".
Definition EndpointVisibilityExternal : string := "external".

(** Ports are [int32]; the API server admits 1 to 65535, and 0 for a target port
    that is not set. *)
Record WorkloadEndpoint := mkEndpoint {
  epVisibility : list string;
  epType : string;
  epPort : Z;
  epTargetPort : Z;
  epDisplayName : string;
  epBasePath : string
}.

Record ConnectionEnvBindings := mkEnvBindings { ebAddress : string; ebHost : string; ebPort : string; ebBasePath : string }.

Record WorkloadConnection := mkConnection {
  connProject : string;
  connComponent : string;
  connName : string;
  connVisibility : string;
  connEnvBindings : ConnectionEnvBindings
}.

Record WorkloadResourceDependency := mkResourceDependency {
  rdRef : string;
  rdEnvBindings : gmap string string;
  rdFileBindings : gmap string string
}.

(** [SecretKeyRef], [EnvVar] and [FileVar]; [ValueFrom] holds a secret key
    reference or nothing. *)
Record SecretKeyRef := mkSecretKeyRef { sekName : string; sekKey : string }.
Record EnvVar := mkEnvVar { evKey : string; evValue : string; evSecret : option SecretKeyRef }.
Record FileVar := mkFileVar { fvKey : string; fvMountPath : string; fvValue : string; fvSecret : option SecretKeyRef }.

Record Container := mkContainer {
  ctImage : string;
  ctCommand : list string;
  ctArgs : list string;
  ctEnv : list EnvVar;
  ctFiles : list FileVar
}.

Record WorkloadDependencies := mkDependencies {
  depEndpoints : list WorkloadConnection;
  depResources : list WorkloadResourceDependency
}.

Record WorkloadTemplateSpec := mkWorkloadSpec {
  wlContainer : Container;
  wlEndpoints : gmap string WorkloadEndpoint;
  wlDependencies : option WorkloadDependencies
}.

Definition GetDependencyEndpoints (w : WorkloadTemplateSpec) : list WorkloadConnection :=
  match wlDependencies w with None => [] | Some d => depEndpoints d end.

Definition GetDependencyResources (w : WorkloadTemplateSpec) : list WorkloadResourceDependency :=
  match wlDependencies w with None => [] | Some d => depResources d end.

(** ** [sort.Slice] by a string key

    The order of elements with equal keys is unspecified. *)
Class SortSlice := sort_Slice : ∀ {A}, (A → string) → list A → list A.
Class SortSliceLaws `{SortSlice} := {
  sort_Slice_perm : ∀ {A} (key : A → string) l, sort_Slice key l ≡ₚ l;
  sort_Slice_sorted : ∀ {A} (key : A → string) l, StronglySorted String.le (key <$> sort_Slice key l)
}.

(** * Network policies

    [internal/networkpolicy/networkpolicy.go]: the policy of a component, as a
    Kubernetes [NetworkPolicy] or a [CiliumNetworkPolicy], from the endpoints its
    workload declares.  Policies are the dynamic documents the code builds.  The
    order in which the map of endpoints is ranged over and the order
    [sort.Slice] leaves equal keys in are parameters. *)

Definition ProviderKubernetes : string := "kubernetes".
Definition ProviderCilium : string := "cilium".
Definition KubernetesNamespaceKey : string := "k8s:io.kubernetes.pod.namespace".

Definition polNamespaceKey : string := "openchoreo.dev/namespace".
Definition polEnvironmentKey : string := "openchoreo.dev/environment".
Definition LabelKeySystemComponent : string := "openchoreo.dev/system-component".

Record ComponentPolicyParams := mkPolicyParams {
  polNamespace : string;
  polCPNamespace : string;
  polEnvironment : string;
  polComponentName : string;
  polPodSelectors : gmap string string;
  polEndpoints : gmap string WorkloadEndpoint;
  polProvider : string
}.

Definition toAnyMap (m : gmap string string) : gmap string any := VString <$> m.

Definition protocolOf (t : string) : string := if bool_decide (t = EndpointTypeUDP) then "UDP" else "TCP".

(** ** Kubernetes *)

Record epEntry := mkEpEntry { eeName : string; eePort : any; eeVisibility : list string }.

Definition epEntryOf (kv : string * WorkloadEndpoint) : epEntry :=
  mkEpEntry kv.1
    (VMap {["protocol" := VString (protocolOf (epType kv.2)); "port" := VScalar "int64" (Itoa (epPort kv.2))]})
    (epVisibility kv.2).

(** The loop over the visibilities appends a port once per level it finds. *)
Definition isNamespaceVis (vis : string) : bool := bool_decide (vis = EndpointVisibilityNamespace).
Definition isBroadVis (vis : string) : bool :=
  bool_decide (vis = EndpointVisibilityInternal) || bool_decide (vis = EndpointVisibilityExternal).

Definition grouped {A B} (port : A → B) (vis : A → list string) (level : string → bool) (es : list A) : list B :=
  e ← es; _ ← List.filter level (vis e); [port e].

Section Policies.
Context {MR : MapRange} {SS : SortSlice}.

Definition sortedEntries (params : ComponentPolicyParams) : list epEntry :=
  sort_Slice eeName (epEntryOf <$> map_range (polEndpoints params)).

Definition ingressRule (peer ports : list any) : any := VMap {["from" := VSlice peer; "ports" := VSlice ports]}.

Definition projectPeer : any := VMap {["podSelector" := VMap ∅]}.

Definition namespaceLabels (params : ComponentPolicyParams) : any :=
  VMap {[polNamespaceKey := VString (polCPNamespace params); polEnvironmentKey := VString (polEnvironment params)]}.

Definition namespacePeer (params : ComponentPolicyParams) : any :=
  VMap {["namespaceSelector" := VMap {["matchLabels" := namespaceLabels params]}]}.

Definition existsExpr (key : string) : any := VMap {["key" := VString key; "operator" := VString "Exists"]}.

Definition systemPeer : any :=
  VMap {["namespaceSelector" := VMap ∅;
         "podSelector" := VMap {["matchExpressions" := VSlice [existsExpr LabelKeySystemComponent]]}]}.

Definition makeIngressRules (params : ComponentPolicyParams) : list any :=
  if bool_decide (size (polEndpoints params) = 0) then []
  else
    let entries := sortedEntries params in
    let projectPorts := eePort <$> entries in
    let namespacePorts := grouped eePort eeVisibility isNamespaceVis entries in
    let broadAccessPorts := grouped eePort eeVisibility isBroadVis entries in
    (if bool_decide (length projectPorts = 0) then [] else [ingressRule [projectPeer] projectPorts]) ++
    (if bool_decide (length namespacePorts = 0) then [] else [ingressRule [namespacePeer params] namespacePorts]) ++
    (if bool_decide (length broadAccessPorts = 0) then [] else [ingressRule [systemPeer] broadAccessPorts]).

Definition policyNameOf (params : ComponentPolicyParams) : option string :=
  let policyName := "openchoreo-" +:+ polComponentName params in
  if bool_decide (MaxResourceNameLength < Z.of_nat (String.length policyName))%Z
  then GenerateK8sNameWithLengthLimit MaxResourceNameLength ["openchoreo"; polComponentName params]
  else Some policyName.

Definition policyObject (apiVersion kind name namespace : string) (spec : gmap string any) : gmap string any :=
  {["apiVersion" := VString apiVersion; "kind" := VString kind;
    "metadata" := VMap {["name" := VString name; "namespace" := VString namespace]}; "spec" := VMap spec]}.

(** ** Cilium *)

Record ciliumPortEntry := mkCiliumPort { cpPort : string; cpProto : string; cpIsL7 : bool; cpVisibility : list string }.

Definition isL7Proxied (t : string) : bool :=
  bool_decide (t = EndpointTypeHTTP) || bool_decide (t = EndpointTypeGraphQL) ||
  bool_decide (t = EndpointTypeWebsocket) || bool_decide (t = EndpointTypeGRPC).

Definition ciliumEntryOf (ep : WorkloadEndpoint) : ciliumPortEntry :=
  mkCiliumPort (Itoa (epPort ep)) (protocolOf (epType ep)) (isL7Proxied (epType ep)) (epVisibility ep).

Definition ciliumPortObj (e : ciliumPortEntry) : any :=
  VMap {["port" := VString (cpPort e); "protocol" := VString (cpProto e)]}.

Definition ciliumToPorts (entries : list ciliumPortEntry) : list any :=
  let l7Ports := ciliumPortObj <$> List.filter cpIsL7 entries in
  let l4Ports := ciliumPortObj <$> List.filter (λ e, negb (cpIsL7 e)) entries in
  (if bool_decide (length l7Ports = 0) then []
   else [VMap {["ports" := VSlice l7Ports; "rules" := VMap {["http" := VSlice [VMap ∅]]}]}]) ++
  (if bool_decide (length l4Ports = 0) then [] else [VMap {["ports" := VSlice l4Ports]}]).

Definition ciliumSorted (params : ComponentPolicyParams) : list ciliumPortEntry :=
  sort_Slice cpPort ((λ kv, ciliumEntryOf kv.2) <$> map_range (polEndpoints params)).

Definition ciliumRule (peer : any) (entries : list ciliumPortEntry) : list any :=
  if bool_decide (length entries = 0) then []
  else [VMap {["fromEndpoints" := VSlice [peer]; "toPorts" := VSlice (ciliumToPorts entries)]}].

Definition ciliumNamespacePeer (params : ComponentPolicyParams) : any :=
  VMap {["matchLabels" := namespaceLabels params; "matchExpressions" := VSlice [existsExpr KubernetesNamespaceKey]]}.

Definition ciliumSystemPeer : any :=
  VMap {["matchExpressions" := VSlice [existsExpr LabelKeySystemComponent; existsExpr KubernetesNamespaceKey]]}.

Definition ciliumIngressRules (params : ComponentPolicyParams) : list any :=
  let entries := ciliumSorted params in
  ciliumRule (VMap ∅) entries ++
  ciliumRule (ciliumNamespacePeer params) (grouped id cpVisibility isNamespaceVis entries) ++
  ciliumRule ciliumSystemPeer (grouped id cpVisibility isBroadVis entries).

Definition makeCiliumComponentPolicies (params : ComponentPolicyParams) : option (list (gmap string any)) :=
  policyName ← policyNameOf params;
  let spec : gmap string any :=
    {["endpointSelector" := VMap {["matchLabels" := VMap (toAnyMap (polPodSelectors params))]};
      "ingress" := VSlice (ciliumIngressRules params)]} in
  Some [policyObject "cilium.io/v2" "CiliumNetworkPolicy" policyName (polNamespace params) spec].

(** ** The policy of a component *)

Definition MakeComponentPolicies (params : ComponentPolicyParams) : option (list (gmap string any)) :=
  if bool_decide (polProvider params = ProviderCilium) then makeCiliumComponentPolicies params
  else
    let ingressRules := makeIngressRules params in
    policyName ← policyNameOf params;
    let spec : gmap string any :=
      {["podSelector" := VMap {["matchLabels" := VMap (toAnyMap (polPodSelectors params))]};
        "policyTypes" := VSlice [VString "Ingress"]]} in
    let spec := if bool_decide (length ingressRules = 0) then spec
                else <["ingress" := VSlice ingressRules]> spec in
    Some [policyObject "networking.k8s.io/v1" "NetworkPolicy" policyName (polNamespace params) spec].

End Policies.

(** * Network policies: the traffic they admit

    What the two kinds of policy admit, read off the documents by the rules of
    the NetworkPolicy and CiliumNetworkPolicy APIs: a policy selects pods of its
    namespace by labels, and admits a connection to a selected pod when one of
    its ingress rules has a peer the source matches and a port it goes to.  The
    theorems compare this with the access the endpoints declare. *)

(** ** Reading a document *)

Definition field (v : any) (k : string) : option any := match v with VMap m => m !! k | _ => None end.
Definition items (v : option any) : list any := match v with Some (VSlice l) => l | _ => [] end.
Definition text (v : option any) : string :=
  match v with Some (VString s) => s | Some (VScalar _ x) => x | _ => "" end.

(** A label selector: every [matchLabels] entry is a label, and the keys of the
    [Exists] expressions are there. *)
Definition labelMatches (labels : gmap string string) (kv : string * any) : bool :=
  match kv.2, labels !! kv.1 with
  | VString s, Some s' => bool_decide (s = s')
  | _, _ => false
  end.

Definition selects (sel : any) (labels : gmap string string) : bool :=
  (match field sel "matchLabels" with Some (VMap m) => forallb (labelMatches labels) (map_to_list m) | _ => true end) &&
  forallb (λ e, bool_decide (text (field e "operator") = "Exists") &&
                bool_decide (is_Some (labels !! text (field e "key"))))
    (items (field sel "matchExpressions")).

(** A connection: the namespace, namespace labels and labels of the source pod,
    the namespace and labels of the destination pod, the port of the pod and the
    protocol. *)
Record connection := mkTraffic {
  srcNamespace : string;
  srcNamespaceLabels : gmap string string;
  srcLabels : gmap string string;
  dstNamespace : string;
  dstLabels : gmap string string;
  dstPort : Z;
  dstProtocol : string
}.

Definition portMatches (t : connection) (p : any) : bool :=
  bool_decide (text (field p "port") = Itoa (dstPort t)) && bool_decide (text (field p "protocol") = dstProtocol t).

(** A peer of a NetworkPolicy in namespace [ns]: pods of the policy's namespace,
    unless there is a namespace selector. *)
Definition k8sPeer (ns : string) (t : connection) (peer : any) : bool :=
  (match field peer "namespaceSelector" with
   | Some sel => selects sel (srcNamespaceLabels t)
   | None => bool_decide (srcNamespace t = ns)
   end) &&
  (match field peer "podSelector" with Some sel => selects sel (srcLabels t) | None => true end).

Definition k8sRule (ns : string) (t : connection) (rule : any) : bool :=
  existsb (k8sPeer ns t) (items (field rule "from")) && existsb (portMatches t) (items (field rule "ports")).

Definition policyNamespace (policy : gmap string any) : string :=
  text (policy !! "metadata" ≫= λ m, field m "namespace").

Definition specField (policy : gmap string any) (k : string) : option any := policy !! "spec" ≫= λ s, field s k.

Definition k8sSelected (policy : gmap string any) (t : connection) : bool :=
  bool_decide (dstNamespace t = policyNamespace policy) &&
  (match specField policy "podSelector" with Some sel => selects sel (dstLabels t) | None => false end).

Definition k8sAdmits (policy : gmap string any) (t : connection) : bool :=
  existsb (k8sRule (policyNamespace policy) t) (items (specField policy "ingress")).

(** A pod as Cilium sees it: its labels and the namespace as one more.  An
    endpoint selector that does not name the namespace is of the policy's. *)
Definition ciliumLabels (t : connection) : gmap string string := <[KubernetesNamespaceKey := srcNamespace t]> (srcLabels t).

Definition namesNamespace (sel : any) : bool :=
  existsb (λ e, bool_decide (text (field e "key") = KubernetesNamespaceKey)) (items (field sel "matchExpressions")).

Definition ciliumPeer (ns : string) (t : connection) (sel : any) : bool :=
  (namesNamespace sel || bool_decide (srcNamespace t = ns)) && selects sel (ciliumLabels t).

Definition ciliumRuleAdmits (ns : string) (t : connection) (rule : any) : bool :=
  existsb (ciliumPeer ns t) (items (field rule "fromEndpoints")) &&
  existsb (λ tp, existsb (portMatches t) (items (field tp "ports"))) (items (field rule "toPorts")).

Definition ciliumSelected (policy : gmap string any) (t : connection) : bool :=
  bool_decide (dstNamespace t = policyNamespace policy) &&
  (match specField policy "endpointSelector" with Some sel => selects sel (dstLabels t) | None => false end).

Definition ciliumAdmits (policy : gmap string any) (t : connection) : bool :=
  existsb (ciliumRuleAdmits (policyNamespace policy) t) (items (specField policy "ingress")).

(** ** The access the endpoints declare *)

Definition opens (ep : WorkloadEndpoint) (t : connection) : Prop :=
  epPort ep = dstPort t ∧ protocolOf (epType ep) = dstProtocol t.

(** [crossProject] says that the source is of the same control plane namespace
    and environment. *)
Definition declared (params : ComponentPolicyParams) (crossProject : Prop) (t : connection) : Prop :=
  ∃ name ep, polEndpoints params !! name = Some ep ∧ opens ep t ∧
    (srcNamespace t = polNamespace params ∨
     (EndpointVisibilityNamespace ∈ epVisibility ep ∧ crossProject) ∨
     ((EndpointVisibilityInternal ∈ epVisibility ep ∨ EndpointVisibilityExternal ∈ epVisibility ep) ∧
      is_Some (srcLabels t !! LabelKeySystemComponent))).

Definition labelledAs (params : ComponentPolicyParams) (ls : gmap string string) : Prop :=
  ls !! polNamespaceKey = Some (polCPNamespace params) ∧ ls !! polEnvironmentKey = Some (polEnvironment params).

(** ** Peers *)

Lemma forallb_elem {A} (f : A → bool) l : forallb f l = true ↔ ∀ x, x ∈ l → f x = true.
Proof. rewrite List.forallb_forall. by setoid_rewrite list_elem_of_In. Qed.

Lemma selects_empty ls : selects (VMap ∅) ls = true.
Proof. done. Qed.

Lemma labelMatches_string ls k s : labelMatches ls (k, VString s) = true ↔ ls !! k = Some s.
Proof. unfold labelMatches. cbn. destruct (ls !! k) as [s'|]; [|done]. rewrite bool_decide_eq_true. naive_solver. Qed.

Lemma selects_namespace params ls m :
  m !! "matchLabels" = Some (namespaceLabels params) → m !! "matchExpressions" = None →
  selects (VMap m) ls = true ↔ labelledAs params ls.
Proof.
  intros Hm He. unfold selects, field. rewrite Hm, He. cbn [items forallb]. rewrite andb_true_r.
  unfold namespaceLabels, labelledAs. rewrite forallb_elem. split.
  - intros H. split; apply labelMatches_string, H, elem_of_map_to_list; [by rewrite lookup_insert_eq|].
    by rewrite lookup_insert_ne, lookup_singleton_eq by done.
  - intros [H1 H2] [k v] Hkv. apply elem_of_map_to_list in Hkv. apply lookup_insert_Some in Hkv as [[<- <-]|[_ Hkv]].
    + by apply labelMatches_string.
    + apply lookup_singleton_Some in Hkv as [<- <-]. by apply labelMatches_string.
Qed.

Lemma exists_expr (ls : gmap string string) key :
  bool_decide (text (field (existsExpr key) "operator") = "Exists") &&
  bool_decide (is_Some (ls !! text (field (existsExpr key) "key"))) = bool_decide (is_Some (ls !! key)).
Proof. done. Qed.

Lemma projectPeer_spec ns t : k8sPeer ns t projectPeer = true ↔ srcNamespace t = ns.
Proof.
  unfold k8sPeer. change (field projectPeer "namespaceSelector") with (@None any).
  change (field projectPeer "podSelector") with (Some (VMap ∅)).
  cbv beta iota. by rewrite selects_empty, andb_true_r, bool_decide_eq_true.
Qed.

Lemma namespacePeer_spec ns t params :
  k8sPeer ns t (namespacePeer params) = true ↔ labelledAs params (srcNamespaceLabels t).
Proof.
  unfold k8sPeer, namespacePeer.
  change (field (VMap {["namespaceSelector" := VMap {["matchLabels" := namespaceLabels params]}]}) "namespaceSelector")
    with (Some (VMap {["matchLabels" := namespaceLabels params]})).
  change (field (VMap {["namespaceSelector" := VMap {["matchLabels" := namespaceLabels params]}]}) "podSelector")
    with (@None any).
  cbv beta iota. rewrite andb_true_r. by apply selects_namespace.
Qed.

Lemma systemPeer_spec ns t : k8sPeer ns t systemPeer = true ↔ is_Some (srcLabels t !! LabelKeySystemComponent).
Proof.
  unfold k8sPeer.
  change (field systemPeer "namespaceSelector") with (Some (VMap ∅)).
  change (field systemPeer "podSelector")
    with (Some (VMap {["matchExpressions" := VSlice [existsExpr LabelKeySystemComponent]]})).
  cbv beta iota. rewrite selects_empty. unfold selects. cbn [field].
  change ({["matchExpressions" := VSlice [existsExpr LabelKeySystemComponent]]} !! "matchLabels") with (@None any).
  change ({["matchExpressions" := VSlice [existsExpr LabelKeySystemComponent]]} !! "matchExpressions")
    with (Some (VSlice [existsExpr LabelKeySystemComponent])).
  cbn [items forallb andb]. rewrite exists_expr, andb_true_r. apply bool_decide_eq_true.
Qed.

Lemma ciliumProject_spec ns t : ciliumPeer ns t (VMap ∅) = true ↔ srcNamespace t = ns.
Proof. unfold ciliumPeer. rewrite selects_empty, andb_true_r. cbn [orb]. apply bool_decide_eq_true. Qed.

Lemma ciliumNamespace_exists t : bool_decide (is_Some (ciliumLabels t !! KubernetesNamespaceKey)) = true.
Proof. apply bool_decide_eq_true. unfold ciliumLabels. rewrite lookup_insert_eq. eauto. Qed.

Lemma ciliumLabels_ne t k : k ≠ KubernetesNamespaceKey → ciliumLabels t !! k = srcLabels t !! k.
Proof. intros H. unfold ciliumLabels. by rewrite lookup_insert_ne. Qed.

Lemma selects_both m ls :
  selects (VMap m) ls = (match m !! "matchLabels" with Some (VMap m) => forallb (labelMatches ls) (map_to_list m) | _ => true end) &&
  forallb (λ e, bool_decide (text (field e "operator") = "Exists") &&
                bool_decide (is_Some (ls !! text (field e "key")))) (items (m !! "matchExpressions")).
Proof. done. Qed.

Lemma ciliumNamespacePeer_spec ns t params :
  ciliumPeer ns t (ciliumNamespacePeer params) = true ↔ labelledAs params (srcLabels t).
Proof.
  assert (labelledAs params (ciliumLabels t) ↔ labelledAs params (srcLabels t)) as <-.
  { unfold labelledAs. by rewrite !ciliumLabels_ne. }
  rewrite <- (selects_namespace params (ciliumLabels t) {["matchLabels" := namespaceLabels params]}) by done.
  unfold ciliumPeer, ciliumNamespacePeer. rewrite !selects_both.
  assert (namesNamespace (VMap {["matchLabels" := namespaceLabels params;
            "matchExpressions" := VSlice [existsExpr KubernetesNamespaceKey]]}) = true) as -> by done.
  rewrite orb_true_l, andb_true_l.
  change ({["matchLabels" := namespaceLabels params; "matchExpressions" := VSlice [existsExpr KubernetesNamespaceKey]]}
          !! "matchExpressions") with (Some (VSlice [existsExpr KubernetesNamespaceKey])).
  cbn [items forallb]. rewrite exists_expr, ciliumNamespace_exists. done.
Qed.

Lemma ciliumSystemPeer_spec ns t :
  ciliumPeer ns t ciliumSystemPeer = true ↔ is_Some (srcLabels t !! LabelKeySystemComponent).
Proof.
  unfold ciliumPeer. assert (namesNamespace ciliumSystemPeer = true) as -> by done.
  rewrite orb_true_l, andb_true_l. unfold ciliumSystemPeer. rewrite selects_both.
  change ({["matchExpressions" := VSlice [existsExpr LabelKeySystemComponent; existsExpr KubernetesNamespaceKey]]}
          !! "matchLabels") with (@None any).
  change ({["matchExpressions" := VSlice [existsExpr LabelKeySystemComponent; existsExpr KubernetesNamespaceKey]]}
          !! "matchExpressions") with (Some (VSlice [existsExpr LabelKeySystemComponent; existsExpr KubernetesNamespaceKey])).
  cbn [items forallb andb]. rewrite !exists_expr, ciliumNamespace_exists, !andb_true_r, bool_decide_eq_true.
  by rewrite ciliumLabels_ne.
Qed.

(** ** Ports *)

Lemma portMatches_opens t ep :
  portMatches t (eePort (epEntryOf ("", ep))) = true ↔ opens ep t.
Proof.
  unfold portMatches, opens, epEntryOf. cbn [eePort snd field].
  change ({["protocol" := VString (protocolOf (epType ep)); "port" := VScalar "int64" (Itoa (epPort ep))]} !! "port")
    with (Some (VScalar "int64" (Itoa (epPort ep)))).
  change ({["protocol" := VString (protocolOf (epType ep)); "port" := VScalar "int64" (Itoa (epPort ep))]} !! "protocol")
    with (Some (VString (protocolOf (epType ep)))).
  cbn [text]. rewrite andb_true_iff, !bool_decide_eq_true. split; intros [H1 H2]; split; try done; [|by rewrite H1].
  by apply (inj pretty) in H1.
Qed.

Lemma portMatches_cilium t ep : portMatches t (ciliumPortObj (ciliumEntryOf ep)) = true ↔ opens ep t.
Proof.
  rewrite <- portMatches_opens. unfold portMatches, ciliumPortObj, ciliumEntryOf. cbn [cpPort cpProto field].
  change ({["port" := VString (Itoa (epPort ep)); "protocol" := VString (protocolOf (epType ep))]} !! "port")
    with (Some (VString (Itoa (epPort ep)))).
  change ({["port" := VString (Itoa (epPort ep)); "protocol" := VString (protocolOf (epType ep))]} !! "protocol")
    with (Some (VString (protocolOf (epType ep)))).
  reflexivity.
Qed.

Lemma elem_of_grouped {A B} (port : A → B) vis level (es : list A) p :
  p ∈ grouped port vis level es ↔ ∃ e v, e ∈ es ∧ v ∈ vis e ∧ level v = true ∧ p = port e.
Proof.
  unfold grouped. rewrite list_elem_of_bind. setoid_rewrite list_elem_of_bind. setoid_rewrite list_elem_of_singleton.
  split.
  - intros (e & (v & -> & Hv) & He). apply list_elem_of_In, List.filter_In in Hv as [Hv Hl].
    exists e, v. apply list_elem_of_In in Hv. done.
  - intros (e & v & He & Hv & Hl & ->). exists e. split; [|done]. exists v. split; [done|].
    by apply list_elem_of_In, List.filter_In; rewrite <- list_elem_of_In.
Qed.

Lemma isBroadVis_spec v : isBroadVis v = true ↔ v = EndpointVisibilityInternal ∨ v = EndpointVisibilityExternal.
Proof. unfold isBroadVis. by rewrite orb_true_iff, !bool_decide_eq_true. Qed.

Lemma isNamespaceVis_spec v : isNamespaceVis v = true ↔ v = EndpointVisibilityNamespace.
Proof. unfold isNamespaceVis. by rewrite bool_decide_eq_true. Qed.

(** ** Rules *)

Section Admission.
Context {MR : MapRange} {ML : MapRangeLaws} {SS : SortSlice} {SL : SortSliceLaws}.

Lemma elem_of_sorted params e :
  e ∈ sortedEntries params ↔ ∃ name ep, polEndpoints params !! name = Some ep ∧ e = epEntryOf (name, ep).
Proof.
  unfold sortedEntries. rewrite sort_Slice_perm, list_elem_of_fmap. setoid_rewrite map_range_perm. split.
  - intros ([name ep] & -> & Hin). apply elem_of_map_to_list in Hin. eauto.
  - intros (name & ep & Hin & ->). exists (name, ep). split; [done|]. by apply elem_of_map_to_list.
Qed.

Lemma elem_of_ciliumSorted params e :
  e ∈ ciliumSorted params ↔ ∃ name ep, polEndpoints params !! name = Some ep ∧ e = ciliumEntryOf ep.
Proof.
  unfold ciliumSorted. rewrite sort_Slice_perm, list_elem_of_fmap. setoid_rewrite map_range_perm. split.
  - intros ([name ep] & -> & Hin). apply elem_of_map_to_list in Hin. eauto.
  - intros (name & ep & Hin & ->). exists (name, ep). split; [done|]. by apply elem_of_map_to_list.
Qed.

(** One optional rule: it admits what its peer and one of its ports match, and
    no ports admit nothing. *)
Lemma ruleAdmits ns t peer ports :
  existsb (k8sRule ns t) (if bool_decide (length ports = 0) then [] else [ingressRule [peer] ports]) = true ↔
  k8sPeer ns t peer = true ∧ ∃ p, p ∈ ports ∧ portMatches t p = true.
Proof.
  case_bool_decide as Hl.
  - apply nil_length_inv in Hl as ->. cbn. split; [done|]. intros [_ (p & Hp & _)]. by apply not_elem_of_nil in Hp.
  - cbn [existsb]. rewrite orb_false_r. unfold k8sRule, ingressRule.
    change (field (VMap {["from" := VSlice [peer]; "ports" := VSlice ports]}) "from") with (Some (VSlice [peer])).
    change (field (VMap {["from" := VSlice [peer]; "ports" := VSlice ports]}) "ports") with (Some (VSlice ports)).
    cbn [items existsb]. by rewrite orb_false_r, andb_true_iff, existsb_elem.
Qed.

Lemma toPorts_admit t entries :
  existsb (λ tp, existsb (portMatches t) (items (field tp "ports"))) (ciliumToPorts entries) = true ↔
  ∃ e, e ∈ entries ∧ portMatches t (ciliumPortObj e) = true.
Proof.
  assert (∀ (es : list ciliumPortEntry) (obj : list any → any),
    (∀ l, items (field (obj l) "ports") = l) →
    existsb (λ tp, existsb (portMatches t) (items (field tp "ports")))
      (if bool_decide (length (ciliumPortObj <$> es) = 0) then [] else [obj (ciliumPortObj <$> es)]) = true ↔
    ∃ e, e ∈ es ∧ portMatches t (ciliumPortObj e) = true) as Hgroup.
  { intros es obj Hobj. case_bool_decide as Hl.
    - rewrite length_fmap in Hl. apply nil_length_inv in Hl as ->. cbn. split; [done|].
      intros (e & He & _). by apply not_elem_of_nil in He.
    - cbn [existsb]. rewrite orb_false_r, Hobj, existsb_elem. setoid_rewrite list_elem_of_fmap. naive_solver. }
  unfold ciliumToPorts. rewrite List.existsb_app, orb_true_iff.
  rewrite (Hgroup _ (λ l, VMap {["ports" := VSlice l; "rules" := VMap {["http" := VSlice [VMap ∅]]}]})) by done.
  rewrite (Hgroup _ (λ l, VMap {["ports" := VSlice l]})) by done.
  setoid_rewrite list_elem_of_In. setoid_rewrite List.filter_In. split.
  - naive_solver.
  - intros (e & He & Hp). destruct (cpIsL7 e) eqn:Hl7; [left|right]; exists e; rewrite Hl7; auto.
Qed.

Lemma ciliumRule_admits ns t peer entries :
  existsb (ciliumRuleAdmits ns t) (ciliumRule peer entries) = true ↔
  ciliumPeer ns t peer = true ∧ ∃ e, e ∈ entries ∧ portMatches t (ciliumPortObj e) = true.
Proof.
  unfold ciliumRule. case_bool_decide as Hl.
  - apply nil_length_inv in Hl as ->. cbn. split; [done|]. intros [_ (p & Hp & _)]. by apply not_elem_of_nil in Hp.
  - cbn [existsb]. rewrite orb_false_r. unfold ciliumRuleAdmits.
    change (field (VMap {["fromEndpoints" := VSlice [peer]; "toPorts" := VSlice (ciliumToPorts entries)]}) "fromEndpoints")
      with (Some (VSlice [peer])).
    change (field (VMap {["fromEndpoints" := VSlice [peer]; "toPorts" := VSlice (ciliumToPorts entries)]}) "toPorts")
      with (Some (VSlice (ciliumToPorts entries))).
    cbn [items existsb]. by rewrite orb_false_r, andb_true_iff, toPorts_admit.
Qed.

(** The three rules of either kind give the declared access. *)
Lemma three_rules {E} (es : list E) (port : E → any) (vis : E → list string) (mk : WorkloadEndpoint → string → E)
    params t (cross : Prop) (peer1 peer2 peer3 : bool) :
  (∀ e, e ∈ es ↔ ∃ name ep, polEndpoints params !! name = Some ep ∧ e = mk ep name) →
  (∀ ep name, portMatches t (port (mk ep name)) = true ↔ opens ep t) → (∀ ep name, vis (mk ep name) = epVisibility ep) →
  (peer1 = true ↔ srcNamespace t = polNamespace params) → (peer2 = true ↔ cross) →
  (peer3 = true ↔ is_Some (srcLabels t !! LabelKeySystemComponent)) →
  ((peer1 = true ∧ ∃ e, e ∈ es ∧ portMatches t (port e) = true) ∨
   (peer2 = true ∧ ∃ e v, e ∈ es ∧ v ∈ vis e ∧ isNamespaceVis v = true ∧ portMatches t (port e) = true) ∨
   (peer3 = true ∧ ∃ e v, e ∈ es ∧ v ∈ vis e ∧ isBroadVis v = true ∧ portMatches t (port e) = true)) ↔
  declared params cross t.
Proof.
  intros Hes Hport Hvis H1 H2 H3. rewrite H1, H2, H3. unfold declared. split.
  - intros [(Hn & e & (name & ep & Hep & ->)%Hes & Hp)
           |[(Hc & e & v & (name & ep & Hep & ->)%Hes & Hv & ->%isNamespaceVis_spec & Hp)
            |(Hs & e & v & (name & ep & Hep & ->)%Hes & Hv & Hb%isBroadVis_spec & Hp)]];
      exists name, ep; apply Hport in Hp; rewrite ?Hvis in *; (do 2 (split; [done|])); naive_solver.
  - intros (name & ep & Hep & Ho & [Hn|[[Hv Hc]|[Hv Hs]]]); apply (Hport ep name) in Ho.
    + left. split; [done|]. exists (mk ep name). rewrite Hes. eauto.
    + right; left. split; [done|]. exists (mk ep name), EndpointVisibilityNamespace. rewrite Hes, Hvis. eauto 10.
    + right; right. split; [done|].
      destruct Hv as [Hv|Hv]; [exists (mk ep name), EndpointVisibilityInternal|exists (mk ep name), EndpointVisibilityExternal];
        rewrite Hes, Hvis; eauto 10.
Qed.

Lemma grouped_port {E} (es : list E) (port : E → any) vis level t :
  (∃ p, p ∈ grouped port vis level es ∧ portMatches t p = true) ↔
  ∃ e v, e ∈ es ∧ v ∈ vis e ∧ level v = true ∧ portMatches t (port e) = true.
Proof. setoid_rewrite elem_of_grouped. naive_solver. Qed.

Lemma grouped_id (es : list ciliumPortEntry) level t :
  (∃ e, e ∈ grouped id cpVisibility level es ∧ portMatches t (ciliumPortObj e) = true) ↔
  ∃ e v, e ∈ es ∧ v ∈ cpVisibility e ∧ level v = true ∧ portMatches t (ciliumPortObj e) = true.
Proof.
  setoid_rewrite elem_of_grouped. unfold id. split.
  - intros (e & (e' & v & He & Hv & Hl & ->) & Hp). eauto 10.
  - intros (e & v & He & Hv & Hl & Hp). eauto 10.
Qed.

Lemma fmap_port {E} (es : list E) (port : E → any) t :
  (∃ p, p ∈ port <$> es ∧ portMatches t p = true) ↔ ∃ e, e ∈ es ∧ portMatches t (port e) = true.
Proof. setoid_rewrite list_elem_of_fmap. naive_solver. Qed.

Lemma makeIngressRules_admit params t :
  existsb (k8sRule (polNamespace params) t) (makeIngressRules params) = true ↔
  declared params (labelledAs params (srcNamespaceLabels t)) t.
Proof.
  unfold makeIngressRules. case_bool_decide as Hsz.
  { apply map_size_empty_inv in Hsz. unfold declared. rewrite Hsz. cbn. split; [done|].
    intros (name & ep & Hep & _). by rewrite lookup_empty in Hep. }
  cbn zeta. rewrite !List.existsb_app, !orb_true_iff, !ruleAdmits, !grouped_port, fmap_port.
  rewrite <- (three_rules (sortedEntries params) eePort eeVisibility (λ ep name, epEntryOf (name, ep)) params t
    (labelledAs params (srcNamespaceLabels t)) (k8sPeer (polNamespace params) t projectPeer)
    (k8sPeer (polNamespace params) t (namespacePeer params)) (k8sPeer (polNamespace params) t systemPeer)).
  - done.
  - apply elem_of_sorted.
  - intros ep name. apply portMatches_opens.
  - done.
  - apply projectPeer_spec.
  - apply namespacePeer_spec.
  - apply systemPeer_spec.
Qed.

Lemma ciliumIngressRules_admit params t :
  existsb (ciliumRuleAdmits (polNamespace params) t) (ciliumIngressRules params) = true ↔
  declared params (labelledAs params (srcLabels t)) t.
Proof.
  unfold ciliumIngressRules. rewrite !List.existsb_app, !orb_true_iff, !ciliumRule_admits, !grouped_id.
  rewrite <- (three_rules (ciliumSorted params) ciliumPortObj cpVisibility (λ ep _, ciliumEntryOf ep) params t
    (labelledAs params (srcLabels t)) (ciliumPeer (polNamespace params) t (VMap ∅))
    (ciliumPeer (polNamespace params) t (ciliumNamespacePeer params)) (ciliumPeer (polNamespace params) t ciliumSystemPeer)).
  - done.
  - intros e. apply elem_of_ciliumSorted.
  - intros ep name. apply portMatches_cilium.
  - done.
  - apply ciliumProject_spec.
  - apply ciliumNamespacePeer_spec.
  - apply ciliumSystemPeer_spec.
Qed.
End Admission.

(** ** The policy of a component *)

Lemma policyNameOf_some params : ∃ name, policyNameOf params = Some name ∧ (Z.of_nat (String.length name) ≤ 253)%Z.
Proof.
  unfold policyNameOf. cbn zeta. case_bool_decide as Hl.
  - destruct (generateK8sName_dns MaxResourceNameLength "" ["openchoreo"; polComponentName params])
      as (b & h & Hg & _ & Hh & _ & _ & _ & Hb); [done|by vm_compute|].
    exists (b +:+ h). split; [done|]. rewrite sapp_length. unfold MaxResourceNameLength, maxNameLength in *. lia.
  - eexists; split; [done|]. unfold MaxResourceNameLength, maxNameLength in Hl. lia.
Qed.

Lemma selects_toAnyMap m ls : selects (VMap {["matchLabels" := VMap (toAnyMap m)]}) ls = true ↔ m ⊆ ls.
Proof.
  rewrite selects_both.
  change ({["matchLabels" := VMap (toAnyMap m)]} !! "matchLabels") with (Some (VMap (toAnyMap m))).
  change ({["matchLabels" := VMap (toAnyMap m)]} !! "matchExpressions") with (@None any).
  cbn [items forallb]. rewrite andb_true_r, forallb_elem, map_subseteq_spec. split.
  - intros Hall k v Hv. apply labelMatches_string, Hall, elem_of_map_to_list. unfold toAnyMap. by rewrite lookup_fmap, Hv.
  - intros Hsub [k v] Hkv. apply elem_of_map_to_list in Hkv. unfold toAnyMap in Hkv.
    apply lookup_fmap_Some in Hkv as (s & <- & Hs). by apply labelMatches_string, Hsub.
Qed.

Section Policy.
Context {MR : MapRange} {ML : MapRangeLaws} {SS : SortSlice} {SL : SortSliceLaws}.

Lemma policyNamespace_object v k n ns spec : policyNamespace (policyObject v k n ns spec) = ns.
Proof. done. Qed.

Lemma specField_object v k n ns spec f : specField (policyObject v k n ns spec) f = spec !! f.
Proof. done. Qed.

Lemma k8s_policy params :
  polProvider params ≠ ProviderCilium →
  ∃ policy, MakeComponentPolicies params = Some [policy] ∧
    (∀ t, k8sSelected policy t = true ↔ dstNamespace t = polNamespace params ∧ polPodSelectors params ⊆ dstLabels t) ∧
    (∀ t, k8sAdmits policy t = true ↔ declared params (labelledAs params (srcNamespaceLabels t)) t).
Proof.
  intros Hp. destruct (policyNameOf_some params) as (name & Hn & _).
  unfold MakeComponentPolicies. rewrite bool_decide_eq_false_2 by done. rewrite Hn. cbn [mbind option_bind].
  eexists; split; [reflexivity|]. split; intros t.
  - unfold k8sSelected. rewrite policyNamespace_object, specField_object, andb_true_iff, bool_decide_eq_true.
    rewrite <- selects_toAnyMap. by case_bool_decide.
  - unfold k8sAdmits. rewrite policyNamespace_object, specField_object, <- makeIngressRules_admit.
    case_bool_decide as Hl; [by apply nil_length_inv in Hl as ->|]. by rewrite lookup_insert_eq.
Qed.

Lemma cilium_policy params :
  polProvider params = ProviderCilium →
  ∃ policy, MakeComponentPolicies params = Some [policy] ∧
    (∀ t, ciliumSelected policy t = true ↔ dstNamespace t = polNamespace params ∧ polPodSelectors params ⊆ dstLabels t) ∧
    (∀ t, ciliumAdmits policy t = true ↔ declared params (labelledAs params (srcLabels t)) t).
Proof.
  intros Hp. destruct (policyNameOf_some params) as (name & Hn & _).
  unfold MakeComponentPolicies. rewrite bool_decide_eq_true_2 by done.
  unfold makeCiliumComponentPolicies. rewrite Hn. cbn [mbind option_bind].
  eexists; split; [reflexivity|]. split; intros t.
  - unfold ciliumSelected. rewrite policyNamespace_object, specField_object, andb_true_iff, bool_decide_eq_true.
    by rewrite <- selects_toAnyMap.
  - unfold ciliumAdmits. by rewrite policyNamespace_object, specField_object, <- ciliumIngressRules_admit.
Qed.


End Policy.

(** ** Determinism *)

(** A list sorted by a key without duplicates is determined by its elements. *)
Lemma keyed_unique {A} (key : A → string) l1 l2 :
  l1 ≡ₚ l2 → NoDup (key <$> l1) →
  StronglySorted String.le (key <$> l1) → StronglySorted String.le (key <$> l2) → l1 = l2.
Proof.
  intros Hp Hnd Hs1 Hs2.
  assert (key <$> l1 = key <$> l2) as Hk by (apply (StronglySorted_unique String.le); [done..|by rewrite Hp]).
  assert (∀ x y, x ∈ l1 → y ∈ l1 → key x = key y → x = y) as Hinj.
  { intros x y [i Hi]%list_elem_of_lookup [j Hj]%list_elem_of_lookup Hxy.
    assert (i = j) as ->; [|congruence].
    apply (NoDup_lookup (key <$> l1) i j (key x)); [done|by rewrite list_lookup_fmap, Hi|].
    by rewrite list_lookup_fmap, Hj, Hxy. }
  apply list_eq_same_length with (n := length l1); [by rewrite Hp|done|].
  intros i x y _ Hx Hy. assert (y ∈ l1) as Hy1 by (rewrite Hp; by eapply list_elem_of_lookup_2).
  apply Hinj; [by eapply list_elem_of_lookup_2|done|].
  assert ((key <$> l1) !! i = (key <$> l2) !! i) as Hi by by rewrite Hk.
  rewrite !list_lookup_fmap, Hx, Hy in Hi. by injection Hi.
Qed.

Lemma sorted_deterministic {A} (m : gmap string A) {B} (f : string * A → B) (key : B → string)
    (MR1 MR2 : MapRange) (ML1 : @MapRangeLaws MR1) (ML2 : @MapRangeLaws MR2)
    (SS1 SS2 : SortSlice) (SL1 : @SortSliceLaws SS1) (SL2 : @SortSliceLaws SS2) :
  (∀ n1 n2 x1 x2, m !! n1 = Some x1 → m !! n2 = Some x2 → key (f (n1, x1)) = key (f (n2, x2)) → n1 = n2) →
  @sort_Slice SS1 _ key (f <$> @map_range MR1 _ m) = @sort_Slice SS2 _ key (f <$> @map_range MR2 _ m).
Proof.
  intros Hinj. apply (keyed_unique key).
  - by rewrite (@sort_Slice_perm SS1 SL1), (@sort_Slice_perm SS2 SL2), (@map_range_perm MR1 ML1), (@map_range_perm MR2 ML2).
  - rewrite (@sort_Slice_perm SS1 SL1), (@map_range_perm MR1 ML1), <- list_fmap_compose.
    apply NoDup_fmap_2_strong; [|apply NoDup_map_to_list].
    intros [n1 x1] [n2 x2] H1%elem_of_map_to_list H2%elem_of_map_to_list Hk.
    assert (n1 = n2) as -> by eauto. congruence.
  - apply (@sort_Slice_sorted SS1 SL1).
  - apply (@sort_Slice_sorted SS2 SL2).
Qed.

(** Whatever order the endpoints are ranged over in and whatever order sorting
    leaves equal keys in, two reconciliations of the same component make the same
    policy, byte for byte, when the provider is not Cilium, and with Cilium when
    no two endpoints have the same port number. *)
Theorem policy_deterministic params
    (MR1 MR2 : MapRange) (ML1 : @MapRangeLaws MR1) (ML2 : @MapRangeLaws MR2)
    (SS1 SS2 : SortSlice) (SL1 : @SortSliceLaws SS1) (SL2 : @SortSliceLaws SS2) :
  polProvider params ≠ ProviderCilium ∨
  (∀ n1 n2 ep1 ep2, polEndpoints params !! n1 = Some ep1 → polEndpoints params !! n2 = Some ep2 →
     epPort ep1 = epPort ep2 → n1 = n2) →
  @MakeComponentPolicies MR1 SS1 params = @MakeComponentPolicies MR2 SS2 params.
Proof.
  intros Hor. unfold MakeComponentPolicies. case_bool_decide as Hp.
  - destruct Hor as [Hor|Hports]; [done|]. unfold makeCiliumComponentPolicies, ciliumIngressRules, ciliumSorted.
    rewrite (sorted_deterministic (polEndpoints params) (λ kv, ciliumEntryOf kv.2) cpPort MR1 MR2 ML1 ML2 SS1 SS2 SL1 SL2);
      [done|]. cbn. intros n1 n2 ep1 ep2 H1 H2 Hk%(inj pretty). eauto.
  - unfold makeIngressRules, sortedEntries.
    by rewrite (sorted_deterministic (polEndpoints params) epEntryOf eeName MR1 MR2 ML1 ML2 SS1 SS2 SL1 SL2).
Qed.

(** ** Instances *)

(** Maps ranged over in the order of their representation and in reverse, and an
    insertion sort, which is stable. *)
Definition rangeUp : MapRange := λ A m, map_to_list m.
Definition rangeDown : MapRange := λ A m, rev (map_to_list m).

Lemma rangeUp_laws : @MapRangeLaws rangeUp.
Proof. intros A m. done. Qed.
Lemma rangeDown_laws : @MapRangeLaws rangeDown.
Proof. intros A m. unfold map_range, rangeDown. symmetry. apply Permutation_rev. Qed.

Fixpoint insertBy {A} (key : A → string) (x : A) (l : list A) : list A :=
  match l with
  | [] => [x]
  | y :: l' => if bool_decide (String.le (key x) (key y)) then x :: l else y :: insertBy key x l'
  end.

Definition insertionSort : SortSlice := λ A key l, foldr (insertBy key) [] l.

Lemma insertBy_perm {A} (key : A → string) x l : insertBy key x l ≡ₚ x :: l.
Proof. induction l as [|y l IH]; [done|]. cbn. case_bool_decide; [done|]. rewrite IH. by rewrite Permutation_swap. Qed.

Lemma insertionSort_perm {A} (key : A → string) l : insertionSort A key l ≡ₚ l.
Proof. unfold insertionSort. induction l as [|x l IH]; [done|]. cbn. by rewrite insertBy_perm, IH. Qed.

Lemma insertBy_sorted {A} (key : A → string) x l :
  StronglySorted String.le (key <$> l) → StronglySorted String.le (key <$> insertBy key x l).
Proof.
  induction l as [|y l IH]; intros Hs; [by repeat constructor|]. cbn [insertBy].
  rewrite fmap_cons in Hs. apply StronglySorted_inv in Hs as [Hs Hy]. case_bool_decide as Hle.
  - apply SSorted_cons; [by apply SSorted_cons|]. apply Forall_cons. split; [done|].
    apply (Forall_impl _ _ _ Hy). intros z Hz. by etrans.
  - rewrite fmap_cons. apply SSorted_cons; [auto|]. rewrite (insertBy_perm key x l), fmap_cons.
    apply Forall_cons. split; [|done]. destruct (total String.le (key x) (key y)); done.
Qed.

Lemma insertionSort_laws : @SortSliceLaws insertionSort.
Proof.
  split; intros A key l; [apply insertionSort_perm|].
  unfold sort_Slice, insertionSort. induction l as [|x l IH]; [constructor|]. by apply insertBy_sorted.
Qed.

(** A DNS server: the same port over TCP and UDP. *)
Definition dnsParams (provider : string) : ComponentPolicyParams :=
  mkPolicyParams "dp-acme-web-dev-0a1b2c3d" "acme" "dev" "resolver" {["openchoreo.dev/component" := "resolver"]}
    {["dns-tcp" := mkEndpoint [] EndpointTypeTCP 53 0 "" ""; "dns-udp" := mkEndpoint [] EndpointTypeUDP 53 0 "" ""]}
    provider.

(** A Cilium policy is not a function of its component: with the same port
    declared over TCP and over UDP, two orders of ranging over the endpoints give
    two different policies, although the code sorts them "for deterministic
    output". *)
Theorem cilium_policy_unstable :
  ∃ params MR1 MR2, @MapRangeLaws MR1 ∧ @MapRangeLaws MR2 ∧ @SortSliceLaws insertionSort ∧
    polProvider params = ProviderCilium ∧
    @MakeComponentPolicies MR1 insertionSort params ≠ @MakeComponentPolicies MR2 insertionSort params.
Proof.
  exists (dnsParams ProviderCilium), rangeUp, rangeDown.
  split; [apply rangeUp_laws|]. split; [apply rangeDown_laws|]. split; [apply insertionSort_laws|]. split; [done|].
  intros Heq. apply (f_equal (λ p, (λ l, (λ o, items (specField o "ingress")) <$> l) <$> p)) in Heq.
  vm_compute in Heq. discriminate Heq.
Qed.

Lemma policy_deterministic_witness :
  polProvider (dnsParams ProviderKubernetes) ≠ ProviderCilium ∧
  @MakeComponentPolicies rangeUp insertionSort (dnsParams ProviderKubernetes) =
  @MakeComponentPolicies rangeDown insertionSort (dnsParams ProviderKubernetes).
Proof.
  split; [discriminate|].
  apply (policy_deterministic (dnsParams ProviderKubernetes) rangeUp rangeDown rangeUp_laws rangeDown_laws
           insertionSort insertionSort insertionSort_laws insertionSort_laws).
  left. discriminate.
Defined.

Definition dnsClient : connection :=
  mkTraffic "dp-acme-web-dev-0a1b2c3d" ∅ ∅ "dp-acme-web-dev-0a1b2c3d" {["openchoreo.dev/component" := "resolver"]} 53 "UDP".

