(* ===== verification/WorkloadContext.v ===== *)
(** * The rendering context of a workload

    [internal/pipeline/component/context]: the overrides of a workload
    ([workload.go]), its configuration items and the secrets behind them
    ([configuration.go]), the views derived from them, with the names of the
    objects and the ports of the service ([derived.go]), the outputs of the
    resources it depends on ([resourcedependency.go]) and the gateways templates
    attach routes to ([component.go]).  [None] is a panic, or fuel that ran out. *)

From S2P Require Import Prelude GoStrings PlaneObjects K8sNames NetworkPolicy.

(** ** Overrides *)

(** The loop over the base: an overridden element is replaced once, and its
    override taken out of the map. *)
Fixpoint mergeLoop {A} (key : A → string) (base : list A) (overrideMap : gmap string A) : list A * gmap string A :=
  match base with
  | [] => ([], overrideMap)
  | b :: base =>
      match overrideMap !! key b with
      | Some o => let '(merged, m) := mergeLoop key base (delete (key b) overrideMap) in (o :: merged, m)
      | None => let '(merged, m) := mergeLoop key base overrideMap in (b :: merged, m)
      end
  end.

Definition byKey {A} (key : A → string) (l : list A) : gmap string A := foldl (λ m x, <[key x := x]> m) ∅ l.

Definition mergeByKey {A} (key : A → string) (base override : list A) : list A :=
  if bool_decide (length override = 0) then base
  else
    let '(merged, rest) := mergeLoop key base (byKey key override) in
    merged ++ filter (λ o, is_Some (rest !! key o)) override.

Definition mergeEnvConfigs : list EnvVar → list EnvVar → list EnvVar := mergeByKey evKey.
Definition mergeFileConfigs : list FileVar → list FileVar → list FileVar := mergeByKey fvKey.

Record ContainerOverride := mkContainerOverride { coEnv : list EnvVar; coFiles : list FileVar }.

Definition withContainer (w : WorkloadTemplateSpec) (c : Container) : WorkloadTemplateSpec :=
  mkWorkloadSpec c (wlEndpoints w) (wlDependencies w).

Definition MergeWorkloadOverrides (base : WorkloadTemplateSpec) (overrides : option ContainerOverride) : WorkloadTemplateSpec :=
  match overrides with
  | None => base
  | Some o =>
      let c := wlContainer base in
      withContainer base
        (mkContainer (ctImage c) (ctCommand c) (ctArgs c) (mergeEnvConfigs (ctEnv c) (coEnv o)) (mergeFileConfigs (ctFiles c) (coFiles o)))
  end.

(** ** Configurations *)

Record RemoteRefData := mkRemoteRef { rrKey : string; rrProperty : string; rrVersion : string }.
Record SecretDataSource := mkSecretData { sdSecretKey : string; sdRemoteRef : RemoteRefData }.
Record SecretReference := mkSecretReference { srName : string; srData : list SecretDataSource }.

Record EnvConfiguration := mkEnvConfig { ecName : string; ecValue : string; ecRemoteRef : option RemoteRefData }.
Record FileConfiguration := mkFileConfig { fcName : string; fcMountPath : string; fcValue : string; fcRemoteRef : option RemoteRefData }.
Record ConfigurationItems := mkItems { itEnvs : list EnvConfiguration; itFiles : list FileConfiguration }.
Record ContainerConfigurations := mkConfigurations { ccConfigs : ConfigurationItems; ccSecrets : ConfigurationItems }.

Definition resolveSecretRef (secretReferences : gmap string SecretReference) (ref : SecretKeyRef) : option RemoteRefData :=
  sr ← secretReferences !! sekName ref;
  sdRemoteRef <$> List.find (λ d, bool_decide (sdSecretKey d = sekKey ref)) (srData sr).

Definition extractEnv (secretReferences : gmap string SecretReference) (acc : list EnvConfiguration * list EnvConfiguration)
    (env : EnvVar) : list EnvConfiguration * list EnvConfiguration :=
  let '(configs, secrets) := acc in
  match evSecret env with
  | Some ref =>
      match resolveSecretRef secretReferences ref with
      | Some remote => (configs, secrets ++ [mkEnvConfig (evKey env) "" (Some remote)])
      | None => acc
      end
  | None => (configs ++ [mkEnvConfig (evKey env) (evValue env) None], secrets)
  end.

Definition extractFile (secretReferences : gmap string SecretReference) (acc : list FileConfiguration * list FileConfiguration)
    (file : FileVar) : list FileConfiguration * list FileConfiguration :=
  let '(configs, secrets) := acc in
  match fvSecret file with
  | Some ref =>
      match resolveSecretRef secretReferences ref with
      | Some remote => (configs, secrets ++ [mkFileConfig (fvKey file) (fvMountPath file) "" (Some remote)])
      | None => acc
      end
  | None => (configs ++ [mkFileConfig (fvKey file) (fvMountPath file) (fvValue file) None], secrets)
  end.

Definition ExtractConfigurationsFromWorkload (secretReferences : gmap string SecretReference)
    (workload : option WorkloadTemplateSpec) : ContainerConfigurations :=
  match workload with
  | None => mkConfigurations (mkItems [] []) (mkItems [] [])
  | Some w =>
      let '(configEnvs, secretEnvs) := foldl (extractEnv secretReferences) ([], []) (ctEnv (wlContainer w)) in
      let '(configFiles, secretFiles) := foldl (extractFile secretReferences) ([], []) (ctFiles (wlContainer w)) in
      mkConfigurations (mkItems configEnvs configFiles) (mkItems secretEnvs secretFiles)
  end.

(** ** Workload data *)

Record EndpointData := mkEndpointData {
  edDisplayName : string;
  edPort : Z;
  edTargetPort : Z;
  edType : string;
  edBasePath : string;
  edVisibility : list string
}.
Record WorkloadData := mkWorkloadData {
  wdImage : string;
  wdCommand : list string;
  wdArgs : list string;
  wdEndpoints : gmap string EndpointData
}.

(** Project first, then what is not there yet. *)
Definition visibilityList (vs : list string) : list string :=
  foldl (λ acc v, if bool_decide (v ∈ acc) then acc else acc ++ [v]) [EndpointVisibilityProject] vs.

Definition endpointData (ep : WorkloadEndpoint) : EndpointData :=
  mkEndpointData (epDisplayName ep) (epPort ep) (if bool_decide (epTargetPort ep = 0%Z) then epPort ep else epTargetPort ep)
    (epType ep) (epBasePath ep) (visibilityList (epVisibility ep)).

Definition ExtractWorkloadData (workload : option WorkloadTemplateSpec) : WorkloadData :=
  match workload with
  | None => mkWorkloadData "" [] [] ∅
  | Some w => mkWorkloadData (ctImage (wlContainer w)) (ctCommand (wlContainer w)) (ctArgs (wlContainer w)) (endpointData <$> wlEndpoints w)
  end.

(** ** Names of the configuration objects *)

Definition generateConfigResourceName (prefix filename : string) : option string :=
  GenerateK8sNameWithLengthLimit MaxResourceNameLength [prefix; "config"; ReplaceAll filename "." "-"].

(** The zero byte that separates what is hashed. *)
Definition nul : string := String "000"%char "".

Definition remoteRefContentHash (ref : option RemoteRefData) : string :=
  match ref with
  | None => ""
  | Some r => Sprintf_08x (fnv32a (rrKey r +:+ nul +:+ rrProperty r +:+ nul +:+ rrVersion r))
  end.

Definition secretEnvsContentHash (envs : list EnvConfiguration) : string :=
  if bool_decide (length envs = 0) then ""
  else
    let written env :=
      match ecRemoteRef env with
      | None => ""
      | Some r => ecName env +:+ nul +:+ rrKey r +:+ nul +:+ rrProperty r +:+ nul +:+ rrVersion r +:+ nul
      end in
    Sprintf_08x (fnv32a (foldr (λ env s, written env +:+ s) "" envs)).

Definition generateSecretResourceName (prefix filename : string) (ref : option RemoteRefData) : option string :=
  GenerateK8sNameWithExtraHashInput MaxResourceNameLength (remoteRefContentHash ref)
    [prefix; "secret"; ReplaceAll filename "." "-"].

Definition generateSecretEnvResourceName (prefix : string) (envs : list EnvConfiguration) : option string :=
  GenerateK8sNameWithExtraHashInput MaxResourceNameLength (secretEnvsContentHash envs) [prefix; "env-secrets"].

Definition generateEnvResourceName (prefix : string) : option string :=
  GenerateK8sNameWithLengthLimit MaxResourceNameLength [prefix; "env-configs"].

Definition generateVolumeHash (mountPath filename : string) : string :=
  Sprintf_08x (fnv32a (mountPath +:+ "/" +:+ filename)).

(** ** Derived views *)

Record ConfigFileListEntry := mkConfigFile { cfName : string; cfMountPath : string; cfValue : string; cfResourceName : string; cfRemoteRef : option RemoteRefData }.
Record SecretFileListEntry := mkSecretFile { sfName : string; sfMountPath : string; sfResourceName : string; sfRemoteRef : option RemoteRefData }.
Inductive EnvFromEntry := ConfigMapRef (name : string) | SecretRef (name : string).
Record VolumeMountEntry := mkVolumeMount { vmName : string; vmMountPath : string; vmSubPath : string }.
Inductive VolumeSource := ConfigMapVolume (name : string) | SecretVolume (secretName : string).
Record VolumeEntry := mkVolume { voName : string; voSource : VolumeSource }.
Record EnvsByContainerEntry := mkEnvsEntry { eeResourceName : string; eeEnvs : list EnvConfiguration }.
Record ServicePortEntry := mkServicePort { spName : string; spPort : Z; spTargetPort : Z; spProtocol : string }.

Definition buildConfigFileList (cc : ContainerConfigurations) (prefix : string) : option (list ConfigFileListEntry) :=
  mapM (λ f, name ← generateConfigResourceName prefix (fcName f);
             Some (mkConfigFile (fcName f) (fcMountPath f) (fcValue f) name (fcRemoteRef f))) (itFiles (ccConfigs cc)).

Definition buildSecretFileList (cc : ContainerConfigurations) (prefix : string) : option (list SecretFileListEntry) :=
  mapM (λ f, name ← generateSecretResourceName prefix (fcName f) (fcRemoteRef f);
             Some (mkSecretFile (fcName f) (fcMountPath f) name (fcRemoteRef f))) (itFiles (ccSecrets cc)).

Definition buildEnvFrom (cc : ContainerConfigurations) (prefix : string) : option (list EnvFromEntry) :=
  configs ← (if bool_decide (length (itEnvs (ccConfigs cc)) = 0) then Some []
             else name ← generateEnvResourceName prefix; Some [ConfigMapRef name]);
  secrets ← (if bool_decide (length (itEnvs (ccSecrets cc)) = 0) then Some []
             else name ← generateSecretEnvResourceName prefix (itEnvs (ccSecrets cc)); Some [SecretRef name]);
  Some (configs ++ secrets).

Definition volumeName (f : FileConfiguration) : string := "file-mount-" +:+ generateVolumeHash (fcMountPath f) (fcName f).

Definition buildVolumeMounts (cc : ContainerConfigurations) : list VolumeMountEntry :=
  (λ f, mkVolumeMount (volumeName f) (fcMountPath f +:+ "/" +:+ fcName f) (fcName f)) <$>
  (itFiles (ccConfigs cc) ++ itFiles (ccSecrets cc)).

Definition buildVolumes (cc : ContainerConfigurations) (prefix : string) : option (list VolumeEntry) :=
  configs ← mapM (λ f, name ← generateConfigResourceName prefix (fcName f);
                       Some (mkVolume (volumeName f) (ConfigMapVolume name))) (itFiles (ccConfigs cc));
  secrets ← mapM (λ f, name ← generateSecretResourceName prefix (fcName f) (fcRemoteRef f);
                       Some (mkVolume (volumeName f) (SecretVolume name))) (itFiles (ccSecrets cc));
  let byName := byKey voName (configs ++ secrets) in
  Some (omap (λ n, byName !! n) (sorted_keys byName)).

Definition buildConfigEnvs (cc : ContainerConfigurations) (prefix : string) : option (list EnvsByContainerEntry) :=
  if bool_decide (length (itEnvs (ccConfigs cc)) = 0) then Some []
  else name ← generateEnvResourceName prefix; Some [mkEnvsEntry name (itEnvs (ccConfigs cc))].

Definition buildSecretEnvs (cc : ContainerConfigurations) (prefix : string) : option (list EnvsByContainerEntry) :=
  if bool_decide (length (itEnvs (ccSecrets cc)) = 0) then Some []
  else name ← generateSecretEnvResourceName prefix (itEnvs (ccSecrets cc)); Some [mkEnvsEntry name (itEnvs (ccSecrets cc))].

(** ** Service ports *)

Definition isPortChar (c : ascii) : bool := is_lower c || IsNumber c || bool_decide (c = "-"%char).

Fixpoint filter_bytes (f : ascii → bool) (s : string) : string :=
  match s with
  | "" => ""
  | String c s => if f c then String c (filter_bytes f s) else filter_bytes f s
  end.

Definition sanitizePortName (name : string) : string :=
  let name := ReplaceAll (ToLower name) "_" "-" in
  let sanitized := TrimByte "-" (filter_bytes isPortChar name) in
  if (15 <? String.length sanitized)%nat then TrimRightByte "-" (stake 15 sanitized) else sanitized.

Definition mapEndpointTypeToProtocol (endpointType : string) : string :=
  if bool_decide (endpointType = "TCP") then "TCP"
  else if bool_decide (endpointType = "UDP") then "UDP" else "TCP".

(** The name tried with a counter. *)
Definition numberedName (sanitized : string) (counter : Z) : option string :=
  let name := sanitized +:+ "-" +:+ Itoa counter in
  if (15 <? String.length name)%nat then
    let maxBase := (15 - Z.of_nat (String.length ("-" +:+ Itoa counter)))%Z in
    if (0 <? maxBase)%Z then base ← slice_to sanitized maxBase; Some (base +:+ "-" +:+ Itoa counter)
    else Some ("p-" +:+ Itoa counter)
  else Some name.

Fixpoint uniqueLoop (fuel : nat) (sanitized name : string) (counter : Z) (usedNames : gset string) : option string :=
  match fuel with
  | O => None
  | S fuel =>
      if bool_decide (name ∈ usedNames) then
        name ← numberedName sanitized counter; uniqueLoop fuel sanitized name (counter + 1) usedNames
      else Some name
  end.

(** Of the names tried, no more than there are used ones are used. *)
Definition uniquePortName (endpointName : string) (port : Z) (usedNames : gset string) : option string :=
  let sanitized := sanitizePortName endpointName in
  let sanitized := if bool_decide (sanitized = "") then "port-" +:+ Itoa port else sanitized in
  uniqueLoop (size usedNames + 2) sanitized sanitized 2 usedNames.

Record portState := mkPortState { psResult : list ServicePortEntry; psUsed : gset string; psSeen : gset (Z * string) }.

(** The key of the map of seen ports, [%d/%s], is the pair here. *)
Definition addServicePort (endpoints : gmap string EndpointData) (st : portState) (epName : string) : option portState :=
  match endpoints !! epName with
  | None => Some st
  | Some ep =>
      let port := edPort ep in
      let targetPort := if bool_decide (edTargetPort ep = 0%Z) then port else edTargetPort ep in
      let protocol := mapEndpointTypeToProtocol (edType ep) in
      if bool_decide ((port, protocol) ∈ psSeen st) then Some st
      else
        finalName ← uniquePortName epName port (psUsed st);
        Some (mkPortState (psResult st ++ [mkServicePort finalName port targetPort protocol])
                ({[finalName]} ∪ psUsed st) ({[(port, protocol)]} ∪ psSeen st))
  end.

Fixpoint addServicePorts (endpoints : gmap string EndpointData) (st : portState) (names : list string) : option portState :=
  match names with
  | [] => Some st
  | name :: names => st ← addServicePort endpoints st name; addServicePorts endpoints st names
  end.

Definition buildServicePorts (workload : WorkloadData) : option (list ServicePortEntry) :=
  psResult <$> addServicePorts (wdEndpoints workload) (mkPortState [] ∅ ∅) (sorted_keys (wdEndpoints workload)).

(** ** Gateways *)

(** The gateway data of templates has the fields of the gateway specs. *)
Definition mergeGatewayNetworkData (envNetwork dpNetwork : option GatewayNetworkSpec) : option GatewayNetworkSpec :=
  let external := match envNetwork ≫= gnExternal with Some e => Some e | None => dpNetwork ≫= gnExternal end in
  let internal := match envNetwork ≫= gnInternal with Some e => Some e | None => dpNetwork ≫= gnInternal end in
  match external, internal with
  | None, None => None
  | _, _ => Some (mkGatewayNetworkSpec external internal)
  end.

Definition mergeGatewayData (envGW dpGW : GatewaySpec) : option GatewaySpec :=
  let ingress := mergeGatewayNetworkData (gsIngress envGW) (gsIngress dpGW) in
  let egress := mergeGatewayNetworkData (gsEgress envGW) (gsEgress dpGW) in
  match ingress, egress with
  | None, None => None
  | _, _ => Some (mkGatewaySpec ingress egress)
  end.

(** * Resource dependencies

    [internal/pipeline/component/context/resourcedependency.go]: the environment
    variables, mounts and volumes that wire the outputs of a resource into a
    container. *)

(** [ResolvedResourceOutput]; a key reference is a name and a key. *)
Record ResolvedResourceOutput := mkOutput {
  roName : string;
  roValue : string;
  roSecret : option SecretKeyRef;
  roConfigMap : option SecretKeyRef
}.

Inductive EnvVarSource := FromSecret (ref : SecretKeyRef) | FromConfigMap (ref : SecretKeyRef).
Record EnvVarEntry := mkEnvVarEntry { eveName : string; eveValue : string; eveFrom : option EnvVarSource }.

Record ResourceDependencyItem := mkDependencyItem {
  rdiRef : string;
  rdiEnvVars : list EnvVarEntry;
  rdiVolumeMounts : list VolumeMountEntry;
  rdiVolumes : list VolumeEntry
}.

(** The two sentinel errors with the output they name. *)
Inductive bindingError := ErrOutputNotResolved (output : string) | ErrInvalidFileBinding (output : string).

Definition bindingErrorText (e : bindingError) : string :=
  match e with
  | ErrOutputNotResolved o => "output not resolved on resource release binding: " +:+ o
  | ErrInvalidFileBinding o => "output kind cannot be mounted as file: " +:+ o
  end.

Definition makeEnvVar (envVarName : string) (out : ResolvedResourceOutput) : EnvVarEntry :=
  match roSecret out, roConfigMap out with
  | Some ref, _ => mkEnvVarEntry envVarName "" (Some (FromSecret ref))
  | None, Some ref => mkEnvVarEntry envVarName "" (Some (FromConfigMap ref))
  | None, None => mkEnvVarEntry envVarName (roValue out) None
  end.

Definition resourceDepVolumeName (ref sourceKind sourceName : string) : string :=
  "r-" +:+ Sprintf_08x (fnv32a (ref +:+ ":" +:+ sourceKind +:+ ":" +:+ sourceName)).

(** [sortedKeys] *)
Definition sortedKeys (m : gmap string string) : list string := sorted_keys m.

Definition outputsByName (outputs : list ResolvedResourceOutput) : gmap string ResolvedResourceOutput := byKey roName outputs.

Fixpoint bindEnvs (dep : WorkloadResourceDependency) (byName : gmap string ResolvedResourceOutput) (names : list string)
    : list EnvVarEntry + bindingError :=
  match names with
  | [] => inl []
  | outputName :: names =>
      match byName !! outputName with
      | None => inr (ErrOutputNotResolved outputName)
      | Some out =>
          match bindEnvs dep byName names with
          | inl rest => inl (makeEnvVar (default "" (rdEnvBindings dep !! outputName)) out :: rest)
          | inr e => inr e
          end
      end
  end.

(** The source object of a mount: its kind and name. *)
Definition mountSource (out : ResolvedResourceOutput) : option (string * SecretKeyRef * (string → VolumeSource)) :=
  match roSecret out, roConfigMap out with
  | Some ref, _ => Some ("secret", ref, SecretVolume)
  | None, Some ref => Some ("configmap", ref, ConfigMapVolume)
  | None, None => None
  end.

Definition volumeKey : Type := string * string.

(** The loop over the file bindings: the mounts and the volumes made so far. *)
Fixpoint bindFiles (dep : WorkloadResourceDependency) (byName : gmap string ResolvedResourceOutput) (names : list string)
    (mounts : list VolumeMountEntry) (volumes : gmap volumeKey VolumeEntry)
    : (list VolumeMountEntry * gmap volumeKey VolumeEntry) + bindingError :=
  match names with
  | [] => inl (mounts, volumes)
  | outputName :: names =>
      let mountPath := default "" (rdFileBindings dep !! outputName) in
      match byName !! outputName with
      | None => inr (ErrOutputNotResolved outputName)
      | Some out =>
          match mountSource out with
          | None => inr (ErrInvalidFileBinding outputName)
          | Some (kind, ref, source) =>
              let key := (kind, sekName ref) in
              let volName := resourceDepVolumeName (rdRef dep) kind (sekName ref) in
              let volumes := match volumes !! key with
                             | Some _ => volumes
                             | None => <[key := mkVolume volName (source (sekName ref))]> volumes
                             end in
              bindFiles dep byName names (mounts ++ [mkVolumeMount volName mountPath (sekKey ref)]) volumes
          end
      end
  end.

(** By kind, then by name. *)
Definition volumeKey_le (k1 k2 : volumeKey) : Prop :=
  (k1.1 ≠ k2.1 ∧ String.le k1.1 k2.1) ∨ (k1.1 = k2.1 ∧ String.le k1.2 k2.2).

#[global] Instance volumeKey_le_dec : RelDecision volumeKey_le.
Proof. intros k1 k2. unfold volumeKey_le. apply _. Defined.

Definition BuildResourceDependencyItem (dep : WorkloadResourceDependency) (outputs : list ResolvedResourceOutput)
    : ResourceDependencyItem + bindingError :=
  let byName := outputsByName outputs in
  match bindEnvs dep byName (sortedKeys (rdEnvBindings dep)) with
  | inr e => inr e
  | inl envVars =>
      match bindFiles dep byName (sortedKeys (rdFileBindings dep)) [] ∅ with
      | inr e => inr e
      | inl (mounts, volumes) =>
          let volumeKeys := merge_sort volumeKey_le (map_to_list volumes).*1 in
          inl (mkDependencyItem (rdRef dep) envVars mounts (omap (λ k, volumes !! k) volumeKeys))
      end
  end.
