(* ===== verification/WorkloadContextSpec.v ===== *)
(** * The rendering context of a workload: theorems

    Overrides replace by key; the ports of a service have distinct names and
    cover the endpoints; and what the names of configuration objects are made
    of. *)

From S2P Require Import Prelude GoStrings PlaneObjects K8sNames NetworkPolicy WorkloadContext.

(** ** Overrides *)

Section Merge.
Context {A : Type} (key : A → string).

Lemma byKey_app l x : byKey key (l ++ [x]) = <[key x := x]> (byKey key l).
Proof. unfold byKey. by rewrite foldl_app. Qed.

Lemma byKey_None l k : byKey key l !! k = None ↔ k ∉ key <$> l.
Proof.
  induction l as [|x l IH] using rev_ind; [split; [intros _; apply not_elem_of_nil|done]|].
  rewrite byKey_app, fmap_app, elem_of_app, lookup_insert_None, IH. cbn. rewrite list_elem_of_singleton. naive_solver.
Qed.

Lemma byKey_Some l k x : byKey key l !! k = Some x → x ∈ l ∧ key x = k.
Proof.
  induction l as [|y l IH] using rev_ind; [done|]. rewrite byKey_app, elem_of_app, list_elem_of_singleton.
  intros [[<- <-]|[_ Hx]]%lookup_insert_Some; [auto|]. naive_solver.
Qed.

Lemma byKey_elem l x : NoDup (key <$> l) → x ∈ l → byKey key l !! key x = Some x.
Proof.
  intros Hnd Hx. destruct (byKey key l !! key x) as [y|] eqn:E.
  - apply byKey_Some in E as [Hy Hk]. f_equal.
    apply list_elem_of_lookup in Hx as [i Hi], Hy as [j Hj].
    assert (i = j) as ->; [|congruence].
    apply (NoDup_lookup (key <$> l) i j (key x)); [done|by rewrite list_lookup_fmap, Hi|].
    by rewrite list_lookup_fmap, Hj, <- Hk.
  - apply byKey_None in E. exfalso. apply E, list_elem_of_fmap. eauto.
Qed.

Lemma mergeLoop_spec base m :
  NoDup (key <$> base) →
  mergeLoop key base m =
  ((λ b, default b (m !! key b)) <$> base, filter (λ kv, kv.1 ∉ key <$> base) m).
Proof.
  revert m. induction base as [|b base IH]; intros m Hnd.
  - cbn. rewrite map_filter_id; [done|]. intros k x _ Hk. by apply not_elem_of_nil in Hk.
  - rewrite fmap_cons in Hnd. apply NoDup_cons in Hnd as [Hb Hnd]. cbn [mergeLoop].
    assert (∀ b', b' ∈ base → key b' ≠ key b) as Hne.
    { intros b' Hb' Heq. apply Hb. rewrite <- Heq. apply list_elem_of_fmap. eauto. }
    destruct (m !! key b) as [o|] eqn:Ho; rewrite IH by done; f_equal.
    + rewrite fmap_cons, Ho. f_equal. apply list_fmap_ext. intros i b' Hb'.
      rewrite lookup_delete_ne; [done|]. intros Heq. by apply (Hne b'); [eapply list_elem_of_lookup_2|].
    + apply map_eq. intros k. apply option_eq. intros x.
      rewrite !map_lookup_filter_Some, fmap_cons, not_elem_of_cons, lookup_delete_Some. cbn. naive_solver.
    + rewrite fmap_cons, Ho. done.
    + apply map_eq. intros k. apply option_eq. intros x.
      rewrite !map_lookup_filter_Some, fmap_cons, not_elem_of_cons. cbn. naive_solver congruence.
Qed.

Lemma filter_ext_elem (P Q : A → Prop) `{∀ x, Decision (P x), ∀ x, Decision (Q x)} (l : list A) :
  (∀ x, x ∈ l → P x ↔ Q x) → filter P l = filter Q l.
Proof.
  induction l as [|x l IH]; intros HPQ; [done|]. rewrite !filter_cons.
  rewrite IH by (intros; apply HPQ; by constructor).
  destruct (decide (P x)) as [Hp|Hp], (decide (Q x)) as [Hq|Hq]; try done; exfalso; naive_solver (by constructor).
Qed.

(** The base in its order with the overrides in their place, then the overrides of
    nothing. *)
Lemma mergeByKey_spec base over :
  NoDup (key <$> base) →
  mergeByKey key base over =
  ((λ b, default b (byKey key over !! key b)) <$> base) ++ filter (λ o, key o ∉ key <$> base) over.
Proof.
  intros Hnd. unfold mergeByKey. case_bool_decide as Hl.
  - apply nil_length_inv in Hl as ->. cbn. rewrite app_nil_r. symmetry. apply list_fmap_id.
  - rewrite mergeLoop_spec by done. f_equal. apply filter_ext_elem. intros o Ho. split.
    + intros [x Hx]. by apply map_lookup_filter_Some in Hx as [_ Hx].
    + intros Hk. destruct (byKey key over !! key o) as [x|] eqn:Hx.
      * exists x. by apply map_lookup_filter_Some.
      * apply byKey_None in Hx. exfalso. apply Hx, list_elem_of_fmap. eauto.
Qed.

Lemma byKey_union l1 l2 : byKey key (l1 ++ l2) = byKey key l2 ∪ byKey key l1.
Proof.
  induction l2 as [|x l2 IH] using rev_ind; [rewrite app_nil_r; symmetry; apply map_empty_union|].
  by rewrite app_assoc, !byKey_app, IH, insert_union_l.
Qed.

Lemma byKey_filter (P : A → Prop) `{∀ x, Decision (P x)} (l : list A) k :
  (∀ x, key x = k → P x) → byKey key (filter P l) !! k = byKey key l !! k.
Proof.
  intros HP. induction l as [|x l IH] using rev_ind; [done|]. rewrite filter_app, byKey_app.
  rewrite filter_cons, filter_nil. destruct (decide (P x)) as [Hp|Hp].
  - rewrite byKey_app. destruct (decide (key x = k)) as [<-|Hne]; [by rewrite !lookup_insert_eq|by rewrite !lookup_insert_ne].
  - rewrite app_nil_r, IH. rewrite lookup_insert_ne; [done|]. naive_solver.
Qed.

(** What a key is bound to after the merge, the last binding of a list counting:
    the override, or else the base. *)
Lemma mergeByKey_binds base over :
  NoDup (key <$> base) → byKey key (mergeByKey key base over) = byKey key over ∪ byKey key base.
Proof.
  intros Hnd. rewrite mergeByKey_spec by done. rewrite byKey_union. apply map_eq. intros k.
  set (placed := (λ b, default b (byKey key over !! key b)) <$> base).
  assert (key <$> placed = key <$> base) as Hkeys.
  { unfold placed. rewrite <- list_fmap_compose. apply list_fmap_ext. intros i b _. cbn.
    destruct (byKey key over !! key b) as [o|] eqn:Ho; [|done]. apply byKey_Some in Ho as [_ Ho]. exact Ho. }
  destruct (decide (k ∈ key <$> base)) as [Hk|Hk].
  - assert (byKey key (filter (λ o, key o ∉ key <$> base) over) !! k = None) as Hn.
    { apply byKey_None. intros (o & -> & [Ho _]%list_elem_of_filter)%list_elem_of_fmap. done. }
    rewrite lookup_union_r by done. apply list_elem_of_fmap in Hk as (b & -> & Hb).
    assert (default b (byKey key over !! key b) ∈ placed) as Hin by (apply list_elem_of_fmap; eauto).
    apply byKey_elem in Hin; [|by rewrite Hkeys].
    destruct (byKey key over !! key b) as [o|] eqn:Ho.
    + cbn in Hin. pose proof (byKey_Some _ _ _ Ho) as [_ Hko]. rewrite Hko in Hin.
      rewrite Hin. symmetry. by apply lookup_union_Some_l.
    + cbn in Hin. rewrite Hin. rewrite lookup_union_r by done. symmetry. by apply byKey_elem.
  - assert (byKey key base !! k = None) as Hb by by apply byKey_None.
    assert (byKey key placed !! k = None) as Hp by (apply byKey_None; by rewrite Hkeys).
    rewrite !lookup_union_l by done. apply byKey_filter. by intros x ->.
Qed.
End Merge.

(** ** Numbers in names *)

Lemma pretty_N_go_length k x s :
  (x < 10 ^ N.of_nat k)%N → String.length (pretty_N_go x s) ≤ k + String.length s.
Proof.
  revert x s. induction k as [|k IH]; intros x s Hx.
  - assert (x = 0%N) as -> by lia. by rewrite pretty_N_go_0.
  - destruct (decide (x = 0%N)) as [->|Hne]; [rewrite pretty_N_go_0; lia|].
    rewrite pretty_N_go_step by lia. etrans; [apply IH|cbn; lia].
    apply N.Div0.div_lt_upper_bound. rewrite Nat2N.inj_succ, N.pow_succ_r' in Hx. lia.
Qed.

Lemma Itoa_length k z : (0 ≤ z < 10 ^ Z.of_nat (S k))%Z → String.length (Itoa z) ≤ S k.
Proof.
  intros Hz. unfold Itoa. assert (pretty z = pretty (Z.to_N z)) as -> by (destruct z; [done|done|lia]).
  unfold pretty, pretty_N. destruct (decide (Z.to_N z = 0%N)) as [_|Hne]; [cbn; lia|].
  etrans; [apply (pretty_N_go_length (S k))|cbn; lia].
  apply N2Z.inj_lt. rewrite Z2N.id by lia. rewrite N2Z.inj_pow, nat_N_Z. cbn [Z.of_N]. lia.
Qed.

Lemma Itoa_no_dash z : (0 ≤ z)%Z → has_byte "-" (Itoa z) = false.
Proof. intros Hz. rewrite <- (Z2Nat.id z Hz). by apply Itoa_nat_bytes. Qed.

Lemma Itoa_digits z : (0 ≤ z)%Z → all_bytes IsNumber (Itoa z) = true ∧ Itoa z ≠ "".
Proof.
  intros Hz. split.
  - assert (∀ c, IsNumber c = false → has_byte c (Itoa z) = false) as Hno.
    { intros c Hc. rewrite <- (Z2Nat.id z Hz). apply Itoa_nat_bytes. revert Hc. byte_cases c. }
    revert Hno. generalize (Itoa z). induction s as [|c s IH]; intros Hno; [done|]. cbn [all_bytes].
    rewrite IH, andb_true_r.
    + destruct (IsNumber c) eqn:Hc; [done|]. specialize (Hno c Hc). cbn in Hno. by rewrite bool_decide_eq_true_2 in Hno.
    + intros d Hd. specialize (Hno d Hd). cbn [has_byte] in Hno. by apply orb_false_iff in Hno as [_ ?].
  - unfold Itoa. assert (pretty z = pretty (Z.to_N z)) as -> by (destruct z; [done|done|lia]).
    destruct (pretty_N_head (Z.to_N z)) as (c & t & -> & _). done.
Qed.

(** The part after the last separator. *)
Lemma last_sep c u v s t :
  has_byte c s = false → has_byte c t = false → u +:+ String c s = v +:+ String c t → s = t.
Proof.
  intros Hs Ht. revert v. induction u as [|d u IH]; intros [|e v]; rewrite ?sapp_nil_l, ?sapp_cons; intros [= Heq].
  - done.
  - subst. rewrite has_byte_app in Hs. cbn in Hs. rewrite bool_decide_eq_true_2 in Hs by done. by rewrite orb_true_r in Hs.
  - subst. rewrite has_byte_app in Ht. cbn in Ht. rewrite bool_decide_eq_true_2 in Ht by done. by rewrite orb_true_r in Ht.
  - eauto.
Qed.

(** ** Port names *)

Lemma TrimLeftByte_Func c s : TrimLeftByte c s = TrimLeftFunc (λ d, bool_decide (c = d)) s.
Proof. induction s as [|d s IH]; [done|]. cbn. by rewrite IH. Qed.

Lemma TrimRightByte_Func c s : TrimRightByte c s = TrimRightFunc (λ d, bool_decide (c = d)) s.
Proof. induction s as [|d s IH]; [done|]. cbn. by rewrite IH. Qed.

Lemma TrimRightFunc_last f s t c : TrimRightFunc f s = t +:+ String c "" → f c = false.
Proof.
  revert t. induction s as [|d s IH]; intros t; cbn; [by destruct t|].
  destruct (TrimRightFunc f s) as [|e r] eqn:Hr.
  - destruct (f d) eqn:Hd; [by destruct t|]. destruct t as [|e t]; [by intros [= <-]|].
    rewrite sapp_cons. intros [= _ Ht]. by destruct t.
  - destruct t as [|e' t]; rewrite ?sapp_nil_l, ?sapp_cons; intros [= _ Ht]. rewrite Ht in IH. eauto.
Qed.

Lemma TrimRightFunc_head f s c t : TrimRightFunc f s = String c t → ∃ t', s = String c t'.
Proof. destruct (TrimRightFunc_prefix f s) as (p & Heq & _). intros Hs. rewrite Hs, sapp_cons in Heq. eauto. Qed.

Lemma TrimRightFunc_length f s : String.length (TrimRightFunc f s) ≤ String.length s.
Proof. destruct (TrimRightFunc_prefix f s) as (p & Heq & _). rewrite Heq at 2. rewrite sapp_length. lia. Qed.

Lemma filter_bytes_all f s : all_bytes f (filter_bytes f s) = true.
Proof. induction s as [|c s IH]; [done|]. cbn. destruct (f c) eqn:Hc; [|done]. cbn. by rewrite Hc. Qed.

Lemma label_no_dash c : dns_label_byte c = true → bool_decide ("-"%char = c) = false → alnum c = true.
Proof. byte_cases c. Qed.

(** A string of label bytes trimmed on the right, whose first byte is a letter or a
    digit, is a label. *)
Lemma trimmed_label s :
  all_bytes dns_label_byte s = true → (∀ c t, s = String c t → alnum c = true) → TrimRightByte "-" s ≠ "" →
  clean (TrimRightByte "-" s).
Proof.
  rewrite TrimRightByte_Func. intros Hb Hh Hne.
  assert (all_bytes dns_label_byte (TrimRightFunc (λ d, bool_decide ("-"%char = d)) s) = true) as Hb'
    by by apply all_bytes_TrimRightFunc.
  split; [done|]. split.
  - destruct (TrimRightFunc _ s) as [|c t] eqn:Ht; [done|]. exists c, t. split; [done|].
    apply TrimRightFunc_head in Ht as [t' ->]. eauto.
  - apply snoc_string in Hne as (t & c & Ht). exists t, c. split; [done|].
    apply label_no_dash; [|exact (TrimRightFunc_last _ _ _ _ Ht)].
    rewrite Ht, all_bytes_app in Hb'. apply andb_true_iff in Hb' as [_ Hc]. cbn in Hc. by rewrite andb_true_r in Hc.
Qed.

Lemma stake_head n s c t : stake n s = String c t → ∃ t', s = String c t'.
Proof. destruct n, s; cbn; try done. intros [= -> _]. eauto. Qed.

Lemma stake_length_le n s : String.length (stake n s) ≤ n.
Proof. revert s. induction n as [|n IH]; intros [|c s]; cbn; [lia..|]. specialize (IH s). lia. Qed.

Lemma sanitizePortName_label name :
  sanitizePortName name ≠ "" → clean (sanitizePortName name) ∧ String.length (sanitizePortName name) ≤ 15.
Proof.
  unfold sanitizePortName. cbn zeta. set (f := filter_bytes isPortChar _).
  assert (all_bytes dns_label_byte f = true) as Hf by apply filter_bytes_all.
  set (l := TrimLeftByte "-" f).
  assert (all_bytes dns_label_byte l = true) as Hl.
  { unfold l. rewrite TrimLeftByte_Func. by apply all_bytes_TrimLeftFunc. }
  assert (∀ c t, l = String c t → alnum c = true) as Hh.
  { intros c t Hc. apply label_no_dash.
    - rewrite Hc in Hl. by apply andb_true_iff in Hl as [? _].
    - unfold l in Hc. rewrite TrimLeftByte_Func in Hc. exact (TrimLeftFunc_head _ _ _ _ Hc). }
  change (TrimByte "-" f) with (TrimRightByte "-" l).
  set (r := TrimRightByte "-" l).
  assert (all_bytes dns_label_byte r = true) as Hr.
  { unfold r. rewrite TrimRightByte_Func. by apply all_bytes_TrimRightFunc. }
  destruct (15 <? String.length r) eqn:Hlen.
  - intros Hne. split.
    + apply trimmed_label; [by apply all_bytes_stake| |done].
      intros c t Hc. apply stake_head in Hc as [t' Hc]. unfold r in Hc. rewrite TrimRightByte_Func in Hc.
      apply TrimRightFunc_head in Hc as [t'' Hc]. eauto.
    + rewrite TrimRightByte_Func. etrans; [apply TrimRightFunc_length|apply stake_length_le].
  - intros Hne. split; [by apply trimmed_label|]. apply Nat.ltb_ge in Hlen. done.
Qed.

(** A label, a separator and a number. *)
Lemma numbered_label base z :
  all_bytes dns_label_byte base = true → (∀ c t, base = String c t → alnum c = true) → base ≠ "" → (0 ≤ z)%Z →
  clean (base +:+ "-" +:+ Itoa z).
Proof.
  intros Hb Hh Hne Hz. destruct (Itoa_digits z Hz) as [Hd Hn].
  assert (all_bytes dns_label_byte (Itoa z) = true) as Hd'.
  { apply (all_bytes_impl IsNumber); [|done]. intros c. byte_cases c. }
  split; [by rewrite !all_bytes_app, Hb, Hd'|]. split.
  - destruct base as [|c t]; [done|]. exists c, (t +:+ "-" +:+ Itoa z). rewrite sapp_cons. eauto.
  - apply snoc_string in Hn as (t & c & Ht). exists (base +:+ "-" +:+ t), c. rewrite Ht, !sapp_assoc. split; [done|].
    rewrite Ht, all_bytes_app in Hd. apply andb_true_iff in Hd as [_ Hc]. cbn in Hc. rewrite andb_true_r in Hc.
    revert Hc. byte_cases c.
Qed.

(** ** The search for a free name *)

(** What is tried with a counter ends in the counter, is a label, and fits while
    the counter has at most thirteen digits. *)
Lemma numberedName_spec s c :
  clean s → (0 ≤ c < 10 ^ 13)%Z →
  ∃ base, numberedName s c = Some (base +:+ String "-" (Itoa c)) ∧
    clean (base +:+ "-" +:+ Itoa c) ∧ String.length (base +:+ "-" +:+ Itoa c) ≤ 15.
Proof.
  intros Hs Hc. pose proof (Itoa_length 12 c ltac:(lia)) as Hlen. unfold numberedName. cbn zeta.
  destruct Hs as (Hb & (d & t & Hdt & Hd) & Hlast).
  rewrite !sapp_length. change (String.length "-") with 1%nat.
  destruct (15 <? _) eqn:H15.
  - apply Nat.ltb_lt in H15. rewrite (proj2 (Z.ltb_lt _ _)) by lia.
    rewrite slice_to_in by lia. cbn [mbind option_bind].
    set (n := Z.to_nat _). assert (1 ≤ n < 15 ∧ n + 1 + String.length (Itoa c) = 15) as [Hn Hsum] by lia.
    assert (String.length (stake n s) = n) as Hsn by (apply stake_length; lia).
    exists (stake n s). split; [done|]. split; [|rewrite !sapp_length, Hsn; change (String.length "-") with 1%nat; lia].
    apply numbered_label; [by apply all_bytes_stake| | |lia].
    + intros c' t' Ht'. apply stake_head in Ht' as [t'' Ht'']. congruence.
    + intros He. rewrite He in Hsn. cbn in Hsn. lia.
  - apply Nat.ltb_ge in H15. exists s. split; [done|]. split.
    + apply numbered_label; [done| | |lia]; [intros c' t' Ht'; congruence|by rewrite Hdt].
    + rewrite !sapp_length. change (String.length "-") with 1%nat. lia.
Qed.

Lemma numberedName_inj s c1 c2 n :
  clean s → (0 ≤ c1 < 10 ^ 13)%Z → (0 ≤ c2 < 10 ^ 13)%Z →
  numberedName s c1 = Some n → numberedName s c2 = Some n → c1 = c2.
Proof.
  intros Hs H1 H2 E1 E2.
  destruct (numberedName_spec s c1 Hs H1) as (b1 & F1 & _), (numberedName_spec s c2 Hs H2) as (b2 & F2 & _).
  rewrite F1 in E1. rewrite F2 in E2. injection E1 as E1. injection E2 as E2. rewrite <- E2 in E1.
  apply last_sep in E1; [|apply Itoa_no_dash; lia..]. by apply (inj pretty) in E1.
Qed.

(** The loop ends: every name tried is another one, and the used ones run out. *)
Lemma uniqueLoop_counters s (used : gset string) :
  clean s → ∀ fuel k name (U : gset string),
  (0 ≤ k)%Z → (k + Z.of_nat fuel ≤ 10 ^ 13)%Z → numberedName s k = Some name →
  (∀ c x, (k ≤ c < 10 ^ 13)%Z → numberedName s c = Some x → x ∈ used → x ∈ U) → size U < fuel →
  ∃ c r, uniqueLoop fuel s name (k + 1)%Z used = Some r ∧ (r ∉ used) ∧ (0 ≤ c < 10 ^ 13)%Z ∧ numberedName s c = Some r.
Proof.
  intros Hs. induction fuel as [|fuel IH]; intros k name U Hk Hbound Hname HU Hsize; [lia|].
  cbn [uniqueLoop]. case_bool_decide as Hin; [|exists k, name; repeat split; try done; try lia].
  destruct (decide (fuel = 0)) as [->|Hf].
  { assert (name ∈ U) as HinU by (apply (HU k); [lia|done..]).
    assert (U ≡ ∅) as HU0 by (apply size_empty_inv; lia). set_solver. }
  destruct (numberedName_spec s (k + 1) Hs) as (b & Hb & _); [lia|]. rewrite Hb. cbn [mbind option_bind].
  apply (IH (k + 1)%Z _ (U ∖ {[name]})); [lia|lia|done| |].
  - intros c x Hc Hx Hu. apply elem_of_difference. split; [apply (HU c); [lia|done..]|].
    rewrite elem_of_singleton. intros ->.
    pose proof (numberedName_inj s c k name Hs ltac:(lia) ltac:(lia) Hx Hname). lia.
  - assert (name ∈ U) as HinU by (apply (HU k); [lia|done..]).
    rewrite size_difference by set_solver. rewrite size_singleton. lia.
Qed.

Definition port_name (n : string) : Prop := clean n ∧ String.length n ≤ 15.

Lemma port_label port :
  (0 ≤ port < 2 ^ 31)%Z → port_name ("port-" +:+ Itoa port).
Proof.
  intros Hp. split.
  - change ("port-" +:+ Itoa port) with ("port" +:+ "-" +:+ Itoa port). apply numbered_label; [done| |done|lia].
    intros c t [= <- _]. done.
  - rewrite sapp_length. pose proof (Itoa_length 9 port ltac:(lia)). change (String.length "port-") with 5%nat. lia.
Qed.

Lemma uniquePortName_spec name port used :
  (0 ≤ port < 2 ^ 31)%Z → (Z.of_nat (size used) < 10 ^ 12)%Z →
  ∃ n, uniquePortName name port used = Some n ∧ (n ∉ used) ∧ port_name n.
Proof.
  intros Hp Hu. unfold uniquePortName. cbn zeta.
  set (s := if bool_decide (sanitizePortName name = "") then _ else _).
  assert (port_name s) as [Hs Hlen].
  { unfold s. case_bool_decide as He; [by apply port_label|]. by apply sanitizePortName_label. }
  replace (size used + 2) with (S (size used + 1)) by lia. cbn [uniqueLoop].
  case_bool_decide as Hin; [|by exists s].
  destruct (numberedName_spec s 2 Hs) as (b & Hb & _); [lia|]. rewrite Hb. cbn [mbind option_bind].
  destruct (uniqueLoop_counters s used Hs (size used + 1) 2 (b +:+ String "-" (Itoa 2)) used)
    as (c & r & Hr & Hnin & Hc & Hrc); [lia|lia|done|done|lia|].
  exists r. split; [exact Hr|]. split; [done|].
  destruct (numberedName_spec s c Hs Hc) as (b' & Hb' & Hlab & Hl). rewrite Hb' in Hrc. injection Hrc as <-. done.
Qed.

(** ** The ports of a service *)

Definition keyOf (ep : EndpointData) : Z * string := (edPort ep, mapEndpointTypeToProtocol (edType ep)).
Definition portKey (p : ServicePortEntry) : Z * string := (spPort p, spProtocol p).

Definition targetOf (ep : EndpointData) : Z := if bool_decide (edTargetPort ep = 0%Z) then edPort ep else edTargetPort ep.

(** Names and keys recorded so far are those of the result, without repetition,
    and every entry comes from an endpoint. *)
Definition ports_inv (endpoints : gmap string EndpointData) (st : portState) : Prop :=
  psUsed st = list_to_set (spName <$> psResult st) ∧ psSeen st = list_to_set (portKey <$> psResult st) ∧
  NoDup (spName <$> psResult st) ∧ NoDup (portKey <$> psResult st) ∧
  Forall (λ p, port_name (spName p)) (psResult st) ∧
  Forall (λ p, ∃ n ep, endpoints !! n = Some ep ∧ portKey p = keyOf ep ∧ spTargetPort p = targetOf ep) (psResult st).

Lemma addServicePort_inv endpoints st name ep :
  (∀ n e, endpoints !! n = Some e → (0 ≤ edPort e < 2 ^ 31)%Z) →
  (Z.of_nat (length (psResult st)) < 10 ^ 12)%Z →
  ports_inv endpoints st → endpoints !! name = Some ep →
  ∃ st', addServicePort endpoints st name = Some st' ∧ ports_inv endpoints st' ∧
    length (psResult st') ≤ S (length (psResult st)) ∧ psSeen st ⊆ psSeen st' ∧ keyOf ep ∈ psSeen st'.
Proof.
  intros Hports Hlen (HU & HS & Hnd1 & Hnd2 & Hlab & Hfrom) Hep. unfold addServicePort. rewrite Hep. cbn zeta.
  fold (targetOf ep). change (edPort ep, mapEndpointTypeToProtocol (edType ep)) with (keyOf ep).
  case_bool_decide as Hseen; [exists st; repeat split; auto|].
  destruct (uniquePortName_spec name (edPort ep) (psUsed st)) as (n & -> & Hn & Hpn); [eauto| |].
  { rewrite HU. rewrite size_list_to_set by done. by rewrite length_fmap. }
  cbn [mbind option_bind]. eexists; split; [done|]. cbn [psResult psUsed psSeen].
  rewrite HU, HS in *. split; [|split; [rewrite length_app; cbn; lia|set_solver]].
  unfold ports_inv. cbn [psResult psUsed psSeen].
  rewrite !fmap_app, !list_to_set_app_L. cbn [fmap list_fmap list_to_set spName portKey spPort spProtocol].
  change (portKey (mkServicePort n (edPort ep) (targetOf ep) (mapEndpointTypeToProtocol (edType ep)))) with (keyOf ep).
  split; [set_solver|]. split; [set_solver|].
  split; [apply NoDup_app; split; [done|]; split; [set_solver|apply NoDup_singleton]|].
  split; [apply NoDup_app; split; [done|]; split; [set_solver|apply NoDup_singleton]|].
  split; apply Forall_app; split; try done; apply Forall_singleton; cbn; [done|]. exists name, ep. done.
Qed.

Lemma addServicePorts_inv endpoints names st :
  (∀ n e, endpoints !! n = Some e → (0 ≤ edPort e < 2 ^ 31)%Z) → (∀ n, n ∈ names → is_Some (endpoints !! n)) →
  (Z.of_nat (length (psResult st) + length names) ≤ 10 ^ 12)%Z → ports_inv endpoints st →
  ∃ st', addServicePorts endpoints st names = Some st' ∧ ports_inv endpoints st' ∧ psSeen st ⊆ psSeen st' ∧
    ∀ n ep, n ∈ names → endpoints !! n = Some ep → keyOf ep ∈ psSeen st'.
Proof.
  intros Hports. revert st. induction names as [|name names IH]; intros st Hnames Hlen Hinv.
  - exists st. repeat split; auto; try apply Hinv. intros n ep Hn. by apply not_elem_of_nil in Hn.
  - cbn [addServicePorts length] in *. destruct (Hnames name) as [ep Hep]; [by constructor|].
    destruct (addServicePort_inv endpoints st name ep Hports) as (st1 & -> & Hinv1 & Hl1 & Hsub1 & Hkey1); [lia|done..|].
    cbn [mbind option_bind]. destruct (IH st1) as (st2 & -> & Hinv2 & Hsub2 & Hall); [|lia|done|].
    { intros n Hn. apply Hnames. by constructor. }
    exists st2. split; [done|]. split; [done|]. split; [set_solver|].
    intros n ep' Hn Hep'. apply elem_of_cons in Hn as [->|Hn]; [|eauto].
    rewrite Hep in Hep'. injection Hep' as <-. set_solver.
Qed.

(** C40: the ports of a workload's service are there (the search for a free name
    ends, and nothing is sliced out of range), have pairwise distinct names of at
    most fifteen bytes that are DNS labels, are pairwise distinct as port and
    protocol, and cover the endpoints exactly: every port comes from an endpoint
    and forwards to its target port, and every endpoint has its port and
    protocol served. *)
Theorem service_ports_wellformed (workload : WorkloadData) :
  (∀ n ep, wdEndpoints workload !! n = Some ep → (0 ≤ edPort ep < 2 ^ 31)%Z) →
  (Z.of_nat (size (wdEndpoints workload)) ≤ 10 ^ 12)%Z →
  ∃ ports, buildServicePorts workload = Some ports ∧
    NoDup (spName <$> ports) ∧ NoDup (portKey <$> ports) ∧
    Forall (λ p, clean (spName p) ∧ String.length (spName p) ≤ 15) ports ∧
    (∀ p, p ∈ ports → ∃ n ep, wdEndpoints workload !! n = Some ep ∧ portKey p = keyOf ep ∧ spTargetPort p = targetOf ep) ∧
    (∀ n ep, wdEndpoints workload !! n = Some ep → ∃ p, p ∈ ports ∧ portKey p = keyOf ep).
Proof.
  intros Hports Hsize. unfold buildServicePorts.
  destruct (addServicePorts_inv (wdEndpoints workload) (sorted_keys (wdEndpoints workload)) (mkPortState [] ∅ ∅))
    as (st & -> & (HU & HS & Hnd1 & Hnd2 & Hlab & Hfrom) & _ & Hall); [done| | | |].
  - intros n Hn. by apply elem_of_sorted_keys.
  - cbn. unfold sorted_keys. rewrite sort_Strings_perm, length_fmap, length_map_to_list. done.
  - repeat split; by constructor.
  - exists (psResult st). split; [done|]. do 2 (split; [done|]). split; [done|]. split.
    + intros p Hp. rewrite Forall_forall in Hfrom. auto.
    + intros n ep Hep. assert (keyOf ep ∈ psSeen st) as Hk.
      { apply (Hall n); [|done]. by apply elem_of_sorted_keys. }
      rewrite HS in Hk. apply elem_of_list_to_set, list_elem_of_fmap in Hk as (p & Hkp & Hp). eauto.
Qed.

(** ** Overrides and names *)

(** The overrides of a release binding win: in the merged container a key of
    an environment variable, or of a file, is bound to its override when there is
    one and to what the workload says otherwise, and nothing else of the workload
    changes. *)
Theorem overrides_win (base : WorkloadTemplateSpec) (o : ContainerOverride) :
  let c := wlContainer base in
  NoDup (evKey <$> ctEnv c) → NoDup (fvKey <$> ctFiles c) →
  let merged := MergeWorkloadOverrides base (Some o) in
  let c' := wlContainer merged in
  byKey evKey (ctEnv c') = byKey evKey (coEnv o) ∪ byKey evKey (ctEnv c) ∧
  byKey fvKey (ctFiles c') = byKey fvKey (coFiles o) ∪ byKey fvKey (ctFiles c) ∧
  (ctImage c', ctCommand c', ctArgs c') = (ctImage c, ctCommand c, ctArgs c) ∧
  wlEndpoints merged = wlEndpoints base ∧ wlDependencies merged = wlDependencies base.
Proof.
  cbn. intros He Hf. split; [by apply mergeByKey_binds|]. split; [by apply mergeByKey_binds|]. done.
Qed.

(** Two files of a container whose names differ only in dots and hyphens get
    the same ConfigMap: the dots are replaced before the name is hashed, so that
    the hash that should keep the names apart does not see the difference. *)
Theorem config_files_collide :
  (∀ prefix f g, ReplaceAll f "." "-" = ReplaceAll g "." "-" →
     generateConfigResourceName prefix f = generateConfigResourceName prefix g) ∧
  ∃ cc prefix e1 e2, buildConfigFileList cc prefix = Some [e1; e2] ∧
    cfName e1 ≠ cfName e2 ∧ cfValue e1 ≠ cfValue e2 ∧ cfResourceName e1 = cfResourceName e2.
Proof.
  split; [by intros prefix f g Hfg; unfold generateConfigResourceName; rewrite Hfg|].
  exists (mkConfigurations (mkItems [] [mkFileConfig "app.yaml" "/etc/a" "a: 1" None; mkFileConfig "app-yaml" "/etc/b" "b: 2" None])
            (mkItems [] [])), "web-dev".
  do 2 eexists. split; [vm_compute; reflexivity|]. cbn. repeat split; discriminate.
Qed.

(** ** Witnesses *)

Definition demoWorkload : WorkloadData :=
  mkWorkloadData "img" [] [] {["My_HTTP_Endpoint" := mkEndpointData "" 8080 8080 "HTTP" "" ["project"];
                               "my-http-endpoint" := mkEndpointData "" 9090 0 "gRPC" "" ["project"]]}.

Lemma service_ports_wellformed_witness :
  ∃ ports, buildServicePorts demoWorkload = Some ports ∧ NoDup (spName <$> ports).
Proof.
  destruct (service_ports_wellformed demoWorkload) as (ports & Hb & Hnd & _).
  - intros n ep Hep. unfold demoWorkload in Hep. cbn [wdEndpoints] in Hep.
    apply lookup_insert_Some in Hep as [[_ <-]|[_ Hep]]; [|apply lookup_singleton_Some in Hep as [_ <-]]; cbn [edPort]; lia.
  - apply Z.leb_le. vm_compute. reflexivity.
  - exists ports. split; [exact Hb|exact Hnd].
Defined.

Lemma overrides_win_witness :
  byKey evKey (ctEnv (wlContainer (MergeWorkloadOverrides
    (mkWorkloadSpec (mkContainer "img" [] [] [mkEnvVar "A" "1" None; mkEnvVar "B" "2" None] []) ∅ None)
    (Some (mkContainerOverride [mkEnvVar "B" "3" None] []))))) !! "B" = Some (mkEnvVar "B" "3" None).
Proof.
  destruct (overrides_win (mkWorkloadSpec (mkContainer "img" [] [] [mkEnvVar "A" "1" None; mkEnvVar "B" "2" None] []) ∅ None)
              (mkContainerOverride [mkEnvVar "B" "3" None] [])) as [He _].
  - cbn. apply NoDup_cons. split; [|apply NoDup_singleton]. rewrite list_elem_of_singleton. discriminate.
  - constructor.
  - rewrite He. reflexivity.
Defined.

(** * Resource dependencies: theorems *)

Section Dependency.
Context (dep : WorkloadResourceDependency) (byName : gmap string ResolvedResourceOutput).

Lemma bindEnvs_spec names :
  match bindEnvs dep byName names with
  | inl vars => ∃ outs, mapM (λ n, byName !! n) names = Some outs ∧
      vars = zip_with (λ n out, makeEnvVar (default "" (rdEnvBindings dep !! n)) out) names outs
  | inr (ErrOutputNotResolved o) => o ∈ names ∧ byName !! o = None
  | inr (ErrInvalidFileBinding _) => False
  end.
Proof.
  induction names as [|n names IH]; cbn [bindEnvs]; [by exists []|].
  destruct (byName !! n) as [out|] eqn:Hn; [|split; [by constructor|done]].
  destruct (bindEnvs dep byName names) as [vars|[o|o]].
  - destruct IH as (outs & Hm & ->). exists (out :: outs). cbn. by rewrite Hn, Hm.
  - destruct IH as [Ho Hnone]. split; [by constructor|done].
  - done.
Qed.

(** The volume of a source, and a mount of an output bound to a path. *)
Definition volumeOf (k : volumeKey) (source : string → VolumeSource) : VolumeEntry :=
  mkVolume (resourceDepVolumeName (rdRef dep) k.1 k.2) (source k.2).

Definition mountsOutput (volumes : gmap volumeKey VolumeEntry) (m : VolumeMountEntry) (o : string) : Prop :=
  ∃ out kind ref source, byName !! o = Some out ∧ mountSource out = Some (kind, ref, source) ∧
    vmMountPath m = default "" (rdFileBindings dep !! o) ∧ vmSubPath m = sekKey ref ∧
    vmName m = resourceDepVolumeName (rdRef dep) kind (sekName ref) ∧
    volumes !! (kind, sekName ref) = Some (volumeOf (kind, sekName ref) source).

Definition volumes_ok (volumes : gmap volumeKey VolumeEntry) : Prop :=
  ∀ k v, volumes !! k = Some v →
    ∃ out ref source, mountSource out = Some (k.1, ref, source) ∧ v = volumeOf k source.

Lemma source_of_kind out1 out2 kind ref1 ref2 s1 s2 :
  mountSource out1 = Some (kind, ref1, s1) → mountSource out2 = Some (kind, ref2, s2) → s1 = s2.
Proof.
  unfold mountSource. destruct (roSecret out1), (roSecret out2), (roConfigMap out1), (roConfigMap out2); naive_solver.
Qed.

Lemma bindFiles_spec names mounts volumes :
  volumes_ok volumes →
  match bindFiles dep byName names mounts volumes with
  | inl (ms, vs) => volumes_ok vs ∧ volumes ⊆ vs ∧
      ∃ new, ms = mounts ++ new ∧ Forall2 (mountsOutput vs) new names
  | inr (ErrOutputNotResolved o) => o ∈ names ∧ byName !! o = None
  | inr (ErrInvalidFileBinding o) => o ∈ names ∧ ∃ out, byName !! o = Some out ∧ mountSource out = None
  end.
Proof.
  revert mounts volumes. induction names as [|n names IH]; intros mounts volumes Hok; cbn [bindFiles].
  - split; [done|]. split; [done|]. exists []. by rewrite app_nil_r.
  - destruct (byName !! n) as [out|] eqn:Hn; [|split; [by constructor|done]].
    destruct (mountSource out) as [[[kind ref] source]|] eqn:Hsrc; [|split; [by constructor|eauto]].
    set (key := (kind, sekName ref)).
    set (vs' := match volumes !! key with Some _ => volumes | None => _ end).
    assert (volumes_ok vs' ∧ volumes ⊆ vs' ∧ vs' !! key = Some (volumeOf key source)) as (Hok' & Hsub & Hkey).
    { unfold vs'. destruct (volumes !! key) as [v|] eqn:Hv.
      - split; [done|]. split; [done|]. destruct (Hok key v Hv) as (out' & ref' & source' & Hs' & ->).
        rewrite Hv. by rewrite (source_of_kind _ _ _ _ _ _ _ Hsrc Hs').
      - split; [|split; [by apply insert_subseteq|by rewrite lookup_insert_eq]].
        intros k v [[<- <-]|[_ Hk]]%lookup_insert_Some; [by exists out, ref, source|by apply Hok]. }
    set (m := mkVolumeMount _ _ _). specialize (IH (mounts ++ [m]) vs' Hok').
    destruct (bindFiles dep byName names (mounts ++ [m]) vs') as [[ms vs]|[o|o]].
    + destruct IH as (Hok2 & Hsub2 & new & -> & Hnew). split; [done|]. split; [by etrans|].
      exists (m :: new). split; [by rewrite <- app_assoc|]. constructor; [|done].
      exists out, kind, ref, source. repeat split; try done. by eapply lookup_weaken.
    + destruct IH as [Ho Hnone]. split; [by constructor|done].
    + destruct IH as [Ho Hnone]. split; [by constructor|done].
Qed.
End Dependency.

Lemma omap_lookup_elem (vs : gmap volumeKey VolumeEntry) v :
  v ∈ omap (λ k, vs !! k) (merge_sort volumeKey_le (map_to_list vs).*1) ↔ ∃ k, vs !! k = Some v.
Proof.
  rewrite list_elem_of_omap. split.
  - intros (k & _ & Hk). eauto.
  - intros [k Hk]. exists k. split; [|done]. rewrite merge_sort_Permutation. apply list_elem_of_fmap.
    exists (k, v). split; [done|]. by apply elem_of_map_to_list.
Qed.

(** The item of a resource dependency is complete or is not there: it is built
    exactly when every bound output is resolved and every mounted one is a secret
    or a configuration key, and otherwise the error names an output that is to
    blame.  A built item binds every declared environment variable to its output,
    and mounts every declared path from a volume that it declares, of the object
    the output lives in. *)
Theorem dependency_item_complete (dep : WorkloadResourceDependency) (outputs : list ResolvedResourceOutput) :
  let byName := outputsByName outputs in
  match BuildResourceDependencyItem dep outputs with
  | inl item =>
      (∃ outs, mapM (λ n, byName !! n) (sorted_keys (rdEnvBindings dep)) = Some outs ∧
         rdiEnvVars item = zip_with (λ n out, makeEnvVar (default "" (rdEnvBindings dep !! n)) out)
                             (sorted_keys (rdEnvBindings dep)) outs) ∧
      Forall2 (λ m o, ∃ out kind ref source, byName !! o = Some out ∧ mountSource out = Some (kind, ref, source) ∧
          vmMountPath m = default "" (rdFileBindings dep !! o) ∧ vmSubPath m = sekKey ref ∧
          mkVolume (vmName m) (source (sekName ref)) ∈ rdiVolumes item)
        (rdiVolumeMounts item) (sorted_keys (rdFileBindings dep))
  | inr (ErrOutputNotResolved o) =>
      (is_Some (rdEnvBindings dep !! o) ∨ is_Some (rdFileBindings dep !! o)) ∧ byName !! o = None
  | inr (ErrInvalidFileBinding o) =>
      is_Some (rdFileBindings dep !! o) ∧ ∃ out, byName !! o = Some out ∧ roSecret out = None ∧ roConfigMap out = None
  end.
Proof.
  cbn zeta. unfold BuildResourceDependencyItem, sortedKeys.
  pose proof (bindEnvs_spec dep (outputsByName outputs) (sorted_keys (rdEnvBindings dep))) as He.
  destruct (bindEnvs _ _ _) as [vars|[o|o]]; [|destruct He as [Ho Hn]; rewrite elem_of_sorted_keys in Ho; auto|done].
  pose proof (bindFiles_spec dep (outputsByName outputs) (sorted_keys (rdFileBindings dep)) [] ∅ (λ k v Hk, ltac:(by rewrite lookup_empty in Hk))) as Hf.
  destruct (bindFiles _ _ _ _ _) as [[ms vs]|[o|o]].
  - destruct Hf as (_ & _ & new & -> & Hnew). cbn [rdiEnvVars rdiVolumeMounts rdiVolumes app]. split; [done|].
    eapply Forall2_impl; [exact Hnew|]. intros m o (out & kind & ref & source & Ho & Hs & Hp & Hk & Hvn & Hv).
    exists out, kind, ref, source. do 4 (split; [done|]). rewrite Hvn. apply omap_lookup_elem.
    exists (kind, sekName ref). exact Hv.
  - destruct Hf as [Ho Hn]. rewrite elem_of_sorted_keys in Ho. auto.
  - destruct Hf as [Ho (out & Hout & Hs)]. rewrite elem_of_sorted_keys in Ho. split; [done|]. exists out. split; [done|].
    unfold mountSource in Hs. by destruct (roSecret out), (roConfigMap out).
Qed.
