(* ===== verification/BindingObjects.v ===== *)
(** * Release bindings: objects

    The types of [api/v1alpha1/releasebinding_types.go], with the conditions and
    reasons of [controller_conditions.go], and the parts of a component release
    and of a rendered release that the binding controller reads and writes. *)

From S2P Require Import Prelude GoStrings GoValue RenderErrors ReleaseObjects PlaneObjects PlaneRefs K8sNames NetworkPolicy WorkloadContext.

#[local] Set Warnings "-register-all".

(** ** Status *)

Record EndpointURL := mkURL { urlScheme : string; urlHost : string; urlPort : Z; urlPath : string }.
Record EndpointGatewayURLs := mkGatewayURLs { guHTTP : option EndpointURL; guHTTPS : option EndpointURL; guTLS : option EndpointURL }.
Record EndpointURLStatus := mkEndpointStatus {
  esName : string;
  esType : string;
  esServiceURL : option EndpointURL;
  esInternalURLs : option EndpointGatewayURLs;
  esExternalURLs : option EndpointGatewayURLs
}.

Record ConnectionTarget := mkTarget {
  tgNamespace : string;
  tgProject : string;
  tgComponent : string;
  tgEndpoint : string;
  tgVisibility : string;
  tgEnvironment : string
}.
Record ResolvedConnection := mkResolved {
  rcNamespace : string;
  rcProject : string;
  rcComponent : string;
  rcEndpoint : string;
  rcVisibility : string;
  rcURL : EndpointURL
}.
Record PendingConnection := mkPending {
  pcNamespace : string;
  pcProject : string;
  pcComponent : string;
  pcEndpoint : string;
  pcReason : string
}.
Record ResourceDependencyTarget := mkResourceTarget {
  rtNamespace : string;
  rtProject : string;
  rtResourceName : string;
  rtEnvironment : string
}.
Record PendingResourceDependency := mkPendingResource {
  prNamespace : string;
  prProject : string;
  prResourceName : string;
  prReason : string
}.

#[global] Instance EndpointURL_eq_dec : EqDecision EndpointURL.
Proof. solve_decision. Defined.
#[global] Instance EndpointGatewayURLs_eq_dec : EqDecision EndpointGatewayURLs.
Proof. solve_decision. Defined.
#[global] Instance EndpointURLStatus_eq_dec : EqDecision EndpointURLStatus.
Proof. solve_decision. Defined.
#[global] Instance ConnectionTarget_eq_dec : EqDecision ConnectionTarget.
Proof. solve_decision. Defined.
#[global] Instance ResolvedConnection_eq_dec : EqDecision ResolvedConnection.
Proof. solve_decision. Defined.
#[global] Instance PendingConnection_eq_dec : EqDecision PendingConnection.
Proof. solve_decision. Defined.
#[global] Instance ResourceDependencyTarget_eq_dec : EqDecision ResourceDependencyTarget.
Proof. solve_decision. Defined.
#[global] Instance PendingResourceDependency_eq_dec : EqDecision PendingResourceDependency.
Proof. solve_decision. Defined.

(** The markers of the delivery events of a rollout; times are nanoseconds. *)
Record DeliveryStatus := mkDelivery {
  dsRolloutID : string;
  dsStartedAt : option Z;
  dsSucceededAt : option Z;
  dsFailedAt : option Z;
  dsRecoveredAt : option Z;
  dsFailureEpisode : Z
}.

#[global] Instance DeliveryStatus_eq_dec : EqDecision DeliveryStatus.
Proof. solve_decision. Defined.

Record BindingStatus := mkBindingStatus {
  bsObservedGeneration : Z;
  bsLastSpecUpdate : option Z;
  bsConditions : list Condition;
  bsEndpoints : list EndpointURLStatus;
  bsConnectionTargets : list ConnectionTarget;
  bsResolved : list ResolvedConnection;
  bsPending : list PendingConnection;
  bsResourceTargets : list ResourceDependencyTarget;
  bsPendingResources : list PendingResourceDependency;
  bsSecretNames : list string;
  bsDelivery : option DeliveryStatus
}.

#[global] Instance BindingStatus_eq_dec : EqDecision BindingStatus.
Proof. solve_decision. Defined.

(** ** The binding *)

Definition ReleaseStateActive : string := "Active".
Definition ReleaseStateUndeploy : string := "Undeploy".

Record ReleaseBinding := mkBinding {
  rbMeta : ObjectMeta;
  rbProject : string;
  rbComponent : string;
  rbEnvironment : string;
  rbReleaseName : string;
  rbOverrides : option ContainerOverride;
  rbState : string;
  rbStatus : BindingStatus
}.

Definition rbName (rb : ReleaseBinding) : string := metaName (rbMeta rb).
Definition rbNamespace (rb : ReleaseBinding) : string := metaNamespace (rbMeta rb).

Definition withBindingStatus (rb : ReleaseBinding) (st : BindingStatus) : ReleaseBinding :=
  mkBinding (rbMeta rb) (rbProject rb) (rbComponent rb) (rbEnvironment rb) (rbReleaseName rb) (rbOverrides rb) (rbState rb) st.

(** Assignments to fields of the status. *)
Definition setObserved (st : BindingStatus) (g : Z) (t : option Z) : BindingStatus :=
  mkBindingStatus g t (bsConditions st) (bsEndpoints st) (bsConnectionTargets st) (bsResolved st) (bsPending st)
    (bsResourceTargets st) (bsPendingResources st) (bsSecretNames st) (bsDelivery st).
Definition setConditions (st : BindingStatus) (cs : list Condition) : BindingStatus :=
  mkBindingStatus (bsObservedGeneration st) (bsLastSpecUpdate st) cs (bsEndpoints st) (bsConnectionTargets st) (bsResolved st)
    (bsPending st) (bsResourceTargets st) (bsPendingResources st) (bsSecretNames st) (bsDelivery st).
Definition setEndpoints (st : BindingStatus) (eps : list EndpointURLStatus) : BindingStatus :=
  mkBindingStatus (bsObservedGeneration st) (bsLastSpecUpdate st) (bsConditions st) eps (bsConnectionTargets st) (bsResolved st)
    (bsPending st) (bsResourceTargets st) (bsPendingResources st) (bsSecretNames st) (bsDelivery st).
Definition setTargets (st : BindingStatus) (ts : list ConnectionTarget) : BindingStatus :=
  mkBindingStatus (bsObservedGeneration st) (bsLastSpecUpdate st) (bsConditions st) (bsEndpoints st) ts (bsResolved st)
    (bsPending st) (bsResourceTargets st) (bsPendingResources st) (bsSecretNames st) (bsDelivery st).
Definition setResolution (st : BindingStatus) (rs : list ResolvedConnection) (ps : list PendingConnection) : BindingStatus :=
  mkBindingStatus (bsObservedGeneration st) (bsLastSpecUpdate st) (bsConditions st) (bsEndpoints st) (bsConnectionTargets st) rs
    ps (bsResourceTargets st) (bsPendingResources st) (bsSecretNames st) (bsDelivery st).
Definition setResourceTargets (st : BindingStatus) (ts : list ResourceDependencyTarget) : BindingStatus :=
  mkBindingStatus (bsObservedGeneration st) (bsLastSpecUpdate st) (bsConditions st) (bsEndpoints st) (bsConnectionTargets st)
    (bsResolved st) (bsPending st) ts (bsPendingResources st) (bsSecretNames st) (bsDelivery st).
Definition setPendingResources (st : BindingStatus) (ps : list PendingResourceDependency) : BindingStatus :=
  mkBindingStatus (bsObservedGeneration st) (bsLastSpecUpdate st) (bsConditions st) (bsEndpoints st) (bsConnectionTargets st)
    (bsResolved st) (bsPending st) (bsResourceTargets st) ps (bsSecretNames st) (bsDelivery st).
Definition setSecretNames (st : BindingStatus) (ns : list string) : BindingStatus :=
  mkBindingStatus (bsObservedGeneration st) (bsLastSpecUpdate st) (bsConditions st) (bsEndpoints st) (bsConnectionTargets st)
    (bsResolved st) (bsPending st) (bsResourceTargets st) (bsPendingResources st) ns (bsDelivery st).
Definition setDelivery (st : BindingStatus) (d : option DeliveryStatus) : BindingStatus :=
  mkBindingStatus (bsObservedGeneration st) (bsLastSpecUpdate st) (bsConditions st) (bsEndpoints st) (bsConnectionTargets st)
    (bsResolved st) (bsPending st) (bsResourceTargets st) (bsPendingResources st) (bsSecretNames st) d.

(** ** Conditions *)

Definition ConditionReleaseSynced : string := "ReleaseSynced".
Definition ConditionResourcesReady : string := "ResourcesReady".
Definition ConditionReady : string := "Ready".
Definition ConditionConnectionsResolved : string := "ConnectionsResolved".
Definition ConditionResourceDependenciesReady : string := "ResourceDependenciesReady".
Definition ConditionBindingFinalizing : string := "Finalizing".

Section Marking.
Context {SC : StatusConditions}.

(** [markCondition] of [internal/controller/conditions.go] on a binding. *)
Definition markBinding (now : Z) (rb : ReleaseBinding) (ct status reason message : string) : ReleaseBinding :=
  let cond := NewCondition now ct status reason message (metaGeneration (rbMeta rb)) in
  let '(conditions, changed) := SetStatusCondition (bsConditions (rbStatus rb)) cond in
  if changed then withBindingStatus rb (setConditions (rbStatus rb) conditions) else rb.

Definition markTrue (now : Z) (rb : ReleaseBinding) (ct reason message : string) : ReleaseBinding :=
  markBinding now rb ct ConditionTrue reason message.
Definition markFalse (now : Z) (rb : ReleaseBinding) (ct reason message : string) : ReleaseBinding :=
  markBinding now rb ct ConditionFalse reason message.
End Marking.

(** ** What is deployed *)

(** [Workload.Source]: a commit, and when it was authored as RFC 3339 text. *)
Record WorkloadSource := mkSource { wsCommit : string; wsAuthoredAt : option string }.

(** The parts of a [ComponentRelease] that are looked at; its type, traits and
    parameters are of the class of a rendering. *)
Record ComponentRelease (Frozen : Type) := mkComponentRelease {
  crlMeta : ObjectMeta;
  crlProject : string;
  crlComponent : string;
  crlHasResources : bool;
  crlWorkload : WorkloadTemplateSpec;
  crlSource : option WorkloadSource;
  crlFrozen : Frozen
}.
Arguments mkComponentRelease {_}.
Arguments crlMeta {_}.
Arguments crlProject {_}.
Arguments crlComponent {_}.
Arguments crlHasResources {_}.
Arguments crlWorkload {_}.
Arguments crlSource {_}.
Arguments crlFrozen {_}.

(** A [Component] and a [Project]: metadata, and the type of the component. *)
Record ComponentCR := mkComponent { cpMeta : ObjectMeta; cpComponentType : string }.
Record ProjectCR := mkProject { pjMeta : ObjectMeta }.

(** A [RenderedRelease] with what its owner sets on it: labels, the component in
    its owner field, and the UIDs of the objects that own it. *)
Record OwnedRelease := mkOwned {
  orRelease : RenderedRelease;
  orLabels : gmap string string;
  orComponent : string;
  orOwners : list string
}.

#[global] Instance SecretKeyRef_eq_dec : EqDecision SecretKeyRef.
Proof. solve_decision. Defined.
#[global] Instance ResolvedResourceOutput_eq_dec : EqDecision ResolvedResourceOutput.
Proof. solve_decision. Defined.

(** A [ResourceReleaseBinding], as its consumers see it. *)
Record ResourceReleaseBinding := mkResourceBinding {
  rrbMeta : ObjectMeta;
  rrbProject : string;
  rrbResource : string;
  rrbEnvironment : string;
  rrbConditions : list Condition;
  rrbOutputs : list ResolvedResourceOutput
}.

(** An [ObservabilityAlertsNotificationChannel]. *)
Record NotificationChannel := mkChannel { chMeta : ObjectMeta; chEnvironment : string; chIsEnvDefault : bool }.

(** ** Names and labels

    [buildMetadataContext], [makeDataPlaneReleaseName],
    [makeObservabilityReleaseName], [generateResourceID] and
    [networkPolicyProviderFromDataPlane] of [controller.go]: the names a component
    has in its data plane, and the policy that is added to its resources. *)

Definition bmNamespaceName : string := "openchoreo.dev/namespace".
Definition bmProjectName : string := "openchoreo.dev/project".
Definition bmComponentName : string := "openchoreo.dev/component".
Definition bmEnvironmentName : string := "openchoreo.dev/environment".
Definition bmComponentUID : string := "openchoreo.dev/component-uid".
Definition bmEnvironmentUID : string := "openchoreo.dev/environment-uid".
Definition bmProjectUID : string := "openchoreo.dev/project-uid".

Record MetadataContext := mkMetadata {
  mcName : string;
  mcNamespace : string;
  mcComponentNamespace : string;
  mcLabels : gmap string string;
  mcAnnotations : gmap string string;
  mcPodSelectors : gmap string string;
  mcComponentName : string;
  mcComponentUID : string;
  mcProjectName : string;
  mcProjectUID : string;
  mcDataPlaneName : string;
  mcDataPlaneUID : string;
  mcEnvironmentName : string;
  mcEnvironmentUID : string
}.

(** The namespace, project and component of the release, the UIDs of the
    component, project and environment, and the data plane. *)
Definition buildMetadataContext (namespaceName projectName componentName componentUID projectUID : string)
    (dataPlane : ObjectMeta) (environmentUID environmentName : string) : option MetadataContext :=
  baseName ← GenerateK8sName [componentName; environmentName];
  namespace ← GenerateK8sNameWithLengthLimit MaxNamespaceNameLength ["dp"; namespaceName; projectName; environmentName];
  let standardLabels : gmap string string :=
    {[bmNamespaceName := namespaceName; bmProjectName := projectName; bmComponentName := componentName;
      bmEnvironmentName := environmentName; bmComponentUID := componentUID; bmEnvironmentUID := environmentUID;
      bmProjectUID := projectUID]} in
  Some (mkMetadata baseName namespace namespaceName standardLabels ∅ standardLabels componentName componentUID
          projectName projectUID (metaName dataPlane) (metaUID dataPlane) environmentName environmentUID).

Definition makeDataPlaneReleaseName (componentName environment : string) : string := componentName +:+ "-" +:+ environment.
Definition makeObservabilityReleaseName (componentName environment : string) : string :=
  componentName +:+ "-" +:+ environment +:+ "-observability".

(** A type assertion to a string with the zero value when it fails, and the same
    to a map. *)
Definition asString (v : option any) : string := match v with Some (VString s) => s | _ => "" end.
Definition asMap (v : option any) : gmap string any := match v with Some (VMap m) => m | _ => ∅ end.

Definition generateResourceID (resource : gmap string any) (index : nat) : option string :=
  let kind := asString (resource !! "kind") in
  let name := asString (asMap (resource !! "metadata") !! "name") in
  if negb (bool_decide (kind = "")) && negb (bool_decide (name = "")) then
    let resourceID := ToLower kind +:+ "-" +:+ name in
    if bool_decide (MaxLabelNameLength < Z.of_nat (String.length resourceID))%Z
    then GenerateK8sNameWithLengthLimit MaxLabelNameLength [ToLower kind; name]
    else Some resourceID
  else Some ("resource-" +:+ Itoa (Z.of_nat index)).

Definition networkPolicyProviderFromDataPlane (r : DataPlaneResult) : string :=
  let annotations :=
    match resNamespaced r, resCluster r with
    | Some dp, _ => metaAnnotations (crMeta dp)
    | None, Some cdp => metaAnnotations (crMeta cdp)
    | None, None => ∅
    end in
  if bool_decide (default "" (annotations !! "openchoreo.dev/networkpolicyprovider") = ProviderCilium)
  then ProviderCilium else ProviderKubernetes.

(** What the controller asks a policy for. *)
Definition policyParamsOf (mc : MetadataContext) (endpoints : gmap string WorkloadEndpoint) (provider : string)
    : ComponentPolicyParams :=
  mkPolicyParams (mcNamespace mc) (mcComponentNamespace mc) (mcEnvironmentName mc) (mcComponentName mc)
    (mcPodSelectors mc) endpoints provider.
