(* ===== verification/TenantIsolation.v ===== *)
(** * What the names and the policies give together

    The data plane namespace of a project, the service of a component and the
    policy of its pods meet at the data plane: the traffic between two projects
    is that between their namespaces, and the traffic of a service is that on
    its target ports. *)

From S2P Require Import Prelude GoStrings K8sNames GoValue NetworkPolicy PlaneObjects.
From S2P Require Import NetworkPolicy WorkloadContext WorkloadContextSpec BindingObjects.

(** ** Names *)

Lemma buildMetadataContext_namespace ns proj comp cuid puid dp euid env :
  ∃ mc, buildMetadataContext ns proj comp cuid puid dp euid env = Some mc ∧
    GenerateK8sNameWithLengthLimit MaxNamespaceNameLength ["dp"; ns; proj; env] = Some (mcNamespace mc) ∧
    mcComponentNamespace mc = ns ∧ mcEnvironmentName mc = env ∧
    mcLabels mc !! bmNamespaceName = Some ns ∧ mcLabels mc !! bmProjectName = Some proj ∧
    mcPodSelectors mc = mcLabels mc.
Proof.
  unfold buildMetadataContext.
  destruct (generateK8sName_dns maxNameLength "" [comp; env]) as (b1 & h1 & Hg1 & _); [done|by vm_compute|].
  destruct (generateK8sName_dns MaxNamespaceNameLength "" ["dp"; ns; proj; env]) as (b2 & h2 & Hg2 & _); [done|by vm_compute|].
  unfold GenerateK8sName, GenerateK8sNameWithLengthLimit. rewrite Hg1, Hg2. cbn [mbind option_bind].
  eexists; split; [reflexivity|]. by repeat split.
Qed.

(** Names short enough to be kept whole in a namespace name. *)
Definition short (s : string) : Prop := String.length s ≤ 12.

Section Isolation.
Context {MR : MapRange} {ML : MapRangeLaws} {SS : SortSlice} {SL : SortSliceLaws}.

(** Two projects of different control plane namespaces can have the same data
    plane namespace, and then see each other's endpoints.  The name is built, and
    its hash taken, from the parts joined with the separator that the parts may
    contain: the project [b-c] of namespace [a] and the project [c] of namespace
    [a-b] share it, for all short names [a], [b] and [c] and every environment.
    Each policy of the one then admits every pod of the other to every declared
    port, although project visibility is to be within the project. *)
Theorem namespaces_collide (a b c env comp1 comp2 cuid1 cuid2 puid1 puid2 euid1 euid2 : string) (dp1 dp2 : ObjectMeta) :
  clean a → clean b → clean c → clean env →
  short (a +:+ "-" +:+ b) → short (b +:+ "-" +:+ c) → short env →
  ∃ mc1 mc2,
    buildMetadataContext a (b +:+ "-" +:+ c) comp1 cuid1 puid1 dp1 euid1 env = Some mc1 ∧
    buildMetadataContext (a +:+ "-" +:+ b) c comp2 cuid2 puid2 dp2 euid2 env = Some mc2 ∧
    mcLabels mc1 !! bmNamespaceName ≠ mcLabels mc2 !! bmNamespaceName ∧
    mcNamespace mc1 = mcNamespace mc2 ∧
    ∀ endpoints name ep t, endpoints !! name = Some ep → opens ep t →
      srcNamespace t = mcNamespace mc2 → srcLabels t = mcPodSelectors mc2 →
      ∃ policy, MakeComponentPolicies (policyParamsOf mc1 endpoints ProviderKubernetes) = Some [policy] ∧
                k8sAdmits policy t = true.
Proof.
  intros Ha Hb Hc He Hab Hbc Hse.
  destruct (buildMetadataContext_namespace a (b +:+ "-" +:+ c) comp1 cuid1 puid1 dp1 euid1 env)
    as (mc1 & H1 & Hn1 & _ & _ & Hl1 & _).
  destruct (buildMetadataContext_namespace (a +:+ "-" +:+ b) c comp2 cuid2 puid2 dp2 euid2 env)
    as (mc2 & H2 & Hn2 & _ & _ & Hl2 & _).
  assert (mcNamespace mc1 = mcNamespace mc2) as Hns.
  { apply (inj Some). rewrite <- Hn1, <- Hn2.
    apply (separator_shift MaxNamespaceNameLength ["dp"] a b c [env]); [done|done| |].
    - repeat apply Forall_cons_2; try done. split; [done|]. split; [by exists "d"%char, "p"|by exists "d", "p"%char].
    - unfold short in *. change (Z.quot _ _) with 12%Z. unfold separator. cbn [app].
      repeat apply Forall_cons_2; [cbn; lia|lia|lia|lia|by constructor]. }
  exists mc1, mc2. do 2 (split; [done|]). split.
  { rewrite Hl1, Hl2. intros [= Heq]. apply (f_equal String.length) in Heq. rewrite !sapp_length in Heq. cbn in Heq. lia. }
  split; [done|]. intros endpoints name ep t Hep Ho Hsrc _.
  destruct (k8s_policy (policyParamsOf mc1 endpoints ProviderKubernetes)) as (policy & Hp & _ & Hadm); [done|].
  exists policy. split; [done|]. apply Hadm. exists name, ep. split; [done|]. split; [done|]. left. by rewrite Hsrc.
Qed.

(** ** Services *)

(** The connection a client of the same namespace makes through a port of the
    service, as the pod sees it: on the target port. *)
Definition throughService (params : ComponentPolicyParams) (p : ServicePortEntry) : connection :=
  mkTraffic (polNamespace params) ∅ ∅ (polNamespace params) (polPodSelectors params) (spTargetPort p) (spProtocol p).

(** A policy admits a client of the same project to a port of the component's
    service exactly when some endpoint declares the service's target port, with
    its protocol, as its own port: the policy opens the ports of the endpoints,
    and the pods receive on the target ports. *)
Theorem service_traffic_admitted (params : ComponentPolicyParams) (workload : WorkloadTemplateSpec) ports p :
  polProvider params ≠ ProviderCilium → wlEndpoints workload = polEndpoints params →
  buildServicePorts (ExtractWorkloadData (Some workload)) = Some ports → p ∈ ports →
  ∃ policy, MakeComponentPolicies params = Some [policy] ∧
    (k8sAdmits policy (throughService params p) = true ↔
     ∃ name ep, wlEndpoints workload !! name = Some ep ∧ epPort ep = spTargetPort p ∧
                protocolOf (epType ep) = spProtocol p).
Proof.
  intros Hprov Hend Hports Hp. destruct (k8s_policy params Hprov) as (policy & Hm & _ & Hadm).
  exists policy. split; [done|]. rewrite Hadm, Hend. split.
  - intros (name & ep & Hep & [Ho1 Ho2] & _). eauto.
  - intros (name & ep & Hep & H1 & H2). exists name, ep. split; [done|]. split; [done|]. by left.
Qed.

End Isolation.

(** ** Witnesses *)

Definition noMeta : ObjectMeta := mkMeta "plane" "acme" "u1" 1 false [] ∅.

Lemma namespaces_collide_witness :
  ∃ mc1 mc2,
    buildMetadataContext "acme" "web-shop" "cart" "c1" "p1" noMeta "e1" "dev" = Some mc1 ∧
    buildMetadataContext "acme-web" "shop" "spy" "c2" "p2" noMeta "e2" "dev" = Some mc2 ∧
    mcNamespace mc1 = mcNamespace mc2.
Proof.
  assert (∀ s : string, all_bytes dns_label_byte s = true → (∃ c t, s = String c t ∧ alnum c = true) →
            (∃ t c, s = t +:+ String c "" ∧ alnum c = true) → clean s) as Hclean by done.
  destruct (@namespaces_collide rangeUp rangeUp_laws insertionSort insertionSort_laws
              "acme" "web" "shop" "dev" "cart" "spy" "c1" "c2" "p1" "p2" "e1" "e2" noMeta noMeta)
    as (mc1 & mc2 & H1 & H2 & _ & Hn & _).
  - apply Hclean; [done|by exists "a"%char, "cme"|by exists "acm", "e"%char].
  - apply Hclean; [done|by exists "w"%char, "eb"|by exists "we", "b"%char].
  - apply Hclean; [done|by exists "s"%char, "hop"|by exists "sho", "p"%char].
  - apply Hclean; [done|by exists "d"%char, "ev"|by exists "de", "v"%char].
  - apply Nat.leb_le. reflexivity.
  - apply Nat.leb_le. reflexivity.
  - apply Nat.leb_le. reflexivity.
  - exists mc1, mc2. split; [exact H1|]. split; [exact H2|exact Hn].
Defined.

(** A workload that listens on 8080 behind port 80, and its policy. *)
Definition webEndpoints : gmap string WorkloadEndpoint := {["http" := mkEndpoint [] EndpointTypeHTTP 80 8080 "" "/"]}.
Definition webWorkload : WorkloadTemplateSpec := mkWorkloadSpec (mkContainer "web" [] [] [] []) webEndpoints None.
Definition webParams : ComponentPolicyParams :=
  mkPolicyParams "dp-acme-web-dev-0a1b2c3d" "acme" "dev" "web" {["openchoreo.dev/component" := "web"]} webEndpoints
    ProviderKubernetes.
Definition webPort : ServicePortEntry := mkServicePort "http" 80 8080 "TCP".

(** A port that is not the target port is shut: the policy of the workload above
    refuses the traffic of its own service. *)
Lemma service_traffic_admitted_witness :
  buildServicePorts (ExtractWorkloadData (Some webWorkload)) = Some [webPort] ∧
  ∃ policy, @MakeComponentPolicies rangeUp insertionSort webParams = Some [policy] ∧
            k8sAdmits policy (throughService webParams webPort) ≠ true.
Proof.
  split; [vm_compute; reflexivity|].
  destruct (@service_traffic_admitted rangeUp rangeUp_laws insertionSort insertionSort_laws webParams webWorkload [webPort] webPort)
    as (policy & Hm & Hadm).
  - discriminate.
  - reflexivity.
  - vm_compute. reflexivity.
  - apply list_elem_of_singleton. reflexivity.
  - exists policy. split; [exact Hm|]. intros Hk. apply Hadm in Hk as (name & ep & Hep & Hport & _).
    change (webEndpoints !! name = Some ep) in Hep. unfold webEndpoints in Hep. apply lookup_singleton_Some in Hep as [_ <-]. discriminate Hport.
Defined.
