(* ===== verification/BindingConnections.v ===== *)
(** * Connections and dependencies of a release binding

    [internal/controller/releasebinding/controller_connections.go] and
    [controller_resourcedependencies.go]: the endpoints and resources a workload
    uses, looked up in the bindings of their providers; the indexes and the watch
    mappings of [controller_watch.go] that bring a consumer back when a provider
    changes, with the keys of [internal/controller/watch.go]; and the secret
    references of a workload.  The Kubernetes client is the class
    [BindingReads]. *)

From S2P Require Import Prelude GoStrings GoValue RenderErrors ReleaseObjects PlaneObjects PlaneRefs.
From S2P Require Import NetworkPolicy WorkloadContext BindingObjects.

#[local] Set Warnings "-register-all".

(** ** Connection targets *)

Definition connectionProject (rb : ReleaseBinding) (conn : WorkloadConnection) : string :=
  if bool_decide (connProject conn = "") then rbProject rb else connProject conn.

Definition buildConnectionTargets (rb : ReleaseBinding) (connections : list WorkloadConnection) : list ConnectionTarget :=
  (λ conn, mkTarget (rbNamespace rb) (connectionProject rb conn) (connComponent conn) (connName conn) (connVisibility conn)
             (rbEnvironment rb)) <$> connections.

Definition resolveURLForVisibility (ep : EndpointURLStatus) (visibility : string) : option EndpointURL :=
  if bool_decide (visibility = EndpointVisibilityProject) || bool_decide (visibility = EndpointVisibilityNamespace)
  then esServiceURL ep
  else if bool_decide (visibility = EndpointVisibilityExternal) then
    urls ← esExternalURLs ep;
    match guHTTPS urls, guHTTP urls with
    | Some u, _ => Some u
    | None, Some u => Some u
    | None, None => guTLS urls
    end
  else None.

Definition MakeReleaseBindingOwnerEnvKey (projectName componentName environment : string) : string :=
  projectName +:+ "/" +:+ componentName +:+ "/" +:+ environment.
Definition MakeResourceReleaseBindingOwnerEnvKey (projectName resourceName environment : string) : string :=
  projectName +:+ "/" +:+ resourceName +:+ "/" +:+ environment.
Definition makeConnectionTargetKey (namespace project component environment : string) : string :=
  namespace +:+ "/" +:+ project +:+ "/" +:+ component +:+ "/" +:+ environment.
Definition makeResourceDependencyTargetKey (namespace project resourceName environment : string) : string :=
  namespace +:+ "/" +:+ project +:+ "/" +:+ resourceName +:+ "/" +:+ environment.
Definition connectionKey (namespace project component endpoint visibility : string) : string :=
  namespace +:+ "/" +:+ project +:+ "/" +:+ component +:+ "/" +:+ endpoint +:+ "/" +:+ visibility.

(** ** Indexes *)

(** The owner and environment index of bindings, and of resource bindings. *)
Definition indexOwnerEnv (rb : ReleaseBinding) : list string :=
  if bool_decide (rbProject rb = "") || bool_decide (rbComponent rb = "") || bool_decide (rbEnvironment rb = "") then []
  else [MakeReleaseBindingOwnerEnvKey (rbProject rb) (rbComponent rb) (rbEnvironment rb)].

Definition indexResourceOwnerEnv (rrb : ResourceReleaseBinding) : list string :=
  if bool_decide (rrbProject rrb = "") || bool_decide (rrbResource rrb = "") || bool_decide (rrbEnvironment rrb = "") then []
  else [MakeResourceReleaseBindingOwnerEnvKey (rrbProject rrb) (rrbResource rrb) (rrbEnvironment rrb)].

(** Keys without repetition, in the order they are met. *)
Definition uniqueKeys (keys : list string) : list string :=
  foldl (λ acc k, if bool_decide (k ∈ acc) then acc else acc ++ [k]) [] keys.

Definition indexConnectionTargets (rb : ReleaseBinding) : list string :=
  uniqueKeys ((λ t, makeConnectionTargetKey (tgNamespace t) (tgProject t) (tgComponent t) (tgEnvironment t)) <$>
              bsConnectionTargets (rbStatus rb)).

Definition indexResourceDependencyTargets (rb : ReleaseBinding) : list string :=
  uniqueKeys ((λ t, makeResourceDependencyTargetKey (rtNamespace t) (rtProject t) (rtResourceName t) (rtEnvironment t)) <$>
              bsResourceTargets (rbStatus rb)).

Abbreviation secretMap := (gmap string SecretReference).

Section Reads.
Context {SC : StatusConditions} {S : Type}.

(** [client.List] with a namespace and an index, across all namespaces for the
    consumers of a target, and [client.Get]. *)
Class BindingReads := {
  listByOwnerEnv : string → string → CM S (list ReleaseBinding);
  listResourceByOwnerEnv : string → string → CM S (list ResourceReleaseBinding);
  listByConnectionTarget : string → CM S (list ReleaseBinding);
  listByResourceTarget : string → CM S (list ReleaseBinding);
  getSecretReference : string → string → CM S SecretReference;
  listBySecretReference : string → string → CM S (list ReleaseBinding);
  listByComponent : string → string → CM S (list ReleaseBinding);
  (* in a namespace *)
  listBindings : string → CM S (list ReleaseBinding);
  (* in a namespace, or in all for the empty one *)
  listEnvironments : string → CM S (list EnvironmentCR)
}.
Context {BR : BindingReads}.

(** ** Resolution of connections *)

Definition pendingFor (conn : ConnectionTarget) (reason : string) : PendingConnection :=
  mkPending (tgNamespace conn) (tgProject conn) (tgComponent conn) (tgEndpoint conn) reason.

(** What the status of the one provider says about an endpoint. *)
Definition resolveFrom (rb : ReleaseBinding) (conn : ConnectionTarget) : ResolvedConnection + PendingConnection :=
  if bool_decide (rbState rb = ReleaseStateUndeploy) then inr (pendingFor conn "component is undeployed")
  else
    match List.find (λ ep, bool_decide (esName ep = tgEndpoint conn)) (bsEndpoints (rbStatus rb)) with
    | None => inr (pendingFor conn ("endpoint " +:+ quoted (tgEndpoint conn) +:+ " not yet resolved"))
    | Some ep =>
        match resolveURLForVisibility ep (tgVisibility conn) with
        | None => inr (pendingFor conn ("endpoint " +:+ quoted (tgEndpoint conn) +:+ " has no URL for visibility " +:+ tgVisibility conn))
        | Some url => inl (mkResolved (tgNamespace conn) (tgProject conn) (tgComponent conn) (tgEndpoint conn) (tgVisibility conn) url)
        end
    end.

Definition resolveConnection (conn : ConnectionTarget) : CM S (ResolvedConnection + PendingConnection) :=
  items ← orElse (listByOwnerEnv (tgNamespace conn)
                    (MakeReleaseBindingOwnerEnvKey (tgProject conn) (tgComponent conn) (tgEnvironment conn)))
            (wrapErrorf ("failed to list ReleaseBindings for component " +:+ tgProject conn +:+ "/" +:+ tgComponent conn +:+ ": "));
  match items with
  | [] => mret (inr (pendingFor conn ("ReleaseBinding not found for component " +:+ tgProject conn +:+ "/" +:+ tgComponent conn)))
  | [rb] => mret (resolveFrom rb conn)
  | _ => mret (inr (pendingFor conn ("multiple ReleaseBindings found for component " +:+ tgProject conn +:+ "/" +:+
                                     tgComponent conn +:+ " in environment " +:+ tgEnvironment conn)))
  end.

Fixpoint resolveConnections (targets : list ConnectionTarget) : CM S (list ResolvedConnection * list PendingConnection) :=
  match targets with
  | [] => mret ([], [])
  | target :: targets =>
      r ← resolveConnection target;
      rest ← resolveConnections targets;
      match r with
      | inl c => mret (c :: rest.1, rest.2)
      | inr p => mret (rest.1, p :: rest.2)
      end
  end.

(** ** Items for the rendering *)

Record ConnectionItem := mkConnectionItem {
  ciNamespace : string;
  ciProject : string;
  ciComponent : string;
  ciEndpoint : string;
  ciVisibility : string;
  ciEnvVars : list EnvVarEntry
}.

Definition schemeUsesURLFormat (scheme : string) : bool :=
  bool_decide (scheme ∈ ["http"; "https"; "ws"; "wss"; "tls"]).

Definition formatEndpointAddress (url : EndpointURL) : string :=
  (if schemeUsesURLFormat (urlScheme url) then urlScheme url +:+ "://" else "") +:+
  urlHost url +:+
  (if bool_decide (urlPort url = 0%Z) then "" else ":" +:+ Itoa (urlPort url)) +:+
  (if bool_decide (urlPath url = "") then ""
   else (if HasPrefix (urlPath url) "/" then "" else "/") +:+ urlPath url).

Definition literal (name value : string) : list EnvVarEntry :=
  if bool_decide (name = "") then [] else [mkEnvVarEntry name value None].

Definition buildEnvVarsForConnection (conn : WorkloadConnection) (rc : ResolvedConnection) : list EnvVarEntry :=
  let b := connEnvBindings conn in
  literal (ebAddress b) (formatEndpointAddress (rcURL rc)) ++
  literal (ebHost b) (urlHost (rcURL rc)) ++
  literal (ebPort b) (if bool_decide (urlPort (rcURL rc) = 0%Z) then "" else Itoa (urlPort (rcURL rc))) ++
  literal (ebBasePath b) (urlPath (rcURL rc)).

Definition resolvedKey (rc : ResolvedConnection) : string :=
  connectionKey (rcNamespace rc) (rcProject rc) (rcComponent rc) (rcEndpoint rc) (rcVisibility rc).

Definition wantedKey (rb : ReleaseBinding) (conn : WorkloadConnection) : string :=
  connectionKey (rbNamespace rb) (connectionProject rb conn) (connComponent conn) (connName conn) (connVisibility conn).

Definition buildConnectionItems (rb : ReleaseBinding) (connections : list WorkloadConnection) : list ConnectionItem :=
  let resolved := byKey resolvedKey (bsResolved (rbStatus rb)) in
  (λ conn, mkConnectionItem (rbNamespace rb) (connectionProject rb conn) (connComponent conn) (connName conn) (connVisibility conn)
             (match resolved !! wantedKey rb conn with Some rc => buildEnvVarsForConnection conn rc | None => [] end)) <$> connections.

Definition allConnectionsResolved (rb : ReleaseBinding) (connections : list WorkloadConnection) : bool :=
  forallb (λ conn, bool_decide (wantedKey rb conn ∈ resolvedKey <$> bsResolved (rbStatus rb))) connections.

Definition setConnectionsCondition (now : Z) (rb : ReleaseBinding) (allResolved : bool) : ReleaseBinding :=
  if bool_decide (length (bsConnectionTargets (rbStatus rb)) = 0) then
    markTrue now rb ConditionConnectionsResolved "NoConnections" "No connections to resolve"
  else if allResolved then
    markTrue now rb ConditionConnectionsResolved "AllConnectionsResolved"
      ("All " +:+ Itoa (Z.of_nat (length (bsResolved (rbStatus rb)))) +:+ " connections resolved")
  else
    markFalse now rb ConditionConnectionsResolved "ConnectionsPending"
      (Itoa (Z.of_nat (length (bsPending (rbStatus rb)))) +:+ " connections pending, " +:+
       Itoa (Z.of_nat (length (bsResolved (rbStatus rb)))) +:+ " resolved").

(** ** Resource dependencies *)

Definition buildResourceDependencyTargets (rb : ReleaseBinding) (deps : list WorkloadResourceDependency)
    : list ResourceDependencyTarget :=
  (λ dep, mkResourceTarget (rbNamespace rb) (rbProject rb) (rdRef dep) (rbEnvironment rb)) <$> deps.

Definition allResourceDependenciesResolved (rb : ReleaseBinding) (deps : list WorkloadResourceDependency) : bool :=
  bool_decide (length deps = 0) || bool_decide (length (bsPendingResources (rbStatus rb)) = 0).

Definition setResourceDependenciesCondition (now : Z) (rb : ReleaseBinding) (allResolved : bool) : ReleaseBinding :=
  let totalCount := Z.of_nat (length (bsResourceTargets (rbStatus rb))) in
  if bool_decide (totalCount = 0%Z) then
    markTrue now rb ConditionResourceDependenciesReady "NoResourceDependencies" "No resource dependencies to resolve"
  else if allResolved then
    markTrue now rb ConditionResourceDependenciesReady "AllResourceDependenciesReady"
      ("All " +:+ Itoa totalCount +:+ " resource dependencies resolved")
  else
    let pendingCount := Z.of_nat (length (bsPendingResources (rbStatus rb))) in
    markFalse now rb ConditionResourceDependenciesReady "ResourceDependenciesPending"
      (Itoa pendingCount +:+ " resource dependencies pending, " +:+ Itoa (totalCount - pendingCount) +:+ " resolved").

Definition isResourceReleaseBindingReady (rrb : ResourceReleaseBinding) : bool :=
  match FindStatusCondition (rrbConditions rrb) "Ready" with
  | None => false
  | Some cond => bool_decide (condStatus cond = ConditionTrue) && bool_decide (condGeneration cond = metaGeneration (rrbMeta rrb))
  end.

Definition pendingResource (rb : ReleaseBinding) (dep : WorkloadResourceDependency) (reason : string) : PendingResourceDependency :=
  mkPendingResource (rbNamespace rb) (rbProject rb) (rdRef dep) reason.

Definition dependencyFrom (rb : ReleaseBinding) (dep : WorkloadResourceDependency) (rrb : ResourceReleaseBinding)
    : ResourceDependencyItem + PendingResourceDependency :=
  if negb (isResourceReleaseBindingReady rrb)
  then inr (pendingResource rb dep ("ResourceReleaseBinding " +:+ quoted (metaName (rrbMeta rrb)) +:+ " not ready"))
  else match BuildResourceDependencyItem dep (rrbOutputs rrb) with
       | inl item => inl item
       | inr err => inr (pendingResource rb dep (bindingErrorText err))
       end.

Definition resolveResourceDependency (rb : ReleaseBinding) (dep : WorkloadResourceDependency)
    : CM S (ResourceDependencyItem + PendingResourceDependency) :=
  let what := rbProject rb +:+ "/" +:+ rdRef dep in
  items ← orElse (listResourceByOwnerEnv (rbNamespace rb)
                    (MakeResourceReleaseBindingOwnerEnvKey (rbProject rb) (rdRef dep) (rbEnvironment rb)))
            (wrapErrorf ("failed to list ResourceReleaseBindings for " +:+ what +:+ " in " +:+ rbEnvironment rb +:+ ": "));
  match items with
  | [] => mret (inr (pendingResource rb dep ("ResourceReleaseBinding not found for " +:+ what +:+ " in environment " +:+ rbEnvironment rb)))
  | [rrb] => mret (dependencyFrom rb dep rrb)
  | _ => mret (inr (pendingResource rb dep ("multiple ResourceReleaseBindings found for " +:+ what +:+ " in environment " +:+ rbEnvironment rb)))
  end.

Fixpoint resolveResourceDependencies (rb : ReleaseBinding) (deps : list WorkloadResourceDependency)
    : CM S (list ResourceDependencyItem * list PendingResourceDependency) :=
  match deps with
  | [] => mret ([], [])
  | dep :: deps =>
      r ← resolveResourceDependency rb dep;
      rest ← resolveResourceDependencies rb deps;
      match r with
      | inl i => mret (i :: rest.1, rest.2)
      | inr p => mret (rest.1, p :: rest.2)
      end
  end.

(** The targets are written to the status before the resolution, the pending ones
    after; on an error the binding with the targets is what is left. *)
Definition populateResourceDependencyStatus (rb : ReleaseBinding) (deps : list WorkloadResourceDependency)
    : CM S (ReleaseBinding * (list ResourceDependencyItem + clientError)) :=
  let rb := withBindingStatus rb (setResourceTargets (rbStatus rb) (buildResourceDependencyTargets rb deps)) in
  r ← attempt (resolveResourceDependencies rb deps);
  match r with
  | inr err => mret (rb, inr err)
  | inl (items, pending) => mret (withBindingStatus rb (setPendingResources (rbStatus rb) pending), inl items)
  end.

(** ** Watches *)

Definition requestsOf (rbs : list ReleaseBinding) : list (string * string) := (λ rb, (rbNamespace rb, rbName rb)) <$> rbs.

(** Errors are logged and nothing is enqueued. *)
Definition orNothing {A} (m : CM S (list A)) : CM S (list A) :=
  r ← attempt m; mret (match r with inl l => l | inr _ => [] end).

Definition findConsumerReleaseBindings (rb : ReleaseBinding) : CM S (list (string * string)) :=
  orNothing (consumers ← listByConnectionTarget
               (makeConnectionTargetKey (rbNamespace rb) (rbProject rb) (rbComponent rb) (rbEnvironment rb));
             mret (requestsOf consumers)).

Definition findConsumersForResource (rrb : ResourceReleaseBinding) : CM S (list (string * string)) :=
  if bool_decide (rrbProject rrb = "") || bool_decide (rrbResource rrb = "") || bool_decide (rrbEnvironment rrb = "") then mret []
  else
    orNothing (consumers ← listByResourceTarget
                 (makeResourceDependencyTargetKey (metaNamespace (rrbMeta rrb)) (rrbProject rrb) (rrbResource rrb) (rrbEnvironment rrb));
               mret (requestsOf consumers)).

(** The predicate on updates of a provider. *)
Definition endpointStatusChanged (old new : ReleaseBinding) : bool :=
  negb (bool_decide (rbState old = rbState new)) ||
  negb (bool_decide (bsEndpoints (rbStatus old) = bsEndpoints (rbStatus new))).

(** [readyConditionChanged]: the status and the observed generation of the first
    condition of that type. *)
Definition readyView (rrb : ResourceReleaseBinding) : string * Z :=
  match List.find (λ c, bool_decide (condType c = "Ready")) (rrbConditions rrb) with
  | Some c => (condStatus c, condGeneration c)
  | None => ("", 0%Z)
  end.

Definition readyConditionChanged (old new : ResourceReleaseBinding) : bool :=
  negb (bool_decide ((readyView old).1 = (readyView new).1)) || negb (bool_decide ((readyView old).2 = (readyView new).2)).

(** The predicate on updates of a resource's binding. *)
Definition resourceOutputsChanged (old new : ResourceReleaseBinding) : bool :=
  negb (bool_decide (metaGeneration (rrbMeta old) = metaGeneration (rrbMeta new))) ||
  negb (bool_decide (rrbOutputs old = rrbOutputs new)) || readyConditionChanged old new.

(** ** Secret references *)

(** One reference: fetched once, and its key looked for. *)
Definition collectAndValidate (namespace : string) (secretRefs : secretMap) (ref : SecretKeyRef) : CM S secretMap :=
  if bool_decide (sekName ref = "") then mret secretRefs
  else
    found ← (match secretRefs !! sekName ref with
             | Some sr => mret (sr, secretRefs)
             | None =>
                 sr ← orElse (getSecretReference namespace (sekName ref))
                        (wrapErrorf ("failed to get SecretReference " +:+ quoted (sekName ref) +:+ ": "));
                 mret (sr, <[sekName ref := sr]> secretRefs)
             end);
    if existsb (λ d, bool_decide (sdSecretKey d = sekKey ref)) (srData found.1) then mret found.2
    else fails (plainErr ("key " +:+ quoted (sekKey ref) +:+ " not found in SecretReference " +:+ quoted (sekName ref) +:+ "; available keys: [" +:+
                          Join (sdSecretKey <$> srData found.1) " " +:+ "]")).

Fixpoint collectAll (namespace : string) (secretRefs : secretMap) (refs : list SecretKeyRef) : CM S secretMap :=
  match refs with
  | [] => mret secretRefs
  | ref :: refs => secretRefs ← collectAndValidate namespace secretRefs ref; collectAll namespace secretRefs refs
  end.

(** The override's references first, then those of the workload that no override
    replaces; variables before files. *)
Definition collectSecretReferences (workload : option WorkloadTemplateSpec) (rb : ReleaseBinding) : CM S secretMap :=
  let overEnv := match rbOverrides rb with Some c => coEnv c | None => [] end in
  let overFiles := match rbOverrides rb with Some c => coFiles c | None => [] end in
  let overriddenEnvKeys := evKey <$> overEnv in
  let overriddenFileKeys := fvKey <$> overFiles in
  m ← collectAll (rbNamespace rb) ∅ (omap evSecret overEnv);
  m ← collectAll (rbNamespace rb) m (omap fvSecret overFiles);
  match workload with
  | None => mret m
  | Some w =>
      m ← collectAll (rbNamespace rb) m (omap evSecret (filter (λ e, evKey e ∉ overriddenEnvKeys) (ctEnv (wlContainer w))));
      collectAll (rbNamespace rb) m (omap fvSecret (filter (λ f, fvKey f ∉ overriddenFileKeys) (ctFiles (wlContainer w))))
  end.

Definition collectSecretReferenceNames (workload : option WorkloadTemplateSpec) (rb : ReleaseBinding) : list string :=
  match workload with
  | None => []
  | Some w =>
      let container := wlContainer (MergeWorkloadOverrides w (rbOverrides rb)) in
      uniqueKeys (filter (λ n, n ≠ "") (sekName <$> (omap evSecret (ctEnv container) ++ omap fvSecret (ctFiles container))))
  end.

(** ** Watches of secrets, components and data planes *)

Definition listReleaseBindingsForSecretReference (namespace name : string) : CM S (list (string * string)) :=
  orNothing (bindings ← listBySecretReference namespace name; mret (requestsOf bindings)).

Definition findReleaseBindingsForComponent (component : ComponentCR) : CM S (list (string * string)) :=
  orNothing (bindings ← listByComponent (metaNamespace (cpMeta component)) (metaName (cpMeta component)); mret (requestsOf bindings)).

Definition openchoreoAnnotationPrefix : string := "openchoreo.dev/".

Definition openchoreoAnnotationsChanged (oldAnn newAnn : gmap string string) : bool :=
  let pick := filter (λ kv : string * string, HasPrefix kv.1 openchoreoAnnotationPrefix = true) in
  negb (bool_decide (pick oldAnn = pick newAnn)).

(** The predicate on updates of a data plane. *)
Definition dataPlaneRenderInputsChanged (old new : ObjectMeta) : bool :=
  if negb (bool_decide (metaGeneration old = metaGeneration new)) then true
  else openchoreoAnnotationsChanged (metaAnnotations old) (metaAnnotations new).

Definition namesPlane (kind name : string) (env : EnvironmentCR) : bool :=
  match envDataPlaneRef env with
  | None => false
  | Some ref => bool_decide (refKind ref = kind) && bool_decide (refName ref = name)
  end.

(** The names of the environments that refer to the plane, by namespace. *)
Definition envsByNamespace (kind name : string) (envs : list EnvironmentCR) : gmap string (gset string) :=
  foldl (λ m env,
    if namesPlane kind name env
    then <[metaNamespace (envMeta env) := {[metaName (envMeta env)]} ∪ default ∅ (m !! metaNamespace (envMeta env))]> m else m) ∅ envs.

(** Namespaces whose bindings cannot be listed are passed over. *)
Fixpoint bindingsOfEnvironments (groups : list (string * gset string)) : CM S (list (string * string)) :=
  match groups with
  | [] => mret []
  | (ns, envNames) :: groups =>
      r ← attempt (listBindings ns);
      rest ← bindingsOfEnvironments groups;
      mret (match r with inl bindings => requestsOf (filter (λ rb, rbEnvironment rb ∈ envNames) bindings) | inr _ => [] end ++ rest)
  end.

Context {MR : MapRange}.

Definition releaseBindingsForDataPlaneRef (namespace kind name : string) : CM S (list (string * string)) :=
  r ← attempt (listEnvironments namespace);
  match r with
  | inr _ => mret []
  | inl envs => bindingsOfEnvironments (map_range (envsByNamespace kind name envs))
  end.

Definition findReleaseBindingsForDataPlane (dp : DataPlane) : CM S (list (string * string)) :=
  releaseBindingsForDataPlaneRef (metaNamespace (crMeta dp)) DataPlaneRefKindDataPlane (metaName (crMeta dp)).
Definition findReleaseBindingsForClusterDataPlane (cdp : ClusterDataPlane) : CM S (list (string * string)) :=
  releaseBindingsForDataPlaneRef "" DataPlaneRefKindClusterDataPlane (metaName (crMeta cdp)).
End Reads.
Arguments BindingReads : clear implicits.
