(* ===== verification/BindingEndpoints.v ===== *)
(** * Endpoints and readiness of a release binding

    [internal/controller/releasebinding/endpoint_resolve.go] and the second half
    of [controller.go]: the URLs of a workload's endpoints, from the routes and
    services that were rendered and the gateways of the environment and the data
    plane; [controller_status.go] and [workload_type.go]: what the health of the
    resources of a release says about the binding.

    The helpers of [unstructured] for nested fields are the class [Nested]; a
    field that is missing and one of another type are both [None]. *)

From S2P Require Import Prelude GoStrings GoValue RenderErrors ReleaseObjects PlaneObjects ReleaseController NetworkPolicy WorkloadContext BindingObjects BindingConnections.

#[local] Set Warnings "-register-all".

(** ** Gateways *)

Definition resolveGatewayEndpointByVisibility (visibility : string) (env : option EnvironmentCR) (dp : option DataPlane)
    : option GatewayEndpointSpec :=
  match dp with
  | None => None
  | Some dp =>
      let spec :=
        match env with
        | Some env => match gsIngress (envGateway env) with Some _ => envGateway env | None => dpGateway (crSpec dp) end
        | None => dpGateway (crSpec dp)
        end in
      match gsIngress spec with
      | None => None
      | Some ingress => if bool_decide (visibility = EndpointVisibilityExternal) then gnExternal ingress else gnInternal ingress
      end
  end.

(** ** URLs of routes *)

Definition gatewayAPIGroup : string := "gateway.networking.k8s.io".
Definition httpRouteKind : string := "HTTPRoute".
Definition grpcRouteKind : string := "GRPCRoute".
Definition tlsRouteKind : string := "TLSRoute".
Definition LabelKeyEndpointName : string := "openchoreo.dev/endpoint-name".
Definition LabelKeyEndpointVisibility : string := "openchoreo.dev/endpoint-visibility".
Definition AnnotationKeyEndpointBasePath : string := "openchoreo.dev/endpoint-base-path".

Definition routeKindCompat : list (string * list string) :=
  [(httpRouteKind, [EndpointTypeHTTP; EndpointTypeGraphQL; EndpointTypeWebsocket; EndpointTypeGRPC]);
   (grpcRouteKind, [EndpointTypeGRPC]);
   (tlsRouteKind, [EndpointTypeHTTP; EndpointTypeGraphQL; EndpointTypeWebsocket; EndpointTypeGRPC; EndpointTypeTCP])].

Definition compatOf (kind : string) : option (list string) :=
  snd <$> List.find (λ kc, bool_decide (kc.1 = kind)) routeKindCompat.

Definition isRoutableEndpointType (t : string) : bool := existsb (λ kc, bool_decide (t ∈ kc.2)) routeKindCompat.

Definition schemeFor (t : string) (tls : bool) : string :=
  if bool_decide (t = EndpointTypeHTTP) || bool_decide (t = EndpointTypeGraphQL) then if tls then "https" else "http"
  else if bool_decide (t = EndpointTypeWebsocket) then if tls then "wss" else "ws"
  else if bool_decide (t = EndpointTypeGRPC) then if tls then "grpcs" else "grpc"
  else if bool_decide (t = EndpointTypeTCP) then if tls then "tls" else ""
  else "".

Definition buildInvokeURL (scheme hostname path : string) (port : Z) : EndpointURL := mkURL scheme hostname port path.

Definition buildRouteURLs (routeKind epType hostname path : string) (ep : option GatewayEndpointSpec) : option EndpointGatewayURLs :=
  match ep with
  | None => None
  | Some ep =>
      let urls :=
        if bool_decide (routeKind = httpRouteKind) || bool_decide (routeKind = grpcRouteKind) then
          mkGatewayURLs ((λ l, buildInvokeURL (schemeFor epType false) hostname path (glPort l)) <$> geHTTP ep)
                        ((λ l, buildInvokeURL (schemeFor epType true) hostname path (glPort l)) <$> geHTTPS ep) None
        else if bool_decide (routeKind = tlsRouteKind) then
          mkGatewayURLs None None ((λ l, buildInvokeURL (schemeFor epType true) hostname path (glPort l)) <$> geTLS ep)
        else mkGatewayURLs None None None in
      match urls with
      | mkGatewayURLs None None None => None
      | _ => Some urls
      end
  end.

Section Routes.
Context {U : Unstructured}.

Class Nested := {
  (* [obj.Object] *)
  Content : Obj → gmap string any;
  OfContent : gmap string any → Obj;
  GetAPIVersion : Obj → string;
  GetAnnotations : Obj → gmap string string;
  NestedSlice : gmap string any → list string → option (list any);
  NestedStringSlice : gmap string any → list string → option (list string);
  NestedString : gmap string any → list string → string;
  NestedInt64 : gmap string any → list string → option Z
}.
Context {N : Nested}.

Record indexedRoute := mkRoute { irObj : Obj; irKind : string }.
Record endpointRoutes := mkRoutes { erExternal : option indexedRoute; erInternal : option indexedRoute }.

Definition extractFirstHostname (obj : Obj) : string :=
  match NestedStringSlice (Content obj) ["spec"; "hostnames"] with Some (h :: _) => h | _ => "" end.

Definition extractFirstPathValue (obj : Obj) : string :=
  match NestedSlice (Content obj) ["spec"; "rules"] with
  | Some (VMap firstRule :: _) =>
      match NestedSlice firstRule ["matches"] with
      | Some (VMap firstMatch :: _) => NestedString firstMatch ["path"; "value"]
      | _ => ""
      end
  | _ => ""
  end.

Definition routePath (r : indexedRoute) : string :=
  let base := default "" (GetAnnotations (irObj r) !! AnnotationKeyEndpointBasePath) in
  if negb (bool_decide (base = "")) then base
  else if bool_decide (irKind r = httpRouteKind) then extractFirstPathValue (irObj r)
  else "".

(** A manifest that is empty or does not parse is passed over. *)
Definition objectOf (res : RenderedManifest) : option Obj :=
  if bool_decide (manifestRaw res = "") then None
  else match UnmarshalObj (manifestRaw res) with Val obj => Some obj | Fail _ => None end.

(** The endpoint and the visibility a route is labelled with, when it is a route
    of a kind that can expose the endpoint. *)
Definition routeOf (routable : gmap string WorkloadEndpoint) (res : RenderedManifest) : option (string * string * indexedRoute) :=
  obj ← objectOf res;
  if negb (bool_decide (gvkGroup (GroupVersionKind obj) = gatewayAPIGroup)) then None
  else
    let kind := gvkKind (GroupVersionKind obj) in
    compat ← compatOf kind;
    let endpointName := default "" (GetLabels obj !! LabelKeyEndpointName) in
    if bool_decide (endpointName = "") then None
    else
      meta ← routable !! endpointName;
      if bool_decide (epType meta ∈ compat)
      then Some (endpointName, default "" (GetLabels obj !! LabelKeyEndpointVisibility), mkRoute obj kind)
      else None.

(** A later route of the same endpoint and bucket overwrites. *)
Definition indexRoute (index : gmap string endpointRoutes) (r : string * string * indexedRoute) : gmap string endpointRoutes :=
  let '(name, visibility, route) := r in
  let routes := default (mkRoutes None None) (index !! name) in
  <[name := if bool_decide (visibility = EndpointVisibilityExternal)
            then mkRoutes (Some route) (erInternal routes) else mkRoutes (erExternal routes) (Some route)]> index.

Definition indexRoutes (routable : gmap string WorkloadEndpoint) (resources : list RenderedManifest) : gmap string endpointRoutes :=
  foldl indexRoute ∅ (omap (routeOf routable) resources).

Definition routeURLs (epType visibility : string) (environment : option EnvironmentCR) (dataPlane : option DataPlane)
    (r : option indexedRoute) : option EndpointGatewayURLs :=
  r ← r;
  let hostname := extractFirstHostname (irObj r) in
  if bool_decide (hostname = "") then None
  else
    gwEndpoint ← resolveGatewayEndpointByVisibility visibility environment dataPlane;
    buildRouteURLs (irKind r) epType hostname (routePath r) (Some gwEndpoint).

(** The visibility an internal route asks the gateway for is that of its label. *)
Definition labelledVisibility (r : option indexedRoute) : string :=
  match r with Some r => default "" (GetLabels (irObj r) !! LabelKeyEndpointVisibility) | None => "" end.

Definition routableEndpointsOf (endpoints : gmap string WorkloadEndpoint) : gmap string WorkloadEndpoint :=
  filter (λ kv, isRoutableEndpointType (epType kv.2) = true) endpoints.

Definition endpointStatusOf (endpoints : gmap string WorkloadEndpoint) (index : gmap string endpointRoutes)
    (environment : option EnvironmentCR) (dataPlane : option DataPlane) (name : string) : option EndpointURLStatus :=
  ep ← endpoints !! name;
  routes ← index !! name;
  Some (mkEndpointStatus name (epType ep) None
          (routeURLs (epType ep) (labelledVisibility (erInternal routes)) environment dataPlane (erInternal routes))
          (routeURLs (epType ep) EndpointVisibilityExternal environment dataPlane (erExternal routes))).

Definition resolveEndpointURLStatuses (resources : list RenderedManifest) (endpoints : gmap string WorkloadEndpoint)
    (environment : option EnvironmentCR) (dataPlane : option DataPlane) : list EndpointURLStatus :=
  let routable := routableEndpointsOf endpoints in
  let index := indexRoutes routable resources in
  omap (endpointStatusOf routable index environment dataPlane) (sorted_keys routable).

(** ** URLs of services *)

Record serviceInfo := mkServiceInfo { siName : string; siNamespace : string; siPorts : list Z }.

Definition MaxInt32 : Z := 2147483647.

Definition portOf (p : any) : option Z :=
  match p with
  | VMap portMap =>
      port ← NestedInt64 portMap ["port"];
      if bool_decide (0 < port ∧ port ≤ MaxInt32)%Z then Some port else None
  | _ => None
  end.

Definition serviceOf (res : RenderedManifest) : option serviceInfo :=
  obj ← objectOf res;
  if bool_decide (GetAPIVersion obj = "v1") && bool_decide (gvkKind (GroupVersionKind obj) = "Service")
  then Some (mkServiceInfo (GetName obj) (GetNamespace obj)
               (omap portOf (default [] (NestedSlice (Content obj) ["spec"; "ports"]))))
  else None.

Definition extractAllServiceInfos (resources : list RenderedManifest) : list serviceInfo := omap serviceOf resources.

Definition matchingPorts (endpoints : gmap string WorkloadEndpoint) (s : serviceInfo) : nat :=
  length (filter (λ p, p ∈ (epPort ∘ snd) <$> map_to_list endpoints) (siPorts s)).

Fixpoint bestLoop (endpoints : gmap string WorkloadEndpoint) (services : list serviceInfo) (best : option serviceInfo) (bestCount : Z)
    : option serviceInfo :=
  match services with
  | [] => best
  | s :: services =>
      let count := Z.of_nat (matchingPorts endpoints s) in
      if (bestCount <? count)%Z then bestLoop endpoints services (Some s) count else bestLoop endpoints services best bestCount
  end.

Definition bestMatchingService (services : list serviceInfo) (endpoints : gmap string WorkloadEndpoint) : option serviceInfo :=
  match services with
  | [] => None
  | [s] => Some s
  | _ => bestLoop endpoints services None (-1)
  end.

Definition schemeForEndpointType (epType : string) : string :=
  if bool_decide (epType = EndpointTypeHTTP) || bool_decide (epType = EndpointTypeGraphQL) then "http"
  else if bool_decide (epType = EndpointTypeWebsocket) then "ws"
  else if bool_decide (epType = EndpointTypeGRPC) then "grpc"
  else if bool_decide (epType = EndpointTypeTCP) then "tcp"
  else if bool_decide (epType = EndpointTypeUDP) then "udp"
  else "http".

Definition clusterLocalSuffix : string := "svc.cluster.local".

Definition buildServiceURL (svc : serviceInfo) (ep : WorkloadEndpoint) : option EndpointURL :=
  if bool_decide (epPort ep ∈ siPorts svc)
  then Some (mkURL (schemeForEndpointType (epType ep)) (siName svc +:+ "." +:+ siNamespace svc +:+ "." +:+ clusterLocalSuffix)
               (epPort ep) (epBasePath ep))
  else None.

Context {MR : MapRange}.

(** [existingByName]: the last index of each name. *)
Definition lastIndex (existing : list EndpointURLStatus) : gmap string nat :=
  foldl (λ m i, match existing !! i with Some ep => <[esName ep := i]> m | None => m end) ∅ (seq 0 (length existing)).

Definition withServiceURL (st : EndpointURLStatus) (type : string) (url : EndpointURL) : EndpointURLStatus :=
  mkEndpointStatus (esName st) type (Some url) (esInternalURLs st) (esExternalURLs st).

Definition setServiceURL (svc : serviceInfo) (existingByName : gmap string nat) (result : list EndpointURLStatus)
    (kv : string * WorkloadEndpoint) : list EndpointURLStatus :=
  match buildServiceURL svc kv.2, existingByName !! kv.1 with
  | Some svcURL, Some idx => alter (λ st, withServiceURL st (epType kv.2) svcURL) idx result
  | _, _ => result
  end.

Definition newEndpointStatus (svc : serviceInfo) (endpoints : gmap string WorkloadEndpoint) (name : string) : option EndpointURLStatus :=
  ep ← endpoints !! name;
  svcURL ← buildServiceURL svc ep;
  Some (mkEndpointStatus name (epType ep) (Some svcURL) None None).

Definition resolveServiceURLs (resources : list RenderedManifest) (endpoints : gmap string WorkloadEndpoint)
    (existing : list EndpointURLStatus) : list EndpointURLStatus :=
  if bool_decide (size endpoints = 0) then existing
  else
    match bestMatchingService (extractAllServiceInfos resources) endpoints with
    | None => existing
    | Some svcInfo =>
        let existingByName := lastIndex existing in
        let newNames := sort_Strings (filter (λ name, existingByName !! name = None) (fst <$> map_range endpoints)) in
        foldl (setServiceURL svcInfo existingByName) existing (map_range endpoints)
        ++ omap (newEndpointStatus svcInfo endpoints) newNames
    end.
End Routes.
Arguments Nested : clear implicits.
Arguments Nested {_}.

(** ** Readiness *)

Inductive WorkloadType := WorkloadTypeDeployment | WorkloadTypeStatefulSet | WorkloadTypeCronJob | WorkloadTypeJob
  | WorkloadTypeProxy | WorkloadTypeUnknown.
Inductive ResourceCategory := CategoryPrimaryWorkload | CategorySupporting | CategoryOperational | CategoryNoStatus.

#[global] Instance ResourceCategory_eq_dec : EqDecision ResourceCategory.
Proof. solve_decision. Defined.

Definition extractWorkloadType (componentType : string) : WorkloadType :=
  let head := (Cut "/"%char componentType).1.1 in
  if bool_decide (head = "deployment") then WorkloadTypeDeployment
  else if bool_decide (head = "statefulset") then WorkloadTypeStatefulSet
  else if bool_decide (head = "cronjob") then WorkloadTypeCronJob
  else if bool_decide (head = "job") then WorkloadTypeJob
  else if bool_decide (head = "proxy") then WorkloadTypeProxy
  else WorkloadTypeUnknown.

Definition isKind (g k group kind : string) : bool := bool_decide (g = group) && bool_decide (k = kind).

Definition isPrimaryWorkload (group kind : string) (w : WorkloadType) : bool :=
  match w with
  | WorkloadTypeDeployment => isKind group kind appsAPIGroup deploymentKind
  | WorkloadTypeStatefulSet => isKind group kind appsAPIGroup statefulSetKind
  | WorkloadTypeCronJob => isKind group kind batchAPIGroup cronJobKind
  | WorkloadTypeJob => isKind group kind batchAPIGroup "Job"
  | WorkloadTypeProxy | WorkloadTypeUnknown => false
  end.

Definition categorizeResource (group kind : string) (w : WorkloadType) : ResourceCategory :=
  if isPrimaryWorkload group kind w then CategoryPrimaryWorkload
  else if bool_decide (group = appsAPIGroup) && bool_decide (kind ∈ [deploymentKind; statefulSetKind; "DaemonSet"]) then CategoryPrimaryWorkload
  else if bool_decide (group = batchAPIGroup) && bool_decide (kind ∈ ["Job"; cronJobKind]) then CategoryPrimaryWorkload
  else if isKind group kind "" "Pod" then CategoryOperational
  else if isKind group kind "" "Service" then CategorySupporting
  else if isKind group kind "" "PersistentVolumeClaim" then CategorySupporting
  else if isKind group kind "" "ServiceAccount" then CategoryNoStatus
  else if isKind group kind "autoscaling" "HorizontalPodAutoscaler" then CategoryOperational
  else if isKind group kind "gateway.networking.k8s.io" "HTTPRoute" then CategoryOperational
  else if isKind group kind "gateway.networking.k8s.io" "Gateway" then CategoryOperational
  else if isKind group kind "networking.k8s.io" "Ingress" then CategoryOperational
  else if isKind group kind "" "ConfigMap" then CategoryNoStatus
  else if isKind group kind "" "Secret" then CategoryNoStatus
  else if isKind group kind "policy" "NetworkPolicy" then CategoryNoStatus
  else if bool_decide (group = "rbac.authorization.k8s.io") then CategoryNoStatus
  else CategoryOperational.

Definition categoryOf (w : WorkloadType) (res : ManifestStatus) : ResourceCategory := categorizeResource (msGroup res) (msKind res) w.
Definition isPrimary (w : WorkloadType) (res : ManifestStatus) : bool := isPrimaryWorkload (msGroup res) (msKind res) w.

(** Readiness, reason and message. *)
Definition verdict : Type := bool * string * string.

Record ResourceStatusSummary := mkSummary {
  sumTotal : nat; sumHealthy : nat; sumProgressing : nat; sumDegraded : nat; sumSuspended : nat; sumUnknown : nat
}.

Definition countHealth (h : Health) (resources : list ManifestStatus) : nat := length (filter (λ r, msHealth r = h) resources).

Definition aggregateResourceStatus (resources : list ManifestStatus) : ResourceStatusSummary :=
  mkSummary (length resources) (countHealth HealthHealthy resources) (countHealth HealthProgressing resources)
    (countHealth HealthDegraded resources) (countHealth HealthSuspended resources) (countHealth HealthUnknown resources).

Definition firstDegraded (what : string) (resources : list ManifestStatus) : option verdict :=
  (λ r, (false, "ResourcesDegraded", what +:+ " resource " +:+ msKind r +:+ "/" +:+ msName r +:+ " is degraded")) <$>
  List.find (λ r, bool_decide (msHealth r = HealthDegraded)) resources.

(** The last primary workload counts; workloads that are not primary are left out
    of every list. *)
Definition evaluateDeploymentStatus (resources : list ManifestStatus) (w : WorkloadType) : verdict :=
  match last (filter (λ r, isPrimary w r = true) resources) with
  | None => (false, "ResourcesProgressing", "Primary workload not found")
  | Some p =>
      let name := "Primary workload " +:+ msKind p +:+ "/" +:+ msName p in
      match msHealth p with
      | HealthDegraded => (false, "ResourcesDegraded", name +:+ " is degraded")
      | HealthProgressing => (false, "ResourcesProgressing", name +:+ " is progressing")
      | HealthUnknown => (false, "ResourcesUnknown", name +:+ " status unknown")
      | HealthSuspended => (true, "ReadyWithSuspendedResources", "Primary workload " +:+ msKind p +:+ " is suspended (scaled to 0)")
      | HealthHealthy =>
          match firstDegraded "Supporting" (filter (λ r, categoryOf w r = CategorySupporting) resources) with
          | Some v => v
          | None =>
              match firstDegraded "Operational" (filter (λ r, categoryOf w r = CategoryOperational) resources) with
              | Some v => v
              | None => (true, "Ready", "Primary workload " +:+ msKind p +:+ " and all supporting resources are ready")
              end
          end
      end
  end.

Definition evaluateStatefulSetStatus : list ManifestStatus → WorkloadType → verdict := evaluateDeploymentStatus.

Definition evaluateCronJobStatus (resources : list ManifestStatus) (w : WorkloadType) : verdict :=
  match List.find (isPrimary w) resources with
  | None => (false, "ResourcesProgressing", "Primary CronJob not found")
  | Some p =>
      match msHealth p with
      | HealthDegraded => (false, "ResourcesDegraded", "CronJob " +:+ msName p +:+ " is degraded")
      | HealthUnknown => (false, "ResourcesUnknown", "CronJob " +:+ msName p +:+ " status unknown")
      | HealthSuspended => (true, "CronJobSuspended", "CronJob " +:+ msName p +:+ " is suspended")
      | HealthProgressing => (true, "CronJobScheduled", "CronJob " +:+ msName p +:+ " is scheduled, job execution running")
      | HealthHealthy => (true, "CronJobScheduled", "CronJob " +:+ msName p +:+ " is scheduled and ready")
      end
  end.

Definition evaluateJobStatus (resources : list ManifestStatus) (w : WorkloadType) : verdict :=
  match List.find (isPrimary w) resources with
  | None => (false, "ResourcesProgressing", "Primary Job not found")
  | Some p =>
      match msHealth p with
      | HealthDegraded => (false, "JobFailed", "Job " +:+ msName p +:+ " failed")
      | HealthUnknown => (false, "ResourcesUnknown", "Job " +:+ msName p +:+ " status unknown")
      | HealthProgressing => (false, "JobRunning", "Job " +:+ msName p +:+ " is running")
      | HealthSuspended => (false, "JobRunning", "Job " +:+ msName p +:+ " is suspended")
      | HealthHealthy => (true, "JobCompleted", "Job " +:+ msName p +:+ " completed successfully")
      end
  end.

Definition evaluateGenericStatus (resources : list ManifestStatus) : verdict :=
  let s := aggregateResourceStatus resources in
  let part n := Itoa (Z.of_nat n) +:+ "/" +:+ Itoa (Z.of_nat (sumTotal s)) in
  if bool_decide (sumTotal s = 0) then (true, "Ready", "No resources to track")
  else if bool_decide (0 < sumDegraded s) then (false, "ResourcesDegraded", part (sumDegraded s) +:+ " resources degraded")
  else if bool_decide (0 < sumProgressing s) then (false, "ResourcesProgressing", part (sumProgressing s) +:+ " resources progressing")
  else if bool_decide (0 < sumUnknown s) then (false, "ResourcesUnknown", part (sumUnknown s) +:+ " resources status unknown")
  else if bool_decide (sumHealthy s + sumSuspended s = sumTotal s)
  then (true, "Ready", "All " +:+ Itoa (Z.of_nat (sumTotal s)) +:+ " resources ready")
  else (false, "ResourcesUnknown", "Unable to determine resource status").

Definition evaluateStatus (resources : list ManifestStatus) (w : WorkloadType) : verdict :=
  match w with
  | WorkloadTypeDeployment => evaluateDeploymentStatus resources w
  | WorkloadTypeStatefulSet => evaluateStatefulSetStatus resources w
  | WorkloadTypeCronJob => evaluateCronJobStatus resources w
  | WorkloadTypeJob => evaluateJobStatus resources w
  | WorkloadTypeProxy | WorkloadTypeUnknown => evaluateGenericStatus resources
  end.

Section Ready.
Context {SC : StatusConditions}.

(** A failure to apply that was recorded for the current generation. *)
Definition applyFailure (release : RenderedRelease) : option Condition :=
  match FindStatusCondition (GetConditions release) ConditionResourcesApplied with
  | Some c => if bool_decide (condStatus c = ConditionFalse) && bool_decide (condGeneration c = relGeneration release) then Some c else None
  | None => None
  end.

Definition setResourcesReadyStatus (now : Z) (rb : ReleaseBinding) (release : RenderedRelease) (component : ComponentCR) : ReleaseBinding :=
  let resources := stResources (relStatus release) in
  if bool_decide (length resources = 0) then
    match applyFailure release with
    | Some c => markFalse now rb ConditionResourcesReady "ResourceApplyFailed" (condMessage c)
    | None => markFalse now rb ConditionResourcesReady "ResourcesProgressing" ("Release " +:+ quoted (relName release) +:+ " has no resources yet")
    end
  else
    let '(ready, reason, message) := evaluateStatus resources (extractWorkloadType (cpComponentType component)) in
    if ready : bool then markTrue now rb ConditionResourcesReady reason message
    else markFalse now rb ConditionResourcesReady reason message.

(** The loop keeps the last condition of each type. *)
Definition lastCondition (t : string) (cs : list Condition) : option Condition := last (filter (λ c, condType c = t) cs).

Definition isTrue (c : option Condition) : bool := match c with Some c => bool_decide (condStatus c = ConditionTrue) | None => false end.
Definition isTrueOrAbsent (c : option Condition) : bool := match c with Some c => bool_decide (condStatus c = ConditionTrue) | None => true end.

Definition setReadyCondition (now : Z) (rb : ReleaseBinding) : ReleaseBinding :=
  let cs := bsConditions (rbStatus rb) in
  let releaseSynced := lastCondition ConditionReleaseSynced cs in
  let resourcesReady := lastCondition ConditionResourcesReady cs in
  let connectionsResolved := lastCondition ConditionConnectionsResolved cs in
  let resourceDependenciesReady := lastCondition ConditionResourceDependenciesReady cs in
  if isTrue releaseSynced && isTrue resourcesReady && isTrueOrAbsent connectionsResolved && isTrueOrAbsent resourceDependenciesReady
  then markTrue now rb ConditionReady "Ready" "ReleaseBinding is ready"
  else if negb (isTrue releaseSynced) then
    match releaseSynced with
    | Some c => markFalse now rb ConditionReady (condReason c) (condMessage c)
    | None => markFalse now rb ConditionReady "ReleaseSynced" "Release is not synced"
    end
  else if negb (isTrueOrAbsent connectionsResolved) then
    match connectionsResolved with
    | Some c => markFalse now rb ConditionReady (condReason c) (condMessage c)
    | None => rb
    end
  else if negb (isTrueOrAbsent resourceDependenciesReady) then
    match resourceDependenciesReady with
    | Some c => markFalse now rb ConditionReady (condReason c) (condMessage c)
    | None => rb
    end
  else
    match resourcesReady with
    | Some c => markFalse now rb ConditionReady (condReason c) (condMessage c)
    | None => markFalse now rb ConditionReady "ResourcesProgressing" "Resources are being evaluated"
    end.
End Ready.
