(* ===== verification/BindingDelivery.v ===== *)
(** * Delivery events of a rollout

    [internal/controller/releasebinding/delivery_events.go]: the lifecycle events
    of a rollout that the binding controller creates in the data plane, with the
    markers in the status of the binding that record them.  The client of the
    plane and the JSON codec are the classes [EventClient] and [DeliveryCodec];
    the clock is read once per reconciliation. *)

From S2P Require Import Prelude GoStrings GoValue RenderErrors ReleaseObjects PlaneObjects PlaneRefs ReleaseController.
From S2P Require Import K8sNames NetworkPolicy WorkloadContext BindingObjects BindingConnections BindingEndpoints.

#[local] Set Warnings "-register-all".

Definition reasonDeploymentStarted : string := "DeploymentStarted".
Definition reasonDeploymentSucceeded : string := "DeploymentSucceeded".
Definition reasonDeploymentFailed : string := "DeploymentFailed".
Definition reasonDeploymentRecovered : string := "DeploymentRecovered".
Definition deliveryReportingController : string := "openchoreo.dev/releasebinding-controller".
Definition deliveryControllerName : string := "releasebinding-controller".
Definition failureReasonApplyFailed : string := "ApplyFailed".
Definition failureReasonDegraded : string := "Degraded".
Definition deliveryObservabilityPlane : string := "observabilityplane".

Record deliveryEventPayload := mkPayload {
  plRolloutID : string;
  plComponentReleaseName : string;
  plNamespaceName : string;
  plProjectUID : string;
  plComponentUID : string;
  plEnvironmentUID : string;
  plPhase : string;
  plFailureReason : string;
  plFailureEpisode : Z;
  plCommit : string;
  plCommitAuthoredAt : string
}.

(** The fields of [corev1.Event] that are set; a time that is zero is [None]. *)
Record Event := mkEvent {
  evtNamespace : string;
  evtName : string;
  evtInvolved : string * string * string * string;
  evtType : string;
  evtReason : string;
  evtMessage : string;
  evtFirstTimestamp : option Z;
  evtEventTime : option Z
}.

(** ** Markers *)

Definition incr32 (n : Z) : Z := if bool_decide (n = MaxInt32) then (- MaxInt32 - 1)%Z else (n + 1)%Z.

Definition freshDelivery (rolloutID : string) : DeliveryStatus := mkDelivery rolloutID None None None None 0.

Definition markStarted (d : DeliveryStatus) (t : Z) : DeliveryStatus :=
  mkDelivery (dsRolloutID d) (Some t) (dsSucceededAt d) (dsFailedAt d) (dsRecoveredAt d) (dsFailureEpisode d).
Definition markSucceeded (d : DeliveryStatus) (t : Z) : DeliveryStatus :=
  mkDelivery (dsRolloutID d) (dsStartedAt d) (Some t) (dsFailedAt d) (dsRecoveredAt d) (dsFailureEpisode d).
Definition markFailed (d : DeliveryStatus) (t episode : Z) : DeliveryStatus :=
  mkDelivery (dsRolloutID d) (dsStartedAt d) (dsSucceededAt d) (Some t) (dsRecoveredAt d) episode.
Definition markRecovered (d : DeliveryStatus) (t : Z) : DeliveryStatus :=
  mkDelivery (dsRolloutID d) (dsStartedAt d) (dsSucceededAt d) (dsFailedAt d) (Some t) (dsFailureEpisode d).

Definition hasOpenFailureEpisode (d : DeliveryStatus) : bool :=
  match dsFailedAt d, dsRecoveredAt d with
  | None, _ => false
  | Some _, None => true
  | Some failed, Some recovered => (recovered <? failed)%Z
  end.

(** ** Health *)

Fixpoint summarizeLoop (statuses : list ManifestStatus) (allHealthy : bool) (degradedID : string) : bool * string :=
  match statuses with
  | [] => (allHealthy, degradedID)
  | s :: statuses =>
      match msHealth s with
      | HealthDegraded => summarizeLoop statuses false (if bool_decide (degradedID = "") then msID s else degradedID)
      | HealthHealthy | HealthSuspended => summarizeLoop statuses allHealthy degradedID
      | HealthUnknown | HealthProgressing => summarizeLoop statuses false degradedID
      end
  end.

Definition summarizeHealth (statuses : list ManifestStatus) : bool * string :=
  if bool_decide (length statuses = 0) then (false, "") else summarizeLoop statuses true "".

(** [json.Unmarshal] of the status of a deployment, of which the conditions are
    read, and of a pod. *)
Class DeliveryCodec := {
  decodeDeploymentConditions : string → option (list DeploymentCondition);
  decodePodStatus : string → option Pod;
  marshalPayload : deliveryEventPayload → string + clientError
}.

Section Reasons.
Context {DC : DeliveryCodec}.

Fixpoint deploymentReason (cs : list DeploymentCondition) : string :=
  match cs with
  | [] => failureReasonDegraded
  | c :: cs =>
      if bool_decide (dcType c = "Progressing") && bool_decide (dcReason c = reasonProgressDeadlineExceeded)
      then reasonProgressDeadlineExceeded
      else if bool_decide (dcType c = "ReplicaFailure") && bool_decide (dcStatus c = ConditionTrue)
      then "DeploymentReplicaFailure"
      else deploymentReason cs
  end.

Fixpoint waitingReason (cs : list ContainerStatus) : string :=
  match cs with
  | [] => failureReasonDegraded
  | c :: cs =>
      match csWaiting c with
      | Some reason => if bool_decide (reason = "") then waitingReason cs else reason
      | None => waitingReason cs
      end
  end.

Definition degradedFailureReason (statuses : list ManifestStatus) (resourceID : string) : string :=
  match List.find (λ s, bool_decide (msID s = resourceID)) statuses with
  | None => failureReasonDegraded
  | Some rs =>
      match msStatus rs with
      | None => failureReasonDegraded
      | Some raw =>
          if isKind (msGroup rs) (msKind rs) appsAPIGroup deploymentKind then
            match decodeDeploymentConditions raw with Some cs => deploymentReason cs | None => failureReasonDegraded end
          else if isKind (msGroup rs) (msKind rs) "" "Pod" then
            match decodePodStatus raw with
            | Some p => if bool_decide (podPhase p = "Failed") then "PodFailed" else waitingReason (podContainers p)
            | None => failureReasonDegraded
            end
          else failureReasonDegraded
      end
  end.
End Reasons.

(** ** The rollout *)

Section Delivery.
Context {U : Unstructured} {N : Nested} {SC : StatusConditions} {DC : DeliveryCodec} {Frozen S PC : Type}.

Record deliveryContext := mkDeliveryContext {
  dxRolloutID : string;
  dxComponentReleaseName : string;
  dxNamespaceName : string;
  dxCommit : string;
  dxCommitAuthoredAt : string;
  dxPrimary : Obj
}.

Definition primaryWorkloadGVKs : list GVK :=
  [mkGVK appsAPIGroup "v1" deploymentKind; mkGVK appsAPIGroup "v1" statefulSetKind; mkGVK "batch" "v1" cronJobKind].

Definition deliveryProvenance (componentRelease : ComponentRelease Frozen) : string * string :=
  match crlSource componentRelease with
  | None => ("", "")
  | Some source => (wsCommit source, default "" (wsAuthoredAt source))
  end.

Definition asUnstructured (resources : list (gmap string any)) : list Obj := OfContent <$> resources.

Definition deliveryContextFor (bindingNamespace : string) (componentRelease : ComponentRelease Frozen) (release : RenderedRelease)
    (desiredResources : list Obj) : option deliveryContext :=
  if bool_decide (relUID release = "") then None
  else if bool_decide (relTargetPlane release = deliveryObservabilityPlane) then None
  else
    primary ← List.find (λ obj, bool_decide (GroupVersionKind obj ∈ primaryWorkloadGVKs)) desiredResources;
    let '(commit, authoredAt) := deliveryProvenance componentRelease in
    Some (mkDeliveryContext
            (metaUID (crlMeta componentRelease) +:+ "." +:+ relUID release +:+ "." +:+ Itoa (relGeneration release))
            (metaName (crlMeta componentRelease)) bindingNamespace commit authoredAt primary).

(** The markers of the rollout, fresh ones when it is another than they are of. *)
Definition deliveryState (delivery : option DeliveryStatus) (dc : deliveryContext) : DeliveryStatus :=
  match delivery with
  | Some d => if bool_decide (dsRolloutID d = dxRolloutID dc) then d else freshDelivery (dxRolloutID dc)
  | None => freshDelivery (dxRolloutID dc)
  end.

Definition deliveryHealthIsCurrent (release : RenderedRelease) : bool :=
  match FindStatusCondition (GetConditions release) ConditionResourcesApplied with
  | Some applied => bool_decide (condStatus applied = ConditionTrue) && bool_decide (condGeneration applied = relGeneration release)
  | None => false
  end.

(** ** Names of events *)

Definition shortHash (s : string) : string := stake 10 (EncodeToString (Sum256 s)).

Definition episodeSuffix (episode : Z) : string := "e" +:+ Itoa episode.

Definition deliveryEventName (dc : deliveryContext) (reason nameSuffix : string) : string :=
  let name := "oc-delivery-" +:+ shortHash (dxRolloutID dc) +:+ "-" +:+ ToLower (TrimPrefix reason "Deployment") in
  if bool_decide (nameSuffix = "") then name else name +:+ "-" +:+ nameSuffix.

Definition suffixOf (episode : Z) : string := if (0 <? episode)%Z then episodeSuffix episode else "".

(** ** Emission *)

(** [Create] and [Get] of events through a client of a plane. *)
Class EventClient := {
  createEvent : PC → Event → CM S unit;
  getEvent : PC → string → string → CM S Event
}.
Context {EC : EventClient}.

Definition payloadOf (dc : deliveryContext) (reason failureReason : string) (episode : Z) : deliveryEventPayload :=
  let uid k := default "" (GetLabels (dxPrimary dc) !! k) in
  mkPayload (dxRolloutID dc) (dxComponentReleaseName dc) (dxNamespaceName dc) (uid bmProjectUID) (uid bmComponentUID)
    (uid bmEnvironmentUID) (TrimPrefix reason "Deployment") failureReason episode (dxCommit dc) (dxCommitAuthoredAt dc).

Definition deliveryEvent (now : Z) (dc : deliveryContext) (reason : string) (episode : Z) (message : string) : Event :=
  let primary := dxPrimary dc in
  mkEvent (GetNamespace primary) (deliveryEventName dc reason (suffixOf episode))
    (GetAPIVersion primary, gvkKind (GroupVersionKind primary), GetNamespace primary, GetName primary)
    (if bool_decide (reason = reasonDeploymentFailed) then "Warning" else "Normal") reason message (Some now) (Some now).

Definition emitDeliveryEvent (pc : PC) (now : Z) (dc : deliveryContext) (reason failureReason : string) (episode : Z) : CM S unit :=
  match marshalPayload (payloadOf dc reason failureReason episode) with
  | inr err => fails (wrapErrorf "failed to marshal delivery event payload: " err)
  | inl message =>
      let event := deliveryEvent now dc reason episode message in
      r ← attempt (createEvent pc event);
      match r with
      | inl _ => mret ()
      | inr err =>
          if hasTag IsAlreadyExistsErr err then mret ()
          else fails (wrapErrorf ("failed to create " +:+ reason +:+ " delivery event " +:+ quoted (evtName event) +:+ ": ") err)
      end
  end.

(** The markers are a field of the binding that the code writes through a
    pointer: they are state beside that of the plane. *)
Abbreviation DM := (CM (S * DeliveryStatus)).

Definition onPlaneState {A} (m : CM S A) : DM A := λ w, let r := m w.1 in ((r.1, w.2), r.2).
Definition markers : DM DeliveryStatus := λ w, (w, inl w.2).
Definition setMarkers (d : DeliveryStatus) : DM unit := λ w, ((w.1, d), inl ()).

Definition emits (pc : PC) (now : Z) (dc : deliveryContext) (reason failureReason : string) (episode : Z) : DM unit :=
  onPlaneState (emitDeliveryEvent pc now dc reason failureReason episode).

Definition restoreLostFailureEpisode (pc : PC) (dc : deliveryContext) : DM unit :=
  d ← markers;
  let episode := incr32 (dsFailureEpisode d) in
  r ← attempt (onPlaneState (getEvent pc (GetNamespace (dxPrimary dc))
                               (deliveryEventName dc reasonDeploymentFailed (episodeSuffix episode))));
  match r with
  | inr err => if hasTag IsNotFoundErr err then mret () else fails err
  | inl event =>
      let failedAt := match evtFirstTimestamp event with Some t => t | None => default 0%Z (evtEventTime event) end in
      setMarkers (markFailed d failedAt episode)
  end.

Definition startOnce (pc : PC) (now : Z) (dc : deliveryContext) : DM unit :=
  d ← markers;
  match dsStartedAt d with
  | Some _ => mret ()
  | None => emits pc now dc reasonDeploymentStarted "" 0 ≫= λ _, setMarkers (markStarted d now)
  end.

Definition succeedOnce (pc : PC) (now : Z) (dc : deliveryContext) : DM unit :=
  d ← markers;
  match dsSucceededAt d with
  | Some _ => mret ()
  | None => emits pc now dc reasonDeploymentSucceeded "" 0 ≫= λ _, setMarkers (markSucceeded d now)
  end.

Definition failEpisode (pc : PC) (now : Z) (dc : deliveryContext) (reason : string) : DM unit :=
  d ← markers;
  let episode := incr32 (dsFailureEpisode d) in
  emits pc now dc reasonDeploymentFailed reason episode ≫= λ _, setMarkers (markFailed d now episode).

Definition recoverEpisode (pc : PC) (now : Z) (dc : deliveryContext) : DM unit :=
  d ← markers;
  emits pc now dc reasonDeploymentRecovered "" (dsFailureEpisode d) ≫= λ _,
  d ← markers; setMarkers (markRecovered d now).

Definition reconcileDeliveryEvents (pc : PC) (now : Z) (dc : deliveryContext) (statuses : list ManifestStatus) : DM unit :=
  startOnce pc now dc ≫= λ _,
  let '(allHealthy, degradedID) := summarizeHealth statuses in
  d ← markers;
  (if allHealthy && bool_decide (dsFailedAt d = None) then restoreLostFailureEpisode pc dc else mret ()) ≫= λ _,
  d ← markers;
  let openEpisode := hasOpenFailureEpisode d in
  if negb (bool_decide (degradedID = "")) && negb openEpisode then
    failEpisode pc now dc (degradedFailureReason statuses degradedID)
  else if allHealthy then
    succeedOnce pc now dc ≫= λ _,
    if openEpisode then recoverEpisode pc now dc else mret ()
  else mret ().

Definition emitDeliveryEvents (pc : PC) (now : Z) (dc : deliveryContext) (statuses : list ManifestStatus) : DM unit :=
  orElse (reconcileDeliveryEvents pc now dc statuses)
    (wrapErrorf ("failed to emit delivery lifecycle events for rollout " +:+ dxRolloutID dc +:+ ", remaining phases deferred: ")).

(** Its result tells whether a status update is needed, which the caller does not
    look at. *)
Definition markDeliveryApplyFailure (pc : PC) (now : Z) (dc : deliveryContext) : DM unit :=
  d ← markers;
  if hasOpenFailureEpisode d then mret ()
  else startOnce pc now dc ≫= λ _, failEpisode pc now dc failureReasonApplyFailed.

(** What the binding's markers become: every error is dropped, what was recorded
    before it stays. *)
Definition deliver (m : DM unit) (delivery : option DeliveryStatus) (dc : deliveryContext) : CM S DeliveryStatus := λ s,
  let r := m (s, deliveryState delivery dc) in (r.1.1, inl r.1.2).

(** [getClient] is [getBindingDPClient] for the environment of the binding. *)
Definition reconcileDelivery (getClient : CM S PC) (now : Z) (bindingNamespace : string) (delivery : option DeliveryStatus)
    (componentRelease : ComponentRelease Frozen) (release : RenderedRelease) (resources : list (gmap string any)) (applyFailed : bool)
    : CM S (option DeliveryStatus) :=
  match deliveryContextFor bindingNamespace componentRelease release (asUnstructured resources) with
  | None => mret delivery
  | Some dc =>
      c ← attempt getClient;
      match c with
      | inr _ => mret delivery
      | inl pc =>
          if applyFailed then d ← deliver (markDeliveryApplyFailure pc now dc) delivery dc; mret (Some d)
          else if negb (deliveryHealthIsCurrent release) then mret delivery
          else d ← deliver (emitDeliveryEvents pc now dc (stResources (relStatus release))) delivery dc; mret (Some d)
      end
  end.
End Delivery.
Arguments EventClient : clear implicits.
