(* ===== verification/BindingDeliverySpec.v ===== *)
(** * Delivery events: theorems

    The events of a rollout reach the plane in order, whatever writes are lost and
    whatever calls fail; and the one repair of a lost marker works for the first
    failure of a rollout only. *)

From S2P Require Import Prelude GoStrings GoValue RenderErrors ReleaseObjects PlaneObjects PlaneRefs.
From S2P Require Import K8sNames NetworkPolicy WorkloadContext WorkloadContextSpec.
From S2P Require Import BindingObjects BindingConnections BindingEndpoints BindingDelivery.

#[local] Set Warnings "-register-all".

Definition eventKey (e : Event) : string * string := (evtNamespace e, evtName e).

(** What a plane promises: the events that were ever created through it, oldest
    first.  An event may expire, and a call that fails may have had its effect;
    but an event that exists already was created once. *)
Class EventLaws S PC `{EventClient S PC} := {
  eventLog : PC → S → list Event;
  create_logged : ∀ pc e s, ∃ new, eventLog pc (createEvent pc e s).1 = eventLog pc s ++ new ∧ (new = [] ∨ new = [e]);
  create_effect : ∀ pc e s u, (createEvent pc e s).2 = inl u → eventLog pc (createEvent pc e s).1 = eventLog pc s ++ [e];
  create_exists : ∀ pc e s err, (createEvent pc e s).2 = inr err → hasTag IsAlreadyExistsErr err = true →
    eventKey e ∈ eventKey <$> eventLog pc s;
  get_silent : ∀ pc ns n s, eventLog pc (getEvent pc ns n s).1 = eventLog pc s;
  get_found : ∀ pc ns n s e, (getEvent pc ns n s).2 = inl e → e ∈ eventLog pc s ∧ eventKey e = (ns, n)
}.

(** ** Names *)

Section Names.
Context {U : Unstructured} {N : Nested} {DC : DeliveryCodec} {S PC : Type} (dc : deliveryContext).

Definition deliveryReasons : list string :=
  [reasonDeploymentStarted; reasonDeploymentSucceeded; reasonDeploymentFailed; reasonDeploymentRecovered].

Definition phaseKey (reason : string) (episode : Z) : string * string :=
  (GetNamespace (dxPrimary dc), deliveryEventName dc reason (suffixOf episode)).

Lemma deliveryEvent_key now reason episode message : eventKey (deliveryEvent now dc reason episode message) = phaseKey reason episode.
Proof. done. Qed.

Lemma deliveryEventName_form reason suffix :
  deliveryEventName dc reason suffix =
    ("oc-delivery-" +:+ shortHash (dxRolloutID dc) +:+ "-") +:+
    (ToLower (TrimPrefix reason "Deployment") +:+ (if bool_decide (suffix = "") then "" else "-" +:+ suffix)).
Proof.
  unfold deliveryEventName. case_bool_decide; rewrite !sapp_assoc; [by rewrite sapp_nil_r|done].
Qed.

Lemma suffixOf_cases episode : suffixOf episode = "" ∨ ∃ t, suffixOf episode = String "e" t.
Proof. unfold suffixOf. case_goal; [right|by left]. by eexists. Qed.

(** The key of an event determines its phase. *)
Lemma phaseKey_reason r1 r2 e1 e2 :
  r1 ∈ deliveryReasons → r2 ∈ deliveryReasons → phaseKey r1 e1 = phaseKey r2 e2 → r1 = r2.
Proof.
  intros H1 H2 [= Hname]. rewrite !deliveryEventName_form in Hname. apply sapp_inj_1 in Hname as [_ Hname]; [|done].
  unfold deliveryReasons in H1, H2.
  repeat (rewrite elem_of_cons in H1); repeat (rewrite elem_of_cons in H2).
  destruct H1 as [->|[->|[->|[->|H1]]]]; [..|by apply elem_of_nil in H1];
    (destruct H2 as [->|[->|[->|[->|H2]]]]; [..|by apply elem_of_nil in H2]);
    cbn in Hname; solve [done|discriminate].
Qed.
End Names.

(** ** The order of events *)

Section Ordered.
Context {U : Unstructured} {N : Nested} {DC : DeliveryCodec} {S PC : Type} {EC : EventClient S PC} {EL : EventLaws S PC}.
Context (pc : PC) (dc : deliveryContext).

Definition logged (s : S) : list (string * string) := eventKey <$> eventLog pc s.

Definition startedKey : string * string := phaseKey dc reasonDeploymentStarted 0.

(** What has to be in the plane before an event of a phase may be. *)
Definition allowedAfter (ks : list (string * string)) (k : string * string) : Prop :=
  (∀ reason ep, reason ∈ deliveryReasons → reason ≠ reasonDeploymentStarted → k = phaseKey dc reason ep → startedKey ∈ ks) ∧
  (∀ ep, k = phaseKey dc reasonDeploymentRecovered ep → phaseKey dc reasonDeploymentFailed ep ∈ ks).

Definition orderedKeys (ks : list (string * string)) : Prop := ∀ pre k post, ks = pre ++ k :: post → allowedAfter pre k.

Lemma orderedKeys_snoc ks k : orderedKeys ks → allowedAfter ks k → orderedKeys (ks ++ [k]).
Proof.
  intros Hks Hk pre x post Heq. destruct post as [|y post _] using rev_ind.
  - apply app_inj_tail in Heq as [-> ->]. done.
  - rewrite app_comm_cons, app_assoc in Heq. apply app_inj_tail in Heq as [-> _]. by eapply Hks.
Qed.

Lemma allowed_started ks : allowedAfter ks startedKey.
Proof.
  split; [|intros ep Heq; apply phaseKey_reason in Heq; [done|by repeat constructor..]].
  intros reason ep Hr Hne Heq. apply phaseKey_reason in Heq; [by rewrite Heq in Hne|by repeat constructor|done].
Qed.

Lemma allowed_phase ks reason ep :
  reason ∈ deliveryReasons → startedKey ∈ ks →
  (reason = reasonDeploymentRecovered → phaseKey dc reasonDeploymentFailed ep ∈ ks) →
  (∀ ep', phaseKey dc reason ep = phaseKey dc reason ep' → phaseKey dc reasonDeploymentFailed ep = phaseKey dc reasonDeploymentFailed ep') →
  allowedAfter ks (phaseKey dc reason ep).
Proof.
  intros Hr Hs Hrec Hep. split; [done|]. intros ep' Heq.
  assert (reason = reasonDeploymentRecovered) as -> by (eapply phaseKey_reason; [done|by repeat constructor|done]).
  rewrite <- (Hep ep' Heq). by apply Hrec.
Qed.

(** Equal names of one phase have equal suffixes. *)
Lemma phaseKey_episode reason ep ep' other :
  phaseKey dc reason ep = phaseKey dc reason ep' → phaseKey dc other ep = phaseKey dc other ep'.
Proof.
  unfold phaseKey. intros [= Hname]. rewrite !deliveryEventName_form in Hname.
  apply sapp_inj_1 in Hname as [_ Hname]; [|done]. apply sapp_inj_1 in Hname as [_ Hname]; [|done].
  by rewrite !deliveryEventName_form, Hname.
Qed.

(** ** Markers *)

Definition markersOk (ks : list (string * string)) (d : DeliveryStatus) : Prop :=
  (dsStartedAt d ≠ None → startedKey ∈ ks) ∧
  (dsFailedAt d ≠ None → phaseKey dc reasonDeploymentFailed (dsFailureEpisode d) ∈ ks) ∧
  (dsFailedAt d = None → dsFailureEpisode d = 0%Z).

Definition deliveryInv (w : S * DeliveryStatus) : Prop := orderedKeys (logged w.1) ∧ markersOk (logged w.1) w.2.

Lemma markersOk_app ks new d : markersOk ks d → markersOk (ks ++ new) d.
Proof.
  intros (Hs & Hf & He). split_and!; [| |done]; intros H; apply elem_of_app; left; [by apply Hs|by apply Hf].
Qed.

(** Computations that keep the invariant, whatever fails, and only add events. *)
Definition sound {A} (P : S * DeliveryStatus → Prop) (m : CM (S * DeliveryStatus) A) (Q : A → S * DeliveryStatus → Prop) : Prop :=
  ∀ w, deliveryInv w → P w →
    (∃ new, logged (m w).1.1 = logged w.1 ++ new) ∧ deliveryInv (m w).1 ∧ ∀ a, (m w).2 = inl a → Q a (m w).1.

Lemma sound_ret {A} (a : A) P (Q : A → S * DeliveryStatus → Prop) :
  (∀ w, deliveryInv w → P w → Q a w) → sound P (mret a) Q.
Proof. intros HQ w Hw HP. split_and!; [exists []; by rewrite app_nil_r|done|]. intros a' [= <-]. by apply HQ. Qed.

Lemma sound_fails {A} err P (Q : A → S * DeliveryStatus → Prop) : sound P (fails err) Q.
Proof. intros w Hw HP. split_and!; [exists []; by rewrite app_nil_r|done|done]. Qed.

Lemma sound_bind {A B} P Q R (m : CM (S * DeliveryStatus) A) (f : A → CM (S * DeliveryStatus) B) :
  sound P m Q → (∀ a, sound (Q a) (f a) R) → sound P (m ≫= f) R.
Proof.
  intros Hm Hf w Hw HP. specialize (Hm w Hw HP). rewrite CM_bind_eq. destruct (m w) as [w1 [a|err]]; cbn in *.
  - destruct Hm as ((new & Hnew) & Hw1 & HQ). destruct (Hf a w1 Hw1 (HQ a eq_refl)) as ((new' & Hnew') & H2 & HR).
    split_and!; [exists (new ++ new'); by rewrite Hnew', Hnew, app_assoc|done|done].
  - destruct Hm as (? & ? & ?). by split_and!.
Qed.

Lemma sound_weaken {A} (P P' : S * DeliveryStatus → Prop) (m : CM (S * DeliveryStatus) A) (Q Q' : A → S * DeliveryStatus → Prop) :
  sound P m Q → (∀ w, deliveryInv w → P' w → P w) → (∀ a w, Q a w → Q' a w) → sound P' m Q'.
Proof. intros Hm HP HQ w Hw HP'. destruct (Hm w Hw (HP w Hw HP')) as (? & ? & ?). split_and!; eauto. Qed.

Lemma sound_markers {A} (P : S * DeliveryStatus → Prop) (f : DeliveryStatus → CM (S * DeliveryStatus) A) Q :
  (∀ d, sound (λ w, P w ∧ w.2 = d) (f d) Q) → sound P (markers ≫= f) Q.
Proof. intros Hf w Hw HP. exact (Hf w.2 w Hw (conj HP eq_refl)). Qed.

Lemma sound_set (P : S * DeliveryStatus → Prop) d (Q : unit → S * DeliveryStatus → Prop) :
  (∀ w, deliveryInv w → P w → markersOk (logged w.1) d ∧ Q () (w.1, d)) → sound P (setMarkers d) Q.
Proof.
  intros H w Hw HP. destruct (H w Hw HP) as [Hd HQ]. split_and!; [exists []; by rewrite app_nil_r| |].
  - split; [apply Hw|done].
  - intros [] _. exact HQ.
Qed.

(** An event is emitted when its phase is allowed; afterwards it is in the plane. *)
Lemma sound_emits now reason why ep base d :
  sound (λ w, w.2 = d ∧ allowedAfter (logged w.1) (phaseKey dc reason ep) ∧ base ⊆ logged w.1)
    (emits pc now dc reason why ep)
    (λ _ w, w.2 = d ∧ phaseKey dc reason ep ∈ logged w.1 ∧ base ⊆ logged w.1).
Proof.
  intros [s d0] [Hord Hmk] (Hd & Hall & Hbase). cbn in Hd, Hall, Hbase, Hord, Hmk. subst d0.
  unfold emits, onPlaneState, emitDeliveryEvent. cbn [fst snd].
  destruct (marshalPayload _) as [message|err]; [|by split_and!; [exists []; rewrite app_nil_r|split|]].
  rewrite CM_bind_eq. unfold attempt. cbn [fst snd].
  set (e := deliveryEvent now dc reason ep message). pose proof (deliveryEvent_key dc now reason ep message : eventKey e = phaseKey dc reason ep) as Hk.
  destruct (create_logged pc e s) as (new & Hnew & Hcase).
  pose proof (create_effect pc e s) as Heff. pose proof (create_exists pc e s) as Hex.
  assert (Hlog : ∃ ks, logged (createEvent pc e s).1 = logged s ++ ks ∧ orderedKeys (logged s ++ ks)).
  { exists (eventKey <$> new). unfold logged. rewrite Hnew, fmap_app. split; [done|].
    destruct Hcase as [->| ->]; cbn; [by rewrite app_nil_r|]. rewrite Hk. by apply orderedKeys_snoc. }
  destruct Hlog as (ks & Hks & Hord'). destruct (createEvent pc e s) as [s' [[]|err]]; cbn in *.
  all: try destruct (hasTag IsAlreadyExistsErr err) eqn:Etag; cbn.
  all: split_and!; [by exists ks|by split; cbn; rewrite Hks; [|apply markersOk_app]|].
  - intros [] _. split_and!; [done| |].
    + unfold logged. rewrite (Heff () eq_refl), fmap_app, <- Hk. apply elem_of_app. right. cbn. by constructor.
    + rewrite Hks. by apply list_subseteq_app_l.
  - intros [] _. split_and!; [done| |]; rewrite Hks; [|by apply list_subseteq_app_l].
    apply elem_of_app. left. rewrite <- Hk. by eapply Hex.
  - done.
Qed.

(** ** The phases *)

Definition hasStarted (w : S * DeliveryStatus) : Prop := startedKey ∈ logged w.1.

Lemma sound_emit_bind {A} now reason why ep base d P (f : unit → CM (S * DeliveryStatus) A) Q :
  (∀ w, deliveryInv w → P w → w.2 = d ∧ allowedAfter (logged w.1) (phaseKey dc reason ep) ∧ base ⊆ logged w.1) →
  sound (λ w, w.2 = d ∧ phaseKey dc reason ep ∈ logged w.1 ∧ base ⊆ logged w.1) (f ()) Q →
  sound P (emits pc now dc reason why ep ≫= f) Q.
Proof.
  intros HP Hf. apply (sound_bind _ (λ _ w, w.2 = d ∧ phaseKey dc reason ep ∈ logged w.1 ∧ base ⊆ logged w.1)); [|intros []; exact Hf].
  eapply sound_weaken; [apply sound_emits|exact HP|done].
Qed.

Lemma startOnce_sound now : sound (λ _, True) (startOnce pc now dc) (λ _ w, hasStarted w).
Proof.
  apply sound_markers. intros d. destruct (dsStartedAt d) eqn:E.
  - apply sound_ret. intros w (_ & Hs & _) [_ <-]. apply Hs. by rewrite E.
  - apply (sound_emit_bind _ _ _ _ [] d).
    + intros w _ [_ Hw]. split_and!; [done|apply allowed_started|apply list_subseteq_nil].
    + apply sound_set. intros w (_ & _ & Hf & He) (<- & Hk & _). split; [split_and!|]; done.
Qed.

Lemma failEpisode_sound now why : sound hasStarted (failEpisode pc now dc why) (λ _ _, True).
Proof.
  apply sound_markers. intros d. apply (sound_emit_bind _ _ _ _ [startedKey] d).
  - intros w _ [Hs Hw]. split_and!; [done| |intros k ->%list_elem_of_singleton; done].
    apply allowed_phase; [by repeat constructor|done|done|]. intros ep'. apply phaseKey_episode.
  - apply sound_set. intros w (_ & Hs & _) (<- & Hk & _). split; [|done]. by split_and!.
Qed.

Lemma recoverEpisode_sound now :
  sound (λ w, hasStarted w ∧ dsFailedAt w.2 ≠ None) (recoverEpisode pc now dc) (λ _ _, True).
Proof.
  apply sound_markers. intros d. apply (sound_emit_bind _ _ _ _ [] d).
  - intros w (_ & _ & Hf & _) [[Hs Hne] <-]. split_and!; [done| |apply list_subseteq_nil].
    apply allowed_phase; [by repeat constructor|done|by intros _; apply Hf|]. intros ep'. apply phaseKey_episode.
  - apply sound_markers. intros d'. apply sound_set. intros w (_ & Hs & Hf & He) [_ <-]. split; [|done]. by split_and!.
Qed.

(** The markers of failures are not touched by a success. *)
Lemma succeedOnce_sound now (b : bool) :
  sound (λ w, hasStarted w ∧ (b = true → dsFailedAt w.2 ≠ None)) (succeedOnce pc now dc)
    (λ _ w, hasStarted w ∧ (b = true → dsFailedAt w.2 ≠ None)).
Proof.
  apply sound_markers. intros d. destruct (dsSucceededAt d) eqn:E; [by apply sound_ret; intros w _ [H _]|].
  assert (Hd : ∀ w : S * DeliveryStatus, w.2 = d → dsFailedAt (markSucceeded d now) = dsFailedAt w.2) by by intros w <-.
  destruct (decide (b = true → dsFailedAt d ≠ None)) as [Hb|Hb].
  - apply (sound_emit_bind _ _ _ _ [startedKey] d).
    + intros w _ [[Hs _] Hw]. split_and!; [done| |intros k ->%list_elem_of_singleton; done].
      apply allowed_phase; [by repeat constructor|done|done|]. intros ep'. apply phaseKey_episode.
    + apply sound_set. intros w (_ & Hs & Hf & He) (<- & Hk & Hbase). split; [by split_and!|].
      split; [apply Hbase; by constructor|exact Hb].
  - intros w _ [[_ H] Hw]. destruct Hb. by rewrite <- Hw.
Qed.

Lemma restore_sound :
  sound (λ w, hasStarted w ∧ dsFailedAt w.2 = None) (restoreLostFailureEpisode pc dc) (λ _ w, hasStarted w).
Proof.
  intros [s d] Hinv [Hs Hnone]. pose proof Hinv as (Hord & Hst & _ & Hep). cbn in Hs, Hnone, Hord, Hst, Hep.
  specialize (Hep Hnone). unfold restoreLostFailureEpisode. rewrite CM_bind_eq. unfold markers. cbn [fst snd].
  rewrite Hep, CM_bind_eq. change (incr32 0) with 1%Z. unfold attempt, onPlaneState. cbn [fst snd].
  pose proof (get_silent pc (GetNamespace (dxPrimary dc)) (deliveryEventName dc reasonDeploymentFailed (episodeSuffix 1)) s) as Hlog.
  pose proof (get_found pc (GetNamespace (dxPrimary dc)) (deliveryEventName dc reasonDeploymentFailed (episodeSuffix 1)) s) as Hfound.
  destruct (getEvent _ _ _ s) as [s' [e|err]]; cbn in *.
  - destruct (Hfound e eq_refl) as [He Hk]. unfold logged in *. cbn. rewrite Hlog.
    split_and!; [exists []; by rewrite app_nil_r| |intros [] _; unfold hasStarted, logged; cbn; by rewrite Hlog].
    unfold deliveryInv, logged. cbn. rewrite Hlog. split; [done|]. split_and!; [exact Hst| |done].
    intros _. apply list_elem_of_fmap. exists e. by split.
  - assert (Hsame : logged s' = logged s) by (unfold logged; by rewrite Hlog).
    destruct (hasTag _ err); cbn; rewrite Hsame;
      (split_and!; [exists []; by rewrite app_nil_r|unfold deliveryInv; cbn; by rewrite Hsame|]); [|done].
    intros [] _. unfold hasStarted. cbn. by rewrite Hsame.
Qed.

Lemma openEpisode_failed d : hasOpenFailureEpisode d = true → dsFailedAt d ≠ None.
Proof. unfold hasOpenFailureEpisode. by destruct (dsFailedAt d). Qed.

Lemma reconcileDeliveryEvents_sound now statuses :
  sound (λ _, True) (reconcileDeliveryEvents pc now dc statuses) (λ _ _, True).
Proof.
  unfold reconcileDeliveryEvents. apply (sound_bind _ (λ _ w, hasStarted w)); [apply startOnce_sound|]. intros [].
  destruct (summarizeHealth statuses) as [allHealthy degradedID]. apply sound_markers. intros d.
  apply (sound_bind _ (λ _ w, hasStarted w)).
  { destruct (allHealthy && bool_decide (dsFailedAt d = None)) eqn:E.
    - apply andb_true_iff in E as [_ E%bool_decide_eq_true]. eapply sound_weaken; [apply restore_sound| |done].
      intros w _ [Hs <-]. by split.
    - apply sound_ret. by intros w _ [Hs _]. }
  intros []. apply sound_markers. intros d'. case_goal.
  { eapply sound_weaken; [apply failEpisode_sound| |done]. by intros w _ [Hs _]. }
  case_goal; [|by apply sound_ret]. apply (sound_bind _ (λ _ w, hasStarted w ∧ (hasOpenFailureEpisode d' = true → dsFailedAt w.2 ≠ None))).
  - eapply sound_weaken; [apply (succeedOnce_sound now (hasOpenFailureEpisode d'))| |done]. intros w _ [Hs <-]. split; [done|]. apply openEpisode_failed.
  - intros []. destruct (hasOpenFailureEpisode d') eqn:E; [|by apply sound_ret].
    eapply sound_weaken; [apply recoverEpisode_sound| |done]. intros w _ [Hs Hf]. split; [done|by apply Hf].
Qed.

Lemma emitDeliveryEvents_sound now statuses :
  sound (λ _, True) (emitDeliveryEvents pc now dc statuses) (λ _ _, True).
Proof.
  intros w Hw HP. pose proof (reconcileDeliveryEvents_sound now statuses w Hw HP) as H.
  unfold emitDeliveryEvents, orElse. destruct (reconcileDeliveryEvents _ _ _ _ w) as [w' [[]|err]]; [done|].
  destruct H as (Hlog & Hinv & _). by split_and!.
Qed.

Lemma markDeliveryApplyFailure_sound now : sound (λ _, True) (markDeliveryApplyFailure pc now dc) (λ _ _, True).
Proof.
  apply sound_markers. intros d. destruct (hasOpenFailureEpisode d); [by apply sound_ret|].
  apply (sound_bind _ (λ _ w, hasStarted w)); [|intros []; apply failEpisode_sound].
  eapply sound_weaken; [apply startOnce_sound|done|done].
Qed.

(** ** Reconciliations of a rollout *)

Definition secondNs : Z := 1000000000.

(** Times are stored with a precision of seconds. *)
Definition stored (t : option Z) : option Z := (λ t, t - t mod secondNs)%Z <$> t.
Definition storedMarkers (d : DeliveryStatus) : DeliveryStatus :=
  mkDelivery (dsRolloutID d) (stored (dsStartedAt d)) (stored (dsSucceededAt d)) (stored (dsFailedAt d)) (stored (dsRecoveredAt d))
    (dsFailureEpisode d).

Inductive deliveryRun : Z → CM (S * DeliveryStatus) unit → Prop :=
  | run_health now statuses : deliveryRun now (emitDeliveryEvents pc now dc statuses)
  | run_apply_failed now : deliveryRun now (markDeliveryApplyFailure pc now dc).

(** The markers a run leaves are stored, or their write is lost; and the plane
    goes on without creating events of this rollout. *)
Inductive deliveryStep : S * option DeliveryStatus → S * option DeliveryStatus → Prop :=
  | step_run now m s delivery :
      deliveryRun now m →
      deliveryStep (s, delivery) ((m (s, deliveryState delivery dc)).1.1, Some (storedMarkers (m (s, deliveryState delivery dc)).1.2))
  | step_lost now m s delivery :
      deliveryRun now m →
      deliveryStep (s, delivery) ((m (s, deliveryState delivery dc)).1.1, delivery)
  | step_plane s s' delivery : eventLog pc s' = eventLog pc s → deliveryStep (s, delivery) (s', delivery).

Definition rolloutInv (x : S * option DeliveryStatus) : Prop := deliveryInv (x.1, deliveryState x.2 dc).

Lemma storedMarkers_ok ks d : markersOk ks d → markersOk ks (storedMarkers d).
Proof.
  intros (Hs & Hf & He). unfold markersOk, storedMarkers, stored. cbn.
  destruct (dsStartedAt d), (dsFailedAt d); cbn; split_and!; intros H; try done; eauto.
Qed.

Lemma freshDelivery_ok ks rolloutID : markersOk ks (freshDelivery rolloutID).
Proof. by split_and!. Qed.

Lemma deliveryRun_sound now m : deliveryRun now m → sound (λ _, True) m (λ _ _, True).
Proof. intros []; [apply emitDeliveryEvents_sound|apply markDeliveryApplyFailure_sound]. Qed.

Lemma deliveryStep_inv x y : rolloutInv x → deliveryStep x y → rolloutInv y.
Proof.
  intros Hx Hstep. destruct Hstep as [now m s delivery Hrun|now m s delivery Hrun|s s' delivery Hlog];
    [destruct (deliveryRun_sound _ _ Hrun _ Hx I) as (_ & [Hord Hmk] & _)
    |destruct (deliveryRun_sound _ _ Hrun _ Hx I) as ((new & Hnew) & [Hord _] & _)|].
  - unfold rolloutInv. cbn. split; [done|]. cbn. unfold deliveryState. case_goal; [by apply storedMarkers_ok|apply freshDelivery_ok].
  - split; [done|]. cbn in *. rewrite Hnew. apply markersOk_app, Hx.
  - unfold rolloutInv, deliveryInv, logged in *. cbn in *. by rewrite Hlog.
Qed.
Lemma reached_ordered (s0 s : S) (d0 d : option DeliveryStatus) :
  (∀ reason ep, reason ∈ deliveryReasons → phaseKey dc reason ep ∉ logged s0) →
  (∀ m, d0 = Some m → dsRolloutID m ≠ dxRolloutID dc) →
  rtc deliveryStep (s0, d0) (s, d) → orderedKeys (logged s).
Proof.
  intros Hfresh Hd0 Hrun.
  assert (Hinv : rolloutInv (s0, d0)).
  { split.
    - intros pre k post Heq. cbn in Heq. assert (k ∈ logged s0) as Hk by (rewrite Heq; apply elem_of_app; right; left).
      split; [intros reason ep Hr _ ->|intros ep ->]; [by destruct (Hfresh reason ep Hr)|].
      by destruct (Hfresh reasonDeploymentRecovered ep); [repeat constructor|].
    - cbn. unfold deliveryState. destruct d0 as [m|]; [|apply freshDelivery_ok].
      rewrite bool_decide_false by by apply Hd0. apply freshDelivery_ok. }
  assert (Hend : rolloutInv (s, d)).
  { remember (s0, d0) as x eqn:Ex. remember (s, d) as y eqn:Ey. clear Ex Ey.
    induction Hrun as [|x y z Hxy _ IH]; [done|]. apply IH. by eapply deliveryStep_inv. }
  exact (proj1 Hend).
Qed.
End Ordered.

(** C13: In the plane of a rollout, DeploymentStarted comes before every other
    event of the rollout, and DeploymentRecovered of an episode comes after
    DeploymentFailed of it; for any sequence of reconciliations with any health,
    apply failures, calls that fail with or without effect, events that expire
    and status writes that are lost. *)
Theorem delivery_phases_ordered {U : Unstructured} {N : Nested} {DC : DeliveryCodec} {S PC : Type} {EC : EventClient S PC}
    {EL : EventLaws S PC} (pc : PC) (dc : deliveryContext) (s0 s : S) (d0 d : option DeliveryStatus) :
  (∀ reason ep, reason ∈ deliveryReasons → phaseKey dc reason ep ∉ logged pc s0) →
  (∀ m, d0 = Some m → dsRolloutID m ≠ dxRolloutID dc) →
  rtc (deliveryStep pc dc) (s0, d0) (s, d) →
  ∀ pre k post, logged pc s = pre ++ k :: post →
    (∀ reason ep, reason ∈ deliveryReasons → reason ≠ reasonDeploymentStarted → k = phaseKey dc reason ep →
       phaseKey dc reasonDeploymentStarted 0 ∈ pre) ∧
    (∀ ep, k = phaseKey dc reasonDeploymentRecovered ep → phaseKey dc reasonDeploymentFailed ep ∈ pre).
Proof.
  intros Hfresh Hd0 Hrun. exact (reached_ordered pc dc s0 s d0 d Hfresh Hd0 Hrun).
Qed.

(** ** Lost markers *)

Section Lost.
Context {U : Unstructured} {N : Nested} {DC : DeliveryCodec} {S PC : Type} {EC : EventClient S PC} {EL : EventLaws S PC}.
Context (pc : PC) (dc : deliveryContext) (now : Z) (statuses : list ManifestStatus).
Implicit Types (s : S) (d : DeliveryStatus).

Definition closedEpisode d : Prop :=
  ∃ f r, dsFailedAt d = Some f ∧ dsRecoveredAt d = Some r ∧ (f ≤ r)%Z.

Lemma closed_not_open d : closedEpisode d → hasOpenFailureEpisode d = false ∧ dsFailedAt d ≠ None.
Proof.
  intros (f & r & Hf & Hr & Hle). unfold hasOpenFailureEpisode. rewrite Hf, Hr. split; [|done]. by apply Z.ltb_ge.
Qed.

Lemma healthy_idle s d :
  summarizeHealth statuses = (true, "") → is_Some (dsStartedAt d) → is_Some (dsSucceededAt d) → closedEpisode d →
  reconcileDeliveryEvents pc now dc statuses (s, d) = ((s, d), inl ()).
Proof.
  intros Hh [t Ht] [u Hu] [Ho Hf]%closed_not_open. unfold reconcileDeliveryEvents, startOnce, succeedOnce.
  rewrite !CM_bind_eq. cbn [markers snd]. rewrite Ht. cbn [mret CM_ret]. rewrite Hh.
  rewrite CM_bind_eq. cbn [markers snd]. rewrite (bool_decide_false (dsFailedAt d = None)) by done. cbn [andb].
  rewrite CM_bind_eq. cbn [mret CM_ret]. rewrite CM_bind_eq. cbn [markers snd]. rewrite Ho.
  rewrite bool_decide_true by done. cbn [negb andb]. rewrite !CM_bind_eq. cbn [markers snd]. by rewrite Hu.
Qed.

(** The repair of the first episode. *)
Lemma first_episode_restored s s' d e msg :
  summarizeHealth statuses = (true, "") → is_Some (dsStartedAt d) → is_Some (dsSucceededAt d) →
  dsFailedAt d = None → dsRecoveredAt d = None → dsFailureEpisode d = 0%Z →
  getEvent pc (GetNamespace (dxPrimary dc)) (deliveryEventName dc reasonDeploymentFailed (episodeSuffix 1)) s = (s, inl e) →
  marshalPayload (payloadOf dc reasonDeploymentRecovered "" 1) = inl msg →
  createEvent pc (deliveryEvent now dc reasonDeploymentRecovered 1 msg) s = (s', inl ()) →
  let failed := match evtFirstTimestamp e with Some t => t | None => default 0%Z (evtEventTime e) end in
  reconcileDeliveryEvents pc now dc statuses (s, d) = ((s', markRecovered (markFailed d failed 1) now), inl ())
  ∧ phaseKey dc reasonDeploymentRecovered 1 ∈ logged pc s'.
Proof.
  intros Hh [t Ht] [u Hu] Hf Hr Hep Hget Hmsg Hcreate failed.
  pose proof (create_effect pc (deliveryEvent now dc reasonDeploymentRecovered 1 msg) s ()) as Hlog. rewrite Hcreate in Hlog. cbn [fst snd] in Hlog.
  split; [|unfold logged; rewrite Hlog, fmap_app by done; apply elem_of_app; right; by constructor]. clear Hlog.
  assert (Hopen : hasOpenFailureEpisode (markFailed d failed 1) = true) by (unfold hasOpenFailureEpisode; cbn; by rewrite Hr).
  unfold reconcileDeliveryEvents, startOnce. rewrite !CM_bind_eq. cbn [markers snd]. rewrite Ht. cbn [mret CM_ret]. rewrite Hh.
  rewrite CM_bind_eq. cbn [markers snd]. rewrite (bool_decide_true (dsFailedAt d = None)) by done. cbn [andb].
  rewrite CM_bind_eq. unfold restoreLostFailureEpisode. rewrite CM_bind_eq. cbn [markers snd]. rewrite Hep. change (incr32 0) with 1%Z.
  rewrite CM_bind_eq. unfold attempt at 1, onPlaneState at 1. cbn [fst snd]. rewrite Hget. cbn [fst snd].
  unfold setMarkers at 1. cbn [fst snd]. rewrite CM_bind_eq. cbn [markers snd]. fold failed. rewrite Hopen.
  rewrite bool_decide_true by done. cbn [negb andb]. unfold succeedOnce.
  rewrite !CM_bind_eq. cbn [markers snd]. change (dsSucceededAt (markFailed d failed 1)) with (dsSucceededAt d). rewrite Hu. cbn [mret CM_ret].
  unfold recoverEpisode. rewrite CM_bind_eq. cbn [markers snd]. rewrite CM_bind_eq.
  unfold emits, onPlaneState, emitDeliveryEvent. cbn [fst snd]. change (dsFailureEpisode (markFailed d failed 1)) with 1%Z. rewrite Hmsg.
  cbv beta zeta. rewrite CM_bind_eq. unfold attempt. rewrite Hget. cbn [fst snd]. rewrite Hcreate. reflexivity.
Qed.
End Lost.

(** Recovery and the next failure within a second: stored with the precision of
    seconds, the new episode counts as closed. *)
Lemma same_second_closed d now r episode :
  dsRecoveredAt d = Some r → (now / secondNs = r / secondNs)%Z →
  hasOpenFailureEpisode (storedMarkers (markFailed d now episode)) = false.
Proof.
  intros Hr Hsec. unfold hasOpenFailureEpisode, storedMarkers, stored. cbn. rewrite Hr. cbn. apply Z.ltb_ge.
  rewrite (Z.mod_eq now), (Z.mod_eq r) by done. unfold secondNs in *. lia.
Qed.

(** The marker of a failure whose event reached the plane but whose status
    write was lost is restored for the first failure of a rollout only.  Once an
    earlier failure was recovered from, a healthy reconciliation after such a loss
    does nothing at all, so that DeploymentFailed of the lost episode is never
    followed by a DeploymentRecovered of it. *)
Theorem lost_episode_stays_open {U : Unstructured} {N : Nested} {DC : DeliveryCodec} {S PC : Type} {EC : EventClient S PC}
    {EL : EventLaws S PC} (pc : PC) (dc : deliveryContext) (s : S) (d : DeliveryStatus) (episode : Z)
    (runs : list (Z * list ManifestStatus)) :
  is_Some (dsStartedAt d) → is_Some (dsSucceededAt d) → closedEpisode d →
  episode = incr32 (dsFailureEpisode d) →
  phaseKey dc reasonDeploymentFailed episode ∈ logged pc s →
  phaseKey dc reasonDeploymentRecovered episode ∉ logged pc s →
  Forall (λ run, summarizeHealth run.2 = (true, "")) runs →
  let final := foldl (λ w run, (reconcileDeliveryEvents pc run.1 dc run.2 w).1) (s, d) runs in
  final = (s, d)
  ∧ (phaseKey dc reasonDeploymentFailed episode ∈ logged pc final.1
     ∧ (phaseKey dc reasonDeploymentRecovered episode ∉ logged pc final.1)).
Proof.
  intros Hs Hu Hc -> Hin Hout Hruns. cbv zeta.
  assert (foldl (λ w run, (reconcileDeliveryEvents pc run.1 dc run.2 w).1) (s, d) runs = (s, d)) as ->; [|done].
  induction Hruns as [|[now statuses] runs Hh _ IH]; [done|]. cbn [foldl fst snd] in *. by rewrite healthy_idle.
Qed.
