(* ===== verification/BindingController.v ===== *)
(** * The release binding controller

    [internal/controller/releasebinding/controller.go] and
    [controller_finalize.go]: from a binding to the rendered releases of the data
    plane and the observability plane, their removal, and the status of the
    binding.

    The API server, owner references and [controllerutil.CreateOrUpdate] are the
    class [BindingEnv], the component pipeline is the class [Rendering].  The
    binding is state: what was assigned to it before an error is what the deferred
    status update writes.  A run records its writes.  A panic of a name generator,
    which does not occur, is an error. *)

From S2P Require Import Prelude GoStrings GoValue RenderErrors TemplateEngine ReleaseObjects PlaneObjects PlaneRefs ReleaseController.
From S2P Require Import K8sNames NetworkPolicy WorkloadContext.
From S2P Require Import BindingObjects BindingConnections BindingEndpoints BindingDelivery.

#[local] Set Warnings "-register-all".

Definition ReleaseBindingFinalizer : string := "openchoreo.dev/releasebinding-cleanup".
Definition LabelKeyComponentReleaseName : string := "openchoreo.dev/component-release-name".
Definition LabelKeyComponentReleaseUID : string := "openchoreo.dev/component-release-uid".
Definition planeOfData : string := "dataplane".
Definition planeOfObservability : string := "observabilityplane".

Inductive OperationResult := OperationResultNone | OperationResultCreated | OperationResultUpdated.

#[global] Instance OperationResult_eq_dec : EqDecision OperationResult.
Proof. solve_decision. Defined.

Definition operationText (op : OperationResult) : string :=
  match op with OperationResultNone => "unchanged" | OperationResultCreated => "created" | OperationResultUpdated => "updated" end.

(** [ctrl.Result] *)
Record Result := mkResult { resRequeue : bool; resAfter : Z }.
Definition done_ : Result := mkResult false 0.

(** ** Writes of a run *)

(** A write of a release carries the state it was made in. *)
Inductive bindingCall (S : Type) :=
  | BApply (before : S) (namespace name : string) (r : (OwnedRelease * OperationResult) + clientError)
  | BDelete (r : OwnedRelease) (err : option clientError)
  | BList (answer : list OwnedRelease + clientError)
  | BUpdate (rb : ReleaseBinding) (err : option clientError)
  | BStatusUpdate (rb : ReleaseBinding) (err : option clientError).
Arguments BApply {S}.
Arguments BDelete {S}.
Arguments BList {S}.
Arguments BUpdate {S}.
Arguments BStatusUpdate {S}.

Record BWorld (S : Type) := mkBWorld { bwState : S; bwBinding : ReleaseBinding; bwCalls : list (bindingCall S) }.
Arguments mkBWorld {S}.
Arguments bwState {S}.
Arguments bwBinding {S}.
Arguments bwCalls {S}.

Section Controller.
Context {U : Unstructured} {N : Nested} {J : JSON} {SC : StatusConditions} {FZ : Finalizers} {DC : DeliveryCodec} {MR : MapRange} {SS : SortSlice}.
Context {WT : WorkflowParts} {Frozen S PC : Type} {PS : PlaneStore S} {BR : BindingReads S} {EC : EventClient S PC}.

Class BindingEnv := {
  getBinding : string → string → CM S ReleaseBinding;
  getComponentRelease : string → string → CM S (ComponentRelease Frozen);
  getComponent : string → string → CM S ComponentCR;
  getProject : string → string → CM S ProjectCR;
  listNotificationChannels : string → CM S (list NotificationChannel);
  getRelease : string → string → CM S OwnedRelease;
  deleteRelease : OwnedRelease → CM S unit;
  listReleasesByLabels : string → gmap string string → CM S (list OwnedRelease);
  (* the callback gets the object that was read, or an empty one with its name *)
  CreateOrUpdate : string → string → (OwnedRelease → OwnedRelease + clientError) → CM S (OwnedRelease * OperationResult);
  writeBinding : ReleaseBinding → CM S unit;
  writeBindingStatus : ReleaseBinding → CM S unit;
  HasOwnerReference : OwnedRelease → ReleaseBinding → bool + clientError;
  SetControllerReference : ReleaseBinding → OwnedRelease → OwnedRelease + clientError;
  (* [DataPlaneResult.GetK8sClient] with the provider of plane clients *)
  planeClientOf : DataPlaneResult → CM S PC
}.

Record BindingRenderInput := mkRenderInput {
  briRelease : ComponentRelease Frozen;
  briEnvironment : EnvironmentCR;
  briBinding : ReleaseBinding;
  briDataPlane : DataPlane;
  briSecretReferences : gmap string SecretReference;
  briMetadata : MetadataContext;
  briNotificationChannel : string;
  briDependencyItems : list ConnectionItem;
  briResourceDependencyItems : list ResourceDependencyItem
}.

(** [Pipeline.Render]: target planes and resources. *)
Class Rendering := renderBinding : BindingRenderInput → CM S (list (string * gmap string any)).

Context {BE : BindingEnv} {RE : Rendering}.
Abbreviation BM := (CM (BWorld S)).

(** ** State and calls *)

Definition errorOf {A} (r : A + clientError) : option clientError := match r with inl _ => None | inr e => Some e end.

Definition reads {A} (m : CM S A) : BM A := λ w,
  let r := m (bwState w) in (mkBWorld r.1 (bwBinding w) (bwCalls w), r.2).
Definition calls {A} (f : S → A + clientError → bindingCall S) (m : CM S A) : BM A := λ w,
  let r := m (bwState w) in (mkBWorld r.1 (bwBinding w) (bwCalls w ++ [f (bwState w) r.2]), r.2).

Definition binding : BM ReleaseBinding := λ w, (w, inl (bwBinding w)).
Definition modify (f : ReleaseBinding → ReleaseBinding) : BM unit := λ w, (mkBWorld (bwState w) (f (bwBinding w)) (bwCalls w), inl ()).
Definition modifyStatus (f : BindingStatus → BindingStatus) : BM unit := modify (λ rb, withBindingStatus rb (f (rbStatus rb))).

Definition orPanic {A} (o : option A) : BM A := match o with Some a => mret a | None => fails (plainErr "panic") end.

Context (now : Z).

Definition notSynced (reason message : string) : BM unit := modify (λ rb, markFalse now rb ConditionReleaseSynced reason message).

(** On an error: [ReleaseSynced] is set to false, and the error returned. *)
Definition orNotSynced {A} (m : BM A) (reason : string) (message : clientError → string) (f : clientError → clientError) : BM A :=
  r ← attempt m;
  match r with
  | inl a => mret a
  | inr err => notSynced reason (message err) ≫= λ _, fails (f err)
  end.

(** ** Finalization *)

Definition withBindingFinalizers (rb : ReleaseBinding) (fs : list string) : ReleaseBinding :=
  let m := rbMeta rb in
  mkBinding (mkMeta (metaName m) (metaNamespace m) (metaUID m) (metaGeneration m) (metaDeleting m) fs (metaAnnotations m))
    (rbProject rb) (rbComponent rb) (rbEnvironment rb) (rbReleaseName rb) (rbOverrides rb) (rbState rb) (rbStatus rb).

Definition ensureBindingFinalizer : BM bool :=
  rb ← binding;
  if metaDeleting (rbMeta rb) then mret false
  else
    let '(fs, added) := AddFinalizer (metaFinalizers (rbMeta rb)) ReleaseBindingFinalizer in
    if added : bool then
      let rb' := withBindingFinalizers rb fs in
      modify (λ _, rb') ≫= λ _,
      calls (λ _ r, BUpdate rb' (errorOf r)) (writeBinding rb') ≫= λ _, mret true
    else mret false.

Definition finalizingBinding (rb : ReleaseBinding) : Condition :=
  NewCondition now ConditionBindingFinalizing ConditionTrue "Finalizing" "ReleaseBinding is finalizing" (metaGeneration (rbMeta rb)).

(** [UpdateStatusConditions] on bindings. *)
Definition updateBindingConditions (current updated : ReleaseBinding) : BM unit :=
  if NeedConditionUpdate (bsConditions (rbStatus current)) (bsConditions (rbStatus updated)) then
    let rb := withBindingStatus current (setConditions (rbStatus current) (bsConditions (rbStatus updated))) in
    calls (λ _ r, BStatusUpdate rb (errorOf r)) (writeBindingStatus rb)
  else mret ().

Definition ownedLabels (rb : ReleaseBinding) : gmap string string :=
  {[bmProjectName := rbProject rb; bmComponentName := rbComponent rb; bmEnvironmentName := rbEnvironment rb]}.

Definition deleteCall (r : OwnedRelease) : BM unit := calls (λ _ a, BDelete r (errorOf a)) (deleteRelease r).

(** [client.IgnoreNotFound] *)
Definition ignoreNotFound (m : BM unit) : BM unit :=
  r ← attempt m;
  match r with
  | inl _ => mret ()
  | inr err => if hasTag IsNotFoundErr err then mret () else fails err
  end.

Fixpoint deleteLive (releases : list OwnedRelease) : BM unit :=
  match releases with
  | [] => mret ()
  | r :: releases =>
      (if relDeleting (orRelease r) then mret ()
       else orElse (ignoreNotFound (deleteCall r)) (wrapErrorf ("failed to delete release " +:+ relName (orRelease r) +:+ ": "))) ≫= λ _,
      deleteLive releases
  end.

Definition hasOwnedReleases : BM bool :=
  rb ← binding;
  releases ← orElse (calls (λ _, BList) (listReleasesByLabels (rbNamespace rb) (ownedLabels rb))) (wrapErrorf "failed to list releases: ");
  if bool_decide (length releases = 0) then mret false
  else deleteLive releases ≫= λ _, mret true.

Definition finalizeBinding (old : ReleaseBinding) : BM Result :=
  rb ← binding;
  if negb (ContainsFinalizer (metaFinalizers (rbMeta rb)) ReleaseBindingFinalizer) then mret done_
  else
    let '(conditions, changed) := SetStatusCondition (bsConditions (rbStatus rb)) (finalizingBinding rb) in
    let rb := withBindingStatus rb (setConditions (rbStatus rb) conditions) in
    modify (λ _, rb) ≫= λ _,
    if changed : bool then updateBindingConditions old rb ≫= λ _, mret done_
    else
      hasReleases ← hasOwnedReleases;
      if hasReleases : bool then mret (mkResult false (5 * second)%Z)
      else
        let '(fs, removed) := RemoveFinalizer (metaFinalizers (rbMeta rb)) ReleaseBindingFinalizer in
        let rb' := withBindingFinalizers rb fs in
        (if removed : bool then
           modify (λ _, rb') ≫= λ _,
           orElse (calls (λ _ r, BUpdate rb' (errorOf r)) (writeBinding rb')) (wrapErrorf "failed to remove finalizer: ")
         else mret ()) ≫= λ _, mret done_.

(** ** Inputs of a rendering *)

Definition noDefaultChannel : string := "no default ObservabilityAlertsNotificationChannel found for environment".

Definition getDefaultNotificationChannelName (namespace environment : string) : CM S string :=
  channels ← orElse (listNotificationChannels namespace) (wrapErrorf "failed to list ObservabilityAlertsNotificationChannels: ");
  match List.find (λ ch, bool_decide (chEnvironment ch = environment) && chIsEnvDefault ch && negb (metaDeleting (chMeta ch))) channels with
  | Some ch => mret (metaName (chMeta ch))
  | None => fails (plainErr (noDefaultChannel +:+ " " +:+ quoted environment))
  end.

(** The channel, or nothing when none is the default. *)
Definition defaultChannel (namespace environment : string) : CM S string :=
  r ← attempt (getDefaultNotificationChannelName namespace environment);
  match r with
  | inl name => mret name
  | inr err => if Contains (ceText err) noDefaultChannel then mret "" else fails err
  end.

Definition metadataFor (componentRelease : ComponentRelease Frozen) (component : ComponentCR) (project : ProjectCR)
    (dataPlane : DataPlane) (environment : EnvironmentCR) (environmentName : string) : option MetadataContext :=
  buildMetadataContext (metaNamespace (crlMeta componentRelease)) (crlProject componentRelease) (crlComponent componentRelease)
    (metaUID (cpMeta component)) (metaUID (pjMeta project)) (crMeta dataPlane) (metaUID (envMeta environment)) environmentName.

(** Secret references, connections and resource dependencies, each recorded in
    the status as it is known. *)
Definition resolveInputs (workload : WorkloadTemplateSpec)
    : BM (gmap string SecretReference * list ConnectionItem * list ResourceDependencyItem) :=
  rb ← binding;
  secretReferences ← orNotSynced (reads (collectSecretReferences (Some workload) rb)) "RenderingFailed"
    (λ err, "Failed to collect SecretReferences: " +:+ ceText err) (wrapErrorf "failed to collect SecretReferences: ");
  modifyStatus (λ st, setSecretNames st (collectSecretReferenceNames (Some workload) rb)) ≫= λ _,
  let targets := buildConnectionTargets rb (GetDependencyEndpoints workload) in
  modifyStatus (λ st, setTargets st targets) ≫= λ _,
  conns ← orElse (reads (resolveConnections targets)) (wrapErrorf "failed to resolve connections: ");
  modifyStatus (λ st, setResolution st conns.1 conns.2) ≫= λ _,
  rb ← binding;
  let dependencyItems := buildConnectionItems rb (GetDependencyEndpoints workload) in
  deps ← reads (populateResourceDependencyStatus rb (GetDependencyResources workload));
  modify (λ _, deps.1) ≫= λ _,
  match deps.2 with
  | inr err => fails (wrapErrorf "failed to resolve resource dependencies: " err)
  | inl items => mret (secretReferences, dependencyItems, items)
  end.

(** ** Manifests *)

Fixpoint convertFrom (resources : list (gmap string any)) (i : nat) : BM (list RenderedManifest) :=
  match resources with
  | [] => mret []
  | resource :: resources =>
      id ← orPanic (generateResourceID resource i);
      match json_Marshal (VMap resource) with
      | Err msg => fails (plainErr ("failed to marshal resource to JSON (resourceID: " +:+ id +:+ "): " +:+ msg))
      | Ok raw => rest ← convertFrom resources (i + 1); mret (mkManifest id raw :: rest)
      end
  end.

Definition convertToReleaseResources (resources : list (gmap string any)) : BM (list RenderedManifest) := convertFrom resources 0.

Definition ofPlane (plane : string) (rendered : list (string * gmap string any)) : list (gmap string any) :=
  snd <$> filter (λ r, r.1 = plane) rendered.

(** The resources of the data plane with the network policies, as resources and
    as manifests, and the manifests of the observability plane. *)
Definition renderRelease (input : BindingRenderInput) (dataPlaneResult : DataPlaneResult)
    : BM (list (gmap string any) * list RenderedManifest * list RenderedManifest) :=
  rendered ← orNotSynced (reads (renderBinding input)) "RenderingFailed"
    (λ err, "Failed to render resources: " +:+ ceText err) (wrapErrorf "failed to render resources: ");
  netpols ← orPanic (MakeComponentPolicies
    (policyParamsOf (briMetadata input) (wlEndpoints (crlWorkload (briRelease input))) (networkPolicyProviderFromDataPlane dataPlaneResult)));
  let dataPlaneResources := ofPlane planeOfData rendered ++ netpols in
  dp ← orNotSynced (convertToReleaseResources dataPlaneResources) "RenderingFailed"
    (λ err, "Failed to convert dataplane resources: " +:+ ceText err) (wrapErrorf "failed to convert dataplane resources: ");
  obs ← orNotSynced (convertToReleaseResources (ofPlane planeOfObservability rendered)) "RenderingFailed"
    (λ err, "Failed to convert observability plane resources: " +:+ ceText err)
    (wrapErrorf "failed to convert observability plane resources: ");
  mret (dataPlaneResources, dp, obs).

(** ** Releases *)

Definition notOwned : clientError := plainErr "release exists but is not owned by this ReleaseBinding".

(** The callbacks of [CreateOrUpdate] begin with the check of the owner. *)
Definition checkOwner (rb : ReleaseBinding) (r : OwnedRelease) : option clientError :=
  if bool_decide (relUID (orRelease r) = "") then None
  else
    match HasOwnerReference r rb with
    | inr err => Some (wrapErrorf "failed to check owner reference: " err)
    | inl true => None
    | inl false => Some notOwned
    end.

Definition withSpec (r : RenderedRelease) (annotations : gmap string string) (environment project plane : string)
    (resources : list RenderedManifest) : RenderedRelease :=
  mkRelease (relName r) (relNamespace r) (relUID r) (relGeneration r) (relDeleting r) (relFinalizers r) annotations plane environment
    project resources None None (relStatus r).

Definition restartedAnnotations (rb : ReleaseBinding) (annotations : gmap string string) : gmap string string :=
  match metaAnnotations (rbMeta rb) !! AnnotationKeyRestartedAt with
  | Some v => <[AnnotationKeyRestartedAt := v]> annotations
  | None => delete AnnotationKeyRestartedAt annotations
  end.

Definition mutateDataPlaneRelease (rb : ReleaseBinding) (componentRelease : ComponentRelease Frozen) (resources : list RenderedManifest)
    (r : OwnedRelease) : OwnedRelease + clientError :=
  match checkOwner rb r with
  | Some err => inr err
  | None =>
      SetControllerReference rb
        (mkOwned
           (withSpec (orRelease r) (restartedAnnotations rb (relAnnotations (orRelease r))) (rbEnvironment rb) (rbProject rb) planeOfData resources)
           {[bmNamespaceName := rbNamespace rb; bmProjectName := rbProject rb; bmComponentName := rbComponent rb;
             bmEnvironmentName := rbEnvironment rb; LabelKeyComponentReleaseName := metaName (crlMeta componentRelease);
             LabelKeyComponentReleaseUID := metaUID (crlMeta componentRelease)]}
           (rbComponent rb) (orOwners r))
  end.

Definition mutateObservabilityRelease (rb : ReleaseBinding) (resources : list RenderedManifest) (r : OwnedRelease)
    : OwnedRelease + clientError :=
  match checkOwner rb r with
  | Some err => inr err
  | None =>
      SetControllerReference rb
        (mkOwned (withSpec (orRelease r) (relAnnotations (orRelease r)) (rbEnvironment rb) (rbProject rb) planeOfObservability resources)
           {[bmNamespaceName := rbNamespace rb; bmProjectName := rbProject rb; bmComponentName := rbComponent rb;
             bmEnvironmentName := rbEnvironment rb]}
           (rbComponent rb) (orOwners r))
  end.

(** An ownership conflict is reported, and [None]; other errors are returned. *)
Definition applyRelease (name plane : string) (mutate : OwnedRelease → OwnedRelease + clientError)
    : BM (option (OwnedRelease * OperationResult)) :=
  rb ← binding;
  r ← attempt (calls (λ s, BApply s (rbNamespace rb) name) (CreateOrUpdate (rbNamespace rb) name mutate));
  match r with
  | inl x => mret (Some x)
  | inr err =>
      if Contains (ceText err) "not owned by" then
        notSynced "ReleaseOwnershipConflict" ("Release " +:+ quoted name +:+ " exists but is owned by another resource") ≫= λ _, mret None
      else notSynced "ReleaseUpdateFailed" ("Failed to reconcile " +:+ plane +:+ " Release: " +:+ ceText err) ≫= λ _, fails err
  end.

Record observabilityReleaseResult := mkObsResult {
  obsName : string;
  obsOperation : OperationResult;
  obsResourceCount : nat;
  obsManaged : bool;
  obsConflict : bool;
  obsSkipReason : string
}.

(** Whether there is an observability release to manage, and why not. *)
Definition shouldManage (dataPlaneResult : DataPlaneResult) (resources : list RenderedManifest) : BM (bool * string) :=
  if bool_decide (length resources = 0) then mret (false, "no observability resources to deploy")
  else
    r ← attempt (reads (observabilityPlaneOf dataPlaneResult));
    match r with
    | inl _ => mret (true, "")
    | inr err =>
        if negb (hasTag IsNotFoundErr err) then
          notSynced "ReleaseUpdateFailed" ("Failed to resolve ObservabilityPlane: " +:+ ceText err) ≫= λ _,
          fails (wrapErrorf "failed to resolve ObservabilityPlane: " err)
        else mret (false, "ObservabilityPlane not found: " +:+ ceText err)
    end.

(** The release that is no longer needed, if this binding owns it. *)
Definition cleanupObservabilityRelease (name : string) : BM unit :=
  rb ← binding;
  r ← attempt (reads (getRelease (rbNamespace rb) name));
  match r with
  | inr err =>
      if hasTag IsNotFoundErr err then mret ()
      else
        notSynced "ReleaseUpdateFailed" ("Failed to get observability Release for cleanup: " +:+ ceText err) ≫= λ _,
        fails (wrapErrorf ("failed to get observability Release " +:+ quoted name +:+ " for cleanup: ") err)
  | inl existing =>
      match HasOwnerReference existing rb with
      | inr err =>
          notSynced "ReleaseUpdateFailed" ("Failed to check owner reference for observability Release " +:+ quoted name +:+ ": " +:+ ceText err) ≫= λ _,
          fails (wrapErrorf ("failed to check owner reference for observability Release " +:+ quoted name +:+ ": ") err)
      | inl true =>
          orNotSynced (ignoreNotFound (deleteCall existing)) "ReleaseUpdateFailed"
            (λ err, "Failed to delete stale observability Release " +:+ quoted name +:+ ": " +:+ ceText err)
            (wrapErrorf ("failed to delete stale observability Release " +:+ quoted name +:+ ": "))
      | inl false => mret ()
      end
  end.

Definition reconcileObservabilityRelease (componentRelease : ComponentRelease Frozen) (dataPlaneResult : DataPlaneResult)
    (resources : list RenderedManifest) : BM observabilityReleaseResult :=
  rb ← binding;
  managed ← shouldManage dataPlaneResult resources;
  let name := makeObservabilityReleaseName (crlComponent componentRelease) (rbEnvironment rb) in
  if managed.1 : bool then
    r ← applyRelease name "observability plane" (mutateObservabilityRelease rb resources);
    match r with
    | Some (_, op) => mret (mkObsResult name op (length resources) true false managed.2)
    | None => mret (mkObsResult name OperationResultNone (length resources) true true managed.2)
    end
  else
    cleanupObservabilityRelease name ≫= λ _,
    mret (mkObsResult name OperationResultNone (length resources) false false managed.2).

(** ** Undeployment *)

(** A release is looked up by its name and deleted unless it is terminating:
    whether there was one. *)
Definition undeployRelease (name what : string) : BM bool :=
  rb ← binding;
  r ← attempt (reads (getRelease (rbNamespace rb) name));
  match r with
  | inl release =>
      (if relDeleting (orRelease release) then mret ()
       else
         d ← attempt (deleteCall release);
         match d with
         | inl _ => mret ()
         | inr err =>
             let err := wrapErrorf ("failed to delete " +:+ what +:+ " release " +:+ quoted name +:+ ": ") err in
             notSynced "ReleaseDeletionFailed" (ceText err) ≫= λ _, fails err
         end) ≫= λ _, mret true
  | inr err =>
      if hasTag IsNotFoundErr err then mret false
      else fails (wrapErrorf ("failed to get " +:+ what +:+ " Release for undeploy: ") err)
  end.

Definition undeployed (message : string) : BM unit :=
  notSynced "ResourcesUndeployed" message ≫= λ _,
  modify (λ rb, markFalse now rb ConditionResourcesReady "ResourcesUndeployed" message).

(** The release that was found is always pending deletion, so that the requeue at
    the end of the function is not reached. *)
Definition handleUndeploy (componentRelease : ComponentRelease Frozen) : BM Result :=
  rb ← binding;
  dp ← undeployRelease (makeDataPlaneReleaseName (crlComponent componentRelease) (rbEnvironment rb)) "dataplane";
  obs ← undeployRelease (makeObservabilityReleaseName (crlComponent componentRelease) (rbEnvironment rb)) "observability";
  (if (dp || obs) : bool then undeployed "Resources being undeployed" else undeployed "Resources undeployed") ≫= λ _, mret done_.

(** ** Conditions *)

Definition setReleaseSyncedCondition (dpReleaseName : string) (dpOp : OperationResult) (dpResourceCount : nat)
    (obs : observabilityReleaseResult) : BM unit :=
  let num n := Itoa (Z.of_nat n) in
  let dp := "Dataplane Release " +:+ quoted dpReleaseName in
  match dpOp with
  | OperationResultCreated | OperationResultUpdated =>
      let head := dp +:+ " " +:+ operationText dpOp +:+ " with " +:+ num dpResourceCount +:+ " resources" in
      modify (λ rb, markTrue now rb ConditionReleaseSynced "ReleaseCreated"
        (if obsManaged obs then head +:+ "; observability Release " +:+ quoted (obsName obs) +:+ " " +:+ operationText (obsOperation obs)
                                +:+ " with " +:+ num (obsResourceCount obs) +:+ " resources"
         else head +:+ " (observability release skipped: " +:+ obsSkipReason obs +:+ ")"))
  | OperationResultNone =>
      let head := dp +:+ " is up to date" in
      modify (λ rb, markTrue now rb ConditionReleaseSynced "ReleaseSynced"
        (if obsManaged obs then head +:+ "; observability Release " +:+ quoted (obsName obs) +:+ " is " +:+ operationText (obsOperation obs)
         else head +:+ " (observability release skipped: " +:+ obsSkipReason obs +:+ ")"))
  end.

Definition getBindingDPClient (namespaceName environmentName : string) : CM S PC :=
  env ← orElse (getEnvironment namespaceName environmentName) (wrapErrorf ("failed to get environment " +:+ environmentName +:+ ": "));
  dp ← orElse (GetDataPlaneFromRef (metaNamespace (envMeta env)) (envDataPlaneRef env))
         (wrapErrorf ("failed to resolve dataplane for environment " +:+ environmentName +:+ ": "));
  orElse (planeClientOf dp) (wrapErrorf ("failed to create dataplane client for " +:+ resultName dp +:+ ": ")).

Definition recordDelivery (componentRelease : ComponentRelease Frozen) (release : RenderedRelease) (resources : list (gmap string any))
    (applyFailed : bool) : BM unit :=
  rb ← binding;
  d ← reads (reconcileDelivery (getBindingDPClient (rbNamespace rb) (rbEnvironment rb)) now (rbNamespace rb) (bsDelivery (rbStatus rb))
               componentRelease release resources applyFailed);
  modifyStatus (λ st, setDelivery st d).

(** ** Reconciliation of the releases *)

(** After the releases were applied: the endpoints, the guards on connections and
    dependencies, and the conditions. *)
Definition settleBinding (componentRelease : ComponentRelease Frozen) (environment : EnvironmentCR) (dataPlane : DataPlane)
    (component : ComponentCR) (resources : list (gmap string any)) (manifests : list RenderedManifest)
    (release : OwnedRelease) (dpOp : OperationResult) (obs : observabilityReleaseResult) : BM Result :=
  let workload := crlWorkload componentRelease in
  modifyStatus (λ st, setEndpoints st (resolveEndpointURLStatuses manifests (wlEndpoints workload) (Some environment) (Some dataPlane))) ≫= λ _,
  modifyStatus (λ st, setEndpoints st (resolveServiceURLs manifests (wlEndpoints workload) (bsEndpoints st))) ≫= λ _,
  rb ← binding;
  let connectionsResolved := allConnectionsResolved rb (GetDependencyEndpoints workload) in
  modify (λ rb, setConnectionsCondition now rb connectionsResolved) ≫= λ _,
  if negb connectionsResolved then mret done_
  else
    rb ← binding;
    let resourceDepsResolved := allResourceDependenciesResolved rb (GetDependencyResources workload) in
    modify (λ rb, setResourceDependenciesCondition now rb resourceDepsResolved) ≫= λ _,
    if negb resourceDepsResolved then mret done_
    else
      setReleaseSyncedCondition (relName (orRelease release)) dpOp (length manifests) obs ≫= λ _,
      match applyFailure (orRelease release) with
      | Some c =>
          modify (λ rb, markFalse now rb ConditionResourcesReady "ResourceApplyFailed" (condMessage c)) ≫= λ _,
          recordDelivery componentRelease (orRelease release) resources true ≫= λ _, mret done_
      | None =>
          match dpOp with
          | OperationResultCreated | OperationResultUpdated => mret (mkResult true 0)
          | OperationResultNone =>
              modify (λ rb, setResourcesReadyStatus now rb (orRelease release) component) ≫= λ _,
              recordDelivery componentRelease (orRelease release) resources false ≫= λ _, mret done_
          end
      end.

Definition deployRelease (componentRelease : ComponentRelease Frozen) (environment : EnvironmentCR) (dataPlaneResult : DataPlaneResult)
    (dataPlane : DataPlane) (component : ComponentCR) (project : ProjectCR) : BM Result :=
  rb ← binding;
  metadata ← orPanic (metadataFor componentRelease component project dataPlane environment (rbEnvironment rb));
  channel ← reads (defaultChannel (rbNamespace rb) (rbEnvironment rb));
  inputs ← resolveInputs (crlWorkload componentRelease);
  rb ← binding;
  rendered ← renderRelease (mkRenderInput componentRelease environment rb dataPlane inputs.1.1 metadata channel inputs.1.2 inputs.2) dataPlaneResult;
  let '(resources, dpManifests, obsManifests) := rendered in
  dp ← applyRelease (makeDataPlaneReleaseName (crlComponent componentRelease) (rbEnvironment rb)) "dataplane"
         (mutateDataPlaneRelease rb componentRelease dpManifests);
  match dp with
  | None => mret done_
  | Some (release, dpOp) =>
      obs ← reconcileObservabilityRelease componentRelease dataPlaneResult obsManifests;
      if obsConflict obs then mret done_
      else settleBinding componentRelease environment dataPlane component resources dpManifests release dpOp obs
  end.

Definition reconcileBindingRelease (componentRelease : ComponentRelease Frozen) (environment : EnvironmentCR)
    (dataPlaneResult : DataPlaneResult) (component : ComponentCR) (project : ProjectCR) : BM Result :=
  rb ← binding;
  if bool_decide (rbState rb = ReleaseStateUndeploy) then
    modifyStatus (λ st, setEndpoints st []) ≫= λ _, handleUndeploy componentRelease
  else
    dataPlane ← orPanic (ToDataPlane dataPlaneResult);
    deployRelease componentRelease environment dataPlaneResult dataPlane component project.

(** ** Reconcile *)

Definition validateComponentRelease (componentRelease : ComponentRelease Frozen) (rb : ReleaseBinding) : option string :=
  if negb (crlHasResources componentRelease) then Some "component type has no resources"
  else if bool_decide (crlProject componentRelease = "") then Some "component release owner missing required field: projectName"
  else if bool_decide (crlComponent componentRelease = "") then Some "component release owner missing required field: componentName"
  else if negb (bool_decide (rbProject rb = crlProject componentRelease)) || negb (bool_decide (rbComponent rb = crlComponent componentRelease))
  then Some ("release binding owner (project: " +:+ quoted (rbProject rb) +:+ ", component: " +:+ quoted (rbComponent rb) +:+
             ") does not match component release owner (project: " +:+ quoted (crlProject componentRelease) +:+ ", component: " +:+
             quoted (crlComponent componentRelease) +:+ ")")
  else None.

(** An object that is not found is reported in the condition, and [None]. *)
Definition required {A} (m : CM S A) (reason message : string) : BM (option A) :=
  r ← attempt (reads m);
  match r with
  | inl a => mret (Some a)
  | inr err => if hasTag IsNotFoundErr err then notSynced reason message ≫= λ _, mret None else fails err
  end.

(** [if x == nil { return ctrl.Result{}, nil }] *)
Definition orDone {A} (m : BM (option A)) (k : A → BM Result) : BM Result :=
  o ← m; match o with Some a => k a | None => mret done_ end.

Definition reconcileBody : BM Result :=
  rb ← binding;
  let ns := rbNamespace rb in
  orDone (required (getComponentRelease ns (rbReleaseName rb)) "ComponentReleaseNotFound"
            ("ComponentRelease " +:+ quoted (rbReleaseName rb) +:+ " not found")) (λ componentRelease,
  match validateComponentRelease componentRelease rb with
  | Some err => notSynced "InvalidReleaseConfiguration" ("Invalid ComponentRelease configuration: " +:+ err) ≫= λ _, mret done_
  | None =>
      orDone (required (getEnvironment ns (rbEnvironment rb)) "EnvironmentNotFound"
                ("Environment " +:+ quoted (rbEnvironment rb) +:+ " not found")) (λ environment,
      orDone (required (GetDataPlaneFromRef (metaNamespace (envMeta environment)) (envDataPlaneRef environment)) "DataPlaneNotFound"
                ("DataPlane not found for environment " +:+ quoted (metaName (envMeta environment)))) (λ dataPlaneResult,
      orDone (required (getComponent ns (crlComponent componentRelease)) "ComponentNotFound"
                ("Component " +:+ quoted (crlComponent componentRelease) +:+ " not found")) (λ component,
      orDone (required (getProject ns (crlProject componentRelease)) "ProjectNotFound"
                ("Project " +:+ quoted (crlProject componentRelease) +:+ " not found")) (λ project,
      reconcileBindingRelease componentRelease environment dataPlaneResult component project))))
  end).

(** [kerrors.NewAggregate] of the two errors. *)
Definition aggregate (rErr : option clientError) (err : clientError) : clientError :=
  match rErr with
  | None => err
  | Some e => mkClientError ("[" +:+ ceText e +:+ ", " +:+ ceText err +:+ "]") (ceTags e ++ ceTags err)
  end.

(** The deferred function: the aggregated condition, and the status if it changed. *)
Definition deferredStatus (old : ReleaseBinding) (r : Result + clientError) : BM Result :=
  modify (setReadyCondition now) ≫= λ _,
  rb ← binding;
  if bool_decide (rbStatus old = rbStatus rb) then (match r with inl a => mret a | inr err => fails err end)
  else
    u ← attempt (calls (λ _ a, BStatusUpdate rb (errorOf a)) (writeBindingStatus rb));
    match u, r with
    | inr err, _ => fails (aggregate (errorOf r) err)
    | inl _, inl a => mret a
    | inl _, inr err => fails err
    end.

Definition observe (rb : ReleaseBinding) : ReleaseBinding :=
  let g := metaGeneration (rbMeta rb) in
  withBindingStatus rb
    (setObserved (rbStatus rb) g (if bool_decide (g = bsObservedGeneration (rbStatus rb)) then bsLastSpecUpdate (rbStatus rb) else Some now)).

(** The reconciliation of a binding that was read. *)
Definition reconcileBinding : BM Result :=
  old ← binding;
  if metaDeleting (rbMeta old) then finalizeBinding old
  else
    added ← ensureBindingFinalizer;
    if added : bool then mret done_
    else
      modify observe ≫= λ _,
      r ← attempt reconcileBody;
      deferredStatus old r.

(** A run on a binding, with the calls it made. *)
Definition runBinding (rb : ReleaseBinding) : CM S (Result * list (bindingCall S)) := λ s,
  let '(w, res) := reconcileBinding (mkBWorld s rb []) in
  (bwState w, match res with inl a => inl (a, bwCalls w) | inr err => inr err end).

Definition ReconcileBinding (namespace name : string) : CM S (Result * list (bindingCall S)) :=
  r ← attempt (getBinding namespace name);
  match r with
  | inr err => if hasTag IsNotFoundErr err then mret (done_, []) else fails err
  | inl rb => runBinding rb
  end.
End Controller.
Arguments BindingEnv Frozen S PC : clear implicits.
Arguments Rendering Frozen S : clear implicits.
