(* ===== verification/BindingSpec.v ===== *)
(** * What the release binding controller writes and deletes

    A logic of runs: the calls a run adds and the identity of the binding.  A
    deployment writes and deletes only releases that belong to the binding; an
    undeployment and a finalization do not look whose releases they delete; the
    finalizer goes when no release of the component is left. *)

From S2P Require Import Prelude GoStrings GoValue RenderErrors TemplateEngine ReleaseObjects PlaneObjects PlaneRefs ReleaseController K8sNames NetworkPolicy WorkloadContext BindingObjects BindingConnections BindingEndpoints BindingDelivery BindingController.

#[local] Set Warnings "-register-all".

(** ** Runs *)

Section Conduct.
Context {S : Type}.
Implicit Types (I : ReleaseBinding → Prop) (P : bindingCall S → Prop) (w : BWorld S).

(** Every call that is added satisfies [P], and the binding keeps [I], whatever
    the outcome. *)
Definition conducts {A} I P (m : CM (BWorld S) A) : Prop :=
  ∀ w, I (bwBinding w) → ∃ new, bwCalls (m w).1 = bwCalls w ++ new ∧ Forall P new ∧ I (bwBinding (m w).1).

Lemma conducts_ret {A} I P (a : A) : conducts I P (mret a).
Proof. intros w Hw. exists []. by rewrite app_nil_r. Qed.

Lemma conducts_fails {A} I P err : conducts I P (fails err : CM (BWorld S) A).
Proof. intros w Hw. exists []. by rewrite app_nil_r. Qed.

Lemma conducts_bind {A B} I P (m : CM (BWorld S) A) (f : A → CM (BWorld S) B) :
  conducts I P m → (∀ a, conducts I P (f a)) → conducts I P (m ≫= f).
Proof.
  intros Hm Hf w Hw. rewrite CM_bind_eq. destruct (Hm w Hw) as (new & Hc & HP & HI).
  destruct (m w) as [w1 [a|err]]; cbn in *; [|by exists new].
  destruct (Hf a w1 HI) as (new' & Hc' & HP' & HI'). exists (new ++ new').
  rewrite Hc', Hc, app_assoc. split_and!; [done|by apply Forall_app|done].
Qed.

(** A step after the binding was read knows the invariant of what it read. *)
Lemma conducts_binding {A} I P (f : ReleaseBinding → CM (BWorld S) A) :
  (∀ rb, I rb → conducts I P (f rb)) → conducts I P (binding ≫= f).
Proof. intros Hf w Hw. exact (Hf (bwBinding w) Hw w Hw). Qed.

Lemma conducts_attempt {A} I P (m : CM (BWorld S) A) : conducts I P m → conducts I P (attempt m).
Proof. intros Hm w Hw. exact (Hm w Hw). Qed.

Lemma conducts_orElse {A} I P (m : CM (BWorld S) A) g : conducts I P m → conducts I P (orElse m g).
Proof. intros Hm w Hw. specialize (Hm w Hw). unfold orElse. by destruct (m w) as [w1 [a|err]]. Qed.

Lemma conducts_reads {A} I P (m : CM S A) : conducts I P (reads m).
Proof. intros w Hw. exists []. by rewrite app_nil_r. Qed.

Lemma conducts_calls {A} I P (f : S → A + clientError → bindingCall S) (m : CM S A) :
  (∀ s, P (f s (m s).2)) → conducts I P (calls f m).
Proof. intros Hf w Hw. eexists [_]. split_and!; [done|constructor; [apply Hf|constructor]|done]. Qed.

Lemma conducts_modify I P f : (∀ rb, I rb → I (f rb)) → conducts I P (modify f).
Proof. intros Hf w Hw. exists []. rewrite app_nil_r. split_and!; [done|done|]. by apply Hf. Qed.

Lemma conducts_orPanic {A} I P (o : option A) : conducts I P (orPanic o).
Proof. destruct o; [apply conducts_ret|apply conducts_fails]. Qed.

Lemma conducts_weaken {A} I P (P' : bindingCall S → Prop) (m : CM (BWorld S) A) :
  conducts I P m → (∀ c, P c → P' c) → conducts I P' m.
Proof. intros Hm HP w Hw. destruct (Hm w Hw) as (new & ? & HF & ?). exists new. split_and!; [done|by eapply Forall_impl|done]. Qed.
End Conduct.

(** ** Identity *)

(** Everything of a binding but its status. *)
Definition sameBinding (rb0 rb : ReleaseBinding) : Prop := withBindingStatus rb (rbStatus rb0) = rb0.

Lemma sameBinding_refl rb : sameBinding rb rb.
Proof. by destruct rb. Qed.

Lemma sameBinding_status rb0 rb st : sameBinding rb0 rb → sameBinding rb0 (withBindingStatus rb st).
Proof. by destruct rb. Qed.

Lemma sameBinding_fields rb0 rb :
  sameBinding rb0 rb →
  rbMeta rb = rbMeta rb0 ∧ rbProject rb = rbProject rb0 ∧ rbComponent rb = rbComponent rb0 ∧ rbEnvironment rb = rbEnvironment rb0 ∧
  rbState rb = rbState rb0.
Proof. intros <-. by destruct rb. Qed.

Section Marks.
Context {SC : StatusConditions} (now : Z) (rb0 : ReleaseBinding).

Lemma sameBinding_mark rb ct status reason message :
  sameBinding rb0 rb → sameBinding rb0 (markBinding now rb ct status reason message).
Proof. intros H. unfold markBinding. destruct (SetStatusCondition _ _) as [cs []]; [by apply sameBinding_status|done]. Qed.

Lemma sameBinding_ready rb : sameBinding rb0 rb → sameBinding rb0 (setReadyCondition now rb).
Proof. intros H. unfold setReadyCondition. repeat case_goal; try done; by apply sameBinding_mark. Qed.

Lemma sameBinding_resources rb release component :
  sameBinding rb0 rb → sameBinding rb0 (setResourcesReadyStatus now rb release component).
Proof. intros H. unfold setResourcesReadyStatus. repeat case_goal; by apply sameBinding_mark. Qed.

Lemma sameBinding_connections rb b : sameBinding rb0 rb → sameBinding rb0 (setConnectionsCondition now rb b).
Proof. intros H. unfold setConnectionsCondition. repeat case_goal; by apply sameBinding_mark. Qed.

Lemma sameBinding_dependencies rb b : sameBinding rb0 rb → sameBinding rb0 (setResourceDependenciesCondition now rb b).
Proof. intros H. unfold setResourceDependenciesCondition. repeat case_goal; by apply sameBinding_mark. Qed.
End Marks.

Create HintDb conduct.
#[export] Hint Resolve conducts_ret conducts_fails conducts_reads conducts_orPanic conducts_attempt conducts_orElse : conduct.
#[export] Hint Resolve sameBinding_status sameBinding_mark sameBinding_ready sameBinding_resources sameBinding_connections
  sameBinding_dependencies : conduct.

(** Steps of a run, up to the calls that are made. *)
Ltac conduct_step :=
  match goal with
  | |- conducts _ _ (binding ≫= _) => apply conducts_binding; intros
  | |- conducts _ _ (_ ≫= _) => apply conducts_bind; [|intros]
  | |- conducts _ _ (modifyStatus _) => apply conducts_modify; intros
  | |- conducts _ _ (modify _) => apply conducts_modify; intros
  | |- conducts _ _ (attempt _) => apply conducts_attempt
  | |- conducts _ _ (orElse _ _) => apply conducts_orElse
  | |- conducts _ _ (mret _) => apply conducts_ret
  | |- conducts _ _ (fails _) => apply conducts_fails
  | |- conducts _ _ (reads _) => apply conducts_reads
  | |- conducts _ _ (orPanic _) => apply conducts_orPanic
  | |- conducts _ _ (let '(_, _) := ?x in _) => destruct x
  | |- conducts _ _ (match ?x with _ => _ end) => destruct x eqn:?
  | |- conducts _ _ (if ?x then _ else _) => destruct x eqn:?
  end.
Ltac conduct := repeat conduct_step; eauto with conduct.

(** ** Ownership *)

(** Two versions of a release that differ in what the server sets only. *)
Definition sameContent (a b : OwnedRelease) : Prop :=
  orLabels a = orLabels b ∧ orComponent a = orComponent b ∧ orOwners a = orOwners b ∧
  relTargetPlane (orRelease a) = relTargetPlane (orRelease b) ∧ relEnvironment (orRelease a) = relEnvironment (orRelease b) ∧
  relProject (orRelease a) = relProject (orRelease b) ∧ relResources (orRelease a) = relResources (orRelease b).

(** An object with a name only. *)
Definition blankRelease (namespace name : string) : OwnedRelease :=
  mkOwned (mkRelease name namespace "" 0 false [] ∅ "" "" "" [] None None (mkReleaseStatus [] [])) ∅ "" [].

(** What the code relies on: owner references name the binding's metadata; a
    stored release has a UID; a release that [CreateOrUpdate] returns is what its
    callback made of the one that was stored (an update of a stale read fails), or
    of an empty one; [SetControllerReference] only adds an owner. *)
Class BindingEnvLaws (Frozen S PC : Type) `{BE : BindingEnv Frozen S PC} := {
  storedRelease : S → string → string → option OwnedRelease;
  stored_uid : ∀ s ns n r, storedRelease s ns n = Some r → relUID (orRelease r) ≠ "";
  owner_by_meta : ∀ r rb rb', rbMeta rb = rbMeta rb' → HasOwnerReference r rb = HasOwnerReference r rb';
  CreateOrUpdate_mutates : ∀ ns n f (s : S) r op,
    (CreateOrUpdate ns n f s).2 = inl (r, op) →
    ∃ after, f (default (blankRelease ns n) (storedRelease s ns n)) = inl after ∧ sameContent after r;
  SetControllerReference_adds : ∀ rb r r',
    SetControllerReference rb r = inl r' →
    orRelease r' = orRelease r ∧ orLabels r' = orLabels r ∧ orComponent r' = orComponent r ∧ HasOwnerReference r' rb = inl true
}.

Section Ownership.
Context {U : Unstructured} {N : Nested} {J : JSON} {SC : StatusConditions} {FZ : Finalizers} {DC : DeliveryCodec} {MR : MapRange} {SS : SortSlice}.
Context {WT : WorkflowParts} {Frozen S PC : Type} {PS : PlaneStore S} {BR : BindingReads S} {EC : EventClient S PC}.
Context {BE : BindingEnv Frozen S PC} {RE : Rendering Frozen S} {BL : BindingEnvLaws Frozen S PC}.
Context (now : Z) (rb0 : ReleaseBinding).

(** A release that was new, or belonged to the binding before; now it is the
    binding's, for its component and environment. *)
Definition rightfullyWritten (s : S) (name : string) (r : OwnedRelease) : Prop :=
  (∀ before, storedRelease s (rbNamespace rb0) name = Some before → HasOwnerReference before rb0 = inl true) ∧
  orComponent r = rbComponent rb0 ∧ relProject (orRelease r) = rbProject rb0 ∧ relEnvironment (orRelease r) = rbEnvironment rb0.

Definition ourCall (c : bindingCall S) : Prop :=
  match c with
  | BApply s ns name (inl (r, _)) => ns = rbNamespace rb0 ∧ rightfullyWritten s name r
  | BApply _ _ _ (inr _) => True
  | BDelete r _ => HasOwnerReference r rb0 = inl true
  | BList _ => False
  | BUpdate rb _ => rb = withBindingFinalizers rb0 (metaFinalizers (rbMeta rb))
  | BStatusUpdate rb _ => sameBinding rb0 rb
  end.

Abbreviation ours m := (conducts (S := S) (sameBinding rb0) ourCall m).

Lemma notSynced_ours reason message : ours (notSynced (S := S) now reason message).
Proof. unfold notSynced. conduct. Qed.

Lemma orNotSynced_ours {A} (m : CM (BWorld S) A) reason message f : ours m → ours (orNotSynced now m reason message f).
Proof. intros Hm. unfold orNotSynced. conduct. apply notSynced_ours. Qed.

Lemma checkOwner_spec rb r :
  sameBinding rb0 rb → checkOwner rb r = None → relUID (orRelease r) = "" ∨ HasOwnerReference r rb0 = inl true.
Proof.
  intros (Hm & _)%sameBinding_fields. unfold checkOwner. case_bool_decide; [by left|].
  rewrite (owner_by_meta r rb rb0 Hm). destruct (HasOwnerReference r rb0) as [[]|]; intros; [by right|done..].
Qed.

(** What both callbacks guarantee about the release they return. *)
Definition rightfulMutation (mutate : OwnedRelease → OwnedRelease + clientError) : Prop :=
  ∀ before after, mutate before = inl after →
    (relUID (orRelease before) = "" ∨ HasOwnerReference before rb0 = inl true) ∧ orComponent after = rbComponent rb0 ∧
    relProject (orRelease after) = rbProject rb0 ∧ relEnvironment (orRelease after) = rbEnvironment rb0.

Lemma mutateDataPlane_rightful rb componentRelease resources :
  sameBinding rb0 rb → rightfulMutation (mutateDataPlaneRelease rb componentRelease resources).
Proof.
  intros Hrb before after. unfold mutateDataPlaneRelease. destruct (checkOwner rb before) eqn:E; [done|].
  intros (Hr & _ & Hc & _)%SetControllerReference_adds. destruct (sameBinding_fields _ _ Hrb) as (_ & Hp & Hco & Hen & _).
  split; [by eapply checkOwner_spec|]. rewrite Hr, Hc. cbn. by rewrite Hp, Hco, Hen.
Qed.

Lemma mutateObservability_rightful rb resources :
  sameBinding rb0 rb → rightfulMutation (mutateObservabilityRelease rb resources).
Proof.
  intros Hrb before after. unfold mutateObservabilityRelease. destruct (checkOwner rb before) eqn:E; [done|].
  intros (Hr & _ & Hc & _)%SetControllerReference_adds. destruct (sameBinding_fields _ _ Hrb) as (_ & Hp & Hco & Hen & _).
  split; [by eapply checkOwner_spec|]. rewrite Hr, Hc. cbn. by rewrite Hp, Hco, Hen.
Qed.

Lemma applyRelease_ours name plane mutate : rightfulMutation mutate → ours (applyRelease now name plane mutate).
Proof.
  intros Hm. unfold applyRelease. apply conducts_binding. intros rb Hrb.
  destruct (sameBinding_fields _ _ Hrb) as (Hmeta & _).
  apply conducts_bind; [|intros []; conduct; apply notSynced_ours].
  apply conducts_attempt, conducts_calls. intros s.
  destruct ((CreateOrUpdate (rbNamespace rb) name mutate s).2) as [[r op]|err] eqn:E; [|done]. cbn.
  assert (rbNamespace rb = rbNamespace rb0) as Hns by (unfold rbNamespace; by rewrite Hmeta). rewrite Hns in *. split; [done|].
  destruct (CreateOrUpdate_mutates _ _ _ _ _ _ E) as (after & Hf & _ & Hc & _ & _ & He & Hp & _).
  destruct (Hm _ after Hf) as (Hb & H1 & H2 & H3). split; [|by rewrite <- Hc, <- Hp, <- He].
  intros before Hs. rewrite Hs in Hb. cbn in Hb. destruct Hb as [Hu|Ho]; [by apply stored_uid in Hs|done].
Qed.

Lemma deleteCall_ours r : HasOwnerReference r rb0 = inl true → ours (deleteCall r).
Proof. intros Hr. by apply conducts_calls. Qed.

Lemma ignoreNotFound_ours (m : CM (BWorld S) unit) : ours m → ours (ignoreNotFound m).
Proof. intros Hm. unfold ignoreNotFound. conduct. Qed.

Lemma cleanupObservabilityRelease_ours name : ours (cleanupObservabilityRelease now name).
Proof.
  unfold cleanupObservabilityRelease. apply conducts_binding. intros rb Hrb. destruct (sameBinding_fields _ _ Hrb) as (Hmeta & _).
  apply conducts_bind; [conduct|]. intros [existing|err]; [|conduct; apply notSynced_ours].
  rewrite (owner_by_meta existing rb rb0 Hmeta). destruct (HasOwnerReference existing rb0) as [[]|err] eqn:E; [| |conduct; apply notSynced_ours].
  - by apply orNotSynced_ours, ignoreNotFound_ours, deleteCall_ours.
  - conduct.
Qed.

Lemma reconcileObservabilityRelease_ours componentRelease dataPlaneResult resources :
  ours (reconcileObservabilityRelease now componentRelease dataPlaneResult resources).
Proof.
  unfold reconcileObservabilityRelease, shouldManage. apply conducts_binding. intros rb Hrb.
  apply conducts_bind; [conduct; apply notSynced_ours|]. intros [[] why]; cbn [fst snd].
  - apply conducts_bind; [by apply applyRelease_ours, mutateObservability_rightful|]. intros [[r op]|]; conduct.
  - apply conducts_bind; [apply cleanupObservabilityRelease_ours|]. conduct.
Qed.

Lemma convertFrom_ours resources i : ours (convertFrom resources i).
Proof. revert i. induction resources as [|r resources IH]; intros i; cbn [convertFrom]; conduct. Qed.

Lemma populateResourceDependencyStatus_same rb deps s x :
  sameBinding rb0 rb → (populateResourceDependencyStatus rb deps s).2 = inl x → sameBinding rb0 x.1.
Proof.
  intros Hrb. unfold populateResourceDependencyStatus. rewrite CM_bind_eq. unfold attempt.
  destruct (resolveResourceDependencies _ _ s) as [s' [[items pending]|err]]; cbn; intros [= <-]; cbn;
    repeat apply sameBinding_status; done.
Qed.

Lemma resolveInputs_ours workload : ours (resolveInputs (S := S) now workload).
Proof.
  unfold resolveInputs. apply conducts_binding. intros rb Hrb.
  apply conducts_bind; [apply orNotSynced_ours; conduct|]. intros refs.
  do 2 (apply conducts_bind; [by conduct|]; intros []).
  apply conducts_bind; [conduct|]. intros conns. apply conducts_bind; [conduct|]. intros []. apply conducts_binding. intros rb' Hrb'.
  intros w Hw. pose proof (populateResourceDependencyStatus_same rb' (GetDependencyResources workload) (bwState w)) as Hp.
  rewrite CM_bind_eq. unfold reads. destruct (populateResourceDependencyStatus _ _ (bwState w)) as [s' [x|err]]; cbn in *;
    [|exists []; by rewrite app_nil_r]. specialize (Hp x Hrb' eq_refl).
  destruct x as [rb'' [items|err]]; (exists []; by rewrite app_nil_r).
Qed.

Lemma renderRelease_ours input dataPlaneResult : ours (renderRelease now input dataPlaneResult).
Proof.
  unfold renderRelease. apply conducts_bind; [apply orNotSynced_ours; conduct|]. intros rendered.
  apply conducts_bind; [conduct|]. intros netpols. apply conducts_bind; [apply orNotSynced_ours, convertFrom_ours|]. intros dp.
  apply conducts_bind; [apply orNotSynced_ours, convertFrom_ours|]. conduct.
Qed.

Lemma recordDelivery_ours componentRelease release resources b : ours (recordDelivery now componentRelease release resources b).
Proof. unfold recordDelivery. conduct. Qed.

Lemma settleBinding_ours componentRelease environment dataPlane component resources manifests release dpOp obs :
  ours (settleBinding now componentRelease environment dataPlane component resources manifests release dpOp obs).
Proof.
  unfold settleBinding, setReleaseSyncedCondition. conduct; apply recordDelivery_ours.
Qed.

Lemma deployRelease_ours componentRelease environment dataPlaneResult dataPlane component project :
  ours (deployRelease now componentRelease environment dataPlaneResult dataPlane component project).
Proof.
  unfold deployRelease. apply conducts_binding. intros rb Hrb. apply conducts_bind; [conduct|]. intros metadata.
  apply conducts_bind; [conduct|]. intros channel. apply conducts_bind; [apply resolveInputs_ours|]. intros inputs.
  apply conducts_binding. intros rb' Hrb'. apply conducts_bind; [apply renderRelease_ours|]. intros [[resources dp] obs].
  apply conducts_bind; [by apply applyRelease_ours, mutateDataPlane_rightful|]. intros [[release op]|]; [|conduct].
  apply conducts_bind; [apply reconcileObservabilityRelease_ours|]. intros o. destruct (obsConflict o); [conduct|apply settleBinding_ours].
Qed.
End Ownership.

Section Theorems.
Context {U : Unstructured} {N : Nested} {J : JSON} {SC : StatusConditions} {FZ : Finalizers} {DC : DeliveryCodec} {MR : MapRange} {SS : SortSlice}.
Context {WT : WorkflowParts} {Frozen S PC : Type} {PS : PlaneStore S} {BR : BindingReads S} {EC : EventClient S PC}.
Context {BE : BindingEnv Frozen S PC} {RE : Rendering Frozen S}.
Context (now : Z).

Lemma required_conducts {A} I P (m : CM S A) reason message :
  (∀ rb, I rb → I (markFalse now rb ConditionReleaseSynced reason message)) →
  conducts (S := S) I P (required now m reason message).
Proof. intros HI. unfold required, notSynced. conduct. Qed.

Lemma orDone_conducts {A} I P (m : CM (BWorld S) (option A)) k :
  conducts I P m → (∀ a, conducts I P (k a)) → conducts I P (orDone m k).
Proof. intros Hm Hk. apply conducts_bind; [done|]. intros [a|]; [apply Hk|apply conducts_ret]. Qed.

Lemma deferredStatus_conducts {BL : BindingEnvLaws Frozen S PC} rb0 old r :
  conducts (S := S) (sameBinding rb0) (ourCall rb0) (deferredStatus now old r).
Proof.
  unfold deferredStatus. apply conducts_bind; [conduct|]. intros []. apply conducts_binding. intros rb Hrb.
  case_goal; [conduct|]. apply conducts_bind; [|intros u; conduct]. by apply conducts_attempt, conducts_calls.
Qed.

Lemma reconcileBody_ours {BL : BindingEnvLaws Frozen S PC} rb0 :
  rbState rb0 ≠ ReleaseStateUndeploy → conducts (S := S) (sameBinding rb0) (ourCall rb0) (reconcileBody now).
Proof.
  intros Hst. unfold reconcileBody. apply conducts_binding. intros rb Hrb.
  assert (Hreq : ∀ {A} (m : CM S A) reason message, conducts (S := S) (sameBinding rb0) (ourCall rb0) (required now m reason message)).
  { intros A m reason message. apply required_conducts. intros. by apply sameBinding_mark. }
  apply orDone_conducts; [apply Hreq|]. intros componentRelease. case_goal; [unfold notSynced; conduct|].
  do 4 (apply orDone_conducts; [apply Hreq|]; intros ?). unfold reconcileBindingRelease. apply conducts_binding. intros rb' Hrb'.
  destruct (sameBinding_fields _ _ Hrb') as (_ & _ & _ & _ & Hs). rewrite bool_decide_false by (by rewrite Hs).
  apply conducts_bind; [conduct|]. intros dataPlane. apply deployRelease_ours.
Qed.

(** The run of a binding whose finalizer is there. *)
Lemma reconcile_unfinalized rb0 s :
  metaDeleting (rbMeta rb0) = false → (AddFinalizer (metaFinalizers (rbMeta rb0)) ReleaseBindingFinalizer).2 = false →
  reconcileBinding now (mkBWorld s rb0 []) = (attempt (reconcileBody now) ≫= deferredStatus now rb0) (mkBWorld s (observe now rb0) []).
Proof.
  intros Hd Ha. unfold reconcileBinding, ensureBindingFinalizer. rewrite !CM_bind_eq. cbn [binding bwBinding]. rewrite Hd.
  rewrite !CM_bind_eq. cbn [binding bwBinding]. rewrite Hd. destruct (AddFinalizer _ _) as [fs []]; [done|]. reflexivity.
Qed.

Lemma reconcile_adds_finalizer rb0 s fs :
  metaDeleting (rbMeta rb0) = false → AddFinalizer (metaFinalizers (rbMeta rb0)) ReleaseBindingFinalizer = (fs, true) →
  bwCalls (reconcileBinding now (mkBWorld s rb0 [])).1 =
    [BUpdate (withBindingFinalizers rb0 fs) (errorOf (writeBinding (withBindingFinalizers rb0 fs) s).2)].
Proof.
  intros Hd Ha. unfold reconcileBinding, ensureBindingFinalizer. rewrite !CM_bind_eq. cbn [binding bwBinding]. rewrite Hd.
  rewrite !CM_bind_eq. cbn [binding bwBinding]. rewrite Hd, Ha. rewrite CM_bind_eq. unfold modify at 1. cbn [bwState bwBinding bwCalls].
  rewrite CM_bind_eq. unfold calls. cbn [bwState bwBinding bwCalls app].
  by destruct (writeBinding (withBindingFinalizers rb0 fs) s) as [s' [[]|err]].
Qed.
End Theorems.

(** C14: A reconciliation of a binding that is to be deployed writes a release only
    when it is new or owned by the binding already, always as a release of the
    binding's component and environment in its namespace, and deletes only
    releases the binding owns; of the binding itself it writes nothing but the
    finalizer and the status.  This holds for every API server and every outcome
    of its calls. *)
Theorem deployment_touches_own_releases {U : Unstructured} {N : Nested} {J : JSON} {SC : StatusConditions} {FZ : Finalizers}
    {DC : DeliveryCodec} {MR : MapRange} {SS : SortSlice} {WT : WorkflowParts} {Frozen S PC : Type} {PS : PlaneStore S}
    {BR : BindingReads S} {EC : EventClient S PC} {BE : BindingEnv Frozen S PC} {RE : Rendering Frozen S}
    {BL : BindingEnvLaws Frozen S PC} (now : Z) (rb0 : ReleaseBinding) (s : S) :
  metaDeleting (rbMeta rb0) = false → rbState rb0 ≠ ReleaseStateUndeploy →
  ∀ c, c ∈ bwCalls (reconcileBinding now (mkBWorld s rb0 [])).1 →
    match c with
    | BApply s' ns name (inl (r, _)) =>
        ns = rbNamespace rb0
        ∧ (∀ before, storedRelease s' ns name = Some before → HasOwnerReference before rb0 = inl true)
        ∧ orComponent r = rbComponent rb0 ∧ relProject (orRelease r) = rbProject rb0 ∧ relEnvironment (orRelease r) = rbEnvironment rb0
    | BApply _ _ _ (inr _) => True
    | BDelete r _ => HasOwnerReference r rb0 = inl true
    | BList _ => False
    | BUpdate rb _ => rb = withBindingFinalizers rb0 (metaFinalizers (rbMeta rb))
    | BStatusUpdate rb _ => withBindingStatus rb (rbStatus rb0) = rb0
    end.
Proof.
  intros Hd Hst. destruct ((AddFinalizer (metaFinalizers (rbMeta rb0)) ReleaseBindingFinalizer).2) eqn:Ea.
  - destruct (AddFinalizer (metaFinalizers (rbMeta rb0)) ReleaseBindingFinalizer) as [fs b] eqn:Ef. cbn in Ea. subst b.
    rewrite (reconcile_adds_finalizer now rb0 s fs) by done. intros c ->%list_elem_of_singleton. reflexivity.
  - rewrite reconcile_unfinalized by done.
    assert (Hrun : conducts (S := S) (sameBinding rb0) (ourCall rb0) (attempt (reconcileBody now) ≫= deferredStatus now rb0)).
    { apply conducts_bind; [by apply conducts_attempt, reconcileBody_ours|]. intros r. apply deferredStatus_conducts. }
    destruct (Hrun (mkBWorld s (observe now rb0) [])) as (new & Hnew & HF & _); [apply sameBinding_status, sameBinding_refl|].
    cbn [bwCalls app] in Hnew. rewrite Hnew. rewrite Forall_forall in HF. intros c Hc%HF.
    destruct c as [s' ns n [[r op]|err]|r err|a|rb err|rb err]; try exact Hc.
    destruct Hc as [-> (? & ? & ? & ?)]. by split_and!.
Qed.

(** ** Undeployment and finalization *)

Section Removal.
Context {U : Unstructured} {N : Nested} {J : JSON} {SC : StatusConditions} {FZ : Finalizers} {DC : DeliveryCodec} {MR : MapRange} {SS : SortSlice}.
Context {WT : WorkflowParts} {Frozen S PC : Type} {PS : PlaneStore S} {BR : BindingReads S} {EC : EventClient S PC}.
Context {BE : BindingEnv Frozen S PC} {RE : Rendering Frozen S}.
Context (now : Z).

(** A run only adds calls. *)
Lemma calls_grow {A} (m : CM (BWorld S) A) w c :
  conducts (λ _, True) (λ _, True) m → c ∈ bwCalls w → c ∈ bwCalls (m w).1.
Proof. intros Hm Hc. destruct (Hm w I) as (new & -> & _). apply elem_of_app. by left. Qed.

Lemma undeployRelease_conducts name what : conducts (S := S) (λ _, True) (λ _, True) (undeployRelease now name what).
Proof. unfold undeployRelease, notSynced, deleteCall. conduct; by apply conducts_calls. Qed.

Lemma undeployRelease_deletes name what w s' r :
  getRelease (rbNamespace (bwBinding w)) name (bwState w) = (s', inl r) → relDeleting (orRelease r) = false →
  ∃ err, BDelete r err ∈ bwCalls (undeployRelease now name what w).1.
Proof.
  intros Hget Hdel. unfold undeployRelease. rewrite CM_bind_eq. cbn [binding]. rewrite CM_bind_eq.
  unfold attempt at 1, reads. cbn [fst snd]. rewrite Hget. cbn [fst snd]. rewrite Hdel. rewrite !CM_bind_eq.
  unfold attempt, deleteCall, calls. cbn [fst snd bwState].
  destruct (deleteRelease r s') as [s'' [[]|err]]; cbn; eexists; apply elem_of_app; right; by constructor.
Qed.
End Removal.

(** The undeployment of a binding deletes the release that has the name
    component-environment, whoever owns it.  The name does not tell where the
    component ends and the environment begins: two bindings of different components
    and environments in a namespace can share it, and undeploying one deletes the
    release of the other. *)
Theorem undeploy_deletes_foreign {U : Unstructured} {N : Nested} {J : JSON} {SC : StatusConditions} {FZ : Finalizers}
    {DC : DeliveryCodec} {MR : MapRange} {SS : SortSlice} {WT : WorkflowParts} {Frozen S PC : Type} {PS : PlaneStore S}
    {BR : BindingReads S} {EC : EventClient S PC} {BE : BindingEnv Frozen S PC} {RE : Rendering Frozen S}
    (now : Z) (rb other : ReleaseBinding) (cr : ComponentRelease Frozen) (environment : EnvironmentCR) (dp : DataPlaneResult)
    (component : ComponentCR) (project : ProjectCR) (s s' : S) (r : OwnedRelease) :
  rbState rb = ReleaseStateUndeploy → crlComponent cr = rbComponent rb → rbNamespace other = rbNamespace rb →
  (rbComponent other, rbEnvironment other) ≠ (rbComponent rb, rbEnvironment rb) →
  makeDataPlaneReleaseName (rbComponent other) (rbEnvironment other) = makeDataPlaneReleaseName (rbComponent rb) (rbEnvironment rb) →
  getRelease (rbNamespace other) (makeDataPlaneReleaseName (rbComponent other) (rbEnvironment other)) s = (s', inl r) →
  HasOwnerReference r other = inl true → HasOwnerReference r rb = inl false → relDeleting (orRelease r) = false →
  ∃ err, BDelete r err ∈ bwCalls (reconcileBindingRelease now cr environment dp component project (mkBWorld s rb [])).1.
Proof.
  intros Hst Hcr Hns _ Hname Hget _ _ Hdel. unfold reconcileBindingRelease. rewrite CM_bind_eq. cbn [binding bwBinding].
  rewrite bool_decide_true by done. rewrite CM_bind_eq. unfold modifyStatus, modify at 1. cbn [bwState bwBinding bwCalls].
  set (w := mkBWorld s _ []). unfold handleUndeploy. rewrite CM_bind_eq. cbn [binding]. rewrite CM_bind_eq.
  destruct (undeployRelease_deletes now (makeDataPlaneReleaseName (crlComponent cr) (rbEnvironment (bwBinding w))) "dataplane" w s' r)
    as [err Hin]; [|done|].
  { change (getRelease (rbNamespace rb) (makeDataPlaneReleaseName (crlComponent cr) (rbEnvironment rb)) s = (s', inl r)).
    by rewrite Hcr, <- Hname, <- Hns. }
  exists err. destruct (undeployRelease now _ "dataplane" w) as [w1 [b|e]]; [|done]. cbn [fst] in Hin.
  apply calls_grow; [|done]. unfold undeployed, notSynced. conduct. apply undeployRelease_conducts.
Qed.

Section Finalization.
Context {SC : StatusConditions} {FZ : Finalizers} {Frozen S PC : Type} {BE : BindingEnv Frozen S PC}.

Definition not_BUpdate (c : bindingCall S) : Prop := match c with BUpdate _ _ => False | _ => True end.

Lemma deleteLive_conducts I releases : conducts (S := S) I not_BUpdate (deleteLive releases).
Proof.
  induction releases as [|r releases IH]; cbn [deleteLive]; [conduct|].
  apply conducts_bind; [|by intros []]. unfold ignoreNotFound, deleteCall. conduct. by apply conducts_calls.
Qed.

(** The answer of the check, and what it did. *)
Lemma hasOwnedReleases_run (w : BWorld S) :
  ∃ new, bwCalls (hasOwnedReleases w).1 = bwCalls w ++ new ∧ Forall not_BUpdate new ∧
    ((hasOwnedReleases w).2 = inl false →
       (listReleasesByLabels (rbNamespace (bwBinding w)) (ownedLabels (bwBinding w)) (bwState w)).2 = inl [] ∧ new = [BList (inl [])]).
Proof.
  remember (hasOwnedReleases w) as out eqn:Eout. unfold hasOwnedReleases in Eout. rewrite CM_bind_eq in Eout. cbn [binding] in Eout.
  rewrite CM_bind_eq in Eout. unfold orElse at 1, calls at 1 in Eout.
  destruct (listReleasesByLabels _ _ (bwState w)) as [s1 [[|r releases]|e]]; cbn [fst snd] in Eout.
  - exists [BList (inl [])]. subst out. split_and!; [done|by repeat constructor|]. intros _. by split.
  - rewrite bool_decide_false in Eout by done. rewrite CM_bind_eq in Eout.
    set (w1 := mkBWorld s1 (bwBinding w) (bwCalls w ++ [BList (inl (r :: releases))])) in Eout.
    destruct (deleteLive_conducts (λ _, True) (r :: releases) w1 I) as (new & Hnew & HF & _).
    exists (BList (inl (r :: releases)) :: new).
    destruct (deleteLive (r :: releases) w1) as [w2 [[]|e]]; subst out; cbn in *; rewrite Hnew, <- app_assoc;
      (split_and!; [done|by constructor|done]).
  - exists [BList (inr e)]. subst out. split_and!; [done|by repeat constructor|done].
Qed.
End Finalization.

(** C15: The finalizer of a binding is removed only by a run that listed the
    releases with the labels of its project, component and environment in its
    namespace and found none; no other finalizer is touched. *)
Theorem binding_finalizer_waits {U : Unstructured} {N : Nested} {J : JSON} {SC : StatusConditions} {FZ : Finalizers}
    {FL : FinalizersLaws} {DC : DeliveryCodec} {MR : MapRange} {SS : SortSlice} {WT : WorkflowParts} {Frozen S PC : Type}
    {PS : PlaneStore S} {BR : BindingReads S} {EC : EventClient S PC} {BE : BindingEnv Frozen S PC} {RE : Rendering Frozen S}
    (now : Z) (rb rb' : ReleaseBinding) (s : S) (err : option clientError) :
  metaDeleting (rbMeta rb) = true →
  BUpdate rb' err ∈ bwCalls (reconcileBinding now (mkBWorld s rb [])).1 →
  (listReleasesByLabels (rbNamespace rb) (ownedLabels rb) s).2 = inl []
  ∧ bwCalls (reconcileBinding now (mkBWorld s rb [])).1 = [BList (inl []); BUpdate rb' err]
  ∧ ReleaseBindingFinalizer ∈ metaFinalizers (rbMeta rb)
  ∧ ∀ f, f ∈ metaFinalizers (rbMeta rb') ↔ f ∈ metaFinalizers (rbMeta rb) ∧ f ≠ ReleaseBindingFinalizer.
Proof.
  intros Hd. remember (reconcileBinding now (mkBWorld s rb [])) as out eqn:E. unfold reconcileBinding in E.
  rewrite CM_bind_eq in E. cbn [binding bwBinding] in E. rewrite Hd in E.
  unfold finalizeBinding in E. rewrite CM_bind_eq in E. cbn [binding bwBinding] in E.
  destruct (ContainsFinalizer _ _) eqn:Ec; cbn [negb] in E; [|subst out; by intros ?%elem_of_nil].
  destruct (SetStatusCondition _ _) as [cs changed]. set (rb1 := withBindingStatus rb _) in E.
  rewrite CM_bind_eq in E. unfold modify at 1 in E. cbn [bwState bwCalls] in E. destruct changed.
  { rewrite CM_bind_eq in E. unfold updateBindingConditions in E.
    destruct (NeedConditionUpdate _ _); [|subst out; by intros ?%elem_of_nil].
    unfold calls in E. cbn [bwState bwBinding bwCalls app] in E. destruct (writeBindingStatus _ s) as [s1 [[]|e]]; subst out; cbn;
      by intros ?%list_elem_of_singleton. }
  rewrite CM_bind_eq in E. destruct (hasOwnedReleases_run (mkBWorld s rb1 [])) as (new & Hnew & HF & Hfalse). cbn [bwCalls app] in Hnew.
  assert (Hno : ∀ rb e, BUpdate rb e ∉ new).
  { intros rb2 e Hin. rewrite Forall_forall in HF. exact (HF _ Hin). }
  destruct (hasOwnedReleases (mkBWorld s rb1 [])) as [w [[]|e]]; cbn [fst snd] in Hnew, Hfalse.
  - subst out. cbn. rewrite Hnew. by intros ?%Hno.
  - destruct (Hfalse eq_refl) as [Hlist ->].
    change (metaFinalizers (rbMeta rb1)) with (metaFinalizers (rbMeta rb)) in E.
    pose proof (Remove_elem (metaFinalizers (rbMeta rb)) ReleaseBindingFinalizer) as Hrem.
    destruct (RemoveFinalizer _ _) as [fs removed]. cbn [fst] in Hrem. rewrite CM_bind_eq in E. destruct removed.
    + rewrite CM_bind_eq in E. unfold modify at 1 in E. unfold orElse, calls in E. cbn [bwState bwBinding bwCalls] in E.
      destruct (writeBinding _ (bwState w)) as [s1 [[]|e]]; cbn [fst snd mret CM_ret bwCalls] in E; subst out; cbn [fst bwCalls];
        rewrite Hnew; cbn [app errorOf]; (intros [H|[= -> ->]%list_elem_of_singleton]%elem_of_cons; [done|]);
        (split_and!; [exact Hlist|done|by apply Contains_elem|exact Hrem]).
    + subst out. cbn. rewrite Hnew. by intros ?%Hno.
  - subst out. cbn. rewrite Hnew. by intros ?%Hno.
Qed.

(** The finalization deletes what carries the labels, whoever owns it. *)
Lemma finalization_deletes_by_label {SC : StatusConditions} {FZ : Finalizers} {Frozen S PC : Type} {BE : BindingEnv Frozen S PC}
    (w : BWorld S) s' r rest :
  listReleasesByLabels (rbNamespace (bwBinding w)) (ownedLabels (bwBinding w)) (bwState w) = (s', inl (r :: rest)) →
  relDeleting (orRelease r) = false → ∃ err, BDelete r err ∈ bwCalls (hasOwnedReleases w).1.
Proof.
  intros Hl Hd. unfold hasOwnedReleases. rewrite CM_bind_eq. cbn [binding]. rewrite CM_bind_eq. unfold orElse at 1, calls at 1.
  rewrite Hl. cbn [fst snd]. rewrite bool_decide_false by done. rewrite CM_bind_eq. cbn [deleteLive]. rewrite Hd, CM_bind_eq.
  set (w1 := mkBWorld s' _ _). exists (errorOf (deleteRelease r s').2).
  assert (Hin : BDelete r (errorOf (deleteRelease r s').2) ∈
    bwCalls (orElse (ignoreNotFound (deleteCall r)) (wrapErrorf ("failed to delete release " +:+ relName (orRelease r) +:+ ": ")) w1).1).
  { unfold w1, orElse, ignoreNotFound. rewrite CM_bind_eq. unfold attempt, deleteCall, calls. cbn [fst snd bwState bwCalls].
    destruct (deleteRelease r s') as [s2 [[]|e]]; cbn; [|destruct (hasTag IsNotFoundErr e); cbn]; apply elem_of_app; right; by constructor. }
  destruct (orElse _ _ w1) as [w2 [[]|e]]; [|done]. cbn [fst] in Hin.
  destruct (deleteLive_conducts (λ _, True) rest w2 I) as (new & Hnew & _).
  destruct (deleteLive rest w2) as [w3 [[]|e]]; cbn in *; rewrite Hnew; apply elem_of_app; by left.
Qed.

(** * What the conditions of a release binding say

    The conditions of a binding by type; the aggregated condition is exactly the
    conjunction of the others; but readiness is that of resources that were
    observed before the release was rendered, and workloads that are not the
    primary one do not count. *)

#[local] Set Warnings "-register-all".

(** What is found is the first condition of a type, and setting one keeps one of
    each type. *)
Class ConditionListLaws `{StatusConditions} := {
  find_first : ∀ cs t, FindStatusCondition cs t = List.find (λ c, bool_decide (condType c = t)) cs;
  set_nodup : ∀ cs c, NoDup (condType <$> cs) → NoDup (condType <$> (SetStatusCondition cs c).1)
}.

(** The code looks through a list for the last condition of a type. *)
Lemma find_last `{ConditionListLaws} cs t : NoDup (condType <$> cs) → FindStatusCondition cs t = lastCondition t cs.
Proof.
  intros Hnd. rewrite find_first. unfold lastCondition. induction cs as [|c cs IH]; [done|].
  rewrite fmap_cons in Hnd. apply NoDup_cons in Hnd as [Hc Hnd]. cbn [List.find]. rewrite filter_cons.
  case_bool_decide as Ht; [rewrite decide_True by done|rewrite decide_False by done; by apply IH].
  rewrite (filter_none (λ c, condType c = t) cs); [done|]. intros x Hx Hxt. apply Hc, list_elem_of_fmap. exists x. by rewrite Ht, Hxt.
Qed.

Section Conditions.
Context {SC : StatusConditions} {SL : StatusConditionsLaws} {CL : ConditionListLaws} (now : Z).
Implicit Types (rb : ReleaseBinding).

Definition conditionOf rb (t : string) : option Condition := FindStatusCondition (bsConditions (rbStatus rb)) t.
Definition oneEach rb : Prop := NoDup (condType <$> bsConditions (rbStatus rb)).

(** The condition is there and true. *)
Definition holds rb (t : string) : Prop := ∃ c, conditionOf rb t = Some c ∧ condStatus c = ConditionTrue.
Definition holdsNow rb (t : string) : Prop :=
  ∃ c, conditionOf rb t = Some c ∧ condStatus c = ConditionTrue ∧ condGeneration c = metaGeneration (rbMeta rb).

Lemma mark_conditions rb ct status reason message :
  bsConditions (rbStatus (markBinding now rb ct status reason message)) =
    (SetStatusCondition (bsConditions (rbStatus rb)) (NewCondition now ct status reason message (metaGeneration (rbMeta rb)))).1.
Proof.
  unfold markBinding. pose proof (Set_unchanged (bsConditions (rbStatus rb)) (NewCondition now ct status reason message (metaGeneration (rbMeta rb)))) as Hu.
  destruct (SetStatusCondition _ _) as [cs []]; [done|]. by rewrite (Hu eq_refl).
Qed.

Lemma mark_binding_finds rb ct status reason message :
  ∃ c, conditionOf (markBinding now rb ct status reason message) ct = Some c ∧ condStatus c = status
       ∧ condGeneration c = metaGeneration (rbMeta rb).
Proof.
  unfold conditionOf. rewrite mark_conditions.
  destruct (Set_finds (bsConditions (rbStatus rb)) (NewCondition now ct status reason message (metaGeneration (rbMeta rb)))) as (c & Hc & Hs).
  exists c. unfold says in Hs. injection Hs. intros Hg _ _ Hst _. by split_and!.
Qed.

Lemma mark_others rb ct status reason message t :
  t ≠ ct → conditionOf (markBinding now rb ct status reason message) t = conditionOf rb t.
Proof. intros Ht. unfold conditionOf. rewrite mark_conditions. by apply Set_others. Qed.

Lemma mark_oneEach rb ct status reason message : oneEach rb → oneEach (markBinding now rb ct status reason message).
Proof. intros H. unfold oneEach. rewrite mark_conditions. by apply set_nodup. Qed.

Lemma mark_meta rb ct status reason message : rbMeta (markBinding now rb ct status reason message) = rbMeta rb.
Proof. unfold markBinding. by destruct (SetStatusCondition _ _) as [cs []]. Qed.

(** What a mark leaves of the status. *)
Lemma mark_delivery rb ct status reason message :
  bsDelivery (rbStatus (markBinding now rb ct status reason message)) = bsDelivery (rbStatus rb).
Proof. unfold markBinding. by destruct (SetStatusCondition _ _) as [cs []]. Qed.

Lemma isTrue_holds rb t : oneEach rb → isTrue (lastCondition t (bsConditions (rbStatus rb))) = true ↔ holds rb t.
Proof.
  intros H. unfold holds, conditionOf. rewrite find_last by done. unfold isTrue.
  destruct (lastCondition t _) as [c|]; [|naive_solver]. rewrite bool_decide_eq_true. naive_solver.
Qed.

Lemma isTrueOrAbsent_holds rb t :
  oneEach rb → isTrueOrAbsent (lastCondition t (bsConditions (rbStatus rb))) = true ↔ conditionOf rb t = None ∨ holds rb t.
Proof.
  intros H. unfold holds, conditionOf. rewrite find_last by done. unfold isTrueOrAbsent.
  destruct (lastCondition t _) as [c|]; [|naive_solver]. rewrite bool_decide_eq_true. naive_solver.
Qed.

Lemma markFalse_not rb t reason message : ¬ holdsNow (markFalse now rb t reason message) t.
Proof.
  intros (c & Hc & Hs & _). destruct (mark_binding_finds rb t ConditionFalse reason message) as (c' & Hc' & Hs' & _).
  unfold markFalse in Hc. rewrite Hc' in Hc. injection Hc as ->. rewrite Hs in Hs'. discriminate.
Qed.

(** The aggregated condition is the conjunction. *)
Lemma setReadyCondition_exact rb :
  oneEach rb →
  (holdsNow (setReadyCondition now rb) ConditionReady ↔
     holds rb ConditionReleaseSynced ∧ holds rb ConditionResourcesReady ∧
     (conditionOf rb ConditionConnectionsResolved = None ∨ holds rb ConditionConnectionsResolved) ∧
     (conditionOf rb ConditionResourceDependenciesReady = None ∨ holds rb ConditionResourceDependenciesReady)).
Proof.
  intros H. rewrite <- (isTrue_holds rb ConditionReleaseSynced), <- (isTrue_holds rb ConditionResourcesReady),
    <- (isTrueOrAbsent_holds rb ConditionConnectionsResolved), <- (isTrueOrAbsent_holds rb ConditionResourceDependenciesReady) by done.
  unfold setReadyCondition. set (synced := lastCondition ConditionReleaseSynced _). set (resources := lastCondition ConditionResourcesReady _).
  set (connections := lastCondition ConditionConnectionsResolved _). set (dependencies := lastCondition ConditionResourceDependenciesReady _).
  clearbody synced resources connections dependencies.
  destruct (isTrue synced && isTrue resources && isTrueOrAbsent connections && isTrueOrAbsent dependencies) eqn:E.
  { rewrite !andb_true_iff in E. split; [intros _; by destruct E as [[[? ?] ?] ?]|]. intros _.
    destruct (mark_binding_finds rb ConditionReady ConditionTrue "Ready" "ReleaseBinding is ready") as (c & Hc & Hs & Hg).
    exists c. unfold markTrue. by rewrite mark_meta. }
  split; [|intros (H1 & H2 & H3 & H4); by rewrite H1, H2, H3, H4 in E]. intros Hnow. exfalso.
  destruct (negb (isTrue synced)); [destruct synced; by apply markFalse_not in Hnow|].
  destruct connections as [c|]; cbn [isTrueOrAbsent negb] in Hnow; [destruct (negb (bool_decide _)); [by apply markFalse_not in Hnow|]|].
  all: destruct dependencies as [d|]; cbn [isTrueOrAbsent negb] in Hnow; [destruct (negb (bool_decide _)); [by apply markFalse_not in Hnow|]|].
  all: destruct resources; by apply markFalse_not in Hnow.
Qed.
End Conditions.

(** ** Stale health *)

Section Stale.
Context {U : Unstructured} {N : Nested} {J : JSON} {SC : StatusConditions} {SL : StatusConditionsLaws} {CL : ConditionListLaws} {FZ : Finalizers}.
Context {DC : DeliveryCodec} {MR : MapRange} {SS : SortSlice} {WT : WorkflowParts} {Frozen S PC : Type} {PS : PlaneStore S} {BR : BindingReads S}.
Context {EC : EventClient S PC} {BE : BindingEnv Frozen S PC} {RE : Rendering Frozen S} (now : Z).

(** Marks that are made true are true; the conditions of other types and the
    delivery markers stay. *)
Lemma markTrue_holds rb t reason message : holds (markTrue now rb t reason message) t.
Proof. destruct (mark_binding_finds now rb t ConditionTrue reason message) as (c & Hc & Hs & _). by exists c. Qed.

Lemma markTrue_keeps rb t t' reason message : t' ≠ t → holds rb t' → holds (markTrue now rb t reason message) t'.
Proof. intros Ht (c & Hc & Hs). exists c. unfold markTrue. by rewrite mark_others. Qed.

Definition marked (rb0 rb : ReleaseBinding) : Prop :=
  oneEach rb ∧ rbMeta rb = rbMeta rb0 ∧ bsDelivery (rbStatus rb) = bsDelivery (rbStatus rb0).

Lemma marked_mark rb0 rb t status reason message : marked rb0 rb → marked rb0 (markBinding now rb t status reason message).
Proof. intros (H1 & H2 & H3). split_and!; [by apply mark_oneEach|by rewrite mark_meta|by rewrite mark_delivery]. Qed.

Lemma connections_true rb :
  ∃ reason message, setConnectionsCondition now rb true = markTrue now rb ConditionConnectionsResolved reason message.
Proof. unfold setConnectionsCondition. case_bool_decide; by eexists _, _. Qed.

Lemma dependencies_true rb :
  ∃ reason message, setResourceDependenciesCondition now rb true = markTrue now rb ConditionResourceDependenciesReady reason message.
Proof. unfold setResourceDependenciesCondition. case_bool_decide; by eexists _, _. Qed.

Lemma reconcileDelivery_stale getClient ns delivery (cr : ComponentRelease Frozen) release resources s :
  deliveryHealthIsCurrent release = false →
  (reconcileDelivery getClient now ns delivery cr release resources false s).2 = inl delivery.
Proof.
  intros Hh. unfold reconcileDelivery. destruct (deliveryContextFor _ _ _ _) as [dc|]; [|done].
  rewrite CM_bind_eq. unfold attempt. destruct (getClient s) as [s' [pc|err]]; cbn [fst snd]; [|done]. by rewrite Hh.
Qed.

Lemma recordDelivery_stale cr release resources (w : BWorld S) :
  deliveryHealthIsCurrent release = false →
  ∃ s', recordDelivery now cr release resources false w = (mkBWorld s' (bwBinding w) (bwCalls w), inl ()).
Proof.
  intros Hh. unfold recordDelivery. rewrite CM_bind_eq. cbn [binding]. rewrite CM_bind_eq. unfold reads.
  pose proof (reconcileDelivery_stale (getBindingDPClient (rbNamespace (bwBinding w)) (rbEnvironment (bwBinding w))) (rbNamespace (bwBinding w))
    (bsDelivery (rbStatus (bwBinding w))) cr release resources (bwState w) Hh) as Hd.
  destruct (reconcileDelivery _ _ _ _ _ _ _ _ _) as [s' r]. cbn [fst snd] in Hd |- *. subst r. exists s'.
  unfold modifyStatus, modify. cbn. by destruct (bwBinding w) as [? ? ? ? ? ? ? []].
Qed.
End Stale.

(** A binding is reported ready at its own generation although the health that
    was looked at is that of another revision: when the release was rendered anew
    and the release controller has not applied that revision yet, healthy
    resources of the revision before make [Ready] true, in the very run in which
    the delivery events are withheld because the health is not current. *)
Theorem ready_before_rollout {U : Unstructured} {N : Nested} {J : JSON} {SC : StatusConditions} {SL : StatusConditionsLaws}
    {CL : ConditionListLaws} {FZ : Finalizers} {DC : DeliveryCodec} {MR : MapRange} {SS : SortSlice} {WT : WorkflowParts}
    {Frozen S PC : Type} {PS : PlaneStore S} {BR : BindingReads S} {EC : EventClient S PC} {BE : BindingEnv Frozen S PC}
    {RE : Rendering Frozen S} (now : Z) (rb : ReleaseBinding) (s : S) (cr : ComponentRelease Frozen) (environment : EnvironmentCR)
    (dataPlane : DataPlane) (component : ComponentCR) resources manifests (release : OwnedRelease) (obs : observabilityReleaseResult) :
  oneEach rb →
  wlDependencies (crlWorkload cr) = None →
  deliveryHealthIsCurrent (orRelease release) = false →
  applyFailure (orRelease release) = None →
  stResources (relStatus (orRelease release)) ≠ [] →
  (evaluateStatus (stResources (relStatus (orRelease release))) (extractWorkloadType (cpComponentType component))).1.1 = true →
  let w := (settleBinding now cr environment dataPlane component resources manifests release OperationResultNone obs (mkBWorld s rb [])).1 in
  holdsNow (setReadyCondition now (bwBinding w)) ConditionReady
  ∧ rbMeta (bwBinding w) = rbMeta rb ∧ bsDelivery (rbStatus (bwBinding w)) = bsDelivery (rbStatus rb).
Proof.
  intros H1 Hdeps Hstale Hok Hres Hev. cbv zeta.
  remember (settleBinding now cr environment dataPlane component resources manifests release OperationResultNone obs (mkBWorld s rb [])) as out eqn:E.
  unfold settleBinding, GetDependencyEndpoints, GetDependencyResources in E. rewrite Hdeps in E.
  do 2 (rewrite CM_bind_eq in E; unfold modifyStatus at 1, modify at 1 in E; cbn [bwState bwBinding bwCalls] in E).
  match type of E with context [mkBWorld s ?b []] => set (rb1 := b) in E end.
  assert (Hm1 : marked rb rb1) by done. clearbody rb1.
  rewrite CM_bind_eq in E. cbn [binding bwBinding] in E. change (allConnectionsResolved rb1 []) with true in E.
  rewrite CM_bind_eq in E. unfold modify at 1 in E. cbn [bwState bwBinding bwCalls negb] in E.
  destruct (connections_true now rb1) as (r1 & m1 & Ec). rewrite Ec in E. set (rb2 := markTrue now rb1 _ r1 m1) in E.
  rewrite CM_bind_eq in E. cbn [binding bwBinding] in E. change (allResourceDependenciesResolved rb2 []) with true in E.
  rewrite CM_bind_eq in E. unfold modify at 1 in E. cbn [bwState bwBinding bwCalls negb] in E.
  destruct (dependencies_true now rb2) as (r2 & m2 & Ed). rewrite Ed in E. set (rb3 := markTrue now rb2 _ r2 m2) in E.
  rewrite CM_bind_eq in E. unfold setReleaseSyncedCondition, modify at 1 in E. cbn [bwState bwBinding bwCalls] in E.
  match type of E with context [mkBWorld s ?b []] => set (rb4 := b) in E end. rewrite Hok in E.
  rewrite CM_bind_eq in E. unfold modify at 1 in E. cbn [bwState bwBinding bwCalls] in E. rewrite CM_bind_eq in E.
  match type of E with context [mkBWorld s ?b []] => set (rb5 := b) in E end.
  destruct (recordDelivery_stale now cr (orRelease release) resources (mkBWorld s rb5 []) Hstale) as [s' Er]. rewrite Er in E.
  subst out. cbn [mret CM_ret fst bwBinding].
  assert (H5 : ∃ r m, rb5 = markTrue now rb4 ConditionResourcesReady r m).
  { unfold rb5, setResourcesReadyStatus. rewrite bool_decide_false by (destruct (stResources _); [done|by cbn]).
    destruct (evaluateStatus _ _) as [[ready reason] message]. cbn in Hev. subst ready. by eexists _, _. }
  destruct H5 as (r5 & m5 & ->).
  assert (H4 : holds rb4 ConditionReleaseSynced) by (unfold rb4; apply markTrue_holds).
  assert (Hm5 : marked rb (markTrue now rb4 ConditionResourcesReady r5 m5)).
  { unfold rb4, rb3, rb2. repeat apply marked_mark. done. }
  destruct Hm5 as (Hone & Hmeta & Hdel). split_and!; [|done|done]. apply setReadyCondition_exact; [done|]. split_and!.
  - by apply markTrue_keeps.
  - apply markTrue_holds.
  - right. apply markTrue_keeps; [done|]. unfold rb4. apply markTrue_keeps; [done|]. apply markTrue_keeps; [done|]. apply markTrue_holds.
  - right. apply markTrue_keeps; [done|]. unfold rb4. apply markTrue_keeps; [done|]. apply markTrue_holds.
Qed.

(** ** Workloads that do not count *)

Lemma last_primary w others p :
  isPrimary w p = true → last (filter (λ r, isPrimary w r = true) (others ++ [p])) = Some p.
Proof. intros Hp. rewrite filter_app. rewrite (filter_cons_True _ p []) by done. rewrite filter_nil. by rewrite last_snoc. Qed.

Lemma summarizeLoop_degraded statuses b id r :
  r ∈ statuses → msHealth r = HealthDegraded → Forall (λ x, msID x ≠ "") statuses → (summarizeLoop statuses b id).2 ≠ ""
  ∧ (summarizeLoop statuses b id).1 = false.
Proof.
  intros Hr Hd Hids.
  assert (Hfalse : ∀ l i, (summarizeLoop l false i).1 = false ∧ (i ≠ "" → (summarizeLoop l false i).2 ≠ "")).
  { induction l as [|x l IH]; intros i; [done|]. cbn [summarizeLoop]. destruct (msHealth x); try apply IH.
    case_bool_decide; [subst i; split; [apply IH|done]|apply IH]. }
  revert b id. induction Hids as [|x l Hx _ IH]; intros b id; [by apply elem_of_nil in Hr|].
  apply elem_of_cons in Hr as [<-|Hr].
  - cbn [summarizeLoop]. rewrite Hd. split; [|apply Hfalse]. apply Hfalse. case_bool_decide; done.
  - cbn [summarizeLoop]. destruct (msHealth x); by apply IH.
Qed.

(** The readiness of a deployment or stateful set looks at the last primary
    workload only.  Every other workload of the release, a second deployment, a
    stateful set, daemon set or job, can be degraded: the binding is ready, while
    the delivery events report the same resources as a failed deployment. *)
Theorem ready_while_failed (w : WorkloadType) (others : list ManifestStatus) (p r : ManifestStatus) :
  w ∈ [WorkloadTypeDeployment; WorkloadTypeStatefulSet] →
  Forall (λ x, categoryOf w x = CategoryPrimaryWorkload) others →
  isPrimary w p = true → msHealth p = HealthHealthy →
  r ∈ others → msHealth r = HealthDegraded →
  Forall (λ x, msID x ≠ "") (others ++ [p]) →
  (evaluateStatus (others ++ [p]) w).1.1 = true
  ∧ (summarizeHealth (others ++ [p])).1 = false ∧ (summarizeHealth (others ++ [p])).2 ≠ "".
Proof.
  intros Hw Hothers Hp Hh Hr Hd Hids.
  assert (evaluateStatus (others ++ [p]) w = evaluateDeploymentStatus (others ++ [p]) w) as ->.
  { apply elem_of_cons in Hw as [->|Hw]; [done|]. apply list_elem_of_singleton in Hw. by subst w. }
  assert (Hcat : ∀ c, c ≠ CategoryPrimaryWorkload → filter (λ x, categoryOf w x = c) (others ++ [p]) = []).
  { clear Hr Hids. intros c Hc. assert (Hpc : categoryOf w p = CategoryPrimaryWorkload) by (unfold categoryOf, categorizeResource; unfold isPrimary in Hp; by rewrite Hp).
    rewrite filter_app, filter_cons_False by (by rewrite Hpc). rewrite filter_nil, app_nil_r.
    induction Hothers as [|x l Hx _ IH]; [done|]. rewrite filter_cons_False by (by rewrite Hx). done. }
  split.
  - unfold evaluateDeploymentStatus. rewrite last_primary, Hh by done. unfold firstDegraded. by rewrite !Hcat.
  - unfold summarizeHealth. rewrite bool_decide_false by (rewrite length_app; cbn; lia).
    destruct (summarizeLoop_degraded (others ++ [p]) true "" r) as [H1 H2]; [apply elem_of_app; by left|done|done|done].
Qed.
