(* ===== verification/BindingConnectionsSpec.v ===== *)
(** * Connections, dependencies and secrets of a release binding: theorems

    A binding waits for exactly the connections that are pending, and wires the
    others to the URLs of their providers; a change of a provider that matters to
    a consumer wakes it; secrets that were collected are not lost; and the two
    readings of the gateways' configuration. *)

From S2P Require Import Prelude GoStrings GoValue RenderErrors ReleaseObjects PlaneObjects PlaneRefs.
From S2P Require Import NetworkPolicy WorkloadContext WorkloadContextSpec BindingObjects BindingConnections BindingEndpoints BindingDelivery BindingController BindingSpec.

#[local] Set Warnings "-register-all".

(** ** Resolution *)

Section Resolution.
Context {S : Type} {BR : BindingReads S}.
Implicit Types (t : ConnectionTarget).

(** The provider of a target offers the endpoint at a URL. *)
Definition offers (provider : ReleaseBinding) t (url : EndpointURL) : Prop :=
  rbState provider ≠ ReleaseStateUndeploy ∧
  ∃ ep, List.find (λ ep, bool_decide (esName ep = tgEndpoint t)) (bsEndpoints (rbStatus provider)) = Some ep
        ∧ resolveURLForVisibility ep (tgVisibility t) = Some url.

Definition resolvedTo t (url : EndpointURL) : ResolvedConnection :=
  mkResolved (tgNamespace t) (tgProject t) (tgComponent t) (tgEndpoint t) (tgVisibility t) url.

(** At some state of the run, the one binding of the provider offered the URL. *)
Definition targetAnswered t (o : ResolvedConnection + PendingConnection) : Prop :=
  match o with
  | inl rc => ∃ url s1 s2 provider,
      listByOwnerEnv (tgNamespace t) (MakeReleaseBindingOwnerEnvKey (tgProject t) (tgComponent t) (tgEnvironment t)) s1 = (s2, inl [provider])
      ∧ offers provider t url ∧ rc = resolvedTo t url
  | inr _ => True
  end.

Lemma resolveConnection_answered t s s' o : resolveConnection t s = (s', inl o) → targetAnswered t o.
Proof.
  unfold resolveConnection. rewrite CM_bind_eq. unfold orElse.
  destruct (listByOwnerEnv _ _ s) as [s1 [items|err]] eqn:El; [|done]. destruct items as [|provider [|? ?]]; cbn; [by intros [= _ <-]| |by intros [= _ <-]].
  unfold resolveFrom. case_bool_decide; [by intros [= _ <-]|].
  destruct (List.find _ _) as [ep|] eqn:Ef; [|by intros [= _ <-]].
  destruct (resolveURLForVisibility ep (tgVisibility t)) as [url|] eqn:Eu; [|by intros [= _ <-]]. intros [= _ <-].
  exists url, s, s1, provider. split_and!; [done| |done]. split; [done|]. by exists ep.
Qed.

Definition lefts {A B} (l : list (A + B)) : list A := omap (λ x, match x with inl a => Some a | inr _ => None end) l.
Definition rights {A B} (l : list (A + B)) : list B := omap (λ x, match x with inl _ => None | inr b => Some b end) l.

Lemma resolveConnections_answered targets s s' rs ps :
  resolveConnections targets s = (s', inl (rs, ps)) →
  ∃ outs, Forall2 targetAnswered targets outs ∧ rs = lefts outs ∧ ps = rights outs.
Proof.
  revert s s' rs ps. induction targets as [|t targets IH]; intros s s' rs ps; cbn [resolveConnections].
  - intros [= _ <- <-]. by exists [].
  - rewrite CM_bind_eq. destruct (resolveConnection t s) as [s1 [o|err]] eqn:Eo; [|done]. rewrite CM_bind_eq.
    destruct (resolveConnections targets s1) as [s2 [[rs' ps']|err]] eqn:Er; [|done].
    destruct (IH _ _ _ _ Er) as (outs & Ho & -> & ->). apply resolveConnection_answered in Eo.
    destruct o as [rc|p]; cbn; intros [= _ <- <-]; [exists (inl rc :: outs)|exists (inr p :: outs)]; by split; [constructor|].
Qed.
End Resolution.

(** Names without the separator of keys. *)
Definition slashFree (s : string) : Prop := has_byte "/" s = false.
Definition plainConnection (rb : ReleaseBinding) (conn : WorkloadConnection) : Prop :=
  Forall slashFree [rbNamespace rb; connectionProject rb conn; connComponent conn; connName conn; connVisibility conn].

Lemma connectionKey_join a b c d e : connectionKey a b c d e = Join [a; b; c; d; e] "/".
Proof. unfold connectionKey. cbn. by rewrite ?sapp_assoc. Qed.

Definition targetOfConnection (rb : ReleaseBinding) (conn : WorkloadConnection) : ConnectionTarget :=
  mkTarget (rbNamespace rb) (connectionProject rb conn) (connComponent conn) (connName conn) (connVisibility conn) (rbEnvironment rb).

Lemma wanted_resolved rb conn url : resolvedKey (resolvedTo (targetOfConnection rb conn) url) = wantedKey rb conn.
Proof. done. Qed.

Section Complete.
Context {S : Type} {BR : BindingReads S}.

Lemma lefts_keys rb conns outs k :
  Forall2 targetAnswered (targetOfConnection rb <$> conns) outs →
  k ∈ resolvedKey <$> lefts outs → ∃ i conn rc, conns !! i = Some conn ∧ outs !! i = Some (inl rc) ∧ wantedKey rb conn = k.
Proof.
  intros Hall. remember (targetOfConnection rb <$> conns) as ts eqn:Ets. revert conns Ets.
  induction Hall as [|t o ts outs Ht _ IH]; intros conns Ets; [by intros ?%elem_of_nil|].
  destruct conns as [|conn conns]; [done|]. rewrite fmap_cons in Ets. injection Ets as -> ->. destruct o as [rc|p]; cbn.
  - intros [->|Hk]%elem_of_cons.
    + destruct Ht as (url & s1 & s2 & provider & _ & _ & ->). by exists 0, conn, (resolvedTo (targetOfConnection rb conn) url).
    + destruct (IH conns eq_refl Hk) as (i & c & r & H1 & H2 & H3). by exists (Datatypes.S i), c, r.
  - intros Hk. destruct (IH conns eq_refl Hk) as (i & c & r & H1 & H2 & H3). by exists (Datatypes.S i), c, r.
Qed.


Lemma rights_nil_inl {A B} (l : list (A + B)) i x : rights l = [] → l !! i = Some x → ∃ a, x = inl a ∧ a ∈ lefts l.
Proof.
  revert i. induction l as [|y l IH]; intros [|i]; [done..| |].
  - cbn. destruct y as [a|b]; [|done]. intros _ [= <-]. exists a. split; [done|by constructor].
  - cbn. destruct y as [a|b]; [|done]. intros H1 H2. destruct (IH i H1 H2) as (c & -> & Hc). exists c. split; [done|by constructor].
Qed.

Lemma all_resolved_keys rb conns outs :
  Forall2 targetAnswered (targetOfConnection rb <$> conns) outs → rights outs = [] → resolvedKey <$> lefts outs = wantedKey rb <$> conns.
Proof.
  intros Hall. remember (targetOfConnection rb <$> conns) as ts eqn:Ets. revert conns Ets.
  induction Hall as [|t o ts outs Ht _ IH]; intros conns Ets Hr; [by destruct conns|].
  destruct conns as [|conn conns]; [done|]. rewrite fmap_cons in Ets. injection Ets as -> ->. destruct o as [rc|p]; [|done].
  change (rights (inl rc :: outs)) with (rights outs) in Hr. change (lefts (inl rc :: outs)) with (rc :: lefts outs).
  destruct Ht as (url & _ & _ & _ & _ & _ & ->). rewrite !fmap_cons. by rewrite (IH conns).
Qed.

Lemma rights_elem {A B} (l : list (A + B)) : rights l ≠ [] → ∃ i b, l !! i = Some (inr b).
Proof.
  induction l as [|y l IH]; [done|]. destruct y as [a|b]; [|intros _; by exists 0, b].
  cbn. intros H. destruct (IH H) as (i & b & Hi). by exists (Datatypes.S i), b.
Qed.

Lemma wantedKey_inj rb c1 c2 :
  plainConnection rb c1 → plainConnection rb c2 → wantedKey rb c1 = wantedKey rb c2 → targetOfConnection rb c1 = targetOfConnection rb c2.
Proof.
  intros H1 H2 Heq. unfold wantedKey in Heq. rewrite !connectionKey_join in Heq. apply (f_equal (Split "/")) in Heq.
  rewrite !Split_Join in Heq by first [discriminate|exact H1|exact H2]. unfold targetOfConnection. injection Heq as -> -> -> ->. done.
Qed.

Lemma wantedKeys_nodup rb conns :
  Forall (plainConnection rb) conns → NoDup (targetOfConnection rb <$> conns) → NoDup (wantedKey rb <$> conns).
Proof.
  induction 1 as [|c conns Hc Hall IH]; [intros _; constructor|]. rewrite !fmap_cons. intros [Hn Hnd]%NoDup_cons.
  apply NoDup_cons. split; [|by apply IH]. intros (c' & Heq & Hc')%list_elem_of_fmap. apply Hn, list_elem_of_fmap.
  exists c'. split; [|done]. rewrite Forall_forall in Hall. by apply wantedKey_inj; [|apply Hall|].
Qed.
End Complete.

(** C26: The connections of a binding count as resolved exactly when none is
    pending.  Then every connection of the workload has an item with the variables
    of a URL that the one deployed binding of its provider in the same environment
    offered for the endpoint and the visibility it asks for. *)
Theorem connections_complete {S : Type} {BR : BindingReads S} (rb : ReleaseBinding) (conns : list WorkloadConnection) (s s' : S) rs ps :
  Forall (plainConnection rb) conns → NoDup (buildConnectionTargets rb conns) →
  resolveConnections (buildConnectionTargets rb conns) s = (s', inl (rs, ps)) →
  let rb' := withBindingStatus rb (setResolution (rbStatus rb) rs ps) in
  (allConnectionsResolved rb' conns = true ↔ ps = [])
  ∧ (ps = [] → ∀ conn, conn ∈ conns → ∃ url s1 s2 provider,
       listByOwnerEnv (rbNamespace rb)
         (MakeReleaseBindingOwnerEnvKey (connectionProject rb conn) (connComponent conn) (rbEnvironment rb)) s1 = (s2, inl [provider])
       ∧ offers provider (targetOfConnection rb conn) url
       ∧ mkConnectionItem (rbNamespace rb) (connectionProject rb conn) (connComponent conn) (connName conn) (connVisibility conn)
           (buildEnvVarsForConnection conn (resolvedTo (targetOfConnection rb conn) url)) ∈ buildConnectionItems rb' conns).
Proof.
  intros Hplain Hnd Hrun rb'. change (buildConnectionTargets rb conns) with (targetOfConnection rb <$> conns) in *.
  apply wantedKeys_nodup in Hnd; [|done]. destruct (resolveConnections_answered _ _ _ _ _ Hrun) as (outs & Hall & -> & ->).
  assert (Hat : ∀ i conn o, conns !! i = Some conn → outs !! i = Some o → targetAnswered (targetOfConnection rb conn) o).
  { intros i conn o Hc Ho. destruct (Forall2_lookup_r _ _ _ _ _ Hall Ho) as (t & Ht & Ha).
    rewrite list_lookup_fmap, Hc in Ht. by injection Ht as <-. }
  assert (Hlen : length outs = length conns) by (apply Forall2_length in Hall; by rewrite length_fmap in Hall).
  assert (Hnil : rights outs = [] → ∀ conn, conn ∈ conns → ∃ rc, rc ∈ lefts outs ∧ targetAnswered (targetOfConnection rb conn) (inl rc)).
  { intros Hr conn [i Hi]%list_elem_of_lookup. destruct (outs !! i) as [o|] eqn:Ho.
    - destruct (rights_nil_inl outs i o Hr Ho) as (rc & -> & Hin). exists rc. split; [done|by eapply Hat].
    - apply lookup_ge_None in Ho. apply lookup_lt_Some in Hi. lia. }
  split.
  - unfold allConnectionsResolved. rewrite forallb_forall. split.
    + intros Hres. destruct (decide (rights outs = [])) as [Hr|Hr]; [done|]. exfalso.
      destruct (rights_elem outs Hr) as (i & p & Hi). destruct (conns !! i) as [conn|] eqn:Hc;
        [|apply lookup_ge_None in Hc; apply lookup_lt_Some in Hi; lia].
      specialize (Hres conn (proj1 (list_elem_of_In _ _) (list_elem_of_lookup_2 _ _ _ Hc))). apply bool_decide_eq_true in Hres.
      destruct (lefts_keys rb conns outs (wantedKey rb conn) Hall Hres) as (j & conn' & rc & Hj & Hoj & Hk).
      assert (i = j) as -> by (eapply NoDup_lookup; [exact Hnd|by rewrite list_lookup_fmap, Hc|by rewrite list_lookup_fmap, Hj, <- Hk]).
      by rewrite Hi in Hoj.
    + intros Hr conn Hin%list_elem_of_In. destruct (Hnil Hr conn Hin) as (rc & Hrc & url & _ & _ & _ & _ & _ & ->).
      apply bool_decide_eq_true, list_elem_of_fmap. eexists. split; [|exact Hrc]. done.
  - intros Hr conn Hin. destruct (Hnil Hr conn Hin) as (rc & Hrc & url & s1 & s2 & provider & Hl & Hoff & ->).
    exists url, s1, s2, provider. split_and!; [done|done|]. unfold buildConnectionItems. apply list_elem_of_fmap. exists conn. split; [|done].
    assert (Hkeys : NoDup (resolvedKey <$> lefts outs)) by by rewrite (all_resolved_keys rb conns).
    pose proof (byKey_elem resolvedKey (lefts outs) _ Hkeys Hrc) as Hlook. rewrite wanted_resolved in Hlook.
    cbv beta. change (bsResolved (rbStatus rb')) with (lefts outs). change (wantedKey rb' conn) with (wantedKey rb conn). by rewrite Hlook.
Qed.

(** ** Wake-ups *)

(** What the client promises of the indexes: a listing has every binding that is
    stored with the key. *)
Class IndexLaws (S : Type) `{BindingReads S} := {
  storedBindings : S → list ReleaseBinding;
  index_connections : ∀ k s s' l rb,
    listByConnectionTarget k s = (s', inl l) → rb ∈ storedBindings s → k ∈ indexConnectionTargets rb → rb ∈ l;
  index_resources : ∀ k s s' l rb,
    listByResourceTarget k s = (s', inl l) → rb ∈ storedBindings s → k ∈ indexResourceDependencyTargets rb → rb ∈ l;
  index_secrets : ∀ ns n s s' l rb,
    listBySecretReference ns n s = (s', inl l) → rb ∈ storedBindings s → rbNamespace rb = ns → n ∈ bsSecretNames (rbStatus rb) → rb ∈ l
}.

(** And of plain listings: they are exact, and objects have a name. *)
Class ListingLaws (S : Type) `{IndexLaws S} := {
  storedEnvironments : S → list EnvironmentCR;
  list_bindings : ∀ ns s s' l, listBindings ns s = (s', inl l) → ∀ rb, rb ∈ l ↔ rb ∈ storedBindings s ∧ rbNamespace rb = ns;
  list_environments : ∀ ns s s' l,
    listEnvironments ns s = (s', inl l) → ∀ env, env ∈ l ↔ env ∈ storedEnvironments s ∧ (ns = "" ∨ metaNamespace (envMeta env) = ns);
  environment_named : ∀ s e1 e2, e1 ∈ storedEnvironments s → e2 ∈ storedEnvironments s →
    metaNamespace (envMeta e1) = metaNamespace (envMeta e2) → metaName (envMeta e1) = metaName (envMeta e2) → e1 = e2;
  binding_named : ∀ s b1 b2, b1 ∈ storedBindings s → b2 ∈ storedBindings s →
    rbNamespace b1 = rbNamespace b2 → rbName b1 = rbName b2 → b1 = b2
}.

Lemma elem_of_uniqueKeys keys k : k ∈ uniqueKeys keys ↔ k ∈ keys.
Proof.
  unfold uniqueKeys. enough (∀ acc, k ∈ foldl (λ acc k, if bool_decide (k ∈ acc) then acc else acc ++ [k]) acc keys ↔ k ∈ acc ∨ k ∈ keys) as ->.
  { split; [intros [H|H]; [by apply elem_of_nil in H|done]|by right]. }
  induction keys as [|x keys IH]; intros acc; cbn [foldl].
  - split; [by left|]. by intros [H|H]; [|apply elem_of_nil in H].
  - rewrite IH, elem_of_cons. case_bool_decide; [naive_solver|]. rewrite elem_of_app, list_elem_of_singleton. naive_solver.
Qed.

Section Wake.
Context {SC : StatusConditions} {CL : ConditionListLaws} {S : Type} {BR : BindingReads S} {IL : IndexLaws S}.

(** The predicates let every change through that changes what a consumer gets. *)
Lemma endpointStatusChanged_complete old new t :
  endpointStatusChanged old new = false → resolveFrom old t = resolveFrom new t.
Proof.
  unfold endpointStatusChanged. intros [Hs He]%orb_false_iff. apply negb_false_iff, bool_decide_eq_true in Hs, He.
  unfold resolveFrom. by rewrite Hs, He.
Qed.

Lemma readyView_ready rrb :
  isResourceReleaseBindingReady rrb = bool_decide ((readyView rrb).1 = ConditionTrue) && bool_decide ((readyView rrb).2 = metaGeneration (rrbMeta rrb)).
Proof. unfold isResourceReleaseBindingReady, readyView. rewrite find_first. by destruct (List.find _ _). Qed.

Lemma resourceOutputsChanged_complete old new rb dep :
  metaName (rrbMeta old) = metaName (rrbMeta new) → resourceOutputsChanged old new = false →
  dependencyFrom rb dep old = dependencyFrom rb dep new.
Proof.
  unfold resourceOutputsChanged, readyConditionChanged. intros Hn [[Hg Ho]%orb_false_iff [Hs Hv]%orb_false_iff]%orb_false_iff.
  apply negb_false_iff, bool_decide_eq_true in Hg, Ho, Hs, Hv. unfold dependencyFrom. by rewrite !readyView_ready, Hn, Hg, Ho, Hs, Hv.
Qed.
End Wake.


(** ** Data planes *)

Lemma envsByNamespace_elem kind name envs ns n :
  n ∈ default ∅ (envsByNamespace kind name envs !! ns) ↔
    ∃ env, env ∈ envs ∧ namesPlane kind name env = true ∧ metaNamespace (envMeta env) = ns ∧ metaName (envMeta env) = n.
Proof.
  unfold envsByNamespace. induction envs as [|env envs IH] using rev_ind.
  - split; [intros H; by apply elem_of_empty in H|]. intros (env & H & _). by apply elem_of_nil in H.
  - rewrite foldl_snoc. set (m := foldl _ ∅ envs) in *. clearbody m.
    setoid_rewrite elem_of_app. setoid_rewrite list_elem_of_singleton. destruct (namesPlane kind name env) eqn:E.
    + destruct (decide (metaNamespace (envMeta env) = ns)) as [Hns|Hns].
      * rewrite Hns, lookup_insert_eq. cbn [default from_option id]. rewrite elem_of_union, elem_of_singleton, IH. clear IH. split.
        -- intros [->|(e & ? & ? & ? & ?)]; [by exists env; auto|]. exists e. auto.
        -- intros (e & [He| ->] & ? & ? & ?); [right; by exists e|by left].
      * rewrite lookup_insert_ne by done. rewrite IH. clear IH. split; [intros (e & ? & ?); by exists e; auto|].
        intros (e & [He| ->] & ? & ? & ?); [by exists e|done].
    + rewrite IH. clear IH. split; [intros (e & ? & ?); by exists e; auto|].
      intros (e & [He| ->] & Hn & ? & ?); [by exists e|by rewrite E in Hn].
Qed.

Section Planes.
Context {S : Type} {BR : BindingReads S}.

Lemma bindingsOfEnvironments_elem groups (s : S) :
  (∀ ns, ∃ l, listBindings ns s = (s, inl l)) →
  ∃ rs, bindingsOfEnvironments groups s = (s, inl rs) ∧
    ∀ q, q ∈ rs ↔ ∃ ns names l rb, (ns, names) ∈ groups ∧ listBindings ns s = (s, inl l) ∧ rb ∈ l ∧ rbEnvironment rb ∈ names
                                   ∧ q = (rbNamespace rb, rbName rb).
Proof.
  intros Hlist. induction groups as [|[ns names] groups (rs & Hrs & IH)]; cbn [bindingsOfEnvironments].
  - exists []. split; [done|]. intros q. split; [by intros ?%elem_of_nil|]. intros (ns & names & l & rb & H & _). by apply elem_of_nil in H.
  - destruct (Hlist ns) as [l Hl]. exists (requestsOf (filter (λ rb, rbEnvironment rb ∈ names) l) ++ rs).
    rewrite CM_bind_eq. unfold attempt at 1. rewrite Hl. cbn [fst snd]. rewrite CM_bind_eq, Hrs. split; [done|].
    intros q. rewrite elem_of_app, IH. unfold requestsOf. rewrite list_elem_of_fmap. split.
    + intros [(rb & -> & [He Hin]%list_elem_of_filter)|(ns' & names' & l' & rb & Hg & H)].
      * exists ns, names, l, rb. split_and!; [by constructor|done..].
      * exists ns', names', l', rb. split; [by constructor|done].
    + intros (ns' & names' & l' & rb & [[= -> ->]|Hg]%elem_of_cons & Hl' & Hin & He & ->).
      * left. exists rb. split; [done|]. apply list_elem_of_filter. split; [done|]. rewrite Hl in Hl'. by injection Hl' as ->.
      * right. by exists ns', names', l', rb.
Qed.
End Planes.

Lemma unchanged_provider (old new : DataPlane) :
  dataPlaneRenderInputsChanged (crMeta old) (crMeta new) = false →
  networkPolicyProviderFromDataPlane (mkPlaneResult (Some old) None) = networkPolicyProviderFromDataPlane (mkPlaneResult (Some new) None).
Proof.
  unfold dataPlaneRenderInputsChanged. case_goal; [done|]. unfold openchoreoAnnotationsChanged.
  intros Hann%negb_false_iff%bool_decide_eq_true. unfold networkPolicyProviderFromDataPlane. cbn [resNamespaced].
  pose proof (f_equal (λ m, m !! "openchoreo.dev/networkpolicyprovider") Hann) as Hk. cbv beta in Hk. rewrite !map_lookup_filter in Hk.
  enough (metaAnnotations (crMeta old) !! "openchoreo.dev/networkpolicyprovider" = metaAnnotations (crMeta new) !! "openchoreo.dev/networkpolicyprovider") as ->; [done|].
  destruct (metaAnnotations (crMeta old) !! _) as [a|], (metaAnnotations (crMeta new) !! _) as [b|]; cbn in Hk;
    repeat (rewrite option_guard_True in Hk by done); by simplify_eq.
Qed.

(** A change of a data plane that changes which network policies are made
    passes the predicate of the watch, and then the bindings that are enqueued are
    those of the environments that name the plane, and no others: an environment
    without a reference, which uses the default plane of its namespace, is not
    woken by a change of that plane. *)
Theorem plane_change_wakes {MR : MapRange} {ML : MapRangeLaws} {S : Type} {BR : BindingReads S} {IL : IndexLaws S} {LL : ListingLaws S}
    (old new : DataPlane) (env : EnvironmentCR) (rb : ReleaseBinding) (envs : list EnvironmentCR) (s : S) :
  networkPolicyProviderFromDataPlane (mkPlaneResult (Some old) None) ≠ networkPolicyProviderFromDataPlane (mkPlaneResult (Some new) None) →
  env ∈ storedEnvironments s → metaNamespace (envMeta env) = metaNamespace (crMeta new) →
  rb ∈ storedBindings s → rbNamespace rb = metaNamespace (envMeta env) → rbEnvironment rb = metaName (envMeta env) →
  listEnvironments (metaNamespace (crMeta new)) s = (s, inl envs) → (∀ ns, ∃ l, listBindings ns s = (s, inl l)) →
  dataPlaneRenderInputsChanged (crMeta old) (crMeta new) = true
  ∧ ∃ requests, findReleaseBindingsForDataPlane new s = (s, inl requests)
      ∧ ((rbNamespace rb, rbName rb) ∈ requests ↔ envDataPlaneRef env = Some (mkPlaneRef DataPlaneRefKindDataPlane (metaName (crMeta new)))).
Proof.
  intros Hprov Henv Hns Hrb Hrbns Hrbenv Henvs Hlist. split.
  { destruct (dataPlaneRenderInputsChanged _ _) eqn:E; [done|]. by apply unchanged_provider in E. }
  unfold findReleaseBindingsForDataPlane, releaseBindingsForDataPlaneRef. rewrite CM_bind_eq. unfold attempt. rewrite Henvs.
  set (groups := envsByNamespace DataPlaneRefKindDataPlane (metaName (crMeta new)) envs).
  destruct (bindingsOfEnvironments_elem (map_range groups) s Hlist) as (rs & Hrun & Hrs). exists rs. split; [exact Hrun|].
  assert (Hnames : ∀ e, namesPlane DataPlaneRefKindDataPlane (metaName (crMeta new)) e = true ↔
                        envDataPlaneRef e = Some (mkPlaneRef DataPlaneRefKindDataPlane (metaName (crMeta new)))).
  { intros e. unfold namesPlane. destruct (envDataPlaneRef e) as [[k n]|]; [|done]. rewrite andb_true_iff, !bool_decide_eq_true. cbn. naive_solver. }
  rewrite Hrs, <- Hnames. split.
  - intros (ns & names & l & b & Hg & Hl & Hin & He & [= Hbns Hbn]). rewrite map_range_perm in Hg. apply elem_of_map_to_list in Hg.
    apply (list_bindings _ _ _ _ Hl) in Hin as [Hin Hbin].
    assert (b = rb) as -> by (apply (binding_named s); auto). clear Hbns Hbn.
    assert (Hdef : rbEnvironment rb ∈ default ∅ (groups !! ns)) by by rewrite Hg.
    apply envsByNamespace_elem in Hdef as (e & Hein & Hnm & He1 & He2). apply (list_environments _ _ _ _ Henvs) in Hein as [Hein _].
    assert (e = env) as -> by (apply (environment_named s); congruence). done.
  - intros Hnm. assert (Hdef : metaName (envMeta env) ∈ default ∅ (groups !! metaNamespace (envMeta env))).
    { apply envsByNamespace_elem. exists env. split_and!; [|done..]. apply (list_environments _ _ _ _ Henvs). auto. }
    destruct (groups !! metaNamespace (envMeta env)) as [names|] eqn:Eg; [|by apply elem_of_empty in Hdef].
    destruct (Hlist (metaNamespace (envMeta env))) as [l Hl]. exists (metaNamespace (envMeta env)), names, l, rb. split_and!; [|done| | |done].
    + rewrite map_range_perm. by apply elem_of_map_to_list.
    + apply (list_bindings _ _ _ _ Hl). auto.
    + by rewrite Hrbenv.
Qed.

(** ** Secrets *)

Section Secrets.
Context {S : Type} {BR : BindingReads S} (ns : string).
Implicit Types (m : secretMap).

Definition covered m (ref : SecretKeyRef) : Prop := sekName ref ≠ "" → is_Some (resolveSecretRef m ref).

Lemma covered_mono m m' ref : m ⊆ m' → covered m ref → covered m' ref.
Proof.
  intros Hsub Hc Hne. destruct (Hc Hne) as [x Hx]. exists x. unfold resolveSecretRef in *.
  apply bind_Some in Hx as (sr & E & Hx). by rewrite (lookup_weaken _ _ _ _ E Hsub).
Qed.

Lemma collectAndValidate_covers m m' ref s s' :
  collectAndValidate ns m ref s = (s', inl m') → m ⊆ m' ∧ covered m' ref.
Proof.
  unfold collectAndValidate. case_bool_decide as Hn; [intros [= _ <-]; split; [done|by intros ?]|]. rewrite CM_bind_eq.
  assert (Hdone : ∀ (s1 : S) sr m1, m ⊆ m1 → m1 !! sekName ref = Some sr →
    (if existsb (λ d, bool_decide (sdSecretKey d = sekKey ref)) (srData sr) then mret m1
     else fails (plainErr ("key " +:+ quoted (sekKey ref) +:+ " not found in SecretReference " +:+ quoted (sekName ref) +:+ "; available keys: [" +:+
                          Join (sdSecretKey <$> srData sr) " " +:+ "]"))) s1 = (s', inl m') → m ⊆ m' ∧ covered m' ref).
  { intros s1 sr m1 Hsub Hl. destruct (existsb _ _) eqn:E; [|done]. intros [= _ <-]. split; [done|]. intros _.
    unfold resolveSecretRef. rewrite Hl. cbn. apply existsb_exists in E as (d & Hd & Ed).
    destruct (List.find _ (srData sr)) as [x|] eqn:Ef; [by eexists|]. by rewrite (find_none _ _ Ef d Hd) in Ed. }
  destruct (m !! sekName ref) as [sr|] eqn:El; [by apply Hdone|]. rewrite CM_bind_eq. unfold orElse.
  destruct (getSecretReference ns (sekName ref) s) as [s1 [sr|err]]; [|done]. apply Hdone; [by apply insert_subseteq|apply lookup_insert_eq].
Qed.

Lemma collectAll_covers refs m m' s s' :
  collectAll ns m refs s = (s', inl m') → m ⊆ m' ∧ Forall (covered m') refs.
Proof.
  revert m s. induction refs as [|ref refs IH]; intros m s; cbn [collectAll]; [intros [= _ <-]; by split|].
  rewrite CM_bind_eq. destruct (collectAndValidate ns m ref s) as [s1 [m1|err]] eqn:E; [|done]. intros [Hsub Hall]%IH.
  apply collectAndValidate_covers in E as [Hsub1 Hc]. split; [by etrans|]. constructor; [by eapply covered_mono|done].
Qed.
End Secrets.

(** The elements of a merge: overrides, and what no override replaces. *)
Lemma mergeByKey_elem {A} (key : A → string) base over x :
  NoDup (key <$> base) → x ∈ mergeByKey key base over → x ∈ over ∨ (x ∈ base ∧ (key x ∉ key <$> over)).
Proof.
  intros Hnd. rewrite mergeByKey_spec by done. intros [(b & -> & Hb)%list_elem_of_fmap|[_ Hx]%list_elem_of_filter]%elem_of_app; [|by left].
  destruct (byKey key over !! key b) as [o|] eqn:E; cbn; [left; by apply byKey_Some in E as [? _]|]. right. apply byKey_None in E. by split.
Qed.

Definition secretEnvOf (refs : gmap string SecretReference) (env : EnvVar) : option EnvConfiguration :=
  ref ← evSecret env; (λ remote, mkEnvConfig (evKey env) "" (Some remote)) <$> resolveSecretRef refs ref.
Definition secretFileOf (refs : gmap string SecretReference) (file : FileVar) : option FileConfiguration :=
  ref ← fvSecret file; (λ remote, mkFileConfig (fvKey file) (fvMountPath file) "" (Some remote)) <$> resolveSecretRef refs ref.

Lemma extractEnv_secrets refs envs cs ss : (foldl (extractEnv refs) (cs, ss) envs).2 = ss ++ omap (secretEnvOf refs) envs.
Proof.
  revert cs ss. induction envs as [|env envs IH]; intros cs ss; cbn [foldl]; [by rewrite app_nil_r|].
  unfold extractEnv at 2. cbn [omap list_omap]. unfold secretEnvOf at 1. destruct (evSecret env) as [ref|]; cbn [mbind option_bind]; [|by rewrite IH].
  destruct (resolveSecretRef refs ref); cbn; rewrite IH; [by rewrite <- app_assoc|done].
Qed.

Lemma extractFile_secrets refs files cs ss : (foldl (extractFile refs) (cs, ss) files).2 = ss ++ omap (secretFileOf refs) files.
Proof.
  revert cs ss. induction files as [|f files IH]; intros cs ss; cbn [foldl]; [by rewrite app_nil_r|].
  unfold extractFile at 2. cbn [omap list_omap]. unfold secretFileOf at 1. destruct (fvSecret f) as [ref|]; cbn [mbind option_bind]; [|by rewrite IH].
  destruct (resolveSecretRef refs ref); cbn; rewrite IH; [by rewrite <- app_assoc|done].
Qed.

(** When the secret references of a workload were collected for a binding, the
    rendering context has an item for every variable and every file of the
    workload with the binding's overrides that comes from a secret: none is dropped
    silently. *)
Theorem secrets_not_dropped {S : Type} {BR : BindingReads S} (w : WorkloadTemplateSpec) (rb : ReleaseBinding) (s s' : S) (refs : secretMap) :
  collectSecretReferences (Some w) rb s = (s', inl refs) →
  NoDup (evKey <$> ctEnv (wlContainer w)) → NoDup (fvKey <$> ctFiles (wlContainer w)) →
  let merged := MergeWorkloadOverrides w (rbOverrides rb) in
  let secrets := ccSecrets (ExtractConfigurationsFromWorkload refs (Some merged)) in
  (∀ env ref, env ∈ ctEnv (wlContainer merged) → evSecret env = Some ref → sekName ref ≠ "" →
     ∃ remote, mkEnvConfig (evKey env) "" (Some remote) ∈ itEnvs secrets)
  ∧ (∀ file ref, file ∈ ctFiles (wlContainer merged) → fvSecret file = Some ref → sekName ref ≠ "" →
     ∃ remote, mkFileConfig (fvKey file) (fvMountPath file) "" (Some remote) ∈ itFiles secrets).
Proof.
  intros Hrun He Hf merged secrets. unfold collectSecretReferences in Hrun. rewrite CM_bind_eq in Hrun.
  set (oenv := match rbOverrides rb with Some c => coEnv c | None => [] end) in Hrun.
  set (ofiles := match rbOverrides rb with Some c => coFiles c | None => [] end) in Hrun.
  destruct (collectAll _ ∅ _ s) as [s1 [m1|?]] eqn:E1; [|done]. rewrite CM_bind_eq in Hrun.
  destruct (collectAll _ m1 _ s1) as [s2 [m2|?]] eqn:E2; [|done]. rewrite CM_bind_eq in Hrun.
  destruct (collectAll _ m2 _ s2) as [s3 [m3|?]] eqn:E3; [|done].
  apply collectAll_covers in E1 as [_ C1]. apply collectAll_covers in E2 as [S2 C2]. apply collectAll_covers in E3 as [S3 C3].
  apply collectAll_covers in Hrun as [S4 C4]. rewrite Forall_forall in C1, C2, C3, C4.
  assert (Hextract : itEnvs secrets = omap (secretEnvOf refs) (ctEnv (wlContainer merged))
                     ∧ itFiles secrets = omap (secretFileOf refs) (ctFiles (wlContainer merged))).
  { unfold secrets, ExtractConfigurationsFromWorkload.
    pose proof (extractEnv_secrets refs (ctEnv (wlContainer merged)) [] []) as X1.
    pose proof (extractFile_secrets refs (ctFiles (wlContainer merged)) [] []) as X2.
    destruct (foldl (extractEnv refs) _ _), (foldl (extractFile refs) _ _). cbn in *. by subst. }
  destruct Hextract as [-> ->].
  assert (Henv : ∀ env, env ∈ ctEnv (wlContainer merged) → env ∈ oenv ∨ (env ∈ ctEnv (wlContainer w) ∧ (evKey env ∉ evKey <$> oenv))).
  { unfold merged, oenv. destruct (rbOverrides rb) as [o|]; cbn [MergeWorkloadOverrides wlContainer withContainer ctEnv];
      intros env Hin; [by apply (mergeByKey_elem evKey (ctEnv (wlContainer w)) (coEnv o) env He)|]. right. split; [done|apply not_elem_of_nil]. }
  assert (Hfile : ∀ f, f ∈ ctFiles (wlContainer merged) → f ∈ ofiles ∨ (f ∈ ctFiles (wlContainer w) ∧ (fvKey f ∉ fvKey <$> ofiles))).
  { unfold merged, ofiles. destruct (rbOverrides rb) as [o|]; cbn [MergeWorkloadOverrides wlContainer withContainer ctFiles];
      intros f Hin; [by apply (mergeByKey_elem fvKey (ctFiles (wlContainer w)) (coFiles o) f Hf)|]. right. split; [done|apply not_elem_of_nil]. }
  split.
  - intros env ref Hin Hs Hn. assert (Hc : covered refs ref).
    { destruct (Henv env Hin) as [H|[H Hk]].
      - apply (covered_mono m1); [by do 2 (etrans; [eassumption|])|]. apply C1, list_elem_of_omap. by exists env.
      - apply (covered_mono m3); [done|]. apply C3, list_elem_of_omap. exists env. split; [|done]. by apply list_elem_of_filter. }
    destruct (Hc Hn) as [remote Hr]. exists remote. apply list_elem_of_omap. exists env. split; [done|]. unfold secretEnvOf. rewrite Hs. cbn. by rewrite Hr.
  - intros f ref Hin Hs Hn. assert (Hc : covered refs ref).
    { destruct (Hfile f Hin) as [H|[H Hk]].
      - apply (covered_mono m2); [by etrans|]. apply C2, list_elem_of_omap. by exists f.
      - apply C4, list_elem_of_omap. exists f. split; [|done]. by apply list_elem_of_filter. }
    destruct (Hc Hn) as [remote Hr]. exists remote. apply list_elem_of_omap. exists f. split; [done|]. unfold secretFileOf. rewrite Hs. cbn. by rewrite Hr.
Qed.

(** ** Gateways *)

(** The ingress endpoint of a visibility in what templates see. *)
Definition templateEndpoint (visibility : string) (gw : option GatewaySpec) : option GatewayEndpointSpec :=
  gw ← gw; ingress ← gsIngress gw;
  if bool_decide (visibility = EndpointVisibilityExternal) then gnExternal ingress else gnInternal ingress.

Definition endpointIn (visibility : string) (network : option GatewayNetworkSpec) : option GatewayEndpointSpec :=
  n ← network; if bool_decide (visibility = EndpointVisibilityExternal) then gnExternal n else gnInternal n.

Lemma templateEndpoint_merge visibility envGW dpGW :
  templateEndpoint visibility (mergeGatewayData envGW dpGW) =
    match endpointIn visibility (gsIngress envGW) with Some e => Some e | None => endpointIn visibility (gsIngress dpGW) end.
Proof.
  unfold templateEndpoint, mergeGatewayData, mergeGatewayNetworkData, endpointIn.
  destruct (gsIngress envGW) as [[[] []]|], (gsIngress dpGW) as [[[] []]|], (gsEgress envGW) as [[[] []]|], (gsEgress dpGW) as [[[] []]|]; cbn;
    try case_bool_decide; done.
Qed.

(** The URLs of endpoints and the routes of templates are made from two readings
    of the same configuration: for a visibility they agree exactly unless the
    environment configures an ingress without an endpoint for it and the data plane
    has one.  Then templates attach routes to the data plane's gateway, and the
    binding publishes no URL for them. *)
Theorem gateway_views_agree (visibility : string) (env : EnvironmentCR) (dp : DataPlane) :
  resolveGatewayEndpointByVisibility visibility (Some env) (Some dp) =
    templateEndpoint visibility (mergeGatewayData (envGateway env) (dpGateway (crSpec dp)))
  ↔ ¬ (is_Some (gsIngress (envGateway env)) ∧ endpointIn visibility (gsIngress (envGateway env)) = None
       ∧ is_Some (endpointIn visibility (gsIngress (dpGateway (crSpec dp))))).
Proof.
  rewrite templateEndpoint_merge. unfold resolveGatewayEndpointByVisibility.
  destruct (gsIngress (envGateway env)) as [n|] eqn:E.
  - rewrite E. change (if bool_decide (visibility = EndpointVisibilityExternal) then gnExternal n else gnInternal n) with (endpointIn visibility (Some n)).
    destruct (endpointIn visibility (Some n)) as [e|]; [naive_solver|].
    destruct (endpointIn visibility (gsIngress (dpGateway (crSpec dp)))) as [e|]; [|naive_solver].
    split; [done|]. intros []. by split_and!.
  - cbn [endpointIn mbind option_bind]. split; [by intros _ [[? [=]] _]|]. intros _.
    change (endpointIn visibility None) with (@None GatewayEndpointSpec). cbv iota.
    unfold endpointIn. by destruct (gsIngress (dpGateway (crSpec dp))).
Qed.
