(* ===== verification/BindingWitness.v ===== *)
(** * The release binding controller at work

    A log of events and a store of releases in memory, with the laws of the
    interfaces, and the theorems applied to bindings that deploy, fail, undeploy
    and are deleted. *)

From S2P Require Import Prelude GoStrings GoValue RenderErrors TemplateEngine ReleaseObjects PlaneObjects PlaneRefs ReleaseController.
From S2P Require Import ReleaseWitness RenderWitness K8sNames NetworkPolicy WorkloadContext.
From S2P Require Import BindingObjects BindingConnections BindingEndpoints BindingDelivery BindingDeliverySpec.
From S2P Require Import BindingController BindingSpec BindingConnectionsSpec.

#[local] Set Warnings "-register-all".

#[local] Existing Instances rangeUp insertionSort no_workflows.
#[local] Instance planes_of {S : Type} : PlaneStore S := default_planes.

(** ** Objects and conditions *)

(** Only what is constant is read from the objects of these examples. *)
#[local] Instance plain_nested : Nested := {
  Content _ := ∅;
  OfContent m := if bool_decide (asString (m !! "kind") = "Deployment") then deploymentObj else configObj;
  GetAPIVersion _ := "v1";
  GetAnnotations _ := ∅;
  NestedSlice _ _ := None;
  NestedStringSlice _ _ := None;
  NestedString _ _ := "";
  NestedInt64 _ _ := None
}.

#[local] Instance plain_delivery : DeliveryCodec := {
  decodeDeploymentConditions _ := None;
  decodePodStatus _ := None;
  marshalPayload p := inl (plPhase p)
}.

#[local] Instance listed_conditions_order : ConditionListLaws.
Proof.
  split; cbn.
  - intros cs t. induction cs as [|x cs IH]; [done|]. cbn. by case_bool_decide.
  - intros cs c. induction cs as [|x cs IH]; intros Hnd; [cbn; apply NoDup_singleton|].
    rewrite fmap_cons in Hnd. apply NoDup_cons in Hnd as [Hx Hnd]. cbn [setCondition].
    case_bool_decide as Ht; [case_bool_decide; cbn [fst]; rewrite fmap_cons, <- ?Ht; by apply NoDup_cons|].
    specialize (IH Hnd). assert (Hin : ∀ t, t ∈ condType <$> (setCondition cs c).1 → t = condType c ∨ t ∈ condType <$> cs).
    { clear. intros t. induction cs as [|x cs IH]; [intros ?%list_elem_of_singleton; by left|]. cbn [setCondition].
      case_bool_decide as Ht; [case_bool_decide; cbn [fst]; rewrite !fmap_cons, <- ?Ht; by right|].
      destruct (setCondition cs c) as [cs' b]. cbn [fst] in *. rewrite !fmap_cons, !elem_of_cons. naive_solver. }
    destruct (setCondition cs c) as [cs' b]. cbn [fst] in *. rewrite fmap_cons. apply NoDup_cons. split; [|done].
    intros [?|?]%Hin; [congruence|done].
Qed.

(** ** Delivery events *)

(** A plane that keeps every event and does not create one twice. *)
#[local] Instance kept_events : EventClient (list Event) unit := {
  createEvent _ e log :=
    if bool_decide (eventKey e ∈ eventKey <$> log) then (log, inr (mkClientError "already exists" [IsAlreadyExistsErr])) else (log ++ [e], inl ());
  getEvent _ ns n log :=
    (log, match List.find (λ e, bool_decide (eventKey e = (ns, n))) log with
          | Some e => inl e
          | None => inr (mkClientError "not found" [IsNotFoundErr])
          end)
}.

#[local] Instance kept_events_laws : EventLaws (list Event) unit.
Proof.
  refine {| eventLog := λ _ log, log |}; cbn.
  - intros _ e s. case_bool_decide; [exists []; rewrite app_nil_r; by split; [|left]|exists [e]; by split; [|right]].
  - intros _ e s u. by case_bool_decide.
  - intros _ e s err. by case_bool_decide.
  - done.
  - intros _ ns n s e. destruct (List.find _ s) as [x|] eqn:E; [|done]. intros [= <-].
    apply find_some in E as [Hin Hk%bool_decide_eq_true]. split; [by apply list_elem_of_In|done].
Defined.

Definition sampleRollout : deliveryContext := mkDeliveryContext "r1.u1.2" "web-1" "acme" "" "" deploymentObj.

Definition healthy (kind name : string) : ManifestStatus := mkManifestStatus name "apps" "v1" kind name "dp" None HealthHealthy None.
Definition degraded (kind name : string) : ManifestStatus := mkManifestStatus name "apps" "v1" kind name "dp" None HealthDegraded None.

(** The rollout is not applied at first, and then healthy. *)
Definition firstRun : list Event * DeliveryStatus :=
  (markDeliveryApplyFailure () (1 * secondNs) sampleRollout ([], deliveryState None sampleRollout)).1.
Definition secondRun : list Event * DeliveryStatus :=
  (emitDeliveryEvents () (3 * secondNs) sampleRollout [healthy "Deployment" "web"]
     (firstRun.1, deliveryState (Some (storedMarkers firstRun.2)) sampleRollout)).1.

Lemma delivery_phases_ordered_witness :
  evtReason <$> secondRun.1 = [reasonDeploymentStarted; reasonDeploymentFailed; reasonDeploymentSucceeded; reasonDeploymentRecovered]
  ∧ ∀ pre k post, logged () secondRun.1 = pre ++ k :: post →
    (∀ reason ep, reason ∈ deliveryReasons → reason ≠ reasonDeploymentStarted → k = phaseKey sampleRollout reason ep →
       phaseKey sampleRollout reasonDeploymentStarted 0 ∈ pre) ∧
    (∀ ep, k = phaseKey sampleRollout reasonDeploymentRecovered ep → phaseKey sampleRollout reasonDeploymentFailed ep ∈ pre).
Proof.
  split; [vm_compute; reflexivity|].
  apply (delivery_phases_ordered () sampleRollout [] secondRun.1 None (Some (storedMarkers secondRun.2))).
  - intros reason ep _. apply not_elem_of_nil.
  - intros m Hm. discriminate Hm.
  - apply (rtc_l _ _ (firstRun.1, Some (storedMarkers firstRun.2))).
    + exact (step_run () sampleRollout _ _ [] None (run_apply_failed () sampleRollout _)).
    + apply rtc_once. exact (step_run () sampleRollout _ _ firstRun.1 (Some (storedMarkers firstRun.2)) (run_health () sampleRollout _ _)).
Defined.

(** A second failure reached the plane, but its marker was lost. *)
Definition lostMarkers : DeliveryStatus := storedMarkers secondRun.2.
Definition lostLog : list Event :=
  secondRun.1 ++ [deliveryEvent (5 * secondNs) sampleRollout reasonDeploymentFailed 2 "Failed"].

Lemma lost_episode_stays_open_witness :
  let final := foldl (λ w run, (reconcileDeliveryEvents () run.1 sampleRollout run.2 w).1) (lostLog, lostMarkers)
                 [((7 * secondNs)%Z, [healthy "Deployment" "web"]); ((9 * secondNs)%Z, [healthy "Deployment" "web"])] in
  final = (lostLog, lostMarkers)
  ∧ (phaseKey sampleRollout reasonDeploymentFailed 2 ∈ logged () final.1
     ∧ (phaseKey sampleRollout reasonDeploymentRecovered 2 ∉ logged () final.1)).
Proof.
  apply (lost_episode_stays_open () sampleRollout lostLog lostMarkers 2).
  - vm_compute. by eexists.
  - vm_compute. by eexists.
  - exists (1 * secondNs)%Z, (3 * secondNs)%Z. vm_compute. done.
  - vm_compute. reflexivity.
  - apply (bool_decide_unpack _). vm_compute. exact I.
  - apply (bool_decide_unpack _). vm_compute. exact I.
  - repeat constructor.
Defined.

(** ** Releases in memory *)

Abbreviation releases := (gmap (string * string) OwnedRelease).

Definition sampleMeta (name uid : string) (deleting : bool) : ObjectMeta :=
  mkMeta name "acme" uid 2 deleting [ReleaseBindingFinalizer] ∅.

Definition sampleWorkload : WorkloadTemplateSpec :=
  mkWorkloadSpec (mkContainer "img" [] [] [mkEnvVar "TOKEN" "" (Some (mkSecretKeyRef "vault" "token"))]
                    [mkFileVar "ca.crt" "/etc" "" (Some (mkSecretKeyRef "vault" "ca"))])
    {["http" := mkEndpoint [EndpointVisibilityProject] EndpointTypeHTTP 8080 0 "" ""]} None.

Definition sampleRelease (component : string) : ComponentRelease unit :=
  mkComponentRelease (sampleMeta "web-1" "r1" false) "shop" component true sampleWorkload None ().

Definition emptyBinding : BindingStatus := mkBindingStatus 0 None [] [] [] [] [] [] [] [] None.

Definition sampleBinding (uid component environment state : string) (deleting : bool) (st : BindingStatus) : ReleaseBinding :=
  mkBinding (sampleMeta (component +:+ "-" +:+ environment) uid deleting) "shop" component environment "web-1" None state st.

Definition givenUID (r : OwnedRelease) : OwnedRelease :=
  let x := orRelease r in
  if bool_decide (relUID x = "") then
    mkOwned (mkRelease (relName x) (relNamespace x) "fresh" 1 (relDeleting x) (relFinalizers x) (relAnnotations x) (relTargetPlane x)
               (relEnvironment x) (relProject x) (relResources x) (relInterval x) (relProgressingInterval x) (relStatus x))
      (orLabels r) (orComponent r) (orOwners r)
  else r.

Definition releaseAt (m : releases) (ns n : string) : option OwnedRelease :=
  r ← m !! (ns, n); if bool_decide (relUID (orRelease r) = "") then None else Some r.

Definition releasesWith (ns : string) (labels : gmap string string) (m : releases) : list OwnedRelease :=
  filter (λ r, relNamespace (orRelease r) = ns ∧ labels ⊆ orLabels r) (snd <$> map_to_list m).

#[local] Instance memory_env : BindingEnv unit releases unit := {
  getBinding _ _ := absent;
  getComponentRelease _ _ := mret (sampleRelease "web");
  getComponent ns n := mret (mkComponent (anyMeta ns n) "deployment/service");
  getProject ns n := mret (mkProject (anyMeta ns n));
  listNotificationChannels _ := mret [];
  getRelease ns n m := (m, match releaseAt m ns n with Some r => inl r | None => inr (mkClientError "not found" [IsNotFoundErr]) end);
  deleteRelease r m := (delete (relNamespace (orRelease r), relName (orRelease r)) m, inl ());
  listReleasesByLabels ns labels m := (m, inl (releasesWith ns labels m));
  CreateOrUpdate ns n f m :=
    match f (default (blankRelease ns n) (releaseAt m ns n)) with
    | inl r => (<[(ns, n) := givenUID r]> m,
                inl (givenUID r, match releaseAt m ns n with Some _ => OperationResultUpdated | None => OperationResultCreated end))
    | inr err => (m, inr err)
    end;
  writeBinding _ := mret ();
  writeBindingStatus _ := mret ();
  HasOwnerReference r rb := inl (bool_decide (metaUID (rbMeta rb) ∈ orOwners r));
  SetControllerReference rb r := inl (mkOwned (orRelease r) (orLabels r) (orComponent r) (metaUID (rbMeta rb) :: orOwners r));
  planeClientOf _ := mret ()
}.

#[local] Instance memory_env_laws : BindingEnvLaws unit releases unit.
Proof.
  refine {| storedRelease := releaseAt |}; cbn.
  - intros s ns n r. unfold releaseAt. intros (x & _ & Hx)%bind_Some. case_bool_decide; [done|]. by injection Hx as ->.
  - intros r rb rb' ->. done.
  - intros ns n f s r op. destruct (f _) as [after|err]; [|done]. intros [= <- _]. exists after. split; [done|].
    unfold givenUID. by case_bool_decide.
  - intros rb r r' [= <-]. split_and!; [done..|]. cbn. rewrite bool_decide_true; [done|by constructor].
Defined.

Definition sampleSecret (name : string) : SecretReference :=
  mkSecretReference name [mkSecretData "token" (mkRemoteRef "kv" "token" ""); mkSecretData "ca" (mkRemoteRef "kv" "ca" "")].

#[local] Instance memory_reads : BindingReads releases := {
  listByOwnerEnv _ _ := mret [];
  listResourceByOwnerEnv _ _ := mret [];
  listByConnectionTarget _ := mret [];
  listByResourceTarget _ := mret [];
  getSecretReference _ n := mret (sampleSecret n);
  listBySecretReference _ _ := mret [];
  listByComponent _ _ := mret [];
  listBindings _ := mret [];
  listEnvironments _ := mret []
}.

#[local] Instance memory_events : EventClient releases unit := {
  createEvent _ _ := mret ();
  getEvent _ _ _ := absent
}.

Definition deploymentResource : gmap string any :=
  {["kind" := VString "Deployment"; "metadata" := VMap {["name" := VString "web"]}]}.

#[local] Instance one_deployment : Rendering unit releases := λ _, mret [(planeOfData, deploymentResource)].

(** ** Deployment *)

Definition webDev : ReleaseBinding := sampleBinding "b1" "web" "dev" ReleaseStateActive false emptyBinding.

Definition isApply (c : bindingCall releases) : bool := match c with BApply _ _ _ (inl _) => true | _ => false end.

Lemma deployment_touches_own_releases_witness :
  isApply <$> bwCalls (reconcileBinding 5 (mkBWorld ∅ webDev [])).1 = [true; false]
  ∧ ∀ c, c ∈ bwCalls (reconcileBinding 5 (mkBWorld ∅ webDev [])).1 →
    match c with
    | BApply s' ns name (inl (r, _)) =>
        ns = rbNamespace webDev
        ∧ (∀ before, storedRelease s' ns name = Some before → HasOwnerReference before webDev = inl true)
        ∧ orComponent r = rbComponent webDev ∧ relProject (orRelease r) = rbProject webDev
        ∧ relEnvironment (orRelease r) = rbEnvironment webDev
    | BApply _ _ _ (inr _) => True
    | BDelete r _ => HasOwnerReference r webDev = inl true
    | BList _ => False
    | BUpdate rb _ => rb = withBindingFinalizers webDev (metaFinalizers (rbMeta rb))
    | BStatusUpdate rb _ => withBindingStatus rb (rbStatus webDev) = webDev
    end.
Proof.
  split; [vm_compute; reflexivity|]. apply (deployment_touches_own_releases 5 webDev ∅); [reflexivity|discriminate].
Defined.

(** ** Undeployment *)

(** Component "a-b" in environment "c", and component "a" in environment "b-c". *)
Definition undeploying : ReleaseBinding := sampleBinding "b1" "a-b" "c" ReleaseStateUndeploy false emptyBinding.
Definition bystander : ReleaseBinding := sampleBinding "b2" "a" "b-c" ReleaseStateActive false emptyBinding.
Definition releaseOfBystander : OwnedRelease :=
  mkOwned (mkRelease "a-b-c" "acme" "u2" 1 false [] ∅ planeOfData "b-c" "shop" [] None None (mkReleaseStatus [] [])) ∅ "a" ["b2"].
Definition storeOfBystander : releases := {[("acme", "a-b-c") := releaseOfBystander]}.

Definition sampleEnvironment : EnvironmentCR := mkEnvironment (anyMeta "acme" "c") None false anyGateway.
Definition sampleDataPlane : DataPlane :=
  mkPlaneCR (anyMeta "acme" "default") (mkDataPlaneSpec "" anyAgent anyGateway None None) anyStatus.

Lemma undeploy_deletes_foreign_witness :
  ∃ err, BDelete releaseOfBystander err ∈
    bwCalls (reconcileBindingRelease 5 (sampleRelease "a-b") sampleEnvironment (mkPlaneResult (Some sampleDataPlane) None)
               (mkComponent (anyMeta "acme" "a-b") "deployment/service") (mkProject (anyMeta "acme" "shop"))
               (mkBWorld storeOfBystander undeploying [])).1.
Proof.
  apply (undeploy_deletes_foreign 5 undeploying bystander _ _ _ _ _ storeOfBystander storeOfBystander releaseOfBystander);
    [reflexivity..|discriminate|reflexivity|vm_compute; reflexivity|reflexivity|reflexivity|reflexivity].
Defined.

(** ** Deletion *)

Definition leaving : ReleaseBinding :=
  sampleBinding "b1" "web" "dev" ReleaseStateActive true
    (setConditions emptyBinding [NewCondition 1 ConditionBindingFinalizing ConditionTrue "Finalizing" "ReleaseBinding is finalizing" 2]).

Lemma binding_finalizer_waits_witness :
  (listReleasesByLabels (rbNamespace leaving) (ownedLabels leaving) (∅ : releases)).2 = inl []
  ∧ bwCalls (reconcileBinding 5 (mkBWorld (∅ : releases) leaving [])).1 = [BList (inl []); BUpdate (withBindingFinalizers leaving []) None]
  ∧ ReleaseBindingFinalizer ∈ metaFinalizers (rbMeta leaving)
  ∧ ∀ f, f ∈ metaFinalizers (rbMeta (withBindingFinalizers leaving [])) ↔ f ∈ metaFinalizers (rbMeta leaving) ∧ f ≠ ReleaseBindingFinalizer.
Proof.
  apply (binding_finalizer_waits 5 leaving (withBindingFinalizers leaving []) (∅ : releases) None); [reflexivity|].
  vm_compute. right. left.
Defined.

(** ** Readiness *)

(** Generation 3 was rendered, generation 2 was applied and is healthy. *)
Definition outdatedRelease : OwnedRelease :=
  mkOwned (mkRelease "web-dev" "acme" "u1" 3 false [] ∅ planeOfData "dev" "shop" [] None None
             (mkReleaseStatus [healthy "Deployment" "web"] [NewCondition 1 ConditionResourcesApplied ConditionTrue "Applied" "" 2]))
    ∅ "web" ["b1"].

Definition noObservability : observabilityReleaseResult := mkObsResult "web-dev-observability" OperationResultNone 0 false false "none".

Lemma ready_before_rollout_witness :
  let w := (settleBinding 5 (sampleRelease "web") sampleEnvironment sampleDataPlane (mkComponent (anyMeta "acme" "web") "deployment/service")
              [deploymentResource] [] outdatedRelease OperationResultNone noObservability (mkBWorld (∅ : releases) webDev [])).1 in
  holdsNow (setReadyCondition 5 (bwBinding w)) ConditionReady
  ∧ rbMeta (bwBinding w) = rbMeta webDev ∧ bsDelivery (rbStatus (bwBinding w)) = bsDelivery (rbStatus webDev).
Proof.
  apply (ready_before_rollout 5 webDev (∅ : releases)); [by apply NoDup_nil|reflexivity|vm_compute; reflexivity|vm_compute; reflexivity|discriminate|vm_compute; reflexivity].
Defined.

Lemma ready_while_failed_witness :
  (evaluateStatus ([degraded "Deployment" "worker"] ++ [healthy "Deployment" "web"]) WorkloadTypeDeployment).1.1 = true
  ∧ (summarizeHealth ([degraded "Deployment" "worker"] ++ [healthy "Deployment" "web"])).1 = false
  ∧ (summarizeHealth ([degraded "Deployment" "worker"] ++ [healthy "Deployment" "web"])).2 ≠ "".
Proof.
  apply (ready_while_failed WorkloadTypeDeployment [degraded "Deployment" "worker"] (healthy "Deployment" "web") (degraded "Deployment" "worker"));
    [left|by repeat constructor|reflexivity|reflexivity|left|reflexivity|by repeat constructor].
Defined.

(** ** Connections *)

Definition provider (host : string) : ReleaseBinding :=
  sampleBinding "b3" "api" "dev" ReleaseStateActive false
    (setEndpoints emptyBinding [mkEndpointStatus "http" EndpointTypeHTTP (Some (mkURL "http" host 8080 "")) None None]).
Definition sampleConnection : WorkloadConnection :=
  mkConnection "" "api" "http" EndpointVisibilityProject (mkEnvBindings "API_URL" "" "" "").
Definition consumer : ReleaseBinding :=
  sampleBinding "b1" "web" "dev" ReleaseStateActive false
    (setSecretNames (setResourceTargets (setTargets emptyBinding (buildConnectionTargets webDev [sampleConnection]))
                       [mkResourceTarget "acme" "shop" "db" "dev"]) ["vault"]).

Definition resourceBinding (host : string) : ResourceReleaseBinding :=
  mkResourceBinding (sampleMeta "db-dev" "b4" false) "shop" "db" "dev"
    [NewCondition 1 ConditionReady ConditionTrue "Ready" "" 2] [mkOutput "host" host None None].
Definition dependency : WorkloadResourceDependency := mkResourceDependency "db" {["host" := "DB_HOST"]} ∅.

(** An environment without a reference to a plane. *)
Definition defaultEnvironment : EnvironmentCR := mkEnvironment (anyMeta "acme" "dev") None false anyGateway.

(** One provider, one consumer. *)
#[local] Instance two_bindings : BindingReads unit := {
  listByOwnerEnv _ _ := mret [provider "api.dp"];
  listResourceByOwnerEnv _ _ := mret [];
  listByConnectionTarget k := mret (if bool_decide (k ∈ indexConnectionTargets consumer) then [consumer] else []);
  listByResourceTarget k := mret (if bool_decide (k ∈ indexResourceDependencyTargets consumer) then [consumer] else []);
  getSecretReference _ n := mret (sampleSecret n);
  listBySecretReference ns n :=
    mret (if bool_decide (rbNamespace consumer = ns) && bool_decide (n ∈ bsSecretNames (rbStatus consumer)) then [consumer] else []);
  listByComponent _ _ := mret [];
  listBindings ns := mret (if bool_decide (rbNamespace consumer = ns) then [consumer] else []);
  listEnvironments ns := mret (if bool_decide (ns = "") || bool_decide (metaNamespace (envMeta defaultEnvironment) = ns) then [defaultEnvironment] else [])
}.

#[local] Instance two_bindings_laws : IndexLaws unit.
Proof.
  refine {| storedBindings := λ _, [consumer] |}; cbn [listByConnectionTarget listByResourceTarget listBySecretReference two_bindings];
    [intros k s s' l rb [= _ <-] ->%list_elem_of_singleton Hk; rewrite bool_decide_true by done; by constructor..|].
  intros ns n s s' l rb [= _ <-] ->%list_elem_of_singleton Hns Hn. rewrite !bool_decide_true by done. by constructor.
Defined.

#[local] Instance two_bindings_listing : ListingLaws unit.
Proof.
  refine {| storedEnvironments := λ _, [defaultEnvironment] |}.
  - intros ns s s' l [= _ <-] rb. cbn [storedBindings two_bindings_laws]. case_bool_decide as H; rewrite ?list_elem_of_singleton, ?elem_of_nil.
    + split; [by intros ->|by intros [? _]].
    + split; [done|by intros [-> ?]].
  - intros ns s s' l [= _ <-] env. case_bool_decide as H1; [|case_bool_decide as H2]; cbn [orb]; rewrite ?list_elem_of_singleton, ?elem_of_nil.
    + split; [intros ->; by split; [|left]|by intros [? _]].
    + split; [intros ->; by split; [|right]|by intros [? _]].
    + split; [done|by intros [-> [?|?]]].
  - intros s e1 e2 ->%list_elem_of_singleton ->%list_elem_of_singleton. done.
  - intros s b1 b2 ->%list_elem_of_singleton ->%list_elem_of_singleton. done.
Defined.

Lemma connections_complete_witness :
  let rb' := withBindingStatus webDev (setResolution (rbStatus webDev) [resolvedTo (targetOfConnection webDev sampleConnection) (mkURL "http" "api.dp" 8080 "")] []) in
  (allConnectionsResolved rb' [sampleConnection] = true ↔ ([] : list PendingConnection) = [])
  ∧ (([] : list PendingConnection) = [] → ∀ conn, conn ∈ [sampleConnection] → ∃ url (s1 s2 : unit) provider,
       listByOwnerEnv (rbNamespace webDev)
         (MakeReleaseBindingOwnerEnvKey (connectionProject webDev conn) (connComponent conn) (rbEnvironment webDev)) s1 = (s2, inl [provider])
       ∧ offers provider (targetOfConnection webDev conn) url
       ∧ mkConnectionItem (rbNamespace webDev) (connectionProject webDev conn) (connComponent conn) (connName conn) (connVisibility conn)
           (buildEnvVarsForConnection conn (resolvedTo (targetOfConnection webDev conn) url)) ∈ buildConnectionItems rb' [sampleConnection]).
Proof.
  apply (connections_complete webDev [sampleConnection] () ()); [by repeat constructor|apply NoDup_singleton|vm_compute; reflexivity].
Defined.


(** The default plane of a namespace gets another kind of network policies; the
    binding of the environment that uses it is not woken. *)
Definition plane (provider : string) : DataPlane :=
  mkPlaneCR (mkMeta "default" "acme" "" 1 false [] {["openchoreo.dev/networkpolicyprovider" := provider]})
    (mkDataPlaneSpec "" anyAgent anyGateway None None) anyStatus.

Lemma plane_change_wakes_witness :
  dataPlaneRenderInputsChanged (crMeta (plane ProviderKubernetes)) (crMeta (plane ProviderCilium)) = true
  ∧ ∃ requests, findReleaseBindingsForDataPlane (plane ProviderCilium) () = ((), inl requests)
      ∧ ((rbNamespace consumer, rbName consumer) ∈ requests ↔
         envDataPlaneRef defaultEnvironment = Some (mkPlaneRef DataPlaneRefKindDataPlane (metaName (crMeta (plane ProviderCilium))))).
Proof.
  apply (plane_change_wakes (ML := rangeUp_laws) (plane ProviderKubernetes) (plane ProviderCilium) defaultEnvironment consumer [defaultEnvironment] ());
    [vm_compute; discriminate|by constructor|reflexivity|by constructor|reflexivity|reflexivity|vm_compute; reflexivity|].
  intros ns. by eexists.
Defined.

Definition sampleSecrets : secretMap :=
  match (collectSecretReferences (Some sampleWorkload) webDev ()).2 with inl m => m | inr _ => ∅ end.

Lemma secrets_not_dropped_witness :
  let merged := MergeWorkloadOverrides sampleWorkload (rbOverrides webDev) in
  let secrets := ccSecrets (ExtractConfigurationsFromWorkload sampleSecrets (Some merged)) in
  (∀ env ref, env ∈ ctEnv (wlContainer merged) → evSecret env = Some ref → sekName ref ≠ "" →
     ∃ remote, mkEnvConfig (evKey env) "" (Some remote) ∈ itEnvs secrets)
  ∧ (∀ file ref, file ∈ ctFiles (wlContainer merged) → fvSecret file = Some ref → sekName ref ≠ "" →
     ∃ remote, mkFileConfig (fvKey file) (fvMountPath file) "" (Some remote) ∈ itFiles secrets).
Proof.
  apply (secrets_not_dropped sampleWorkload webDev () () sampleSecrets); [vm_compute; reflexivity|apply NoDup_singleton|apply NoDup_singleton].
Defined.
