(* ===== verification/InsightsCompute.v ===== *)
(** * Delivery insights: facts, buckets and rollups

    [internal/observer/store/deliveryinsights/store.go] and [compute.go]: the rows
    of the delivery insights store, the calendar buckets they are counted in, and
    the metrics of a bucket.  Times are epoch milliseconds.  The proleptic
    Gregorian calendar of [time.Time] is written out. *)

From S2P Require Import Prelude GoStrings.

#[local] Open Scope Z_scope.

(** ** Rows *)

Definition OutcomeInProgress : string := "in_progress".
Definition OutcomeSuccess : string := "success".
Definition OutcomeFailed : string := "failed".
Definition FailedByRollout : string := "rollout".
Definition FailedByIncident : string := "incident".
Definition RecoverySourceIncident : string := "incident".
Definition RecoverySourceHealth : string := "health".
Definition ScopeTypeNamespace : string := "namespace".
Definition ScopeTypeProject : string := "project".
Definition ScopeTypeComponent : string := "component".
Definition GranularityDaily : string := "daily".
Definition GranularityWeekly : string := "weekly".
Definition GranularityMonthly : string := "monthly".

Record DeploymentFact := mkFact {
  dfReleaseUID : string;
  dfNamespace : string;
  dfProjectUID : string;
  dfComponentUID : string;
  dfEnvironmentUID : string;
  dfProjectName : string;
  dfComponentName : string;
  dfEnvironmentName : string;
  dfComponentRelease : string;
  dfCommitSHA : string;
  dfCommitAuthoredMs : option Z;
  dfStartedMs : option Z;
  dfReadyMs : option Z;
  dfOutcome : string;
  dfFailedBy : string;
  dfFailureReason : string;
  dfIncidentID : string;
  dfLeadTimeMs : option Z;
  dfUpdatedAtMs : Z
}.

Definition OccurredMs (f : DeploymentFact) : Z :=
  match dfReadyMs f with
  | Some ready => ready
  | None => match dfStartedMs f with Some started => started | None => dfUpdatedAtMs f end
  end.

Record RecoveryFact := mkRecovery {
  rfID : string;
  rfNamespace : string;
  rfProjectUID : string;
  rfComponentUID : string;
  rfEnvironmentUID : string;
  rfReleaseUID : string;
  rfIncidentID : string;
  rfSeverity : string;
  rfSource : string;
  rfFailureStartedMs : Z;
  rfRecoveredMs : option Z;
  rfDurationMs : option Z;
  rfUpdatedAtMs : Z
}.

Record MetricRollup := mkRollup {
  mrScopeType : string;
  mrScopeUID : string;
  mrEnvironmentUID : string;
  mrNamespace : string;
  mrProjectUID : string;
  mrGranularity : string;
  mrBucketStartMs : Z;
  mrDeployTotal : Z;
  mrDeploySuccess : Z;
  mrDeployFailed : Z;
  mrLeadTimeP50Ms : option Z;
  mrLeadTimeP75Ms : option Z;
  mrLeadTimeP95Ms : option Z;
  mrMTTRMeanMs : option Z;
  mrMTTRP50Ms : option Z;
  mrRecoveryCount : Z;
  mrComputedAtMs : Z
}.

#[global] Instance DeploymentFact_eq_dec : EqDecision DeploymentFact.
Proof. solve_decision. Defined.
#[global] Instance RecoveryFact_eq_dec : EqDecision RecoveryFact.
Proof. solve_decision. Defined.
#[global] Instance MetricRollup_eq_dec : EqDecision MetricRollup.
Proof. solve_decision. Defined.

(** ** The calendar *)

Definition dayMs : Z := 86400000.

(** Year, month and day of a number of days since 1970-01-01; the year of the
    computation starts in March. *)
Definition civilOfDays (days : Z) : Z * Z * Z :=
  let z := days + 719468 in
  let era := z / 146097 in
  let doe := z mod 146097 in
  let yoe := (doe - doe / 1460 + doe / 36524 - doe / 146096) / 365 in
  let doy := doe - (365 * yoe + yoe / 4 - yoe / 100) in
  let mp := (5 * doy + 2) / 153 in
  let d := doy - (153 * mp + 2) / 5 + 1 in
  let m := if mp <? 10 then mp + 3 else mp - 9 in
  (yoe + era * 400 + (if m <=? 2 then 1 else 0), m, d).

Definition daysOfCivil (y m d : Z) : Z :=
  let y := if m <=? 2 then y - 1 else y in
  let era := y / 400 in
  let yoe := y mod 400 in
  let mp := if m <=? 2 then m + 9 else m - 3 in
  let doy := (153 * mp + 2) / 5 + d - 1 in
  era * 146097 + (yoe * 365 + yoe / 4 - yoe / 100 + doy) - 719468.

(** [time.Date(y, m, d, 0, 0, 0, 0, time.UTC)], in days: months and days out of
    range are carried over. *)
Definition Date (y m d : Z) : Z := daysOfCivil (y + (m - 1) / 12) ((m - 1) mod 12 + 1) 1 + (d - 1).

(** Sunday is 0. *)
Definition Weekday (days : Z) : Z := (days + 4) mod 7.

(** [t.AddDate] of the time that is [ms]. *)
Definition AddDate (ms years months days : Z) : Z :=
  let '(y, m, d) := civilOfDays (ms / dayMs) in
  Date (y + years) (m + months) (d + days) * dayMs + ms mod dayMs.

Definition BucketStartMs (granularity : string) (ms : Z) : Z :=
  let '(y, m, d) := civilOfDays (ms / dayMs) in
  if bool_decide (granularity = GranularityWeekly) then
    let day := Date y m d in
    let offset := (Weekday day + 6) mod 7 in
    AddDate (day * dayMs) 0 0 (- offset)
  else if bool_decide (granularity = GranularityMonthly) then Date y m 1 * dayMs
  else Date y m d * dayMs.

Definition NextBucketStartMs (granularity : string) (bucketStartMs : Z) : Z :=
  if bool_decide (granularity = GranularityWeekly) then AddDate bucketStartMs 0 0 7
  else if bool_decide (granularity = GranularityMonthly) then AddDate bucketStartMs 0 1 0
  else AddDate bucketStartMs 0 0 1.

(** ** Statistics *)

(** [int64] arithmetic. *)
Definition wrap64 (z : Z) : Z := (z + 2 ^ 63) mod 2 ^ 64 - 2 ^ 63.

(** The code multiplies by a fraction in floating point; the percentage is an
    integer here and the product exact, which gives the same rank for fewer than
    2^30 values. *)
Definition Percentile (values : list Z) (percent : Z) : option Z :=
  match values with
  | [] => None
  | _ =>
      let sorted := merge_sort Z.le values in
      let n := Z.of_nat (length sorted) in
      let rank := (n * percent * 10000 + 999999) / 1000000 - 1 in
      let rank := if rank <? 0 then 0 else rank in
      let rank := if n <=? rank then n - 1 else rank in
      sorted !! Z.to_nat rank
  end.

Definition Mean (values : list Z) : option Z :=
  match values with
  | [] => None
  | _ => Some (Z.quot (foldl (λ sum v, wrap64 (sum + v)) 0 values) (Z.of_nat (length values)))
  end.

(** ** Rollups *)

Record rollupScope := mkScope {
  rsScopeType : string;
  rsScopeUID : string;
  rsEnvironmentUID : string;
  rsNamespace : string;
  rsProjectUID : string
}.

#[global] Instance rollupScope_eq_dec : EqDecision rollupScope.
Proof. solve_decision. Defined.
#[global] Instance rollupScope_countable : Countable rollupScope.
Proof.
  refine (inj_countable' (λ s, (rsScopeType s, rsScopeUID s, rsEnvironmentUID s, rsNamespace s, rsProjectUID s))
            (λ '(t, u, e, n, p), mkScope t u e n p) _). by intros [].
Defined.

Definition slicedBy (environmentUID : string) (s : rollupScope) : rollupScope :=
  mkScope (rsScopeType s) (rsScopeUID s) environmentUID (rsNamespace s) (rsProjectUID s).

Definition scopesForFact (namespace projectUID componentUID environmentUID : string) : list rollupScope :=
  s ← [mkScope ScopeTypeNamespace namespace "" namespace "";
       mkScope ScopeTypeProject projectUID "" namespace projectUID;
       mkScope ScopeTypeComponent componentUID "" namespace projectUID];
  if bool_decide (rsScopeUID s = "") then []
  else if bool_decide (environmentUID = "") then [s]
  else [s; slicedBy environmentUID s].

Record rollupAccumulator := mkAccumulator {
  raDeployTotal : Z;
  raDeploySuccess : Z;
  raDeployFailed : Z;
  raLeadTimes : list Z;
  raRecoveries : list Z;
  raRecoveryCount : Z
}.

Definition emptyAccumulator : rollupAccumulator := mkAccumulator 0 0 0 [] [] 0.

Record rollupKey := mkRollupKey { rkScope : rollupScope; rkGranularity : string; rkBucketStart : Z }.

#[global] Instance rollupKey_eq_dec : EqDecision rollupKey.
Proof. solve_decision. Defined.
#[global] Instance rollupKey_countable : Countable rollupKey.
Proof.
  refine (inj_countable' (λ k, (rkScope k, rkGranularity k, rkBucketStart k)) (λ '(s, g, b), mkRollupKey s g b) _).
  by intros [].
Defined.

Definition granularities : list string := [GranularityDaily; GranularityWeekly; GranularityMonthly].

(** The entry [fn] changes, made when it is missing. *)
Definition accumulateAt (fn : rollupAccumulator → rollupAccumulator) (acc : gmap rollupKey rollupAccumulator) (key : rollupKey)
    : gmap rollupKey rollupAccumulator := <[key := fn (default emptyAccumulator (acc !! key))]> acc.

Definition rollupKeysOf (scopes : list rollupScope) (occurredMs : Z) : list rollupKey :=
  scope ← scopes; g ← granularities; [mkRollupKey scope g (BucketStartMs g occurredMs)].

Definition accumulate (scopes : list rollupScope) (occurredMs : Z) (fn : rollupAccumulator → rollupAccumulator)
    (acc : gmap rollupKey rollupAccumulator) : gmap rollupKey rollupAccumulator :=
  foldl (accumulateAt fn) acc (rollupKeysOf scopes occurredMs).

Definition nonNegative (v : option Z) : list Z :=
  match v with Some v => if 0 <=? v then [v] else [] | None => [] end.

Definition countFact (f : DeploymentFact) (a : rollupAccumulator) : rollupAccumulator :=
  let success := bool_decide (dfOutcome f = OutcomeSuccess) in
  mkAccumulator (raDeployTotal a + 1) (raDeploySuccess a + (if success then 1 else 0))
    (raDeployFailed a + (if success then 0 else 1)) (raLeadTimes a ++ nonNegative (dfLeadTimeMs f))
    (raRecoveries a) (raRecoveryCount a).

Definition countRecovery (r : RecoveryFact) (a : rollupAccumulator) : rollupAccumulator :=
  mkAccumulator (raDeployTotal a) (raDeploySuccess a) (raDeployFailed a) (raLeadTimes a)
    (raRecoveries a ++ nonNegative (rfDurationMs r)) (raRecoveryCount a + 1).

Definition factScopes (f : DeploymentFact) : list rollupScope :=
  scopesForFact (dfNamespace f) (dfProjectUID f) (dfComponentUID f) (dfEnvironmentUID f).
Definition recoveryScopes (r : RecoveryFact) : list rollupScope :=
  scopesForFact (rfNamespace r) (rfProjectUID r) (rfComponentUID r) (rfEnvironmentUID r).

Definition accumulateFact (acc : gmap rollupKey rollupAccumulator) (f : DeploymentFact) : gmap rollupKey rollupAccumulator :=
  if bool_decide (dfOutcome f = OutcomeInProgress) then acc
  else accumulate (factScopes f) (OccurredMs f) (countFact f) acc.

Definition accumulateRecovery (acc : gmap rollupKey rollupAccumulator) (r : RecoveryFact) : gmap rollupKey rollupAccumulator :=
  accumulate (recoveryScopes r) (rfFailureStartedMs r) (countRecovery r) acc.

Definition rollupOfAccumulator (computedAtMs : Z) (e : rollupKey * rollupAccumulator) : MetricRollup :=
  let '(key, a) := e in
  mkRollup (rsScopeType (rkScope key)) (rsScopeUID (rkScope key)) (rsEnvironmentUID (rkScope key))
    (rsNamespace (rkScope key)) (rsProjectUID (rkScope key)) (rkGranularity key) (rkBucketStart key)
    (raDeployTotal a) (raDeploySuccess a) (raDeployFailed a)
    (Percentile (raLeadTimes a) 50) (Percentile (raLeadTimes a) 75) (Percentile (raLeadTimes a) 95)
    (Mean (raRecoveries a)) (Percentile (raRecoveries a) 50) (raRecoveryCount a) computedAtMs.

Definition rollupLess (a b : MetricRollup) : bool :=
  if negb (bool_decide (mrScopeType a = mrScopeType b)) then str_ltb (mrScopeType a) (mrScopeType b)
  else if negb (bool_decide (mrScopeUID a = mrScopeUID b)) then str_ltb (mrScopeUID a) (mrScopeUID b)
  else if negb (bool_decide (mrEnvironmentUID a = mrEnvironmentUID b)) then str_ltb (mrEnvironmentUID a) (mrEnvironmentUID b)
  else if negb (bool_decide (mrGranularity a = mrGranularity b)) then str_ltb (mrGranularity a) (mrGranularity b)
  else mrBucketStartMs a <? mrBucketStartMs b.

Definition rollupNotAfter (a b : MetricRollup) : Prop := rollupLess b a = false.
#[global] Instance rollupNotAfter_dec : RelDecision rollupNotAfter.
Proof. intros a b. unfold rollupNotAfter. apply _. Defined.

(** The order in which the entries of the accumulated map are visited. *)
Class RollupRange := rollup_range : gmap rollupKey rollupAccumulator → list (rollupKey * rollupAccumulator).
Class RollupRangeLaws `{RollupRange} := rollup_range_perm : ∀ m, rollup_range m ≡ₚ map_to_list m.

Definition accumulated (facts : list DeploymentFact) (recoveries : list RecoveryFact) : gmap rollupKey rollupAccumulator :=
  foldl accumulateRecovery (foldl accumulateFact ∅ facts) recoveries.

Definition BuildRollups `{RollupRange} (facts : list DeploymentFact) (recoveries : list RecoveryFact) (computedAtMs : Z)
    : list MetricRollup :=
  merge_sort rollupNotAfter (rollupOfAccumulator computedAtMs <$> rollup_range (accumulated facts recoveries)).

(** * Delivery insights: calendar and ranks

    The buckets of each granularity partition time, and the percentile is the
    value of the nearest rank. *)

#[local] Open Scope Z_scope.

(** ** The calendar *)

(** Day of the first of March of year [yoe] of an era. *)
Definition yearStart (yoe : Z) : Z := 365 * yoe + yoe / 4 - yoe / 100.

Definition yearEnd (yoe : Z) : Z := yearStart (yoe + 1) + (if bool_decide (yoe = 399) then 1 else 0).

Lemma yearOfEra_unique yoe doe :
  0 <= yoe < 400 → yearStart yoe <= doe < yearEnd yoe →
  (doe - doe / 1460 + doe / 36524 - doe / 146096) / 365 = yoe.
Proof.
  unfold yearEnd, yearStart. intros Hy Hd. case_bool_decide; [subst|]; Z.div_mod_to_equations; lia.
Qed.

Lemma yearOfEra_exists doe :
  0 <= doe < 146097 →
  let yoe := (doe - doe / 1460 + doe / 36524 - doe / 146096) / 365 in
  0 <= yoe < 400 ∧ yearStart yoe <= doe < yearEnd yoe.
Proof.
  intros Hd yoe. unfold yearEnd, yearStart. subst yoe. case_bool_decide; Z.div_mod_to_equations; lia.
Qed.

(** Days before a month of the year that starts in March; the twelfth month ends
    with the year. *)
Definition monthStart (mp : Z) : Z := (153 * mp + 2) / 5.

Lemma month_unique mp doy : 0 <= mp <= 11 → monthStart mp <= doy < monthStart (mp + 1) → (5 * doy + 2) / 153 = mp.
Proof. unfold monthStart. intros. Z.div_mod_to_equations; lia. Qed.

Lemma month_exists doy :
  0 <= doy <= 365 → let mp := (5 * doy + 2) / 153 in 0 <= mp <= 11 ∧ monthStart mp <= doy < monthStart (mp + 1).
Proof. unfold monthStart. intros. cbn zeta. Z.div_mod_to_equations; lia. Qed.

(** A date in the coordinates of the computation. *)
Definition marchDate (era yoe mp d : Z) : Z := era * 146097 + yearStart yoe + monthStart mp + d - 1 - 719468.

Definition marchValid (yoe mp d : Z) : Prop :=
  0 <= yoe < 400 ∧ 0 <= mp <= 11 ∧ 1 <= d ∧ monthStart mp + d - 1 < monthStart (mp + 1) ∧ yearStart yoe + monthStart mp + d - 1 < yearEnd yoe.

Definition civilOfMarch (era yoe mp d : Z) : Z * Z * Z :=
  (yoe + era * 400 + (if 10 <=? mp then 1 else 0), (if mp <? 10 then mp + 3 else mp - 9), d).

Lemma yearEnd_bound yoe : 0 <= yoe < 400 → 0 <= yearStart yoe ∧ yearEnd yoe <= 146097 ∧ yearEnd yoe <= yearStart yoe + 366.
Proof. unfold yearEnd, yearStart. intros. case_bool_decide; [subst|]; Z.div_mod_to_equations; lia. Qed.

Lemma civilOfDays_march era yoe mp d :
  marchValid yoe mp d → civilOfDays (marchDate era yoe mp d) = civilOfMarch era yoe mp d.
Proof.
  intros (Hy & Hm & Hd1 & Hd2 & Hd3). destruct (yearEnd_bound yoe Hy) as (H0 & H1 & _). unfold civilOfDays.
  assert (0 <= monthStart mp) by (unfold monthStart; Z.div_mod_to_equations; lia).
  set (doe := yearStart yoe + monthStart mp + d - 1).
  assert (Hz : marchDate era yoe mp d + 719468 = doe + era * 146097) by (subst doe; unfold marchDate; lia). cbv zeta. rewrite Hz.
  assert (Hera : (doe + era * 146097) / 146097 = era) by (rewrite Z.div_add, Z.div_small by (subst doe; lia); lia).
  assert (Hdoe : (doe + era * 146097) mod 146097 = doe) by (rewrite Z_mod_plus_full, Z.mod_small by (subst doe; lia); lia).
  rewrite Hera, Hdoe. rewrite (yearOfEra_unique yoe doe) by (subst doe; lia).
  replace (doe - (365 * yoe + yoe / 4 - yoe / 100)) with (monthStart mp + d - 1) by (subst doe; unfold yearStart; lia).
  rewrite (month_unique mp) by lia. cbv zeta. change ((153 * mp + 2) / 5) with (monthStart mp). unfold civilOfMarch.
  repeat f_equal; try lia. destruct (mp <? 10) eqn:E1, (10 <=? mp) eqn:E2; try lia.
  - destruct (mp + 3 <=? 2) eqn:E3; lia.
  - destruct (mp - 9 <=? 2) eqn:E3; lia.
Qed.

Lemma march_exists z : ∃ era yoe mp d, marchValid yoe mp d ∧ z = marchDate era yoe mp d.
Proof.
  set (doe := (z + 719468) mod 146097). assert (Hdoe : 0 <= doe < 146097) by (apply Z.mod_pos_bound; lia).
  pose proof (yearOfEra_exists doe Hdoe) as H. cbn zeta in H. set (yoe := (doe - _ + _ - _) / 365) in H. destruct H as [Hy Hd].
  destruct (yearEnd_bound yoe Hy) as (H0 & H1 & H2). set (doy := doe - yearStart yoe).
  pose proof (month_exists doy ltac:(lia)) as H. cbn zeta in H. set (mp := (5 * doy + 2) / 153) in H. destruct H as [Hm Hmd].
  exists ((z + 719468) / 146097), yoe, mp, (doy - monthStart mp + 1). split; [unfold marchValid; lia|].
  unfold marchDate. pose proof (Z.div_mod (z + 719468) 146097 ltac:(lia)) as Hz. fold doe in Hz. lia.
Qed.

(** The number of days of a month of the coordinates, as [Date] carries it. *)
Lemma Date_march era yoe mp d k :
  0 <= yoe < 400 → 0 <= mp <= 11 → Date (civilOfMarch era yoe mp d).1.1 (civilOfMarch era yoe mp d).1.2 k = marchDate era yoe mp k.
Proof.
  intros Hy Hm. unfold Date, civilOfMarch, marchDate, daysOfCivil, yearStart, monthStart. cbn [fst snd].
  destruct (mp <? 10) eqn:E1, (10 <=? mp) eqn:E2; try lia.
  - replace ((mp + 3 - 1) / 12) with 0 by (Z.div_mod_to_equations; lia).
    replace ((mp + 3 - 1) mod 12 + 1) with (mp + 3) by (Z.div_mod_to_equations; lia).
    destruct (mp + 3 <=? 2) eqn:E3; [lia|]. replace (mp + 3 - 3) with mp by lia. Z.div_mod_to_equations; lia.
  - replace ((mp - 9 - 1) / 12) with 0 by (Z.div_mod_to_equations; lia).
    replace ((mp - 9 - 1) mod 12 + 1) with (mp - 9) by (Z.div_mod_to_equations; lia).
    destruct (mp - 9 <=? 2) eqn:E3; [|lia]. replace (mp - 9 + 9) with mp by lia. Z.div_mod_to_equations; lia.
Qed.

Lemma Date_civil z y m d : civilOfDays z = (y, m, d) → ∀ k, Date y m k = z + (k - d).
Proof.
  destruct (march_exists z) as (era & yoe & mp & d' & Hv & ->). rewrite civilOfDays_march by done. intros Heq k.
  destruct Hv as (Hy & Hm & _). pose proof (Date_march era yoe mp d' k Hy Hm) as H.
  rewrite Heq in H. cbn [fst snd] in H. injection Heq as _ _ ->. rewrite H. unfold marchDate. lia.
Qed.

(** ** Buckets *)

(** First day of the month of a day, and of the month after it. *)
Definition monthDay (z : Z) : Z := z - ((civilOfDays z).2 - 1).
Definition nextMonthDay (z : Z) : Z := Date (civilOfDays z).1.1 ((civilOfDays z).1.2 + 1) 1.

Lemma nextMonth_march era yoe mp d :
  marchValid yoe mp d →
  nextMonthDay (marchDate era yoe mp d) =
    era * 146097 - 719468 + (if bool_decide (mp = 11) then yearEnd yoe else yearStart yoe + monthStart (mp + 1)).
Proof.
  intros Hv. unfold nextMonthDay. rewrite civilOfDays_march by done. destruct Hv as (Hy & Hm & _).
  assert (Hnext : ∀ era' yoe' mp', 0 <= yoe' < 400 → 0 <= mp' <= 11 →
      Date (civilOfMarch era yoe mp d).1.1 ((civilOfMarch era yoe mp d).1.2 + 1) 1 =
      Date (civilOfMarch era' yoe' mp' 1).1.1 (civilOfMarch era' yoe' mp' 1).1.2 1 →
      Date (civilOfMarch era yoe mp d).1.1 ((civilOfMarch era yoe mp d).1.2 + 1) 1 = marchDate era' yoe' mp' 1).
  { intros era' yoe' mp' Hy' Hm' ->. by apply Date_march. }
  case_bool_decide as H11; [subst mp; destruct (decide (yoe = 399)) as [->|Hne]|].
  - rewrite (Hnext (era + 1) 0 0); [unfold marchDate; change (monthStart 0) with 0; change (yearStart 0) with 0; change (yearEnd 399) with 146097; lia|lia|lia|].
    unfold civilOfMarch. cbn [fst snd]. f_equal. cbn. lia.
  - rewrite (Hnext era (yoe + 1) 0); [|lia|lia|unfold civilOfMarch; cbn [fst snd]; f_equal; cbn; lia].
    unfold marchDate, yearEnd. rewrite bool_decide_false by done. change (monthStart 0) with 0. lia.
  - rewrite (Hnext era yoe (mp + 1)); [unfold marchDate; lia|lia|lia|]. unfold civilOfMarch. cbn [fst snd].
    assert (mp = 9 ∨ 0 <= mp < 9 ∨ mp = 10) as [->|[H9| ->]] by lia.
    + change (Date (yoe + era * 400 + 0) 13 1 = Date (yoe + era * 400 + 1) 1 1). unfold Date.
      change ((13 - 1) / 12) with 1. change ((13 - 1) mod 12 + 1) with 1. change ((1 - 1) / 12) with 0.
      change ((1 - 1) mod 12 + 1) with 1. do 2 f_equal. lia.
    + rewrite (proj2 (Z.ltb_lt mp 10)), (proj2 (Z.leb_gt 10 mp)), (proj2 (Z.ltb_lt (mp + 1) 10)),
        (proj2 (Z.leb_gt 10 (mp + 1))) by lia. f_equal. lia.
    + done.
Qed.

Lemma month_partition z :
  monthDay z <= z < nextMonthDay z ∧
  ∀ z', monthDay z <= z' < nextMonthDay z → monthDay z' = monthDay z ∧ nextMonthDay z' = nextMonthDay z.
Proof.
  destruct (march_exists z) as (era & yoe & mp & d & Hv & ->). rewrite nextMonth_march by done.
  assert (Hs : monthDay (marchDate era yoe mp d) = marchDate era yoe mp 1).
  { unfold monthDay. rewrite civilOfDays_march by done. unfold civilOfMarch, marchDate. cbn [snd]. lia. }
  rewrite Hs. pose proof Hv as (Hy & Hm & Hd1 & Hd2 & Hd3). destruct (yearEnd_bound yoe Hy) as (_ & _ & H366).
  assert (H12 : mp <> 11 → monthStart (mp + 1) <= 337) by (unfold monthStart; Z.div_mod_to_equations; lia).
  assert (Hmin : 365 <= yearEnd yoe - yearStart yoe)
    by (unfold yearEnd, yearStart; case_bool_decide; [subst|]; Z.div_mod_to_equations; lia).
  split; [unfold marchDate; case_bool_decide; lia|]. intros z' Hz'.
  set (d' := z' - marchDate era yoe mp 1 + 1).
  assert (Heq : z' = marchDate era yoe mp d') by (subst d'; unfold marchDate in *; lia).
  assert (Hv' : marchValid yoe mp d').
  { unfold marchValid. rewrite Heq in Hz'. unfold marchDate in Hz'.
    assert (monthStart 12 = 367) by done. case_bool_decide; [subst mp; change (11 + 1) with 12|]; lia. }
  rewrite Heq, nextMonth_march by done. split; [|done].
  unfold monthDay. rewrite civilOfDays_march by done. unfold civilOfMarch, marchDate. cbn [snd]. lia.
Qed.

(** The bounds of the bucket of an instant, in days. *)
Definition bucketDays (g : string) (z : Z) : Z * Z :=
  if bool_decide (g = GranularityWeekly) then (z - (z + 3) mod 7, z - (z + 3) mod 7 + 7)
  else if bool_decide (g = GranularityMonthly) then (monthDay z, nextMonthDay z)
  else (z, z + 1).

Lemma bucketDays_daily z : (bucketDays GranularityDaily z).1 = z.
Proof. unfold bucketDays. by rewrite !bool_decide_false by done. Qed.

Lemma AddDate_days ms k : AddDate ms 0 0 k = ms + k * dayMs.
Proof.
  unfold AddDate. destruct (civilOfDays (ms / dayMs)) as [[y m] d] eqn:E.
  rewrite !Z.add_0_r, (Date_civil _ y m d E). pose proof (Z.div_mod ms dayMs ltac:(done)). lia.
Qed.

Lemma day_of_start z : z * dayMs / dayMs = z.
Proof. by apply Z.div_mul. Qed.

Lemma BucketStartMs_days g ms : BucketStartMs g ms = (bucketDays g (ms / dayMs)).1 * dayMs.
Proof.
  unfold BucketStartMs, bucketDays. destruct (civilOfDays (ms / dayMs)) as [[y m] d] eqn:E.
  rewrite !(Date_civil _ y m d E). case_bool_decide; [|case_bool_decide]; cbn [fst].
  - rewrite AddDate_days. unfold Weekday. replace (ms / dayMs + (d - d)) with (ms / dayMs) by lia.
    enough (((ms / dayMs + 4) mod 7 + 6) mod 7 = (ms / dayMs + 3) mod 7) as -> by lia.
    rewrite Zplus_mod_idemp_l. replace (ms / dayMs + 4 + 6) with (ms / dayMs + 3 + 1 * 7) by lia. apply Z_mod_plus_full.
  - unfold monthDay. rewrite E. cbn [snd]. f_equal. lia.
  - f_equal. lia.
Qed.

Lemma NextBucketStartMs_days g ms : NextBucketStartMs g (BucketStartMs g ms) = (bucketDays g (ms / dayMs)).2 * dayMs.
Proof.
  rewrite BucketStartMs_days. unfold NextBucketStartMs, bucketDays. case_bool_decide; [|case_bool_decide]; cbn [fst snd].
  - rewrite AddDate_days. lia.
  - set (z := ms / dayMs). destruct (month_partition z) as [Hz Hp].
    destruct (Hp (monthDay z) ltac:(lia)) as [Hs Hn]. rewrite <- Hn. unfold AddDate. rewrite day_of_start.
    unfold nextMonthDay. unfold monthDay in Hs at 1. destruct (civilOfDays (monthDay z)) as [[y m] d]. cbn [fst snd] in *.
    assert (d = 1) as -> by lia. rewrite !Z.add_0_r. rewrite Z_mod_mult. lia.
  - rewrite AddDate_days. lia.
Qed.

Lemma bucketDays_partition g z :
  (bucketDays g z).1 <= z < (bucketDays g z).2 ∧
  ∀ z', (bucketDays g z).1 <= z' < (bucketDays g z).2 → (bucketDays g z').1 = (bucketDays g z).1.
Proof.
  unfold bucketDays. case_bool_decide; [|case_bool_decide]; cbn [fst snd].
  - split; [Z.div_mod_to_equations; lia|]. intros z' Hz'. Z.div_mod_to_equations; lia.
  - destruct (month_partition z) as [Hz Hp]. split; [done|]. intros z' Hz'. by apply Hp.
  - split; [lia|]. intros z' Hz'. lia.
Qed.

(** Buckets of one granularity partition time. *)
Lemma bucket_partition g ms :
  BucketStartMs g ms <= ms < NextBucketStartMs g (BucketStartMs g ms) ∧
  ∀ ms', BucketStartMs g ms <= ms' < NextBucketStartMs g (BucketStartMs g ms) → BucketStartMs g ms' = BucketStartMs g ms.
Proof.
  rewrite NextBucketStartMs_days, BucketStartMs_days. destruct (bucketDays_partition g (ms / dayMs)) as [Hz Hp].
  pose proof (Z.div_mod ms dayMs ltac:(done)) as Hd. pose proof (Z.mod_pos_bound ms dayMs ltac:(done)) as Hb.
  change dayMs with 86400000 in *. split; [nia|]. intros ms' Hms'. rewrite BucketStartMs_days, Hp; [done|].
  change dayMs with 86400000 in *. split; [apply Z.div_le_lower_bound; lia|apply Z.div_lt_upper_bound; lia].
Qed.

Lemma bucket_start_le g ms : BucketStartMs g ms <= ms.
Proof. apply bucket_partition. Qed.

Lemma bucket_mono g ms ms' : ms <= ms' → BucketStartMs g ms <= BucketStartMs g ms'.
Proof.
  intros H. destruct (Z.le_gt_cases (BucketStartMs g ms) (BucketStartMs g ms')) as [|Hlt]; [done|].
  destruct (bucket_partition g ms') as [Hb Hp]. pose proof (bucket_start_le g ms). rewrite (Hp ms) in * by lia. lia.
Qed.
