(* ===== verification/InsightsStore.v ===== *)
(** * Delivery insights: the store

    [internal/observer/store/deliveryinsights/sql.go].  A table is a map from its
    primary key, and a statement a function on the tables, with the rules of its
    [ON CONFLICT] and [WHERE] clauses.  Several replicas share the database: a
    call takes a turn, in which other sessions may have committed, the clocks
    have moved, and the call may fail before or after its effect.  The order of
    rows that a statement leaves open is the class [MapRange]. *)

From S2P Require Import Prelude GoStrings GoValue PlaneObjects InsightsCompute.

#[local] Open Scope Z_scope.

(** ** Tables *)

Definition rollupPK : Type := string * string * string * string * Z.

Definition pkOf (r : MetricRollup) : rollupPK :=
  (mrScopeType r, mrScopeUID r, mrEnvironmentUID r, mrGranularity r, mrBucketStartMs r).

Record InsightsDB := mkDB {
  dbFacts : gmap string DeploymentFact;
  dbRecoveries : gmap string RecoveryFact;
  dbRollups : gmap rollupPK MetricRollup;
  dbWatermarks : gmap string Z;
  dbLeases : gmap string (string * Z)
}.

Definition withFacts (db : InsightsDB) facts : InsightsDB :=
  mkDB facts (dbRecoveries db) (dbRollups db) (dbWatermarks db) (dbLeases db).
Definition withRecoveries (db : InsightsDB) recoveries : InsightsDB :=
  mkDB (dbFacts db) recoveries (dbRollups db) (dbWatermarks db) (dbLeases db).
Definition withRollups (db : InsightsDB) rollups : InsightsDB :=
  mkDB (dbFacts db) (dbRecoveries db) rollups (dbWatermarks db) (dbLeases db).
Definition withWatermarks (db : InsightsDB) watermarks : InsightsDB :=
  mkDB (dbFacts db) (dbRecoveries db) (dbRollups db) watermarks (dbLeases db).
Definition withLeases (db : InsightsDB) leases : InsightsDB :=
  mkDB (dbFacts db) (dbRecoveries db) (dbRollups db) (dbWatermarks db) leases.

(** ** Statements *)

(** [CASE WHEN excluded.c <> '' THEN excluded.c ELSE stored.c END] *)
Definition keepNonEmpty (stored excluded : string) : string :=
  if bool_decide (excluded = "") then stored else excluded.

Definition COALESCE {A} (a b : option A) : option A := match a with Some _ => a | None => b end.

Definition earliest (stored excluded : option Z) : option Z :=
  match stored, excluded with
  | None, _ => excluded
  | Some _, None => stored
  | Some s, Some e => if e <? s then excluded else stored
  end.

Definition mergeOutcome (stored excluded : string) : string :=
  if bool_decide (stored = OutcomeFailed) then stored
  else if bool_decide (excluded = OutcomeInProgress) then stored
  else excluded.

Definition mergeDeploymentFact (stored excluded : DeploymentFact) : DeploymentFact :=
  mkFact (dfReleaseUID stored)
    (keepNonEmpty (dfNamespace stored) (dfNamespace excluded))
    (keepNonEmpty (dfProjectUID stored) (dfProjectUID excluded))
    (keepNonEmpty (dfComponentUID stored) (dfComponentUID excluded))
    (keepNonEmpty (dfEnvironmentUID stored) (dfEnvironmentUID excluded))
    (keepNonEmpty (dfProjectName stored) (dfProjectName excluded))
    (keepNonEmpty (dfComponentName stored) (dfComponentName excluded))
    (keepNonEmpty (dfEnvironmentName stored) (dfEnvironmentName excluded))
    (keepNonEmpty (dfComponentRelease stored) (dfComponentRelease excluded))
    (keepNonEmpty (dfCommitSHA stored) (dfCommitSHA excluded))
    (COALESCE (dfCommitAuthoredMs excluded) (dfCommitAuthoredMs stored))
    (earliest (dfStartedMs stored) (dfStartedMs excluded))
    (earliest (dfReadyMs stored) (dfReadyMs excluded))
    (mergeOutcome (dfOutcome stored) (dfOutcome excluded))
    (keepNonEmpty (dfFailedBy stored) (dfFailedBy excluded))
    (keepNonEmpty (dfFailureReason stored) (dfFailureReason excluded))
    (keepNonEmpty (dfIncidentID stored) (dfIncidentID excluded))
    (COALESCE (dfLeadTimeMs excluded) (dfLeadTimeMs stored))
    (dfUpdatedAtMs excluded).

Definition upsertDeploymentFactQuery (facts : gmap string DeploymentFact) (f : DeploymentFact) : gmap string DeploymentFact :=
  <[dfReleaseUID f := match facts !! dfReleaseUID f with Some stored => mergeDeploymentFact stored f | None => f end]> facts.

Definition mergeRecoveryFact (stored excluded : RecoveryFact) : RecoveryFact :=
  let recovered := COALESCE (rfRecoveredMs excluded) (rfRecoveredMs stored) in
  mkRecovery (rfID stored) (rfNamespace stored) (rfProjectUID stored) (rfComponentUID stored) (rfEnvironmentUID stored)
    (keepNonEmpty (rfReleaseUID stored) (rfReleaseUID excluded))
    (keepNonEmpty (rfIncidentID stored) (rfIncidentID excluded))
    (keepNonEmpty (rfSeverity stored) (rfSeverity excluded))
    (rfSource stored)
    (rfFailureStartedMs stored)
    recovered
    (match recovered with Some r => Some (r - rfFailureStartedMs stored) | None => rfDurationMs stored end)
    (rfUpdatedAtMs excluded).

Definition upsertRecoveryFactQuery (recoveries : gmap string RecoveryFact) (f : RecoveryFact) : gmap string RecoveryFact :=
  <[rfID f := match recoveries !! rfID f with Some stored => mergeRecoveryFact stored f | None => f end]> recoveries.

(** Every column that is not in the key is replaced. *)
Definition upsertRollupQuery (rollups : gmap rollupPK MetricRollup) (r : MetricRollup) : gmap rollupPK MetricRollup :=
  <[pkOf r := r]> rollups.

Definition setWatermarkQuery (source : string) (ms : Z) (db : InsightsDB) : InsightsDB :=
  withWatermarks db (<[source := ms]> (dbWatermarks db)).

(** With the number of rows affected. *)
Definition acquireLeaseQuery (name holder : string) (ttlMs now : Z) (db : InsightsDB) : InsightsDB * Z :=
  let taken := withLeases db (<[name := (holder, now + ttlMs)]> (dbLeases db)) in
  match dbLeases db !! name with
  | None => (taken, 1)
  | Some (h, expires) => if (expires <=? now) || bool_decide (h = holder) then (taken, 1) else (db, 0)
  end.

Definition setWatermarkFencedQuery (source : string) (ms : Z) (leaseName leaseHolder : string) (db : InsightsDB) : InsightsDB * Z :=
  match dbLeases db !! leaseName with
  | Some (h, _) => if bool_decide (h = leaseHolder) then (setWatermarkQuery source ms db, 1) else (db, 0)
  | None => (db, 0)
  end.

Definition releaseLeaseQuery (name holder : string) (db : InsightsDB) : InsightsDB :=
  match dbLeases db !! name with
  | Some (h, _) => if bool_decide (h = holder) then withLeases db (delete name (dbLeases db)) else db
  | None => db
  end.

(** ** Turns *)

Record IncidentEntry := mkIncident {
  ieID : string;
  ieTimestamp : string;
  ieTriggeredAt : string;
  ieResolvedAt : string;
  ieNamespaceName : string;
  ieComponentID : string;
  ieEnvironmentID : string;
  ieProjectID : string
}.

(** An entry of the answer of the logs adapter; fields may be missing. *)
Record EventEntry := mkEventEntry {
  eeReason : option string;
  eeMessage : option string;
  eeTimestampMs : option Z;
  eeMetadata : option (option string * option string * option string * option string)
}.

Inductive adapterAnswer :=
  | AdapterEvents (total : Z) (events : option (list EventEntry))
  | AdapterNotImplemented (msg : string)
  | AdapterFailed (msg : string).

Inductive dbFault := NoFault | FailsBefore (msg : string) | FailsAfter (msg : string).

(** What a call meets: the clocks of the process and of the database, what other
    sessions made of the tables, whether the call fails, and what the incident
    store and the logs adapter answer. *)
Record turn := mkTurn {
  tnNow : Z;
  tnClock : Z;
  tnOthers : InsightsDB → InsightsDB;
  tnFault : dbFault;
  tnIncidents : Z → Z → nat → list IncidentEntry + string;
  tnAdapter : Z → Z → adapterAnswer
}.

(** [pageFuel] bounds the pages of an exhaustive read. *)
Class Turns := { turnAt : nat → turn; pageFuel : nat }.

Record World := mkWorld { wDB : InsightsDB; wStep : nat; wUnavailableUntilMs : Z }.

Definition takeTurn (w : World) (db : InsightsDB) : World := mkWorld db (S (wStep w)) (wUnavailableUntilMs w).

(** ** Validation *)

Definition blank (s : string) : bool := bool_decide (TrimSpace s = "").

Definition validateDeploymentFact (now : Z) (f : DeploymentFact) : result DeploymentFact :=
  if blank (dfReleaseUID f) then Err "deployment fact release UID is required"
  else if blank (dfNamespace f) then Err ("deployment fact " +:+ quoted (dfReleaseUID f) +:+ ": namespace is required")
  else
    let outcome := if bool_decide (dfOutcome f = "") then OutcomeInProgress else dfOutcome f in
    if negb (bool_decide (outcome ∈ [OutcomeInProgress; OutcomeSuccess; OutcomeFailed])) then
      Err ("deployment fact " +:+ quoted (dfReleaseUID f) +:+ ": unsupported outcome " +:+ quoted outcome)
    else if negb (bool_decide (dfFailedBy f ∈ [""; FailedByRollout; FailedByIncident])) then
      Err ("deployment fact " +:+ quoted (dfReleaseUID f) +:+ ": unsupported failedBy " +:+ quoted (dfFailedBy f))
    else
      Ok (mkFact (dfReleaseUID f) (dfNamespace f) (dfProjectUID f) (dfComponentUID f) (dfEnvironmentUID f)
            (dfProjectName f) (dfComponentName f) (dfEnvironmentName f) (dfComponentRelease f) (dfCommitSHA f)
            (dfCommitAuthoredMs f) (dfStartedMs f) (dfReadyMs f) outcome (dfFailedBy f) (dfFailureReason f)
            (dfIncidentID f) (dfLeadTimeMs f) (if bool_decide (dfUpdatedAtMs f = 0) then now else dfUpdatedAtMs f)).

Definition validateRecoveryFact (now : Z) (f : RecoveryFact) : result RecoveryFact :=
  if blank (rfID f) then Err "recovery fact ID is required"
  else if blank (rfNamespace f) then Err ("recovery fact " +:+ quoted (rfID f) +:+ ": namespace is required")
  else if negb (bool_decide (rfSource f ∈ [RecoverySourceIncident; RecoverySourceHealth])) then
    Err ("recovery fact " +:+ quoted (rfID f) +:+ ": unsupported source " +:+ quoted (rfSource f))
  else if rfFailureStartedMs f <=? 0 then
    Err ("recovery fact " +:+ quoted (rfID f) +:+ ": failure start time is required")
  else
    Ok (mkRecovery (rfID f) (rfNamespace f) (rfProjectUID f) (rfComponentUID f) (rfEnvironmentUID f) (rfReleaseUID f)
          (rfIncidentID f) (rfSeverity f) (rfSource f) (rfFailureStartedMs f) (rfRecoveredMs f)
          (match rfDurationMs f, rfRecoveredMs f with
           | None, Some r => Some (wrap64 (r - rfFailureStartedMs f))
           | d, _ => d
           end)
          (if bool_decide (rfUpdatedAtMs f = 0) then now else rfUpdatedAtMs f)).

Definition validateScopeType (scopeType : string) : option string :=
  if bool_decide (scopeType ∈ [ScopeTypeNamespace; ScopeTypeProject; ScopeTypeComponent]) then None
  else Some ("unsupported rollup scope type " +:+ quoted scopeType).

Definition validateGranularity (granularity : string) : option string :=
  if bool_decide (granularity ∈ [GranularityDaily; GranularityWeekly; GranularityMonthly]) then None
  else Some ("unsupported rollup granularity " +:+ quoted granularity).

Definition validateRollup (now : Z) (r : MetricRollup) : result MetricRollup :=
  match validateScopeType (mrScopeType r) with
  | Some err => Err err
  | None =>
      if blank (mrScopeUID r) then Err "rollup scope UID is required"
      else
        match validateGranularity (mrGranularity r) with
        | Some err => Err err
        | None =>
            Ok (mkRollup (mrScopeType r) (mrScopeUID r) (mrEnvironmentUID r) (mrNamespace r) (mrProjectUID r)
                  (mrGranularity r) (mrBucketStartMs r) (mrDeployTotal r) (mrDeploySuccess r) (mrDeployFailed r)
                  (mrLeadTimeP50Ms r) (mrLeadTimeP75Ms r) (mrLeadTimeP95Ms r) (mrMTTRMeanMs r) (mrMTTRP50Ms r)
                  (mrRecoveryCount r) (if bool_decide (mrComputedAtMs r = 0) then now else mrComputedAtMs r))
        end
  end.

(** ** Queries *)

Record FactQuery := mkFactQuery {
  fqNamespace : string;
  fqProjectUID : string;
  fqComponentUID : string;
  fqEnvironmentUID : string;
  fqStartMs : Z;
  fqEndMs : Z;
  fqLimit : Z;
  fqAllRows : bool;
  fqSortOrder : string
}.

Record RollupQuery := mkRollupQuery {
  rqScopeType : string;
  rqScopeUID : string;
  rqEnvironmentUID : string;
  rqGranularity : string;
  rqStartMs : Z;
  rqEndMs : Z;
  rqNamespace : string;
  rqProjectUID : string
}.

Definition validateRollupQuery (q : RollupQuery) : option string :=
  match validateScopeType (rqScopeType q) with
  | Some err => Some err
  | None =>
      if blank (rqScopeUID q) then Some "rollup query scope UID is required"
      else
        match validateGranularity (rqGranularity q) with
        | Some err => Some err
        | None => if rqEndMs q <=? rqStartMs q then Some "rollup query end time must be after start time" else None
        end
  end.

Definition defaultQueryLimit : Z := 100.
Definition maxQueryLimit : Z := 10000.
Definition factPageSize : Z := 5000.

Definition normalizeLimit (limit : Z) : Z :=
  if limit <=? 0 then defaultQueryLimit else if maxQueryLimit <? limit then maxQueryLimit else limit.

(** Whether the order is ascending. *)
Definition normalizeSortOrder (sortOrder : string) : result bool :=
  let s := ToUpper (TrimSpace sortOrder) in
  if bool_decide (s ∈ [""; "DESC"]) then Ok false
  else if bool_decide (s = "ASC") then Ok true
  else Err ("invalid sort order " +:+ quoted sortOrder).

Definition columnIs (column value : string) : bool :=
  let v := TrimSpace value in bool_decide (v = "") || bool_decide (column = v).

Definition factScopeConditions (q : FactQuery) (namespace projectUID componentUID environmentUID : string) : bool :=
  columnIs namespace (fqNamespace q) && columnIs projectUID (fqProjectUID q)
  && columnIs componentUID (fqComponentUID q) && columnIs environmentUID (fqEnvironmentUID q).

Definition factInScope (q : FactQuery) (f : DeploymentFact) : bool :=
  factScopeConditions q (dfNamespace f) (dfProjectUID f) (dfComponentUID f) (dfEnvironmentUID f).
Definition recoveryInScope (q : FactQuery) (r : RecoveryFact) : bool :=
  factScopeConditions q (rfNamespace r) (rfProjectUID r) (rfComponentUID r) (rfEnvironmentUID r).

Definition within (q : FactQuery) (ms : Z) : bool := (fqStartMs q <=? ms) && (ms <? fqEndMs q).

(** [ORDER BY occurred, release_uid ASC], the first ascending or descending. *)
Definition orderedBy {A} (asc : bool) (ms : A → Z) (uid : A → string) (a b : A) : Prop :=
  if asc then ms a < ms b ∨ ms a = ms b ∧ String.le (uid a) (uid b)
  else ms b < ms a ∨ ms a = ms b ∧ String.le (uid a) (uid b).
#[global] Instance orderedBy_dec {A} asc (ms : A → Z) uid : RelDecision (orderedBy asc ms uid).
Proof. intros a b. unfold orderedBy. destruct asc; apply _. Defined.

(** [ORDER BY] one column. *)
Definition byMs {A} (asc : bool) (ms : A → Z) (a b : A) : Prop := if asc then ms a <= ms b else ms b <= ms a.
#[global] Instance byMs_dec {A} asc (ms : A → Z) : RelDecision (byMs asc ms).
Proof. intros a b. unfold byMs. destruct asc; apply _. Defined.

Section Store.
Context {MR : MapRange} {T : Turns}.

Definition rows {A} (t : gmap string A) : list A := (map_range t).*2.

Definition selectFacts (q : FactQuery) (asc : bool) (db : InsightsDB) : list DeploymentFact :=
  merge_sort (orderedBy asc OccurredMs dfReleaseUID)
    (filter (λ f, Is_true (factInScope q f && within q (OccurredMs f))) (rows (dbFacts db))).

Definition selectRecoveries (q : FactQuery) (db : InsightsDB) : list RecoveryFact :=
  merge_sort (orderedBy true rfFailureStartedMs rfID)
    (filter (λ r, Is_true (recoveryInScope q r && within q (rfFailureStartedMs r))) (rows (dbRecoveries db))).

Definition selectLeadTimes (q : FactQuery) (db : InsightsDB) : list Z :=
  omap dfLeadTimeMs
    (merge_sort (orderedBy true (λ f, default 0 (dfReadyMs f)) dfReleaseUID)
       (filter (λ f, Is_true (factInScope q f
                              && match dfReadyMs f with Some ready => within q ready | None => false end
                              && match dfLeadTimeMs f with Some lead => 0 <=? lead | None => false end))
          (rows (dbFacts db)))).

Definition selectRecoveryDurations (q : FactQuery) (db : InsightsDB) : list Z :=
  omap rfDurationMs
    (merge_sort (orderedBy true rfFailureStartedMs rfID)
       (filter (λ r, Is_true (recoveryInScope q r && within q (rfFailureStartedMs r)
                              && match rfDurationMs r with Some d => 0 <=? d | None => false end))
          (rows (dbRecoveries db)))).

Definition limited {A} (limit offset : Z) (l : list A) : list A := take (Z.to_nat limit) (drop (Z.to_nat offset) l).

(** ** Calls *)

Abbreviation IM := (CM World).

(** [time.Now()] of the process. *)
Definition processNow : IM Z := λ w, (w, inl (tnNow (turnAt (wStep w)))).

(** A call to the database: one statement, or the statements of one transaction. *)
Definition dbCall {A} (run : Z → InsightsDB → InsightsDB * A) : IM A := λ w,
  let t := turnAt (wStep w) in
  let db := tnOthers t (wDB w) in
  let r := run (tnClock t) db in
  match tnFault t with
  | NoFault => (takeTurn w r.1, inl r.2)
  | FailsBefore msg => (takeTurn w db, inr (plainErr msg))
  | FailsAfter msg => (takeTurn w r.1, inr (plainErr msg))
  end.

Definition valid {A} (r : result A) : IM A := match r with Ok a => mret a | Err msg => fails (plainErr msg) end.

Definition UpsertDeploymentFacts (facts : list DeploymentFact) : IM unit :=
  if bool_decide (length facts = 0%nat) then mret ()
  else
    now ← processNow;
    facts ← valid (result_map (validateDeploymentFact now) facts);
    dbCall (λ _ db, (withFacts db (foldl upsertDeploymentFactQuery (dbFacts db) facts), ())).

Definition UpsertRecoveryFacts (facts : list RecoveryFact) : IM unit :=
  if bool_decide (length facts = 0%nat) then mret ()
  else
    now ← processNow;
    facts ← valid (result_map (validateRecoveryFact now) facts);
    dbCall (λ _ db, (withRecoveries db (foldl upsertRecoveryFactQuery (dbRecoveries db) facts), ())).

Definition UpsertRollups (rollups : list MetricRollup) : IM unit :=
  if bool_decide (length rollups = 0%nat) then mret ()
  else
    now ← processNow;
    rollups ← valid (result_map (validateRollup now) rollups);
    dbCall (λ _ db, (withRollups db (foldl upsertRollupQuery (dbRollups db) rollups), ())).

Definition rollupMatches (q : RollupQuery) (r : MetricRollup) : bool :=
  bool_decide (mrScopeType r = rqScopeType q) && bool_decide (mrScopeUID r = rqScopeUID q)
  && bool_decide (mrEnvironmentUID r = rqEnvironmentUID q) && bool_decide (mrGranularity r = rqGranularity q)
  && bool_decide (mrNamespace r = rqNamespace q) && bool_decide (mrProjectUID r = rqProjectUID q)
  && (rqStartMs q <=? mrBucketStartMs r) && (mrBucketStartMs r <? rqEndMs q).

Definition QueryRollups (q : RollupQuery) : IM (list MetricRollup) :=
  match validateRollupQuery q with
  | Some err => fails (plainErr err)
  | None =>
      dbCall (λ _ db,
        (db, merge_sort (byMs true mrBucketStartMs)
               (filter (λ r, Is_true (rollupMatches q r)) (map_to_list (dbRollups db)).*2)))
  end.

(** A loop without a bound of its own: it ends at the first page that is not
    full. *)
Fixpoint pageAll {A} (fuel : nat) (fetch : Z → Z → IM (list A)) (offset : Z) (out : list A) : IM (list A) :=
  match fuel with
  | O => fails (plainErr "read does not end")
  | S fuel =>
      page ← fetch factPageSize offset;
      let out := out ++ page in
      if Z.of_nat (length page) <? factPageSize then mret out else pageAll fuel fetch (offset + factPageSize) out
  end.

Definition pages {A} (select : InsightsDB → list A) : IM (list A) :=
  pageAll pageFuel (λ limit offset, dbCall (λ _ db, (db, limited limit offset (select db)))) 0 [].

Definition QueryDeploymentFacts (q : FactQuery) : IM (list DeploymentFact * Z) :=
  asc ← valid (normalizeSortOrder (fqSortOrder q));
  if fqAllRows q then facts ← pages (selectFacts q asc); mret (facts, Z.of_nat (length facts))
  else
    total ← dbCall (λ _ db, (db, Z.of_nat (length (selectFacts q asc db))));
    facts ← dbCall (λ _ db, (db, limited (normalizeLimit (fqLimit q)) 0 (selectFacts q asc db)));
    mret (facts, total).

(** The reads that differ in what they select only. *)
Definition readAllOrLimit {A} (q : FactQuery) (select : InsightsDB → list A) : IM (list A) :=
  if fqAllRows q then pages select
  else dbCall (λ _ db, (db, limited (normalizeLimit (fqLimit q)) 0 (select db))).

Definition QueryRecoveryFacts (q : FactQuery) : IM (list RecoveryFact) := readAllOrLimit q (selectRecoveries q).
Definition QueryLeadTimes (q : FactQuery) : IM (list Z) := readAllOrLimit q (selectLeadTimes q).
Definition QueryRecoveryDurations (q : FactQuery) : IM (list Z) := readAllOrLimit q (selectRecoveryDurations q).

Record DeploymentCounts := mkCounts { dcTotal : Z; dcSuccess : Z; dcFailed : Z }.

Definition CountDeployments (q : FactQuery) : IM DeploymentCounts :=
  dbCall (λ _ db,
    let finished := filter (λ f, Is_true (factInScope q f && negb (bool_decide (dfOutcome f = OutcomeInProgress))
                                          && within q (OccurredMs f))) (rows (dbFacts db)) in
    let total := Z.of_nat (length finished) in
    let success := Z.of_nat (length (filter (λ f, dfOutcome f = OutcomeSuccess) finished)) in
    (db, mkCounts total success (total - success))).

Record AttributionResult := mkAttribution { arReleaseUID : string; arOccurredMs : Z; arAttributed : bool }.

Definition noAttribution : AttributionResult := mkAttribution "" 0 false.

Definition failedByIncident (incidentID : string) (now : Z) (f : DeploymentFact) : DeploymentFact :=
  mkFact (dfReleaseUID f) (dfNamespace f) (dfProjectUID f) (dfComponentUID f) (dfEnvironmentUID f)
    (dfProjectName f) (dfComponentName f) (dfEnvironmentName f) (dfComponentRelease f) (dfCommitSHA f)
    (dfCommitAuthoredMs f) (dfStartedMs f) (dfReadyMs f) OutcomeFailed FailedByIncident (dfFailureReason f)
    incidentID (dfLeadTimeMs f) now.

(** The latest deployment at or before the trigger, in the window. *)
Definition liveAt (componentUID environmentUID : string) (triggeredMs windowMs : Z) (db : InsightsDB) : option DeploymentFact :=
  head (merge_sort (byMs false OccurredMs)
          (filter (λ f, Is_true (bool_decide (dfComponentUID f = componentUID) && bool_decide (dfEnvironmentUID f = environmentUID)
                                 && (OccurredMs f <=? triggeredMs) && (wrap64 (triggeredMs - windowMs) <? OccurredMs f)))
             (rows (dbFacts db)))).

(** The [UPDATE], with the number of rows affected. *)
Definition attributeUpdate (incidentID : string) (now : Z) (releaseUID : string) (facts : gmap string DeploymentFact)
    : gmap string DeploymentFact * Z :=
  match facts !! releaseUID with
  | Some f =>
      if bool_decide (dfFailedBy f = "") then (<[releaseUID := failedByIncident incidentID now f]> facts, 1) else (facts, 0)
  | None => (facts, 0)
  end.

Definition attributeTx (componentUID environmentUID incidentID : string) (triggeredMs windowMs now : Z) (db : InsightsDB)
    : InsightsDB * AttributionResult :=
  match liveAt componentUID environmentUID triggeredMs windowMs db with
  | None => (db, noAttribution)
  | Some f =>
      let '(facts, rowsAffected) := attributeUpdate incidentID now (dfReleaseUID f) (dbFacts db) in
      (withFacts db facts, mkAttribution (dfReleaseUID f) (OccurredMs f) (0 <? rowsAffected))
  end.

Definition AttributeIncident (componentUID environmentUID incidentID : string) (triggeredMs windowMs : Z) : IM AttributionResult :=
  if blank componentUID || blank environmentUID then mret noAttribution
  else if blank incidentID then fails (plainErr "incident ID is required for attribution")
  else
    now ← processNow;
    dbCall (λ _ db, attributeTx componentUID environmentUID incidentID triggeredMs windowMs now db).

Definition Watermark (source : string) : IM Z := dbCall (λ _ db, (db, default 0 (dbWatermarks db !! source))).

Definition SetWatermark (source : string) (watermarkMs : Z) (leaseName leaseHolder : string) : IM unit :=
  if blank source then fails (plainErr "watermark source is required")
  else if blank leaseName then dbCall (λ _ db, (setWatermarkQuery source watermarkMs db, ()))
  else
    affected ← dbCall (λ _ db, setWatermarkFencedQuery source watermarkMs leaseName leaseHolder db);
    if bool_decide (affected = 0) then
      fails (mkClientError ("delivery insights aggregation lease not held: watermark " +:+ quoted source +:+ " not advanced")
               [ErrLeaseNotHeld])
    else mret ().

Definition AcquireLease (name holder : string) (ttlMs : Z) : IM bool :=
  if blank name || blank holder then fails (plainErr "lease name and holder are required")
  else if ttlMs <=? 0 then fails (plainErr ("lease ttl must be positive, got " +:+ Itoa ttlMs))
  else affected ← dbCall (acquireLeaseQuery name holder ttlMs); mret (0 <? affected).

Definition LeaseHolder (name : string) : IM string :=
  dbCall (λ _ db, (db, match dbLeases db !! name with Some (h, _) => h | None => "" end)).

Definition ReleaseLease (name holder : string) : IM unit := dbCall (λ _ db, (releaseLeaseQuery name holder db, ())).
End Store.
