(* ===== verification/InsightsAggregator.v ===== *)
(** * Delivery insights: the aggregator

    [internal/observer/aggregator]: the worker that folds delivery events and
    incidents into facts, attributes incidents to deployments, rebuilds the
    rollups it touched and advances its watermarks; and the read of the logs
    adapter it sweeps ([internal/observer/service/delivery_events_adapter.go]).
    Durations are in milliseconds.  The renewals of the lease by the goroutine
    of a tick are turns of other sessions, and a cancelled tick is one whose
    remaining calls fail.  [json.Unmarshal] of the payload of an event and
    [time.Parse] are the class [EventCodec]. *)

From S2P Require Import Prelude GoStrings GoValue PlaneObjects InsightsCompute InsightsStore.

#[local] Open Scope Z_scope.

Definition ReasonDeploymentStarted : string := "DeploymentStarted".
Definition ReasonDeploymentSucceeded : string := "DeploymentSucceeded".
Definition ReasonDeploymentFailed : string := "DeploymentFailed".
Definition ReasonDeploymentRecovered : string := "DeploymentRecovered".

Definition watermarkSourceIncidents : string := "incidents".
Definition watermarkSourceEvents : string := "events".
Definition watermarkSourceEventsResume : string := "events_resume".
Definition watermarkSourceIncidentsResume : string := "incidents_resume".
Definition aggregationLease : string := "dora-aggregation".
Definition incidentMaxPages : nat := 50.
Definition eventsUnavailableRetryAfter : Z := 3600000.

Record DeliveryEvent := mkDeliveryEvent {
  deReason : string;
  deTimestampMs : Z;
  deNamespace : string;
  deProjectName : string;
  deComponentName : string;
  deEnvironmentName : string;
  deMessage : string
}.

Record eventPayload := mkEventPayload {
  epRolloutID : string;
  epComponentReleaseName : string;
  epNamespaceName : string;
  epProjectUID : string;
  epComponentUID : string;
  epEnvironmentUID : string;
  epCommit : string;
  epCommitAuthoredAt : string;
  epFailureReason : string;
  epFailureEpisode : Z
}.

Class EventCodec := {
  unmarshalPayload : string → option eventPayload;
  parseEntryTime : string → option Z
}.

Record Config := mkConfig {
  cfgInterval : Z;
  cfgOverlap : Z;
  cfgAttributionWindow : Z;
  cfgIncidentLookback : Z
}.

(** [agEvents] tells whether there is an events source. *)
Record Aggregator := mkAggregator {
  agEvents : bool;
  agCfg : Config;
  agIncidentPageSize : nat;
  agHolder : string;
  agRenewInterval : Z
}.

Definition leaseTTL (a : Aggregator) : Z :=
  let ttl := 2 * cfgInterval (agCfg a) in if ttl <? 60000 then 60000 else ttl.

Definition leaseRenewInterval (a : Aggregator) : Z :=
  if 0 <? agRenewInterval a then agRenewInterval a else Z.quot (leaseTTL a) 3.

(** ** Events *)

Definition healthRecoveryID (releaseUID : string) (episode : Z) : string :=
  if episode <=? 0 then "health-" +:+ releaseUID else "health-" +:+ releaseUID +:+ "-e" +:+ Itoa episode.

Section Aggregation.
Context {MR : MapRange} {RR : RollupRange} {T : Turns} {C : EventCodec} (a : Aggregator).

Abbreviation IM := (CM World).

(** The columns that no phase decides. *)
Definition baseFact (payload : eventPayload) (event : DeliveryEvent) (namespaceName : string) (tickMs : Z)
    (authored started ready : option Z) (outcome failedBy failureReason : string) (lead : option Z) : DeploymentFact :=
  mkFact (epRolloutID payload) namespaceName (epProjectUID payload) (epComponentUID payload) (epEnvironmentUID payload)
    (deProjectName event) (deComponentName event) (deEnvironmentName event) (epComponentReleaseName payload)
    (epCommit payload) authored started ready outcome failedBy failureReason "" lead tickMs.

Definition healthRecovery (payload : eventPayload) (namespaceName : string) (tickMs eventMs : Z) (recovered : option Z) : RecoveryFact :=
  mkRecovery (healthRecoveryID (epRolloutID payload) (epFailureEpisode payload)) namespaceName (epProjectUID payload)
    (epComponentUID payload) (epEnvironmentUID payload) (epRolloutID payload) "" "" RecoverySourceHealth eventMs recovered None tickMs.

Definition eventNamespace (payload : eventPayload) (event : DeliveryEvent) : string :=
  if bool_decide (epNamespaceName payload = "") then deNamespace event else epNamespaceName payload.

(** The facts an event writes; [None] is an event that is skipped. *)
Definition foldEvent (event : DeliveryEvent) (tickMs : Z) : option (option DeploymentFact * option RecoveryFact) :=
  payload ← unmarshalPayload (deMessage event);
  if bool_decide (epRolloutID payload = "") then None
  else
    let ns := eventNamespace payload event in
    if bool_decide (ns = "") then None
    else
      let eventMs := deTimestampMs event in
      let fact := baseFact payload event ns tickMs in
      if bool_decide (deReason event = ReasonDeploymentStarted) then
        Some (Some (fact None (Some eventMs) None OutcomeInProgress "" "" None), None)
      else if bool_decide (deReason event = ReasonDeploymentSucceeded) then
        let authored := parseEntryTime (epCommitAuthoredAt payload) in
        Some (Some (fact authored None (Some eventMs) OutcomeSuccess "" "" ((λ t, wrap64 (eventMs - t)) <$> authored)), None)
      else if bool_decide (deReason event = ReasonDeploymentFailed) then
        Some (Some (fact None (Some eventMs) None OutcomeFailed FailedByRollout (epFailureReason payload) None),
              Some (healthRecovery payload ns tickMs eventMs None))
      else if bool_decide (deReason event = ReasonDeploymentRecovered) then
        Some (None, Some (healthRecovery payload ns tickMs eventMs (Some eventMs)))
      else None.

Definition foldedFacts (events : list DeliveryEvent) (tickMs : Z) : list DeploymentFact :=
  omap (λ e, foldEvent e tickMs ≫= fst) events.
Definition foldedRecoveries (events : list DeliveryEvent) (tickMs : Z) : list RecoveryFact :=
  omap (λ e, foldEvent e tickMs ≫= snd) events.

Definition touchedBy (tickMs : Z) (event : DeliveryEvent) : list Z :=
  match foldEvent event tickMs with
  | None => []
  | Some (fact, recovery) =>
      match fact with Some f => [OccurredMs f] | None => [] end
      ++ match recovery with Some r => [rfFailureStartedMs r] | None => [] end
  end.

(** ** The adapter *)

(** A call that is no database call. *)
Definition ask {A} (f : turn → A) : IM A := λ w,
  let t := turnAt (wStep w) in (takeTurn w (tnOthers t (wDB w)), inl (f t)).

Definition eventOfEntry (e : EventEntry) : DeliveryEvent :=
  let '(namespaceName, projectName, componentName, environmentName) := default (None, None, None, None) (eeMetadata e) in
  mkDeliveryEvent (default "" (eeReason e)) (default 0 (eeTimestampMs e)) (default "" namespaceName)
    (default "" projectName) (default "" componentName) (default "" environmentName) (default "" (eeMessage e)).

Definition FetchDeliveryEvents (fromMs toMs : Z) : IM (list DeliveryEvent * bool) :=
  answer ← ask (λ t, tnAdapter t fromMs toMs);
  match answer with
  | AdapterNotImplemented msg =>
      fails (mkClientError ("delivery events source unavailable: " +:+ msg) [ErrEventsSourceUnavailable])
  | AdapterFailed msg => fails (plainErr msg)
  | AdapterEvents total entries =>
      let out := eventOfEntry <$> default [] entries in
      mret (out, bool_decide (total = Z.of_nat (length out)))
  end.

(** ** The sweep of events *)

Record eventsProgress := mkProgress { watermarkMs : Z; resumeMs : Z }.

Definition sweepStart (watermark priorResumeMs tickMs : Z) : Z :=
  if 0 <? priorResumeMs then priorResumeMs
  else if bool_decide (watermark = 0) then AddDate tickMs 0 0 (-14)
  else watermark - cfgOverlap (agCfg a).

Definition progressOf (watermark priorResumeMs tickMs : Z) (events : list DeliveryEvent) (complete : bool) : eventsProgress :=
  if complete then mkProgress tickMs 0
  else
    match last events with
    | None => mkProgress watermark priorResumeMs
    | Some e => mkProgress (deTimestampMs e) (deTimestampMs e)
    end.

Definition processEvents (tickMs : Z) : IM (list Z * eventsProgress) :=
  watermark ← Watermark watermarkSourceEvents;
  priorResumeMs ← Watermark watermarkSourceEventsResume;
  '(events, complete) ← FetchDeliveryEvents (sweepStart watermark priorResumeMs tickMs) tickMs;
  let progress := progressOf watermark priorResumeMs tickMs events complete in
  UpsertDeploymentFacts (foldedFacts events tickMs) ≫= λ _,
  UpsertRecoveryFacts (foldedRecoveries events tickMs) ≫= λ _,
  mret (events ≫= touchedBy tickMs, progress).

(** ** Incidents *)

Record pageFold := mkPageFold {
  pfSeen : gset string;
  pfRecoveries : list RecoveryFact;
  pfTouched : list Z;
  pfProcessed : Z;
  pfLastIngested : Z
}.

Definition seenEntry (st : pageFold) (entry : IncidentEntry) : pageFold :=
  mkPageFold ({[ieID entry]} ∪ pfSeen st) (pfRecoveries st) (pfTouched st) (pfProcessed st + 1) (pfLastIngested st).
Definition ingestedAt (st : pageFold) (ms : option Z) : pageFold :=
  mkPageFold (pfSeen st) (pfRecoveries st) (pfTouched st) (pfProcessed st)
    (match ms with Some t => if pfLastIngested st <? t then t else pfLastIngested st | None => pfLastIngested st end).
Definition touchedAt (st : pageFold) (touched : bool) (ms : Z) : pageFold :=
  if touched then mkPageFold (pfSeen st) (pfRecoveries st) (pfTouched st ++ [ms]) (pfProcessed st) (pfLastIngested st) else st.
Definition recorded (st : pageFold) (fact : RecoveryFact) : pageFold :=
  mkPageFold (pfSeen st) (pfRecoveries st ++ [fact]) (pfTouched st) (pfProcessed st) (pfLastIngested st).

Definition incidentRecovery (entry : IncidentEntry) (releaseUID : string) (triggeredMs tickMs : Z) (resolved : option Z) : RecoveryFact :=
  mkRecovery ("incident-" +:+ ieID entry) (ieNamespaceName entry) (ieProjectID entry) (ieComponentID entry) (ieEnvironmentID entry)
    releaseUID (ieID entry) "" RecoverySourceIncident triggeredMs resolved None tickMs.

Definition resolvedMs (entry : IncidentEntry) : option Z :=
  if bool_decide (ieResolvedAt entry = "") then None else parseEntryTime (ieResolvedAt entry).

Definition changedIncident (changedSinceMs triggeredMs : Z) (resolved : option Z) : bool :=
  (changedSinceMs <=? triggeredMs) || match resolved with Some r => changedSinceMs <=? r | None => false end.

Definition foldIncidentEntry (changedSinceMs tickMs : Z) (st : pageFold) (entry : IncidentEntry) : IM pageFold :=
  match parseEntryTime (ieTriggeredAt entry) with
  | None => mret st
  | Some triggeredMs =>
      let st := ingestedAt st (parseEntryTime (ieTimestamp entry)) in
      if bool_decide (ieID entry ∈ pfSeen st) then mret st
      else
        let st := seenEntry st entry in
        attribution ← AttributeIncident (ieComponentID entry) (ieEnvironmentID entry) (ieID entry) triggeredMs
                        (cfgAttributionWindow (agCfg a));
        let st := touchedAt st (arAttributed attribution) (arOccurredMs attribution) in
        if blank (ieNamespaceName entry) then mret st
        else
          let resolved := resolvedMs entry in
          let st := recorded st (incidentRecovery entry (arReleaseUID attribution) triggeredMs tickMs resolved) in
          mret (touchedAt st (changedIncident changedSinceMs triggeredMs resolved) triggeredMs)
  end.

Fixpoint foldIncidentEntries (changedSinceMs tickMs : Z) (st : pageFold) (entries : list IncidentEntry) : IM pageFold :=
  match entries with
  | [] => mret st
  | entry :: entries => st ← foldIncidentEntry changedSinceMs tickMs st entry; foldIncidentEntries changedSinceMs tickMs st entries
  end.

Definition foldIncidentPage (entries : list IncidentEntry) (seen : gset string) (changedSinceMs tickMs : Z) : IM pageFold :=
  st ← foldIncidentEntries changedSinceMs tickMs (mkPageFold seen [] [] 0 0) entries;
  UpsertRecoveryFacts (pfRecoveries st) ≫= λ _, mret st.

Definition QueryIncidentEntries (cursorMs tickMs : Z) (limit : nat) : IM (list IncidentEntry) :=
  answer ← ask (λ t, tnIncidents t cursorMs tickMs limit);
  match answer with
  | inl entries => mret entries
  | inr msg => fails (plainErr ("query incident entries: " +:+ msg))
  end.

(** The moments touched, and where the sweep stopped, 0 at the end of the
    window. *)
Fixpoint incidentPages (pagesLeft : nat) (cursorMs : Z) (seen : gset string) (touched : list Z) (changedSinceMs tickMs : Z)
    : IM (list Z * Z) :=
  match pagesLeft with
  | O => mret (touched, 0)
  | S pagesLeft =>
      entries ← QueryIncidentEntries cursorMs tickMs (agIncidentPageSize a);
      if bool_decide (length entries = 0%nat) then mret (touched, 0)
      else
        st ← foldIncidentPage entries seen changedSinceMs tickMs;
        let touched := touched ++ pfTouched st in
        if bool_decide (length entries < agIncidentPageSize a)%nat then mret (touched, 0)
        else if pfLastIngested st <=? cursorMs then mret (touched, cursorMs)
        else if bool_decide (pagesLeft = 0%nat) then mret (touched, pfLastIngested st)
        else incidentPages pagesLeft (pfLastIngested st) (pfSeen st) touched changedSinceMs tickMs
  end.

Definition lookbackStart (watermark tickMs : Z) : Z :=
  if 0 <? watermark then
    let fromMs := tickMs - cfgIncidentLookback (agCfg a) in if fromMs <? 0 then 0 else fromMs
  else 0.

Definition processIncidents (tickMs : Z) : IM (list Z * Z) :=
  watermark ← Watermark watermarkSourceIncidents;
  resumeFrom ← Watermark watermarkSourceIncidentsResume;
  let fromMs := lookbackStart watermark tickMs in
  let cursorMs := if fromMs <? resumeFrom then resumeFrom else fromMs in
  incidentPages incidentMaxPages cursorMs ∅ [] (watermark - cfgOverlap (agCfg a)) tickMs.

(** ** Rollups *)

Definition minTouched (touchedMs : list Z) : Z :=
  match touchedMs with
  | [] => 0
  | ms :: rest => foldl (λ m ms, if ms <? m then ms else m) ms rest
  end.

Definition readStart (touchedMs : list Z) : Z :=
  BucketStartMs GranularityWeekly (BucketStartMs GranularityMonthly (minTouched touchedMs)).

Definition recomputeQuery (touchedMs : list Z) (tickMs : Z) : FactQuery :=
  mkFactQuery "" "" "" "" (readStart touchedMs) (tickMs + 1) 0 true "ASC".

Definition covered (readStartMs : Z) (rollups : list MetricRollup) : list MetricRollup :=
  filter (λ r, readStartMs <= mrBucketStartMs r) rollups.

Definition recomputeRollups (touchedMs : list Z) (tickMs : Z) : IM unit :=
  let q := recomputeQuery touchedMs tickMs in
  '(facts, _) ← QueryDeploymentFacts q;
  recoveries ← QueryRecoveryFacts q;
  UpsertRollups (covered (readStart touchedMs) (BuildRollups facts recoveries tickMs)).

(** ** A tick *)

Definition EventsActive : IM bool := λ w,
  let until := wUnavailableUntilMs w in
  (w, inl (agEvents a && (bool_decide (until = 0) || (until <=? tnNow (turnAt (wStep w)))))).

Definition standDown : IM unit := λ w,
  (mkWorld (wDB w) (wStep w) (tnNow (turnAt (wStep w)) + eventsUnavailableRetryAfter), inl ()).

(** What was touched and the progress, [None] when the events were not swept. *)
Definition sweepEvents (tickMs : Z) : IM (list Z * option eventsProgress) :=
  active ← EventsActive;
  if (active : bool) then
    r ← attempt (processEvents tickMs);
    match r with
    | inl (touched, progress) => mret (touched, Some progress)
    | inr err =>
        if hasTag ErrEventsSourceUnavailable err then standDown ≫= λ _, mret ([], None)
        else fails (wrapErrorf "events: " err)
    end
  else mret ([], None).

Definition setMark (source : string) (ms : Z) : IM unit := SetWatermark source ms aggregationLease (agHolder a).

Definition advanceWatermarks (tickMs incidentResumeMs : Z) (progress : option eventsProgress) : IM unit :=
  setMark watermarkSourceIncidents (if 0 <? incidentResumeMs then incidentResumeMs else tickMs) ≫= λ _,
  setMark watermarkSourceIncidentsResume incidentResumeMs ≫= λ _,
  match progress with
  | None => mret ()
  | Some p =>
      setMark watermarkSourceEvents (watermarkMs p) ≫= λ _,
      setMark watermarkSourceEventsResume (resumeMs p)
  end.

Definition RunOnce : IM unit :=
  tickMs ← processNow;
  '(incidentTouched, incidentResumeMs) ← orElse (processIncidents tickMs) (wrapErrorf "incidents: ");
  '(eventTouched, progress) ← sweepEvents tickMs;
  let touched := incidentTouched ++ eventTouched in
  (if bool_decide (length touched = 0%nat) then mret ()
   else orElse (recomputeRollups touched tickMs) (wrapErrorf "rollups: ")) ≫= λ _,
  advanceWatermarks tickMs incidentResumeMs progress.

Inductive tickResult := TickStopped | TickNotHeld | TickDone | TickAbandoned | TickFailed (err : clientError).

(** [stopped] and [stopping]: the context of the process is done before the tick,
    and after its run.  The context of the tick has been cancelled by then. *)
Definition tick (stopped stopping : bool) : IM tickResult :=
  if stopped then mret TickStopped
  else
    r ← attempt (AcquireLease aggregationLease (agHolder a) (leaseTTL a));
    match r with
    | inr err => mret (if stopping then TickStopped else TickFailed err)
    | inl false => mret TickNotHeld
    | inl true =>
        r ← attempt RunOnce;
        let tickCtxDone := true in
        match r with
        | inl _ => mret TickDone
        | inr err =>
            mret (if stopping then TickStopped
                  else if tickCtxDone || hasTag ErrLeaseNotHeld err then TickAbandoned
                  else TickFailed err)
        end
    end.

(** One renewal of [holdLease]: whether the lease is lost. *)
Definition renewLease : IM bool :=
  r ← attempt (AcquireLease aggregationLease (agHolder a) (leaseTTL a));
  mret (match r with inl held => negb held | inr _ => true end).

Definition releaseLease : IM unit := attempt (ReleaseLease aggregationLease (agHolder a)) ≫= λ _, mret ().
End Aggregation.
