(* ===== verification/InsightsFactsSpec.v ===== *)
(** * Delivery insights: what the facts report

    The row of a rollout is a function of the set of its events: what each column
    is, that the order and the number of times events are folded does not matter,
    and where it does. *)

From S2P Require Import Prelude GoStrings GoValue PlaneObjects InsightsCompute InsightsStore InsightsAggregator.

#[local] Open Scope Z_scope.

(** ** Rows that statements merge *)

Section Merged.
Context {A : Type} (key : A → string) (merge : A → A → A).
Hypothesis merge_key : ∀ s e, key (merge s e) = key s.

Definition upserted (t : gmap string A) (f : A) : gmap string A :=
  <[key f := match t !! key f with Some s => merge s f | None => f end]> t.

(** The row that a list of writes to one key leaves behind. *)
Definition mergedOnto (stored : option A) (fs : list A) : option A :=
  foldl (λ o f, Some (match o with Some s => merge s f | None => f end)) stored fs.

Lemma upserted_lookup t fs k : foldl upserted t fs !! k = mergedOnto (t !! k) (filter (λ f, key f = k) fs).
Proof.
  revert t. induction fs as [|f fs IH]; intros t; [done|]. cbn [foldl]. rewrite IH. unfold upserted at 1. destruct (decide (key f = k)) as [<-|Hne].
  - rewrite filter_cons_True by done. cbn [mergedOnto foldl]. by rewrite lookup_insert_eq.
  - rewrite filter_cons_False by done. by rewrite lookup_insert_ne.
Qed.

Lemma mergedOnto_cons f fs : mergedOnto None (f :: fs) = Some (foldl merge f fs).
Proof.
  unfold mergedOnto. cbn [foldl]. revert f. induction fs as [|g fs IH]; intros f; [done|]. cbn [foldl]. by rewrite IH.
Qed.

Lemma mergedOnto_some s fs : mergedOnto (Some s) fs = Some (foldl merge s fs).
Proof. unfold mergedOnto. revert s. induction fs as [|g fs IH]; intros s; [done|]. cbn [foldl]. by rewrite IH. Qed.

(** A column whose merge rule is [op]. *)
Lemma merged_column {B} (col : A → B) (op : B → B → B) f fs :
  (∀ s e, col (merge s e) = op (col s) (col e)) → col (foldl merge f fs) = foldl op (col f) (col <$> fs).
Proof. intros Hop. revert f. induction fs as [|g fs IH]; intros f; [done|]. cbn [foldl fmap list_fmap]. by rewrite IH, Hop. Qed.
End Merged.

(** ** Merge rules *)

(** The earliest of the values that are known. *)
Definition isEarliest (values : list (option Z)) (v : option Z) : Prop :=
  match v with
  | None => ∀ x, x ∈ values → x = None
  | Some m => Some m ∈ values ∧ ∀ n, Some n ∈ values → m <= n
  end.

Lemma isEarliest_app l1 l2 a b : isEarliest l1 a → isEarliest l2 b → isEarliest (l1 ++ l2) (earliest a b).
Proof.
  unfold isEarliest, earliest. intros Ha Hb. destruct a as [a|], b as [b|]; try destruct (b <? a) eqn:E;
    repeat setoid_rewrite elem_of_app; try (naive_solver lia);
    destruct Ha as [Ha Ha'], Hb as [Hb Hb']; (split; [by auto|]); intros n [Hn|Hn]; try specialize (Ha' n Hn); try specialize (Hb' n Hn); lia.
Qed.

Lemma isEarliest_one v : isEarliest [v] v.
Proof.
  destruct v as [m|]; cbn; [|by intros x ->%list_elem_of_singleton].
  split; [by apply list_elem_of_singleton|]. intros n [= ->]%list_elem_of_singleton. lia.
Qed.

Lemma earliest_fold v vs : isEarliest (v :: vs) (foldl earliest v vs).
Proof.
  induction vs as [|w vs IH] using rev_ind; [apply isEarliest_one|]. rewrite foldl_snoc.
  change (v :: vs ++ [w]) with ((v :: vs) ++ [w]). by apply isEarliest_app; [|apply isEarliest_one].
Qed.

Lemma isEarliest_unique l1 l2 a b : (∀ x, x ∈ l1 ↔ x ∈ l2) → isEarliest l1 a → isEarliest l2 b → a = b.
Proof.
  unfold isEarliest. intros Hl Ha Hb. destruct a as [a|], b as [b|].
  - destruct Ha as [Ha Ha'], Hb as [Hb Hb']. f_equal. apply Z.le_antisymm; [apply Ha'|apply Hb']; by apply Hl.
  - destruct Ha as [Ha _]. apply Hl in Ha. by apply Hb in Ha.
  - destruct Hb as [Hb _]. apply Hl in Hb. by apply Ha in Hb.
  - done.
Qed.

(** Failure is final, and nothing reopens what has finished. *)
Definition outcomes : list string := [OutcomeInProgress; OutcomeSuccess; OutcomeFailed].

Definition isOutcomeOf (reported : list string) (o : string) : Prop :=
  (o = OutcomeFailed ↔ OutcomeFailed ∈ reported) ∧
  (o = OutcomeSuccess ↔ OutcomeSuccess ∈ reported ∧ OutcomeFailed ∉ reported) ∧
  (o = OutcomeInProgress ↔ (OutcomeSuccess ∉ reported) ∧ OutcomeFailed ∉ reported).

Lemma mergeOutcome_spec l s e :
  e ∈ outcomes → isOutcomeOf l s → isOutcomeOf (l ++ [e]) (mergeOutcome s e).
Proof.
  unfold isOutcomeOf, mergeOutcome, outcomes. intros He (Hf & Hs & Hp).
  repeat setoid_rewrite elem_of_app. repeat setoid_rewrite list_elem_of_singleton.
  apply elem_of_cons in He as [->|He]; [|apply elem_of_cons in He as [->|He]; [|apply list_elem_of_singleton in He as ->]];
    case_bool_decide as E1; subst; cbn; naive_solver.
Qed.

Lemma outcome_fold o os : o ∈ outcomes → Forall (.∈ outcomes) os → isOutcomeOf (o :: os) (foldl mergeOutcome o os).
Proof.
  intros Ho. induction os as [|w os IH] using rev_ind; intros Hos.
  - unfold isOutcomeOf. cbn. repeat setoid_rewrite list_elem_of_singleton. unfold outcomes in Ho.
    repeat (apply elem_of_cons in Ho as [->|Ho]; [naive_solver|]). by apply elem_of_nil in Ho.
  - apply Forall_app in Hos as [Hos Hw]. rewrite Forall_singleton in Hw. rewrite foldl_snoc.
    change (o :: os ++ [w]) with ((o :: os) ++ [w]). apply mergeOutcome_spec; [exact Hw|by apply IH].
Qed.

Lemma isOutcomeOf_unique l1 l2 a b :
  (∀ x, x ∈ l1 ↔ x ∈ l2) → a ∈ outcomes → b ∈ outcomes → isOutcomeOf l1 a → isOutcomeOf l2 b → a = b.
Proof.
  intros Hl Ha Hb (F1 & S1 & P1) (F2 & S2 & P2). rewrite <- !Hl in *. unfold outcomes in Ha, Hb.
  rewrite !elem_of_cons, elem_of_nil in Ha, Hb. naive_solver.
Qed.

(** Values that are known or not, of which no two contradict each other. *)
Definition consistent {B} (unknown : B → Prop) (values : list B) : Prop :=
  ∀ x y, x ∈ values → y ∈ values → unknown x ∨ unknown y ∨ x = y.

Definition isKnown {B} (unknown : B → Prop) (values : list B) (v : B) : Prop :=
  v ∈ values ∧ (unknown v → ∀ x, x ∈ values → unknown x).

Lemma isKnown_unique {B} (unknown : B → Prop) l1 l2 a b :
  (∀ x y, unknown x → unknown y → x = y) → (∀ x, x ∈ l1 ↔ x ∈ l2) → consistent unknown l1 →
  isKnown unknown l1 a → isKnown unknown l2 b → a = b.
Proof.
  intros Hu Hl Hc [Ha Ha'] [Hb Hb']. apply Hl in Hb. destruct (Hc a b Ha Hb) as [Hua|[Hub|Heq]]; [| |done].
  - apply Hu; [done|]. by apply Ha'.
  - apply Hu; [|done]. apply Hb'; [done|]. by apply Hl.
Qed.

Lemma known_fold {B} (unknown : B → Prop) (op : B → B → B) v vs :
  (∀ s e, op s e = s ∧ unknown e ∨ op s e = e ∧ ¬ unknown e) → isKnown unknown (v :: vs) (foldl op v vs).
Proof.
  intros Hop. induction vs as [|w vs [IHe IHu]] using rev_ind.
  - split; [by left|]. by intros Hv x ->%list_elem_of_singleton.
  - rewrite foldl_snoc. change (v :: vs ++ [w]) with ((v :: vs) ++ [w]). set (s := foldl op v vs) in *.
    destruct (Hop s w) as [[-> Hw]|[-> Hw]]; (split; [apply elem_of_app|]).
    + by left.
    + intros Hs x [Hx| ->%list_elem_of_singleton]%elem_of_app; [by apply IHu|done].
    + right. by left.
    + done.
Qed.

Lemma keepNonEmpty_known s e : keepNonEmpty s e = s ∧ e = "" ∨ keepNonEmpty s e = e ∧ e ≠ "".
Proof. unfold keepNonEmpty. case_bool_decide; auto. Qed.

Lemma COALESCE_known {B} (s e : option B) : COALESCE e s = s ∧ e = None ∨ COALESCE e s = e ∧ e ≠ None.
Proof. unfold COALESCE. destruct e; auto. Qed.

(** ** Events and the rows they write *)

Section Facts.
Context {C : EventCodec}.

(** The rollout an event is folded for. *)
Definition rolloutOf (e : DeliveryEvent) : option string :=
  payload ← unmarshalPayload (deMessage e);
  if bool_decide (epRolloutID payload = "") then None
  else if bool_decide (eventNamespace payload e = "") then None
  else Some (epRolloutID payload).

Definition factPhases : list string := [ReasonDeploymentStarted; ReasonDeploymentSucceeded; ReasonDeploymentFailed].

Definition factOfEvent (e : DeliveryEvent) (tickMs : Z) : option DeploymentFact := foldEvent e tickMs ≫= fst.

Definition startedAt (e : DeliveryEvent) : option Z :=
  if bool_decide (deReason e = ReasonDeploymentSucceeded) then None else Some (deTimestampMs e).
Definition readyAt (e : DeliveryEvent) : option Z :=
  if bool_decide (deReason e = ReasonDeploymentSucceeded) then Some (deTimestampMs e) else None.
Definition outcomeAt (e : DeliveryEvent) : string :=
  if bool_decide (deReason e = ReasonDeploymentStarted) then OutcomeInProgress
  else if bool_decide (deReason e = ReasonDeploymentSucceeded) then OutcomeSuccess
  else OutcomeFailed.

Lemma factOfEvent_spec e t f :
  factOfEvent e t = Some f →
  rolloutOf e = Some (dfReleaseUID f) ∧ deReason e ∈ factPhases ∧
  dfOutcome f = outcomeAt e ∧ dfStartedMs f = startedAt e ∧ dfReadyMs f = readyAt e ∧ dfUpdatedAtMs f = t.
Proof.
  unfold factOfEvent, foldEvent, rolloutOf, outcomeAt, startedAt, readyAt, factPhases.
  destruct (unmarshalPayload _) as [payload|]; [|done]. cbn [mbind option_bind].
  case_bool_decide as E1; [done|]. case_bool_decide as E2; [done|].
  repeat case_bool_decide; cbn; intros Hf; simplify_eq; cbn; split_and!; try done.
  all: first [rewrite !elem_of_cons; by auto|unfold ReasonDeploymentStarted, ReasonDeploymentSucceeded in *; congruence].
Qed.

Lemma factOfEvent_exists e t k : rolloutOf e = Some k → deReason e ∈ factPhases → is_Some (factOfEvent e t).
Proof.
  unfold factOfEvent, foldEvent, rolloutOf, factPhases. destruct (unmarshalPayload _) as [payload|]; [|done]. cbn [mbind option_bind].
  case_bool_decide as E1; [done|]. case_bool_decide as E2; [done|]. intros _ Hr.
  rewrite !elem_of_cons, elem_of_nil in Hr. destruct Hr as [-> | [-> | [-> | []]]]; cbn; eauto.
Qed.

(** The table after events were folded, each at its tick. *)
Definition factsOf (es : list (DeliveryEvent * Z)) : list DeploymentFact := omap (λ et, factOfEvent et.1 et.2) es.
Definition factsAfter (es : list (DeliveryEvent * Z)) : gmap string DeploymentFact := foldl upsertDeploymentFactQuery ∅ (factsOf es).

(** An event of a rollout that writes its deployment fact. *)
Definition reports (es : list (DeliveryEvent * Z)) (k : string) (e : DeliveryEvent) : Prop :=
  e ∈ es.*1 ∧ rolloutOf e = Some k ∧ deReason e ∈ factPhases.

Lemma factsOf_elem es k f :
  f ∈ filter (λ f, dfReleaseUID f = k) (factsOf es) ↔ ∃ e t, (e, t) ∈ es ∧ factOfEvent e t = Some f ∧ rolloutOf e = Some k.
Proof.
  rewrite list_elem_of_filter. unfold factsOf. rewrite list_elem_of_omap. split.
  - intros (Hk & [e t] & Het & Hf). exists e, t. split_and!; [done|done|]. cbn in Hf.
    apply factOfEvent_spec in Hf as [Hr _]. by rewrite <- Hk.
  - intros (e & t & Het & Hf & Hk). pose proof (factOfEvent_spec e t f Hf) as [Hr _]. rewrite Hk in Hr. split; [congruence|].
    by exists (e, t).
Qed.

Lemma column_elem {B} (col : DeploymentFact → B) (at_event : DeliveryEvent → B) es k b :
  (∀ e t f, factOfEvent e t = Some f → col f = at_event e) →
  b ∈ col <$> filter (λ f, dfReleaseUID f = k) (factsOf es) ↔ ∃ e, reports es k e ∧ at_event e = b.
Proof.
  intros Hcol. rewrite list_elem_of_fmap. split.
  - intros (f & -> & (e & t & Het & Hf & Hk)%factsOf_elem). exists e. rewrite (Hcol e t f Hf). split; [|done].
    split_and!; [by apply (list_elem_of_fmap_2 fst _ (e, t))|done|by apply (factOfEvent_spec e t f)].
  - intros (e & (((e', t) & -> & Het)%list_elem_of_fmap & Hk & Hr) & <-). cbn [fst] in *.
    destruct (factOfEvent_exists e' t k Hk Hr) as [f Hf]. exists f. split; [by rewrite (Hcol e' t f Hf)|].
    apply factsOf_elem. by exists e', t.
Qed.

Lemma factsAfter_row es k :
  factsAfter es !! k = mergedOnto mergeDeploymentFact None (filter (λ f, dfReleaseUID f = k) (factsOf es)).
Proof. apply (upserted_lookup dfReleaseUID mergeDeploymentFact). Qed.

Lemma factsAfter_columns es k row :
  factsAfter es !! k = Some row →
  let fs := filter (λ f, dfReleaseUID f = k) (factsOf es) in
  isEarliest (dfStartedMs <$> fs) (dfStartedMs row) ∧ isEarliest (dfReadyMs <$> fs) (dfReadyMs row) ∧
  isOutcomeOf (dfOutcome <$> fs) (dfOutcome row).
Proof.
  rewrite factsAfter_row. cbv zeta. destruct (filter _ _) as [|f fs] eqn:E; [done|]. rewrite mergedOnto_cons. intros [= <-].
  rewrite (merged_column mergeDeploymentFact dfStartedMs earliest), (merged_column mergeDeploymentFact dfReadyMs earliest),
    (merged_column mergeDeploymentFact dfOutcome mergeOutcome) by done.
  split; [apply earliest_fold|split; [apply earliest_fold|]].
  assert (Hout : ∀ g, g ∈ f :: fs → dfOutcome g ∈ outcomes).
  { rewrite <- E. intros g (e & t & _ & (_ & _ & -> & _)%factOfEvent_spec & _)%factsOf_elem.
    unfold outcomeAt, outcomes. repeat case_bool_decide; by repeat constructor. }
  apply outcome_fold; [apply Hout; by left|]. apply Forall_forall. intros o (g & -> & Hg)%list_elem_of_fmap. apply Hout. by right.
Qed.

Lemma column_ready es k b :
  b ∈ dfReadyMs <$> filter (λ f, dfReleaseUID f = k) (factsOf es) ↔ ∃ e, reports es k e ∧ readyAt e = b.
Proof. apply column_elem. intros e t f (_ & _ & _ & _ & H & _)%factOfEvent_spec. done. Qed.

Lemma column_started es k b :
  b ∈ dfStartedMs <$> filter (λ f, dfReleaseUID f = k) (factsOf es) ↔ ∃ e, reports es k e ∧ startedAt e = b.
Proof. apply column_elem. intros e t f (_ & _ & _ & H & _)%factOfEvent_spec. done. Qed.

Lemma column_outcome es k b :
  b ∈ dfOutcome <$> filter (λ f, dfReleaseUID f = k) (factsOf es) ↔ ∃ e, reports es k e ∧ outcomeAt e = b.
Proof. apply column_elem. intros e t f (_ & _ & H & _)%factOfEvent_spec. done. Qed.

Definition said (es : list (DeliveryEvent * Z)) (k reason : string) : Prop := ∃ e, reports es k e ∧ deReason e = reason.

Definition outcomeOfReason (reason : string) : string :=
  if bool_decide (reason = ReasonDeploymentSucceeded) then OutcomeSuccess else OutcomeFailed.

Lemma outcome_said es k reason :
  reason ∈ [ReasonDeploymentFailed; ReasonDeploymentSucceeded] →
  outcomeOfReason reason ∈ dfOutcome <$> filter (λ f, dfReleaseUID f = k) (factsOf es) ↔ said es k reason.
Proof.
  intros Hreason. rewrite column_outcome. unfold said. apply exist_proper. intros e. split.
  - intros [He Hat]. split; [done|]. destruct He as (_ & _ & Hr). unfold outcomeAt in Hat. unfold factPhases in Hr.
    rewrite !elem_of_cons, elem_of_nil in Hr. rewrite !elem_of_cons, elem_of_nil in Hreason.
    destruct Hr as [Hr|[Hr|[Hr|[]]]]; rewrite Hr in Hat |- *; destruct Hreason as [->|[->|[]]]; by cbn in Hat.
  - intros [He Hr]. split; [done|]. unfold outcomeAt. rewrite Hr. rewrite !elem_of_cons, elem_of_nil in Hreason.
    by destruct Hreason as [->|[->|[]]].
Qed.

Lemma factsAfter_none es k : factsAfter es !! k = None ↔ ¬ ∃ e, reports es k e.
Proof.
  rewrite factsAfter_row. destruct (filter _ _) as [|f fs] eqn:E.
  - split; [|done]. intros _ (e & He). assert (Hin : outcomeAt e ∈ dfOutcome <$> filter (λ f, dfReleaseUID f = k) (factsOf es))
      by (apply column_outcome; by exists e). rewrite E in Hin. by apply elem_of_nil in Hin.
  - rewrite mergedOnto_cons. split; [done|]. intros []. assert (Hin : dfOutcome f ∈ dfOutcome <$> filter (λ f, dfReleaseUID f = k) (factsOf es))
      by (rewrite E; by left). apply column_outcome in Hin as (e & He & _). by exists e.
Qed.


(** ** Folding again, and in another order *)

(** A fact without the time of the write and the text of the failure. *)
Definition settled (f : DeploymentFact) : DeploymentFact :=
  mkFact (dfReleaseUID f) (dfNamespace f) (dfProjectUID f) (dfComponentUID f) (dfEnvironmentUID f) (dfProjectName f)
    (dfComponentName f) (dfEnvironmentName f) (dfComponentRelease f) (dfCommitSHA f) (dfCommitAuthoredMs f) (dfStartedMs f)
    (dfReadyMs f) (dfOutcome f) (dfFailedBy f) "" (dfIncidentID f) (dfLeadTimeMs f) 0.

Definition textColumns : list (DeploymentFact → string) :=
  [dfNamespace; dfProjectUID; dfComponentUID; dfEnvironmentUID; dfProjectName; dfComponentName; dfEnvironmentName;
   dfComponentRelease; dfCommitSHA; dfFailedBy; dfIncidentID].
Definition timeColumns : list (DeploymentFact → option Z) := [dfCommitAuthoredMs; dfLeadTimeMs].

(** The events of a rollout describe it in the same way, as far as they do. *)
Definition agreeing (es : list (DeliveryEvent * Z)) : Prop :=
  ∀ f g, f ∈ factsOf es → g ∈ factsOf es → dfReleaseUID f = dfReleaseUID g →
    Forall (λ c, c f = "" ∨ c g = "" ∨ c f = c g) textColumns ∧
    Forall (λ c, c f = None ∨ c g = None ∨ c f = c g) timeColumns.

Lemma factOfEvent_tick e t t' f : factOfEvent e t = Some f → ∃ f', factOfEvent e t' = Some f' ∧ settled f' = settled f.
Proof.
  unfold factOfEvent, foldEvent. destruct (unmarshalPayload _) as [payload|]; [|done]. cbn [mbind option_bind].
  repeat (case_bool_decide; [try done; cbn; intros Hf; simplify_eq; by eexists|]). done.
Qed.

(** The writes of one rollout, in two histories with the same events. *)
Lemma columns_same {B} (col : DeploymentFact → B) es1 es2 k :
  (∀ f f', settled f = settled f' → col f = col f') → (∀ e, e ∈ es1.*1 ↔ e ∈ es2.*1) →
  ∀ b, b ∈ col <$> filter (λ f, dfReleaseUID f = k) (factsOf es1) ↔ b ∈ col <$> filter (λ f, dfReleaseUID f = k) (factsOf es2).
Proof.
  intros Hcol. assert (Hone : ∀ es1 es2, (∀ e, e ∈ es1.*1 → e ∈ es2.*1) →
      ∀ b, b ∈ col <$> filter (λ f, dfReleaseUID f = k) (factsOf es1) → b ∈ col <$> filter (λ f, dfReleaseUID f = k) (factsOf es2)).
  { clear es1 es2. intros es1 es2 Hes b (f & -> & (e & t & Het & Hf & Hk)%factsOf_elem)%list_elem_of_fmap.
    assert (e ∈ es2.*1) as ([e' t'] & Heq & Hin)%list_elem_of_fmap by (apply Hes; by apply (list_elem_of_fmap_2 fst _ (e, t))).
    cbn in Heq. subst e'. destruct (factOfEvent_tick e t t' f Hf) as (f' & Hf' & Hset). rewrite <- (Hcol f' f Hset).
    apply list_elem_of_fmap_2, factsOf_elem. by exists e, t'. }
  intros Hes b. split; apply Hone; intros e; apply Hes.
Qed.

Lemma agreeing_consistent {B} (cols : list (DeploymentFact → B)) (unknown : B) col es k :
  (∀ f g, f ∈ factsOf es → g ∈ factsOf es → dfReleaseUID f = dfReleaseUID g → Forall (λ c, c f = unknown ∨ c g = unknown ∨ c f = c g) cols) →
  col ∈ cols → consistent (λ x, x = unknown) (col <$> filter (λ f, dfReleaseUID f = k) (factsOf es)).
Proof.
  intros Hag Hcol x y (f & -> & [Hk Hf]%list_elem_of_filter)%list_elem_of_fmap (g & -> & [Hk' Hg]%list_elem_of_filter)%list_elem_of_fmap.
  specialize (Hag f g Hf Hg ltac:(congruence)). rewrite Forall_forall in Hag. by apply Hag.
Qed.

Lemma settled_eq f g :
  dfReleaseUID f = dfReleaseUID g → (∀ c, c ∈ textColumns → c f = c g) → (∀ c, c ∈ timeColumns → c f = c g) →
  dfStartedMs f = dfStartedMs g → dfReadyMs f = dfReadyMs g → dfOutcome f = dfOutcome g → settled f = settled g.
Proof.
  intros Hk Ht Hz Hs Hr Ho. unfold settled. rewrite Hk, Hs, Hr, Ho.
  rewrite (Ht dfNamespace), (Ht dfProjectUID), (Ht dfComponentUID), (Ht dfEnvironmentUID), (Ht dfProjectName), (Ht dfComponentName),
    (Ht dfEnvironmentName), (Ht dfComponentRelease), (Ht dfCommitSHA), (Ht dfFailedBy), (Ht dfIncidentID),
    (Hz dfCommitAuthoredMs), (Hz dfLeadTimeMs) by (by repeat constructor). done.
Qed.

(** Every column of a merged row is the known value, if there is one. *)
Lemma merged_known f fs :
  (∀ c, c ∈ textColumns → isKnown (λ x, x = "") (c f :: (c <$> fs)) (c (foldl mergeDeploymentFact f fs))) ∧
  (∀ c, c ∈ timeColumns → isKnown (λ x, x = None) (c f :: (c <$> fs)) (c (foldl mergeDeploymentFact f fs))).
Proof.
  split; intros c Hc.
  - unfold textColumns in Hc. rewrite (merged_column mergeDeploymentFact c keepNonEmpty).
    + apply known_fold. apply keepNonEmpty_known.
    + repeat (apply elem_of_cons in Hc as [->|Hc]; [done|]). by apply elem_of_nil in Hc.
  - unfold timeColumns in Hc. rewrite (merged_column mergeDeploymentFact c (λ s e, COALESCE e s)).
    + apply known_fold. intros. apply COALESCE_known.
    + repeat (apply elem_of_cons in Hc as [->|Hc]; [done|]). by apply elem_of_nil in Hc.
Qed.

Lemma outcome_bounded es k row : factsAfter es !! k = Some row → dfOutcome row ∈ outcomes.
Proof.
  intros H. destruct (factsAfter_columns es k row H) as (_ & _ & Hf & Hs & Hp). unfold outcomes. rewrite !elem_of_cons.
  destruct (decide (OutcomeFailed ∈ dfOutcome <$> filter (λ f, dfReleaseUID f = k) (factsOf es))); [tauto|].
  destruct (decide (OutcomeSuccess ∈ dfOutcome <$> filter (λ f, dfReleaseUID f = k) (factsOf es))); tauto.
Qed.

Lemma factsAfter_uid es k row : factsAfter es !! k = Some row → dfReleaseUID row = k.
Proof.
  rewrite factsAfter_row. destruct (filter _ _) as [|f fs] eqn:E; [done|]. rewrite mergedOnto_cons. intros [= <-].
  rewrite (merged_column mergeDeploymentFact dfReleaseUID (λ s _, s)) by done.
  assert (Hf : f ∈ filter (λ f, dfReleaseUID f = k) (factsOf es)) by (rewrite E; by left).
  apply list_elem_of_filter in Hf as [<- _]. clear E. generalize (dfReleaseUID f). induction fs; intros; cbn; [done|]. by rewrite IHfs.
Qed.

Lemma factsAfter_known es k row :
  factsAfter es !! k = Some row →
  (∀ c, c ∈ textColumns → isKnown (λ x, x = "") (c <$> filter (λ f, dfReleaseUID f = k) (factsOf es)) (c row)) ∧
  (∀ c, c ∈ timeColumns → isKnown (λ x, x = None) (c <$> filter (λ f, dfReleaseUID f = k) (factsOf es)) (c row)).
Proof.
  rewrite factsAfter_row. destruct (filter _ _) as [|f fs]; [done|]. rewrite mergedOnto_cons. intros [= <-]. apply merged_known.
Qed.

Lemma factsAfter_some es k row : factsAfter es !! k = Some row → ∃ e, reports es k e.
Proof.
  rewrite factsAfter_row. destruct (filter _ _) as [|f fs] eqn:E; [done|]. intros _.
  assert (Hin : dfOutcome f ∈ dfOutcome <$> filter (λ f, dfReleaseUID f = k) (factsOf es)) by (rewrite E; by left).
  apply column_outcome in Hin as (e & He & _). by exists e.
Qed.

Lemma reports_same es1 es2 k e : (∀ e, e ∈ es1.*1 ↔ e ∈ es2.*1) → reports es1 k e → reports es2 k e.
Proof. intros Hes (He & Hk & Hr). split; [by apply Hes|done]. Qed.


(** ** Episodes *)

(** The row an event writes to the recovery facts, once it is validated. *)
Definition recoveryOfEvent (e : DeliveryEvent) (tickMs : Z) : option RecoveryFact :=
  r ← foldEvent e tickMs ≫= snd;
  match validateRecoveryFact tickMs r with Ok r => Some r | Err _ => None end.

Definition recoveriesOf (es : list (DeliveryEvent * Z)) : list RecoveryFact := omap (λ et, recoveryOfEvent et.1 et.2) es.
Definition recoveriesAfter (es : list (DeliveryEvent * Z)) : gmap string RecoveryFact := foldl upsertRecoveryFactQuery ∅ (recoveriesOf es).

Definition closes (e : DeliveryEvent) : bool := bool_decide (deReason e = ReasonDeploymentRecovered).

(** The episode an event opens or closes; an event without a time is refused. *)
Definition episodeOf (e : DeliveryEvent) : option string :=
  rollout ← rolloutOf e;
  payload ← unmarshalPayload (deMessage e);
  if bool_decide (deReason e ∈ [ReasonDeploymentFailed; ReasonDeploymentRecovered]) && (0 <? deTimestampMs e) &&
     negb (blank (eventNamespace payload e)) && negb (blank (healthRecoveryID rollout (epFailureEpisode payload)))
  then Some (healthRecoveryID rollout (epFailureEpisode payload)) else None.

Lemma foldEvent_recovery e t :
  foldEvent e t ≫= snd =
    (_ ← rolloutOf e;
     payload ← unmarshalPayload (deMessage e);
     if bool_decide (deReason e ∈ [ReasonDeploymentFailed; ReasonDeploymentRecovered]) then
       Some (healthRecovery payload (eventNamespace payload e) t (deTimestampMs e) (if closes e then Some (deTimestampMs e) else None))
     else None).
Proof.
  unfold foldEvent, rolloutOf, closes. destruct (unmarshalPayload _) as [payload|]; [|done]. cbn [mbind option_bind].
  case_bool_decide as E1; [done|]. case_bool_decide as E2; [done|]. cbn [mbind option_bind].
  assert (Hneq : ReasonDeploymentFailed ≠ ReasonDeploymentRecovered) by done.
  destruct (bool_decide (deReason e ∈ _)) eqn:Hr.
  - apply bool_decide_eq_true in Hr. rewrite !elem_of_cons, elem_of_nil in Hr. destruct Hr as [Hr|[Hr|[]]]; by rewrite Hr.
  - apply bool_decide_eq_false in Hr. rewrite !elem_of_cons, elem_of_nil in Hr. repeat (case_bool_decide; [try tauto; done|]). done.
Qed.

Lemma recoveryOfEvent_spec e t :
  match recoveryOfEvent e t with
  | None => episodeOf e = None
  | Some r =>
      episodeOf e = Some (rfID r) ∧ rfFailureStartedMs r = deTimestampMs e ∧
      rfRecoveredMs r = (if closes e then Some (deTimestampMs e) else None) ∧ rfDurationMs r = (if closes e then Some 0 else None)
  end.
Proof.
  unfold recoveryOfEvent, episodeOf. rewrite foldEvent_recovery. destruct (rolloutOf e) as [k|] eqn:Ek; [|done]. cbn [mbind option_bind].
  destruct (unmarshalPayload _) as [payload|] eqn:Ep; [|done]. cbn [mbind option_bind].
  assert (k = epRolloutID payload) as ->.
  { unfold rolloutOf in Ek. rewrite Ep in Ek. cbn in Ek. case_bool_decide; [done|]. case_bool_decide; [done|]. congruence. }
  destruct (bool_decide (deReason e ∈ _)); [|done]. cbn [mbind option_bind andb]. unfold validateRecoveryFact. cbn [healthRecovery rfID rfNamespace rfSource rfFailureStartedMs].
  destruct (blank (healthRecoveryID _ _)); [by rewrite andb_false_r|]. destruct (blank (eventNamespace _ _)); [by rewrite andb_false_r|].
  rewrite bool_decide_true by (by repeat constructor). cbn [negb]. rewrite Z.leb_antisym, !andb_true_r. destruct (0 <? deTimestampMs e); cbn [negb]; [|done].
  destruct (closes e); cbn; [|done]. rewrite Z.sub_diag. done.
Qed.

(** The events of an episode, in the order they were folded. *)
Definition episodeEvents (es : list (DeliveryEvent * Z)) (id : string) : list DeliveryEvent := filter (λ e, episodeOf e = Some id) es.*1.

(** The time of the last event that closes the episode. *)
Definition lastClosed (es : list DeliveryEvent) : option Z := last (deTimestampMs <$> filter (λ e, Is_true (closes e)) es).

Lemma lastClosed_snoc es e : lastClosed (es ++ [e]) = if closes e then Some (deTimestampMs e) else lastClosed es.
Proof.
  unfold lastClosed. rewrite filter_app. destruct (closes e) eqn:E.
  - rewrite filter_cons_True, filter_nil by (by rewrite E). rewrite fmap_app. apply last_snoc.
  - rewrite filter_cons_False, filter_nil by (rewrite E; intros []). by rewrite app_nil_r.
Qed.

(** The row of an episode, by the events folded into it. *)
Lemma recoveriesAfter_row es id :
  match recoveriesAfter es !! id with
  | None => episodeEvents es id = []
  | Some row =>
      (deTimestampMs <$> head (episodeEvents es id)) = Some (rfFailureStartedMs row) ∧
      rfRecoveredMs row = lastClosed (episodeEvents es id) ∧
      rfDurationMs row = (λ r, r - rfFailureStartedMs row) <$> rfRecoveredMs row
  end.
Proof.
  induction es as [|[e t] es IH] using rev_ind; [done|]. unfold recoveriesAfter, recoveriesOf, episodeEvents in *.
  rewrite omap_app, fmap_app, filter_app. cbn [omap list_omap fmap list_fmap fst snd]. pose proof (recoveryOfEvent_spec e t) as Hspec.
  destruct (recoveryOfEvent e t) as [r|] eqn:Er.
  - destruct Hspec as (Hep & Hstart & Hrec & Hdur). rewrite foldl_snoc. unfold upsertRecoveryFactQuery at 1.
    destruct (decide (rfID r = id)) as [<-|Hne].
    + rewrite filter_cons_True by done. rewrite lookup_insert_eq.
      destruct (foldl upsertRecoveryFactQuery ∅ (omap (λ et, recoveryOfEvent et.1 et.2) es) !! rfID r) as [row|].
      * destruct IH as (Hs & Hr & Hd). cbn [mergeRecoveryFact rfFailureStartedMs rfRecoveredMs rfDurationMs].
        rewrite filter_nil. rewrite lastClosed_snoc, Hrec. split_and!.
        -- rewrite head_app. destruct (head _); [done|]. cbn in Hs. done.
        -- rewrite Hr. by destruct (closes e).
        -- destruct (closes e); cbn; [done|]. rewrite Hd. by destruct (rfRecoveredMs row).
      * rewrite IH. cbn. rewrite Hstart, Hrec, Hdur. split_and!; [done| |].
        -- change ([e]) with ([] ++ [e]). rewrite lastClosed_snoc. by destruct (closes e).
        -- destruct (closes e); cbn; [|done]. by rewrite Z.sub_diag.
    + rewrite filter_cons_False by (rewrite Hep; congruence). rewrite filter_nil. rewrite app_nil_r.
      by rewrite lookup_insert_ne.
  - rewrite filter_cons_False by by rewrite Hspec. rewrite filter_nil. by rewrite !app_nil_r.
Qed.
End Facts.

(** An episode whose recovery was folded before its failure, because the
    failure reached the event store late, lasts no time at all: its start is the
    time of the recovery, whatever is folded later and however often.  The
    comment in the code says that this start is kept only when no failure was
    ever folded. *)
Theorem late_failure_measures_nothing {C : EventCodec} (failed recovered : DeliveryEvent) (tickMs : Z) (later : list (DeliveryEvent * Z)) (id : string) :
  episodeOf recovered = Some id → closes recovered = true →
  episodeOf failed = Some id → closes failed = false → deTimestampMs failed < deTimestampMs recovered →
  failed ∈ later.*1 → Forall (λ et, episodeOf et.1 = Some id → et.1 = failed ∨ et.1 = recovered) later →
  ∃ row, recoveriesAfter ((recovered, tickMs) :: later) !! id = Some row ∧
    rfFailureStartedMs row = deTimestampMs recovered ∧ rfDurationMs row = Some 0.
Proof.
  intros Hr Hrc Hf Hfc Hlt Hin Hall. pose proof (recoveriesAfter_row ((recovered, tickMs) :: later) id) as Hrow.
  assert (Hevs : episodeEvents ((recovered, tickMs) :: later) id = recovered :: episodeEvents later id).
  { unfold episodeEvents. cbn [fmap list_fmap fst]. by rewrite filter_cons_True. }
  rewrite Hevs in Hrow. destruct (recoveriesAfter _ !! id) as [row|]; [|done]. destruct Hrow as (Hs & Hrec & Hd). exists row. split; [done|].
  injection Hs as Hs. split; [done|]. rewrite Hd, Hrec.
  enough (lastClosed (recovered :: episodeEvents later id) = Some (deTimestampMs recovered)) as -> by (cbn; f_equal; lia).
  unfold lastClosed. rewrite filter_cons_True by by rewrite Hrc. cbn [fmap list_fmap].
  assert (Hsame : ∀ m, m ∈ deTimestampMs <$> filter (λ e, Is_true (closes e)) (episodeEvents later id) → m = deTimestampMs recovered).
  { intros m (e & -> & [Hc [Hid He]%list_elem_of_filter]%list_elem_of_filter)%list_elem_of_fmap.
    apply list_elem_of_fmap in He as ([e' t] & -> & He). rewrite Forall_forall in Hall. destruct (Hall _ He Hid) as [Heq|Heq]; cbn in *; rewrite Heq in *; [|done].
    by rewrite Hfc in Hc. }
  rewrite last_cons. destruct (last _) as [m|] eqn:El; [|done]. f_equal. by apply Hsame, last_Some_elem_of.
Qed.
