(* ===== verification/InsightsSweepSpec.v ===== *)
(** * Delivery insights: nothing is skipped

    Ticks over a shared database: the tables only grow in what they report, the
    watermarks of the events move in a fixed order, and every event that the
    adapter serves within the overlap is in the facts before a sweep starts
    after it. *)

From S2P Require Import Prelude GoStrings GoValue PlaneObjects InsightsCompute InsightsStore InsightsAggregator InsightsFactsSpec.

#[local] Open Scope Z_scope.

(** ** What a row reports, ordered *)

Definition outcomeRank (o : string) : Z :=
  if bool_decide (o = OutcomeFailed) then 2 else if bool_decide (o = OutcomeSuccess) then 1 else 0.

(** At least as early. *)
Definition noLater (a b : option Z) : Prop := ∀ m, a = Some m → ∃ n, b = Some n ∧ n <= m.

Definition factLe (f g : DeploymentFact) : Prop :=
  outcomeRank (dfOutcome f) <= outcomeRank (dfOutcome g) ∧ noLater (dfStartedMs f) (dfStartedMs g) ∧ noLater (dfReadyMs f) (dfReadyMs g).

Definition recoveryLe (r s : RecoveryFact) : Prop := is_Some (rfRecoveredMs r) → is_Some (rfRecoveredMs s).

Definition tableLe {A} (le : A → A → Prop) (t u : gmap string A) : Prop :=
  ∀ k x, t !! k = Some x → ∃ y, u !! k = Some y ∧ le x y.

Definition dbLe (db db' : InsightsDB) : Prop :=
  tableLe factLe (dbFacts db) (dbFacts db') ∧ tableLe recoveryLe (dbRecoveries db) (dbRecoveries db').

#[global] Instance noLater_preorder : PreOrder noLater.
Proof.
  split.
  - intros a m Hm. exists m. split; [done|lia].
  - intros a b c Hab Hbc m Hm. destruct (Hab m Hm) as (n & Hn & Hle). destruct (Hbc n Hn) as (p & Hp & Hle'). exists p. split; [done|lia].
Qed.

#[global] Instance factLe_preorder : PreOrder factLe.
Proof.
  split.
  - intros f. split; [lia|]. by split.
  - intros f g h (H1 & H2 & H3) (H1' & H2' & H3'). split; [lia|]. split; by etrans.
Qed.

#[global] Instance recoveryLe_preorder : PreOrder recoveryLe.
Proof. split; unfold recoveryLe; [intros r|intros r s t]; tauto. Qed.

#[global] Instance tableLe_preorder {A} (le : A → A → Prop) `{!PreOrder le} : PreOrder (tableLe le).
Proof.
  split.
  - intros t k x Hx. by exists x.
  - intros t u v Htu Huv k x Hx. destruct (Htu k x Hx) as (y & Hy & Hxy). destruct (Huv k y Hy) as (z & Hz & Hyz). exists z. split; [done|by etrans].
Qed.

#[global] Instance dbLe_preorder : PreOrder dbLe.
Proof. split; [intros db; by split|]. intros a b c [] []. split; by etrans. Qed.

Lemma earliest_noLater a b : noLater a (earliest a b) ∧ noLater b (earliest a b).
Proof.
  unfold earliest, noLater. destruct a as [a|], b as [b|]; try destruct (b <? a) eqn:E; split; intros m [= <-]; eexists; (split; [done|lia]).
Qed.

Lemma mergeOutcome_rank s e : e ∈ outcomes → outcomeRank s <= outcomeRank (mergeOutcome s e) ∧ outcomeRank e <= outcomeRank (mergeOutcome s e).
Proof.
  unfold outcomes. intros He. rewrite !elem_of_cons, elem_of_nil in He. unfold mergeOutcome, outcomeRank.
  destruct He as [-> | [-> | [-> | []]]]; repeat case_bool_decide; subst; try done; lia.
Qed.

Lemma merge_factLe s e : dfOutcome e ∈ outcomes → factLe s (mergeDeploymentFact s e) ∧ factLe e (mergeDeploymentFact s e).
Proof.
  intros Ho. unfold factLe. cbn. destruct (mergeOutcome_rank (dfOutcome s) (dfOutcome e) Ho) as [H1 H2].
  split; (split; [done|]); split; apply earliest_noLater.
Qed.

Lemma merge_recoveryLe s e : recoveryLe s (mergeRecoveryFact s e) ∧ recoveryLe e (mergeRecoveryFact s e).
Proof. unfold recoveryLe. cbn. unfold COALESCE. destruct (rfRecoveredMs e), (rfRecoveredMs s); eauto. Qed.

Lemma settled_le f f' : settled f' = settled f → dfReleaseUID f' = dfReleaseUID f ∧ factLe f f'.
Proof. destruct f, f'. unfold settled, factLe. cbn. intros Hs. injection Hs; intros; subst. split; [done|]. split; [lia|by split]. Qed.

(** ** Upserts only add *)

Section Upserts.
Context {A : Type} (key : A → string) (merge : A → A → A) (le : A → A → Prop) `{!PreOrder le} (ok : A → Prop).
Hypothesis merge_le : ∀ s e, ok e → le s (merge s e) ∧ le e (merge s e).

Lemma upserted_le t f : ok f → tableLe le t (upserted key merge t f) ∧ ∃ y, upserted key merge t f !! key f = Some y ∧ le f y.
Proof.
  intros Hf. unfold upserted. split.
  - intros k x Hx. destruct (decide (key f = k)) as [<-|Hne].
    + rewrite lookup_insert_eq, Hx. eexists. split; [done|]. by apply merge_le.
    + rewrite lookup_insert_ne by done. by exists x.
  - rewrite lookup_insert_eq. destruct (t !! key f) as [s|]; eexists; (split; [done|]); [by apply merge_le|done].
Qed.

Lemma upserted_all t fs :
  Forall ok fs → tableLe le t (foldl (upserted key merge) t fs) ∧
    ∀ f, f ∈ fs → ∃ y, foldl (upserted key merge) t fs !! key f = Some y ∧ le f y.
Proof.
  intros Hfs. revert t. induction Hfs as [|f fs Hf Hfs IH]; intros t; cbn [foldl]; [by split; [|intros f ?%elem_of_nil]|].
  destruct (upserted_le t f Hf) as [Hle (y & Hy & Hfy)]. destruct (IH (upserted key merge t f)) as [Hle' Hin]. split; [by etrans|].
  intros g [->|Hg]%elem_of_cons; [|by apply Hin]. destruct (Hle' _ _ Hy) as (z & Hz & Hyz). exists z. split; [done|by etrans].
Qed.
End Upserts.

Lemma validateDeploymentFact_ok now f g :
  validateDeploymentFact now f = Ok g → dfOutcome g ∈ outcomes ∧ dfReleaseUID g = dfReleaseUID f ∧ factLe f g.
Proof.
  unfold validateDeploymentFact. repeat (case_goal; [done|]). intros [= <-]. cbn.
  match goal with H : negb (bool_decide (_ ∈ [OutcomeInProgress; _; _])) = false |- _ =>
    apply negb_false_iff, bool_decide_eq_true in H; rename H into Ho end.
  split; [done|]. split; [done|]. unfold factLe. cbn. split; [|by split]. unfold outcomeRank.
  destruct (bool_decide (dfOutcome f = "")) eqn:E; [|lia]. apply bool_decide_eq_true in E. rewrite E. done.
Qed.

Lemma validateRecoveryFact_ok now f g : validateRecoveryFact now f = Ok g → rfID g = rfID f ∧ recoveryLe f g.
Proof. unfold validateRecoveryFact. repeat (case_goal; [done|]). intros [= <-]. split; [done|]. by intros Hr. Qed.

(** ** Runs *)

Definition eventMarks (db : InsightsDB) : Z * Z :=
  (default 0 (dbWatermarks db !! watermarkSourceEvents), default 0 (dbWatermarks db !! watermarkSourceEventsResume)).

(** Calls of a tick before its watermarks: rows only gain, the marks of the
    events stay, turns are taken. *)
Definition growing (w w' : World) : Prop :=
  dbLe (wDB w) (wDB w') ∧ eventMarks (wDB w') = eventMarks (wDB w) ∧ (wStep w <= wStep w')%nat.

#[global] Instance growing_preorder : PreOrder growing.
Proof.
  split; [intros w; by split_and!|]. intros a b c (H1 & H2 & H3) (H1' & H2' & H3'). split_and!; [by etrans|congruence|lia].
Qed.

Definition always {A} (R : World → World → Prop) (m : CM World A) : Prop := ∀ w, R w (m w).1.

Lemma CM_bind_inl {A B} (m : CM World A) (k : A → CM World B) w w' b :
  (m ≫= k) w = (w', inl b) → ∃ w1 x, m w = (w1, inl x) ∧ k x w1 = (w', inl b).
Proof. rewrite CM_bind_eq. destruct (m w) as [w1 [x|err]]; [eauto|done]. Qed.

Lemma recoveryOfEvent_tick `{EventCodec} e t t' r :
  foldEvent e t ≫= snd = Some r → ∃ r', foldEvent e t' ≫= snd = Some r' ∧ rfID r' = rfID r ∧ rfRecoveredMs r' = rfRecoveredMs r.
Proof.
  unfold foldEvent. destruct (unmarshalPayload _) as [payload|]; [|done]. cbn [mbind option_bind].
  repeat (case_bool_decide; [try done; cbn; intros Hf; simplify_eq; by eexists|]). done.
Qed.

Lemma result_map_image {A B} (f : A → result B) l ys x : result_map f l = Ok ys → x ∈ l → ∃ y, y ∈ ys ∧ f x = Ok y.
Proof.
  intros Hl%result_map_Ok [i Hi]%list_elem_of_lookup. destruct (Forall2_lookup_l _ _ _ _ _ Hl Hi) as (y & Hy & Hf).
  exists y. split; [by eapply list_elem_of_lookup_2|done].
Qed.

Section Always.
Context (R : World → World → Prop) `{!PreOrder R}.

Lemma always_ret {A} (a : A) : always R (mret a).
Proof. intros w. done. Qed.

Lemma always_fails {A} err : always R (fails (A := A) err).
Proof. intros w. done. Qed.

Lemma always_bind {A B} (m : CM World A) (f : A → CM World B) : always R m → (∀ a, always R (f a)) → always R (m ≫= f).
Proof.
  intros Hm Hf w. rewrite CM_bind_eq. specialize (Hm w). destruct (m w) as [w1 [a|err]]; [|done]. etrans; [exact Hm|apply Hf].
Qed.

Lemma always_attempt {A} (m : CM World A) : always R m → always R (attempt m).
Proof. intros Hm w. apply Hm. Qed.

Lemma always_orElse {A} (m : CM World A) f : always R m → always R (orElse m f).
Proof. intros Hm w. unfold orElse. specialize (Hm w). by destruct (m w) as [w1 [a|err]]. Qed.

Lemma always_valid_bind {A B} (r : result A) (k : A → CM World B) : (∀ x, r = Ok x → always R (k x)) → always R (valid r ≫= k).
Proof. destruct r as [x|msg]; intros Hk w; [by apply Hk|done]. Qed.

Lemma always_valid {A} (r : result A) : always R (valid r).
Proof. destruct r; [apply always_ret|apply always_fails]. Qed.
End Always.

Create HintDb runs discriminated.
#[export] Hint Resolve always_ret always_fails always_attempt always_orElse always_valid : runs.
#[export] Hint Extern 1 (PreOrder _) => typeclasses eauto : runs.

(** The two halves of a tick, from their calls. *)
Section Halves.
Context {MR : MapRange} {RR : RollupRange} {T : Turns} {C : EventCodec} (a : Aggregator) (R : World → World → Prop) `{!PreOrder R}.
Hypothesis R_watermark : ∀ source, always R (Watermark source).
Hypothesis R_ask : ∀ A (f : turn → A), always R (ask f).

Lemma entries_always changedSince tick st entries :
  (∀ c e i t win, always R (AttributeIncident c e i t win)) → always R (foldIncidentEntries a changedSince tick st entries).
Proof.
  intros Hattr. revert st. induction entries as [|entry entries IH]; intros st; cbn [foldIncidentEntries]; [auto with runs|].
  apply always_bind; [done| |done]. unfold foldIncidentEntry.
  destruct (parseEntryTime (ieTriggeredAt entry)); [|auto with runs]. cbv zeta. case_bool_decide; [auto with runs|].
  apply always_bind; [done|apply Hattr|]. intros attribution. case_goal; auto with runs.
Qed.

Lemma incidents_always tick :
  (∀ c e i t win, always R (AttributeIncident c e i t win)) → (∀ fs, always R (UpsertRecoveryFacts fs)) →
  always R (processIncidents a tick).
Proof.
  intros Hattr Hup. unfold processIncidents. apply always_bind; [done|apply R_watermark|]. intros watermark.
  apply always_bind; [done|apply R_watermark|]. intros resume.
  generalize (if lookbackStart a watermark tick <? resume then resume else lookbackStart a watermark tick).
  generalize (∅ : gset string), (@nil Z). induction incidentMaxPages as [|n IH]; intros seen touched cursor; cbn [incidentPages]; [auto with runs|].
  apply always_bind; [done| |].
  - unfold QueryIncidentEntries. apply always_bind; [done|apply R_ask|]. intros [|]; auto with runs.
  - intros entries. case_goal; [auto with runs|]. apply always_bind; [done| |].
    + unfold foldIncidentPage. apply always_bind; [done|by apply entries_always|]. intros st.
      apply always_bind; [done|apply Hup|]. auto with runs.
    + intros st. repeat (case_goal; [auto with runs|]). apply IH.
Qed.

Lemma events_always tick :
  (∀ fs, always R (UpsertDeploymentFacts fs)) → (∀ fs, always R (UpsertRecoveryFacts fs)) → always R (processEvents a tick).
Proof.
  intros Hf Hr. unfold processEvents. apply always_bind; [done|apply R_watermark|]. intros watermark.
  apply always_bind; [done|apply R_watermark|]. intros resume. apply always_bind; [done| |].
  - unfold FetchDeliveryEvents. apply always_bind; [done|apply R_ask|]. intros []; auto with runs.
  - intros [events complete]. apply always_bind; [done|apply Hf|]. intros _. apply always_bind; [done|apply Hr|]. auto with runs.
Qed.
End Halves.

(** What other sessions may do while a tick runs: rows gain, and the marks of the
    events are the tick's. *)
Definition quietOthers (T : Turns) : Prop :=
  ∀ n db, dbLe db (tnOthers (turnAt n) db) ∧ eventMarks (tnOthers (turnAt n) db) = eventMarks db.

Section Growing.
Context {MR : MapRange} {ML : MapRangeLaws} {RR : RollupRange} {T : Turns} {C : EventCodec} (a : Aggregator) (Hquiet : quietOthers T).

Lemma always_dbCall {A} (run : Z → InsightsDB → InsightsDB * A) :
  (∀ now db, dbLe db (run now db).1 ∧ eventMarks (run now db).1 = eventMarks db) → always growing (dbCall run).
Proof.
  intros Hrun w. unfold dbCall. destruct (Hquiet (wStep w) (wDB w)) as [H1 H2].
  destruct (Hrun (tnClock (turnAt (wStep w))) (tnOthers (turnAt (wStep w)) (wDB w))) as [H3 H4].
  destruct (tnFault _); cbn; (split_and!; cbn; [|congruence|lia]); [by etrans|done|by etrans].
Qed.

Lemma always_ask {A} (f : turn → A) : always growing (ask f).
Proof. intros w. destruct (Hquiet (wStep w) (wDB w)) as [H1 H2]. split_and!; cbn; [done|done|lia]. Qed.

Lemma always_processNow : always growing processNow.
Proof. intros w. done. Qed.

Lemma upsertFacts_growing facts : always growing (UpsertDeploymentFacts facts).
Proof.
  unfold UpsertDeploymentFacts. case_goal; [auto with runs|]. apply always_bind; [apply _|apply always_processNow|]. intros now.
  apply always_valid_bind; [apply _|]. intros gs Hgs%result_map_Ok. apply always_dbCall. intros _ db. split; [|done]. split; [|done].
  apply (upserted_all dfReleaseUID mergeDeploymentFact factLe (λ f, dfOutcome f ∈ outcomes) merge_factLe).
  clear -Hgs. induction Hgs as [|f g fs gs H _ IH]; [constructor|]. constructor; [by apply validateDeploymentFact_ok in H as [? _]|done].
Qed.

Lemma upsertRecoveries_growing facts : always growing (UpsertRecoveryFacts facts).
Proof.
  unfold UpsertRecoveryFacts. case_goal; [auto with runs|]. apply always_bind; [apply _|apply always_processNow|]. intros now.
  apply always_valid_bind; [apply _|]. intros gs _. apply always_dbCall. intros _ db. split; [|done]. split; [done|].
  apply (upserted_all rfID mergeRecoveryFact recoveryLe (λ _, True)); [intros; apply merge_recoveryLe|by apply Forall_true].
Qed.

Lemma upsertRollups_growing rollups : always growing (UpsertRollups rollups).
Proof.
  unfold UpsertRollups. case_goal; [auto with runs|]. apply always_bind; [apply _|apply always_processNow|]. intros now.
  apply always_valid_bind; [apply _|]. intros gs _. by apply always_dbCall.
Qed.

Lemma attribute_growing c e i t win : always growing (AttributeIncident c e i t win).
Proof.
  unfold AttributeIncident. repeat (case_goal; [auto with runs|]). apply always_bind; [apply _|apply always_processNow|]. intros now.
  apply always_dbCall. intros _ db. unfold attributeTx, attributeUpdate.
  destruct (liveAt _ _ _ _ _) as [f|]; [|done]. destruct (dbFacts db !! dfReleaseUID f) as [g|] eqn:Eg; [|by destruct db].
  case_goal; [|by destruct db]. split; [|done]. split; [|done]. cbn. intros k x Hx. destruct (decide (k = dfReleaseUID f)) as [->|Hne].
  - rewrite lookup_insert_eq. eexists. split; [done|]. simplify_eq. unfold factLe, failedByIncident. cbn. split; [|by split].
    unfold outcomeRank. repeat case_bool_decide; done.
  - rewrite lookup_insert_ne by done. by exists x.
Qed.

Lemma reads_growing {A} (f : InsightsDB → A) : always growing (dbCall (λ _ db, (db, f db))).
Proof. by apply always_dbCall. Qed.

Lemma pages_growing {A} (select : InsightsDB → list A) : always growing (pages select).
Proof.
  unfold pages. generalize 0, (@nil A). induction pageFuel as [|fuel IH]; intros offset out; cbn [pageAll]; [auto with runs|].
  apply always_bind; [apply _|by apply always_dbCall|]. intros page. case_goal; [auto with runs|apply IH].
Qed.

Lemma recompute_growing touched tick : always growing (recomputeRollups touched tick).
Proof.
  unfold recomputeRollups, QueryDeploymentFacts, QueryRecoveryFacts, readAllOrLimit. cbn [fqAllRows fqSortOrder recomputeQuery].
  apply always_bind; [apply _| |].
  - apply always_valid_bind; [apply _|]. intros asc _. apply always_bind; [apply _|apply pages_growing|]. auto with runs.
  - intros [facts n]. apply always_bind; [apply _|apply pages_growing|]. intros recoveries. apply upsertRollups_growing.
Qed.

Lemma incidents_growing tick : always growing (processIncidents a tick).
Proof.
  apply incidents_always; [apply _|intros; by apply always_dbCall|intros; apply always_ask|apply attribute_growing|apply upsertRecoveries_growing].
Qed.

(** ** The sweep *)

(** The rows of an event are there, and say at least what it says. *)
Definition reflected (db : InsightsDB) (e : DeliveryEvent) : Prop :=
  (∀ f t, factOfEvent e t = Some f → ∃ g, dbFacts db !! dfReleaseUID f = Some g ∧ factLe f g) ∧
  (∀ r t, foldEvent e t ≫= snd = Some r → ∃ s, dbRecoveries db !! rfID r = Some s ∧ recoveryLe r s).

Lemma reflected_mono db db' e : dbLe db db' → reflected db e → reflected db' e.
Proof.
  intros [Hf Hr] [Ef Er]. split.
  - intros f t H. destruct (Ef f t H) as (g & Hg & Hle). destruct (Hf _ _ Hg) as (g' & Hg' & Hle'). exists g'. split; [done|by etrans].
  - intros r t H. destruct (Er r t H) as (s & Hs & Hle). destruct (Hr _ _ Hs) as (s' & Hs' & Hle'). exists s'. split; [done|by etrans].
Qed.

Lemma upsertFacts_effect facts w w' :
  UpsertDeploymentFacts facts w = (w', inl ()) →
  ∀ f, f ∈ facts → ∃ g, dbFacts (wDB w') !! dfReleaseUID f = Some g ∧ factLe f g.
Proof.
  unfold UpsertDeploymentFacts. case_bool_decide as E; [by destruct facts; [intros _ f ?%elem_of_nil|]|].
  intros (w1 & now & [= <- <-] & (w2 & gs & Hgs & Hrun)%CM_bind_inl)%CM_bind_inl f Hf.
  destruct (result_map _ facts) as [gs'|] eqn:Eg; [|done]. injection Hgs as <- <-. pose proof Eg as Eg'. apply result_map_Ok in Eg.
  assert (Hok : Forall (λ f, dfOutcome f ∈ outcomes) gs').
  { clear -Eg. induction Eg as [|x g fs gs H _ IH]; [constructor|]. constructor; [by apply validateDeploymentFact_ok in H as [? _]|done]. }
  destruct (result_map_image _ _ _ _ Eg' Hf) as (g & Hg & (_ & Huid & Hle)%validateDeploymentFact_ok).
  unfold dbCall in Hrun. destruct (tnFault _); [|done..]. injection Hrun as <-. cbn.
  destruct (proj2 (upserted_all dfReleaseUID mergeDeploymentFact factLe _ merge_factLe (dbFacts (tnOthers (turnAt (wStep w)) (wDB w))) gs' Hok) g Hg)
    as (y & Hy & Hgy). rewrite <- Huid. exists y. split; [exact Hy|by etrans].
Qed.

Lemma upsertRecoveries_effect facts w w' :
  UpsertRecoveryFacts facts w = (w', inl ()) →
  ∀ f, f ∈ facts → ∃ g, dbRecoveries (wDB w') !! rfID f = Some g ∧ recoveryLe f g.
Proof.
  unfold UpsertRecoveryFacts. case_bool_decide as E; [by destruct facts; [intros _ f ?%elem_of_nil|]|].
  intros (w1 & now & [= <- <-] & (w2 & gs & Hgs & Hrun)%CM_bind_inl)%CM_bind_inl f Hf.
  destruct (result_map _ facts) as [gs'|] eqn:Eg; [|done]. injection Hgs as <- <-. pose proof Eg as Eg'. apply result_map_Ok in Eg.
  destruct (result_map_image _ _ _ _ Eg' Hf) as (g & Hg & (Hid & Hle)%validateRecoveryFact_ok).
  unfold dbCall in Hrun. destruct (tnFault _); [|done..]. injection Hrun as <-. cbn.
  destruct (proj2 (upserted_all rfID mergeRecoveryFact recoveryLe (λ _, True) (λ s e _, merge_recoveryLe s e)
                     (dbRecoveries (tnOthers (turnAt (wStep w)) (wDB w))) gs' ltac:(by apply Forall_true)) g Hg) as (y & Hy & Hgy).
  rewrite <- Hid. exists y. split; [exact Hy|by etrans].
Qed.

Lemma events_growing tick : always growing (processEvents a tick).
Proof.
  apply events_always; [apply _|intros; by apply always_dbCall|intros; apply always_ask|apply upsertFacts_growing|apply upsertRecoveries_growing].
Qed.

(** What the adapter gave a sweep. *)
Definition answered (n : nat) (from to : Z) (events : list DeliveryEvent) (complete : bool) : Prop :=
  ∃ total entries, tnAdapter (turnAt n) from to = AdapterEvents total entries ∧
    events = eventOfEntry <$> default [] entries ∧ complete = bool_decide (total = Z.of_nat (length events)).

Lemma watermark_read source w w' v :
  Watermark source w = (w', inl v) → v = default 0 (dbWatermarks (tnOthers (turnAt (wStep w)) (wDB w)) !! source) ∧ wDB w' = tnOthers (turnAt (wStep w)) (wDB w).
Proof. unfold Watermark, dbCall. destruct (tnFault _); [|done..]. by intros [= <- <-]. Qed.

Lemma processEvents_swept tick w w' touched p :
  processEvents a tick w = (w', inl (touched, p)) →
  ∃ n events complete, (wStep w <= n)%nat ∧
    answered n (sweepStart a (eventMarks (wDB w)).1 (eventMarks (wDB w)).2 tick) tick events complete ∧
    p = progressOf (eventMarks (wDB w)).1 (eventMarks (wDB w)).2 tick events complete ∧
    touched = events ≫= touchedBy tick ∧ ∀ e, e ∈ events → reflected (wDB w') e.
Proof.
  intros Hrun. unfold processEvents in Hrun. apply CM_bind_inl in Hrun as (w1 & watermark & Hw & Hrun).
  pose proof (watermark_read _ _ _ _ Hw) as [Hwm _]. pose proof (always_dbCall (λ _ db, (db, default 0 (dbWatermarks db !! watermarkSourceEvents))) ltac:(done) w) as G1.
  change (growing w (Watermark watermarkSourceEvents w).1) in G1. rewrite Hw in G1. cbn [fst] in G1.
  apply CM_bind_inl in Hrun as (w2 & resume & Hr & Hrun). pose proof (watermark_read _ _ _ _ Hr) as [Hrm _].
  pose proof (always_dbCall (λ _ db, (db, default 0 (dbWatermarks db !! watermarkSourceEventsResume))) ltac:(done) w1) as G2.
  change (growing w1 (Watermark watermarkSourceEventsResume w1).1) in G2. rewrite Hr in G2. cbn [fst] in G2.
  assert (watermark = (eventMarks (wDB w)).1) as ->.
  { rewrite Hwm. by rewrite <- (proj2 (Hquiet (wStep w) (wDB w))). }
  assert (resume = (eventMarks (wDB w)).2) as ->.
  { rewrite Hrm. destruct G1 as (_ & <- & _). by rewrite <- (proj2 (Hquiet (wStep w1) (wDB w1))). }
  apply CM_bind_inl in Hrun as (w3 & [events complete] & Hf & Hrun). exists (wStep w2), events, complete.
  destruct G1 as (_ & _ & G1), G2 as (_ & _ & G2). split; [lia|]. split; [|].
  { unfold FetchDeliveryEvents in Hf. apply CM_bind_inl in Hf as (w2' & answer & [= <- <-] & Hf).
    destruct (tnAdapter _ _ _) as [total entries|msg|msg] eqn:Ea; [|done..]. injection Hf as <- <- <-. by exists total, entries. }
  apply CM_bind_inl in Hrun as (w4 & [] & Hfacts & Hrun). apply CM_bind_inl in Hrun as (w5 & [] & Hrecs & [= <- <- <-]).
  split; [done|]. split; [done|]. intros e He. split.
  - intros f t Hf'. destruct (factOfEvent_tick e t tick f Hf') as (f' & Hf'' & Hset).
    destruct (upsertFacts_effect _ _ _ Hfacts f') as (g & Hg & Hle); [apply list_elem_of_omap; by exists e|].
    pose proof (upsertRecoveries_growing (foldedRecoveries events tick) w4) as [[Hgrow _] _]. rewrite Hrecs in Hgrow. cbn [fst] in Hgrow.
    destruct (Hgrow _ _ Hg) as (g' & Hg' & Hle'). exists g'. destruct (settled_le _ _ Hset) as [Huid Hff'].
    split; [by rewrite <- Huid|]. etrans; [exact Hff'|]. by etrans.
  - intros r t Hr'. destruct (recoveryOfEvent_tick e t tick r Hr') as (r' & Hr'' & Hid & Hrec).
    destruct (upsertRecoveries_effect _ _ _ Hrecs r') as (s & Hs & Hle); [apply list_elem_of_omap; by exists e|].
    exists s. rewrite <- Hid. split; [done|]. unfold recoveryLe in *. by rewrite <- Hrec.
Qed.

(** ** The watermarks *)

(** A mark is set, or the call failed and it may not be; success means that it
    is. *)
Lemma setMark_run source ms w :
  blank source = false →
  let r := setMark a source ms w in
  dbLe (wDB w) (wDB r.1) ∧
  (eventMarks (wDB r.1) = eventMarks (wDB w) ∧ (∃ err, r.2 = inr err)
   ∨ eventMarks (wDB r.1) = eventMarks (setWatermarkQuery source ms (tnOthers (turnAt (wStep w)) (wDB w)))).
Proof.
  intros Hsource. unfold setMark, SetWatermark. rewrite Hsource. change (blank aggregationLease) with false. cbv iota.
  destruct (Hquiet (wStep w) (wDB w)) as [Hle Hm]. rewrite CM_bind_eq. unfold dbCall, setWatermarkFencedQuery.
  set (db := tnOthers (turnAt (wStep w)) (wDB w)) in *.
  destruct (dbLeases db !! aggregationLease) as [[h expires]|]; [destruct (bool_decide (h = agHolder a))|]; destruct (tnFault _); cbn; eauto.
Qed.

Lemma eventMarks_set source ms db :
  eventMarks (setWatermarkQuery source ms db) =
    (if bool_decide (source = watermarkSourceEvents) then ms else (eventMarks db).1,
     if bool_decide (source = watermarkSourceEventsResume) then ms else (eventMarks db).2).
Proof.
  unfold eventMarks, setWatermarkQuery. cbn. f_equal; case_bool_decide; subst; [by rewrite lookup_insert_eq|by rewrite lookup_insert_ne|by rewrite lookup_insert_eq|by rewrite lookup_insert_ne].
Qed.

Lemma setMark_marks source ms w :
  blank source = false →
  let w' := (setMark a source ms w).1 in
  eventMarks (wDB w') = eventMarks (wDB w) ∧ (∃ err, (setMark a source ms w).2 = inr err)
  ∨ eventMarks (wDB w') = (if bool_decide (source = watermarkSourceEvents) then ms else (eventMarks (wDB w)).1,
                           if bool_decide (source = watermarkSourceEventsResume) then ms else (eventMarks (wDB w)).2).
Proof.
  intros Hs. destruct (setMark_run source ms w Hs) as [_ [H|H]]; [by left|right]. cbv zeta. rewrite H, eventMarks_set.
  by rewrite (proj2 (Hquiet (wStep w) (wDB w))).
Qed.

Lemma advance_run tick resume p w :
  let w' := (advanceWatermarks a tick resume p w).1 in
  dbLe (wDB w) (wDB w') ∧
  match p with
  | None => eventMarks (wDB w') = eventMarks (wDB w)
  | Some p =>
      eventMarks (wDB w') = eventMarks (wDB w) ∨ eventMarks (wDB w') = (watermarkMs p, (eventMarks (wDB w)).2)
      ∨ eventMarks (wDB w') = (watermarkMs p, resumeMs p)
  end.
Proof.
  cbv zeta. unfold advanceWatermarks. rewrite CM_bind_eq.
  set (m1 := if 0 <? resume then resume else tick).
  pose proof (proj1 (setMark_run watermarkSourceIncidents m1 w eq_refl)) as L1. pose proof (setMark_marks watermarkSourceIncidents m1 w eq_refl) as M1.
  cbv zeta in L1, M1. destruct (setMark a watermarkSourceIncidents m1 w) as [w1 [[]|e1]]; cbn [fst snd] in *;
    [|split; [done|]; destruct M1 as [[M1 _]|M1]; rewrite M1; destruct (eventMarks (wDB w)), p; cbn; auto].
  assert (K1 : eventMarks (wDB w1) = eventMarks (wDB w)) by (destruct M1 as [[M1 _]|M1]; rewrite M1; [done|by destruct (eventMarks (wDB w))]).
  rewrite CM_bind_eq. pose proof (proj1 (setMark_run watermarkSourceIncidentsResume resume w1 eq_refl)) as L2.
  pose proof (setMark_marks watermarkSourceIncidentsResume resume w1 eq_refl) as M2. cbv zeta in L2, M2.
  destruct (setMark a watermarkSourceIncidentsResume resume w1) as [w2 r2]; cbn [fst snd] in *.
  assert (K2 : eventMarks (wDB w2) = eventMarks (wDB w)).
  { rewrite <- K1. destruct M2 as [[M2 _]|M2]; rewrite M2; [done|by destruct (eventMarks (wDB w1))]. }
  assert (L : dbLe (wDB w) (wDB w2)) by by etrans. destruct r2 as [[]|e2]; [|by destruct p; auto]. destruct p as [p|]; [|done].
  rewrite CM_bind_eq. pose proof (proj1 (setMark_run watermarkSourceEvents (watermarkMs p) w2 eq_refl)) as L3.
  pose proof (setMark_marks watermarkSourceEvents (watermarkMs p) w2 eq_refl) as M3. cbv zeta in L3, M3. rewrite K2 in M3.
  destruct (setMark a watermarkSourceEvents (watermarkMs p) w2) as [w3 r3]; cbn [fst snd] in *.
  assert (L' : dbLe (wDB w) (wDB w3)) by by etrans. destruct r3 as [[]|e3]; [|split; [done|]; cbn; destruct M3 as [[M3 _]|M3]; rewrite M3; auto].
  destruct M3 as [[_ [e3 [=]]]|M3]. cbn in M3.
  pose proof (proj1 (setMark_run watermarkSourceEventsResume (resumeMs p) w3 eq_refl)) as L4.
  pose proof (setMark_marks watermarkSourceEventsResume (resumeMs p) w3 eq_refl) as M4. cbv zeta in L4, M4. rewrite M3 in M4.
  split; [by etrans|]. destruct M4 as [[M4 _]|M4]; rewrite M4; auto.
Qed.

(** ** A tick *)

Definition tickMsOf (w : World) : Z := tnNow (turnAt (wStep w)).

(** What a sweep that ended found and left. *)
Definition sweptTo (w : World) (db : InsightsDB) (p : eventsProgress) : Prop :=
  let '(W, R) := eventMarks (wDB w) in
  ∃ n events complete, (wStep w <= n)%nat ∧ answered n (sweepStart a W R (tickMsOf w)) (tickMsOf w) events complete ∧
    p = progressOf W R (tickMsOf w) events complete ∧ ∀ e, e ∈ events → reflected db e.

Lemma sweepEvents_run tick w :
  growing w (sweepEvents a tick w).1 ∧
  ∀ touched p, (sweepEvents a tick w).2 = inl (touched, Some p) →
    ∃ n events complete, (wStep w <= n)%nat ∧
      answered n (sweepStart a (eventMarks (wDB w)).1 (eventMarks (wDB w)).2 tick) tick events complete ∧
      p = progressOf (eventMarks (wDB w)).1 (eventMarks (wDB w)).2 tick events complete ∧
      touched = events ≫= touchedBy tick ∧ ∀ e, e ∈ events → reflected (wDB (sweepEvents a tick w).1) e.
Proof.
  unfold sweepEvents. rewrite CM_bind_eq. unfold EventsActive. cbv beta zeta iota. destruct (agEvents a && _); [|by split].
  rewrite CM_bind_eq. unfold attempt. pose proof (events_growing tick w) as Hg. pose proof (processEvents_swept tick w) as Hs.
  destruct (processEvents a tick w) as [w1 [[touched p]|err]]; cbn [fst snd] in *.
  - split; [done|]. intros touched' p' [= <- <-]. by apply (Hs w1 touched p).
  - case_goal; cbn; (split; [|done]); [|done]. destruct Hg as (H1 & H2 & H3). by split_and!.
Qed.

Lemma sweepEvents_idle tick w touched : (sweepEvents a tick w).2 = inl (touched, None) → touched = [].
Proof.
  unfold sweepEvents. rewrite CM_bind_eq. unfold EventsActive. cbv beta zeta iota. destruct (agEvents a && _); [|by intros [= <-]].
  rewrite CM_bind_eq. unfold attempt. destruct (processEvents a tick w) as [w1 [[touched' p]|err]]; cbn [fst snd]; [done|].
  case_goal; [|done]. by intros [= <-].
Qed.

Lemma RunOnce_run w :
  let w' := (RunOnce a w).1 in
  dbLe (wDB w) (wDB w') ∧
  (eventMarks (wDB w') = eventMarks (wDB w)
   ∨ ∃ p, sweptTo w (wDB w') p ∧
       (eventMarks (wDB w') = (watermarkMs p, (eventMarks (wDB w)).2) ∨ eventMarks (wDB w') = (watermarkMs p, resumeMs p))).
Proof.
  cbv zeta. unfold RunOnce. rewrite CM_bind_eq. unfold processNow. cbv beta iota. fold (tickMsOf w). set (tick := tickMsOf w).
  rewrite CM_bind_eq. pose proof (always_orElse growing (processIncidents a tick) (wrapErrorf "incidents: ") (incidents_growing tick) w) as G1.
  destruct (orElse _ _ w) as [w1 [[touched1 resume]|e1]]; cbn [fst snd] in *; [|destruct G1 as (? & ? & ?); auto].
  rewrite CM_bind_eq. destruct (sweepEvents_run tick w1) as [G2 Hs].
  destruct (sweepEvents a tick w1) as [w2 [[touched2 p]|e2]]; cbn [fst snd] in *;
    [|assert (G : growing w w2) by (by etrans); destruct G as (? & ? & ?); auto].
  rewrite CM_bind_eq.
  set (recompute := if bool_decide (length (touched1 ++ touched2) = 0%nat) then mret ()
                    else orElse (recomputeRollups (touched1 ++ touched2) tick) (wrapErrorf "rollups: ")).
  assert (G3 : growing w2 (recompute w2).1).
  { subst recompute. case_goal; [done|]. apply always_orElse, recompute_growing. }
  assert (G : growing w w2) by by etrans.
  destruct (recompute w2) as [w3 [[]|e3]]; cbn [fst snd] in *; [|destruct (transitivity G G3) as (? & ? & ?); auto].
  pose proof (advance_run tick resume p w3) as [L A]. cbv zeta in L, A. destruct (transitivity G G3) as (L' & K & _). rewrite K in A.
  split; [by etrans|]. destruct p as [p|]; [|by left]. destruct A as [A|A]; [by left|]. right. exists p. split; [|done].
  specialize (Hs touched2 p eq_refl). destruct G1 as (_ & K1 & S1), G3 as (L3 & _ & _). rewrite K1 in Hs.
  unfold sweptTo. destruct (eventMarks (wDB w)) as [W R]. cbn [fst snd] in Hs. destruct Hs as (n & events & complete & Hn & Ha & Hp & _ & Hr).
  exists n, events, complete. split_and!; [lia|done|done|]. intros e He. eapply reflected_mono; [|by apply Hr]. by etrans.
Qed.
End Growing.

(** ** Every event is swept *)

Section Complete.
Context {C : EventCodec} (history : DeliveryEvent → Prop) (lag overlap horizon : Z).

(** What a tick relies on: other sessions leave its marks alone, the clock does
    not go back, an event is served once [lag] has passed since its time, a page
    that is cut leaves out the latest events only, and it is cut at least the
    overlap before the tick. *)
Record servedTurns (T : Turns) : Prop := {
  served_quiet : quietOthers T;
  served_clock : ∀ n m, (n <= m)%nat → 0 < tnNow (turnAt n) <= tnNow (turnAt m);
  served_events : ∀ n from to events complete, answered n from to events complete →
    ∀ e, history e → from <= deTimestampMs e < to → deTimestampMs e + lag <= tnNow (turnAt n) →
      e ∈ events ∨ complete = false ∧ ∀ l, last events = Some l → deTimestampMs l <= deTimestampMs e;
  served_capped : ∀ n from to events, answered n from to events false → ∀ l, last events = Some l → deTimestampMs l <= to - overlap
}.

(** A tick of any replica, whatever fails in it, or a change by others. *)
Inductive tickStep : InsightsDB → InsightsDB → Prop :=
  | tick_runs `{MR : MapRange, !MapRangeLaws, RR : RollupRange} (T : Turns) (a : Aggregator) (w : World) :
      servedTurns T → cfgOverlap (agCfg a) = overlap →
      ((eventMarks (wDB w)).1 = 0 → tickMsOf w - 14 * dayMs <= horizon) →
      tickStep (wDB w) (wDB (RunOnce a w).1)
  | others_write db db' : dbLe db db' → eventMarks db' = eventMarks db → tickStep db db'.

(** Times before the start of the next sweep. *)
Definition beforeNextSweep (marks : Z * Z) (ms : Z) : Prop :=
  if 0 <? marks.2 then ms < marks.2 else marks.1 ≠ 0 ∧ ms < marks.1 - overlap.

#[local] Instance beforeNextSweep_dec marks ms : Decision (beforeNextSweep marks ms).
Proof. unfold beforeNextSweep. destruct (0 <? marks.2); apply _. Defined.

Definition caughtUp (db : InsightsDB) : Prop :=
  ∀ e, history e → horizon <= deTimestampMs e → beforeNextSweep (eventMarks db) (deTimestampMs e) → reflected db e.

Context (Hlag : lag <= overlap) (Hoverlap : 0 <= overlap).

(** The events a sweep has to find: those before its new mark. *)
Lemma sweep_finds (T : Turns) (a : Aggregator) w db p e :
  servedTurns T → cfgOverlap (agCfg a) = overlap → ((eventMarks (wDB w)).1 = 0 → tickMsOf w - 14 * dayMs <= horizon) →
  sweptTo a w db p → history e → horizon <= deTimestampMs e →
  ¬ beforeNextSweep (eventMarks (wDB w)) (deTimestampMs e) →
  beforeNextSweep (watermarkMs p, (eventMarks (wDB w)).2) (deTimestampMs e) ∨ beforeNextSweep (watermarkMs p, resumeMs p) (deTimestampMs e) →
  reflected db e.
Proof.
  intros HT Ha Hfirst Hs He Hh Hnot Hnow. unfold sweptTo in Hs. destruct (eventMarks (wDB w)) as [W R]. cbn [fst snd] in *.
  destruct Hs as (n & events & complete & Hn & Hans & -> & Hr). set (tick := tickMsOf w) in *.
  assert (Hclock : 0 < tick <= tnNow (turnAt n)) by by apply (served_clock T HT).
  assert (Hfrom : sweepStart a W R tick <= deTimestampMs e).
  { unfold sweepStart. unfold beforeNextSweep in Hnot. cbn [fst snd] in Hnot. destruct (0 <? R); [lia|].
    case_bool_decide as EW; [rewrite AddDate_days; specialize (Hfirst EW); lia|]. rewrite Ha. lia. }
  pose proof (served_events T HT n _ _ _ _ Hans e He) as Hserved. apply Hr.
  destruct complete; cbn [progressOf watermarkMs resumeMs] in Hnow.
  - assert (deTimestampMs e < tick - overlap).
    { unfold beforeNextSweep in *; cbn [fst snd] in *. destruct (0 <? R); cbn in Hnow; lia. }
    destruct Hserved as [|[[=] _]]; [lia|lia|done].
  - unfold progressOf in Hnow. destruct (last events) as [l|] eqn:El; cbn [watermarkMs resumeMs] in Hnow; [|by destruct Hnow].
    pose proof (served_capped T HT n _ _ _ Hans l El) as Hcap.
    assert (Hlt : deTimestampMs e < deTimestampMs l).
    { unfold beforeNextSweep in *; cbn [fst snd] in *. destruct (0 <? R), (0 <? deTimestampMs l); lia. }
    destruct Hserved as [|[_ Hafter]]; [lia|lia|done|]. specialize (Hafter l eq_refl). lia.
Qed.

Lemma tickStep_caughtUp db db' : tickStep db db' → caughtUp db → caughtUp db'.
Proof.
  intros [MR ML RR T a w HT Ha Hfirst|db0 db0' Hle Hm] Hinv e He Hh Hnext.
  - destruct (RunOnce_run a (served_quiet T HT) w) as [Hle Hmarks]. cbv zeta in *.
    destruct Hmarks as [Hm|(p & Hs & Hm)]; [rewrite Hm in Hnext; eapply reflected_mono; [done|by apply Hinv]|].
    destruct (decide (beforeNextSweep (eventMarks (wDB w)) (deTimestampMs e))) as [Hb|Hb]; [eapply reflected_mono; [done|by apply Hinv]|].
    eapply sweep_finds; try done. destruct Hm as [Hm|Hm]; rewrite Hm in Hnext; auto.
  - rewrite Hm in Hnext. eapply reflected_mono; [done|by apply Hinv].
Qed.
End Complete.

