(* ===== verification/InsightsLeaseSpec.v ===== *)
(** * Delivery insights: the lease, and a tick that cannot end

    A lease is held by one replica until it expires on the clock of the database,
    and only its holder moves the watermarks; an event without a time stops the
    aggregation. *)

From S2P Require Import Prelude GoStrings GoValue PlaneObjects InsightsCompute InsightsStore InsightsAggregator.
From S2P Require Import InsightsFactsSpec InsightsSweepSpec.

#[local] Open Scope Z_scope.

(** ** The lease *)

(** What sessions do to the lease, or to anything else. *)
Inductive leaseAct :=
  | LeaseAcquire (holder : string) (ttlMs : Z)
  | LeaseRelease (holder : string)
  | LeaseWatermark (source : string) (ms : Z) (holder : string)
  | LeaseOther (change : InsightsDB → InsightsDB).

Definition leaseRun (name : string) (db : InsightsDB) (act : Z * leaseAct) : InsightsDB :=
  match act.2 with
  | LeaseAcquire holder ttlMs => (acquireLeaseQuery name holder ttlMs act.1 db).1
  | LeaseRelease holder => releaseLeaseQuery name holder db
  | LeaseWatermark source ms holder => (setWatermarkFencedQuery source ms name holder db).1
  | LeaseOther change => change db
  end.

(** Acts at a time of the database before [until] that do not give up the lease
    of [h]. *)
Definition leaseKept (h : string) (from until : Z) (act : Z * leaseAct) : Prop :=
  from <= act.1 < until ∧
  match act.2 with
  | LeaseAcquire holder ttlMs => holder = h → until <= from + ttlMs
  | LeaseRelease holder => holder ≠ h
  | LeaseWatermark _ _ _ => True
  | LeaseOther change => ∀ db, dbLeases (change db) = dbLeases db
  end.

Definition heldBy (name h : string) (until : Z) (db : InsightsDB) : Prop :=
  ∃ expires, dbLeases db !! name = Some (h, expires) ∧ until <= expires.

Lemma leaseRun_held name h from until db act :
  leaseKept h from until act → heldBy name h until db → heldBy name h until (leaseRun name db act).
Proof.
  intros [Hclock Hact] (expires & Hl & He). unfold leaseRun. destruct act as [clock [holder ttl|holder|source ms holder|change]]; cbn [fst snd] in *.
  - unfold acquireLeaseQuery. rewrite Hl. rewrite (proj2 (Z.leb_gt expires clock)) by lia. cbn [orb].
    case_bool_decide as E; [|by exists expires]. subst holder. exists (clock + ttl). cbn. rewrite lookup_insert_eq. split; [done|].
    specialize (Hact eq_refl). lia.
  - unfold releaseLeaseQuery. rewrite Hl. rewrite bool_decide_false by done. by exists expires.
  - unfold setWatermarkFencedQuery. rewrite Hl. case_bool_decide; by exists expires.
  - exists expires. by rewrite Hact.
Qed.

(** C22: A replica that got the lease for a time has it for that time: until it
    expires on the clock of the database or its holder releases it, and whatever
    else sessions do, every other replica that asks is refused, no other replica
    moves a watermark, and the holder can renew and move its own; once it has
    expired, anyone can take it. *)
Theorem lease_exclusive name h ttlMs now db acts :
  0 < ttlMs → (acquireLeaseQuery name h ttlMs now db).2 = 1 →
  Forall (leaseKept h now (now + ttlMs)) acts →
  let db' := foldl (leaseRun name) (acquireLeaseQuery name h ttlMs now db).1 acts in
  (∀ clock h' ttl', now <= clock < now + ttlMs → h' ≠ h → acquireLeaseQuery name h' ttl' clock db' = (db', 0)) ∧
  (∀ source ms h', h' ≠ h → setWatermarkFencedQuery source ms name h' db' = (db', 0)) ∧
  (∀ clock ttl', (acquireLeaseQuery name h ttl' clock db').2 = 1) ∧
  (∀ source ms, setWatermarkFencedQuery source ms name h db' = (setWatermarkQuery source ms db', 1)) ∧
  ∃ expires, ∀ clock h' ttl', expires <= clock → (acquireLeaseQuery name h' ttl' clock db').2 = 1.
Proof.
  intros Httl Hacq Hacts db'. assert (Hheld : heldBy name h (now + ttlMs) db').
  { assert (H0 : heldBy name h (now + ttlMs) (acquireLeaseQuery name h ttlMs now db).1).
    { exists (now + ttlMs). unfold acquireLeaseQuery in *. destruct (dbLeases db !! name) as [[h0 e0]|]; [destruct ((e0 <=? now) || _); [|done]|];
        cbn; rewrite lookup_insert_eq; (split; [done|lia]). }
    subst db'. revert H0. generalize (acquireLeaseQuery name h ttlMs now db).1.
    induction Hacts as [|act acts Hact _ IH]; intros db1 H1; [done|]. cbn [foldl]. apply IH. by eapply leaseRun_held. }
  destruct Hheld as (expires & Hl & He). unfold acquireLeaseQuery, setWatermarkFencedQuery. rewrite Hl. split_and!.
  - intros clock h' ttl' Hc Hne. rewrite (proj2 (Z.leb_gt expires clock)) by lia. by rewrite bool_decide_false.
  - intros source ms h' Hne. by rewrite bool_decide_false.
  - intros clock ttl'. rewrite (bool_decide_true (h = h)) by done. by rewrite orb_true_r.
  - intros source ms. by rewrite bool_decide_true.
  - exists expires. intros clock h' ttl' Hc. by rewrite (proj2 (Z.leb_le expires clock)).
Qed.

(** ** An event without a time *)

Definition untagged {A} (m : CM World A) : Prop := ∀ w err, (m w).2 = inr err → ceTags err = [].

Lemma untagged_bind {A B} (m : CM World A) (f : A → CM World B) : untagged m → (∀ x, untagged (f x)) → untagged (m ≫= f).
Proof.
  intros Hm Hf w err. rewrite CM_bind_eq. specialize (Hm w). destruct (m w) as [w1 [x|e]]; [apply Hf|]. intros [= <-]. by apply Hm.
Qed.

Lemma untagged_ret {A} (x : A) : untagged (mret x).
Proof. done. Qed.

Lemma untagged_plain {A} msg : untagged (fails (A := A) (plainErr msg)).
Proof. by intros w err [= <-]. Qed.

Lemma untagged_valid {A} (r : result A) : untagged (valid r).
Proof. destruct r; [apply untagged_ret|apply untagged_plain]. Qed.

#[export] Hint Resolve untagged_ret untagged_plain untagged_valid : runs.

Section Poison.
Context {MR : MapRange} {ML : MapRangeLaws} {RR : RollupRange} {T : Turns} {C : EventCodec} (a : Aggregator).

Lemma untagged_dbCall {A} (run : Z → InsightsDB → InsightsDB * A) : untagged (dbCall run).
Proof. intros w err. unfold dbCall. destruct (tnFault _); [done|by intros [= <-]..]. Qed.

(** An event that opens or closes an episode and has no time. *)
Definition untimed (e : DeliveryEvent) : Prop :=
  is_Some (rolloutOf e) ∧ deReason e ∈ [ReasonDeploymentFailed; ReasonDeploymentRecovered] ∧ deTimestampMs e <= 0.

Lemma untimed_recovery e tick : untimed e → ∃ r, foldEvent e tick ≫= snd = Some r ∧ rfFailureStartedMs r <= 0.
Proof.
  intros ([k Hk] & Hr & Ht). unfold rolloutOf in Hk. unfold foldEvent. destruct (unmarshalPayload _) as [payload|]; [|done].
  cbn [mbind option_bind] in *. case_bool_decide as E1; [done|]. case_bool_decide as E2; [done|].
  rewrite !elem_of_cons, elem_of_nil in Hr. destruct Hr as [Hr|[Hr|[]]]; rewrite Hr; cbn; by eexists.
Qed.

Lemma recoveries_refused facts f w : f ∈ facts → rfFailureStartedMs f <= 0 → ∃ err, (UpsertRecoveryFacts facts w).2 = inr err ∧ ceTags err = [].
Proof.
  intros Hf Hle. unfold UpsertRecoveryFacts. rewrite bool_decide_false by (destruct facts; [by apply elem_of_nil in Hf|done]).
  rewrite CM_bind_eq. cbn. destruct (result_map _ facts) as [gs|msg] eqn:E; cbn; [|by eexists].
  destruct (result_map_image _ _ _ _ E Hf) as (g & _ & Hg). exfalso. unfold validateRecoveryFact in Hg.
  rewrite (proj2 (Z.leb_le _ 0) Hle) in Hg. by repeat case_match.
Qed.

(** Every answer fails, or has an event without a time among its events. *)
Definition poisoned : Prop :=
  ∀ n from to, match tnAdapter (turnAt n) from to with
    | AdapterEvents _ entries => ∃ e, e ∈ eventOfEntry <$> default [] entries ∧ untimed e
    | AdapterNotImplemented _ => False
    | AdapterFailed _ => True
    end.

Lemma poisoned_sweep tick w : poisoned → ∃ err, (processEvents a tick w).2 = inr err ∧ ceTags err = [].
Proof.
  intros Hp. unfold processEvents. rewrite CM_bind_eq. pose proof (untagged_dbCall (λ _ db, (db, default 0 (dbWatermarks db !! watermarkSourceEvents))) w) as U1.
  change (∀ err, (Watermark watermarkSourceEvents w).2 = inr err → ceTags err = []) in U1.
  destruct (Watermark watermarkSourceEvents w) as [w1 [watermark|e1]]; cbn [snd] in *; [|eauto]. rewrite CM_bind_eq.
  pose proof (untagged_dbCall (λ _ db, (db, default 0 (dbWatermarks db !! watermarkSourceEventsResume))) w1) as U2.
  change (∀ err, (Watermark watermarkSourceEventsResume w1).2 = inr err → ceTags err = []) in U2.
  destruct (Watermark watermarkSourceEventsResume w1) as [w2 [resume|e2]]; cbn [snd] in *; [|eauto]. rewrite CM_bind_eq.
  unfold FetchDeliveryEvents. rewrite CM_bind_eq. unfold ask. cbv beta iota zeta.
  specialize (Hp (wStep w2) (sweepStart a watermark resume tick) tick). destruct (tnAdapter _ _ _) as [total entries|msg|msg]; [|done|by eexists].
  cbn [mret CM_ret]. destruct Hp as (e & He & Hu). destruct (untimed_recovery e tick Hu) as (r & Hr & Hle). rewrite CM_bind_eq.
  set (events := eventOfEntry <$> default [] entries) in *. set (w3 := takeTurn w2 _).
  assert (U3 : untagged (UpsertDeploymentFacts (foldedFacts events tick))).
  { unfold UpsertDeploymentFacts. case_goal; [auto with runs|]. apply untagged_bind; [done|]. intros now.
    apply untagged_bind; [auto with runs|]. intros gs. apply untagged_dbCall. }
  specialize (U3 w3). destruct (UpsertDeploymentFacts _ w3) as [w4 [[]|e4]]; cbn [snd] in *; [|eauto]. rewrite CM_bind_eq.
  destruct (recoveries_refused (foldedRecoveries events tick) r w4) as (err & Herr & Htags); [apply list_elem_of_omap; by exists e|done|].
  destruct (UpsertRecoveryFacts _ w4) as [w5 [[]|e5]]; [done|]. exists err. cbn in *. split; [congruence|done].
Qed.

(** No call of a tick but [standDown] changes when the events are asked for. *)
Definition sameStandDown (w w' : World) : Prop := wUnavailableUntilMs w' = wUnavailableUntilMs w.
#[local] Instance sameStandDown_preorder : PreOrder sameStandDown.
Proof. split; unfold sameStandDown; [by intros|intros x y z H1 H2; congruence]. Qed.

Lemma dbCall_standDown {A} (run : Z → InsightsDB → InsightsDB * A) : always sameStandDown (dbCall run).
Proof. intros w. unfold dbCall. by destruct (tnFault _). Qed.

Lemma upsertFacts_standDown facts : always sameStandDown (UpsertDeploymentFacts facts).
Proof.
  unfold UpsertDeploymentFacts. case_goal; [auto with runs|]. apply always_bind; [apply _|done|]. intros now.
  apply always_bind; [apply _|auto with runs|]. intros gs. apply dbCall_standDown.
Qed.

Lemma upsertRecoveries_standDown facts : always sameStandDown (UpsertRecoveryFacts facts).
Proof.
  unfold UpsertRecoveryFacts. case_goal; [auto with runs|]. apply always_bind; [apply _|done|]. intros now.
  apply always_bind; [apply _|auto with runs|]. intros gs. apply dbCall_standDown.
Qed.

Lemma attribute_standDown c e i t win : always sameStandDown (AttributeIncident c e i t win).
Proof.
  unfold AttributeIncident. repeat (case_goal; [auto with runs|]). apply always_bind; [apply _|done|]. intros now. apply dbCall_standDown.
Qed.

Lemma events_standDown tick : always sameStandDown (processEvents a tick).
Proof.
  apply events_always; [apply _|intros; apply dbCall_standDown|done|apply upsertFacts_standDown|apply upsertRecoveries_standDown].
Qed.

Lemma incidents_standDown tick : always sameStandDown (processIncidents a tick).
Proof.
  apply incidents_always; [apply _|intros; apply dbCall_standDown|done|apply attribute_standDown|apply upsertRecoveries_standDown].
Qed.

Lemma poisoned_tick w :
  quietOthers T → poisoned → agEvents a = true → wUnavailableUntilMs w = 0 →
  (∃ err, (RunOnce a w).2 = inr err) ∧ eventMarks (wDB (RunOnce a w).1) = eventMarks (wDB w) ∧ wUnavailableUntilMs (RunOnce a w).1 = 0.
Proof.
  intros Hq Hp Ha Hu. unfold RunOnce. rewrite CM_bind_eq. unfold processNow. cbv beta iota. rewrite CM_bind_eq.
  set (tick := tnNow _). pose proof (always_orElse growing (processIncidents a tick) (wrapErrorf "incidents: ") (incidents_growing a Hq tick) w) as (_ & K1 & _).
  pose proof (always_orElse sameStandDown (processIncidents a tick) (wrapErrorf "incidents: ") (incidents_standDown tick) w) as D1.
  destruct (orElse _ _ w) as [w1 [[touched resume]|e1]]; cbn [fst snd] in *; [|unfold sameStandDown in D1; split; [by eexists|split; [done|congruence]]].
  rewrite CM_bind_eq. unfold sweepEvents. rewrite CM_bind_eq. unfold EventsActive. rewrite Ha, D1, Hu. cbn [andb orb bool_decide]. cbv beta zeta iota.
  rewrite bool_decide_true by done. cbn [orb andb]. cbv iota. rewrite CM_bind_eq. unfold attempt.
  pose proof (events_growing a Hq tick w1) as (_ & K2 & _). pose proof (events_standDown tick w1) as D2.
  destruct (poisoned_sweep tick w1 Hp) as (err & Herr & Htags). destruct (processEvents a tick w1) as [w2 r]. cbn [fst snd] in *. subst r.
  unfold hasTag. rewrite Htags. rewrite bool_decide_false by (apply not_elem_of_nil). cbn. split; [by eexists|split; [by rewrite K2, K1|by rewrite D2, D1]].
Qed.

End Poison.


(** A tick that fails is reported as one that lost its lease, whatever failed: the
    tick cancels its own context before it looks whether that was cancelled. *)
Theorem failed_tick_reported_abandoned `{MR : MapRange, RR : RollupRange, T : Turns, C : EventCodec} (a : Aggregator) (w w1 w2 : World) (err : clientError) :
  AcquireLease aggregationLease (agHolder a) (leaseTTL a) w = (w1, inl true) → RunOnce a w1 = (w2, inr err) →
  tick a false false w = (w2, inl TickAbandoned).
Proof. intros Hl Hr. unfold tick. rewrite CM_bind_eq. unfold attempt. rewrite Hl. cbn [fst snd]. rewrite CM_bind_eq, Hr. done. Qed.
