(* ===== verification/InsightsRollupSpec.v ===== *)
(** * Delivery insights: rollups

    The rollups a tick rebuilds are those of every bucket that contains a touched
    moment, and each is what a direct count over the facts of the bucket gives.
    A bucket that has lost its last fact is not among them. *)

From S2P Require Import Prelude GoStrings GoValue PlaneObjects InsightsCompute InsightsStore InsightsAggregator.
From S2P Require Import InsightsFactsSpec InsightsSweepSpec.

#[local] Open Scope Z_scope.

(** ** Statistics do not depend on the order *)

Lemma merge_sort_Z_perm l1 l2 : l1 ≡ₚ l2 → merge_sort Z.le l1 = merge_sort Z.le l2.
Proof.
  intros Hp. apply (Sorted_unique Z.le); [apply Sorted_merge_sort, _..|]. by rewrite !merge_sort_Permutation.
Qed.

Lemma Percentile_perm l1 l2 p : l1 ≡ₚ l2 → Percentile l1 p = Percentile l2 p.
Proof.
  intros Hp. unfold Percentile. rewrite (merge_sort_Z_perm l1 l2 Hp). destruct l1, l2; try done. all: by apply Permutation_length in Hp.
Qed.

Lemma wrap64_add x v : wrap64 (wrap64 x + v) = wrap64 (x + v).
Proof.
  unfold wrap64. f_equal. replace ((x + 2 ^ 63) mod 2 ^ 64 - 2 ^ 63 + v + 2 ^ 63) with ((x + 2 ^ 63) mod 2 ^ 64 + v) by lia.
  rewrite Zplus_mod_idemp_l. f_equal. lia.
Qed.

Lemma sum_wrapped l x : foldl (λ sum v, wrap64 (sum + v)) (wrap64 x) l = wrap64 (x + foldr Z.add 0 l).
Proof.
  revert x. induction l as [|v l IH]; intros x; cbn; [f_equal; lia|]. rewrite wrap64_add, IH. f_equal. lia.
Qed.

Lemma Mean_perm l1 l2 : l1 ≡ₚ l2 → Mean l1 = Mean l2.
Proof.
  intros Hp. unfold Mean. change 0 with (wrap64 0). rewrite !sum_wrapped.
  assert (foldr Z.add 0 l1 = foldr Z.add 0 l2) as -> by (induction Hp; cbn; lia). rewrite (Permutation_length Hp).
  destruct l1, l2; try done. all: by apply Permutation_length in Hp.
Qed.

(** The nearest rank: the smallest value that is not below the given share of the
    values. *)
Lemma Percentile_nearest l p v :
  1 <= p <= 100 → Percentile l p = Some v →
  v ∈ l ∧ p * Z.of_nat (length l) <= 100 * Z.of_nat (length (filter (λ x, x <= v) l)) ∧
  100 * Z.of_nat (length (filter (λ x, x < v) l)) < p * Z.of_nat (length l).
Proof.
  intros Hp. unfold Percentile. destruct l as [|x0 l0] eqn:El; [done|]. rewrite <- El. clear El x0 l0. intros Hv.
  set (sorted := merge_sort Z.le l) in *.
  assert (Hperm : sorted ≡ₚ l) by apply merge_sort_Permutation.
  assert (Hsort : StronglySorted Z.le sorted) by (apply StronglySorted_merge_sort; apply _).
  set (n := Z.of_nat (length sorted)) in *.
  assert (Hn : 0 < n) by (apply list_elem_of_lookup_2 in Hv; subst n; destruct sorted; [by apply elem_of_nil in Hv|cbn; lia]).
  set (rank := (n * p * 10000 + 999999) / 1000000 - 1) in *.
  assert (Hrank : 0 <= rank < n ∧ p * n <= 100 * (rank + 1) ∧ 100 * rank < p * n).
  { subst rank. assert (Hq : n * p * 10000 + 999999 = 1000000 * ((n * p * 10000 + 999999) / 1000000) + (n * p * 10000 + 999999) mod 1000000)
      by (apply Z.div_mod; lia). pose proof (Z.mod_pos_bound (n * p * 10000 + 999999) 1000000 ltac:(lia)). nia. }
  destruct Hrank as (Hr & Hlow & Hhigh). rewrite (proj2 (Z.ltb_ge rank 0)), (proj2 (Z.leb_gt n rank)) in Hv by lia.
  pose proof (take_drop_middle sorted _ v Hv) as Hsplit. set (i := Z.to_nat rank) in *.
  assert (Hlen : Z.of_nat (length l) = n) by (subst n; by rewrite Hperm). rewrite Hlen.
  assert (Hi : length (take i sorted) = i) by (apply length_take_le; subst i n; lia).
  assert (Hbelow : ∀ x, x ∈ take i sorted → x <= v).
  { intros x Hx. rewrite <- Hsplit in Hsort. eapply (StronglySorted_app_1_elem_of Z.le); [exact Hsort|done|by left]. }
  assert (Habove : ∀ x, x ∈ v :: drop (S i) sorted → v <= x).
  { intros x Hx. rewrite <- Hsplit in Hsort. apply StronglySorted_app_1_r in Hsort. inversion_clear Hsort as [|? ? _ Hall].
    apply elem_of_cons in Hx as [->|Hx]; [lia|]. rewrite Forall_forall in Hall. by apply Hall. }
  split; [rewrite <- Hperm; by eapply list_elem_of_lookup_2|].
  assert (Hle : length (filter (λ x, x <= v) l) = length (filter (λ x, x <= v) sorted)) by by rewrite Hperm.
  assert (Hlt : length (filter (λ x, x < v) l) = length (filter (λ x, x < v) sorted)) by by rewrite Hperm.
  rewrite Hle, Hlt, <- Hsplit, !filter_app, !length_app. rewrite (filter_all (λ x, x <= v) (take i sorted)) by done.
  rewrite (filter_none (λ x, x < v) (v :: drop (S i) sorted)) by (intros x Hx%Habove; lia).
  rewrite filter_cons_True by lia. cbn [length]. pose proof (length_filter (λ x, x < v) (take i sorted)). subst i. lia.
Qed.

(** ** What is counted where *)

(** The scopes one entry of the list stands for. *)
Lemma sliced_scope environmentUID s s' :
  s' ∈ (if bool_decide (rsScopeUID s = "") then [] else if bool_decide (environmentUID = "") then [s] else [s; slicedBy environmentUID s]) →
  rsScopeType s' = rsScopeType s.
Proof.
  case_bool_decide; [by intros ?%elem_of_nil|]. case_bool_decide; rewrite !elem_of_cons, elem_of_nil; naive_solver.
Qed.

Lemma scopes_nodup namespace projectUID componentUID environmentUID : NoDup (scopesForFact namespace projectUID componentUID environmentUID).
Proof.
  unfold scopesForFact. apply NoDup_bind.
  - intros s1 s2 s H1 H2 Hs1%sliced_scope Hs2%sliced_scope. rewrite !elem_of_cons, elem_of_nil in H1. rewrite !elem_of_cons, elem_of_nil in H2.
    destruct H1 as [->|[->|[->|[]]]], H2 as [->|[->|[->|[]]]]; cbn in *; unfold ScopeTypeNamespace, ScopeTypeProject, ScopeTypeComponent in *; congruence.
  - intros s Hs. case_bool_decide; [apply NoDup_nil_2|]. case_bool_decide as He; [apply NoDup_singleton|].
    apply NoDup_cons_2; [|apply NoDup_singleton]. intros Heq%list_elem_of_singleton. apply He.
    assert (Henv : rsEnvironmentUID s = "") by (rewrite !elem_of_cons, elem_of_nil in Hs; by destruct Hs as [->|[->|[->|[]]]]).
    rewrite Heq in Henv. done.
  - repeat (apply NoDup_cons_2; [rewrite ?elem_of_cons, elem_of_nil; intros H; by destruct_or? H|]). apply NoDup_nil_2.
Qed.

Lemma rollupKeysOf_elem scopes ms k :
  k ∈ rollupKeysOf scopes ms ↔ rkScope k ∈ scopes ∧ rkGranularity k ∈ granularities ∧ rkBucketStart k = BucketStartMs (rkGranularity k) ms.
Proof.
  unfold rollupKeysOf. rewrite list_elem_of_bind. generalize granularities. intros gs. generalize BucketStartMs. intros start. split.
  - intros (scope & (g & ->%list_elem_of_singleton & Hg)%list_elem_of_bind & Hs). done.
  - intros (Hs & Hg & Hb). exists (rkScope k). split; [|done]. apply list_elem_of_bind. exists (rkGranularity k). split; [|done].
    apply list_elem_of_singleton. destruct k; cbn in *; congruence.
Qed.

Lemma rollupKeysOf_nodup scopes ms : NoDup scopes → NoDup (rollupKeysOf scopes ms).
Proof.
  intros Hs. unfold rollupKeysOf. apply NoDup_bind; [| |done].
  - intros s1 s2 k _ _ (g1 & ->%list_elem_of_singleton & _)%list_elem_of_bind (g2 & Heq%list_elem_of_singleton & _)%list_elem_of_bind. by injection Heq.
  - intros scope _. apply NoDup_bind; [|intros; apply NoDup_singleton|].
    + intros g1 g2 k _ _ ->%list_elem_of_singleton Heq%list_elem_of_singleton. by injection Heq.
    + unfold granularities. apply (bool_decide_unpack _). vm_compute. exact I.
Qed.

Lemma accumulate_lookup fn acc keys k :
  NoDup keys → foldl (accumulateAt fn) acc keys !! k = if decide (k ∈ keys) then Some (fn (default emptyAccumulator (acc !! k))) else acc !! k.
Proof.
  intros Hk. revert acc. induction Hk as [|key keys Hnew _ IH]; intros acc; cbn [foldl]; [by rewrite decide_False by apply not_elem_of_nil|].
  rewrite IH. unfold accumulateAt. destruct (decide (k = key)) as [->|Hne].
  - rewrite decide_False, lookup_insert_eq by done. by rewrite decide_True by left.
  - rewrite lookup_insert_ne by done. destruct (decide (k ∈ keys)) as [Hin|Hin].
    + by rewrite decide_True by by right.
    + rewrite decide_False; [done|]. by intros [?|?]%elem_of_cons.
Qed.

Definition factCounts (k : rollupKey) (f : DeploymentFact) : Prop :=
  dfOutcome f ≠ OutcomeInProgress ∧ k ∈ rollupKeysOf (factScopes f) (OccurredMs f).
Definition recoveryCounts (k : rollupKey) (r : RecoveryFact) : Prop := k ∈ rollupKeysOf (recoveryScopes r) (rfFailureStartedMs r).

#[global] Instance factCounts_dec k f : Decision (factCounts k f).
Proof. unfold factCounts. apply _. Defined.
#[global] Instance recoveryCounts_dec k r : Decision (recoveryCounts k r).
Proof. unfold recoveryCounts. apply _. Defined.

(** The entry of a key after some counts. *)
Definition tally {A} (count : A → rollupAccumulator → rollupAccumulator) (o : option rollupAccumulator) (xs : list A) : option rollupAccumulator :=
  foldl (λ o x, Some (count x (default emptyAccumulator o))) o xs.

Lemma accumulateFacts_lookup facts acc k :
  foldl accumulateFact acc facts !! k = tally countFact (acc !! k) (filter (factCounts k) facts).
Proof.
  revert acc. induction facts as [|f facts IH]; intros acc; [done|]. cbn [foldl]. rewrite IH. unfold accumulateFact. case_bool_decide as Ho.
  - rewrite filter_cons_False; [done|]. by intros [? _].
  - unfold accumulate. rewrite accumulate_lookup by apply rollupKeysOf_nodup, scopes_nodup. case_decide as Hk.
    + by rewrite filter_cons_True.
    + rewrite filter_cons_False; [done|]. by intros [_ ?].
Qed.

Lemma accumulateRecoveries_lookup recoveries acc k :
  foldl accumulateRecovery acc recoveries !! k = tally countRecovery (acc !! k) (filter (recoveryCounts k) recoveries).
Proof.
  revert acc. induction recoveries as [|r recoveries IH]; intros acc; [done|]. cbn [foldl]. rewrite IH. unfold accumulateRecovery, accumulate.
  rewrite accumulate_lookup by apply rollupKeysOf_nodup, scopes_nodup. case_decide as Hk.
  - by rewrite filter_cons_True.
  - by rewrite filter_cons_False.
Qed.

(** A direct count of the facts of a bucket. *)
Definition bucketAccumulator (fs : list DeploymentFact) (rs : list RecoveryFact) : rollupAccumulator :=
  mkAccumulator (Z.of_nat (length fs)) (Z.of_nat (length (filter (λ f, dfOutcome f = OutcomeSuccess) fs)))
    (Z.of_nat (length (filter (λ f, dfOutcome f ≠ OutcomeSuccess) fs)))
    (fs ≫= λ f, nonNegative (dfLeadTimeMs f)) (rs ≫= λ r, nonNegative (rfDurationMs r)) (Z.of_nat (length rs)).

Lemma countFact_snoc f fs rs : countFact f (bucketAccumulator fs rs) = bucketAccumulator (fs ++ [f]) rs.
Proof.
  unfold countFact, bucketAccumulator. cbn [raDeployTotal raDeploySuccess raDeployFailed raLeadTimes raRecoveries raRecoveryCount].
  rewrite !filter_app, !length_app, bind_app. cbn [length mbind list_bind]. rewrite app_nil_r.
  case_bool_decide as E.
  - rewrite (filter_cons_True (λ f, dfOutcome f = OutcomeSuccess)), (filter_cons_False (λ f, dfOutcome f ≠ OutcomeSuccess)) by auto.
    cbn. f_equal; lia.
  - rewrite (filter_cons_False (λ f, dfOutcome f = OutcomeSuccess)), (filter_cons_True (λ f, dfOutcome f ≠ OutcomeSuccess)) by auto.
    cbn. f_equal; lia.
Qed.

Lemma countRecovery_snoc r fs rs : countRecovery r (bucketAccumulator fs rs) = bucketAccumulator fs (rs ++ [r]).
Proof.
  unfold countRecovery, bucketAccumulator. cbn [raDeployTotal raDeploySuccess raDeployFailed raLeadTimes raRecoveries raRecoveryCount].
  rewrite length_app, bind_app. cbn [length mbind list_bind]. rewrite app_nil_r. f_equal. lia.
Qed.

Lemma tally_bucket fs rs :
  tally countRecovery (tally countFact None fs) rs = if decide (fs = [] ∧ rs = []) then None else Some (bucketAccumulator fs rs).
Proof.
  assert (Hf : tally countFact None fs = if decide (fs = []) then None else Some (bucketAccumulator fs [])).
  { induction fs as [|f fs IH] using rev_ind; [done|]. unfold tally. rewrite foldl_snoc. fold (tally countFact None fs).
    rewrite decide_False by (by destruct fs). rewrite IH, <- countFact_snoc. by case_decide as H; [rewrite H|]. }
  induction rs as [|r rs IH] using rev_ind.
  - cbn. rewrite Hf. repeat case_decide; tauto.
  - unfold tally at 1. rewrite foldl_snoc. fold (tally countRecovery (tally countFact None fs) rs).
    rewrite decide_False by (intros [_ H]; by destruct rs). rewrite IH, <- countRecovery_snoc. by case_decide as H; [destruct H as [-> ->]|].
Qed.

Lemma accumulated_lookup facts recoveries k :
  let fs := filter (factCounts k) facts in let rs := filter (recoveryCounts k) recoveries in
  accumulated facts recoveries !! k = if decide (fs = [] ∧ rs = []) then None else Some (bucketAccumulator fs rs).
Proof.
  cbv zeta. unfold accumulated. rewrite accumulateRecoveries_lookup, accumulateFacts_lookup, lookup_empty. apply tally_bucket.
Qed.

(** ** Reads without a limit *)

(** No other session, and no failure. *)
Definition calm (T : Turns) : Prop := ∀ n, tnFault (turnAt n) = NoFault ∧ ∀ db, tnOthers (turnAt n) db = db.

Section Rebuilt.
Context {MR : MapRange} {ML : MapRangeLaws} {RR : RollupRange} {RL : RollupRangeLaws} {T : Turns} {C : EventCodec} (Hcalm : calm T).

Lemma dbCall_calm {A} (run : Z → InsightsDB → InsightsDB * A) w :
  dbCall run w = (takeTurn w (run (tnClock (turnAt (wStep w))) (wDB w)).1, inl (run (tnClock (turnAt (wStep w))) (wDB w)).2).
Proof. unfold dbCall. destruct (Hcalm (wStep w)) as [-> H]. by rewrite H. Qed.

Lemma pageAll_calm {A} (select : InsightsDB → list A) fuel offset w :
  0 <= offset <= Z.of_nat (length (select (wDB w))) → Z.of_nat (length (select (wDB w))) < offset + factPageSize * Z.of_nat fuel →
  ∃ w', pageAll fuel (λ limit offset, dbCall (λ _ db, (db, limited limit offset (select db)))) offset (take (Z.to_nat offset) (select (wDB w))) w
          = (w', inl (select (wDB w))) ∧ wDB w' = wDB w.
Proof.
  revert offset w. induction fuel as [|fuel IH]; intros offset w Hoff Hlen; [lia|].
  cbn [pageAll]. set (l := select (wDB w)) in *. rewrite CM_bind_eq, dbCall_calm. cbn [fst snd].
  unfold limited. rewrite take_take_drop. replace (Z.to_nat offset + Z.to_nat factPageSize)%nat with (Z.to_nat (offset + factPageSize)) by (unfold factPageSize; lia).
  fold l. destruct (Z.of_nat _ <? factPageSize) eqn:Hshort.
  - exists (takeTurn w (wDB w)). split; [|done]. apply Z.ltb_lt in Hshort.
    rewrite length_take, length_drop in Hshort. rewrite take_ge by (unfold factPageSize in *; lia). done.
  - apply Z.ltb_ge in Hshort. rewrite length_take, length_drop in Hshort.
    destruct (IH (offset + factPageSize) (takeTurn w (wDB w))) as (w' & Hrun & Hdb); cbn [takeTurn wDB]; fold l; [unfold factPageSize in *; lia..|].
    exists w'. split; [exact Hrun|exact Hdb].
Qed.

(** Exhaustive reads end and give every row, with a page to spare. *)
Lemma pages_calm {A} (select : InsightsDB → list A) w :
  Z.of_nat (length (select (wDB w))) < factPageSize * Z.of_nat pageFuel →
  ∃ w', pages select w = (w', inl (select (wDB w))) ∧ wDB w' = wDB w.
Proof. intros Hlen. apply (pageAll_calm select pageFuel 0 w); lia. Qed.

(** ** The facts of a bucket *)

Definition bucketFacts (db : InsightsDB) (tickMs : Z) (k : rollupKey) : list DeploymentFact :=
  filter (λ f, factCounts k f ∧ OccurredMs f <= tickMs) (map_to_list (dbFacts db)).*2.
Definition bucketRecoveries (db : InsightsDB) (tickMs : Z) (k : rollupKey) : list RecoveryFact :=
  filter (λ r, recoveryCounts k r ∧ rfFailureStartedMs r <= tickMs) (map_to_list (dbRecoveries db)).*2.

(** The rollup a direct count gives. *)
Definition bucketRollup (db : InsightsDB) (tickMs : Z) (k : rollupKey) : MetricRollup :=
  rollupOfAccumulator tickMs (k, bucketAccumulator (bucketFacts db tickMs k) (bucketRecoveries db tickMs k)).

Lemma bucketAccumulator_perm tickMs k fs fs' rs rs' :
  fs ≡ₚ fs' → rs ≡ₚ rs' →
  rollupOfAccumulator tickMs (k, bucketAccumulator fs rs) = rollupOfAccumulator tickMs (k, bucketAccumulator fs' rs').
Proof.
  intros Hf Hr. unfold rollupOfAccumulator, bucketAccumulator. cbn [raDeployTotal raDeploySuccess raDeployFailed raLeadTimes raRecoveries raRecoveryCount].
  assert (Hl : (fs ≫= λ f, nonNegative (dfLeadTimeMs f)) ≡ₚ (fs' ≫= λ f, nonNegative (dfLeadTimeMs f))) by by apply bind_Permutation.
  assert (Hd : (rs ≫= λ r, nonNegative (rfDurationMs r)) ≡ₚ (rs' ≫= λ r, nonNegative (rfDurationMs r))) by by apply bind_Permutation.
  rewrite (Percentile_perm _ _ 50 Hl), (Percentile_perm _ _ 75 Hl), (Percentile_perm _ _ 95 Hl), (Percentile_perm _ _ 50 Hd), (Mean_perm _ _ Hd).
  f_equal; by rewrite ?Hf, ?Hr.
Qed.

Lemma columnIs_any c : columnIs c "" = true.
Proof. done. Qed.

Lemma selected_facts touched tick db :
  selectFacts (recomputeQuery touched tick) true db ≡ₚ
    filter (λ f, readStart touched <= OccurredMs f <= tick) (map_to_list (dbFacts db)).*2.
Proof.
  unfold selectFacts. rewrite merge_sort_Permutation. unfold rows. rewrite map_range_perm.
  assert (Heq : ∀ l : list DeploymentFact, filter (λ f, Is_true (factInScope (recomputeQuery touched tick) f && within (recomputeQuery touched tick) (OccurredMs f))) l
                = filter (λ f, readStart touched <= OccurredMs f <= tick) l); [|by rewrite Heq].
  intros l. apply list_filter_iff. intros f. unfold factInScope, factScopeConditions, recomputeQuery. cbn [fqNamespace fqProjectUID fqComponentUID fqEnvironmentUID].
  rewrite !columnIs_any. cbn [andb]. unfold within. cbn [fqStartMs fqEndMs]. rewrite Is_true_true, andb_true_iff, Z.leb_le, Z.ltb_lt. lia.
Qed.

Lemma selected_recoveries touched tick db :
  selectRecoveries (recomputeQuery touched tick) db ≡ₚ
    filter (λ r, readStart touched <= rfFailureStartedMs r <= tick) (map_to_list (dbRecoveries db)).*2.
Proof.
  unfold selectRecoveries. rewrite merge_sort_Permutation. unfold rows. rewrite map_range_perm.
  assert (Heq : ∀ l : list RecoveryFact, filter (λ r, Is_true (recoveryInScope (recomputeQuery touched tick) r && within (recomputeQuery touched tick) (rfFailureStartedMs r))) l
                = filter (λ r, readStart touched <= rfFailureStartedMs r <= tick) l); [|by rewrite Heq].
  intros l. apply list_filter_iff. intros r. unfold recoveryInScope, factScopeConditions, recomputeQuery. cbn [fqNamespace fqProjectUID fqComponentUID fqEnvironmentUID].
  rewrite !columnIs_any. cbn [andb]. unfold within. cbn [fqStartMs fqEndMs]. rewrite Is_true_true, andb_true_iff, Z.leb_le, Z.ltb_lt. lia.
Qed.

Lemma BuildRollups_elem facts recoveries tick r :
  r ∈ BuildRollups facts recoveries tick ↔ ∃ k acc, accumulated facts recoveries !! k = Some acc ∧ r = rollupOfAccumulator tick (k, acc).
Proof.
  unfold BuildRollups. rewrite merge_sort_Permutation, list_elem_of_fmap. split.
  - intros ([k acc] & -> & Hin). rewrite rollup_range_perm in Hin. apply elem_of_map_to_list in Hin. by exists k, acc.
  - intros (k & acc & Hacc & ->). exists (k, acc). split; [done|]. rewrite rollup_range_perm. by apply elem_of_map_to_list.
Qed.

Lemma rollupKey_ext k k' : rkScope k = rkScope k' → rkGranularity k = rkGranularity k' → rkBucketStart k = rkBucketStart k' → k = k'.
Proof. destruct k, k'. cbn. congruence. Qed.

Definition pkOfKey (k : rollupKey) : rollupPK :=
  (rsScopeType (rkScope k), rsScopeUID (rkScope k), rsEnvironmentUID (rkScope k), rkGranularity k, rkBucketStart k).

(** ** What a rebuild writes *)

Section Rebuild.
Context (touched : list Z) (tick : Z) (db : InsightsDB).

Definition rebuilt : list MetricRollup :=
  covered (readStart touched)
    (BuildRollups (selectFacts (recomputeQuery touched tick) true db) (selectRecoveries (recomputeQuery touched tick) db) tick).

(** A bucket that has something to count. *)
Definition counted (k : rollupKey) : Prop := bucketFacts db tick k ≠ [] ∨ bucketRecoveries db tick k ≠ [].

Lemma selected_bucket k :
  readStart touched <= rkBucketStart k →
  filter (factCounts k) (selectFacts (recomputeQuery touched tick) true db) ≡ₚ bucketFacts db tick k ∧
  filter (recoveryCounts k) (selectRecoveries (recomputeQuery touched tick) db) ≡ₚ bucketRecoveries db tick k.
Proof.
  intros Hk. rewrite selected_facts, selected_recoveries, !list_filter_filter. unfold bucketFacts, bucketRecoveries.
  split; apply reflexive_eq, list_filter_iff; intros x; unfold factCounts, recoveryCounts; rewrite rollupKeysOf_elem.
  - pose proof (bucket_start_le (rkGranularity k) (OccurredMs x)). split; [tauto|]. intros [[Ho (Hs & Hg & Hb)] Ht]. split_and!; [done..|lia|done].
  - pose proof (bucket_start_le (rkGranularity k) (rfFailureStartedMs x)). split; [tauto|]. intros [(Hs & Hg & Hb) Ht]. split_and!; [done..|lia|done].
Qed.

Lemma rebuilt_elem r :
  r ∈ rebuilt ↔ ∃ k, readStart touched <= rkBucketStart k ∧ counted k ∧ r = bucketRollup db tick k.
Proof.
  unfold rebuilt, covered. rewrite list_elem_of_filter, BuildRollups_elem. split.
  - intros (Hstart & k & acc & Hacc & ->). change (mrBucketStartMs (rollupOfAccumulator tick (k, acc))) with (rkBucketStart k) in Hstart.
    destruct (selected_bucket k Hstart) as [Hf Hr]. exists k. split; [done|]. rewrite accumulated_lookup in Hacc. cbv zeta in Hacc. case_decide as Hd; [done|].
    injection Hacc as <-. split; [|by apply bucketAccumulator_perm]. unfold counted.
    destruct (decide (bucketFacts db tick k = [])) as [E1|]; [|by left]. destruct (decide (bucketRecoveries db tick k = [])) as [E2|]; [|by right].
    destruct Hd. rewrite E1 in Hf. rewrite E2 in Hr. by apply Permutation_nil_r in Hf, Hr.
  - intros (k & Hstart & Hc & ->). split; [done|]. destruct (selected_bucket k Hstart) as [Hf Hr]. exists k. eexists. split.
    + rewrite accumulated_lookup. cbv zeta. rewrite decide_False; [done|]. intros [E1 E2]. rewrite E1 in Hf. rewrite E2 in Hr.
      apply Permutation_nil_l in Hf, Hr. by destruct Hc as [[]|[]].
    + symmetry. by apply bucketAccumulator_perm.
Qed.
End Rebuild.

(** The scopes that rows belong to. *)
Definition scopeIn (db : InsightsDB) (s : rollupScope) : Prop :=
  (∃ k f, dbFacts db !! k = Some f ∧ s ∈ factScopes f) ∨ (∃ k r, dbRecoveries db !! k = Some r ∧ s ∈ recoveryScopes r).

(** A component is in one project, a project in one namespace, and names are not
    blank. *)
Definition scopesSound (db : InsightsDB) : Prop :=
  (∀ s, scopeIn db s → blank (rsScopeUID s) = false) ∧
  ∀ s s', scopeIn db s → scopeIn db s' → rsScopeType s = rsScopeType s' → rsScopeUID s = rsScopeUID s' →
    rsEnvironmentUID s = rsEnvironmentUID s' → s = s'.

Lemma counted_scope db tick k : counted tick db k → scopeIn db (rkScope k) ∧ rkGranularity k ∈ granularities.
Proof.
  intros [Hc|Hc]; [destruct (bucketFacts db tick k) as [|f fs] eqn:E|destruct (bucketRecoveries db tick k) as [|f fs] eqn:E]; try done.
  - assert (Hf : f ∈ bucketFacts db tick k) by (rewrite E; left). apply list_elem_of_filter in Hf as [[[_ Hk] _] Hin].
    apply rollupKeysOf_elem in Hk as (Hs & Hg & _). split; [left|done]. apply list_elem_of_fmap in Hin as ([u f'] & -> & Hin%elem_of_map_to_list). by exists u, f'.
  - assert (Hf : f ∈ bucketRecoveries db tick k) by (rewrite E; left). apply list_elem_of_filter in Hf as [[Hk _] Hin].
    apply rollupKeysOf_elem in Hk as (Hs & Hg & _). split; [right|done]. apply list_elem_of_fmap in Hin as ([u f'] & -> & Hin%elem_of_map_to_list). by exists u, f'.
Qed.

Lemma scopesForFact_type ns p c e s : s ∈ scopesForFact ns p c e → rsScopeType s ∈ [ScopeTypeNamespace; ScopeTypeProject; ScopeTypeComponent].
Proof.
  unfold scopesForFact. intros (s0 & Hs%sliced_scope & H0)%list_elem_of_bind. rewrite Hs. rewrite !elem_of_cons, elem_of_nil in H0.
  rewrite !elem_of_cons. destruct H0 as [->|[->|[->|[]]]]; cbn; auto.
Qed.

Lemma upsertRollups_lookup t rs r :
  (∀ x, x ∈ rs → pkOf x = pkOf r → x = r) →
  foldl upsertRollupQuery t rs !! pkOf r = if decide (r ∈ rs) then Some r else t !! pkOf r.
Proof.
  intros Huniq. induction rs as [|x rs IH] using rev_ind; [by rewrite decide_False by apply not_elem_of_nil|].
  rewrite foldl_snoc. unfold upsertRollupQuery at 1. destruct (decide (pkOf x = pkOf r)) as [Hpk|Hpk].
  - assert (x = r) as -> by (apply Huniq; [apply elem_of_app; right; left|done]). rewrite lookup_insert_eq, decide_True; [done|].
    apply elem_of_app. right. left.
  - rewrite lookup_insert_ne by done. rewrite IH by (intros y Hy; apply Huniq; apply elem_of_app; by left).
    destruct (decide (r ∈ rs)) as [Hin|Hin].
    + rewrite decide_True; [done|]. apply elem_of_app. by left.
    + rewrite decide_False; [done|]. intros [?|Hr%list_elem_of_singleton]%elem_of_app; [done|]. by subst.
Qed.

Lemma upsertRollups_other t rs pk : (∀ x, x ∈ rs → pkOf x ≠ pk) → foldl upsertRollupQuery t rs !! pk = t !! pk.
Proof.
  intros Hne. induction rs as [|x rs IH] using rev_ind; [done|]. rewrite foldl_snoc. unfold upsertRollupQuery at 1.
  rewrite lookup_insert_ne by (apply Hne, elem_of_app; right; left). apply IH. intros y Hy. apply Hne, elem_of_app. by left.
Qed.

Lemma rebuilt_valid touched tick now db :
  tick ≠ 0 → scopesSound db → result_map (validateRollup now) (rebuilt touched tick db) = Ok (rebuilt touched tick db).
Proof.
  intros Htick [Hblank _]. apply result_map_Ok. assert (Hall : ∀ r, r ∈ rebuilt touched tick db → validateRollup now r = Ok r).
  { intros r (k & _ & [Hs Hg]%counted_scope & ->)%rebuilt_elem. unfold validateRollup, bucketRollup, rollupOfAccumulator.
    cbn [mrScopeType mrScopeUID mrGranularity mrComputedAtMs]. pose proof (Hblank _ Hs) as Hb.
    assert (Ht : rsScopeType (rkScope k) ∈ [ScopeTypeNamespace; ScopeTypeProject; ScopeTypeComponent]).
    { destruct Hs as [(u & f & _ & H%scopesForFact_type)|(u & f & _ & H%scopesForFact_type)]; done. }
    unfold validateScopeType, validateGranularity. rewrite (bool_decide_true _ Ht), Hb, (bool_decide_true _ Hg), bool_decide_false by done. done. }
  clear -Hall. induction (rebuilt touched tick db) as [|r rs IH]; constructor; [apply Hall; left|]. apply IH. intros x Hx. apply Hall. by right.
Qed.

(** Rows of a table are as many as its keys. *)
Lemma selected_small touched tick db :
  (length (selectFacts (recomputeQuery touched tick) true db) <= size (dbFacts db))%nat ∧
  (length (selectRecoveries (recomputeQuery touched tick) db) <= size (dbRecoveries db))%nat.
Proof.
  rewrite selected_facts, selected_recoveries. split; (etrans; [apply length_filter|]); rewrite length_fmap; by rewrite length_map_to_list.
Qed.

Definition pagesEnough (db : InsightsDB) : Prop :=
  Z.of_nat (size (dbFacts db)) < factPageSize * Z.of_nat pageFuel ∧ Z.of_nat (size (dbRecoveries db)) < factPageSize * Z.of_nat pageFuel.

Lemma recompute_run touched tick w :
  tick ≠ 0 → scopesSound (wDB w) → pagesEnough (wDB w) →
  ∃ w', recomputeRollups touched tick w = (w', inl ()) ∧
    wDB w' = withRollups (wDB w) (foldl upsertRollupQuery (dbRollups (wDB w)) (rebuilt touched tick (wDB w))).
Proof.
  intros Htick Hsound [Hpf Hpr]. destruct (selected_small touched tick (wDB w)) as [Hsf Hsr]. unfold recomputeRollups.
  rewrite CM_bind_eq. unfold QueryDeploymentFacts. cbn [fqSortOrder fqAllRows recomputeQuery]. rewrite CM_bind_eq.
  replace (normalizeSortOrder "ASC") with (Ok true) by done. cbn [valid mret CM_ret]. rewrite CM_bind_eq.
  fold (recomputeQuery touched tick).
  destruct (pages_calm (selectFacts (recomputeQuery touched tick) true) w) as (w1 & Hrun1 & Hdb1); [lia|]. rewrite Hrun1. cbn [mret CM_ret].
  rewrite CM_bind_eq. unfold QueryRecoveryFacts, readAllOrLimit. cbn [fqAllRows recomputeQuery]. fold (recomputeQuery touched tick).
  destruct (pages_calm (selectRecoveries (recomputeQuery touched tick)) w1) as (w2 & Hrun2 & Hdb2); [rewrite Hdb1; lia|]. rewrite Hrun2, Hdb1.
  change (covered (readStart touched) _) with (rebuilt touched tick (wDB w)). unfold UpsertRollups. case_bool_decide as Hlen.
  - exists w2. split; [done|]. rewrite Hdb2, Hdb1. apply nil_length_inv in Hlen. rewrite Hlen. by destruct (wDB w).
  - rewrite CM_bind_eq. unfold processNow. cbv beta iota. rewrite rebuilt_valid by done. cbn [valid]. rewrite CM_bind_eq. cbn [mret CM_ret].
    rewrite dbCall_calm. eexists. split; [done|]. cbn. by rewrite Hdb2, Hdb1.
Qed.

Lemma minTouched_le touched m : m ∈ touched → minTouched touched <= m.
Proof.
  destruct touched as [|x rest]; [by intros ?%elem_of_nil|]. cbn. assert (Hle : ∀ x m, m ∈ x :: rest → foldl (λ m ms, if ms <? m then ms else m) x rest <= m).
  { clear. induction rest as [|y rest IH]; intros x m Hm; cbn; [apply list_elem_of_singleton in Hm; lia|].
    apply elem_of_cons in Hm as [->|[->|Hm]%elem_of_cons].
    - etrans; [apply IH; left|]. destruct (y <? x) eqn:E; lia.
    - etrans; [apply IH; left|]. destruct (y <? x) eqn:E; lia.
    - apply IH. by right. }
  apply Hle.
Qed.

(** The read covers the bucket of every touched moment. *)
Lemma touched_covered touched m g : m ∈ touched → g ∈ granularities → readStart touched <= BucketStartMs g m.
Proof.
  intros Hm%minTouched_le Hg. unfold readStart. set (lo := minTouched touched) in *.
  pose proof (bucket_start_le GranularityMonthly lo) as H1. set (month := BucketStartMs GranularityMonthly lo) in *.
  pose proof (bucket_start_le GranularityWeekly month) as H2.
  unfold granularities in Hg. rewrite !elem_of_cons, elem_of_nil in Hg. destruct Hg as [->|[->|[->|[]]]].
  - etrans; [|apply (bucket_mono GranularityDaily (BucketStartMs GranularityWeekly month)); lia].
    rewrite (BucketStartMs_days GranularityWeekly), (BucketStartMs_days GranularityDaily), day_of_start, bucketDays_daily. apply Z.le_refl.
  - apply bucket_mono. lia.
  - etrans; [exact H2|]. subst month. by apply bucket_mono.
Qed.
End Rebuilt.

(** ** Rollups a tick does not change *)

Section Frozen.
Context {MR : MapRange} {ML : MapRangeLaws} {RR : RollupRange} {RL : RollupRangeLaws} {T : Turns} {C : EventCodec} (a : Aggregator).

Definition sameRollup (pk : rollupPK) (w w' : World) : Prop := dbRollups (wDB w') !! pk = dbRollups (wDB w) !! pk.

#[global] Instance sameRollup_preorder pk : PreOrder (sameRollup pk).
Proof. split; unfold sameRollup; [by intros w|intros x y z H1 H2; congruence]. Qed.

(** Other sessions write no rollup. *)
Definition rollupsKept : Prop := ∀ n db, dbRollups (tnOthers (turnAt n) db) = dbRollups db.

Context (Hkept : rollupsKept) (pk : rollupPK).

Lemma dbCall_same {A} (run : Z → InsightsDB → InsightsDB * A) :
  (∀ now db, dbRollups (run now db).1 !! pk = dbRollups db !! pk) → always (sameRollup pk) (dbCall run).
Proof.
  intros Hrun w. unfold dbCall, sameRollup. destruct (tnFault _); cbn [fst takeTurn wDB]; rewrite ?Hrun; by rewrite Hkept.
Qed.

Lemma ask_same {A} (f : turn → A) : always (sameRollup pk) (ask f).
Proof. intros w. unfold sameRollup, ask. cbn. by rewrite Hkept. Qed.

Lemma upsertFacts_same facts : always (sameRollup pk) (UpsertDeploymentFacts facts).
Proof.
  unfold UpsertDeploymentFacts. case_goal; [auto with runs|]. apply always_bind; [apply _|done|]. intros now.
  apply always_bind; [apply _|auto with runs|]. intros gs. by apply dbCall_same.
Qed.

Lemma upsertRecoveries_same facts : always (sameRollup pk) (UpsertRecoveryFacts facts).
Proof.
  unfold UpsertRecoveryFacts. case_goal; [auto with runs|]. apply always_bind; [apply _|done|]. intros now.
  apply always_bind; [apply _|auto with runs|]. intros gs. by apply dbCall_same.
Qed.

Lemma attribute_same c e i t win : always (sameRollup pk) (AttributeIncident c e i t win).
Proof.
  unfold AttributeIncident. repeat (case_goal; [auto with runs|]). apply always_bind; [apply _|done|]. intros now.
  apply dbCall_same. intros _ db. unfold attributeTx, attributeUpdate. destruct (liveAt _ _ _ _ _) as [f|]; [|done].
  destruct (dbFacts db !! dfReleaseUID f) as [g|]; [|done]. by case_goal.
Qed.

Lemma watermark_same source : always (sameRollup pk) (Watermark source).
Proof. by apply dbCall_same. Qed.

Lemma incidents_same tick : always (sameRollup pk) (processIncidents a tick).
Proof.
  apply incidents_always; [apply _|apply watermark_same|intros; apply ask_same|apply attribute_same|apply upsertRecoveries_same].
Qed.

Lemma sweep_same tick : always (sameRollup pk) (sweepEvents a tick).
Proof.
  unfold sweepEvents. apply always_bind; [apply _|done|]. intros [|]; [|auto with runs].
  apply always_bind; [apply _| |intros [[]|]; [auto with runs|by case_goal]].
  apply always_attempt, events_always; [apply _|apply watermark_same|intros; apply ask_same|apply upsertFacts_same|apply upsertRecoveries_same].
Qed.

Lemma setMark_same source ms : always (sameRollup pk) (setMark a source ms).
Proof.
  unfold setMark, SetWatermark. case_goal; [auto with runs|]. change (blank aggregationLease) with false. cbv iota.
  apply always_bind; [apply _| |intros n; case_goal; auto with runs]. apply dbCall_same. intros _ db. unfold setWatermarkFencedQuery.
  destruct (dbLeases db !! aggregationLease) as [[h expires]|]; [|done]. by case_bool_decide.
Qed.

Lemma advance_same tick resume p : always (sameRollup pk) (advanceWatermarks a tick resume p).
Proof.
  unfold advanceWatermarks. apply always_bind; [apply _|apply setMark_same|]. intros _. apply always_bind; [apply _|apply setMark_same|]. intros _.
  destruct p; [|auto with runs]. apply always_bind; [apply _|apply setMark_same|]. intros _. apply setMark_same.
Qed.

Lemma validateRollup_pk now r g : validateRollup now r = Ok g → pkOf g = pkOf r.
Proof. unfold validateRollup. repeat (case_match; [done|]). destruct (validateGranularity _); [done|]. by intros [= <-]. Qed.

Lemma pages_same {A} (select : InsightsDB → list A) : always (sameRollup pk) (pages select).
Proof.
  unfold pages. generalize 0, (@nil A). induction pageFuel as [|fuel IH]; intros offset out; cbn [pageAll]; [auto with runs|].
  apply always_bind; [apply _|by apply dbCall_same|]. intros page. case_goal; [auto with runs|apply IH].
Qed.

(** A rebuild writes from the start of its read on. *)
Lemma recompute_same touched tick :
  pk.2 < readStart touched → always (sameRollup pk) (recomputeRollups touched tick).
Proof.
  intros Hpk. unfold recomputeRollups, QueryDeploymentFacts, QueryRecoveryFacts, readAllOrLimit. cbn [fqAllRows fqSortOrder recomputeQuery].
  apply always_bind; [apply _| |].
  - apply always_valid_bind; [apply _|]. intros asc _. apply always_bind; [apply _|apply pages_same|]. auto with runs.
  - intros [facts n]. apply always_bind; [apply _|apply pages_same|]. intros recoveries. unfold UpsertRollups. case_goal; [auto with runs|].
    apply always_bind; [apply _|done|]. intros now. apply always_valid_bind; [apply _|]. intros gs Hgs%result_map_Ok. apply dbCall_same. intros _ db.
    cbn [fst withRollups dbRollups]. apply upsertRollups_other. intros x Hx. apply list_elem_of_lookup in Hx as [i Hi].
    destruct (Forall2_lookup_r _ _ _ _ _ Hgs Hi) as (r & Hr & Heq%validateRollup_pk). apply list_elem_of_lookup_2, list_elem_of_filter in Hr as [Hr _].
    rewrite Heq. intros <-. unfold pkOf in Hpk. cbn [snd] in Hpk. lia.
Qed.

(** ** The moments a sweep touches *)

Lemma touchedBy_time tick e m : m ∈ touchedBy tick e → m = deTimestampMs e.
Proof.
  unfold touchedBy, foldEvent. destruct (unmarshalPayload _) as [payload|]; [|by intros ?%elem_of_nil]. cbn [mbind option_bind].
  repeat (case_bool_decide; [cbn; rewrite ?elem_of_cons, ?elem_of_nil; intros H'; by destruct_or? H'|]). by intros ?%elem_of_nil.
Qed.

Lemma minTouched_elem touched : touched ≠ [] → minTouched touched ∈ touched.
Proof.
  destruct touched as [|x rest]; [done|]. intros _. cbn. revert x. induction rest as [|y rest IH]; intros x; cbn; [left|].
  destruct (y <? x); [right; apply IH|]. specialize (IH x). apply elem_of_cons in IH as [IH|IH]; rewrite ?IH; [left|]. right. by right.
Qed.

Lemma readStart_mono from touched : touched ≠ [] → Forall (λ m, from <= m) touched → readStart [from] <= readStart touched.
Proof.
  intros Hne%minTouched_elem Hall. rewrite Forall_forall in Hall. unfold readStart. cbn [minTouched foldl]. by apply bucket_mono, bucket_mono, Hall.
Qed.

(** The adapter answers from the window it was asked for, and has no incidents. *)
Definition eventsInWindow : Prop :=
  ∀ n from to events complete, answered n from to events complete → Forall (λ e, from <= deTimestampMs e) events.
Definition noIncidents : Prop := ∀ n cursor to limit entries, tnIncidents (turnAt n) cursor to limit = inl entries → entries = [].

Lemma noIncidents_touched tick w touched resume :
  noIncidents → (processIncidents a tick w).2 = inl (touched, resume) → touched = [].
Proof.
  intros Hnone. destruct (processIncidents a tick w) as [w' r] eqn:E. cbn [snd]. intros ->. unfold processIncidents in E.
  apply CM_bind_inl in E as (w1 & watermark & _ & E). apply CM_bind_inl in E as (w2 & from & _ & E).
  change incidentMaxPages with (S 49) in E. cbn [incidentPages] in E.
  apply CM_bind_inl in E as (w3 & entries & Hq & E). unfold QueryIncidentEntries in Hq. apply CM_bind_inl in Hq as (w4 & answer & [= <- <-] & Hq).
  destruct (tnIncidents _ _ _ _) as [es|] eqn:Ei; [|done]. injection Hq as <- <-. apply Hnone in Ei as ->. by injection E.
Qed.
End Frozen.

(** C24: Whatever happens in a tick without incidents, no rollup changes whose
    bucket starts before the week of the month of the start of its sweep.  The
    tick may still change the facts of that bucket: a deployment that became ready
    in an earlier month and now degrades is failed in the facts, and a success in
    its rollups, although late changes are to replace stale rollups. *)
Theorem old_rollups_frozen `{MR : MapRange, !MapRangeLaws, RR : RollupRange} (T : Turns) {C : EventCodec} (a : Aggregator) (w : World) (pk : rollupPK) :
  quietOthers T → rollupsKept → eventsInWindow → noIncidents →
  pk.2 < readStart [sweepStart a (eventMarks (wDB w)).1 (eventMarks (wDB w)).2 (tickMsOf w)] →
  dbRollups (wDB (RunOnce a w).1) !! pk = dbRollups (wDB w) !! pk.
Proof.
  intros Hq Hk Hwin Hinc Hpk. change (sameRollup pk w (RunOnce a w).1). unfold RunOnce. rewrite CM_bind_eq. unfold processNow. cbv beta iota.
  fold (tickMsOf w). set (tick := tickMsOf w) in *. rewrite CM_bind_eq.
  pose proof (always_orElse (sameRollup pk) (processIncidents a tick) (wrapErrorf "incidents: ") (incidents_same a Hk pk tick) w) as S1.
  pose proof (always_orElse growing (processIncidents a tick) (wrapErrorf "incidents: ") (incidents_growing a Hq tick) w) as (_ & K1 & _).
  pose proof (noIncidents_touched a tick w) as H1. unfold orElse in *.
  destruct (processIncidents a tick w) as [w1 [[touched1 resume]|e1]]; cbn [fst snd] in *; [|done]. rewrite (H1 touched1 resume Hinc eq_refl). clear H1.
  rewrite CM_bind_eq. pose proof (sweep_same a Hk pk tick w1) as S2. destruct (sweepEvents_run a Hq tick w1) as [_ Hsweep]. pose proof (sweepEvents_idle a tick w1) as Hidle.
  destruct (sweepEvents a tick w1) as [w2 [[touched2 p]|e2]]; cbn [fst snd] in *; [|by etrans]. rewrite CM_bind_eq. cbn [app].
  assert (Hall : Forall (λ m, sweepStart a (eventMarks (wDB w)).1 (eventMarks (wDB w)).2 tick <= m) touched2).
  { destruct p as [p|]; [|by rewrite (Hidle _ eq_refl)]. destruct (Hsweep touched2 p eq_refl) as (n & events & complete & _ & Ha & _ & -> & _).
    rewrite K1 in Ha. pose proof (Hwin n _ _ events complete Ha) as Hev. rewrite Forall_forall in Hev. apply Forall_forall.
    intros m (e & ->%touchedBy_time & He)%list_elem_of_bind. by apply Hev. }
  set (recompute := if bool_decide (length touched2 = 0%nat) then mret () else _).
  assert (S3 : sameRollup pk w2 (recompute w2).1).
  { subst recompute. case_bool_decide as Hlen; [done|]. apply (always_orElse (sameRollup pk)), (recompute_same Hk).
    eapply Z.lt_le_trans; [exact Hpk|]. apply readStart_mono; [by intros ->|done]. }
  destruct (recompute w2) as [w3 [[]|e3]]; cbn [fst snd] in *; [|by etrans; [|etrans]].
  etrans; [exact S1|]. etrans; [exact S2|]. etrans; [exact S3|]. apply (advance_same a Hk pk).
Qed.
