(* ===== verification/InsightsDeliverySpec.v ===== *)
(** * From a rollout to its metrics

    The events that the release binding controller creates for a rollout, folded
    by the aggregator: every episode that was recovered from is measured from its
    failure to its recovery. *)

From S2P Require Import Prelude GoStrings GoValue RenderErrors ReleaseObjects PlaneObjects PlaneRefs.
From S2P Require Import K8sNames NetworkPolicy WorkloadContext WorkloadContextSpec.
From S2P Require Import BindingObjects BindingConnections BindingEndpoints BindingDelivery BindingDeliverySpec.
From S2P Require Import InsightsCompute InsightsStore InsightsAggregator InsightsFactsSpec.

#[local] Set Warnings "-register-all".
#[local] Open Scope Z_scope.

(** ** Names of episodes *)

Lemma healthRecoveryID_suffix k ep :
  healthRecoveryID k ep = "health-" +:+ k +:+ (if bool_decide (suffixOf ep = "") then "" else "-" +:+ suffixOf ep).
Proof.
  unfold healthRecoveryID, suffixOf, episodeSuffix. rewrite Z.leb_antisym. destruct (0 <? ep); cbn [negb]; [done|].
  rewrite bool_decide_true by done. by rewrite sapp_nil_r.
Qed.

Lemma healthRecoveryID_inj k ep ep' : healthRecoveryID k ep = healthRecoveryID k ep' → suffixOf ep = suffixOf ep'.
Proof.
  rewrite !healthRecoveryID_suffix. intros H%sapp_inj_1; [|done]. destruct H as [_ H]. apply sapp_inj_1 in H as [_ H]; [|done].
  destruct (bool_decide (suffixOf ep = "")) eqn:E1, (bool_decide (suffixOf ep' = "")) eqn:E2; bool_simpl; try congruence; try done.
  by injection H.
Qed.

Lemma health_not_blank k ep : blank (healthRecoveryID k ep) = false.
Proof.
  rewrite healthRecoveryID_suffix. unfold blank. apply bool_decide_eq_false. unfold TrimSpace.
  rewrite sapp_cons. cbn [TrimLeftSpace]. change (is_space "h"%char) with false. cbv iota. cbn [TrimRightSpace].
  generalize (TrimRightSpace ("ealth-" +:+ (k +:+ (if bool_decide (suffixOf ep = "") then "" else "-" +:+ suffixOf ep)))). by intros [].
Qed.

Section Delivered.
Context {U : Unstructured} {N : Nested} {DC : DeliveryCodec} {S PC : Type} {EC : EventClient S PC} {EL : EventLaws S PC} {C : EventCodec}.
Context (pc : PC) (dc : deliveryContext).

Lemma phaseKey_suffix reason ep ep' : phaseKey dc reason ep = phaseKey dc reason ep' ↔ suffixOf ep = suffixOf ep'.
Proof.
  unfold phaseKey. split; [|by intros ->]. intros [= Hname]. rewrite !deliveryEventName_form in Hname.
  apply sapp_inj_1 in Hname as [_ Hname]; [|done]. apply sapp_inj_1 in Hname as [_ Hname]; [|done].
  destruct (bool_decide (suffixOf ep = "")) eqn:E1, (bool_decide (suffixOf ep' = "")) eqn:E2; bool_simpl; try congruence; try done.
  by injection Hname.
Qed.

(** ** What a rollout adds to the log *)

Definition authentic (e : Event) : Prop :=
  ∃ now reason why ep msg, reason ∈ deliveryReasons ∧ e = deliveryEvent now dc reason ep msg ∧
    marshalPayload (payloadOf dc reason why ep) = inl msg.

Definition appends {A} (m : CM (S * DeliveryStatus) A) : Prop :=
  ∀ w, ∃ new, eventLog pc (m w).1.1 = eventLog pc w.1 ++ new ∧ Forall authentic new.

Lemma appends_silent {A} (m : CM (S * DeliveryStatus) A) : (∀ w, eventLog pc (m w).1.1 = eventLog pc w.1) → appends m.
Proof. intros H w. exists []. rewrite H, app_nil_r. by split. Qed.

Lemma logs_bind {A B} (m : CM (S * DeliveryStatus) A) (f : A → CM (S * DeliveryStatus) B) :
  appends m → (∀ a, appends (f a)) → appends (m ≫= f).
Proof.
  intros Hm Hf w. rewrite CM_bind_eq. destruct (Hm w) as (new & Hnew & Hall). destruct (m w) as [w1 [a|err]]; cbn [fst snd] in *; [|by exists new].
  destruct (Hf a w1) as (new' & Hnew' & Hall'). exists (new ++ new'). rewrite Hnew', Hnew, app_assoc. split; [done|by apply Forall_app].
Qed.

Lemma appends_emits now reason why ep : reason ∈ deliveryReasons → appends (emits pc now dc reason why ep).
Proof.
  intros Hr [s d]. unfold emits, onPlaneState, emitDeliveryEvent. cbn [fst snd].
  destruct (marshalPayload _) as [msg|err] eqn:Em; [|exists []; cbn; by rewrite app_nil_r].
  rewrite CM_bind_eq. unfold attempt. cbn [fst snd]. set (e := deliveryEvent now dc reason ep msg).
  destruct (create_logged pc e s) as (new & Hnew & Hcase).
  assert (Hall : Forall authentic new).
  { destruct Hcase as [->| ->]; constructor; [|constructor]. by exists now, reason, why, ep, msg. }
  exists new. split; [|done]. destruct (createEvent pc e s) as [s' [[]|err]]; cbn [fst snd] in *; [done|]. by case_goal.
Qed.

Lemma appends_set d : appends (setMarkers d).
Proof. by apply appends_silent. Qed.

Lemma appends_markers {A} (f : DeliveryStatus → CM (S * DeliveryStatus) A) : (∀ d, appends (f d)) → appends (markers ≫= f).
Proof. intros Hf. by apply logs_bind; [apply appends_silent|]. Qed.

Lemma appends_ret {A} (a : A) : appends (mret a).
Proof. by apply appends_silent. Qed.

Lemma startOnce_appends now : appends (startOnce pc now dc).
Proof.
  apply appends_markers. intros d. destruct (dsStartedAt d); [apply appends_ret|].
  apply logs_bind; [apply appends_emits; by repeat constructor|]. intros []. apply appends_set.
Qed.

Lemma failEpisode_appends now why : appends (failEpisode pc now dc why).
Proof.
  apply appends_markers. intros d. apply logs_bind; [apply appends_emits; by repeat constructor|]. intros []. apply appends_set.
Qed.

Lemma restore_appends : appends (restoreLostFailureEpisode pc dc).
Proof.
  apply appends_markers. intros d. apply logs_bind.
  - apply appends_silent. intros [s d']. unfold attempt, onPlaneState. cbn [fst snd]. apply get_silent.
  - intros [e|err]; [apply appends_set|]. by case_goal; [apply appends_ret|apply appends_silent].
Qed.

Lemma deliveryRun_appends now m : deliveryRun pc dc now m → appends m.
Proof.
  intros [now' statuses|now'].
  - assert (H : appends (reconcileDeliveryEvents pc now' dc statuses)).
    { unfold reconcileDeliveryEvents. apply logs_bind; [apply startOnce_appends|]. intros []. destruct (summarizeHealth statuses) as [allHealthy degradedID].
      apply appends_markers. intros d. apply logs_bind; [case_goal; [apply restore_appends|apply appends_ret]|]. intros [].
      apply appends_markers. intros d'. case_goal; [apply failEpisode_appends|]. case_goal; [|apply appends_ret]. apply logs_bind.
      - apply appends_markers. intros d0. destruct (dsSucceededAt d0); [apply appends_ret|].
        apply logs_bind; [apply appends_emits; by repeat constructor|]. intros []. apply appends_set.
      - intros []. case_goal; [|apply appends_ret]. apply appends_markers. intros d0.
        apply logs_bind; [apply appends_emits; by repeat constructor|]. intros []. apply appends_markers. intros d1. apply appends_set. }
    intros w. unfold emitDeliveryEvents, orElse. destruct (H w) as (new & Hnew & Hall). exists new. destruct (reconcileDeliveryEvents _ _ _ _ w) as [w' [[]|err]]; done.
  - apply appends_markers. intros d. case_goal; [apply appends_ret|]. apply logs_bind; [apply startOnce_appends|]. intros []. apply failEpisode_appends.
Qed.

Lemma reached_log (x y : S * option DeliveryStatus) :
  rtc (deliveryStep pc dc) x y → ∃ new, eventLog pc y.1 = eventLog pc x.1 ++ new ∧ Forall authentic new.
Proof.
  induction 1 as [x|x y z Hxy _ (new & Hnew & Hall)]; [exists []; rewrite app_nil_r; by split|].
  assert (∃ new', eventLog pc y.1 = eventLog pc x.1 ++ new' ∧ Forall authentic new') as (new' & Hnew' & Hall').
  { destruct Hxy as [now m s d Hrun|now m s d Hrun|s s' d Hlog].
    - apply (deliveryRun_appends now m Hrun (s, deliveryState d dc)).
    - apply (deliveryRun_appends now m Hrun (s, deliveryState d dc)).
    - exists []. rewrite app_nil_r. by split. }
  exists (new' ++ new). rewrite Hnew, Hnew', app_assoc. split; [done|by apply Forall_app].
Qed.

(** ** What the collector and the codecs keep *)

Definition payloadView (p : deliveryEventPayload) : eventPayload :=
  mkEventPayload (plRolloutID p) (plComponentReleaseName p) (plNamespaceName p) (plProjectUID p) (plComponentUID p) (plEnvironmentUID p)
    (plCommit p) (plCommitAuthoredAt p) (plFailureReason p) (plFailureEpisode p).

(** The event store keeps the reason and the message of an event and gives it a
    time; a payload is read as it was written. *)
Record faithfulCollector (collect : Event → DeliveryEvent) : Prop := {
  collect_reason : ∀ e, deReason (collect e) = evtReason e;
  collect_message : ∀ e, deMessage (collect e) = evtMessage e;
  collect_time : ∀ e, 0 < deTimestampMs (collect e);
  collect_payload : ∀ p msg, marshalPayload p = inl msg → unmarshalPayload msg = Some (payloadView p)
}.

Context (collect : Event → DeliveryEvent) (Hcollect : faithfulCollector collect).
Context (Hrollout : dxRolloutID dc ≠ "") (Hns : blank (dxNamespaceName dc) = false).

Lemma namespace_not_empty : dxNamespaceName dc ≠ "".
Proof. intros H. by rewrite H in Hns. Qed.

Lemma authentic_episode e now reason why ep msg :
  e = deliveryEvent now dc reason ep msg → marshalPayload (payloadOf dc reason why ep) = inl msg →
  episodeOf (collect e) =
    (if bool_decide (reason ∈ [ReasonDeploymentFailed; ReasonDeploymentRecovered]) then Some (healthRecoveryID (dxRolloutID dc) ep) else None)
  ∧ closes (collect e) = bool_decide (reason = ReasonDeploymentRecovered).
Proof.
  intros -> Hmsg. set (e := deliveryEvent now dc reason ep msg). pose proof (collect_payload _ Hcollect _ _ Hmsg) as Hp.
  pose proof namespace_not_empty as Hne. unfold episodeOf, rolloutOf, closes.
  rewrite (collect_message _ Hcollect), (collect_reason _ Hcollect). change (evtMessage e) with msg. change (evtReason e) with reason. rewrite Hp.
  split; [|done]. cbn [mbind option_bind]. unfold eventNamespace. cbn [payloadView payloadOf epRolloutID epNamespaceName plRolloutID plNamespaceName epFailureEpisode plFailureEpisode].
  rewrite (bool_decide_false (dxRolloutID dc = "")), !(bool_decide_false (dxNamespaceName dc = "")) by done. cbn [mbind option_bind].
  rewrite Hns, health_not_blank. rewrite (proj2 (Z.ltb_lt 0 _) (collect_time _ Hcollect e)). cbn [negb]. by rewrite !andb_true_r.
Qed.

Definition foldedAt (tickMs : Z) (es : list Event) : list (DeliveryEvent * Z) := (λ e, (collect e, tickMs)) <$> es.

Lemma foldedAt_events tickMs es id : episodeEvents (foldedAt tickMs es) id = filter (λ e, episodeOf e = Some id) (collect <$> es).
Proof. unfold episodeEvents, foldedAt. rewrite <- list_fmap_compose. done. Qed.

(** An event of the log is of an episode exactly when its name is. *)
Lemma episode_key e ep :
  authentic e → episodeOf (collect e) = Some (healthRecoveryID (dxRolloutID dc) ep) ↔
    eventKey e = phaseKey dc reasonDeploymentFailed ep ∨ eventKey e = phaseKey dc reasonDeploymentRecovered ep.
Proof.
  intros (now & reason & why & ep' & msg & Hr & He & Hmsg). destruct (authentic_episode e now reason why ep' msg He Hmsg) as [Hep _].
  rewrite Hep, He, deliveryEvent_key. split.
  - case_bool_decide as Hin; [|done]. intros [= Hid%healthRecoveryID_inj]. rewrite !elem_of_cons, elem_of_nil in Hin.
    destruct Hin as [->|[->|[]]]; [left|right]; by apply phaseKey_suffix.
  - assert (Hsuf : ∀ r, r ∈ deliveryReasons → phaseKey dc reason ep' = phaseKey dc r ep → reason = r ∧ healthRecoveryID (dxRolloutID dc) ep' = healthRecoveryID (dxRolloutID dc) ep).
    { intros r Hr' Hk. assert (reason = r) as -> by (by eapply phaseKey_reason). split; [done|]. apply phaseKey_suffix in Hk. by rewrite !healthRecoveryID_suffix, Hk. }
    intros [Hk|Hk]; apply Hsuf in Hk as [-> ->]; try (by repeat constructor); by rewrite bool_decide_true by (by repeat constructor).
Qed.

Lemma closes_key e ep :
  authentic e → episodeOf (collect e) = Some (healthRecoveryID (dxRolloutID dc) ep) →
  closes (collect e) = bool_decide (eventKey e = phaseKey dc reasonDeploymentRecovered ep).
Proof.
  intros Ha Hep. pose proof Ha as (now & reason & why & ep' & msg & Hr & He & Hmsg). destruct (authentic_episode e now reason why ep' msg He Hmsg) as [_ ->].
  apply episode_key in Hep; [|done]. rewrite He, deliveryEvent_key in *. apply bool_decide_ext. split.
  - intros ->. destruct Hep as [Hep|Hep]; [|done]. apply phaseKey_reason in Hep; [done|by repeat constructor..].
  - intros Hk. apply phaseKey_reason in Hk; [done|done|by repeat constructor].
Qed.

Lemma head_filter_fmap {A B} (f : A → B) (P : B → Prop) `{!∀ x, Decision (P x)} (l : list A) b :
  head (filter P (f <$> l)) = Some b → ∃ pre x post, l = pre ++ x :: post ∧ b = f x ∧ P b ∧ Forall (λ y, ¬ P (f y)) pre.
Proof.
  induction l as [|x l IH]; [done|]. cbn [fmap list_fmap]. destruct (decide (P (f x))) as [Hx|Hx].
  - rewrite filter_cons_True by done. intros [= <-]. exists [], x, l. by split_and!.
  - rewrite filter_cons_False by done. intros (pre & y & post & -> & Hb & HP & Hpre)%IH. exists (x :: pre), y, post. split_and!; [done..|by constructor].
Qed.

Context (new : list Event) (ep : Z) (Hall : Forall authentic new).
Context (evs : list DeliveryEvent)
  (Hevs : evs = filter (λ e, episodeOf e = Some (healthRecoveryID (dxRolloutID dc) ep)) (collect <$> new)).

Lemma lastClosed_member er :
  er ∈ new → eventKey er = phaseKey dc reasonDeploymentRecovered ep →
  ∃ e, e ∈ new ∧ eventKey e = phaseKey dc reasonDeploymentRecovered ep ∧ lastClosed evs = Some (deTimestampMs (collect e)).
Proof.
  intros Her Hk. rewrite Forall_forall in Hall. assert (Hep : episodeOf (collect er) = Some (healthRecoveryID (dxRolloutID dc) ep)).
  { apply episode_key; [by apply Hall|by right]. }
  unfold lastClosed. destruct (last _) as [m|] eqn:El.
  - apply last_Some_elem_of in El. apply list_elem_of_fmap in El as (x & -> & [Hcl Hx]%list_elem_of_filter). rewrite Hevs in Hx.
    apply list_elem_of_filter in Hx as [Hid (e & -> & He)%list_elem_of_fmap]. exists e. split_and!; [done| |done].
    rewrite (closes_key e ep) in Hcl by (by first [apply Hall|done]). by apply Is_true_true, bool_decide_eq_true in Hcl.
  - apply last_None in El. assert (Hin : deTimestampMs (collect er) ∈ deTimestampMs <$> filter (λ e, Is_true (closes e)) evs).
    { apply list_elem_of_fmap_2, list_elem_of_filter. split.
      - rewrite (closes_key er ep) by (by first [apply Hall|done]). by rewrite bool_decide_true.
      - rewrite Hevs. apply list_elem_of_filter. split; [done|by apply list_elem_of_fmap_2]. }
    rewrite El in Hin. by apply elem_of_nil in Hin.
Qed.

Lemma lastClosed_none : phaseKey dc reasonDeploymentRecovered ep ∉ eventKey <$> new → lastClosed evs = None.
Proof.
  intros Hnot. unfold lastClosed. rewrite (filter_none (λ e, Is_true (closes e))); [done|]. rewrite Hevs. rewrite Forall_forall in Hall.
  intros x [Hid (e & -> & He)%list_elem_of_fmap]%list_elem_of_filter. rewrite (closes_key e ep) by (by first [apply Hall|done]).
  rewrite bool_decide_false; [by intros []|]. intros Hk. apply Hnot. rewrite <- Hk. by apply list_elem_of_fmap_2.
Qed.

(** The first event of an episode is its failure. *)
Lemma first_failed s0 s :
  (∀ reason ep, reason ∈ deliveryReasons → phaseKey dc reason ep ∉ logged pc s0) →
  orderedKeys dc (logged pc s) → logged pc s = logged pc s0 ++ (eventKey <$> new) → evs ≠ [] →
  ∃ e, e ∈ new ∧ eventKey e = phaseKey dc reasonDeploymentFailed ep ∧ deTimestampMs <$> head evs = Some (deTimestampMs (collect e)).
Proof.
  intros Hfresh Hord Hlog Hne. destruct (head evs) as [x|] eqn:Eh; [|by destruct evs]. rewrite Hevs in Eh.
  apply head_filter_fmap in Eh as (pre & e & post & Hsplit & -> & Hid & Hpre). rewrite Forall_forall in Hall.
  assert (He : e ∈ new) by (rewrite Hsplit; apply elem_of_app; right; left). exists e. split; [done|]. split; [|done].
  destruct (proj1 (episode_key e ep (Hall e He)) Hid) as [Hk|Hk]; [done|]. exfalso.
  assert (Hkeys : logged pc s = (logged pc s0 ++ (eventKey <$> pre)) ++ eventKey e :: (eventKey <$> post)).
  { rewrite Hlog, Hsplit, fmap_app. cbn. by rewrite app_assoc. }
  destruct (Hord _ _ _ Hkeys) as [_ Hbefore]. specialize (Hbefore ep Hk). apply elem_of_app in Hbefore as [Hbefore|(e0 & Hk0 & He0)%list_elem_of_fmap].
  - apply (Hfresh reasonDeploymentFailed ep); [by repeat constructor|done].
  - rewrite Forall_forall in Hpre. apply (Hpre e0 He0). apply episode_key; [|by left].
    apply Hall. rewrite Hsplit. apply elem_of_app. by left.
Qed.
End Delivered.

(** C17: From the controller to the metrics: the events that any sequence of
    reconciliations of a rollout left in its plane, folded in their order, give
    one recovery fact per episode.  One that was recovered from is measured from
    the time of its DeploymentFailed to the time of its DeploymentRecovered; one
    that was not is open. *)
Theorem episodes_measured {U : Unstructured} {N : Nested} {DC : DeliveryCodec} {S PC : Type} {EC : EventClient S PC}
    {EL : EventLaws S PC} {C : EventCodec} (pc : PC) (dc : deliveryContext) (collect : Event → DeliveryEvent)
    (s0 s : S) (d0 d : option DeliveryStatus) (tickMs ep : Z) :
  faithfulCollector collect → dxRolloutID dc ≠ "" → blank (dxNamespaceName dc) = false →
  (∀ reason ep, reason ∈ deliveryReasons → phaseKey dc reason ep ∉ logged pc s0) →
  (∀ m, d0 = Some m → dsRolloutID m ≠ dxRolloutID dc) →
  rtc (deliveryStep pc dc) (s0, d0) (s, d) →
  ∃ new, eventLog pc s = eventLog pc s0 ++ new ∧
    let rows := recoveriesAfter (foldedAt collect tickMs new) in
    let id := healthRecoveryID (dxRolloutID dc) ep in
    (phaseKey dc reasonDeploymentRecovered ep ∈ logged pc s →
     ∃ row failed recovered, rows !! id = Some row ∧
       failed ∈ new ∧ eventKey failed = phaseKey dc reasonDeploymentFailed ep ∧ rfFailureStartedMs row = deTimestampMs (collect failed) ∧
       recovered ∈ new ∧ eventKey recovered = phaseKey dc reasonDeploymentRecovered ep ∧
       rfDurationMs row = Some (deTimestampMs (collect recovered) - deTimestampMs (collect failed))) ∧
    (phaseKey dc reasonDeploymentFailed ep ∈ logged pc s → phaseKey dc reasonDeploymentRecovered ep ∉ logged pc s →
     ∃ row, rows !! id = Some row ∧ rfRecoveredMs row = None).
Proof.
  intros Hc Hr Hn Hfresh Hd0 Hrun. destruct (reached_log pc dc _ _ Hrun) as (new & Hnew & Hall). cbn [fst] in Hnew. exists new. split; [done|].
  pose proof (reached_ordered pc dc s0 s d0 d Hfresh Hd0 Hrun) as Hord.
  assert (Hlog : logged pc s = logged pc s0 ++ (eventKey <$> new)) by (unfold logged; by rewrite Hnew, fmap_app).
  cbv zeta. set (id := healthRecoveryID (dxRolloutID dc) ep). pose proof (recoveriesAfter_row (foldedAt collect tickMs new) id) as Hrow.
  rewrite foldedAt_events in Hrow. set (evs := filter (λ e, episodeOf e = Some id) (collect <$> new)) in *.
  assert (Hin : ∀ reason, reason ∈ [reasonDeploymentFailed; reasonDeploymentRecovered] → phaseKey dc reason ep ∈ logged pc s →
      ∃ e, e ∈ new ∧ eventKey e = phaseKey dc reason ep ∧ collect e ∈ evs).
  { intros reason Hreason Hk. rewrite Hlog, elem_of_app in Hk. destruct Hk as [Hk|(e & Hk & He)%list_elem_of_fmap].
    { exfalso. apply (Hfresh reason ep); [|done]. rewrite !elem_of_cons, elem_of_nil in Hreason. destruct Hreason as [->|[->|[]]]; by repeat constructor. }
    exists e. split_and!; [done..|]. apply list_elem_of_filter. split; [|by apply list_elem_of_fmap_2].
    rewrite Forall_forall in Hall. apply (episode_key dc collect Hc Hr Hn e ep); [by apply Hall|]. rewrite <- Hk.
    rewrite !elem_of_cons, elem_of_nil in Hreason. by destruct Hreason as [->|[->|[]]]; auto. }
  split.
  - intros Hk. destruct (Hin reasonDeploymentRecovered ltac:(by repeat constructor) Hk) as (er & Her & Hkr & Hev).
    destruct (recoveriesAfter _ !! id) as [row|]; [|rewrite Hrow in Hev; by apply elem_of_nil in Hev]. destruct Hrow as (Hstart & Hrec & Hdur).
    destruct (lastClosed_member dc collect Hc Hr Hn new ep Hall evs eq_refl er Her Hkr) as (er' & Her' & Hkr' & Hlast).
    destruct (first_failed pc dc collect Hc Hr Hn new ep Hall evs eq_refl s0 s Hfresh Hord Hlog) as (ef & Hef & Hkf & Hhead); [by intros ->; apply elem_of_nil in Hev|].
    rewrite Hhead in Hstart. injection Hstart as Hstart. exists row, ef, er'. split_and!; [done..|]. by rewrite Hdur, Hrec, Hlast, <- Hstart.
  - intros Hk Hnot. destruct (Hin reasonDeploymentFailed ltac:(by repeat constructor) Hk) as (ef & Hef & Hkf & Hev).
    destruct (recoveriesAfter _ !! id) as [row|]; [|rewrite Hrow in Hev; by apply elem_of_nil in Hev]. destruct Hrow as (_ & Hrec & _).
    exists row. split; [done|]. rewrite Hrec. apply (lastClosed_none dc collect Hc Hr Hn new ep Hall evs eq_refl). intros Hk'. apply Hnot. rewrite Hlog. apply elem_of_app. by right.
Qed.
