(* ===== verification/InsightsService.v ===== *)
(** * Delivery insights: answers

    [internal/observer/service/delivery_insights.go] and its authorization
    ([delivery_insights_authz.go], [internal/observer/authz/helpers.go]), and the
    handlers ([api/handlers/delivery_insights.go] and the validations they call).
    A float64 is a binary64 number of [SpecFloat], so that the rounding of rates
    is the one of the code.  A response is the payload; its copy through JSON into
    the generated type is left out, as are the fields that repeat the request. *)

From Stdlib Require Import SpecFloat.
From S2P Require Import Prelude GoStrings AuthzCore GoValue PlaneObjects InsightsCompute InsightsStore InsightsAggregator.

#[local] Open Scope Z_scope.

(** ** float64 *)

Definition float64 : Type := spec_float.
Definition floatOf (z : Z) : float64 := binary_normalize 53 1024 z 0 false.
Definition fdiv : float64 → float64 → float64 := SFdiv 53 1024.
Definition fmul : float64 → float64 → float64 := SFmul 53 1024.
Definition fsub : float64 → float64 → float64 := SFsub 53 1024.

(** [math.Round]: the nearest integer, half away from zero. *)
Definition Round (x : float64) : float64 :=
  match x with
  | S754_finite s m e =>
      if 0 <=? e then x
      else
        let q := (Zpos m + 2 ^ (- e - 1)) / 2 ^ (- e) in
        binary_normalize 53 1024 (if s then - q else q) 0 s
  | _ => x
  end.

Definition roundTo (n : Z) (v : float64) : float64 := fdiv (Round (fmul v (floatOf n))) (floatOf n).
Definition round1 : float64 → float64 := roundTo 10.
Definition round2 : float64 → float64 := roundTo 100.
Definition round3 : float64 → float64 := roundTo 1000.

(** [math.Min(1, x)] of a number that is not negative. *)
Definition min1 (x : float64) : float64 := if SFltb x (floatOf 1) then x else floatOf 1.

(** ** Times *)

Definition padded (width : nat) (n : Z) : string :=
  let digits := Itoa (Z.abs n) in
  (if n <? 0 then "-" else "") +:+ String.concat "" (repeat "0" (width - String.length digits)) +:+ digits.

(** [time.UnixMilli(ms).UTC().Format(time.RFC3339)] *)
Definition formatMs (ms : Z) : string :=
  let '(y, m, d) := civilOfDays (ms / dayMs) in
  let secs := (ms mod dayMs) / 1000 in
  padded 4 y +:+ "-" +:+ padded 2 m +:+ "-" +:+ padded 2 d +:+ "T" +:+ padded 2 (secs / 3600) +:+ ":"
  +:+ padded 2 (secs / 60 mod 60) +:+ ":" +:+ padded 2 (secs mod 60) +:+ "Z".

(** ** Requests *)

Record ComponentSearchScope := mkSearchScope {
  ssNamespace : string;
  ssProject : option string;
  ssComponent : option string;
  ssEnvironment : option string
}.

(** Times are nanoseconds since the epoch; [None] is the zero time. *)
Record DoraMetricsQueryRequest := mkMetricsRequest {
  mqSearchScope : ComponentSearchScope;
  mqStartTime : option Z;
  mqEndTime : option Z;
  mqGranularity : option string;
  mqMetrics : option (list string)
}.

Record DoraDeploymentsQueryRequest := mkDeploymentsRequest {
  dqSearchScope : ComponentSearchScope;
  dqStartTime : option Z;
  dqEndTime : option Z;
  dqLimit : option Z;
  dqSortOrder : option string
}.

(** The zero time is the first of January of the year 1. *)
Definition UnixMilli (t : option Z) : Z :=
  match t with Some ns => ns / 1000000 | None => Date 1 1 1 * dayMs end.

Definition stringPtrValue (v : option string) : string := match v with Some s => TrimSpace s | None => "" end.
Definition intPtrValue (v : option Z) (defaultValue : Z) : Z :=
  match v with Some n => if n <=? 0 then defaultValue else n | None => defaultValue end.

(** ** Responses *)

Record FrequencySummary := mkFrequencySummary { fsTotal : Z; fsPerDay : float64; fsClassification : string; fsDeltaPct : option float64 }.
Record LeadTimeSummary := mkLeadTimeSummary {
  lsP50Ms : option Z; lsP95Ms : option Z; lsCoverage : float64; lsClassification : string; lsDeltaPct : option float64 }.
Record CFRSummary := mkCFRSummary { csRate : float64; csFailed : Z; csTotal : Z; csClassification : string; csDeltaPct : option float64 }.
Record MTTRSummary := mkMTTRSummary {
  msMeanMs : option Z; msP50Ms : option Z; msRecoveries : Z; msClassification : string; msDeltaPct : option float64 }.

Record FrequencyPoint := mkFrequencyPoint { fpBucketStart : string; fpCount : Z }.
Record LeadTimePoint := mkLeadTimePoint { lpBucketStart : string; lpP50Ms : Z; lpP75Ms : Z; lpP95Ms : Z }.
Record CFRPoint := mkCFRPoint { cpBucketStart : string; cpRate : float64; cpFailed : Z; cpTotal : Z }.
Record MTTRPoint := mkMTTRPoint { mpBucketStart : string; mpMeanMs : Z; mpP50Ms : Z; mpCount : Z }.

(** A metric that was not asked for is absent. *)
Record MetricsResponse := mkMetricsResponse {
  mrsCollecting : bool;
  mrsDeliveryEvents : bool;
  mrsGranularity : string;
  mrsFrequency : option (FrequencySummary * list FrequencyPoint);
  mrsLeadTime : option (LeadTimeSummary * list LeadTimePoint);
  mrsCFR : option (CFRSummary * list CFRPoint);
  mrsMTTR : option (MTTRSummary * list MTTRPoint)
}.

Record DeploymentRow := mkDeploymentRow {
  drDeployedAt : string;
  drProjectName : string;
  drComponentName : string;
  drEnvironmentName : string;
  drComponentRelease : string;
  drCommit : string;
  drOutcome : string;
  drFailedBy : string;
  drFailureReason : string;
  drIncidentID : string;
  drLeadTimeMs : option Z
}.

Record DeploymentsResponse := mkDeploymentsResponse { drsDeployments : list DeploymentRow; drsTotalCount : Z }.

(** ** Classifications *)

Definition DoraElite : string := "Elite".
Definition DoraHigh : string := "High".
Definition DoraMedium : string := "Medium".
Definition DoraLow : string := "Low".
Definition DoraUnknown : string := "Unknown".

Definition hourMs : Z := 3600000.

Definition classifyDeploymentFrequency (total : Z) (perDay : float64) : string :=
  if total =? 0 then DoraUnknown
  else if SFleb (floatOf 1) perDay then DoraElite
  else if SFleb (fdiv (floatOf 1) (floatOf 7)) perDay then DoraHigh
  else if SFleb (fdiv (floatOf 1) (floatOf 30)) perDay then DoraMedium
  else DoraLow.

Definition classifyLeadTime (p50Ms : option Z) : string :=
  match p50Ms with
  | None => DoraUnknown
  | Some p => if p <? 24 * hourMs then DoraElite else if p <? 7 * 24 * hourMs then DoraHigh
              else if p <? 30 * 24 * hourMs then DoraMedium else DoraLow
  end.

Definition classifyChangeFailureRate (total : Z) (rate : float64) : string :=
  if total =? 0 then DoraUnknown
  else if SFleb rate (fdiv (floatOf 5) (floatOf 100)) then DoraElite
  else if SFleb rate (fdiv (floatOf 10) (floatOf 100)) then DoraHigh
  else if SFleb rate (fdiv (floatOf 15) (floatOf 100)) then DoraMedium
  else DoraLow.

Definition classifyMTTR (meanMs : option Z) : string :=
  match meanMs with
  | None => DoraUnknown
  | Some m => if m <? hourMs then DoraElite else if m <? 24 * hourMs then DoraHigh
              else if m <? 7 * 24 * hourMs then DoraMedium else DoraLow
  end.

Definition metricDeploymentFrequency : string := "deploymentFrequency".
Definition metricLeadTime : string := "leadTime".
Definition metricChangeFailureRate : string := "changeFailureRate".
Definition metricMttr : string := "mttr".

Definition wantedMetrics (metrics : option (list string)) : list string :=
  match metrics with
  | None | Some [] => [metricDeploymentFrequency; metricLeadTime; metricChangeFailureRate; metricMttr]
  | Some ms => ms
  end.

(** [prev == 0] also of a negative zero. *)
Definition deltaPct (cur prev : float64) : option float64 :=
  if SFeqb prev (floatOf 0) then None else Some (round1 (fmul (fdiv (fsub cur prev) prev) (floatOf 100))).

(** ** Summaries *)

Definition ratio (part whole : Z) : float64 := fdiv (floatOf part) (floatOf whole).

Definition buildFrequencySummary (cur prev : DeploymentCounts) (windowMs : Z) : FrequencySummary :=
  let perDay :=
    if 0 <? windowMs then round2 (fdiv (floatOf (dcSuccess cur)) (fdiv (floatOf windowMs) (floatOf (24 * hourMs)))) else floatOf 0 in
  mkFrequencySummary (dcSuccess cur) perDay (classifyDeploymentFrequency (dcSuccess cur) perDay)
    (deltaPct (floatOf (dcSuccess cur)) (floatOf (dcSuccess prev))).

Definition buildCFRSummary (cur prev : DeploymentCounts) : CFRSummary :=
  let rate := if 0 <? dcTotal cur then round3 (ratio (dcFailed cur) (dcTotal cur)) else floatOf 0 in
  let prevRate := if 0 <? dcTotal prev then ratio (dcFailed prev) (dcTotal prev) else floatOf 0 in
  mkCFRSummary rate (dcFailed cur) (dcTotal cur) (classifyChangeFailureRate (dcTotal cur) rate) (deltaPct rate prevRate).

Definition deltaOf (cur prev : option Z) : option float64 :=
  match cur, prev with Some c, Some p => deltaPct (floatOf c) (floatOf p) | _, _ => None end.

Definition leadTimeSummaryOf (leadTimes prevLeadTimes : list Z) (success : Z) : LeadTimeSummary :=
  let p50 := Percentile leadTimes 50 in
  mkLeadTimeSummary p50 (Percentile leadTimes 95)
    (if 0 <? success then round3 (min1 (ratio (Z.of_nat (length leadTimes)) success)) else floatOf 0)
    (classifyLeadTime p50) (deltaOf p50 (Percentile prevLeadTimes 50)).

Definition mttrSummaryOf (durations prevDurations : list Z) : MTTRSummary :=
  let mean := Mean durations in
  mkMTTRSummary mean (Percentile durations 50) (Z.of_nat (length durations)) (classifyMTTR mean) (deltaOf mean (Mean prevDurations)).

(** ** Series *)

Definition byBucketOf (rollups : list MetricRollup) : gmap Z MetricRollup :=
  foldl (λ m r, <[mrBucketStartMs r := r]> m) ∅ rollups.

(** The loop over the starts of the buckets before the end.  A bucket is at least
    a day long. *)
Fixpoint bucketLoop (fuel : nat) (granularity : string) (b endMs : Z) : list Z :=
  match fuel with
  | O => []
  | S fuel => if b <? endMs then b :: bucketLoop fuel granularity (NextBucketStartMs granularity b) endMs else []
  end.

Definition bucketStarts (granularity : string) (startMs endMs : Z) : list Z :=
  bucketLoop (Z.to_nat ((endMs - startMs) / dayMs + 1)) granularity startMs endMs.

(** The zero value of a missing entry. *)
Definition countAt (count : MetricRollup → Z) (byBucket : gmap Z MetricRollup) (b : Z) : Z :=
  match byBucket !! b with Some r => count r | None => 0 end.

Definition buildFrequencySeries (byBucket : gmap Z MetricRollup) (granularity : string) (startMs endMs : Z) : list FrequencyPoint :=
  (λ b, mkFrequencyPoint (formatMs b) (countAt mrDeploySuccess byBucket b)) <$> bucketStarts granularity startMs endMs.

Definition buildCFRSeries (byBucket : gmap Z MetricRollup) (granularity : string) (startMs endMs : Z) : list CFRPoint :=
  (λ b, let total := countAt mrDeployTotal byBucket b in let failed := countAt mrDeployFailed byBucket b in
        mkCFRPoint (formatMs b) (if 0 <? total then round3 (ratio failed total) else floatOf 0) failed total)
  <$> bucketStarts granularity startMs endMs.

Definition sortedBuckets (byBucket : gmap Z MetricRollup) : list (Z * MetricRollup) :=
  merge_sort (byMs true fst) (map_to_list byBucket).

Definition int64PtrValue (v : option Z) : Z := default 0 v.

Definition leadTimePoint (br : Z * MetricRollup) : option LeadTimePoint :=
  (λ p50, mkLeadTimePoint (formatMs br.1) p50 (int64PtrValue (mrLeadTimeP75Ms br.2)) (int64PtrValue (mrLeadTimeP95Ms br.2)))
  <$> mrLeadTimeP50Ms br.2.
Definition mttrPoint (br : Z * MetricRollup) : option MTTRPoint :=
  (λ mean, mkMTTRPoint (formatMs br.1) mean (int64PtrValue (mrMTTRP50Ms br.2)) (mrRecoveryCount br.2)) <$> mrMTTRMeanMs br.2.

Definition buildLeadTimeSeries (byBucket : gmap Z MetricRollup) : list LeadTimePoint := omap leadTimePoint (sortedBuckets byBucket).
Definition buildMTTRSeries (byBucket : gmap Z MetricRollup) : list MTTRPoint := omap mttrPoint (sortedBuckets byBucket).

(** ** The service *)

(** The resolver of names, by the turn in which it is asked. *)
Class ScopeUIDResolver := {
  GetProjectUID : nat → string → string → string + clientError;
  GetComponentUID : nat → string → string → string → string + clientError;
  GetEnvironmentUID : nat → string → string → string + clientError
}.

(** Names as identifiers, for development. *)
Definition passthroughUIDResolver : ScopeUIDResolver := {|
  GetProjectUID _ _ project := inl project;
  GetComponentUID _ _ _ component := inl component;
  GetEnvironmentUID _ _ environment := inl environment
|}.

Record DoraMetricsService := mkDoraService {
  dsHasStore : bool;
  dsCollecting : bool;
  dsEventsAvailable : bool
}.

Record resolvedDeliveryInsightsScope := mkResolved {
  riScopeType : string;
  riScopeUID : string;
  riNamespace : string;
  riProjectUID : string;
  riComponentUID : string;
  riEnvironmentUID : string
}.

Definition factQuery (rs : resolvedDeliveryInsightsScope) (startMs endMs : Z) : FactQuery :=
  mkFactQuery (riNamespace rs) (riProjectUID rs) (riComponentUID rs) (riEnvironmentUID rs) startMs endMs 0 true "".

Definition pageQuery (rs : resolvedDeliveryInsightsScope) (req : DoraDeploymentsQueryRequest) : FactQuery :=
  mkFactQuery (riNamespace rs) (riProjectUID rs) (riComponentUID rs) (riEnvironmentUID rs)
    (UnixMilli (dqStartTime req)) (UnixMilli (dqEndTime req)) (intPtrValue (dqLimit req) defaultQueryLimit) false
    (default "" (dqSortOrder req)).

Definition rollupQueryOf (rs : resolvedDeliveryInsightsScope) (granularity : string) (startMs endMs : Z) : RollupQuery :=
  mkRollupQuery (riScopeType rs) (riScopeUID rs) (riEnvironmentUID rs) granularity startMs endMs (riNamespace rs) (riProjectUID rs).

Definition wrapScopeError (resourceType resourceName : string) (err : clientError) : clientError :=
  if hasTag ErrResourceNotFound err then
    mkClientError ("alerts search scope resolution failed: " +:+ resourceType +:+ " " +:+ quoted resourceName
                   +:+ " not found: search scope resource not found") [ErrAlertsResolveSearchScope; ErrScopeNotFound]
  else
    mkClientError ("alerts search scope resolution failed: failed to resolve " +:+ resourceType +:+ " " +:+ quoted resourceName
                   +:+ ": search scope resolution infrastructure error") [ErrAlertsResolveSearchScope; ErrScopeResolutionFailed].

Definition deploymentRow (f : DeploymentFact) : DeploymentRow :=
  mkDeploymentRow (formatMs (OccurredMs f)) (dfProjectName f) (dfComponentName f) (dfEnvironmentName f) (dfComponentRelease f)
    (dfCommitSHA f) (dfOutcome f) (dfFailedBy f) (dfFailureReason f) (dfIncidentID f) (dfLeadTimeMs f).

Definition granularityOf (g : option string) : string :=
  match g with Some g => if bool_decide (g = "") then GranularityDaily else g | None => GranularityDaily end.

#[local] Abbreviation IM := (CM World).

Section Service.
Context {MR : MapRange} {T : Turns} {R : ScopeUIDResolver} (s : DoraMetricsService).

(** A call that is no database call and may fail. *)
Definition resolve (f : nat → string + clientError) : IM string := λ w,
  (takeTurn w (tnOthers (turnAt (wStep w)) (wDB w)), f (wStep w)).

Definition resolveScope (scope : ComponentSearchScope) : IM resolvedDeliveryInsightsScope :=
  let namespace := TrimSpace (ssNamespace scope) in
  let project := TrimSpace (stringPtrValue (ssProject scope)) in
  let component := TrimSpace (stringPtrValue (ssComponent scope)) in
  let environment := TrimSpace (stringPtrValue (ssEnvironment scope)) in
  projectUID ← (if bool_decide (project = "") then mret ""
                else orElse (resolve (λ n, GetProjectUID n namespace project)) (wrapScopeError "project" project));
  componentUID ← (if bool_decide (component = "") then mret ""
                  else orElse (resolve (λ n, GetComponentUID n namespace project component)) (wrapScopeError "component" component));
  environmentUID ← (if bool_decide (environment = "") then mret ""
                    else orElse (resolve (λ n, GetEnvironmentUID n namespace environment)) (wrapScopeError "environment" environment));
  let '(scopeType, scopeUID) :=
    if negb (bool_decide (component = "")) then (ScopeTypeComponent, componentUID)
    else if negb (bool_decide (project = "")) then (ScopeTypeProject, projectUID)
    else (ScopeTypeNamespace, namespace) in
  mret (mkResolved scopeType scopeUID namespace projectUID componentUID environmentUID).

Definition countDeployments (rs : resolvedDeliveryInsightsScope) (startMs endMs : Z) : IM DeploymentCounts :=
  orElse (CountDeployments (factQuery rs startMs endMs)) (wrapErrorf "count deployments: ").

Definition queryRollupsByBucket (rs : resolvedDeliveryInsightsScope) (granularity : string) (startMs endMs : Z) : IM (gmap Z MetricRollup) :=
  rollups ← orElse (QueryRollups (rollupQueryOf rs granularity startMs endMs)) (wrapErrorf "query delivery metric rollups: ");
  mret (byBucketOf rollups).

Definition buildLeadTimeSummary (rs : resolvedDeliveryInsightsScope) (startMs endMs windowMs : Z) (cur : DeploymentCounts) : IM LeadTimeSummary :=
  leadTimes ← orElse (QueryLeadTimes (factQuery rs startMs endMs)) (wrapErrorf "query lead times: ");
  prevLeadTimes ← orElse (QueryLeadTimes (factQuery rs (startMs - windowMs) startMs)) (wrapErrorf "query previous-window lead times: ");
  mret (leadTimeSummaryOf leadTimes prevLeadTimes (dcSuccess cur)).

Definition buildMTTRSummary (rs : resolvedDeliveryInsightsScope) (startMs endMs windowMs : Z) : IM MTTRSummary :=
  durations ← orElse (QueryRecoveryDurations (factQuery rs startMs endMs)) (wrapErrorf "query recovery durations: ");
  prevDurations ← orElse (QueryRecoveryDurations (factQuery rs (startMs - windowMs) startMs))
                    (wrapErrorf "query previous-window recovery durations: ");
  mret (mttrSummaryOf durations prevDurations).

(** A part of the response, if it is wanted. *)
Definition whenWanted {A} (wanted : list string) (metric : string) (m : IM A) : IM (option A) :=
  if bool_decide (metric ∈ wanted) then x ← m; mret (Some x) else mret None.

Definition QueryDoraMetrics (req : DoraMetricsQueryRequest) : IM MetricsResponse :=
  let granularity := granularityOf (mqGranularity req) in
  if negb (dsHasStore s) then mret (mkMetricsResponse (dsCollecting s) (dsEventsAvailable s) granularity None None None None)
  else
    rs ← resolveScope (mqSearchScope req);
    let wanted := wantedMetrics (mqMetrics req) in
    let startMs := UnixMilli (mqStartTime req) in
    let endMs := UnixMilli (mqEndTime req) in
    let windowMs := endMs - startMs in
    curTotals ← countDeployments rs startMs endMs;
    prevTotals ← countDeployments rs (startMs - windowMs) startMs;
    let bucketStart := BucketStartMs granularity startMs in
    current ← queryRollupsByBucket rs granularity bucketStart endMs;
    frequency ← whenWanted wanted metricDeploymentFrequency
      (mret (buildFrequencySummary curTotals prevTotals windowMs, buildFrequencySeries current granularity bucketStart endMs));
    cfr ← whenWanted wanted metricChangeFailureRate
      (mret (buildCFRSummary curTotals prevTotals, buildCFRSeries current granularity bucketStart endMs));
    leadTime ← whenWanted wanted metricLeadTime
      (summary ← buildLeadTimeSummary rs startMs endMs windowMs curTotals; mret (summary, buildLeadTimeSeries current));
    mttr ← whenWanted wanted metricMttr
      (summary ← buildMTTRSummary rs startMs endMs windowMs; mret (summary, buildMTTRSeries current));
    mret (mkMetricsResponse (dsCollecting s) (dsEventsAvailable s) granularity frequency leadTime cfr mttr).

Definition QueryDoraDeployments (req : DoraDeploymentsQueryRequest) : IM DeploymentsResponse :=
  if negb (dsHasStore s) then mret (mkDeploymentsResponse [] 0)
  else
    rs ← resolveScope (dqSearchScope req);
    '(facts, total) ← orElse (QueryDeploymentFacts (pageQuery rs req)) (wrapErrorf "query deployment facts: ");
    mret (mkDeploymentsResponse (deploymentRow <$> facts) total).
End Service.

(** ** Authorization *)

Definition observerActionViewDeliveryInsights : string := "deliveryinsights:view".
Definition ResourceTypeUnknown : string := "unknown".
Definition ResourceTypeComponent : string := "component".
Definition ResourceTypeProject : string := "project".
Definition ResourceTypeNamespace : string := "namespace".

Definition ComponentScopeAuthz (namespace project component : string) : string * string * ResourceHierarchy :=
  if bool_decide (namespace = "") && bool_decide (project = "") && bool_decide (component = "") then
    (ResourceTypeUnknown, "", mkHierarchy "" "" "" "")
  else if negb (bool_decide (component = "")) then (ResourceTypeComponent, component, mkHierarchy namespace project component "")
  else if negb (bool_decide (project = "")) then (ResourceTypeProject, project, mkHierarchy namespace project "" "")
  else (ResourceTypeNamespace, namespace, mkHierarchy namespace "" "" "").

(** The decision point, by the turn in which it is asked. *)
Class PDP := { pdpEvaluate : nat → EvaluateRequest → Decision + clientError }.

Definition noAttributes : Context := mkContext (mkResourceAttribute "" "" "" "").

Section Authorized.
Context {MR : MapRange} {T : Turns} {R : ScopeUIDResolver} {P : PDP}.

(** [enabled] is whether there is a decision point; [subject] is what the
    middleware left in the context. *)
Definition CheckAuthorization (enabled : bool) (subject : option SubjectContext) (action resourceType resourceID : string)
    (hierarchy : ResourceHierarchy) (authzCtx : Context) : IM unit :=
  if negb enabled then mret ()
  else
    match subject with
    | None => fails (mkClientError "unauthorized request" [ErrAuthzUnauthorized])
    | Some subject => λ w,
        let w' := takeTurn w (tnOthers (turnAt (wStep w)) (wDB w)) in
        match pdpEvaluate (wStep w) (mkEvaluateRequest (Some subject) (mkResource resourceType resourceID hierarchy) action authzCtx) with
        | inr err => (w', inr (wrapErrorf "authorization evaluation failed: " err))
        | inl decision =>
            (w', if Decision_ decision then inl () else inr (mkClientError "insufficient permissions to perform this action" [ErrAuthzForbidden]))
        end
    end.

Definition checkScope (enabled : bool) (subject : option SubjectContext) (scope : ComponentSearchScope) : IM unit :=
  let project := match ssProject scope with Some p => TrimSpace p | None => "" end in
  let component := match ssComponent scope with Some c => TrimSpace c | None => "" end in
  let '(resourceType, resourceName, hierarchy) := ComponentScopeAuthz (ssNamespace scope) project component in
  CheckAuthorization enabled subject observerActionViewDeliveryInsights resourceType resourceName hierarchy noAttributes.

Definition AuthorizedDoraMetrics (enabled : bool) (subject : option SubjectContext) (s : DoraMetricsService)
    (req : DoraMetricsQueryRequest) : IM MetricsResponse :=
  checkScope enabled subject (mqSearchScope req) ≫= λ _, QueryDoraMetrics s req.

Definition AuthorizedDoraDeployments (enabled : bool) (subject : option SubjectContext) (s : DoraMetricsService)
    (req : DoraDeploymentsQueryRequest) : IM DeploymentsResponse :=
  checkScope enabled subject (dqSearchScope req) ≫= λ _, QueryDoraDeployments s req.
End Authorized.

(** ** Handlers *)

Definition deliveryInsightsMaxQueryTimeRange : Z := 400 * 24 * 3600 * 1000000000.
Definition MaxLimit : Z := 1000.
Definition sortOrderAsc : string := "asc".
Definition defaultSortOrder : string := "desc".

(** The error, or the scope with its namespace trimmed. *)
Definition validateDoraScopeAndWindow (scope : ComponentSearchScope) (startTime endTime : option Z) : result ComponentSearchScope :=
  match startTime, endTime with
  | None, _ => Err "startTime is required"
  | _, None => Err "endTime is required"
  | Some start, Some stop =>
      if stop <=? start then Err "endTime must be after startTime"
      else if deliveryInsightsMaxQueryTimeRange <? stop - start then Err "query time range cannot exceed 400 days"
      else
        let namespace := TrimSpace (ssNamespace scope) in
        if bool_decide (namespace = "") then Err "searchScope.namespace is required"
        else if negb (bool_decide (stringPtrValue (ssComponent scope) = "")) && bool_decide (stringPtrValue (ssProject scope) = "") then
          Err "searchScope.project is required when searchScope.component is provided"
        else Ok (mkSearchScope namespace (ssProject scope) (ssComponent scope) (ssEnvironment scope))
  end.

Definition ValidateDoraMetricsQueryRequest (req : DoraMetricsQueryRequest) : result DoraMetricsQueryRequest :=
  match validateDoraScopeAndWindow (mqSearchScope req) (mqStartTime req) (mqEndTime req) with
  | Err msg => Err msg
  | Ok scope =>
      if match mqGranularity req with
         | Some g => negb (bool_decide (g = "")) && negb (bool_decide (g ∈ ["daily"; "weekly"; "monthly"]))
         | None => false
         end
      then Err "granularity must be one of: daily, weekly, monthly"
      else if negb (forallb (λ m, bool_decide (m ∈ ["deploymentFrequency"; "leadTime"; "changeFailureRate"; "mttr"])) (default [] (mqMetrics req)))
      then Err "metrics must be a subset of: deploymentFrequency, leadTime, changeFailureRate, mttr"
      else Ok (mkMetricsRequest scope (mqStartTime req) (mqEndTime req) (mqGranularity req) (mqMetrics req))
  end.

Definition ValidateDoraDeploymentsQueryRequest (req : DoraDeploymentsQueryRequest) : result DoraDeploymentsQueryRequest :=
  match validateDoraScopeAndWindow (dqSearchScope req) (dqStartTime req) (dqEndTime req) with
  | Err msg => Err msg
  | Ok scope =>
      if match dqLimit req with Some l => l <=? 0 | None => false end then Err "limit must be a positive integer greater than zero"
      else if match dqLimit req with Some l => MaxLimit <? l | None => false end then Err "limit cannot exceed 1000"
      else if match dqSortOrder req with Some o => negb (bool_decide (o = sortOrderAsc)) && negb (bool_decide (o = defaultSortOrder)) | None => false end
      then Err "sortOrder must be either 'asc' or 'desc'"
      else Ok (mkDeploymentsRequest scope (dqStartTime req) (dqEndTime req) (dqLimit req) (dqSortOrder req))
  end.

(** A status with the code and the message of its body, or the response. *)
Inductive httpAnswer (A : Type) :=
  | Answer200 (resp : A)
  | AnswerError (status : Z) (code message : string).
Arguments Answer200 {A} resp.
Arguments AnswerError {A} status code message.

Definition deliveryInsightsErrorPayload {A} (err : clientError) (errorCode message : string) : httpAnswer A :=
  if hasTag ErrAuthzForbidden err then AnswerError 403 "" "Access denied"
  else if hasTag ErrAuthzUnauthorized err then AnswerError 401 "" "Unauthorized"
  else if hasTag ErrAuthzServiceUnavailable err || hasTag ErrAuthzTimeout err then
    AnswerError 503 "AUTHZ_UNAVAILABLE" "authorization service temporarily unavailable"
  else if hasTag ErrScopeNotFound err then AnswerError 400 "SCOPE_NOT_FOUND" "one or more resources in the search scope were not found"
  else if hasTag ErrScopeResolutionFailed err then AnswerError 500 "RESOLVE_SCOPE_FAILED" "failed to resolve search scope"
  else AnswerError 500 errorCode message.

Definition answerOf {A} (errorCode message : string) (m : IM A) : IM (httpAnswer A) :=
  r ← attempt m;
  mret (match r with inl resp => Answer200 resp | inr err => deliveryInsightsErrorPayload err errorCode message end).

Section Handlers.
Context {MR : MapRange} {T : Turns} {R : ScopeUIDResolver} {P : PDP}.
Context (enabled : bool) (subject : option SubjectContext) (service : option DoraMetricsService).

(** [None] is a request without a body. *)
Definition HandleDoraMetrics (body : option DoraMetricsQueryRequest) : IM (httpAnswer MetricsResponse) :=
  match body with
  | None => mret (AnswerError 400 "INVALID_REQUEST_BODY" "invalid request body: request body is required")
  | Some req =>
      match ValidateDoraMetricsQueryRequest req with
      | Err msg => mret (AnswerError 400 "VALIDATION_ERROR" msg)
      | Ok req =>
          match service with
          | None => mret (AnswerError 500 "SERVICE_NOT_READY" "delivery insights querier is not initialized")
          | Some s => answerOf "QUERY_DORA_METRICS_FAILED" "failed to query DORA metrics" (AuthorizedDoraMetrics enabled subject s req)
          end
      end
  end.

Definition HandleDoraDeployments (body : option DoraDeploymentsQueryRequest) : IM (httpAnswer DeploymentsResponse) :=
  match body with
  | None => mret (AnswerError 400 "INVALID_REQUEST_BODY" "invalid request body: request body is required")
  | Some req =>
      match ValidateDoraDeploymentsQueryRequest req with
      | Err msg => mret (AnswerError 400 "VALIDATION_ERROR" msg)
      | Ok req =>
          match service with
          | None => mret (AnswerError 500 "SERVICE_NOT_READY" "delivery insights querier is not initialized")
          | Some s => answerOf "QUERY_DORA_DEPLOYMENTS_FAILED" "failed to query deployments" (AuthorizedDoraDeployments enabled subject s req)
          end
      end
  end.
End Handlers.
