(* ===== verification/InsightsServiceSpec.v ===== *)
(** * Delivery insights: what the answers say

    The series of a window lists its buckets, all of them and in order; what it
    counts adds up to the summary; an answer depends on rows of the authorized
    scope alone; and the rounding that changes a classification and a trend. *)

From S2P Require Import Prelude GoStrings AuthzCore GoValue PlaneObjects InsightsCompute InsightsStore InsightsAggregator.
From S2P Require Import InsightsFactsSpec InsightsSweepSpec InsightsRollupSpec InsightsService.

#[local] Open Scope Z_scope.

(** ** The buckets of a window *)

Lemma bucket_idem g ms : BucketStartMs g (BucketStartMs g ms) = BucketStartMs g ms.
Proof. destruct (bucket_partition g ms) as [H1 H2]. apply H2. lia. Qed.

Lemma next_after g ms : BucketStartMs g ms + dayMs <= NextBucketStartMs g (BucketStartMs g ms).
Proof.
  rewrite NextBucketStartMs_days, BucketStartMs_days. pose proof (proj1 (bucketDays_partition g (ms / dayMs))) as H.
  revert H. generalize (bucketDays g (ms / dayMs)) as p. generalize (ms / dayMs) as z. intros z p H. unfold dayMs. lia.
Qed.

(** The next bucket starts where a bucket ends. *)
Lemma next_is_start g ms : let n := NextBucketStartMs g (BucketStartMs g ms) in BucketStartMs g n = n.
Proof.
  cbv zeta. set (n := NextBucketStartMs g (BucketStartMs g ms)). destruct (bucket_partition g ms) as [H1 H2]. fold n in H1, H2.
  destruct (bucket_partition g n) as [K1 K2]. destruct (decide (BucketStartMs g n = n)) as [|Hne]; [done|exfalso].
  assert (E1 : BucketStartMs g (n - 1) = BucketStartMs g ms) by (apply H2; lia).
  assert (E2 : BucketStartMs g (n - 1) = BucketStartMs g n) by (apply K2; lia).
  rewrite <- E2, E1 in K1. fold n in K1. lia.
Qed.

Lemma bucketLoop_spec fuel g b e :
  BucketStartMs g b = b → e - b < dayMs * Z.of_nat fuel →
  StronglySorted Z.lt (bucketLoop fuel g b e) ∧ ∀ x, x ∈ bucketLoop fuel g b e ↔ b <= x < e ∧ BucketStartMs g x = x.
Proof.
  revert b. induction fuel as [|fuel IH]; intros b Hb Hfuel.
  { cbn [bucketLoop]. split; [constructor|]. intros x. rewrite elem_of_nil. lia. }
  cbn [bucketLoop]. destruct (b <? e) eqn:E; [apply Z.ltb_lt in E|apply Z.ltb_ge in E; split; [constructor|intros x; rewrite elem_of_nil; lia]].
  pose proof (bucket_partition g b) as [H1 H2]. pose proof (next_is_start g b) as Hn. pose proof (next_after g b) as Hday. cbv zeta in Hn.
  rewrite Hb in H1, H2, Hn, Hday. set (n := NextBucketStartMs g b) in *.
  destruct (IH n Hn ltac:(lia)) as [Hs Hin]. split.
  - constructor; [done|]. apply Forall_forall. intros x [Hx _]%Hin. unfold dayMs in Hday. lia.
  - intros x. rewrite elem_of_cons, Hin. unfold dayMs in Hday. split.
    + intros [->|[Hx ?]]; [split; [lia|done]|split; [lia|done]].
    + intros [Hx Hst]. destruct (decide (n <= x)) as [|Hlt]; [right; split; [lia|done]|left]. rewrite <- Hst. apply H2. lia.
Qed.

Lemma bucketStarts_spec g start e :
  let b := BucketStartMs g start in
  StronglySorted Z.lt (bucketStarts g b e) ∧ ∀ x, x ∈ bucketStarts g b e ↔ b <= x < e ∧ BucketStartMs g x = x.
Proof.
  cbv zeta. apply bucketLoop_spec; [apply bucket_idem|]. set (b := BucketStartMs g start).
  pose proof (Z.div_mod (e - b) dayMs ltac:(done)) as Hd. pose proof (Z.mod_pos_bound (e - b) dayMs ltac:(done)) as Hm.
  unfold dayMs in *. lia.
Qed.

(** ** Counting by bucket *)

Lemma sorted_nodup l : StronglySorted Z.lt l → NoDup l.
Proof.
  induction 1 as [|x l _ IH Hall]; constructor; [|done]. intros Hx. rewrite Forall_forall in Hall. specialize (Hall x Hx). lia.
Qed.

Definition total (l : list Z) : Z := foldr Z.add 0 l.

Lemma total_add {A} (f g : A → Z) l : total ((λ x, f x + g x) <$> l) = total (f <$> l) + total (g <$> l).
Proof. unfold total. induction l as [|x l IH]; cbn in *; lia. Qed.

Lemma total_zero {A} (l : list A) : total ((λ _, 0) <$> l) = 0.
Proof. unfold total. induction l as [|x l IH]; cbn in *; lia. Qed.

Lemma total_indicator (bs : list Z) k : NoDup bs → total ((λ b, if decide (k = b) then 1 else 0) <$> bs) = if decide (k ∈ bs) then 1 else 0.
Proof.
  induction 1 as [|b bs Hb _ IH]; [by rewrite decide_False by apply not_elem_of_nil|]. unfold total in *. cbn. rewrite IH.
  destruct (decide (k = b)) as [->|Hne].
  - rewrite decide_False by done. rewrite decide_True by left. done.
  - destruct (decide (k ∈ bs)) as [Hin|Hin].
    + rewrite decide_True by (by right). done.
    + rewrite decide_False; [done|]. by intros [?|?]%elem_of_cons.
Qed.

(** What is counted bucket by bucket is counted once. *)
Lemma count_buckets {A} (P : A → Prop) `{!∀ x, base.Decision (P x)} (key : A → Z) (bs : list Z) (l : list A) :
  NoDup bs →
  total ((λ b, Z.of_nat (length (filter (λ x, P x ∧ key x = b) l))) <$> bs) = Z.of_nat (length (filter (λ x, P x ∧ key x ∈ bs) l)).
Proof.
  intros Hbs. induction l as [|x l IH]; [cbn; by rewrite total_zero|].
  assert (Hstep : ∀ b, Z.of_nat (length (filter (λ x, P x ∧ key x = b) (x :: l))) =
            (if decide (P x) then if decide (key x = b) then 1 else 0 else 0) + Z.of_nat (length (filter (λ x, P x ∧ key x = b) l))).
  { intros b. destruct (decide (P x)) as [Hp|Hp]; [destruct (decide (key x = b)) as [Hk|Hk]|].
    - rewrite filter_cons_True by done. cbn [length]. lia.
    - rewrite filter_cons_False by tauto. lia.
    - rewrite filter_cons_False by tauto. lia. }
  rewrite (list_fmap_ext _ _ bs (λ _ b _, Hstep b)), total_add, IH.
  destruct (decide (P x)) as [Hp|Hp]; [rewrite total_indicator by done; destruct (decide (key x ∈ bs)) as [Hk|Hk]|rewrite total_zero].
  - rewrite (filter_cons_True (λ x, P x ∧ key x ∈ bs)) by done. cbn [length]. lia.
  - rewrite (filter_cons_False (λ x, P x ∧ key x ∈ bs)) by tauto. lia.
  - rewrite (filter_cons_False (λ x, P x ∧ key x ∈ bs)) by tauto. lia.
Qed.

(** ** The answer, as a function of the tables *)

Section Answers.
Context {MR : MapRange} {ML : MapRangeLaws}.

Definition finishedIn (q : FactQuery) (db : InsightsDB) : list DeploymentFact :=
  filter (λ f, Is_true (factInScope q f && negb (bool_decide (dfOutcome f = OutcomeInProgress)) && within q (OccurredMs f))) (rows (dbFacts db)).

Definition countsIn (q : FactQuery) (db : InsightsDB) : DeploymentCounts :=
  let n := Z.of_nat (length (finishedIn q db)) in
  let success := Z.of_nat (length (filter (λ f, dfOutcome f = OutcomeSuccess) (finishedIn q db))) in
  mkCounts n success (n - success).

Definition rollupsIn (q : RollupQuery) (db : InsightsDB) : list MetricRollup :=
  merge_sort (byMs true mrBucketStartMs) (filter (λ r, Is_true (rollupMatches q r)) (map_to_list (dbRollups db)).*2).

Definition wantedPart {A} (wanted : list string) (metric : string) (x : A) : option A :=
  if bool_decide (metric ∈ wanted) then Some x else None.

Definition metricsOf (s : DoraMetricsService) (rs : resolvedDeliveryInsightsScope) (req : DoraMetricsQueryRequest) (db : InsightsDB) : MetricsResponse :=
  let granularity := granularityOf (mqGranularity req) in
  let wanted := wantedMetrics (mqMetrics req) in
  let startMs := UnixMilli (mqStartTime req) in
  let endMs := UnixMilli (mqEndTime req) in
  let prevMs := startMs - (endMs - startMs) in
  let cur := countsIn (factQuery rs startMs endMs) db in
  let prev := countsIn (factQuery rs prevMs startMs) db in
  let b := BucketStartMs granularity startMs in
  let current := byBucketOf (rollupsIn (rollupQueryOf rs granularity b endMs) db) in
  mkMetricsResponse (dsCollecting s) (dsEventsAvailable s) granularity
    (wantedPart wanted metricDeploymentFrequency
       (buildFrequencySummary cur prev (endMs - startMs), buildFrequencySeries current granularity b endMs))
    (wantedPart wanted metricLeadTime
       (leadTimeSummaryOf (selectLeadTimes (factQuery rs startMs endMs) db) (selectLeadTimes (factQuery rs prevMs startMs) db) (dcSuccess cur),
        buildLeadTimeSeries current))
    (wantedPart wanted metricChangeFailureRate (buildCFRSummary cur prev, buildCFRSeries current granularity b endMs))
    (wantedPart wanted metricMttr
       (mttrSummaryOf (selectRecoveryDurations (factQuery rs startMs endMs) db) (selectRecoveryDurations (factQuery rs prevMs startMs) db),
        buildMTTRSeries current)).

Context {T : Turns} {R : ScopeUIDResolver} (Hcalm : calm T).

(** A call that gives a function of the tables and leaves them alone. *)
Definition reads {A} (m : CM World A) (f : InsightsDB → A) : Prop :=
  ∀ w, pagesEnough (wDB w) → ∃ w', m w = (w', inl (f (wDB w))) ∧ wDB w' = wDB w.

Lemma reads_ret {A} (x : A) : reads (mret x) (λ _, x).
Proof. intros w _. by exists w. Qed.

Lemma reads_bind {A B} (m : CM World A) (k : A → CM World B) f g :
  reads m f → (∀ x, reads (k x) (g x)) → reads (m ≫= k) (λ db, g (f db) db).
Proof.
  intros Hm Hk w Hp. destruct (Hm w Hp) as (w1 & Hrun & Hdb). destruct (Hk (f (wDB w)) w1) as (w2 & Hrun2 & Hdb2); [by rewrite Hdb|].
  exists w2. rewrite CM_bind_eq, Hrun, Hrun2, Hdb. split; [done|congruence].
Qed.

Lemma reads_orElse {A} (m : CM World A) e f : reads m f → reads (orElse m e) f.
Proof. intros Hm w Hp. destruct (Hm w Hp) as (w1 & Hrun & Hdb). exists w1. unfold orElse. by rewrite Hrun. Qed.

Lemma reads_dbCall {A} (f : InsightsDB → A) : reads (dbCall (λ _ db, (db, f db))) f.
Proof. intros w _. rewrite (dbCall_calm Hcalm). eexists. split; [done|]. done. Qed.

Lemma rows_size {A} (t : gmap string A) : length (rows t) = size t.
Proof. unfold rows. by rewrite length_fmap, map_range_perm, length_map_to_list. Qed.

Lemma reads_pages {A} (select : InsightsDB → list A) :
  (∀ db, (length (select db) <= size (dbFacts db))%nat ∨ (length (select db) <= size (dbRecoveries db))%nat) → reads (pages select) select.
Proof.
  intros Hlen w [Hf Hr]. apply (pages_calm Hcalm). destruct (Hlen (wDB w)); lia.
Qed.

Lemma omap_length {A B} (f : A → option B) l : (length (omap f l) <= length l)%nat.
Proof. induction l as [|x l IH]; cbn; [done|]. destruct (f x); cbn; lia. Qed.

Lemma reads_leadTimes rs s e : reads (QueryLeadTimes (factQuery rs s e)) (selectLeadTimes (factQuery rs s e)).
Proof.
  apply reads_pages. intros db. left. unfold selectLeadTimes. etrans; [apply omap_length|]. rewrite merge_sort_Permutation, <- rows_size.
  apply length_filter.
Qed.

Lemma reads_durations rs s e : reads (QueryRecoveryDurations (factQuery rs s e)) (selectRecoveryDurations (factQuery rs s e)).
Proof.
  apply reads_pages. intros db. right. unfold selectRecoveryDurations. etrans; [apply omap_length|]. rewrite merge_sort_Permutation, <- rows_size.
  apply length_filter.
Qed.

Lemma reads_counts rs s e : reads (countDeployments rs s e) (countsIn (factQuery rs s e)).
Proof. apply reads_orElse, reads_dbCall. Qed.

Lemma reads_rollups rs g s e :
  validateRollupQuery (rollupQueryOf rs g s e) = None →
  reads (queryRollupsByBucket rs g s e) (λ db, byBucketOf (rollupsIn (rollupQueryOf rs g s e) db)).
Proof.
  intros Hv. unfold queryRollupsByBucket. apply (reads_bind _ _ (rollupsIn _) (λ l _, byBucketOf l)); [|intros; apply reads_ret].
  apply reads_orElse. unfold QueryRollups. rewrite Hv. apply reads_dbCall.
Qed.

Lemma reads_wanted {A} wanted metric (m : CM World A) f : reads m f → reads (whenWanted wanted metric m) (λ db, wantedPart wanted metric (f db)).
Proof.
  intros Hm. unfold whenWanted, wantedPart. case_bool_decide; [|apply reads_ret].
  apply (reads_bind _ _ f (λ x _, Some x)); [done|intros; apply reads_ret].
Qed.

(** What the rest of a query needs. *)
Definition queryable (rs : resolvedDeliveryInsightsScope) (req : DoraMetricsQueryRequest) : Prop :=
  let granularity := granularityOf (mqGranularity req) in
  validateRollupQuery (rollupQueryOf rs granularity (BucketStartMs granularity (UnixMilli (mqStartTime req))) (UnixMilli (mqEndTime req))) = None.

Lemma reads_leadTimeSummary {A} rs s e windowMs cur (x : A) :
  reads (summary ← buildLeadTimeSummary rs s e windowMs cur; mret (summary, x))
    (λ db, (leadTimeSummaryOf (selectLeadTimes (factQuery rs s e) db) (selectLeadTimes (factQuery rs (s - windowMs) s) db) (dcSuccess cur), x)).
Proof.
  apply (reads_bind _ _ _ (λ summary _, (summary, x))); [|intros; apply reads_ret]. unfold buildLeadTimeSummary.
  apply (reads_bind _ _ _ (λ l db, leadTimeSummaryOf l (selectLeadTimes (factQuery rs (s - windowMs) s) db) (dcSuccess cur)));
    [apply reads_orElse, reads_leadTimes|]. intros l.
  apply (reads_bind _ _ _ (λ l' _, leadTimeSummaryOf l l' (dcSuccess cur))); [apply reads_orElse, reads_leadTimes|intros; apply reads_ret].
Qed.

Lemma reads_mttrSummary {A} rs s e windowMs (x : A) :
  reads (summary ← buildMTTRSummary rs s e windowMs; mret (summary, x))
    (λ db, (mttrSummaryOf (selectRecoveryDurations (factQuery rs s e) db) (selectRecoveryDurations (factQuery rs (s - windowMs) s) db), x)).
Proof.
  apply (reads_bind _ _ _ (λ summary _, (summary, x))); [|intros; apply reads_ret]. unfold buildMTTRSummary.
  apply (reads_bind _ _ _ (λ l db, mttrSummaryOf l (selectRecoveryDurations (factQuery rs (s - windowMs) s) db)));
    [apply reads_orElse, reads_durations|]. intros l.
  apply (reads_bind _ _ _ (λ l' _, mttrSummaryOf l l')); [apply reads_orElse, reads_durations|intros; apply reads_ret].
Qed.

(** The next read of a sequence, on the same tables. *)
Ltac next_read H :=
  rewrite CM_bind_eq;
  match goal with
  | E : wDB ?w = ?db |- context [match _ ?w with _ => _ end] =>
      let w' := fresh "w" in let Hrun := fresh "Hrun" in let Hdb := fresh "Hdb" in
      destruct (H w ltac:(by rewrite E)) as (w' & Hrun & Hdb); rewrite ?E in Hrun; rewrite E in Hdb; cbv beta in Hrun; rewrite Hrun; clear Hrun; cbv beta iota
  end.

Lemma QueryDoraMetrics_reads s req rs w w1 :
  dsHasStore s = true → resolveScope (mqSearchScope req) w = (w1, inl rs) → queryable rs req → pagesEnough (wDB w1) →
  ∃ w', QueryDoraMetrics s req w = (w', inl (metricsOf s rs req (wDB w1))) ∧ wDB w' = wDB w1.
Proof.
  intros Hs Hrs Hq Hp. unfold QueryDoraMetrics. rewrite Hs. cbn [negb]. cbv zeta iota. rewrite CM_bind_eq, Hrs.
  unfold queryable in Hq. cbv zeta in Hq. unfold metricsOf. cbv zeta.
  set (g := granularityOf (mqGranularity req)) in *. set (wanted := wantedMetrics (mqMetrics req)).
  set (startMs := UnixMilli (mqStartTime req)) in *. set (endMs := UnixMilli (mqEndTime req)) in *.
  set (b := BucketStartMs g startMs) in *. remember (wDB w1) as db eqn:Edb. symmetry in Edb.
  next_read (reads_counts rs startMs endMs). next_read (reads_counts rs (startMs - (endMs - startMs)) startMs).
  next_read (reads_rollups rs g b endMs Hq). next_read (reads_wanted wanted metricDeploymentFrequency _ _ (reads_ret
    (buildFrequencySummary (countsIn (factQuery rs startMs endMs) db) (countsIn (factQuery rs (startMs - (endMs - startMs)) startMs) db) (endMs - startMs),
     buildFrequencySeries (byBucketOf (rollupsIn (rollupQueryOf rs g b endMs) db)) g b endMs))).
  next_read (reads_wanted wanted metricChangeFailureRate _ _ (reads_ret
    (buildCFRSummary (countsIn (factQuery rs startMs endMs) db) (countsIn (factQuery rs (startMs - (endMs - startMs)) startMs) db),
     buildCFRSeries (byBucketOf (rollupsIn (rollupQueryOf rs g b endMs) db)) g b endMs))).
  next_read (reads_wanted wanted metricLeadTime _ _
    (reads_leadTimeSummary rs startMs endMs (endMs - startMs) (countsIn (factQuery rs startMs endMs) db) (buildLeadTimeSeries (byBucketOf (rollupsIn (rollupQueryOf rs g b endMs) db))))).
  next_read (reads_wanted wanted metricMttr _ _
    (reads_mttrSummary rs startMs endMs (endMs - startMs) (buildMTTRSeries (byBucketOf (rollupsIn (rollupQueryOf rs g b endMs) db))))).
  eexists. split; [done|]. done.
Qed.
End Answers.

(** ** Rows of a scope *)

(** Not blank, and without space around. *)
Definition plainUID (u : string) : Prop := u ≠ "" ∧ TrimSpace u = u.

(** What a resolver gives is an identifier. *)
Class ResolverLaws `{ScopeUIDResolver} := {
  project_uid_plain : ∀ n ns p u, GetProjectUID n ns p = inl u → plainUID u;
  component_uid_plain : ∀ n ns p c u, GetComponentUID n ns p c = inl u → plainUID u;
  environment_uid_plain : ∀ n ns e u, GetEnvironmentUID n ns e = inl u → plainUID u
}.

(** The columns of a row are those of the scope, as far as it names them. *)
Definition inScope (rs : resolvedDeliveryInsightsScope) (namespace projectUID componentUID environmentUID : string) : Prop :=
  namespace = riNamespace rs ∧ (riProjectUID rs ≠ "" → projectUID = riProjectUID rs) ∧
  (riComponentUID rs ≠ "" → componentUID = riComponentUID rs) ∧ (riEnvironmentUID rs ≠ "" → environmentUID = riEnvironmentUID rs).

Definition factOfScope (rs : resolvedDeliveryInsightsScope) (f : DeploymentFact) : Prop :=
  inScope rs (dfNamespace f) (dfProjectUID f) (dfComponentUID f) (dfEnvironmentUID f).
Definition recoveryOfScope (rs : resolvedDeliveryInsightsScope) (r : RecoveryFact) : Prop :=
  inScope rs (rfNamespace r) (rfProjectUID r) (rfComponentUID r) (rfEnvironmentUID r).
Definition rollupOfScope (rs : resolvedDeliveryInsightsScope) (r : MetricRollup) : Prop :=
  mrNamespace r = riNamespace rs ∧ mrProjectUID r = riProjectUID rs ∧ mrScopeType r = riScopeType rs ∧ mrScopeUID r = riScopeUID rs ∧
  mrEnvironmentUID r = riEnvironmentUID rs.

(** Two databases with the same rows of a scope. *)
Definition sameScope (rs : resolvedDeliveryInsightsScope) (db db' : InsightsDB) : Prop :=
  (∀ k f, factOfScope rs f → dbFacts db !! k = Some f ↔ dbFacts db' !! k = Some f) ∧
  (∀ k r, recoveryOfScope rs r → dbRecoveries db !! k = Some r ↔ dbRecoveries db' !! k = Some r) ∧
  (∀ k r, rollupOfScope rs r → dbRollups db !! k = Some r ↔ dbRollups db' !! k = Some r).

(** A name that is not given, or a plain identifier. *)
Definition uidOrNone (u : string) : Prop := u = "" ∨ plainUID u.

Definition wellResolved (rs : resolvedDeliveryInsightsScope) : Prop :=
  plainUID (riNamespace rs) ∧ uidOrNone (riProjectUID rs) ∧ uidOrNone (riComponentUID rs) ∧ uidOrNone (riEnvironmentUID rs).

Lemma columnIs_plain c u : uidOrNone u → Is_true (columnIs c u) ↔ (u ≠ "" → c = u).
Proof.
  unfold columnIs. cbv zeta. rewrite Is_true_true, orb_true_iff, !bool_decide_eq_true. intros [->|[Hne ->]].
  - split; [done|]. by left.
  - split; [intros [?|?]; by intros|]. intros H. right. by apply H.
Qed.

Lemma scopeConditions_plain rs s e ns p c v :
  wellResolved rs → Is_true (factScopeConditions (factQuery rs s e) ns p c v) ↔ inScope rs ns p c v.
Proof.
  intros (Hn & Hp & Hc & He). unfold factScopeConditions, inScope. rewrite !andb_True. cbn [factQuery fqNamespace fqProjectUID fqComponentUID fqEnvironmentUID].
  rewrite !columnIs_plain by (done || by right). destruct Hn as [Hn _]. tauto.
Qed.

Section Independent.
Context {MR : MapRange} {ML : MapRangeLaws} (rs : resolvedDeliveryInsightsScope) (db db' : InsightsDB) (Hrs : wellResolved rs) (Hsame : sameScope rs db db').

(** Two tables that agree on the rows of interest. *)
Lemma rows_agree {A} (P : A → Prop) `{!∀ x, base.Decision (P x)} (t t' : gmap string A) :
  (∀ k x, P x → t !! k = Some x ↔ t' !! k = Some x) → filter P (rows t) ≡ₚ filter P (rows t').
Proof.
  intros Ht. unfold rows. rewrite !map_range_perm.
  assert (Hpairs : filter (λ kv, P kv.2) (map_to_list t) ≡ₚ filter (λ kv, P kv.2) (map_to_list t')).
  { apply NoDup_Permutation; [apply NoDup_filter, NoDup_map_to_list..|]. intros [k x]. rewrite !list_elem_of_filter, !elem_of_map_to_list.
    cbn. split; intros [HP Hx]; (split; [done|]); by apply Ht. }
  assert (Hsnd : ∀ l : list (string * A), filter P l.*2 = (filter (λ kv, P kv.2) l).*2).
  { induction l as [|[k x] l IH]; [done|]. cbn [fmap list_fmap snd]. destruct (decide (P x)) as [Hx|Hx].
    - rewrite !filter_cons_True by done. cbn [fmap list_fmap snd]. by f_equal.
    - by rewrite !filter_cons_False by done. }
  by rewrite !Hsnd, Hpairs.
Qed.

Lemma facts_agree (Q : DeploymentFact → bool) s e :
  filter (λ f, Is_true (factInScope (factQuery rs s e) f && Q f)) (rows (dbFacts db)) ≡ₚ
  filter (λ f, Is_true (factInScope (factQuery rs s e) f && Q f)) (rows (dbFacts db')).
Proof.
  apply (rows_agree (λ f, Is_true (factInScope (factQuery rs s e) f && Q f))). intros k f [Hf _]%andb_True. apply Hsame.
  by apply (scopeConditions_plain rs s e) in Hf.
Qed.

Lemma recoveries_agree (Q : RecoveryFact → bool) s e :
  filter (λ r, Is_true (recoveryInScope (factQuery rs s e) r && Q r)) (rows (dbRecoveries db)) ≡ₚ
  filter (λ r, Is_true (recoveryInScope (factQuery rs s e) r && Q r)) (rows (dbRecoveries db')).
Proof.
  apply (rows_agree (λ r, Is_true (recoveryInScope (factQuery rs s e) r && Q r))). intros k r [Hr _]%andb_True. apply Hsame.
  by apply (scopeConditions_plain rs s e) in Hr.
Qed.

Lemma counts_agree s e : countsIn (factQuery rs s e) db = countsIn (factQuery rs s e) db'.
Proof.
  assert (Hf : finishedIn (factQuery rs s e) db ≡ₚ finishedIn (factQuery rs s e) db').
  { unfold finishedIn.
    pose proof (facts_agree (λ f, negb (bool_decide (dfOutcome f = OutcomeInProgress)) && within (factQuery rs s e) (OccurredMs f)) s e) as H.
    assert (Heq : ∀ l : list DeploymentFact,
      filter (λ f, Is_true (factInScope (factQuery rs s e) f && negb (bool_decide (dfOutcome f = OutcomeInProgress)) && within (factQuery rs s e) (OccurredMs f))) l =
      filter (λ f, Is_true (factInScope (factQuery rs s e) f && (negb (bool_decide (dfOutcome f = OutcomeInProgress)) && within (factQuery rs s e) (OccurredMs f)))) l).
    { intros l. apply list_filter_iff. intros f. by rewrite andb_assoc. }
    by rewrite !Heq. }
  unfold countsIn. by rewrite Hf.
Qed.

Lemma leadTimes_agree s e : selectLeadTimes (factQuery rs s e) db ≡ₚ selectLeadTimes (factQuery rs s e) db'.
Proof.
  unfold selectLeadTimes. rewrite !merge_sort_Permutation.
  assert (Heq : ∀ l : list DeploymentFact, filter (λ f, Is_true (factInScope (factQuery rs s e) f
        && match dfReadyMs f with Some ready => within (factQuery rs s e) ready | None => false end
        && match dfLeadTimeMs f with Some lead => 0 <=? lead | None => false end)) l =
      filter (λ f, Is_true (factInScope (factQuery rs s e) f
        && (match dfReadyMs f with Some ready => within (factQuery rs s e) ready | None => false end
            && match dfLeadTimeMs f with Some lead => 0 <=? lead | None => false end))) l).
  { intros l. apply list_filter_iff. intros f. by rewrite andb_assoc. }
  rewrite !Heq. apply omap_Permutation, facts_agree.
Qed.

Lemma durations_agree s e : selectRecoveryDurations (factQuery rs s e) db ≡ₚ selectRecoveryDurations (factQuery rs s e) db'.
Proof.
  unfold selectRecoveryDurations. rewrite !merge_sort_Permutation.
  assert (Heq : ∀ l : list RecoveryFact, filter (λ r, Is_true (recoveryInScope (factQuery rs s e) r && within (factQuery rs s e) (rfFailureStartedMs r)
        && match rfDurationMs r with Some d => 0 <=? d | None => false end)) l =
      filter (λ r, Is_true (recoveryInScope (factQuery rs s e) r && (within (factQuery rs s e) (rfFailureStartedMs r)
        && match rfDurationMs r with Some d => 0 <=? d | None => false end))) l).
  { intros l. apply list_filter_iff. intros r. by rewrite andb_assoc. }
  rewrite !Heq. apply omap_Permutation, recoveries_agree.
Qed.
End Independent.

(** ** Rollups by bucket *)

(** A row is stored at its primary key. *)
Definition keyedRollups (db : InsightsDB) : Prop := ∀ k r, dbRollups db !! k = Some r → pkOf r = k.

Lemma byBucketOf_lookup l b r :
  NoDup (mrBucketStartMs <$> l) → byBucketOf l !! b = Some r ↔ r ∈ l ∧ mrBucketStartMs r = b.
Proof.
  induction l as [|x l IH] using rev_ind; intros Hnd.
  { unfold byBucketOf. cbn. rewrite lookup_empty, elem_of_nil. naive_solver. }
  rewrite fmap_app in Hnd. apply NoDup_app in Hnd as (Hnd & Hx & _). unfold byBucketOf in *. rewrite foldl_snoc.
  rewrite lookup_insert_Some, IH, elem_of_app, list_elem_of_singleton by done. split.
  - intros [[Hb Hxr]|[Hne [Hr Hb]]]; [subst; split; [by right|done]|split; [by left|done]].
  - intros [[Hr|Hr] <-]; [|subst; by left]. right. split; [|done]. intros Heq. apply (Hx (mrBucketStartMs r)); [by apply list_elem_of_fmap_2|].
    rewrite <- Heq. cbn. left.
Qed.

Lemma rollupMatches_pk q r : Is_true (rollupMatches q r) → pkOf r = (rqScopeType q, rqScopeUID q, rqEnvironmentUID q, rqGranularity q, mrBucketStartMs r).
Proof. unfold rollupMatches. rewrite !andb_True, !bool_decide_spec. intros (((((((H1 & H2) & H3) & H4) & _) & _) & _) & _). unfold pkOf. congruence. Qed.

Lemma rollupsIn_elem q db r : r ∈ rollupsIn q db ↔ Is_true (rollupMatches q r) ∧ ∃ k, dbRollups db !! k = Some r.
Proof.
  unfold rollupsIn. rewrite merge_sort_Permutation, list_elem_of_filter, list_elem_of_fmap. apply and_iff_compat_l. split.
  - intros ([k r'] & -> & Hk%elem_of_map_to_list). by exists k.
  - intros [k Hk]. exists (k, r). split; [done|]. by apply elem_of_map_to_list.
Qed.

Lemma rollupsIn_nodup q db : keyedRollups db → NoDup (mrBucketStartMs <$> rollupsIn q db).
Proof.
  intros Hk. unfold rollupsIn. rewrite merge_sort_Permutation.
  assert (Hpk : NoDup (pkOf <$> (map_to_list (dbRollups db)).*2)).
  { rewrite <- list_fmap_compose. assert (Hfst : pkOf ∘ snd <$> map_to_list (dbRollups db) = (map_to_list (dbRollups db)).*1).
    { apply list_fmap_ext. intros i [k r] Hi. cbn. apply Hk. apply elem_of_map_to_list. by eapply list_elem_of_lookup_2. }
    rewrite Hfst. apply NoDup_fst_map_to_list. }
  apply (NoDup_fmap_1 (λ b, (rqScopeType q, rqScopeUID q, rqEnvironmentUID q, rqGranularity q, b))). rewrite <- list_fmap_compose.
  assert (Heq : (λ b, (rqScopeType q, rqScopeUID q, rqEnvironmentUID q, rqGranularity q, b)) ∘ mrBucketStartMs
                <$> filter (λ r, Is_true (rollupMatches q r)) (map_to_list (dbRollups db)).*2 =
              pkOf <$> filter (λ r, Is_true (rollupMatches q r)) (map_to_list (dbRollups db)).*2).
  { apply list_fmap_ext. intros i r Hi%list_elem_of_lookup_2. apply list_elem_of_filter in Hi as [Hm _]. by rewrite (rollupMatches_pk q r Hm). }
  rewrite Heq. eapply sublist_NoDup; [exact Hpk|]. apply fmap_sublist, sublist_filter.
Qed.

Lemma byBucket_agree rs db db' g s e :
  sameScope rs db db' → keyedRollups db → keyedRollups db' →
  byBucketOf (rollupsIn (rollupQueryOf rs g s e) db) = byBucketOf (rollupsIn (rollupQueryOf rs g s e) db').
Proof.
  intros (_ & _ & Hs) Hk Hk'. apply map_eq. intros b. apply option_eq. intros r.
  rewrite !byBucketOf_lookup by (by apply rollupsIn_nodup). rewrite !rollupsIn_elem.
  assert (Hr : Is_true (rollupMatches (rollupQueryOf rs g s e) r) → rollupOfScope rs r).
  { unfold rollupMatches. rewrite !andb_True, !bool_decide_spec. cbn [rollupQueryOf rqScopeType rqScopeUID rqEnvironmentUID rqGranularity rqNamespace rqProjectUID].
    intros (((((((H1 & H2) & H3) & H4) & H5) & H6) & _) & _). done. }
  split; intros [[Hm [k Hr']] Hb]; (split; [split; [done|exists k]|done]); by apply (Hs k r (Hr Hm)).
Qed.

Lemma metrics_agree `{MR : MapRange, !MapRangeLaws} s rs req db db' :
  wellResolved rs → sameScope rs db db' → keyedRollups db → keyedRollups db' → metricsOf s rs req db = metricsOf s rs req db'.
Proof.
  intros Hrs Hsame Hk Hk'. unfold metricsOf. cbv zeta. rewrite !(counts_agree rs db db' Hrs Hsame).
  rewrite (byBucket_agree rs db db' _ _ _ Hsame Hk Hk'). unfold leadTimeSummaryOf, mttrSummaryOf.
  rewrite !(Percentile_perm _ _ _ (leadTimes_agree rs db db' Hrs Hsame _ _)), !(Permutation_length (leadTimes_agree rs db db' Hrs Hsame _ _)).
  rewrite !(Percentile_perm _ _ _ (durations_agree rs db db' Hrs Hsame _ _)), !(Permutation_length (durations_agree rs db db' Hrs Hsame _ _)).
  by rewrite !(Mean_perm _ _ (durations_agree rs db db' Hrs Hsame _ _)).
Qed.

(** ** Calls that do not look at the tables *)

Definition withDB (w : World) (db : InsightsDB) : World := mkWorld db (wStep w) (wUnavailableUntilMs w).

Section Blind.
Context {T : Turns} {R : ScopeUIDResolver} {RL : ResolverLaws} {P : PDP} (Hcalm : calm T).

Definition blind {A} (m : CM World A) : Prop := ∀ w db, wDB (m w).1 = wDB w ∧ m (withDB w db) = (withDB (m w).1 db, (m w).2).

Lemma blind_ret {A} (x : A) : blind (mret x).
Proof. done. Qed.

Lemma blind_fails {A} err : blind (fails (A := A) err).
Proof. done. Qed.

Lemma blind_bind {A B} (m : CM World A) (k : A → CM World B) : blind m → (∀ x, blind (k x)) → blind (m ≫= k).
Proof.
  intros Hm Hk w db. rewrite !CM_bind_eq. destruct (Hm w db) as [H1 H2]. rewrite H2. destruct (m w) as [w1 [x|err]]; cbn [fst snd] in *; [|done].
  destruct (Hk x w1 db) as [H3 H4]. split; [congruence|done].
Qed.

Lemma blind_orElse {A} (m : CM World A) f : blind m → blind (orElse m f).
Proof. intros Hm w db. unfold orElse. destruct (Hm w db) as [H1 ->]. by destruct (m w) as [w1 [x|err]]. Qed.

Lemma blind_resolve f : blind (resolve f).
Proof. intros w db. unfold resolve. destruct (Hcalm (wStep w)) as [_ Ho]. cbn [withDB wStep wDB]. rewrite !Ho. done. Qed.

Lemma resolveScope_blind scope : blind (resolveScope scope).
Proof.
  unfold resolveScope. repeat (apply blind_bind; [case_bool_decide; [apply blind_ret|apply blind_orElse, blind_resolve]|intros ?]).
  repeat case_goal; apply blind_ret.
Qed.

Lemma checkScope_blind enabled subject scope : blind (checkScope enabled subject scope).
Proof.
  unfold checkScope. destruct (ComponentScopeAuthz _ _ _) as [[resourceType resourceName] hierarchy]. unfold CheckAuthorization.
  case_goal; [apply blind_ret|]. destruct subject as [subject|]; [|apply blind_fails]. intros w db. cbv zeta. cbn [withDB wStep wDB].
  destruct (Hcalm (wStep w)) as [_ Ho]. rewrite !Ho. by destruct (pdpEvaluate _ _).
Qed.

(** ** What was asked and allowed *)

(** The names of a scope were resolved to these identifiers. *)
Definition resolvedFor (scope : ComponentSearchScope) (rs : resolvedDeliveryInsightsScope) : Prop :=
  let project := TrimSpace (stringPtrValue (ssProject scope)) in
  let component := TrimSpace (stringPtrValue (ssComponent scope)) in
  let environment := TrimSpace (stringPtrValue (ssEnvironment scope)) in
  riNamespace rs = TrimSpace (ssNamespace scope) ∧
  (if bool_decide (project = "") then riProjectUID rs = "" else ∃ n, GetProjectUID n (riNamespace rs) project = inl (riProjectUID rs)) ∧
  (if bool_decide (component = "") then riComponentUID rs = ""
   else ∃ n, GetComponentUID n (riNamespace rs) project component = inl (riComponentUID rs)) ∧
  (if bool_decide (environment = "") then riEnvironmentUID rs = ""
   else ∃ n, GetEnvironmentUID n (riNamespace rs) environment = inl (riEnvironmentUID rs)).

(** One name of a scope. *)
Lemma resolved_name name (f : nat → string + clientError) wrap w w' u :
  (if bool_decide (name = "") then mret "" else orElse (resolve f) wrap) w = (w', inl u) →
  if bool_decide (name = "") then u = "" else ∃ n, f n = inl u.
Proof.
  case_bool_decide; [by intros [= _ <-]|]. unfold orElse, resolve. destruct (f (wStep w)) as [x|] eqn:Ef; [|done]. intros [= _ <-]. by eexists.
Qed.

Lemma resolveScope_resolved scope w w' rs : resolveScope scope w = (w', inl rs) → resolvedFor scope rs.
Proof.
  intros (w1 & p & Hp%resolved_name & (w2 & c & Hc%resolved_name & (w3 & v & Hv%resolved_name & Hret)%CM_bind_inl)%CM_bind_inl)%CM_bind_inl.
  destruct (negb (bool_decide (TrimSpace (stringPtrValue (ssComponent scope)) = ""))); [injection Hret as _ <-; done|].
  destruct (negb (bool_decide (TrimSpace (stringPtrValue (ssProject scope)) = ""))); injection Hret as _ <-; done.
Qed.

Lemma resolved_uid name (f : nat → string + clientError) u :
  (∀ n, f n = inl u → plainUID u) → (if bool_decide (name = "") then u = "" else ∃ n, f n = inl u) → uidOrNone u.
Proof. intros Hf. case_bool_decide; [by left|]. intros [n Hn]. right. by eapply Hf. Qed.

Lemma resolvedFor_well scope rs : plainUID (TrimSpace (ssNamespace scope)) → resolvedFor scope rs → wellResolved rs.
Proof.
  intros Hns (Hn & Hp & Hc & Hv). unfold wellResolved. rewrite Hn. split; [done|].
  split; [|split].
  - eapply (resolved_uid _ (λ n, GetProjectUID n _ _)); [|exact Hp]. intros n. apply project_uid_plain.
  - eapply (resolved_uid _ (λ n, GetComponentUID n _ _ _)); [|exact Hc]. intros n. apply component_uid_plain.
  - eapply (resolved_uid _ (λ n, GetEnvironmentUID n _ _)); [|exact Hv]. intros n. apply environment_uid_plain.
Qed.

(** The decision point allowed the view on what the scope names. *)
Definition allowed (n : nat) (subject : SubjectContext) (scope : ComponentSearchScope) : Prop :=
  ∃ resourceType resourceName d,
    pdpEvaluate n (mkEvaluateRequest (Some subject)
      (mkResource resourceType resourceName
         (mkHierarchy (ssNamespace scope) (stringPtrValue (ssProject scope)) (stringPtrValue (ssComponent scope)) ""))
      observerActionViewDeliveryInsights noAttributes) = inl d ∧ Decision_ d = true.

Lemma ComponentScopeAuthz_hierarchy namespace project component :
  namespace ≠ "" → ∃ resourceType resourceName, ComponentScopeAuthz namespace project component = (resourceType, resourceName, mkHierarchy namespace project component "").
Proof.
  intros Hns. unfold ComponentScopeAuthz. rewrite (bool_decide_false (namespace = "")) by done. cbn [andb].
  case_bool_decide as Ec; [case_bool_decide as Ep|]; cbn [negb]; subst; by eexists _, _.
Qed.

Lemma checkScope_allowed subject scope w w' :
  ssNamespace scope ≠ "" → checkScope true subject scope w = (w', inl ()) → ∃ sub, subject = Some sub ∧ allowed (wStep w) sub scope.
Proof.
  intros Hns. unfold checkScope. fold (stringPtrValue (ssProject scope)) (stringPtrValue (ssComponent scope)).
  destruct (ComponentScopeAuthz_hierarchy (ssNamespace scope) (stringPtrValue (ssProject scope)) (stringPtrValue (ssComponent scope)) Hns) as (rt & rn & ->).
  unfold CheckAuthorization. cbn [negb]. destruct subject as [sub|]; [|done]. destruct (pdpEvaluate _ _) as [d|] eqn:Ed; [|done].
  destruct (Decision_ d) eqn:Edd; [|done]. intros _. exists sub. split; [done|]. by exists rt, rn, d.
Qed.
End Blind.

Lemma TrimRightSpace_idem s : TrimRightSpace (TrimRightSpace s) = TrimRightSpace s.
Proof.
  induction s as [|c s IH]; [done|]. cbn. destruct (TrimRightSpace s) as [|d t] eqn:E.
  - destruct (is_space c) eqn:Ec; [done|]. cbn. by rewrite Ec.
  - cbn in *. destruct (TrimRightSpace t) as [|d' t'] eqn:Et; [|by rewrite IH]. destruct (is_space d); [done|]. by rewrite IH.
Qed.

Lemma TrimSpace_idem s : TrimSpace (TrimSpace s) = TrimSpace s.
Proof.
  unfold TrimSpace. assert (Hl : TrimLeftSpace (TrimRightSpace (TrimLeftSpace s)) = TrimRightSpace (TrimLeftSpace s)).
  { assert (Hc : TrimLeftSpace s = "" ∨ ∃ c t, TrimLeftSpace s = String c t ∧ is_space c = false).
    { induction s as [|c s IH]; [by left|]. cbn. destruct (is_space c) eqn:Ec; [done|right; eauto]. }
    destruct Hc as [->|(c & t & -> & Hc)]; [done|]. cbn. rewrite Hc. destruct (TrimRightSpace t); cbn; by rewrite Hc. }
  by rewrite Hl, TrimRightSpace_idem.
Qed.

(** A metrics answer was computed from the tables. *)
Lemma QueryDoraMetrics_inl `{MR : MapRange, T : Turns, R : ScopeUIDResolver} s req w w' resp :
  dsHasStore s = true → QueryDoraMetrics s req w = (w', inl resp) →
  ∃ w1 rs, resolveScope (mqSearchScope req) w = (w1, inl rs) ∧ queryable rs req.
Proof.
  intros Hs. unfold QueryDoraMetrics. rewrite Hs. cbn [negb]. cbv zeta iota.
  intros (w1 & rs & Hrs & (w2 & cur & _ & (w3 & prev & _ & (w4 & current & Hq & _)%CM_bind_inl)%CM_bind_inl)%CM_bind_inl)%CM_bind_inl.
  exists w1, rs. split; [done|]. unfold queryable. cbv zeta. unfold queryRollupsByBucket in Hq. apply CM_bind_inl in Hq as (w5 & rollups & Hq & _).
  unfold orElse, QueryRollups in Hq. by destruct (validateRollupQuery _).
Qed.

Lemma validated_namespace req req' :
  ValidateDoraMetricsQueryRequest req = Ok req' → plainUID (ssNamespace (mqSearchScope req')).
Proof.
  unfold ValidateDoraMetricsQueryRequest, validateDoraScopeAndWindow. destruct (mqStartTime req) as [start|]; [|done]. destruct (mqEndTime req) as [stop|]; [|done].
  destruct (stop <=? start); [done|]. destruct (deliveryInsightsMaxQueryTimeRange <? stop - start); [done|]. case_bool_decide as Hns; [done|].
  destruct (negb _ && _); [done|]. repeat (case_goal; [done|]). intros [= <-]. cbn. split; [done|apply TrimSpace_idem].
Qed.


(** ** Series and summary *)

(** A resolved scope is a namespace, a project of it or a component of that. *)
Definition scopeShape (rs : resolvedDeliveryInsightsScope) : Prop :=
  riScopeType rs = ScopeTypeNamespace ∧ riScopeUID rs = riNamespace rs ∧ riProjectUID rs = "" ∧ riComponentUID rs = "" ∨
  riScopeType rs = ScopeTypeProject ∧ riScopeUID rs = riProjectUID rs ∧ riProjectUID rs ≠ "" ∧ riComponentUID rs = "" ∨
  riScopeType rs = ScopeTypeComponent ∧ riScopeUID rs = riComponentUID rs ∧ riProjectUID rs ≠ "" ∧ riComponentUID rs ≠ "".

(** The scope its rollups are stored under. *)
Definition rollupScopeOf (rs : resolvedDeliveryInsightsScope) : rollupScope :=
  mkScope (riScopeType rs) (riScopeUID rs) (riEnvironmentUID rs) (riNamespace rs) (riProjectUID rs).

Lemma sliced_elem environmentUID base s :
  s ∈ (if bool_decide (rsScopeUID base = "") then [] else if bool_decide (environmentUID = "") then [base] else [base; slicedBy environmentUID base]) ↔
  rsScopeUID base ≠ "" ∧ (s = base ∨ environmentUID ≠ "" ∧ s = slicedBy environmentUID base).
Proof.
  case_bool_decide; [rewrite elem_of_nil; naive_solver|]. case_bool_decide; rewrite !elem_of_cons, elem_of_nil; naive_solver.
Qed.

Lemma scopesForFact_elem t u v n p ns pu cu eu :
  mkScope t u v n p ∈ scopesForFact ns pu cu eu ↔
  (t = ScopeTypeNamespace ∧ u = ns ∧ n = ns ∧ p = "" ∨ t = ScopeTypeProject ∧ u = pu ∧ n = ns ∧ p = pu
   ∨ t = ScopeTypeComponent ∧ u = cu ∧ n = ns ∧ p = pu) ∧ u ≠ "" ∧ (v = "" ∨ v = eu).
Proof.
  unfold scopesForFact. rewrite list_elem_of_bind. split.
  - intros (base & [Hne Hs]%sliced_elem & Hb). rewrite !elem_of_cons, elem_of_nil in Hb.
    destruct Hb as [->|[->|[->|[]]]]; cbn in *; destruct Hs as [Hs|[_ Hs]]; injection Hs; intros; subst; (split; [|split; [done|auto]]); auto 6.
  - intros (Hb & Hne & Hv).
    assert (Hwit : ∀ base, base ∈ [mkScope ScopeTypeNamespace ns "" ns ""; mkScope ScopeTypeProject pu "" ns pu; mkScope ScopeTypeComponent cu "" ns pu] →
      rsScopeType base = t → rsScopeUID base = u → rsNamespace base = n → rsProjectUID base = p → rsEnvironmentUID base = "" → ∃ x, mkScope t u v n p ∈ (if bool_decide (rsScopeUID x = "") then [] else if bool_decide (eu = "") then [x] else [x; slicedBy eu x]) ∧ x ∈ [mkScope ScopeTypeNamespace ns "" ns ""; mkScope ScopeTypeProject pu "" ns pu; mkScope ScopeTypeComponent cu "" ns pu]).
    { intros base Hin H1 H2 H3 H4 H5. exists base. split; [|done]. apply sliced_elem. split; [congruence|]. destruct base. cbn in *. subst.
      destruct (decide (v = "")) as [->|Hv']; [by left|right]. destruct Hv as [|Hv]; [done|]. subst v. done. }
    destruct Hb as [(-> & -> & -> & ->)|[(-> & -> & -> & ->)|(-> & -> & -> & ->)]].
    + eapply Hwit; [left|done..].
    + eapply Hwit; [right; left|done..].
    + eapply Hwit; [right; right; left|done..].
Qed.

Lemma scope_of_fact rs f : wellResolved rs → scopeShape rs → rollupScopeOf rs ∈ factScopes f ↔ factOfScope rs f.
Proof.
  intros ([Hns _] & Hp & Hc & He) Hshape. unfold factScopes, rollupScopeOf. rewrite scopesForFact_elem. unfold factOfScope, inScope.
  assert (Henv : riEnvironmentUID rs = "" ∨ riEnvironmentUID rs = dfEnvironmentUID f ↔ (riEnvironmentUID rs ≠ "" → dfEnvironmentUID f = riEnvironmentUID rs)).
  { destruct (decide (riEnvironmentUID rs = "")); naive_solver. }
  rewrite Henv. assert (Hd : ScopeTypeNamespace ≠ ScopeTypeProject ∧ ScopeTypeNamespace ≠ ScopeTypeComponent ∧ ScopeTypeProject ≠ ScopeTypeComponent) by done.
  destruct Hd as (Hd1 & Hd2 & Hd3). clear Henv.
  destruct Hshape as [(Ht & Hu & Hpe & Hce)|[(Ht & Hu & Hpe & Hce)|(Ht & Hu & Hpe & Hce)]]; rewrite Ht, Hu; split.
  - intros (Hcase & _ & Hv). destruct Hcase as [(_ & Hn & _ & _)|[(? & _)|(? & _)]]; [|congruence..]. by split_and!.
  - intros (Hn & _ & _ & Hv). split_and!; [left; by split_and!|done|done].
  - intros (Hcase & _ & Hv). destruct Hcase as [(? & _)|[(_ & Hpu & Hn & _)|(? & _)]]; [congruence| |congruence]. by split_and!.
  - intros (Hn & Hpu & _ & Hv). specialize (Hpu Hpe). split_and!; [right; left; by split_and!|done|done].
  - intros (Hcase & _ & Hv). destruct Hcase as [(? & _)|[(? & _)|(_ & Hcu & Hn & Hpu)]]; [congruence|congruence|]. by split_and!.
  - intros (Hn & Hpu & Hcu & Hv). specialize (Hpu Hpe). specialize (Hcu Hce). split_and!; [right; right; by split_and!|done|done].
Qed.

Section Fresh.
Context {MR : MapRange} {ML : MapRangeLaws} (db : InsightsDB) (tick : Z) (rs : resolvedDeliveryInsightsScope) (g : string) (startMs endMs : Z).

Definition keyAt (b : Z) : rollupKey := mkRollupKey (rollupScopeOf rs) g b.

(** The rollups of the buckets of the window are those a rebuild leaves. *)
Definition freshRollups : Prop :=
  ∀ b, b ∈ bucketStarts g startMs endMs →
    match dbRollups db !! pkOfKey (keyAt b) with
    | Some r => r = bucketRollup db tick (keyAt b)
    | None => ¬ counted tick db (keyAt b)
    end.

Context (Hrs : wellResolved rs) (Hshape : scopeShape rs) (Hg : g ∈ granularities) (Hkeyed : keyedRollups db) (Hfresh : freshRollups).
Context (Hstart : BucketStartMs g startMs = startMs) (Hend : BucketStartMs g endMs = endMs) (Htick : endMs <= tick + 1).

Let current : gmap Z MetricRollup := byBucketOf (rollupsIn (rollupQueryOf rs g startMs endMs) db).

Lemma windowBuckets : NoDup (bucketStarts g startMs endMs) ∧ ∀ b, b ∈ bucketStarts g startMs endMs ↔ startMs <= b < endMs ∧ BucketStartMs g b = b.
Proof.
  pose proof (bucketStarts_spec g startMs endMs) as H. cbv zeta in H. rewrite Hstart in H. destruct H as [Hs Hin].
  split; [by apply sorted_nodup|done].
Qed.

Lemma current_lookup b : b ∈ bucketStarts g startMs endMs → current !! b = dbRollups db !! pkOfKey (keyAt b).
Proof.
  intros Hb. apply option_eq. intros r. subst current. rewrite byBucketOf_lookup by (by apply rollupsIn_nodup). rewrite rollupsIn_elem. split.
  - intros [[Hm [k Hk]] Hbr]. pose proof (Hkeyed k r Hk) as Hpk. rewrite (rollupMatches_pk _ _ Hm), Hbr in Hpk. rewrite <- Hpk in Hk. exact Hk.
  - intros Hr. specialize (Hfresh b Hb). rewrite Hr in Hfresh. subst r. split; [|done]. split; [|by eexists].
    apply windowBuckets in Hb as [[H1 H2] _]. unfold rollupMatches. rewrite !andb_True, !bool_decide_spec.
    rewrite !Is_true_true, Z.leb_le, Z.ltb_lt. done.
Qed.

(** What a bucket counts. *)
Lemma current_count (count : MetricRollup → Z) (size_of : list DeploymentFact → Z) b :
  size_of [] = 0 → (∀ k, count (bucketRollup db tick k) = size_of (bucketFacts db tick k)) →
  b ∈ bucketStarts g startMs endMs → countAt count current b = size_of (bucketFacts db tick (keyAt b)).
Proof.
  intros H0 Hof Hb. unfold countAt. rewrite current_lookup by done. specialize (Hfresh b Hb). destruct (dbRollups db !! _) as [r|]; [by subst r|].
  destruct (bucketFacts db tick (keyAt b)) eqn:E; [done|]. exfalso. apply Hfresh. left. by rewrite E.
Qed.

Definition finished (f : DeploymentFact) : Prop := dfOutcome f ≠ OutcomeInProgress ∧ rollupScopeOf rs ∈ factScopes f ∧ OccurredMs f <= tick.
#[local] Instance finished_dec f : base.Decision (finished f).
Proof. unfold finished. apply _. Defined.

Lemma bucketFacts_key b : bucketFacts db tick (keyAt b) = filter (λ f, finished f ∧ BucketStartMs g (OccurredMs f) = b) (map_to_list (dbFacts db)).*2.
Proof.
  unfold bucketFacts. apply list_filter_iff. intros f. unfold factCounts, finished. rewrite rollupKeysOf_elem. cbn [keyAt rkScope rkGranularity rkBucketStart].
  split; [intros [[H1 (H2 & _ & H3)] H4]; done|]. intros [(H1 & H2 & H4) H3]. by split_and!.
Qed.

Lemma finishedIn_buckets :
  finishedIn (factQuery rs startMs endMs) db ≡ₚ
  filter (λ f, finished f ∧ BucketStartMs g (OccurredMs f) ∈ bucketStarts g startMs endMs) (map_to_list (dbFacts db)).*2.
Proof.
  unfold finishedIn, rows. rewrite map_range_perm. apply reflexive_eq, list_filter_iff. intros f. rewrite !andb_True, negb_True, bool_decide_spec.
  unfold factInScope. rewrite (scopeConditions_plain rs startMs endMs) by done. unfold finished. rewrite (scope_of_fact rs f Hrs Hshape). unfold factOfScope.
  destruct windowBuckets as [_ Hin]. rewrite Hin, bucket_idem. unfold within. cbn [factQuery fqStartMs fqEndMs]. rewrite andb_True, !Is_true_true, Z.leb_le, Z.ltb_lt.
  set (ms := OccurredMs f). pose proof (bucket_start_le g ms) as Hle.
  assert (Hlow : startMs <= ms ↔ startMs <= BucketStartMs g ms) by (split; [intros H; rewrite <- Hstart; by apply bucket_mono|lia]).
  assert (Hhigh : ms < endMs ↔ BucketStartMs g ms < endMs).
  { split; [lia|]. intros H. destruct (decide (ms < endMs)) as [|Hge]; [done|]. assert (H' : endMs <= BucketStartMs g ms) by (rewrite <- Hend; apply bucket_mono; lia). lia. }
  split; [intros [[H1 H2] [H3 H4]]; split_and!; [done..|lia|lia|lia|done]|].
  intros [(H1 & H2 & H3) [[H4 H5] _]]. split_and!; [done..|by apply Hlow|by apply Hhigh].
Qed.

(** A series adds up to a count over the window. *)
Lemma series_total (count : MetricRollup → Z) (P : DeploymentFact → Prop) `{!∀ f, base.Decision (P f)} :
  (∀ k, count (bucketRollup db tick k) = Z.of_nat (length (filter P (bucketFacts db tick k)))) →
  total (countAt count current <$> bucketStarts g startMs endMs) = Z.of_nat (length (filter P (finishedIn (factQuery rs startMs endMs) db))).
Proof.
  intros Hcount. rewrite finishedIn_buckets. set (l := (map_to_list (dbFacts db)).*2).
  assert (Heq : filter P (filter (λ f, finished f ∧ BucketStartMs g (OccurredMs f) ∈ bucketStarts g startMs endMs) l) =
                filter (λ f, (P f ∧ finished f) ∧ BucketStartMs g (OccurredMs f) ∈ bucketStarts g startMs endMs) l).
  { rewrite list_filter_filter. apply list_filter_iff. intros f. tauto. }
  rewrite Heq, <- (count_buckets (λ f, P f ∧ finished f) (λ f, BucketStartMs g (OccurredMs f))) by apply windowBuckets. f_equal.
  apply list_fmap_ext. intros i b Hb%list_elem_of_lookup_2. rewrite (current_count count (λ fs, Z.of_nat (length (filter P fs))) b) by done.
  rewrite bucketFacts_key, list_filter_filter. do 2 f_equal. apply list_filter_iff. intros f. tauto.
Qed.
End Fresh.

Lemma filter_split_length {A} (P : A → Prop) `{!∀ x, base.Decision (P x)} (l : list A) :
  Z.of_nat (length (filter (λ x, ¬ P x) l)) = Z.of_nat (length l) - Z.of_nat (length (filter P l)).
Proof.
  induction l as [|x l IH]; [done|]. destruct (decide (P x)) as [Hx|Hx].
  - rewrite filter_cons_False, filter_cons_True by tauto. cbn [length]. lia.
  - rewrite filter_cons_True, filter_cons_False by tauto. cbn [length]. lia.
Qed.

Lemma shape_queryable rs g startMs endMs :
  wellResolved rs → scopeShape rs → g ∈ granularities → startMs < endMs → validateRollupQuery (rollupQueryOf rs g startMs endMs) = None.
Proof.
  intros (Hn & Hp & Hc & _) Hshape Hg Hlt. unfold validateRollupQuery, rollupQueryOf. cbn [rqScopeType rqScopeUID rqGranularity rqStartMs rqEndMs].
  assert (Hu : plainUID (riScopeUID rs)) by (destruct Hshape as [(_ & -> & _)|[(_ & -> & ? & _)|(_ & -> & _ & ?)]]; [done|by destruct Hp|by destruct Hc]).
  assert (Ht : riScopeType rs ∈ [ScopeTypeNamespace; ScopeTypeProject; ScopeTypeComponent]).
  { rewrite !elem_of_cons. destruct Hshape as [(-> & _)|[(-> & _)|(-> & _)]]; auto. }
  unfold validateScopeType, validateGranularity, blank. rewrite (bool_decide_true _ Ht). destruct Hu as [Hu Htrim]. rewrite Htrim, (bool_decide_false _ Hu).
  rewrite (bool_decide_true _ Hg). by rewrite (proj2 (Z.leb_gt endMs startMs)).
Qed.


(** ** Rounding *)

(** The class of [n] successes, one for every [days] days of the window. *)
Definition cadenceClass (days n : Z) : string :=
  classifyDeploymentFrequency n
    (if 0 <? days * n * dayMs then round2 (fdiv (floatOf n) (fdiv (floatOf (days * n * dayMs)) (floatOf (24 * hourMs)))) else floatOf 0).

Lemma frequencyClass days n prev : fsClassification (buildFrequencySummary (mkCounts n n 0) prev (days * n * dayMs)) = cadenceClass days n.
Proof. done. Qed.

(** A steady cadence is put into the tier below its own.  One deployment for
    every seven days of a window is at least one a week, and one for every thirty
    at least one a month; but the rate is rounded to two digits before it is
    compared, and for every window that may be asked for the answers are Medium
    and Low. *)
Theorem cadence_misclassified (n : Z) (prev : DeploymentCounts) :
  1 <= n →
  (7 * n <= 400 → fsClassification (buildFrequencySummary (mkCounts n n 0) prev (7 * n * dayMs)) = DoraMedium) ∧
  (30 * n <= 400 → fsClassification (buildFrequencySummary (mkCounts n n 0) prev (30 * n * dayMs)) = DoraLow).
Proof.
  intros Hn. rewrite !frequencyClass. split; intros Hmax.
  - assert (Hall : forallb (λ n, bool_decide (cadenceClass 7 n = DoraMedium)) (seqZ 1 57) = true) by (vm_compute; reflexivity).
    rewrite forallb_forall in Hall. specialize (Hall n). rewrite bool_decide_eq_true in Hall. apply Hall, list_elem_of_In, elem_of_seqZ. lia.
  - assert (Hall : forallb (λ n, bool_decide (cadenceClass 30 n = DoraLow)) (seqZ 1 13) = true) by (vm_compute; reflexivity).
    rewrite forallb_forall in Hall. specialize (Hall n). rewrite bool_decide_eq_true in Hall. apply Hall, list_elem_of_In, elem_of_seqZ. lia.
Qed.

(** A failure rate of one third that does not change is reported as a change of
    minus a tenth of a percent: the rate is rounded, the one before it is not. *)
Example steady_failure_rate_moves :
  csDeltaPct (buildCFRSummary (mkCounts 3 2 1) (mkCounts 3 2 1)) = Some (fdiv (floatOf (-1)) (floatOf 10)).
Proof. vm_compute. reflexivity. Qed.

(** The rank of a percentile as the code computes it, in binary64, and as the model
    does. *)
Definition rankComputed (n percent : Z) : float64 :=
  SpecFloat.SFadd 53 1024 (fmul (floatOf n) (fdiv (floatOf percent) (floatOf 100))) (fdiv (floatOf 999999) (floatOf 1000000)).

Example ranks_agree :
  forallb (λ n, forallb (λ p,
      let r := floatOf ((n * p * 10000 + 999999) / 1000000) in
      SpecFloat.SFleb r (rankComputed n p) && SpecFloat.SFltb (rankComputed n p) (SpecFloat.SFadd 53 1024 r (floatOf 1)))
    [50; 75; 95]) (seqZ 1 300) = true.
Proof. vm_compute. reflexivity. Qed.
