(* ===== verification/InsightsWitness.v ===== *)
(** * Delivery insights at work

    A database, an adapter and codecs in memory, and the theorems applied to
    them; runs of ticks that lose an event and count a deployment twice. *)

From S2P Require Import Prelude GoStrings GoValue RenderErrors ReleaseObjects PlaneObjects ReleaseWitness RenderWitness.
From S2P Require Import K8sNames NetworkPolicy WorkloadContext BindingObjects BindingConnections BindingEndpoints BindingDelivery BindingDeliverySpec BindingWitness.
From S2P Require Import InsightsCompute InsightsStore InsightsAggregator InsightsFactsSpec InsightsSweepSpec InsightsLeaseSpec.
From S2P Require Import InsightsRollupSpec InsightsDeliverySpec InsightsService InsightsServiceSpec.

#[local] Set Warnings "-register-all".
#[local] Open Scope Z_scope.

(** ** The calendar *)

(** 2026-03-15 is a Sunday; its week starts on the 9th and its month on the 1st. *)
Example march_buckets :
  BucketStartMs GranularityDaily 1773619199999 = 1773532800000 ∧
  BucketStartMs GranularityWeekly 1773619199999 = 1773014400000 ∧
  BucketStartMs GranularityMonthly 1773619199999 = 1772323200000 ∧
  NextBucketStartMs GranularityMonthly 1772323200000 = 1775001600000 ∧
  civilOfDays (1773532800000 / dayMs) = (2026, 3, 15).
Proof. vm_compute. done. Qed.

Example leap_day : civilOfDays (Date 2024 2 29) = (2024, 2, 29) ∧ Date 2024 2 30 = Date 2024 3 1 ∧ Date 2023 14 1 = Date 2024 2 1.
Proof. vm_compute. done. Qed.

(** ** Codecs and turns *)

#[local] Instance anyOrder : MapRange := λ A m, map_to_list m.
#[local] Instance anyOrder_laws : MapRangeLaws.
Proof. intros A m. reflexivity. Qed.
#[local] Instance keyOrder : RollupRange := λ m, map_to_list m.
#[local] Instance keyOrder_laws : RollupRangeLaws.
Proof. intros m. reflexivity. Qed.

(** A message is the identifier of a rollout; commits have no time. *)
#[local] Instance plainCodec : EventCodec := {
  unmarshalPayload m := if bool_decide (m = "") then None else Some (mkEventPayload m "web-1" "acme" "p1" "c1" "e1" "" "" "" 1);
  parseEntryTime _ := None
}.

Definition entry (reason rollout : string) (ms : option Z) : EventEntry := mkEventEntry (Some reason) (Some rollout) ms None.

(** Every turn at the same time, with an adapter that serves these entries. *)
Definition servingTurns (now : Z) (entries : list EventEntry) : Turns := {|
  turnAt _ := mkTurn now now (λ db, db) NoFault (λ _ _ _, inl [])
    (λ from to, let es := filter (λ e, from <= default 0 (eeTimestampMs e) < to) entries in AdapterEvents (Z.of_nat (length es)) (Some es));
  pageFuel := 3
|}.

Definition replica : Aggregator := mkAggregator true (mkConfig 60000 120000 3600000 86400000) 100 "observer-1" 0.

Definition emptyDB : InsightsDB := mkDB ∅ ∅ ∅ ∅ {[aggregationLease := ("observer-1", 0)]}.

Lemma serving_quiet now entries : quietOthers (servingTurns now entries).
Proof. intros n db. by split. Qed.

(** ** Facts *)

Definition started : DeliveryEvent := eventOfEntry (entry ReasonDeploymentStarted "r1" (Some 500)).
Definition failed : DeliveryEvent := eventOfEntry (entry ReasonDeploymentFailed "r1" (Some 700)).
Definition succeeded : DeliveryEvent := eventOfEntry (entry ReasonDeploymentSucceeded "r1" (Some 900)).
Definition recovered : DeliveryEvent := eventOfEntry (entry ReasonDeploymentRecovered "r1" (Some 900)).

Example rollout_row :
  (λ f, (dfOutcome f, dfStartedMs f, dfReadyMs f, dfUpdatedAtMs f)) <$> factsAfter [(succeeded, 1); (failed, 2); (started, 3); (failed, 4)] !! "r1"
  = Some (OutcomeFailed, Some 500, Some 900, 4).
Proof. vm_compute. reflexivity. Qed.


Lemma late_failure_measures_nothing_witness :
  ∃ row, recoveriesAfter [(recovered, 1000); (failed, 2000); (recovered, 3000)] !! "health-r1-e1" = Some row ∧
    rfFailureStartedMs row = 900 ∧ rfDurationMs row = Some 0.
Proof.
  apply (late_failure_measures_nothing failed recovered 1000 [(failed, 2000); (recovered, 3000)] "health-r1-e1");
    [vm_compute; reflexivity..|left|].
  constructor; [by left|]. constructor; [by right|]. constructor.
Defined.

(** ** Ticks *)

(** Twelve days after the epoch. *)
Definition firstTick : Z := 1036800000.
Definition readyEntry : EventEntry := entry ReasonDeploymentSucceeded "r1" (Some 500000000).
Definition servedHistory (e : DeliveryEvent) : Prop := e = eventOfEntry readyEntry.
Definition tickTurns : Turns := servingTurns firstTick [readyEntry].
Definition firstWorld : World := mkWorld emptyDB 0 0.
Definition afterTick : InsightsDB := wDB (RunOnce (T := tickTurns) replica firstWorld).1.

Lemma tick_served : servedTurns servedHistory 60000 120000 tickTurns.
Proof.
  split.
  - apply serving_quiet.
  - intros n m _. cbn. unfold firstTick. lia.
  - intros n from to events complete (total & entries & Ha & -> & ->) e -> Hwin _. left. cbn [turnAt tickTurns servingTurns tnAdapter] in Ha.
    injection Ha as <- <-. cbn [default from_option id]. apply list_elem_of_fmap_2, list_elem_of_filter. split; [exact Hwin|left].
  - intros n from to events (total & entries & Ha & Hev & Hc) l Hl. exfalso. cbn [turnAt tickTurns servingTurns tnAdapter] in Ha.
    injection Ha as <- <-. rewrite Hev in Hc. cbn [default from_option id] in Hc. rewrite length_fmap, bool_decide_true in Hc by done. done.
Qed.


Lemma lease_exclusive_witness :
  (acquireLeaseQuery "dora" "b" 60 150 (foldl (leaseRun "dora") (acquireLeaseQuery "dora" "a" 60 100 (mkDB ∅ ∅ ∅ ∅ ∅)).1
     [(120, LeaseAcquire "b" 60); (130, LeaseRelease "b"); (140, LeaseWatermark "events" 7 "b")])).2 = 0.
Proof.
  destruct (lease_exclusive "dora" "a" 60 100 (mkDB ∅ ∅ ∅ ∅ ∅)
    [(120, LeaseAcquire "b" 60); (130, LeaseRelease "b"); (140, LeaseWatermark "events" 7 "b")]) as (H & _).
  - lia.
  - vm_compute. reflexivity.
  - repeat constructor; cbn; try lia; done.
  - rewrite H; [done|lia|done].
Defined.

(** An adapter that leaves out the time of a failure. *)
Definition untimedTurns : Turns := {|
  turnAt _ := mkTurn firstTick firstTick (λ db, db) NoFault (λ _ _ _, inl [])
    (λ _ _, AdapterEvents 2 (Some [readyEntry; entry ReasonDeploymentFailed "r2" None]));
  pageFuel := 3
|}.


(** A sweep that is cut a second behind its tick.  The failure of [r2] is served
    only after that tick, and the next tick goes on after it: the event is never
    asked for again, although it was late by less than the overlap. *)
Definition cutTurns (now : Z) (cut : bool) (entries : list EventEntry) : Turns := {|
  turnAt _ := mkTurn now now (λ db, db) NoFault (λ _ _ _, inl [])
    (λ from to, let es := filter (λ e, from <= default 0 (eeTimestampMs e) < to) entries in
                AdapterEvents (Z.of_nat (length es) + (if cut then 1 else 0)) (Some es));
  pageFuel := 3
|}.

Definition lateEntry : EventEntry := entry ReasonDeploymentSucceeded "r2" (Some 1036798000).
Definition seenEntries : list EventEntry := [entry ReasonDeploymentSucceeded "r1" (Some 1036799000)].

Definition cutWorld : World := (RunOnce (T := cutTurns firstTick true seenEntries) replica firstWorld).1.
Definition resumedWorld : World := (RunOnce (T := cutTurns (firstTick + 180000) false (lateEntry :: seenEntries)) replica cutWorld).1.
Definition laterWorld : World := (RunOnce (T := cutTurns (firstTick + 240000) false (lateEntry :: seenEntries)) replica resumedWorld).1.

Example cut_sweep_loses_event :
  eventMarks (wDB cutWorld) = (1036799000, 1036799000) ∧ eventMarks (wDB resumedWorld) = (firstTick + 180000, 0) ∧
  eventMarks (wDB laterWorld) = (firstTick + 240000, 0) ∧
  sweepStart replica (firstTick + 240000) 0 (firstTick + 300000) > 1036798000 ∧
  dbFacts (wDB laterWorld) !! "r2" = None ∧ is_Some (dbFacts (wDB laterWorld) !! "r1").
Proof. vm_compute. split_and!; try reflexivity. by eexists. Qed.

(** ** Rollups *)

Lemma serving_calm now entries : calm (servingTurns now entries).
Proof. intros n. by split. Qed.

Lemma serving_window now entries : eventsInWindow (T := servingTurns now entries).
Proof.
  intros n from to events complete (total & es & Ha & -> & _). cbn [turnAt servingTurns tnAdapter] in Ha. injection Ha as _ <-.
  apply Forall_fmap, Forall_forall. cbn [default from_option id]. intros e [[Hfrom _] _]%list_elem_of_filter. cbn.
  unfold eventOfEntry. by destruct (default _ (eeMetadata e)) as [[[? ?] ?] ?].
Qed.

Definition releaseFact (uid outcome : string) (ready lead : Z) : DeploymentFact :=
  mkFact uid "acme" "p1" "c1" "" "" "" "" "" "" None None (Some ready) outcome "" "" "" (Some lead) 1.

(** Two deployments of a day. *)
Definition factsOfDay : InsightsDB :=
  mkDB {["r1" := releaseFact "r1" OutcomeSuccess 1000 30; "r2" := releaseFact "r2" OutcomeFailed 2000 50]} ∅ ∅ ∅ ∅.

Lemma day_scopes : scopesSound factsOfDay.
Proof.
  assert (Hin : ∀ s, scopeIn factsOfDay s → s ∈ scopesForFact "acme" "p1" "c1" "").
  { intros s [(k & f & Hk & Hs)|(k & r & Hk & _)]; [|unfold factsOfDay, dbRecoveries in Hk; by apply lookup_empty_Some in Hk].
    unfold factsOfDay, dbFacts in Hk.
    apply lookup_insert_Some in Hk as [[_ <-]|[_ Hk]]; [exact Hs|]. apply lookup_singleton_Some in Hk as [_ <-]. exact Hs. }
  change (scopesForFact "acme" "p1" "c1" "") with
    [mkScope ScopeTypeNamespace "acme" "" "acme" ""; mkScope ScopeTypeProject "p1" "" "acme" "p1"; mkScope ScopeTypeComponent "c1" "" "acme" "p1"] in Hin.
  split.
  - intros s Hs%Hin. rewrite !elem_of_cons, elem_of_nil in Hs. by destruct Hs as [->|[->|[->|[]]]].
  - intros s s' Hs%Hin Hs'%Hin. rewrite !elem_of_cons, elem_of_nil in Hs. rewrite !elem_of_cons, elem_of_nil in Hs'.
    destruct Hs as [->|[->|[->|[]]]], Hs' as [->|[->|[->|[]]]]; done.
Qed.

Definition componentScope : rollupScope := mkScope ScopeTypeComponent "c1" "" "acme" "p1".


(** A deployment is ready in January and degrades in February. *)
Definition january : Z := 14 * dayMs + 1000.
Definition february : Z := 40 * dayMs + 1000.
Definition readyInJanuary : World :=
  (RunOnce (T := servingTurns (january + 3600000) [entry ReasonDeploymentSucceeded "r1" (Some january)]) replica firstWorld).1.
Definition quietFebruary : World := (RunOnce (T := servingTurns (february - 1000) []) replica readyInJanuary).1.
Definition degradeTurns : Turns := servingTurns (february + 1000) [entry ReasonDeploymentFailed "r1" (Some february)].
Definition degradedInFebruary : World := (RunOnce (T := degradeTurns) replica quietFebruary).1.
Definition januaryRollup : rollupPK := (ScopeTypeComponent, "c1", "", GranularityMonthly, 0).

Lemma old_rollups_frozen_witness :
  dfOutcome <$> dbFacts (wDB degradedInFebruary) !! "r1" = Some OutcomeFailed ∧
  mrDeployFailed <$> dbRollups (wDB degradedInFebruary) !! januaryRollup = Some 0.
Proof.
  split; [vm_compute; reflexivity|].
  refine (eq_trans (f_equal (fmap mrDeployFailed) (old_rollups_frozen degradeTurns replica quietFebruary januaryRollup _ _ _ _ _)) _).
  - apply serving_quiet.
  - intros n db. reflexivity.
  - apply serving_window.
  - intros n cursor to limit entries Hi. cbn in Hi. by injection Hi.
  - vm_compute. reflexivity.
  - vm_compute. reflexivity.
Defined.

(** The recovery of a rollout is served before its failure, and its success last.
    The bucket of the failure has nothing left to count, and keeps its rollup. *)
Definition failedFirstDay : EventEntry := entry ReasonDeploymentFailed "r1" (Some 86390000).
Definition readySecondDay : EventEntry := entry ReasonDeploymentSucceeded "r1" (Some 86410000).
Definition recoveredSecondDay : EventEntry := entry ReasonDeploymentRecovered "r1" (Some 86410000).
Definition servedInTurn : World :=
  (RunOnce (T := servingTurns 86440000 [failedFirstDay; readySecondDay; recoveredSecondDay]) replica
     (RunOnce (T := servingTurns 86430000 [failedFirstDay; recoveredSecondDay]) replica
        (RunOnce (T := servingTurns 86420000 [recoveredSecondDay]) replica firstWorld).1).1).1.
Definition dailyTotal (w : World) (day : Z) : option Z :=
  mrDeployTotal <$> dbRollups (wDB w) !! (ScopeTypeComponent, "c1", "", GranularityDaily, day * dayMs).

Example moved_deployment_counted_twice :
  size (dbFacts (wDB servedInTurn)) = 1%nat ∧ dailyTotal servedInTurn 0 = Some 1 ∧ dailyTotal servedInTurn 1 = Some 1.
Proof. vm_compute. done. Qed.

(** ** Answers *)

#[local] Instance namedUIDs : ScopeUIDResolver := {|
  GetProjectUID _ _ _ := inl "p1";
  GetComponentUID _ _ _ _ := inl "c1";
  GetEnvironmentUID _ _ _ := inl "e1"
|}.
#[local] Instance namedUIDs_laws : ResolverLaws.
Proof. split; cbn; intros; simplify_eq; by split. Qed.

(** Only the owner of the namespace [acme] may look. *)
#[local] Instance acmeOnly : PDP := {|
  pdpEvaluate _ req := inl (AuthzCore.mkDecision (bool_decide (AuthzCore.Namespace (AuthzCore.Hierarchy (AuthzCore.ReqResource req)) = "acme")) None)
|}.

Definition metricsService : DoraMetricsService := mkDoraService true true true.
Definition viewer : AuthzCore.SubjectContext := AuthzCore.mkSubjectContext "user" "groups" ["acme-dev"].
Definition firstDay : DoraMetricsQueryRequest :=
  mkMetricsRequest (mkSearchScope "acme" (Some "web") (Some "api") None) (Some 0) (Some 86400000000000) None None.

(** The tables after a rebuild. *)
Definition rebuiltDB : InsightsDB :=
  wDB (recomputeRollups (T := servingTurns 200000000 []) [1000] 200000000 (mkWorld factsOfDay 0 0)).1.
Definition rebuiltDay : World := mkWorld rebuiltDB 3 0.

Lemma rebuilt_keyed : keyedRollups rebuiltDB.
Proof. apply (bool_decide_unpack (map_Forall (λ k r, pkOf r = k) (dbRollups rebuiltDB))). vm_compute. exact I. Qed.

Definition dayScope : resolvedDeliveryInsightsScope := mkResolved ScopeTypeComponent "c1" "acme" "p1" "c1" "".

(** After the two names are resolved. *)
Definition askedDay : World := mkWorld rebuiltDB 5 0.

Lemma asked_resolved : resolveScope (T := servingTurns 200000000 []) (mqSearchScope firstDay) rebuiltDay = (askedDay, inl dayScope).
Proof. unfold rebuiltDay, askedDay. generalize rebuiltDB. intros db. reflexivity. Qed.

Lemma rebuilt_fresh : freshRollups rebuiltDB 200000000 dayScope GranularityDaily 0 86400000.
Proof.
  assert (Hb : bucketStarts GranularityDaily 0 86400000 = [0]) by (vm_compute; reflexivity).
  intros b Hin. rewrite Hb in Hin. apply list_elem_of_singleton in Hin as ->. vm_compute. reflexivity.
Qed.


(** A deployment of another namespace. *)
Definition foreignDay : InsightsDB :=
  withFacts factsOfDay (<["x9" := mkFact "x9" "evil" "p1" "c1" "" "" "" "" "" "" None None (Some 3000) OutcomeFailed "" "" "" None 1]> (dbFacts factsOfDay)).


Lemma cadence_misclassified_witness :
  fsClassification (buildFrequencySummary (mkCounts 4 4 0) (mkCounts 0 0 0) (28 * dayMs)) = DoraMedium.
Proof. apply (cadence_misclassified 4 (mkCounts 0 0 0)); lia. Defined.

(** ** From the controller to the metrics *)

#[local] Existing Instances kept_events kept_events_laws plain_nested.

(** A payload is written as the number of its fields. *)
Definition payloadFields (p : deliveryEventPayload) : list string * Z :=
  ([plRolloutID p; plComponentReleaseName p; plNamespaceName p; plProjectUID p; plComponentUID p; plEnvironmentUID p; plCommit p;
    plCommitAuthoredAt p; plFailureReason p], plFailureEpisode p).

#[local] Instance numberedDelivery : DeliveryCodec := {
  decodeDeploymentConditions _ := None;
  decodePodStatus _ := None;
  marshalPayload p := inl (pretty (Npos (encode (payloadFields p))))
}.

#[local] Instance numberedCodec : EventCodec := {
  unmarshalPayload m :=
    match parse_digits 0 m with
    | Some (Npos n) =>
        match decode n : option (list string * Z) with
        | Some ([rollout; release; namespace; project; component; environment; commit; authored; reason], episode) =>
            Some (mkEventPayload rollout release namespace project component environment commit authored reason episode)
        | _ => None
        end
    | _ => None
    end;
  parseEntryTime _ := None
}.

Definition collected (e : Event) : DeliveryEvent :=
  mkDeliveryEvent (evtReason e) (Z.max 1 (default 1 (evtFirstTimestamp e) / 1000000)) "" "" "" "" (evtMessage e).

Lemma collected_faithful : faithfulCollector collected.
Proof.
  split; try done.
  - intros e. cbn. lia.
  - intros p msg [= <-]. cbn [unmarshalPayload numberedCodec]. rewrite parse_digits_pretty, decode_encode. reflexivity.
Qed.

(** The rollout is not applied at first, and then healthy. *)
Definition appliedRun : list Event * DeliveryStatus :=
  (markDeliveryApplyFailure () (1 * secondNs) sampleRollout ([], deliveryState None sampleRollout)).1.
Definition healthyRun : list Event * DeliveryStatus :=
  (emitDeliveryEvents () (3 * secondNs) sampleRollout [healthy "Deployment" "web"]
     (appliedRun.1, deliveryState (Some (storedMarkers appliedRun.2)) sampleRollout)).1.

Lemma episodes_measured_witness :
  ∃ new row, eventLog () healthyRun.1 = new ∧
    recoveriesAfter (foldedAt collected 9000 new) !! healthRecoveryID "r1.u1.2" 1 = Some row ∧ is_Some (rfDurationMs row).
Proof.
  destruct (episodes_measured () sampleRollout collected [] healthyRun.1 None (Some (storedMarkers healthyRun.2)) 9000 1) as (new & Hnew & Hrec & _).
  - apply collected_faithful.
  - intros H. discriminate H.
  - reflexivity.
  - intros reason ep _. apply not_elem_of_nil.
  - intros m Hm. discriminate Hm.
  - apply (rtc_l _ _ (appliedRun.1, Some (storedMarkers appliedRun.2))).
    + exact (step_run () sampleRollout _ _ [] None (run_apply_failed () sampleRollout _)).
    + apply rtc_once. exact (step_run () sampleRollout _ _ appliedRun.1 (Some (storedMarkers appliedRun.2)) (run_health () sampleRollout _ _)).
  - destruct Hrec as (row & failed & recovered & Hrow & _ & _ & _ & _ & _ & Hdur).
    + apply (bool_decide_unpack _). vm_compute. exact I.
    + exists new, row. split; [exact Hnew|]. split; [exact Hrow|]. rewrite Hdur. by eexists.
Defined.
